(* ===== verification/_CoqProject ===== *)
-Q . S2P
Prelude.v
Bytes.v
Cs1550Disk.v
Cs1550DiskFacts.v
Cs1550Fs.v
Cs1550Path.v
Cs1550Spec.v
Cs1550Refine.v
Cs1550RefineFile.v
Cs1550RefineData.v
Cs1550RefineWrite.v
Cs1550Errors.v
Cs1550Claims.v
Sem.v
SemFacts.v
Trafficsim.v
Aptsim.v
AptsimClaims.v
XString.v
Kalloc.v
Vm.v
VmFacts.v
VmClaims.v
VmSpace.v
VmSetup.v
Pipe.v
Spinlock.v
Proc.v
ProcClaims.v
Bio.v
Ide.v
IdeClaims.v
Log.v
LogFacts.v
LogClaims.v
Fs.v
File.v
FsFacts.v
FsBlocks.v
FsInode.v
FsIO.v
FsDinode.v
FsUpdate.v
FsDir.v
FsDirlink.v
FsClaims.v
FsNames.v
FsCache.v
FsNamex.v
FsNameClaims.v
FsTxn.v
Mkfs.v
MkfsFacts.v
MkfsClaims.v
FileFacts.v
FileClaims.v
Exec.v
ExecStack.v
ExecLoad.v
ExecClaims.v
ExecFs.v
ExecBoot.v
FileTable.v
Grep.v
Sysfile.v
SysfileClaims.v
Umalloc.v
UmallocFacts.v
UmallocClaims.v
Sh.v
ShClaims.v
ShPrint.v
ShRun.v
Console.v
Ulib.v
