(* ===== verification/Prelude.v ===== *)
(** * Verification of the CS1550 operating-systems course work

    The repository holds the C programs of an operating-systems course: a FUSE file
    system on a disk image ([src/proj4/cs1550.c]), programs that synchronise with
    semaphores added to a kernel ([src/proj1_test], [src/proj2/aptsim.c]), and two
    copies of the xv6 kernel with the changes of lab 3 (a priority scheduler) and
    lab 4 (lazy allocation of user memory).

    ** How C code is modelled

    A function is a Rocq function into [res], or into the state monad [M] over the
    part of the machine it works on; every branch and early return of the source is
    there.  [Fault Undefined] stands for what C leaves undefined (an access outside
    an object, the use of an indeterminate value), [Fault (Panic msg)] for a call
    of [panic].  Integers are [Z] with the wrap-around of their C type written out
    ([u32], [s32], ...); memory, disk blocks and buffers are lists of bytes with
    bounded loads and stores (Bytes).  A loop that is not structural takes a number
    of iterations; running out gives [Fault OutOfFuel], and theorems about results
    show that the number passed by the model is enough.

    ** Files

    - Prelude, Bytes: outcomes, the state monad, machine integers, list lemmas and
      tactics; byte buffers and little-endian words.
    - Cs1550Disk, Cs1550Fs: the cs1550 file system, from the image file and its
      bitmap to the FUSE handlers.  Cs1550Spec is the abstract file system
      (directories with files with contents), Cs1550DiskFacts and Cs1550Path
      describe images and paths, Cs1550Refine, -File, -Data and -Write relate each
      handler to the abstract operation, Cs1550Errors has the failing branches, and
      Cs1550Claims the theorems.
    - Sem, SemFacts: processes that run programs over semaphores and shared
      variables, as a step relation; invariants of every such program.  Trafficsim:
      the three test programs.  Aptsim, AptsimClaims: the apartment simulation.
    - XString: [string.c] of xv6.  Kalloc: the page allocator.  Vm, VmFacts,
      VmClaims: page tables, user memory, lab 4's page fault and lazy [sbrk].
      VmSpace: the invariant of a whole address space, from growing to [freevm];
      VmSetup: [setupkvm] makes one.
      Pipe: pipes.  Spinlock: spin locks, interrupt nesting, sleep locks.  Proc,
      ProcClaims: the process table and the schedulers.
    - Bio, Log, LogFacts, LogClaims: the buffer cache with its disk driver's
      contract, and the write-ahead log on it.  Ide, IdeClaims: the disk driver,
      which implements that contract, over a drive given by the laws of its
      registers; the drive may fail commands.
    - Fs: all of [fs.c] over the log.  FsFacts (running code in a transaction),
      FsBlocks (allocator), FsInode (a file's blocks, [bmap]), FsIO ([readi] and
      [writei]), FsDinode and FsUpdate (inodes on the disk), FsDir, FsDirlink
      (directories), FsNames, FsCache, FsNamex (paths and the inode cache);
      FsClaims and FsNameClaims have the theorems.  FsTxn puts them between
      [begin_op] and [end_op].
    - Mkfs, MkfsFacts, MkfsClaims: the program [mkfs.c] that makes the disk image.
    - File: [file.c] over files and pipes.  FileFacts and FileClaims follow
      [filewrite] through its transactions, FileTable the reference counts of open
      files and pipes.
    - Exec: [exec.c] over the file system, the memory and the process.  ExecStack
      (the stack page and the arguments), ExecLoad (the image), ExecClaims (from
      the ELF header to the commit, over any reader of the file), ExecFs (the file
      system as that reader, and the whole call), ExecBoot (a program run from an
      image of mkfs).
    - Sysfile, SysfileClaims: [sysfile.c] and the argument fetching of
      [syscall.c].
    - Console: the input buffer and the screen of [console.c].
    - Grep: the matcher and the input loop of [grep.c].  Umalloc, UmallocFacts,
      UmallocClaims: the user-level allocator of [umalloc.c].  Sh, ShClaims,
      ShPrint: the parser of the shell [sh.c], and the command lines it is for;
      ShRun: running them.
      Ulib: [printf.c] and [atoi].

    ** What the theorems show

    - The cs1550 handlers: on an image that represents an abstract file system,
      [mkdir], [mknod] and [write] have the abstract result and leave an image of
      the abstract next state; [getattr], [readdir] and [read] return what the
      abstract state holds; the allocator is first fit.  Where a handler leaves its
      contract (a full directory, a write of more than a block) the theorems say
      what happens instead.
    - Semaphore programs, for every interleaving: mutual exclusion, absence of
      races on counters, output order, a complete visit; and the deadlock and the
      broken limits of the apartment simulation.
    - xv6 memory: [memset], [memmove] and the string copies; the allocator is a
      stack of pages; mapping one page changes one page; an address space grows,
      shrinks and is freed without losing a page or holding one twice; the lazy
      page fault.
    - [exec], from a disk at rest and an inode cache with room: it returns, with the
      file system at rest; either the process
      is as it was and no page is lost, or it runs the image that the file
      describes with its arguments on the stack; and which of the two, given enough
      free pages.
    - xv6 processes and locks: the discipline of spin locks and interrupt nesting;
      an invariant of the process table in every interleaving of the processes, in
      which [fork] and [exit] can be preempted where they do not hold the lock; the scheduler
      runs a process of the best priority; [exit] and [wait] meet.  A pipe is a
      bounded queue.
    - xv6 disk: every interleaving of requests and interrupts in the driver is a
      sequence of requests served one at a time, in order, or failed by the drive,
      and each is completed; the image of mkfs is a file system with the files it
      was given, unless the entries of the root fill its blocks; at every
      point of a commit or a recovery the disk means the state before or the state
      after; the admission rule of [begin_op] reserves log
      space; block allocation, file contents as lists of bytes, directories and
      path names as [fs.c] implements them, with the reference counts of the inode
      cache.
    - xv6 files and calls: what [write] returns is on the disk, durably, as one or
      more transactions; open files, pipes and descriptors agree on their reference
      counts whatever calls are made, and a call that fails leaves them alone; arguments from user space are checked before
      they are used.
    - The console is a line discipline with editing, on a ring buffer whose counters
      wrap; output stays on the screen.
    - User programs: grep decides regular expressions and prints the matching lines;
      [malloc] and [free] keep blocks apart, keep their contents, join what is free
      and always return, over every history of calls with sizes below 2 GB; the shell's parser terminates
      on every line and inverts the printing of its grammar, and its commands get
      the descriptors they say and no others; printed numbers read back.

    ** Bounds

    Loops over a table or a bitmap get one iteration more than the table has
    entries; block loops of [readi] and [writei] get one per 512 bytes and three
    more, since every turn but the first and last covers a block; path loops get
    the length of the path, since every turn uses a byte; the shell's parser gets
    four calls per byte, since its four functions call each other at most once each
    before a byte is used; [iappend] of mkfs gets a turn per byte; the disk driver
    polls the drive as often as the drive's law says is enough; page loops get one
    turn per page and two more; a lap over the allocator's free list gets one turn
    per byte of memory, and a block has at least eight; spinning on a lock gets
    the number given by the caller and the theorems quantify over it.

    ** Not modelled

    The vendored FUSE library and kernel module (third-party code), the Python
    project 3, xv6's boot code, assembly and drivers other than the disk's and the
    console's (hardware registers without state of the kernel's), its system-call
    dispatch table, the user programs that only issue system calls, and
    debug output.  The xv6 disk
    functions are followed for one process at a time: a lock that is taken is a
    wait without end; interleavings are modelled for locks, for the process table,
    for the disk driver and for the log's reservations. *)
From stdpp Require Import base numbers list gmap strings.
#[local] Open Scope Z_scope.

(** ** Outcomes of C code

    A C function either returns, or it does something the C language gives no
    meaning to ([Undefined]: an access outside an object, a read of an
    indeterminate value, a null dereference), or it stops the machine through
    [panic] ([Panic]), or -- in the model only -- a loop has used up the
    iteration bound it was given ([OutOfFuel]). *)
Inductive fault : Type :=
| Undefined
| Panic (msg : string)
| OutOfFuel.

Inductive res (A : Type) : Type :=
| Ok (a : A)
| Fault (f : fault).
Arguments Ok {A} a.
Arguments Fault {A} f.

#[export] Instance res_ret : MRet res := λ A a, Ok a.
#[export] Instance res_bind : MBind res :=
  λ A B k m, match m with Ok a => k a | Fault f => Fault f end.

Definition of_option {A} (o : option A) : res A :=
  match o with Some a => Ok a | None => Fault Undefined end.

(** Stateful C code: a function from the state to an outcome. *)
Definition M (S A : Type) : Type := S → res (A * S).

#[export] Instance M_ret S : MRet (M S) := λ A a s, Ok (a, s).
#[export] Instance M_bind S : MBind (M S) :=
  λ A B k m s, match m s with Ok (a, s') => k a s' | Fault f => Fault f end.

Definition fail {S A} (f : fault) : M S A := λ _, Fault f.
Definition lift {S A} (r : res A) : M S A :=
  λ s, match r with Ok a => Ok (a, s) | Fault f => Fault f end.
Definition gets {S A} (f : S → A) : M S A := λ s, Ok (f s, s).
Definition modify {S} (f : S → S) : M S unit := λ s, Ok (tt, f s).
Definition panic {S A} (msg : string) : M S A := fail (Panic msg).
Arguments panic {S A} msg%_string_scope.

(** ** Machine integers *)

Definition u8 (z : Z) : Z := z `mod` 2^8.
Definition u16 (z : Z) : Z := z `mod` 2^16.
Definition u32 (z : Z) : Z := z `mod` 2^32.
Definition u64 (z : Z) : Z := z `mod` 2^64.
Definition s32 (z : Z) : Z := (z + 2^31) `mod` 2^32 - 2^31.
Definition s64 (z : Z) : Z := (z + 2^63) `mod` 2^64 - 2^63.

(** ** Running monadic code *)

Section monad_laws.
Context {S : Type}.

Lemma bind_ok {A B} (m : M S A) (k : A → M S B) s a s' :
  m s = Ok (a, s') → (m ≫= k) s = k a s'.
Proof. by intros H; unfold mbind, M_bind; rewrite H. Qed.

Lemma bind_fault {A B} (m : M S A) (k : A → M S B) s f :
  m s = Fault f → (m ≫= k) s = Fault f.
Proof. by intros H; unfold mbind, M_bind; rewrite H. Qed.

Lemma bind_inv {A B} (m : M S A) (k : A → M S B) s b s'' :
  (m ≫= k) s = Ok (b, s'') →
  ∃ a s', m s = Ok (a, s') ∧ k a s' = Ok (b, s'').
Proof. unfold mbind, M_bind; destruct (m s) as [[a s']|]; naive_solver. Qed.

Lemma bind_assoc {A B C} (m : M S A) (k : A → M S B) (h : B → M S C) s :
  ((m ≫= k) ≫= h) s = (m ≫= λ a, k a ≫= h) s.
Proof. unfold mbind, M_bind; by destruct (m s) as [[? ?]|]. Qed.

Lemma run_ret {A} (a : A) s : (mret a : M S A) s = Ok (a, s).
Proof. done. Qed.
Lemma run_lift {A} (a : A) s : (lift (Ok a) : M S A) s = Ok (a, s).
Proof. done. Qed.
End monad_laws.

(** [mstep H] runs the first command of the goal's sequence with the equation
    [H]; [minv H] splits a successful run of a sequence into its parts. *)
Ltac mstep H := rewrite (bind_ok _ _ _ _ _ H); cbv beta.
Ltac minv H :=
  let a := fresh "a" in let s := fresh "s" in let H1 := fresh "Hrun" in
  apply bind_inv in H as (a & s & H1 & H).

(** ** Arithmetic facts shared by the components *)

Lemma u32_small z : 0 ≤ z < 2^32 → u32 z = z.
Proof. intros; unfold u32; by apply Z.mod_small. Qed.
Lemma u64_small z : 0 ≤ z < 2^64 → u64 z = z.
Proof. intros; unfold u64; by apply Z.mod_small. Qed.
Lemma u8_small z : 0 ≤ z < 2^8 → u8 z = z.
Proof. intros; unfold u8; by apply Z.mod_small. Qed.
Lemma s32_small z : - 2^31 ≤ z < 2^31 → s32 z = z.
Proof. intros; unfold s32; rewrite Z.mod_small; lia. Qed.
Lemma s64_small z : - 2^63 ≤ z < 2^63 → s64 z = z.
Proof. intros; unfold s64; rewrite Z.mod_small; lia. Qed.
Lemma u32_range z : 0 ≤ u32 z < 2^32.
Proof. by apply Z.mod_pos_bound. Qed.
Lemma u64_range z : 0 ≤ u64 z < 2^64.
Proof. by apply Z.mod_pos_bound. Qed.
Lemma u8_range z : 0 ≤ u8 z < 2^8.
Proof. by apply Z.mod_pos_bound. Qed.
Lemma s32_u32 z : s32 (u32 z) = s32 z.
Proof. unfold s32, u32. by rewrite Zplus_mod_idemp_l. Qed.
Lemma s64_u64 z : s64 (u64 z) = s64 z.
Proof. unfold s64, u64. by rewrite Zplus_mod_idemp_l. Qed.

Create HintDb cs.
Create Rewrite HintDb cs.
#[export] Hint Rewrite u8_small u32_small u64_small s32_small s64_small using lia : cs.
#[export] Hint Resolve u8_range u32_range u64_range : cs.

(** [cs_arith] normalises machine arithmetic that provably does not wrap and
    calls [lia]. *)
Ltac cs_arith := autorewrite with cs in *; lia.

(** [dlia]: [lia] on goals with division and modulo by constants. *)
Ltac dlia := first [lia | Z.div_mod_to_equations; lia].

(** ** Counting loops

    [for_break fuel test i n] is [for(; i < n; i++) if(test(i)) break;] and
    returns the final [i]; [for_collect] is the loop that appends [get(i)] to a
    result for every [i].  [fuel] bounds the iterations. *)
Fixpoint for_break (fuel : nat) (test : Z → res bool) (i n : Z) : res Z :=
  match fuel with
  | O => Fault OutOfFuel
  | S fuel =>
    if bool_decide (i < n) then
      found ← test i;
      if (found : bool) then mret i else for_break fuel test (i + 1) n
    else mret i
  end.

Fixpoint for_collect {A} (fuel : nat) (get : Z → res A) (i n : Z) (acc : list A)
  : res (list A) :=
  match fuel with
  | O => Fault OutOfFuel
  | S fuel =>
    if bool_decide (i < n) then
      x ← get i; for_collect fuel get (i + 1) n (acc ++ [x])
    else mret acc
  end.

Section for_loops.
Context {E : Type}.

(** A breaking loop over an array that represents [l] stops at the first
    element satisfying [P], or at the end. *)
Lemma for_break_find (P : E → Prop) `{∀ e, Decision (P e)} (l : list E) (test : Z → res bool) :
  (∀ j e, l !! j = Some e → test (Z.of_nat j) = Ok (bool_decide (P e))) →
  for_break (S (length l)) test 0 (Z.of_nat (length l)) =
  Ok (match list_find P l with Some (j, _) => Z.of_nat j | None => Z.of_nat (length l) end).
Proof.
  intros Ht.
  cut (∀ fuel i, (i ≤ length l)%nat → (length l - i < fuel)%nat →
    for_break fuel test (Z.of_nat i) (Z.of_nat (length l)) =
    Ok (match list_find P (drop i l) with
        | Some (j, _) => Z.of_nat (i + j) | None => Z.of_nat (length l) end)).
  { intros Hc. specialize (Hc (S (length l)) 0%nat). rewrite drop_0 in Hc. apply Hc; lia. }
  induction fuel as [|fuel IH]; intros i Hi Hf; [lia|]. simpl.
  destruct (l !! i) as [e|] eqn:El.
  - pose proof (lookup_lt_Some _ _ _ El). rewrite bool_decide_eq_true_2 by lia.
    rewrite (drop_S _ _ _ El), (Ht _ _ El). simpl. destruct (decide (P e)).
    + rewrite bool_decide_eq_true_2 by done. unfold mret, res_ret. do 2 f_equal. lia.
    + rewrite bool_decide_eq_false_2 by done. replace (Z.of_nat i + 1) with (Z.of_nat (S i)) by lia.
      rewrite IH by lia. destruct (list_find P (drop (S i) l)) as [[j ?]|]; simpl; [|done].
      do 2 f_equal. lia.
  - apply lookup_ge_None in El. rewrite bool_decide_eq_false_2 by lia.
    rewrite drop_ge by lia. simpl. unfold mret, res_ret. do 2 f_equal. lia.
Qed.

Lemma for_collect_map {A} (f : E → A) (l : list E) (get : Z → res A) acc :
  (∀ j e, l !! j = Some e → get (Z.of_nat j) = Ok (f e)) →
  for_collect (S (length l)) get 0 (Z.of_nat (length l)) acc = Ok (acc ++ map f l).
Proof.
  intros Hg.
  cut (∀ fuel i acc, (i ≤ length l)%nat → (length l - i < fuel)%nat →
    for_collect fuel get (Z.of_nat i) (Z.of_nat (length l)) acc = Ok (acc ++ map f (drop i l))).
  { intros Hc. specialize (Hc (S (length l)) 0%nat acc). rewrite drop_0 in Hc. apply Hc; lia. }
  clear acc. induction fuel as [|fuel IH]; intros i acc Hi Hf; [lia|]. simpl.
  destruct (l !! i) as [e|] eqn:El.
  - pose proof (lookup_lt_Some _ _ _ El). rewrite bool_decide_eq_true_2 by lia.
    rewrite (drop_S _ _ _ El), (Hg _ _ El). simpl.
    replace (Z.of_nat i + 1) with (Z.of_nat (S i)) by lia.
    rewrite IH by lia. by rewrite <- app_assoc.
  - apply lookup_ge_None in El. rewrite bool_decide_eq_false_2 by lia.
    rewrite drop_ge by lia. simpl. by rewrite app_nil_r.
Qed.
End for_loops.

(** ** Lists and sums *)
Definition tally {X} (f : X → Z) (l : list X) : Z := foldr (λ x acc, f x + acc) 0 l.

Lemma elem_of_insert_inv {X} (l : list X) i (x y : X) : x ∈ <[i := y]> l → x = y ∨ x ∈ l.
Proof.
  intros [j Hj]%list_elem_of_lookup. destruct (decide (i = j)) as [->|].
  - left. pose proof (lookup_lt_Some _ _ _ Hj) as Hl. rewrite length_insert in Hl.
    rewrite list_lookup_insert_eq in Hj by done. by simplify_eq.
  - right. rewrite list_lookup_insert_ne in Hj by done. by eapply list_elem_of_lookup_2.
Qed.

Lemma elem_of_alter_inv {X} (f : X → X) (l : list X) i (x : X) :
  x ∈ alter f i l → x ∈ l ∨ ∃ y, l !! i = Some y ∧ x = f y.
Proof.
  intros [j Hj]%list_elem_of_lookup. destruct (decide (i = j)) as [->|].
  - rewrite list_lookup_alter_eq in Hj. destruct (l !! j) eqn:E; simplify_eq/=. eauto.
  - left. rewrite list_lookup_alter_ne in Hj by done. by eapply list_elem_of_lookup_2.
Qed.

Section tally.
Context {X : Type}.
Implicit Types (f g : X → Z) (l : list X).

Lemma tally_app f l1 l2 : tally f (l1 ++ l2) = tally f l1 + tally f l2.
Proof. induction l1; simpl; lia. Qed.

Lemma tally_insert f l i x y :
  l !! i = Some x → tally f (<[i := y]> l) = tally f l - f x + f y.
Proof.
  revert i. induction l as [|z l IH]; intros [|i] Hi; simplify_eq/=; [lia|].
  rewrite (IH _ Hi). lia.
Qed.

Lemma tally_alter f h l i x :
  l !! i = Some x → tally f (alter h i l) = tally f l - f x + f (h x).
Proof.
  revert i. induction l as [|z l IH]; intros [|i] Hi; simplify_eq/=; [lia|].
  change (f z + tally f (alter h i l) = f z + tally f l - f x + f (h x)). rewrite (IH _ Hi). lia.
Qed.

Lemma tally_nonneg f l : (∀ x, x ∈ l → 0 ≤ f x) → 0 ≤ tally f l.
Proof.
  induction l as [|x l IH]; intros H; simpl; [lia|].
  pose proof (H x ltac:(by left)). assert (0 ≤ tally f l); [|lia].
  apply IH. intros y Hy. apply H. by right.
Qed.

Lemma tally_le f g l : (∀ x, x ∈ l → f x ≤ g x) → tally f l ≤ tally g l.
Proof.
  induction l as [|x l IH]; intros H; simpl; [lia|].
  pose proof (H x ltac:(by left)). assert (tally f l ≤ tally g l); [|lia].
  apply IH. intros y Hy. apply H. by right.
Qed.

(** One element's share, and two elements' share, of a sum of nonnegative terms. *)
Lemma tally_one f l i x :
  (∀ x, x ∈ l → 0 ≤ f x) → l !! i = Some x → f x ≤ tally f l.
Proof.
  revert i. induction l as [|y l IH]; intros [|i] H Hi; simplify_eq/=.
  - assert (0 ≤ tally f l); [|lia]. apply tally_nonneg. intros z Hz. apply H. by right.
  - pose proof (H y ltac:(by left)). assert (f x ≤ tally f l); [|lia].
    eapply IH; [|exact Hi]. intros z Hz. apply H. by right.
Qed.

Lemma tally_two f l i j x y :
  (∀ x, x ∈ l → 0 ≤ f x) → i ≠ j → l !! i = Some x → l !! j = Some y → f x + f y ≤ tally f l.
Proof.
  revert i j. induction l as [|z l IH]; intros [|i] [|j] H Hij Hi Hj; simplify_eq/=.
  - assert (f y ≤ tally f l); [|lia]. eapply tally_one; [|exact Hj]. intros w Hw. apply H. by right.
  - assert (f x ≤ tally f l); [|lia]. eapply tally_one; [|exact Hi]. intros w Hw. apply H. by right.
  - pose proof (H z ltac:(by left)). assert (f x + f y ≤ tally f l); [|lia].
    apply (IH i j); try done; [|lia]. intros w Hw. apply H. by right.
Qed.
End tally.

Lemma tally_map {X Y} (g : X → Y) (f : Y → Z) l : tally f (map g l) = tally (λ x, f (g x)) l.
Proof. induction l; simpl; congruence. Qed.
Lemma tally_zero {X} (f : X → Z) l : (∀ x, x ∈ l → f x = 0) → tally f l = 0.
Proof.
  induction l as [|x l IH]; intros H; simpl; [done|].
  rewrite (H x) by (by left). rewrite IH; [done|]. intros y Hy. apply H. by right.
Qed.

(** Changing a function at one element of a list. *)
Lemma tally_change {X} (f g : X → Z) l x : NoDup l → x ∈ l → (∀ y, y ∈ l → y ≠ x → g y = f y) →
  tally g l = tally f l - f x + g x.
Proof.
  induction 1 as [|y l Hy Hnd IH]; intros Hx Hfg; [by apply not_elem_of_nil in Hx|]. simpl.
  apply elem_of_cons in Hx as [->|Hx].
  - assert (tally g l = tally f l) as ->; [|lia]. clear IH Hnd. induction l as [|z l IH]; [done|]. simpl.
    rewrite (Hfg z) by set_solver. rewrite IH; [done|set_solver..].
  - rewrite IH, (Hfg y) by set_solver. lia.
Qed.
