(* ===== verification/Bytes.v ===== *)
(** * Byte buffers

    C objects seen as arrays of bytes: bounded loads and stores, little-endian
    integers of any width, and NUL-terminated strings.  A byte is a [Z] between
    0 and 255.  An access that leaves the buffer is [Undefined]. *)
From stdpp Require Import base numbers list.
From S2P Require Import Prelude.
#[local] Open Scope Z_scope.

Definition byte_ok (b : Z) : Prop := 0 ≤ b < 256.
#[export] Instance byte_ok_dec b : Decision (byte_ok b).
Proof. unfold byte_ok; apply _. Defined.

(** ** Little-endian integers *)

Fixpoint le_bytes (n : nat) (v : Z) : list Z :=
  match n with
  | O => []
  | S n => v `mod` 256 :: le_bytes n (v / 256)
  end.

Fixpoint le_val (l : list Z) : Z :=
  match l with
  | [] => 0
  | b :: l => b + 256 * le_val l
  end.

(** ** Slices *)

Definition slice (buf : list Z) (off n : nat) : list Z := take n (drop off buf).
Definition splice (buf : list Z) (off : nat) (bs : list Z) : list Z :=
  take off buf ++ bs ++ drop (off + length bs) buf.

Definition in_bounds (buf : list Z) (off : Z) (n : nat) : bool :=
  bool_decide (0 ≤ off ∧ off + Z.of_nat n ≤ Z.of_nat (length buf)).

Definition load_bytes (buf : list Z) (off : Z) (n : nat) : res (list Z) :=
  if in_bounds buf off n then Ok (slice buf (Z.to_nat off) n) else Fault Undefined.

Definition store_bytes (buf : list Z) (off : Z) (bs : list Z) : res (list Z) :=
  if in_bounds buf off (length bs) then Ok (splice buf (Z.to_nat off) bs)
  else Fault Undefined.

(** Unsigned loads and stores of [n]-byte integers, and the signed C types. *)
Definition load (n : nat) (buf : list Z) (off : Z) : res Z :=
  bs ← load_bytes buf off n; mret (le_val bs).
Definition store (n : nat) (buf : list Z) (off : Z) (v : Z) : res (list Z) :=
  store_bytes buf off (le_bytes n v).

Definition load_int (buf : list Z) (off : Z) : res Z :=
  v ← load 4 buf off; mret (s32 v).
Definition load_long (buf : list Z) (off : Z) : res Z :=
  v ← load 8 buf off; mret (s64 v).

(** ** Strings

    A C string argument is the list of its bytes before the terminating NUL. *)

(** [strcmp(mem, s) == 0] where [mem] runs to the end of its object: comparing
    past the end of the object is undefined. *)
Fixpoint strcmp_eq (mem s : list Z) : res bool :=
  match mem, s with
  | [], _ => Fault Undefined
  | c :: _, [] => Ok (bool_decide (c = 0))
  | c :: mem', d :: s' => if bool_decide (c = d) then strcmp_eq mem' s' else Ok false
  end.

(** The string that starts at the head of [mem]. *)
Fixpoint cstring (mem : list Z) : res (list Z) :=
  match mem with
  | [] => Fault Undefined
  | c :: mem' => if bool_decide (c = 0) then Ok [] else s ← cstring mem'; mret (c :: s)
  end.

(** [strcpy] of [s] to offset [off] of an object. *)
Definition strcpy (buf : list Z) (off : Z) (s : list Z) : res (list Z) :=
  store_bytes buf off (s ++ [0]).

(** A string proper: no NUL inside. *)
Definition cstr_ok (s : list Z) : Prop := Forall (λ c, 0 < c < 256) s.
#[export] Instance cstr_ok_dec s : Decision (cstr_ok s).
Proof. unfold cstr_ok; apply _. Defined.

(** ** Lemmas *)

Lemma length_le_bytes n v : length (le_bytes n v) = n.
Proof. revert v; induction n; simpl; auto. Qed.

Lemma le_val_bytes n v : le_val (le_bytes n v) = v `mod` 2 ^ (8 * Z.of_nat n).
Proof.
  revert v; induction n as [|n IH]; intros v; simpl.
  - by rewrite Z.mod_1_r.
  - rewrite IH. replace (8 * Z.of_nat (S n)) with (8 + 8 * Z.of_nat n) by lia.
    rewrite Z.pow_add_r by lia. change (2 ^ 8) with 256.
    rewrite Z.rem_mul_r by lia. lia.
Qed.

Lemma le_bytes_ok n v : Forall byte_ok (le_bytes n v).
Proof.
  revert v; induction n; simpl; constructor; auto.
  by apply Z.mod_pos_bound.
Qed.

Lemma le_bytes_val l : Forall byte_ok l → le_bytes (length l) (le_val l) = l.
Proof.
  induction 1 as [|b l Hb Hl IH]; simpl; [done|]. unfold byte_ok in Hb. f_equal.
  - rewrite Z.mul_comm, Z_mod_plus_full. by apply Z.mod_small.
  - rewrite Z.mul_comm, Z.div_add, Z.div_small by lia. by rewrite Z.add_0_l.
Qed.

Lemma le_val_range l : Forall byte_ok l → 0 ≤ le_val l < 2 ^ (8 * Z.of_nat (length l)).
Proof.
  intros H. rewrite <- (le_bytes_val l H), le_val_bytes, length_le_bytes.
  apply Z.mod_pos_bound. lia.
Qed.

Lemma le_val_replicate_0 n : le_val (replicate n 0) = 0.
Proof. induction n; simpl; lia. Qed.

Lemma length_slice buf off n : (off + n ≤ length buf)%nat → length (slice buf off n) = n.
Proof. intros. unfold slice. rewrite length_take, length_drop. lia. Qed.

Lemma length_splice buf off bs :
  (off + length bs ≤ length buf)%nat → length (splice buf off bs) = length buf.
Proof. intros. unfold splice. rewrite !length_app, length_take, length_drop. lia. Qed.

Lemma lookup_splice_new buf off bs i :
  (off + length bs ≤ length buf)%nat → (off ≤ i < off + length bs)%nat →
  splice buf off bs !! i = bs !! (i - off)%nat.
Proof.
  intros Hl Hi. unfold splice. rewrite lookup_app_r; rewrite length_take; [|lia].
  rewrite lookup_app_l by lia. f_equal; lia.
Qed.

Lemma lookup_splice_old buf off bs i :
  (off + length bs ≤ length buf)%nat → (i < off ∨ off + length bs ≤ i)%nat →
  splice buf off bs !! i = buf !! i.
Proof.
  intros Hl [Hi|Hi]; unfold splice.
  - rewrite lookup_app_l by (rewrite length_take; lia). by apply lookup_take_lt.
  - rewrite lookup_app_r; rewrite length_take; [|lia].
    rewrite lookup_app_r by lia. rewrite lookup_drop. f_equal; lia.
Qed.

Lemma lookup_slice buf off n i : (i < n)%nat → slice buf off n !! i = buf !! (off + i)%nat.
Proof. intros. unfold slice. by rewrite lookup_take_lt, lookup_drop by lia. Qed.

Lemma slice_splice_same buf off bs :
  (off + length bs ≤ length buf)%nat → slice (splice buf off bs) off (length bs) = bs.
Proof.
  intros H. unfold slice, splice.
  rewrite drop_app_length' by (rewrite length_take; lia). by rewrite take_app_length.
Qed.

Lemma slice_splice_other buf off bs off' n :
  (off + length bs ≤ length buf)%nat → (off' + n ≤ off ∨ off + length bs ≤ off')%nat →
  slice (splice buf off bs) off' n = slice buf off' n.
Proof.
  intros Hl Hd. apply list_eq; intros i. destruct (decide (i < n)%nat).
  - rewrite !lookup_slice by lia. apply lookup_splice_old; lia.
  - unfold slice. by rewrite !lookup_take_ge by lia.
Qed.

(** A write inside a slice is a write to the slice. *)
Lemma slice_splice_inside buf off n off' bs :
  (off + n ≤ length buf)%nat → (off' + length bs ≤ n)%nat →
  slice (splice buf (off + off') bs) off n = splice (slice buf off n) off' bs.
Proof.
  intros Hl Hi. apply list_eq; intros i. destruct (decide (i < n)%nat).
  - rewrite lookup_slice by lia.
    destruct (decide (off' ≤ i < off' + length bs)%nat).
    + rewrite !lookup_splice_new by (rewrite ?length_slice; lia). f_equal; lia.
    + rewrite !lookup_splice_old by (rewrite ?length_slice; lia). by rewrite lookup_slice by lia.
  - rewrite !lookup_ge_None_2; [done| |].
    + rewrite length_splice; rewrite length_slice; lia.
    + unfold slice. rewrite length_take. lia.
Qed.

Lemma splice_splice_same buf off bs bs' :
  (off + length bs ≤ length buf)%nat → length bs = length bs' →
  splice (splice buf off bs) off bs' = splice buf off bs'.
Proof.
  intros Hl He. apply list_eq; intros i.
  destruct (decide (off ≤ i < off + length bs)%nat).
  - rewrite !lookup_splice_new by (rewrite ?length_splice; lia). done.
  - rewrite !lookup_splice_old by (rewrite ?length_splice; lia). done.
Qed.

Lemma splice_slice_id buf off n :
  (off + n ≤ length buf)%nat → splice buf off (slice buf off n) = buf.
Proof.
  intros H. apply list_eq; intros i. destruct (decide (off ≤ i < off + n)%nat).
  - rewrite lookup_splice_new, lookup_slice by (rewrite ?length_slice; lia). f_equal; lia.
  - by rewrite lookup_splice_old by (rewrite ?length_slice; lia).
Qed.

Lemma splice_forall (P : Z → Prop) buf off bs :
  Forall P buf → Forall P bs → Forall P (splice buf off bs).
Proof. intros. unfold splice. rewrite !Forall_app; eauto using Forall_take, Forall_drop. Qed.
Lemma slice_forall (P : Z → Prop) buf off n : Forall P buf → Forall P (slice buf off n).
Proof. intros. unfold slice. eauto using Forall_take, Forall_drop. Qed.

Lemma in_bounds_spec buf off n :
  in_bounds buf off n = true ↔ 0 ≤ off ∧ off + Z.of_nat n ≤ Z.of_nat (length buf).
Proof. unfold in_bounds. apply bool_decide_eq_true. Qed.

Lemma load_bytes_ok buf off n :
  0 ≤ off → off + Z.of_nat n ≤ Z.of_nat (length buf) →
  load_bytes buf off n = Ok (slice buf (Z.to_nat off) n).
Proof. intros. unfold load_bytes. by rewrite (proj2 (in_bounds_spec _ _ _)) by lia. Qed.

Lemma load_ok n buf off :
  0 ≤ off → off + Z.of_nat n ≤ Z.of_nat (length buf) →
  load n buf off = Ok (le_val (slice buf (Z.to_nat off) n)).
Proof. intros. unfold load. by rewrite load_bytes_ok. Qed.

Lemma store_bytes_ok buf off bs :
  0 ≤ off → off + Z.of_nat (length bs) ≤ Z.of_nat (length buf) →
  store_bytes buf off bs = Ok (splice buf (Z.to_nat off) bs).
Proof. intros. unfold store_bytes. by rewrite (proj2 (in_bounds_spec _ _ _)) by lia. Qed.

Lemma store_bytes_inv buf off bs buf' :
  store_bytes buf off bs = Ok buf' →
  0 ≤ off ∧ off + Z.of_nat (length bs) ≤ Z.of_nat (length buf) ∧
  buf' = splice buf (Z.to_nat off) bs.
Proof.
  unfold store_bytes. destruct (in_bounds _ _ _) eqn:E; [|done].
  apply in_bounds_spec in E. intros [= <-]. tauto.
Qed.

Lemma store_ok n buf off v :
  0 ≤ off → off + Z.of_nat n ≤ Z.of_nat (length buf) →
  store n buf off v = Ok (splice buf (Z.to_nat off) (le_bytes n v)).
Proof. intros. unfold store. by rewrite store_bytes_ok by (rewrite ?length_le_bytes; lia). Qed.

Lemma load_store_same n buf off v buf' :
  store n buf off v = Ok buf' → load n buf' off = Ok (v `mod` 2 ^ (8 * Z.of_nat n)).
Proof.
  unfold store. intros (H0 & Hb & ->)%store_bytes_inv. rewrite length_le_bytes in Hb.
  rewrite load_ok by (rewrite ?length_splice; rewrite ?length_le_bytes; lia).
  f_equal. rewrite <- le_val_bytes. f_equal.
  rewrite <- (length_le_bytes n v) at 2. apply slice_splice_same. rewrite length_le_bytes. lia.
Qed.

Lemma load_store_other n buf off v buf' n' off' :
  store n buf off v = Ok buf' → off' + Z.of_nat n' ≤ off ∨ off + Z.of_nat n ≤ off' →
  load n' buf' off' = load n' buf off'.
Proof.
  unfold store. intros (H0 & Hb & ->)%store_bytes_inv Hd. rewrite length_le_bytes in Hb.
  unfold load, load_bytes, in_bounds. rewrite length_splice by (rewrite length_le_bytes; lia).
  case_bool_decide as Hib; [|done]. simpl. do 2 f_equal.
  rewrite slice_splice_other by (rewrite length_le_bytes; lia). done.
Qed.

(** Strings in buffers. *)
Lemma strcmp_eq_app s rest t :
  cstr_ok s → cstr_ok t → strcmp_eq (s ++ 0 :: rest) t = Ok (bool_decide (s = t)).
Proof.
  intros Hs; revert t; induction Hs as [|c s Hc Hs IH]; intros [|d t] Ht; simpl.
  - done.
  - inversion Ht; subst. by rewrite bool_decide_eq_false_2 by lia.
  - by rewrite bool_decide_eq_false_2 by lia.
  - inversion Ht; subst. case_bool_decide; subst.
    + rewrite IH by done. f_equal. apply bool_decide_ext. naive_solver.
    + rewrite bool_decide_eq_false_2; naive_solver.
Qed.

Lemma cstring_app s rest : cstr_ok s → cstring (s ++ 0 :: rest) = Ok s.
Proof.
  induction 1 as [|c s Hc Hs IH]; simpl; [done|].
  rewrite bool_decide_eq_false_2 by lia. by rewrite IH.
Qed.

#[export] Hint Resolve le_bytes_ok splice_forall slice_forall : cs.
#[export] Hint Rewrite length_le_bytes : cs.
