(* ===== verification/Cs1550Disk.v ===== *)
(** * Disk image and bitmap of the cs1550 file system

    The host-side half of [src/proj4/cs1550.c]: the disk image [.disk] behind a
    stdio stream, whole-block reads and writes, and the free-block bitmap kept
    in the last three blocks of the image.  The program is built for x86-64
    (LP64), little endian. *)
From stdpp Require Import base numbers list.
From S2P Require Import Prelude Bytes.
#[local] Open Scope Z_scope.

(** ** Constants *)
Definition BLOCK_SIZE : Z := 512.
Definition TOTAL_DISK_SIZE : Z := 512 * 1024 * 1024.
Definition BITMAP_SIZE_IN_BLOCKS : Z := 3.
Definition TOTAL_BLOCKS : Z := 512 * 1024 * 1024 / BLOCK_SIZE - BITMAP_SIZE_IN_BLOCKS.

(** ** State

    [disk_file] is the content of [.disk] ([None]: no such file), [fpos] the
    position of the stream the running handler has open,
    [next_free_block_index] the static variable of that name.  [open_streams]
    and [live_blocks] count the streams and the heap blocks not yet closed or
    freed. *)
Record fs : Type := mkfs {
  disk_file : option (list Z);
  fpos : Z;
  next_free_block_index : Z;
  open_streams : Z;
  live_blocks : Z }.

Definition with_file (d : list Z) (s : fs) : fs :=
  mkfs (Some d) (fpos s) (next_free_block_index s) (open_streams s) (live_blocks s).
Definition with_fpos (p : Z) (s : fs) : fs :=
  mkfs (disk_file s) p (next_free_block_index s) (open_streams s) (live_blocks s).
Definition with_next_free (i : Z) (s : fs) : fs :=
  mkfs (disk_file s) (fpos s) i (open_streams s) (live_blocks s).
Definition with_streams (n : Z) (s : fs) : fs :=
  mkfs (disk_file s) (fpos s) (next_free_block_index s) n (live_blocks s).
Definition with_blocks (n : Z) (s : fs) : fs :=
  mkfs (disk_file s) (fpos s) (next_free_block_index s) (open_streams s) n.

(** ** stdio *)
Inductive FILE_ptr := NULL_FILE | DISK_FILE.
Inductive whence := SEEK_SET | SEEK_CUR | SEEK_END.

(** The content behind a stream; using a null stream is undefined. *)
Definition stream (f : FILE_ptr) : M fs (list Z) := λ s,
  match f, disk_file s with
  | DISK_FILE, Some d => Ok (d, s)
  | _, _ => Fault Undefined
  end.

(** A seek to a negative position fails and leaves the position alone. *)
Definition fseek (f : FILE_ptr) (off : Z) (w : whence) : M fs Z :=
  d ← stream f;
  p ← gets fpos;
  let target := match w with
                | SEEK_SET => off
                | SEEK_CUR => p + off
                | SEEK_END => Z.of_nat (length d) + off
                end in
  if bool_decide (target < 0) then mret (-1)
  else modify (with_fpos target);; mret 0.

(** At most [n] bytes from the position on; fewer at the end of the file. *)
Definition fread (f : FILE_ptr) (n : nat) : M fs (list Z) :=
  d ← stream f;
  p ← gets fpos;
  let bs := slice d (Z.to_nat p) n in
  modify (with_fpos (p + Z.of_nat (length bs)));; mret bs.

(** Writing past the end extends the file; a hole reads as zeros. *)
Definition write_at (d : list Z) (p : nat) (bs : list Z) : list Z :=
  take p (d ++ replicate (p - length d) 0) ++ bs ++ drop (p + length bs) d.

Definition fwrite (f : FILE_ptr) (bs : list Z) : M fs unit :=
  d ← stream f;
  p ← gets fpos;
  modify (with_file (write_at d (Z.to_nat p) bs));;
  modify (with_fpos (p + Z.of_nat (length bs))).

(** ** Disk operations *)

(** [fopen(".disk", "rb+")]: null when the file does not exist. *)
Definition open_disk : M fs FILE_ptr := λ s,
  match disk_file s with
  | None => Ok (NULL_FILE, s)
  | Some _ => Ok (DISK_FILE, with_fpos 0 (with_streams (open_streams s + 1) s))
  end.

Definition close_disk (f : FILE_ptr) : M fs Z :=
  stream f;; n ← gets open_streams; modify (with_streams (n - 1));; mret 0.

(** [calloc(1, BLOCK_SIZE)] and [free] of such a block. *)
Definition calloc_block : M fs (list Z) :=
  n ← gets live_blocks; modify (with_blocks (n + 1));; mret (replicate 512 0).
Definition free_block : M fs unit :=
  n ← gets live_blocks; modify (with_blocks (n - 1)).

(** [BLOCK_SIZE * index] in 64-bit signed arithmetic. *)
Definition block_offset (index : Z) : res Z :=
  let off := BLOCK_SIZE * index in
  if bool_decide (- 2^63 ≤ off < 2^63) then Ok off else Fault Undefined.

Definition open_block (disk : FILE_ptr) (index : Z) : M fs (list Z) :=
  off ← lift (block_offset index);
  fseek disk off SEEK_SET;;
  block ← calloc_block;
  bs ← fread disk 512;
  mret (splice block 0 bs).

Definition write_block (disk : FILE_ptr) (index : Z) (block : list Z) : M fs Z :=
  off ← lift (block_offset index);
  fseek disk off SEEK_SET;;
  fwrite disk block;;
  mret 0.

(** ** Bitmap *)

(** C's [/] and [%] round toward zero: [Z.quot] and [Z.rem]. *)
Definition get_ith_bit (byte position : Z) : Z :=
  Z.land (Z.shiftr byte (8 - position - 1)) 1.

Definition set_ith_bit (byte position val : Z) : Z :=
  if bool_decide (val = 1) then Z.lor byte (Z.shiftl 1 (8 - position - 1))
  else Z.land byte (Z.lnot (Z.shiftl 1 (8 - position - 1))).

(** The scan loop; [fuel] bounds the iterations. *)
Fixpoint find_free_loop (fuel : nat) (disk : FILE_ptr) (i : Z) : M fs Z :=
  match fuel with
  | O => fail OutOfFuel
  | S fuel =>
    if bool_decide (i < TOTAL_BLOCKS) then
      let position := - (BLOCK_SIZE * BITMAP_SIZE_IN_BLOCKS) + Z.quot i 8 in
      fseek disk position SEEK_END;;
      bs ← fread disk 1;
      let byte := default 0 (head bs) in
      let bit_position := Z.rem i 8 in
      if bool_decide (get_ith_bit byte bit_position = 0) then
        modify (with_next_free i);; mret i
      else find_free_loop fuel disk (i + 1)
    else mret (-1)
  end.

Definition find_next_free_block_index (disk : FILE_ptr) : M fs Z :=
  start ← gets next_free_block_index;
  let i := s32 start in
  find_free_loop (S (Z.to_nat (TOTAL_BLOCKS - i))) disk i.

(** [byte] is uninitialised: when [fread] delivers nothing its use is
    undefined. *)
Definition set_bitmap (disk : FILE_ptr) (index is_taken : Z) : M fs Z :=
  let position := - (BLOCK_SIZE * BITMAP_SIZE_IN_BLOCKS) + Z.quot index 8 in
  fseek disk position SEEK_END;;
  bs ← fread disk 1;
  byte ← lift (of_option (head bs));
  let bit_position := Z.rem index 8 in
  let byte := u8 (set_ith_bit byte bit_position is_taken) in
  fseek disk (-1) SEEK_CUR;;
  fwrite disk [byte];;
  mret (-1).

(** Root and directory blocks are read and written as plain blocks. *)
Definition open_root (disk : FILE_ptr) : M fs (list Z) := open_block disk 0.
Definition save_root (disk : FILE_ptr) (root : list Z) : M fs unit :=
  write_block disk 0 root;; mret tt.
Definition open_dir (disk : FILE_ptr) (index : Z) : M fs (list Z) := open_block disk index.
Definition save_dir (disk : FILE_ptr) (index : Z) (dir : list Z) : M fs unit :=
  write_block disk index dir;; mret tt.
