(* ===== verification/Cs1550DiskFacts.v ===== *)
(** * Blocks and bitmap: what the disk operations do

    The byte-level operations of [Cs1550Disk] described through two views of a
    disk image, the content [rd d i] of block [i] and the allocation bit
    [marked d i]: reads return [rd], writes change one block and nothing else,
    the bitmap scan returns the first unmarked block, and marking changes one
    bit and no data block. *)
From stdpp Require Import base numbers list.
From S2P Require Import Prelude Bytes Cs1550Disk.
#[local] Open Scope Z_scope.

(** ** Views of a disk image *)
Definition rd (d : list Z) (i : Z) : list Z := slice d (Z.to_nat (512 * i)) 512.
Definition wr (d : list Z) (i : Z) (b : list Z) : list Z := splice d (Z.to_nat (512 * i)) b.

(** Offset in the image of the bitmap byte for block [i]. *)
Definition bitmap_pos (d : list Z) (i : Z) : Z := Z.of_nat (length d) - 1536 + i / 8.
Definition bitmap_byte (d : list Z) (i : Z) : Z :=
  default 0 (d !! Z.to_nat (bitmap_pos d i)).
Definition marked (d : list Z) (i : Z) : bool := Z.testbit (bitmap_byte d i) (7 - i `mod` 8).
Definition set_mark (d : list Z) (i : Z) : list Z :=
  splice d (Z.to_nat (bitmap_pos d i)) [u8 (Z.lor (bitmap_byte d i) (2 ^ (7 - i `mod` 8)))].

(** A disk image of [n] data blocks followed by the three bitmap blocks. *)
Definition image_ok (n : Z) (d : list Z) : Prop :=
  1 ≤ n ≤ 12288 ∧ Z.of_nat (length d) = 512 * (n + 3) ∧ Forall byte_ok d.

(** ** Bit arithmetic *)
Lemma get_ith_bit_testbit b i : i < 8 → get_ith_bit b i = Z.b2z (Z.testbit b (7 - i)).
Proof.
  intros Hi. unfold get_ith_bit. change 1 with (Z.ones 1) at 2. rewrite Z.land_ones by lia.
  replace (8 - i - 1) with (7 - i) by lia. rewrite Z.shiftr_div_pow2 by lia.
  by rewrite <- Z.testbit_spec' by lia.
Qed.

Lemma set_ith_bit_1 b i : i < 8 → set_ith_bit b i 1 = Z.lor b (2 ^ (7 - i)).
Proof.
  intros Hi. unfold set_ith_bit. rewrite bool_decide_eq_true_2 by done.
  rewrite Z.shiftl_1_l. do 2 f_equal. lia.
Qed.

Lemma u8_lor_testbit b i j :
  byte_ok b → 0 ≤ i < 8 → 0 ≤ j < 8 →
  Z.testbit (u8 (Z.lor b (2 ^ i))) j = (Z.testbit b j || bool_decide (i = j)).
Proof.
  intros Hb Hi Hj. unfold u8. rewrite Z.mod_pow2_bits_low by lia.
  rewrite Z.lor_spec, Z.pow2_bits_eqb by lia. f_equal.
  case_bool_decide; [by apply Z.eqb_eq|by apply Z.eqb_neq].
Qed.

(** ** Position arithmetic on a well-formed image *)
Lemma bitmap_pos_range n d i :
  image_ok n d → 0 ≤ i < 12288 →
  512 * n ≤ bitmap_pos d i ∧ bitmap_pos d i + 1 ≤ Z.of_nat (length d).
Proof. intros (Hn & Hl & _) Hi. unfold bitmap_pos. rewrite Hl. dlia. Qed.

Lemma bitmap_byte_ok n d i : image_ok n d → byte_ok (bitmap_byte d i).
Proof.
  intros (_ & _ & Hb). unfold bitmap_byte. destruct (d !! _) eqn:E; simpl.
  - by eapply Forall_lookup_1 in Hb.
  - done.
Qed.

Lemma length_wr d i b :
  0 ≤ i → 512 * i + 512 ≤ Z.of_nat (length d) → length b = 512%nat →
  length (wr d i b) = length d.
Proof. intros. unfold wr. apply length_splice. lia. Qed.

Lemma length_rd d i :
  0 ≤ i → 512 * i + 512 ≤ Z.of_nat (length d) → length (rd d i) = 512%nat.
Proof. intros. unfold rd. apply length_slice. lia. Qed.

Section image.
Context (n : Z) (d : list Z) (Hd : image_ok n d).

Lemma rd_length i : 0 ≤ i < n → length (rd d i) = 512%nat.
Proof. destruct Hd as (? & ? & _). intros. apply length_rd; lia. Qed.

Lemma rd_bytes i : Forall byte_ok (rd d i).
Proof. destruct Hd as (_ & _ & ?). by apply slice_forall. Qed.

Lemma image_wr i b :
  0 ≤ i < n → length b = 512%nat → Forall byte_ok b → image_ok n (wr d i b).
Proof.
  destruct Hd as (? & ? & ?). intros. split_and!; [lia|lia| |].
  - rewrite length_wr by lia. done.
  - by apply splice_forall.
Qed.

Lemma rd_wr i j b :
  0 ≤ i < n → 0 ≤ j < n → length b = 512%nat →
  rd (wr d i b) j = if bool_decide (i = j) then b else rd d j.
Proof.
  destruct Hd as (? & ? & _). intros. unfold rd, wr. case_bool_decide.
  - subst j. replace 512%nat with (length b). apply slice_splice_same. lia.
  - apply slice_splice_other; lia.
Qed.

Lemma bitmap_byte_wr i j b :
  0 ≤ i < n → 0 ≤ j < 12288 → length b = 512%nat →
  bitmap_byte (wr d i b) j = bitmap_byte d j.
Proof.
  intros Hi Hj Hb. pose proof (bitmap_pos_range n d j Hd Hj). destruct Hd as (? & ? & _).
  unfold bitmap_byte, bitmap_pos in *. rewrite length_wr by lia. f_equal.
  unfold wr. apply lookup_splice_old; lia.
Qed.

Lemma marked_wr i j b :
  0 ≤ i < n → 0 ≤ j < 12288 → length b = 512%nat → marked (wr d i b) j = marked d j.
Proof. intros. unfold marked. by rewrite bitmap_byte_wr. Qed.

Lemma length_set_mark k : 0 ≤ k < 12288 → length (set_mark d k) = length d.
Proof.
  intros Hk. pose proof (bitmap_pos_range n d k Hd Hk). destruct Hd as (? & ? & _).
  unfold set_mark. apply length_splice. simpl. lia.
Qed.

Lemma image_set_mark k : 0 ≤ k < 12288 → image_ok n (set_mark d k).
Proof.
  intros Hk. pose proof (length_set_mark k Hk). destruct Hd as (? & ? & ?).
  split_and!; [lia|lia|lia|]. apply splice_forall; [done|].
  constructor; [|done]. apply u8_range.
Qed.

Lemma rd_set_mark k j : 0 ≤ k < 12288 → 0 ≤ j < n → rd (set_mark d k) j = rd d j.
Proof.
  intros Hk Hj. pose proof (bitmap_pos_range n d k Hd Hk). destruct Hd as (? & ? & _).
  unfold rd, set_mark. apply slice_splice_other; simpl; lia.
Qed.

Lemma bitmap_byte_set_mark k j :
  0 ≤ k < 12288 → 0 ≤ j < 12288 →
  bitmap_byte (set_mark d k) j =
  if bool_decide (k / 8 = j / 8) then u8 (Z.lor (bitmap_byte d k) (2 ^ (7 - k `mod` 8)))
  else bitmap_byte d j.
Proof.
  intros Hk Hj. pose proof (bitmap_pos_range n d k Hd Hk).
  pose proof (bitmap_pos_range n d j Hd Hj).
  unfold bitmap_byte at 1, bitmap_pos. rewrite length_set_mark by done.
  change (Z.of_nat (length d) - 1536 + j / 8) with (bitmap_pos d j).
  unfold set_mark. case_bool_decide as E.
  - assert (bitmap_pos d k = bitmap_pos d j) as Ep by (unfold bitmap_pos; lia). rewrite <- Ep.
    destruct Hd as (? & ? & _). rewrite lookup_splice_new by (simpl; lia). by rewrite Nat.sub_diag.
  - destruct Hd as (? & ? & _). rewrite lookup_splice_old; [done|simpl; lia|].
    assert (bitmap_pos d k ≠ bitmap_pos d j) by (unfold bitmap_pos; lia). simpl. lia.
Qed.

Lemma marked_set_mark k j :
  0 ≤ k < 12288 → 0 ≤ j < 12288 →
  marked (set_mark d k) j = (marked d j || bool_decide (k = j)).
Proof.
  intros Hk Hj. unfold marked. rewrite bitmap_byte_set_mark by done.
  case_bool_decide as E.
  - pose proof (bitmap_byte_ok n d k Hd). rewrite u8_lor_testbit by (done || dlia).
    assert (bitmap_byte d k = bitmap_byte d j) as -> by (unfold bitmap_byte, bitmap_pos; by rewrite E).
    f_equal. apply bool_decide_ext. dlia.
  - rewrite (bool_decide_eq_false_2 (k = j)) by (intros ->; lia). by rewrite orb_false_r.
Qed.

(** ** Operations on a well-formed image *)
Context (p nf os lb : Z).

Lemma open_disk_run : open_disk (mkfs (Some d) p nf os lb)
  = Ok (DISK_FILE, mkfs (Some d) 0 nf (os + 1) lb).
Proof. done. Qed.

Lemma close_disk_run : close_disk DISK_FILE (mkfs (Some d) p nf os lb)
  = Ok (0, mkfs (Some d) p nf (os - 1) lb).
Proof. done. Qed.

Lemma free_block_run : free_block (mkfs (Some d) p nf os lb)
  = Ok (tt, mkfs (Some d) p nf os (lb - 1)).
Proof. done. Qed.

Lemma block_offset_ok i : 0 ≤ i < n → block_offset i = Ok (512 * i).
Proof.
  destruct Hd as (? & _ & _). intros. unfold block_offset, BLOCK_SIZE.
  by rewrite bool_decide_eq_true_2 by lia.
Qed.

Lemma fseek_set off : 0 ≤ off →
  fseek DISK_FILE off SEEK_SET (mkfs (Some d) p nf os lb) = Ok (0, mkfs (Some d) off nf os lb).
Proof.
  intros. unfold fseek, mbind, M_bind; simpl. by rewrite bool_decide_eq_false_2 by lia.
Qed.

Lemma fseek_end off : 0 ≤ Z.of_nat (length d) + off →
  fseek DISK_FILE off SEEK_END (mkfs (Some d) p nf os lb)
  = Ok (0, mkfs (Some d) (Z.of_nat (length d) + off) nf os lb).
Proof.
  intros. unfold fseek, mbind, M_bind; simpl. by rewrite bool_decide_eq_false_2 by lia.
Qed.

Lemma fread_run k : fread DISK_FILE k (mkfs (Some d) p nf os lb)
  = Ok (slice d (Z.to_nat p) k,
        mkfs (Some d) (p + Z.of_nat (length (slice d (Z.to_nat p) k))) nf os lb).
Proof. done. Qed.

Lemma fwrite_run bs : fwrite DISK_FILE bs (mkfs (Some d) p nf os lb)
  = Ok (tt, mkfs (Some (write_at d (Z.to_nat p) bs)) (p + Z.of_nat (length bs)) nf os lb).
Proof. done. Qed.

Lemma open_block_run i : 0 ≤ i < n →
  open_block DISK_FILE i (mkfs (Some d) p nf os lb)
  = Ok (rd d i, mkfs (Some d) (512 * i + 512) nf os (lb + 1)).
Proof.
  intros Hi. unfold open_block. rewrite block_offset_ok by done.
  unfold mbind, M_bind. simpl. rewrite fseek_set by lia. simpl.
  pose proof (rd_length i Hi) as Hl. unfold rd in Hl.
  fold (rd d i) in *. rewrite Hl. do 2 f_equal.
  unfold splice. rewrite Hl. simpl. by rewrite app_nil_r.
Qed.

Lemma write_at_in (dd : list Z) q bs :
  (q + length bs ≤ length dd)%nat → write_at dd q bs = splice dd q bs.
Proof.
  intros. unfold write_at, splice. replace (q - length dd)%nat with 0%nat by lia.
  simpl. by rewrite app_nil_r.
Qed.

Lemma write_block_run i b : 0 ≤ i < n → length b = 512%nat →
  write_block DISK_FILE i b (mkfs (Some d) p nf os lb)
  = Ok (0, mkfs (Some (wr d i b)) (512 * i + 512) nf os lb).
Proof.
  intros Hi Hb. destruct Hd as (? & Hl & _). unfold write_block.
  rewrite block_offset_ok by done. unfold mbind, M_bind. simpl.
  rewrite fseek_set by lia. simpl. rewrite write_at_in by lia. by rewrite Hb.
Qed.

(** The first bitmap byte read by the loop, also past the end of the map. *)
Lemma bitmap_read i :
  default 0 (head (slice d (Z.to_nat (bitmap_pos d i)) 1)) = bitmap_byte d i.
Proof.
  unfold bitmap_byte, slice.
  destruct (d !! Z.to_nat (bitmap_pos d i)) as [b|] eqn:E.
  - by rewrite (drop_S _ _ _ E).
  - apply lookup_ge_None in E. by rewrite drop_ge.
Qed.
End image.

Lemma TOTAL_BLOCKS_val : TOTAL_BLOCKS = 1048573.
Proof. reflexivity. Qed.

(** One iteration of the scan. *)
Lemma find_free_step n d p nf os lb i fuel :
  image_ok n d → 0 ≤ i ≤ 12288 → ∃ p',
  find_free_loop (S fuel) DISK_FILE i (mkfs (Some d) p nf os lb) =
  if marked d i then find_free_loop fuel DISK_FILE (i + 1) (mkfs (Some d) p' nf os lb)
  else Ok (i, mkfs (Some d) p' i os lb).
Proof.
  intros Hd Hi. pose proof Hd as (? & Hl & _). simpl.
  rewrite bool_decide_eq_true_2 by (rewrite TOTAL_BLOCKS_val; lia).
  rewrite Z.quot_div_nonneg, Z.rem_mod_nonneg by lia.
  unfold BLOCK_SIZE, BITMAP_SIZE_IN_BLOCKS.
  erewrite bind_ok by (apply fseek_end; dlia).
  replace (Z.of_nat (length d) + (- (512 * 3) + i / 8)) with (bitmap_pos d i)
    by (unfold bitmap_pos; lia).
  erewrite bind_ok by apply fread_run. cbv beta zeta.
  rewrite bitmap_read, get_ith_bit_testbit by dlia.
  fold (marked d i). eexists. by destruct (marked d i).
Qed.

(** The scan returns the first unmarked block at or after the cursor. *)
Lemma find_free_found n d nf os lb k :
  image_ok n d → ∀ (fuel : nat) i p, 0 ≤ i ≤ k → k ≤ 12288 → k - i < Z.of_nat fuel →
  (∀ j, i ≤ j < k → marked d j = true) → marked d k = false → ∃ p',
  find_free_loop fuel DISK_FILE i (mkfs (Some d) p nf os lb) = Ok (k, mkfs (Some d) p' k os lb).
Proof.
  intros Hd. induction fuel as [|fuel IH]; intros i p Hi Hk Hf Hm Hu; [lia|].
  destruct (find_free_step n d p nf os lb i fuel Hd) as [p' ->]; [lia|].
  destruct (decide (i = k)) as [->|].
  - rewrite Hu. eauto.
  - rewrite Hm by lia. apply IH; try lia; auto. intros; apply Hm; lia.
Qed.

Lemma find_next_free_run n d p nf os lb k :
  image_ok n d → 0 ≤ nf ≤ k → k ≤ 12288 →
  (∀ j, nf ≤ j < k → marked d j = true) → marked d k = false → ∃ p',
  find_next_free_block_index DISK_FILE (mkfs (Some d) p nf os lb)
  = Ok (k, mkfs (Some d) p' k os lb).
Proof.
  intros Hd Hnf Hk Hm Hu. unfold find_next_free_block_index, mbind, M_bind. simpl gets. cbv beta.
  unfold gets. simpl next_free_block_index. cbv iota zeta. rewrite s32_small by lia.
  eapply find_free_found; eauto. rewrite TOTAL_BLOCKS_val. lia.
Qed.

(** Reads past the end of the bitmap see zero bits. *)
Lemma marked_past_end n d : image_ok n d → marked d 12288 = false.
Proof.
  intros (? & Hl & _). unfold marked, bitmap_byte, bitmap_pos.
  by rewrite lookup_ge_None_2 by dlia.
Qed.

Lemma set_bitmap_run n d p nf os lb k :
  image_ok n d → 0 ≤ k < 12288 → ∃ p',
  set_bitmap DISK_FILE k 1 (mkfs (Some d) p nf os lb)
  = Ok (-1, mkfs (Some (set_mark d k)) p' nf os lb).
Proof.
  intros Hd Hk. pose proof (bitmap_pos_range n d k Hd Hk) as [Hp1 Hp2].
  pose proof Hd as (? & Hl & _). unfold set_bitmap.
  rewrite Z.quot_div_nonneg, Z.rem_mod_nonneg by lia. unfold BLOCK_SIZE, BITMAP_SIZE_IN_BLOCKS.
  erewrite bind_ok by (apply fseek_end; dlia).
  replace (Z.of_nat (length d) + (- (512 * 3) + k / 8)) with (bitmap_pos d k)
    by (unfold bitmap_pos; lia).
  erewrite bind_ok by apply fread_run.
  pose proof (bitmap_read d k) as Hr.
  assert (length (slice d (Z.to_nat (bitmap_pos d k)) 1) = 1%nat) as Hl1
    by (apply length_slice; lia).
  destruct (slice d (Z.to_nat (bitmap_pos d k)) 1) as [|b [|? ?]] eqn:E; try done.
  simpl in Hr. simpl head. unfold of_option.
  erewrite bind_ok by done. cbv zeta. rewrite set_ith_bit_1 by dlia.
  erewrite bind_ok.
  2:{ unfold fseek, mbind, M_bind. simpl. rewrite bool_decide_eq_false_2 by lia. done. }
  erewrite bind_ok by apply fwrite_run.
  rewrite write_at_in by (simpl; lia).
  eexists. unfold mret, M_ret, set_mark. rewrite <- Hr.
  do 3 f_equal. f_equal. do 2 f_equal. simpl. lia.
Qed.
