(* ===== verification/Cs1550Fs.v ===== *)
(** * The cs1550 file system: layout, path parsing and FUSE handlers

    Models [src/proj4/cs1550.c], from the on-disk structures to the handlers
    registered in [hello_oper].  Blocks are 512-byte buffers accessed at the
    offsets of the packed C structures; paths are byte strings. *)
From stdpp Require Import base numbers list.
From S2P Require Import Prelude Bytes Cs1550Disk.
#[local] Open Scope Z_scope.

(** ** Constants and structure layout (LP64) *)
Definition MAX_FILENAME : Z := 8.
Definition MAX_EXTENSION : Z := 3.
Definition MAX_DIRNAME : Z := 8.
Definition sizeof_int : Z := 4.
Definition sizeof_size_t : Z := 8.
Definition sizeof_long : Z := 8.

Definition MAX_FILES_IN_DIR : Z :=
  (BLOCK_SIZE - sizeof_int)
  / ((MAX_FILENAME + 1) + (MAX_EXTENSION + 1) + sizeof_size_t + sizeof_long).
Definition MAX_DIRS_IN_ROOT : Z :=
  (BLOCK_SIZE - sizeof_int) / ((MAX_DIRNAME + 1) + sizeof_long).
Definition MAX_DATA_IN_BLOCK : Z := BLOCK_SIZE - sizeof_long.

(** [struct cs1550_file_directory], packed: [fname] at 0, [fext] at 9, [fsize]
    at 13, [nStartBlock] at 21, 29 bytes in all; the array starts after the
    [int nFiles]. *)
Definition sizeof_file_directory : Z :=
  (MAX_FILENAME + 1) + (MAX_EXTENSION + 1) + sizeof_size_t + sizeof_long.
Definition file_off (i : Z) : Z := sizeof_int + sizeof_file_directory * i.
Definition fname_off (i : Z) : Z := file_off i.
Definition fext_off (i : Z) : Z := file_off i + (MAX_FILENAME + 1).
Definition fsize_off (i : Z) : Z := fext_off i + (MAX_EXTENSION + 1).
Definition fstart_off (i : Z) : Z := fsize_off i + sizeof_size_t.

(** [struct cs1550_directory], packed: [dname] at 0, [nStartBlock] at 9. *)
Definition sizeof_directory : Z := (MAX_DIRNAME + 1) + sizeof_long.
Definition dname_off (i : Z) : Z := sizeof_int + sizeof_directory * i.
Definition dstart_off (i : Z) : Z := dname_off i + (MAX_DIRNAME + 1).

(** [struct cs1550_disk_block]: [data] at 0, [next] at 504. *)
Definition block_next (block : list Z) : res Z := load_long block MAX_DATA_IN_BLOCK.
Definition set_block_next (block : list Z) (v : Z) : res (list Z) :=
  store 8 block MAX_DATA_IN_BLOCK v.

(** errno values and mode bits *)
Definition EPERM : Z := 1.
Definition ENOENT : Z := 2.
Definition EEXIST : Z := 17.
Definition EISDIR : Z := 21.
Definition EFBIG : Z := 27.
Definition ENOSPC : Z := 28.
Definition ENAMETOOLONG : Z := 36.
Definition S_IFDIR : Z := 16384.
Definition S_IFREG : Z := 32768.

(** ** [sscanf(path, "/%[^/]/%[^.].%s", directory, filename, extension)] *)
Definition SLASH : Z := 47.
Definition DOT : Z := 46.
Definition isspace (c : Z) : bool := bool_decide (c = 32) || bool_decide (9 ≤ c ≤ 13).

(** The longest prefix of bytes satisfying [p], and the rest. *)
Fixpoint span (p : Z → bool) (l : list Z) : list Z * list Z :=
  match l with
  | [] => ([], [])
  | c :: l' => if p c then let '(a, b) := span p l' in (c :: a, b) else ([], l)
  end.

(** The conversion count and the converted strings; a string that was not
    converted leaves its array uninitialised ([None]). *)
Record parsed : Type := mkparsed {
  count : Z;
  directory : option (list Z);
  filename : option (list Z);
  extension : option (list Z) }.

Definition sscanf_path (path : list Z) : parsed :=
  match path with
  | [] => mkparsed (-1) None None None
  | c :: path1 =>
    if bool_decide (c ≠ SLASH) then mkparsed 0 None None None else
    match span (λ c, bool_decide (c ≠ SLASH)) path1 with
    | ([], []) => mkparsed (-1) None None None
    | ([], _) => mkparsed 0 None None None
    | (d, []) => mkparsed 1 (Some d) None None
    | (d, _ :: path2) =>
      match span (λ c, bool_decide (c ≠ DOT)) path2 with
      | ([], _) => mkparsed 1 (Some d) None None
      | (f, []) => mkparsed 2 (Some d) (Some f) None
      | (f, _ :: path3) =>
        match span (λ c, negb (isspace c)) (span isspace path3).2 with
        | ([], _) => mkparsed 2 (Some d) (Some f) None
        | (e, _) => mkparsed 3 (Some d) (Some f) (Some e)
        end
      end
    end
  end.

(** A string stored into a [char] array of [n] bytes with its NUL. *)
Definition fits (n : Z) (s : option (list Z)) : bool :=
  match s with None => true | Some s => bool_decide (Z.of_nat (length s) + 1 ≤ n) end.

(** The conversions have no field width: a component that does not fit its
    array is written past the array's end. *)
Definition scan_path (path : list Z) : res parsed :=
  let p := sscanf_path path in
  if fits (MAX_DIRNAME + 1) (directory p) && fits (MAX_FILENAME + 1) (filename p)
     && fits (MAX_EXTENSION + 1) (extension p)
  then Ok p else Fault Undefined.

Definition strlen_of (s : option (list Z)) : res Z :=
  s ← of_option s; mret (Z.of_nat (length s)).

(** ** Lookups common to the handlers *)

(** [strcmp(block + off, s) == 0] for a string at an offset of a block. *)
Definition strcmp_at (block : list Z) (off : Z) (s : option (list Z)) : res bool :=
  s ← of_option s; strcmp_eq (drop (Z.to_nat off) block) s.

(** [for(dir_index = 0; dir_index < nDirectories; dir_index++)
       if(strcmp(root->directories[dir_index].dname, directory) == 0) break;] *)
Definition dir_index_of (root : list Z) (name : option (list Z)) (nDirectories : Z) : res Z :=
  for_break (S (Z.to_nat nDirectories)) (λ i, strcmp_at root (dname_off i) name) 0 nDirectories.

(** The same loop over the files of a directory, on name and extension. *)
Definition file_matches (dir : list Z) (i : Z) (name ext : option (list Z)) : res bool :=
  eq1 ← strcmp_at dir (fname_off i) name;
  if (eq1 : bool) then strcmp_at dir (fext_off i) ext else mret false.

Definition file_index_of (dir : list Z) (name ext : option (list Z)) (nFiles : Z) : res Z :=
  for_break (S (Z.to_nat nFiles)) (λ i, file_matches dir i name ext) 0 nFiles.

Definition is_root (path : list Z) : bool := bool_decide (path = [SLASH]).

(** ** getattr *)
Record stat : Type := mkstat { st_mode : Z; st_nlink : Z; st_size : Z }.
Definition stat0 : stat := mkstat 0 0 0.

Definition cs1550_getattr (path : list Z) : M fs (Z * stat) :=
  disk ← open_disk;
  if is_root path then
    close_disk disk;;
    mret (0, mkstat (Z.lor S_IFDIR 493) 2 0)
  else
    p ← lift (scan_path path);
    if bool_decide (count p < 1) then
      close_disk disk;; mret (- ENOENT, stat0)
    else
      root ← open_root disk;
      let looking_for_a_dir := bool_decide (count p = 1) in
      nDirectories ← lift (load_int root 0);
      dir_index ← lift (dir_index_of root (directory p) nDirectories);
      if bool_decide (dir_index = nDirectories) then
        free_block;; close_disk disk;; mret (- ENOENT, stat0)
      else if looking_for_a_dir then
        free_block;; close_disk disk;;
        mret (0, mkstat (Z.lor S_IFDIR 493) 2 0)
      else
        dir_block_location ← lift (load_long root (dstart_off dir_index));
        current_dir ← open_dir disk dir_block_location;
        nFiles ← lift (load_int current_dir 0);
        file_index ← lift (file_index_of current_dir (filename p) (extension p) nFiles);
        if bool_decide (file_index = nFiles) then
          free_block;; free_block;; close_disk disk;; mret (- ENOENT, stat0)
        else
          fsize ← lift (load 8 current_dir (fsize_off file_index));
          free_block;; free_block;;
          close_disk disk;;
          mret (0, mkstat (Z.lor S_IFREG 438) 1 (s64 fsize)).

(** ** readdir

    The result is the return code and the names passed to [filler], in order. *)

(** [for(i = 0; i < nDirectories; i++) filler(buf, root->directories[i].dname, ...)] *)
Definition fill_dirs (root : list Z) (nDirectories : Z) (acc : list (list Z)) : res (list (list Z)) :=
  for_collect (S (Z.to_nat nDirectories)) (λ i, cstring (drop (Z.to_nat (dname_off i)) root))
    0 nDirectories acc.

(** [strcpy]/[strcat] into [char current_filename[MAX_FILENAME + MAX_EXTENSION + 1]]. *)
Definition file_display_name (dir : list Z) (i : Z) : res (list Z) :=
  fname ← cstring (drop (Z.to_nat (fname_off i)) dir);
  fext ← cstring (drop (Z.to_nat (fext_off i)) dir);
  let s := fname ++ [DOT] ++ fext in
  if bool_decide (Z.of_nat (length s) + 1 ≤ MAX_FILENAME + MAX_EXTENSION + 1)
  then mret s else Fault Undefined.

Definition fill_files (dir : list Z) (nFiles : Z) (acc : list (list Z)) : res (list (list Z)) :=
  for_collect (S (Z.to_nat nFiles)) (file_display_name dir) 0 nFiles acc.

Definition cs1550_readdir (path : list Z) : M fs (Z * list (list Z)) :=
  disk ← open_disk;
  root ← open_root disk;
  let filled := [[DOT]; [DOT; DOT]] in
  if is_root path then
    nDirectories ← lift (load_int root 0);
    names ← lift (fill_dirs root nDirectories filled);
    free_block;; close_disk disk;; mret (0, names)
  else
    p ← lift (scan_path path);
    if bool_decide (count p > 1) then mret (- ENOENT, filled)
    else
      nDirectories ← lift (load_int root 0);
      dir_index ← lift (dir_index_of root (directory p) nDirectories);
      if bool_decide (dir_index = nDirectories) then
        free_block;; close_disk disk;; mret (- ENOENT, filled)
      else
        dir_block_location ← lift (load_long root (dstart_off dir_index));
        current_dir ← open_dir disk dir_block_location;
        nFiles ← lift (load_int current_dir 0);
        names ← lift (fill_files current_dir nFiles filled);
        free_block;; free_block;; close_disk disk;; mret (0, names).

(** ** mkdir and rmdir *)
Definition cs1550_mkdir (path : list Z) : M fs Z :=
  p ← lift (scan_path path);
  let is_a_dir := bool_decide (count p = 1) in
  if negb is_a_dir then mret (- EPERM) else
  len ← lift (strlen_of (directory p));
  if bool_decide (len > MAX_DIRNAME) then mret (- ENAMETOOLONG) else
  disk ← open_disk;
  root ← open_root disk;
  nDirectories ← lift (load_int root 0);
  dir_index ← lift (dir_index_of root (directory p) nDirectories);
  if bool_decide (dir_index < nDirectories) then
    close_disk disk;; free_block;; mret (- EEXIST)
  else if bool_decide (MAX_DIRS_IN_ROOT ≤ u64 nDirectories) then
    close_disk disk;; free_block;; mret (- ENOSPC)
  else
    let dir_index := nDirectories in
    root ← lift (store 4 root 0 (nDirectories + 1));
    name ← lift (of_option (directory p));
    root ← lift (strcpy root (dname_off dir_index) name);
    next_open_block ← find_next_free_block_index disk;
    if bool_decide (next_open_block < 0) then
      free_block;; close_disk disk;; mret (- ENOSPC)
    else
      root ← lift (store 8 root (dstart_off dir_index) next_open_block);
      set_bitmap disk next_open_block 1;;
      save_root disk root;;
      free_block;; close_disk disk;; mret 0.

Definition cs1550_rmdir (path : list Z) : M fs Z := mret 0.

(** ** mknod and unlink *)
Definition cs1550_mknod (path : list Z) : M fs Z :=
  p ← lift (scan_path path);
  if bool_decide (count p < 3) then mret (- EPERM) else
  flen ← lift (strlen_of (filename p));
  elen ← lift (strlen_of (extension p));
  if bool_decide (flen > MAX_FILENAME) || bool_decide (elen > MAX_EXTENSION)
  then mret (- ENAMETOOLONG) else
  disk ← open_disk;
  root ← open_root disk;
  nDirectories ← lift (load_int root 0);
  dir_index ← lift (dir_index_of root (directory p) nDirectories);
  if bool_decide (dir_index = nDirectories) then
    free_block;; close_disk disk;; mret (- ENOENT)
  else
    dir_block_location ← lift (load_long root (dstart_off dir_index));
    current_dir ← open_dir disk dir_block_location;
    free_block;;
    nFiles ← lift (load_int current_dir 0);
    file_index ← lift (file_index_of current_dir (filename p) (extension p) nFiles);
    if bool_decide (file_index < nFiles) then
      free_block;; close_disk disk;; mret (- EEXIST)
    else if bool_decide (u64 nFiles > MAX_FILES_IN_DIR) then
      free_block;; close_disk disk;; mret (- ENOSPC)
    else
      let file_index := nFiles in
      fname ← lift (of_option (filename p));
      fext ← lift (of_option (extension p));
      current_dir ← lift (store 4 current_dir 0 (nFiles + 1));
      current_dir ← lift (strcpy current_dir (fname_off file_index) fname);
      current_dir ← lift (strcpy current_dir (fext_off file_index) fext);
      current_dir ← lift (store 8 current_dir (fsize_off file_index) 0);
      next_open_block ← find_next_free_block_index disk;
      if bool_decide (next_open_block < 0) then
        free_block;; close_disk disk;; mret (- ENOSPC)
      else
        current_dir ← lift (store 8 current_dir (fstart_off file_index) next_open_block);
        set_bitmap disk next_open_block 1;;
        save_dir disk dir_block_location current_dir;;
        close_disk disk;; mret 0.

Definition cs1550_unlink (path : list Z) : M fs Z := mret 0.

(** ** read

    [buf] has room for the [size] bytes asked for; [out] are the bytes copied to
    it so far.  The result is the return code and those bytes. *)
Definition memcpy_out (cap : Z) (out block : list Z) (off n : Z) : res (list Z) :=
  if bool_decide (0 ≤ n ∧ Z.of_nat (length out) + n ≤ cap) then
    bs ← load_bytes block off (Z.to_nat n); mret (out ++ bs)
  else Fault Undefined.

(** [while (offset > pos_so_far)]: the block that holds [offset], or [None]
    when the chain ends first. *)
Fixpoint read_seek (fuel : nat) (disk : FILE_ptr) (offset pos_so_far adjusted_offset : Z)
    (block : list Z) : M fs (option (list Z * Z)) :=
  match fuel with
  | O => fail OutOfFuel
  | S fuel =>
    if bool_decide (u64 offset > pos_so_far) then
      next ← lift (block_next block);
      if bool_decide (next = 0) then mret None
      else
        free_block;;
        block ← open_block disk next;
        read_seek fuel disk offset (u64 (pos_so_far + MAX_DATA_IN_BLOCK))
          (u64 (adjusted_offset - MAX_DATA_IN_BLOCK)) block
    else mret (Some (block, adjusted_offset))
  end.

(** [while (size_read < (fsize - offset))]. *)
Fixpoint read_loop (fuel : nat) (disk : FILE_ptr) (cap fsize offset adjusted_offset size_read : Z)
    (block out : list Z) : M fs (list Z) :=
  match fuel with
  | O => fail OutOfFuel
  | S fuel =>
    if bool_decide (size_read < u64 (fsize - offset)) then
      let size_left := u64 (u64 (fsize - offset) - size_read) in
      if bool_decide (size_left > MAX_DATA_IN_BLOCK) then
        let size_read := u64 (size_read + MAX_DATA_IN_BLOCK) in
        out ← lift (memcpy_out cap out block adjusted_offset MAX_DATA_IN_BLOCK);
        next ← lift (block_next block);
        if bool_decide (next = 0) then mret out
        else
          free_block;;
          block ← open_block disk next;
          read_loop fuel disk cap fsize offset adjusted_offset size_read block out
      else
        let size_read := u64 (size_read + size_left) in
        out ← lift (memcpy_out cap out block adjusted_offset size_left);
        read_loop fuel disk cap fsize offset adjusted_offset size_read block out
    else mret out
  end.

(** The number of blocks a byte count can span, plus slack for the tests. *)
Definition block_fuel (n : Z) : nat := S (S (Z.to_nat (u64 n / MAX_DATA_IN_BLOCK))).

(** From the opened start block of a file of [fsize] bytes to the end of the
    handler: the final [free(block)], [free(current_dir)] and [close_disk]
    included. *)
Definition read_data (disk : FILE_ptr) (fsize cap size offset : Z) (block : list Z)
  : M fs (Z * list Z) :=
  let size := if bool_decide (u64 (offset + size) > fsize) then u64 (fsize - offset) else size in
  sought ← read_seek (block_fuel offset) disk offset MAX_DATA_IN_BLOCK (u64 offset) block;
  match sought with
  | None => free_block;; free_block;; close_disk disk;; mret (- ENOENT, [])
  | Some (block, adjusted_offset) =>
    let original_size := size in
    if bool_decide (u64 (adjusted_offset + size) > MAX_DATA_IN_BLOCK) then
      let size_read_so_far := u64 (MAX_DATA_IN_BLOCK - adjusted_offset) in
      out ← lift (memcpy_out cap [] block adjusted_offset size_read_so_far);
      next ← lift (block_next block);
      if bool_decide (next = 0) then
        free_block;; free_block;; close_disk disk;; mret (- ENOENT, out)
      else
        free_block;;
        block ← open_block disk next;
        out ← read_loop (block_fuel (fsize - offset)) disk cap fsize offset 0
                size_read_so_far block out;
        free_block;; free_block;; close_disk disk;;
        mret (s32 original_size, out)
    else
      out ← read_loop (block_fuel (fsize - offset)) disk cap fsize offset adjusted_offset 0 block [];
      free_block;; free_block;; close_disk disk;;
      mret (s32 original_size, out)
  end.

Definition cs1550_read (path : list Z) (size offset : Z) : M fs (Z * list Z) :=
  p ← lift (scan_path path);
  if bool_decide (size ≤ 0) then mret (- EPERM, []) else
  if bool_decide (count p ≠ 3) then mret (- EISDIR, []) else
  dlen ← lift (strlen_of (directory p));
  flen ← lift (strlen_of (filename p));
  elen ← lift (strlen_of (extension p));
  if bool_decide (dlen > MAX_DIRNAME) || bool_decide (flen > MAX_FILENAME)
     || bool_decide (elen > MAX_EXTENSION)
  then mret (- ENOENT, []) else
  disk ← open_disk;
  root ← open_root disk;
  nDirectories ← lift (load_int root 0);
  dir_index ← lift (dir_index_of root (directory p) nDirectories);
  if bool_decide (dir_index = nDirectories) then
    free_block;; close_disk disk;; mret (- ENOENT, [])
  else
    dir_block_location ← lift (load_long root (dstart_off dir_index));
    current_dir ← open_dir disk dir_block_location;
    free_block;;
    nFiles ← lift (load_int current_dir 0);
    file_index ← lift (file_index_of current_dir (filename p) (extension p) nFiles);
    if bool_decide (file_index = nFiles) then
      free_block;; close_disk disk;; mret (- ENOENT, [])
    else
      block_index ← lift (load_long current_dir (fstart_off file_index));
      block ← open_block disk block_index;
      fsize ← lift (load 8 current_dir (fsize_off file_index));
      read_data disk fsize size size offset block.

(** ** write

    [buf] is what is left of the bytes to write. *)
Definition memcpy_in (block : list Z) (off : Z) (buf : list Z) (n : Z) : res (list Z) :=
  if bool_decide (0 ≤ n ≤ Z.of_nat (length buf)) then
    store_bytes block off (take (Z.to_nat n) buf)
  else Fault Undefined.

(** [while (offset > size_so_far)]: follow the chain, stopping at its end. *)
Fixpoint write_seek (fuel : nat) (disk : FILE_ptr) (offset size_so_far adjusted_offset : Z)
    (block_index : Z) (block : list Z) : M fs (Z * list Z * Z) :=
  match fuel with
  | O => fail OutOfFuel
  | S fuel =>
    if bool_decide (u64 offset > size_so_far) then
      next ← lift (block_next block);
      if bool_decide (next = 0) then mret (block_index, block, adjusted_offset)
      else
        free_block;;
        block ← open_block disk next;
        write_seek fuel disk offset (u64 (size_so_far + MAX_DATA_IN_BLOCK))
          (u64 (adjusted_offset - MAX_DATA_IN_BLOCK)) next block
    else mret (block_index, block, adjusted_offset)
  end.

(** [while (size > 0)]: a full block at a time, then the rest. *)
Fixpoint write_loop (fuel : nat) (disk : FILE_ptr) (size adjusted_offset block_index : Z)
    (block buf : list Z) : M fs unit :=
  match fuel with
  | O => fail OutOfFuel
  | S fuel =>
    if bool_decide (size > 0) then
      if bool_decide (size > MAX_DATA_IN_BLOCK) then
        block ← lift (memcpy_in block adjusted_offset buf MAX_DATA_IN_BLOCK);
        let buf := drop (Z.to_nat MAX_DATA_IN_BLOCK) buf in
        let size := u64 (size - MAX_DATA_IN_BLOCK) in
        next_open_block ← find_next_free_block_index disk;
        block ← lift (set_block_next block next_open_block);
        write_block disk block_index block;;
        free_block;;
        block ← open_block disk next_open_block;
        write_loop fuel disk size adjusted_offset next_open_block block buf
      else
        block ← lift (memcpy_in block adjusted_offset buf size);
        write_block disk block_index block;;
        write_loop fuel disk 0 adjusted_offset block_index block buf
    else mret tt
  end.

(** From the opened start block to the last data block written. *)
Definition write_data (disk : FILE_ptr) (size offset block_index : Z) (block buf : list Z)
  : M fs unit :=
  '(block_index, block, adjusted_offset) ←
     write_seek (block_fuel offset) disk offset MAX_DATA_IN_BLOCK (u64 offset) block_index block;
  if bool_decide (u64 (adjusted_offset + size) > MAX_DATA_IN_BLOCK) then
    next_open_block ← find_next_free_block_index disk;
    block ← lift (set_block_next block next_open_block);
    set_bitmap disk next_open_block 1;;
    let size_written_so_far := u64 (MAX_DATA_IN_BLOCK - adjusted_offset) in
    block ← lift (memcpy_in block adjusted_offset buf size_written_so_far);
    let buf := drop (Z.to_nat size_written_so_far) buf in
    let size := u64 (size - size_written_so_far) in
    write_block disk block_index block;;
    free_block;;
    block ← open_block disk next_open_block;
    write_loop (block_fuel size) disk size 0 next_open_block block buf
  else
    write_loop (block_fuel size) disk size adjusted_offset block_index block buf.

Definition cs1550_write (path buf : list Z) (size offset : Z) : M fs Z :=
  p ← lift (scan_path path);
  if bool_decide (size ≤ 0) then mret (- EPERM) else
  if bool_decide (count p ≠ 3) then mret (- EEXIST) else
  disk ← open_disk;
  root ← open_root disk;
  nDirectories ← lift (load_int root 0);
  dir_index ← lift (dir_index_of root (directory p) nDirectories);
  if bool_decide (dir_index = nDirectories) then
    free_block;; close_disk disk;; mret (- EEXIST)
  else
    dir_block_location ← lift (load_long root (dstart_off dir_index));
    current_dir ← open_dir disk dir_block_location;
    free_block;;
    nFiles ← lift (load_int current_dir 0);
    file_index ← lift (file_index_of current_dir (filename p) (extension p) nFiles);
    if bool_decide (file_index = nFiles) then
      free_block;; close_disk disk;; mret (- ENOENT)
    else
      current_fsize ← lift (load 8 current_dir (fsize_off file_index));
      if bool_decide (u64 offset > current_fsize) then
        close_disk disk;; mret (- EFBIG)
      else
        let total_fsize := u64 (offset + size) in
        block_index ← lift (load_long current_dir (fstart_off file_index));
        block ← open_block disk block_index;
        write_data disk size offset block_index block buf;;
        current_dir ← lift (store 8 current_dir (fsize_off file_index) total_fsize);
        save_dir disk dir_block_location current_dir;;
        free_block;; free_block;; close_disk disk;;
        mret (s32 size).

(** ** Handlers that do nothing *)
Definition cs1550_truncate (path : list Z) (size : Z) : M fs Z := mret 0.
Definition cs1550_open (path : list Z) : M fs Z := mret 0.
Definition cs1550_flush (path : list Z) : M fs Z := mret 0.
