(* ===== verification/Cs1550Path.v ===== *)
(** * Paths of the cs1550 file system

    What [sscanf] makes of the paths a user can write: a directory path and a
    file path in 8.3 form are split into exactly the components they were built
    from, and a component too long for its array is undefined behaviour. *)
From stdpp Require Import base numbers list.
From S2P Require Import Prelude Bytes Cs1550Disk Cs1550Fs.
#[local] Open Scope Z_scope.

(** The paths [/d] and [/d/f.e]. *)
Definition dir_path (d : list Z) : list Z := SLASH :: d.
Definition file_path (d f e : list Z) : list Z := SLASH :: d ++ SLASH :: f ++ DOT :: e.

(** Names the format string can deliver: nonempty, without the delimiter that
    ends them. *)
Definition dname_ok (d : list Z) : Prop :=
  d ≠ [] ∧ cstr_ok d ∧ (length d ≤ 8)%nat ∧ Forall (λ c, c ≠ SLASH) d.
Definition fname_ok (f : list Z) : Prop :=
  f ≠ [] ∧ cstr_ok f ∧ (length f ≤ 8)%nat ∧ Forall (λ c, c ≠ DOT) f.
Definition fext_ok (e : list Z) : Prop :=
  e ≠ [] ∧ cstr_ok e ∧ (length e ≤ 3)%nat ∧ Forall (λ c, isspace c = false) e.

#[export] Instance dname_ok_dec d : Decision (dname_ok d).
Proof. unfold dname_ok; apply _. Defined.
#[export] Instance fname_ok_dec d : Decision (fname_ok d).
Proof. unfold fname_ok; apply _. Defined.
#[export] Instance fext_ok_dec d : Decision (fext_ok d).
Proof. unfold fext_ok; apply _. Defined.

Lemma span_app p a c b :
  Forall (λ x, p x = true) a → p c = false → span p (a ++ c :: b) = (a, c :: b).
Proof. intros H Hc. induction H as [|x a Hx _ IH]; simpl; [by rewrite Hc|]. by rewrite Hx, IH. Qed.

Lemma span_all p a : Forall (λ x, p x = true) a → span p a = (a, []).
Proof. intros H. induction H as [|x a Hx _ IH]; simpl; [done|]. by rewrite Hx, IH. Qed.

Lemma ne_true (d : list Z) (c : Z) : Forall (λ x, x ≠ c) d → Forall (λ x, bool_decide (x ≠ c) = true) d.
Proof. intros H. eapply Forall_impl; [exact H|]. simpl. intros. by rewrite bool_decide_eq_true_2. Qed.

(** [%[^/]] and [%[^.]] stop at their delimiter, which the next literal eats. *)
Lemma sscanf_dir d :
  d ≠ [] → Forall (λ c, c ≠ SLASH) d → sscanf_path (dir_path d) = mkparsed 1 (Some d) None None.
Proof.
  intros Hd Hs. simpl. rewrite span_all by by apply ne_true. by destruct d.
Qed.

Lemma sscanf_file d f e :
  d ≠ [] → Forall (λ c, c ≠ SLASH) d → f ≠ [] → Forall (λ c, c ≠ DOT) f →
  e ≠ [] → Forall (λ c, isspace c = false) e →
  sscanf_path (file_path d f e) = mkparsed 3 (Some d) (Some f) (Some e).
Proof.
  intros Hd Hds Hf Hfs He Hes. simpl.
  rewrite span_app by first [by apply ne_true | reflexivity].
  destruct d as [|c0 d]; [done|].
  rewrite span_app by first [by apply ne_true | reflexivity].
  destruct f as [|c1 f]; [done|].
  destruct e as [|c2 e]; [done|]. inversion Hes; subst.
  change (span isspace (c2 :: e)) with
    (if isspace c2 then let '(a, b) := span isspace e in (c2 :: a, b) else ([], c2 :: e)).
  rewrite H1. simpl snd. rewrite span_all; [done|].
  eapply Forall_impl; [exact Hes|]. simpl. intros x Hx. by rewrite Hx.
Qed.

Lemma fits_ok n s : Z.of_nat (length s) + 1 ≤ n → fits n (Some s) = true.
Proof. intros. simpl. by rewrite bool_decide_eq_true_2 by lia. Qed.

Lemma scan_dir_path d : dname_ok d → scan_path (dir_path d) = Ok (mkparsed 1 (Some d) None None).
Proof.
  intros (? & ? & ? & ?). unfold scan_path. rewrite sscanf_dir by done. simpl directory.
  by rewrite fits_ok by (unfold MAX_DIRNAME; lia).
Qed.

Lemma scan_file_path d f e :
  dname_ok d → fname_ok f → fext_ok e →
  scan_path (file_path d f e) = Ok (mkparsed 3 (Some d) (Some f) (Some e)).
Proof.
  intros (? & ? & ? & ?) (? & ? & ? & ?) (? & ? & ? & ?). unfold scan_path.
  rewrite sscanf_file by done. simpl directory; simpl filename; simpl extension.
  by rewrite !fits_ok by (unfold MAX_DIRNAME, MAX_FILENAME, MAX_EXTENSION; lia).
Qed.

(** A path whose first component is longer than eight bytes is never parsed
    into the array without overrunning it. *)
Lemma scan_long_dir d :
  Forall (λ c, c ≠ SLASH) d → (8 < length d)%nat → scan_path (dir_path d) = Fault Undefined.
Proof.
  intros Hs Hl. unfold scan_path. rewrite sscanf_dir; [|by destruct d; simpl in *; [lia|]|done].
  simpl directory. unfold fits at 1. rewrite bool_decide_eq_false_2; [done|].
  unfold MAX_DIRNAME. lia.
Qed.

(** Whatever the path, a converted directory name fits its array. *)
Lemma scan_fits path p d :
  scan_path path = Ok p → directory p = Some d → (length d ≤ 8)%nat.
Proof.
  unfold scan_path. intros H Hd.
  destruct (fits (MAX_DIRNAME + 1) (directory (sscanf_path path))) eqn:E1; [|done].
  simpl in H. case_match; [|done]. injection H as <-. rewrite Hd in E1. simpl in E1.
  apply bool_decide_eq_true in E1. unfold MAX_DIRNAME in E1. lia.
Qed.
