(* ===== verification/Cs1550Spec.v ===== *)
(** * The abstract file system behind a cs1550 disk image

    An abstract state is a list of directories, each with its files and their
    contents; [fs_inv] says which disk images represent it.  The file also has
    the layout lemmas: how the packed structures of a block are read and how a
    write to one entry leaves the others alone. *)
From stdpp Require Import base numbers list.
From S2P Require Import Prelude Bytes Cs1550Disk Cs1550DiskFacts Cs1550Fs Cs1550Path.
#[local] Open Scope Z_scope.

(** ** Abstract state *)
Record afile : Type := mkafile {
  af_name : list Z; af_ext : list Z;
  af_data : list Z;          (** contents *)
  af_blocks : list Z }.      (** the chain of disk blocks *)
Record adir : Type := mkadir {
  ad_name : list Z;
  ad_block : Z;              (** the directory's own block *)
  ad_files : list afile }.

(** ** Entries of root and directory blocks *)
Record dirent : Type := mkdirent { de_name : list Z; de_start : Z }.
Record fileent : Type := mkfileent { fe_name : list Z; fe_ext : list Z; fe_size : Z; fe_start : Z }.

Definition str_at (b : list Z) (off : Z) (s : list Z) : Prop :=
  slice b (Z.to_nat off) (S (length s)) = s ++ [0].

Definition dirent_at (b : list Z) (i : Z) (e : dirent) : Prop :=
  str_at b (dname_off i) (de_name e) ∧ load_long b (dstart_off i) = Ok (de_start e) ∧
  dname_ok (de_name e).

Definition fileent_at (b : list Z) (i : Z) (e : fileent) : Prop :=
  str_at b (fname_off i) (fe_name e) ∧ str_at b (fext_off i) (fe_ext e) ∧
  load 8 b (fsize_off i) = Ok (fe_size e) ∧ load_long b (fstart_off i) = Ok (fe_start e) ∧
  fname_ok (fe_name e) ∧ fext_ok (fe_ext e).

Definition root_repr (b : list Z) (l : list dirent) : Prop :=
  length b = 512%nat ∧ Forall byte_ok b ∧ load_int b 0 = Ok (Z.of_nat (length l)) ∧
  (length l ≤ 29)%nat ∧ (∀ i e, l !! i = Some e → dirent_at b (Z.of_nat i) e).

Definition dir_repr (b : list Z) (l : list fileent) : Prop :=
  length b = 512%nat ∧ Forall byte_ok b ∧ load_int b 0 = Ok (Z.of_nat (length l)) ∧
  (length l ≤ 17)%nat ∧ (∀ i e, l !! i = Some e → fileent_at b (Z.of_nat i) e).

(** ** Files *)

(** The blocks [bl] are linked by their [next] fields, the last one by 0. *)
Fixpoint chain (d : list Z) (bl : list Z) : Prop :=
  match bl with
  | [] => False
  | [i] => block_next (rd d i) = Ok 0
  | i :: ((j :: _) as rest) => block_next (rd d i) = Ok j ∧ chain d rest
  end.

Definition chain_data (d : list Z) (bl : list Z) : list Z :=
  concat (map (λ i, take 504 (rd d i)) bl).

Definition file_repr (d : list Z) (f : afile) : Prop :=
  chain d (af_blocks f) ∧
  (length (af_data f) ≤ 504 * length (af_blocks f))%nat ∧
  af_data f = take (length (af_data f)) (chain_data d (af_blocks f)).

(** ** The whole image *)
Definition dirent_of (D : adir) : dirent := mkdirent (ad_name D) (ad_block D).
Definition fileent_of (f : afile) : fileent :=
  mkfileent (af_name f) (af_ext f) (Z.of_nat (length (af_data f))) (default 0 (head (af_blocks f))).

Definition dir_blocks (D : adir) : list Z := ad_block D :: concat (map af_blocks (ad_files D)).
Definition used (A : list adir) : list Z := 0 :: concat (map dir_blocks A).

Definition zero_block : list Z := replicate 512 0.

Record fs_inv (n : Z) (d : list Z) (nf : Z) (A : list adir) : Prop := {
  inv_image : image_ok n d;
  inv_nf : 1 ≤ nf;
  inv_root : root_repr (rd d 0) (map dirent_of A);
  inv_dirs : ∀ D, D ∈ A → dir_repr (rd d (ad_block D)) (map fileent_of (ad_files D));
  inv_files : ∀ D f, D ∈ A → f ∈ ad_files D → file_repr d f;
  inv_nodup : NoDup (used A);
  inv_used : ∀ i, i ∈ used A → 0 ≤ i < n ∧ (i = 0 ∨ marked d i = true);
  inv_free : ∀ i, 1 ≤ i < n → marked d i = false → rd d i = zero_block;
  inv_names : NoDup (map ad_name A);
  inv_fnames : ∀ D, D ∈ A → NoDup (map (λ f, (af_name f, af_ext f)) (ad_files D)) }.

(** Positions of entries, as the lookup loops compute them. *)
Definition find_idx {E} (P : E → Prop) `{∀ e, Decision (P e)} (l : list E) : Z :=
  match list_find P l with Some (j, _) => Z.of_nat j | None => Z.of_nat (length l) end.

(** ** Layout arithmetic *)
Lemma dname_off_eq i : dname_off i = 4 + 17 * i.
Proof. reflexivity. Qed.
Lemma dstart_off_eq i : dstart_off i = 13 + 17 * i.
Proof. unfold dstart_off. rewrite dname_off_eq. unfold MAX_DIRNAME. lia. Qed.
Lemma fname_off_eq i : fname_off i = 4 + 29 * i.
Proof. reflexivity. Qed.
Lemma fext_off_eq i : fext_off i = 13 + 29 * i.
Proof. unfold fext_off, file_off, sizeof_int, sizeof_file_directory, MAX_FILENAME, MAX_EXTENSION, sizeof_size_t, sizeof_long. lia. Qed.
Lemma fsize_off_eq i : fsize_off i = 17 + 29 * i.
Proof. unfold fsize_off. rewrite fext_off_eq. unfold MAX_EXTENSION. lia. Qed.
Lemma fstart_off_eq i : fstart_off i = 25 + 29 * i.
Proof. unfold fstart_off. rewrite fsize_off_eq. unfold sizeof_size_t. lia. Qed.
Create Rewrite HintDb cs_layout.
#[export] Hint Rewrite dname_off_eq dstart_off_eq fname_off_eq fext_off_eq fsize_off_eq
  fstart_off_eq : cs_layout.

Ltac layout := autorewrite with cs_layout in *.

(** ** Fields and spliced buffers *)
Lemma load_splice_same n b off v :
  0 ≤ off → off + Z.of_nat n ≤ Z.of_nat (length b) →
  load n (splice b (Z.to_nat off) (le_bytes n v)) off = Ok (v `mod` 2 ^ (8 * Z.of_nat n)).
Proof. intros. eapply load_store_same, store_ok; eauto. Qed.

Lemma load_splice_other n b off bs off' :
  (off + length bs ≤ length b)%nat →
  off' + Z.of_nat n ≤ Z.of_nat off ∨ Z.of_nat (off + length bs) ≤ off' →
  load n (splice b off bs) off' = load n b off'.
Proof.
  intros Hl Hd. unfold load, load_bytes, in_bounds. rewrite length_splice by done.
  case_bool_decide; [|done]. simpl. by rewrite slice_splice_other by lia.
Qed.

Lemma load_int_splice_other b off bs off' :
  (off + length bs ≤ length b)%nat →
  off' + 4 ≤ Z.of_nat off ∨ Z.of_nat (off + length bs) ≤ off' →
  load_int (splice b off bs) off' = load_int b off'.
Proof. intros. unfold load_int. by rewrite load_splice_other. Qed.

Lemma load_long_splice_other b off bs off' :
  (off + length bs ≤ length b)%nat →
  off' + 8 ≤ Z.of_nat off ∨ Z.of_nat (off + length bs) ≤ off' →
  load_long (splice b off bs) off' = load_long b off'.
Proof. intros. unfold load_long. by rewrite load_splice_other. Qed.

Lemma load_long_splice_same b off v :
  0 ≤ off → off + 8 ≤ Z.of_nat (length b) → - 2^63 ≤ v < 2^63 →
  load_long (splice b (Z.to_nat off) (le_bytes 8 v)) off = Ok v.
Proof.
  intros. unfold load_long. rewrite load_splice_same by lia. unfold mbind, mret, res_bind, res_ret.
  change (v `mod` 2 ^ (8 * Z.of_nat 8)) with (u64 v). by rewrite s64_u64, s64_small.
Qed.

Lemma load_int_splice_same b off v :
  0 ≤ off → off + 4 ≤ Z.of_nat (length b) → - 2^31 ≤ v < 2^31 →
  load_int (splice b (Z.to_nat off) (le_bytes 4 v)) off = Ok v.
Proof.
  intros. unfold load_int. rewrite load_splice_same by lia. unfold mbind, mret, res_bind, res_ret.
  change (v `mod` 2 ^ (8 * Z.of_nat 4)) with (u32 v). by rewrite s32_u32, s32_small.
Qed.

Lemma str_at_splice_same b off s :
  0 ≤ off → off + Z.of_nat (length s) + 1 ≤ Z.of_nat (length b) →
  str_at (splice b (Z.to_nat off) (s ++ [0])) off s.
Proof.
  intros. unfold str_at. replace (S (length s)) with (length (s ++ [0])) by (rewrite length_app; simpl; lia).
  apply slice_splice_same. rewrite length_app; simpl; lia.
Qed.

Lemma str_at_splice_other b off bs off' s :
  (off + length bs ≤ length b)%nat → 0 ≤ off' →
  off' + Z.of_nat (length s) + 1 ≤ Z.of_nat off ∨ Z.of_nat (off + length bs) ≤ off' →
  str_at b off' s → str_at (splice b off bs) off' s.
Proof. intros. unfold str_at in *. rewrite slice_splice_other by lia. done. Qed.

Lemma str_at_drop b off s : str_at b off s → ∃ rest, drop (Z.to_nat off) b = s ++ 0 :: rest.
Proof.
  unfold str_at, slice. intros H. exists (drop (S (length s)) (drop (Z.to_nat off) b)).
  rewrite <- (take_drop (S (length s)) (drop (Z.to_nat off) b)) at 1. rewrite H.
  by rewrite <- app_assoc.
Qed.

Lemma strcmp_at_str b off s t :
  str_at b off s → cstr_ok s → cstr_ok t → strcmp_at b off (Some t) = Ok (bool_decide (s = t)).
Proof.
  intros (rest & Hr)%str_at_drop Hs Ht. unfold strcmp_at. simpl. rewrite Hr. by apply strcmp_eq_app.
Qed.

Lemma cstring_str b off s : str_at b off s → cstr_ok s → cstring (drop (Z.to_nat off) b) = Ok s.
Proof. intros (rest & ->)%str_at_drop Hs. by apply cstring_app. Qed.

(** ** Frames for entries *)
Lemma dirent_at_frame b i e off bs :
  (off + length bs ≤ length b)%nat → 0 ≤ i →
  Z.of_nat (off + length bs) ≤ 4 + 17 * i ∨ 4 + 17 * i + 17 ≤ Z.of_nat off →
  dirent_at b i e → dirent_at (splice b off bs) i e.
Proof.
  intros Hl Hi Hd (Hs & Hw & Hn). pose proof Hn as (_ & _ & Hlen & _).
  split_and!; [|rewrite load_long_splice_other; [done|done|layout; lia]|done].
  apply str_at_splice_other; [done|layout; lia|layout; lia|done].
Qed.

Lemma fileent_at_frame b i e off bs :
  (off + length bs ≤ length b)%nat → 0 ≤ i →
  Z.of_nat (off + length bs) ≤ 4 + 29 * i ∨ 4 + 29 * i + 29 ≤ Z.of_nat off →
  fileent_at b i e → fileent_at (splice b off bs) i e.
Proof.
  intros Hl Hi Hd (Hs & Hx & Hw1 & Hw2 & Hn & He).
  pose proof Hn as (_ & _ & Hlen & _). pose proof He as (_ & _ & Hlen' & _).
  split_and!; [| | | |done|done].
  - apply str_at_splice_other; [done|layout; lia|layout; lia|done].
  - apply str_at_splice_other; [done|layout; lia|layout; lia|done].
  - rewrite load_splice_other; [done|done|layout; lia].
  - rewrite load_long_splice_other; [done|done|layout; lia].
Qed.

(** ** Lookups in represented blocks *)
Lemma dir_index_repr b l nm :
  root_repr b l → cstr_ok nm →
  dir_index_of b (Some nm) (Z.of_nat (length l)) = Ok (find_idx (λ e, de_name e = nm) l).
Proof.
  intros (_ & _ & _ & _ & He) Hn. unfold dir_index_of, find_idx. rewrite Nat2Z.id.
  apply (for_break_find (λ e, de_name e = nm)). intros j e Hj. simpl.
  destruct (He j e Hj) as (Hs & _ & _ & Hc & _). by apply strcmp_at_str.
Qed.

Lemma file_index_repr b l nm ex :
  dir_repr b l → cstr_ok nm → cstr_ok ex →
  file_index_of b (Some nm) (Some ex) (Z.of_nat (length l)) =
  Ok (find_idx (λ e, fe_name e = nm ∧ fe_ext e = ex) l).
Proof.
  intros (_ & _ & _ & _ & He) Hn Hx. unfold file_index_of, find_idx. rewrite Nat2Z.id.
  apply (for_break_find (λ e, fe_name e = nm ∧ fe_ext e = ex)). intros j e Hj. simpl.
  destruct (He j e Hj) as (Hs & Hs2 & _ & _ & (_ & Hc & _) & (_ & Hc2 & _)).
  unfold file_matches. rewrite (strcmp_at_str _ _ _ _ Hs) by done. simpl.
  case_bool_decide as E.
  - rewrite (strcmp_at_str _ _ _ _ Hs2) by done. f_equal. apply bool_decide_ext. naive_solver.
  - rewrite bool_decide_eq_false_2; [done|naive_solver].
Qed.

(** ** Adding an entry *)
Definition root_add (b : list Z) (len : nat) (nm : list Z) (k : Z) : list Z :=
  splice (splice (splice b 0 (le_bytes 4 (Z.of_nat len + 1)))
            (Z.to_nat (dname_off (Z.of_nat len))) (nm ++ [0]))
    (Z.to_nat (dstart_off (Z.of_nat len))) (le_bytes 8 k).

Definition dir_add (b : list Z) (len : nat) (nm ex : list Z) (k : Z) : list Z :=
  splice (splice (splice (splice (splice b 0 (le_bytes 4 (Z.of_nat len + 1)))
            (Z.to_nat (fname_off (Z.of_nat len))) (nm ++ [0]))
          (Z.to_nat (fext_off (Z.of_nat len))) (ex ++ [0]))
        (Z.to_nat (fsize_off (Z.of_nat len))) (le_bytes 8 0))
    (Z.to_nat (fstart_off (Z.of_nat len))) (le_bytes 8 k).

Lemma cstr_bytes s : cstr_ok s → Forall byte_ok (s ++ [0]).
Proof.
  intros H. apply Forall_app; split; [|by repeat constructor].
  eapply Forall_impl; [exact H|]. unfold byte_ok. simpl. lia.
Qed.
#[export] Hint Resolve cstr_bytes : cs.

Lemma root_add_repr b l nm k :
  root_repr b l → (length l < 29)%nat → dname_ok nm → - 2^63 ≤ k < 2^63 →
  root_repr (root_add b (length l) nm k) (l ++ [mkdirent nm k]).
Proof.
  intros (Hb & Hf & Hc & Hn & He) Hlt Hnm Hk. pose proof Hnm as (_ & Hcs & Hlen & _).
  unfold root_add. set (b1 := splice b 0 _). set (o2 := Z.to_nat _).
  set (b2 := splice b1 o2 _). set (o3 := Z.to_nat (dstart_off _)).
  assert (Z.of_nat o2 = 4 + 17 * Z.of_nat (length l)) as Ho2 by (unfold o2; layout; lia).
  assert (Z.of_nat o3 = 13 + 17 * Z.of_nat (length l)) as Ho3 by (unfold o3; layout; lia).
  assert (length b1 = 512%nat) as Hb1
    by (unfold b1; rewrite length_splice; rewrite ?length_le_bytes; lia).
  assert (length (nm ++ [0]) = S (length nm)) as Hnl by (rewrite length_app; simpl; lia).
  assert (length b2 = 512%nat) as Hb2 by (unfold b2; rewrite length_splice; lia).
  split_and!.
  - rewrite length_splice; rewrite ?length_le_bytes; lia.
  - unfold b2, b1. eauto 8 with cs.
  - rewrite load_int_splice_other by (rewrite ?length_le_bytes; lia).
    unfold b2. rewrite load_int_splice_other by lia.
    unfold b1. change 0%nat with (Z.to_nat 0). rewrite load_int_splice_same by lia.
    f_equal. rewrite length_app. simpl. lia.
  - rewrite length_app. simpl. lia.
  - intros i e Hi. apply lookup_app_Some in Hi as [Hi|[Hge Hi]].
    + pose proof (lookup_lt_Some _ _ _ Hi).
      do 3 (apply dirent_at_frame; [rewrite ?length_le_bytes; lia|lia|rewrite ?length_le_bytes; lia|]).
      by apply He.
    + apply list_lookup_singleton_Some in Hi as [Hi <-].
      replace i with (length l) in * by lia. split_and!; [| |done]; cbn [de_name de_start].
      * apply str_at_splice_other; [rewrite ?length_le_bytes; lia|layout; lia|layout; lia|].
        apply str_at_splice_same; layout; lia.
      * apply load_long_splice_same; layout; lia.
Qed.

Lemma dir_add_repr b l nm ex k :
  dir_repr b l → (length l < 17)%nat → fname_ok nm → fext_ok ex → - 2^63 ≤ k < 2^63 →
  dir_repr (dir_add b (length l) nm ex k) (l ++ [mkfileent nm ex 0 k]).
Proof.
  intros (Hb & Hf & Hc & Hn & He) Hlt Hnm Hex Hk.
  pose proof Hnm as (_ & Hcs & Hlen & _). pose proof Hex as (_ & Hcs' & Hlen' & _).
  unfold dir_add. set (b1 := splice b 0 _). set (o2 := Z.to_nat (fname_off _)).
  set (b2 := splice b1 o2 _). set (o3 := Z.to_nat (fext_off _)). set (b3 := splice b2 o3 _).
  set (o4 := Z.to_nat (fsize_off _)). set (b4 := splice b3 o4 _).
  set (o5 := Z.to_nat (fstart_off _)).
  assert (Z.of_nat o2 = 4 + 29 * Z.of_nat (length l)) as Ho2 by (unfold o2; layout; lia).
  assert (Z.of_nat o3 = 13 + 29 * Z.of_nat (length l)) as Ho3 by (unfold o3; layout; lia).
  assert (Z.of_nat o4 = 17 + 29 * Z.of_nat (length l)) as Ho4 by (unfold o4; layout; lia).
  assert (Z.of_nat o5 = 25 + 29 * Z.of_nat (length l)) as Ho5 by (unfold o5; layout; lia).
  assert (length (nm ++ [0]) = S (length nm)) as Hnl by (rewrite length_app; simpl; lia).
  assert (length (ex ++ [0]) = S (length ex)) as Hel by (rewrite length_app; simpl; lia).
  assert (length b1 = 512%nat) as Hb1
    by (unfold b1; rewrite length_splice; rewrite ?length_le_bytes; lia).
  assert (length b2 = 512%nat) as Hb2 by (unfold b2; rewrite length_splice; lia).
  assert (length b3 = 512%nat) as Hb3 by (unfold b3; rewrite length_splice; lia).
  assert (length b4 = 512%nat) as Hb4
    by (unfold b4; rewrite length_splice; rewrite ?length_le_bytes; lia).
  split_and!.
  - rewrite length_splice; rewrite ?length_le_bytes; lia.
  - unfold b4, b3, b2, b1. eauto 12 with cs.
  - rewrite load_int_splice_other by (rewrite ?length_le_bytes; lia).
    unfold b4. rewrite load_int_splice_other by (rewrite ?length_le_bytes; lia).
    unfold b3. rewrite load_int_splice_other by lia.
    unfold b2. rewrite load_int_splice_other by lia.
    unfold b1. change 0%nat with (Z.to_nat 0). rewrite load_int_splice_same by lia.
    f_equal. rewrite length_app. simpl. lia.
  - rewrite length_app. simpl. lia.
  - intros i e Hi. apply lookup_app_Some in Hi as [Hi|[Hge Hi]].
    + pose proof (lookup_lt_Some _ _ _ Hi).
      do 5 (apply fileent_at_frame; [rewrite ?length_le_bytes; lia|lia|rewrite ?length_le_bytes; lia|]).
      by apply He.
    + apply list_lookup_singleton_Some in Hi as [Hi <-].
      replace i with (length l) in * by lia. split_and!; [| | | |done|done]; cbn [fe_name fe_ext fe_size fe_start].
      * do 3 (apply str_at_splice_other; [rewrite ?length_le_bytes; lia|layout; lia|rewrite ?length_le_bytes; layout; lia|]).
        apply str_at_splice_same; layout; lia.
      * do 2 (apply str_at_splice_other; [rewrite ?length_le_bytes; lia|layout; lia|rewrite ?length_le_bytes; layout; lia|]).
        apply str_at_splice_same; layout; lia.
      * rewrite load_splice_other by (rewrite ?length_le_bytes; layout; lia).
        unfold b4, o4. rewrite load_splice_same by (layout; lia). done.
      * apply load_long_splice_same; layout; lia.
Qed.
