(* ===== verification/Cs1550Refine.v ===== *)
(** * The cs1550 handlers refine the abstract file system

    Each handler, run on an image that represents an abstract state, returns
    what the abstract operation returns and leaves an image that represents the
    abstract operation's result, with every stream closed again. *)
From stdpp Require Import base numbers list gmap sets.
From S2P Require Import Prelude Bytes Cs1550Disk Cs1550DiskFacts Cs1550Fs Cs1550Path Cs1550Spec.
#[local] Open Scope Z_scope.

(** ** Frames *)

(** [d'] is [d] with at most the blocks [W] rewritten and the blocks [K] marked. *)
Record updated (n : Z) (d d' : list Z) (W K : list Z) : Prop := {
  upd_image : image_ok n d';
  upd_rd : ∀ j, 0 ≤ j < n → j ∉ W → rd d' j = rd d j;
  upd_marked : ∀ j, 0 ≤ j < n → marked d' j = (marked d j || bool_decide (j ∈ K)) }.

Lemma updated_mark n d k :
  image_ok n d → 0 ≤ k < n → updated n d (set_mark d k) [] [k].
Proof.
  intros Hd Hk. pose proof Hd as (? & _ & _). split.
  - apply image_set_mark; [done|lia].
  - intros j Hj _. apply (rd_set_mark n); [done|lia|lia].
  - intros j Hj. rewrite (marked_set_mark n) by (done || lia). f_equal.
    apply bool_decide_ext. set_solver.
Qed.

Lemma updated_wr n d i b :
  image_ok n d → 0 ≤ i < n → length b = 512%nat → Forall byte_ok b →
  updated n d (wr d i b) [i] [].
Proof.
  intros Hd Hi Hb Hf. pose proof Hd as (? & _ & _). split.
  - by apply image_wr.
  - intros j Hj Hn. rewrite (rd_wr n) by done. rewrite bool_decide_eq_false_2; [done|]. set_solver.
  - intros j Hj. rewrite (marked_wr n) by (done || lia).
    rewrite bool_decide_eq_false_2 by set_solver. by rewrite orb_false_r.
Qed.

Lemma updated_trans n d d1 d2 W1 K1 W2 K2 :
  updated n d d1 W1 K1 → updated n d1 d2 W2 K2 → updated n d d2 (W1 ++ W2) (K1 ++ K2).
Proof.
  intros [_ Hr1 Hm1] [Hi Hr2 Hm2]. split; [done| |].
  - intros j Hj Hn. rewrite Hr2, Hr1; set_solver.
  - intros j Hj. rewrite Hm2, Hm1 by done. rewrite <- orb_assoc. f_equal.
    rewrite <- bool_decide_or. apply bool_decide_ext. set_solver.
Qed.

Lemma chain_frame d d' bl : (∀ i, i ∈ bl → rd d' i = rd d i) → chain d bl → chain d' bl.
Proof.
  induction bl as [|i bl IH]; intros H; [done|]. destruct bl as [|j bl]; simpl.
  - rewrite H; set_solver.
  - rewrite (H i) by set_solver. intros [? ?]. split; [done|]. apply IH; [|done]. set_solver.
Qed.

Lemma chain_data_frame d d' bl :
  (∀ i, i ∈ bl → rd d' i = rd d i) → chain_data d' bl = chain_data d bl.
Proof.
  intros H. unfold chain_data. f_equal. apply list_fmap_ext. intros k i Hk.
  rewrite H; [done|]. by eapply list_elem_of_lookup_2.
Qed.

Lemma file_repr_frame d d' f :
  (∀ i, i ∈ af_blocks f → rd d' i = rd d i) → file_repr d f → file_repr d' f.
Proof.
  intros H (Hc & Hl & Hd). split_and!; [by eapply chain_frame|done|].
  by rewrite (chain_data_frame d d').
Qed.

(** ** Blocks in use *)
Lemma elem_of_concat_map {X} (f : X → list Z) (l : list X) x i :
  x ∈ l → i ∈ f x → i ∈ concat (map f l).
Proof.
  intros Hx Hi. rewrite list_elem_of_In, in_concat. exists (f x).
  rewrite <- !list_elem_of_In. split; [by apply list_elem_of_fmap_2|done].
Qed.

Lemma data_dir A D : D ∈ A → ad_block D ∈ concat (map dir_blocks A).
Proof. intros H. eapply elem_of_concat_map; [done|]. by left. Qed.

Lemma data_file A D f i :
  D ∈ A → f ∈ ad_files D → i ∈ af_blocks f → i ∈ concat (map dir_blocks A).
Proof.
  intros HD Hf Hi. eapply elem_of_concat_map; [done|]. right. by eapply elem_of_concat_map.
Qed.

Lemma used_dir A D : D ∈ A → ad_block D ∈ used A.
Proof. intros. right. by apply data_dir. Qed.
Lemma used_file A D f i : D ∈ A → f ∈ ad_files D → i ∈ af_blocks f → i ∈ used A.
Proof. intros. right. by eapply data_file. Qed.

Lemma used_app A D : used (A ++ [D]) = used A ++ dir_blocks D.
Proof. unfold used. rewrite map_app, concat_app. simpl. by rewrite app_nil_r. Qed.

Section inv.
Context {n : Z} {d : list Z} {nf : Z} {A : list adir} (Hinv : fs_inv n d nf A).

Lemma used_range i : i ∈ used A → 0 ≤ i < n.
Proof. intros Hi. by apply (inv_used _ _ _ _ Hinv). Qed.

Lemma n_range : 1 ≤ n ≤ 12288.
Proof. by destruct (inv_image _ _ _ _ Hinv). Qed.

(** An unmarked block after block 0 belongs to nobody. *)
Lemma free_not_used k : 1 ≤ k → marked d k = false → k ∉ used A.
Proof. intros Hk Hm Hu. destruct (inv_used _ _ _ _ Hinv k Hu) as [_ [->|E]]; [lia|congruence]. Qed.

Lemma data_not_root i : i ∈ concat (map dir_blocks A) → i ≠ 0.
Proof.
  intros Hi ->. pose proof (inv_nodup _ _ _ _ Hinv) as Hn.
  by apply NoDup_cons in Hn as [Hn _].
Qed.
End inv.

(** ** Running the handlers *)
Lemma lift_bind {S X Y} (a : X) (k : X → M S Y) s : (lift (Ok a) ≫= k) s = k a s.
Proof. done. Qed.

Ltac mok := erewrite bind_ok by
  first [ apply open_disk_run | apply close_disk_run | apply free_block_run
        | eapply open_block_run; [eassumption|lia]
        | eapply write_block_run; [eassumption|lia|eassumption] ].
Ltac lok := rewrite ?lift_bind; cbv beta zeta.

Lemma find_idx_absent {E} (P : E → Prop) `{∀ e, Decision (P e)} (l : list E) :
  (∀ e, e ∈ l → ¬ P e) → find_idx P l = Z.of_nat (length l).
Proof.
  intros Hn. unfold find_idx. destruct (list_find P l) as [[j e]|] eqn:Ef; [|done].
  apply list_find_Some in Ef as (Hl & Hp & _). exfalso. eapply Hn; [|done]. by eapply list_elem_of_lookup_2.
Qed.

Lemma find_idx_present {E} (P : E → Prop) `{∀ e, Decision (P e)} (l : list E) :
  (∃ e, e ∈ l ∧ P e) → ∃ j e, find_idx P l = Z.of_nat j ∧ l !! j = Some e ∧ P e.
Proof.
  intros (e & He & Hp). unfold find_idx. destruct (list_find P l) as [[j e']|] eqn:Ef.
  - apply list_find_Some in Ef as (Hl & Hp' & _). eauto.
  - apply list_find_None in Ef. rewrite Forall_forall in Ef. exfalso. by eapply Ef.
Qed.

Lemma find_idx_lt {E} (P : E → Prop) `{∀ e, Decision (P e)} (l : list E) j e :
  find_idx P l = Z.of_nat j → l !! j = Some e → Z.of_nat j < Z.of_nat (length l).
Proof. intros _ Hl. apply lookup_lt_Some in Hl. lia. Qed.

(** ** mkdir *)

(** The state the handler leaves: the new entry in block 0, block [k] marked. *)
Definition mkdir_image (d : list Z) (A : list adir) (nm : list Z) (k : Z) : list Z :=
  wr (set_mark d k) 0 (root_add (rd d 0) (length A) nm k).

Lemma zero_block_dir_repr : dir_repr zero_block [].
Proof.
  split_and!; [reflexivity| |reflexivity|simpl; lia|by intros ? ? ?].
  apply Forall_replicate. done.
Qed.

Lemma mkdir_inv n d nf A nm k :
  fs_inv n d nf A → dname_ok nm → (length A < 29)%nat → (∀ D, D ∈ A → ad_name D ≠ nm) →
  1 ≤ k < n → marked d k = false →
  fs_inv n (mkdir_image d A nm k) k (A ++ [mkadir nm k []]).
Proof.
  intros Hinv Hnm Hlen Hnew Hk Hfree. pose proof (inv_image _ _ _ _ Hinv) as Him.
  pose proof (n_range Hinv). pose proof (free_not_used Hinv k ltac:(lia) Hfree) as Hku.
  set (r := root_add (rd d 0) (length A) nm k).
  assert (root_repr r (map dirent_of (A ++ [mkadir nm k []]))) as Hr.
  { rewrite map_app. unfold r. rewrite <- (length_map dirent_of A).
    apply root_add_repr; [apply (inv_root _ _ _ _ Hinv)|rewrite length_map; lia|done|lia]. }
  assert (updated n d (mkdir_image d A nm k) ([] ++ [0]) ([k] ++ [])) as [Hi' Hrd Hmk].
  { eapply updated_trans; [apply updated_mark; [done|lia]|].
    apply updated_wr; [apply (image_set_mark n); [done|lia]|lia|apply Hr|apply Hr]. }
  assert (rd (mkdir_image d A nm k) 0 = r) as H0.
  { unfold mkdir_image. rewrite (rd_wr n); [done|apply (image_set_mark n); [done|lia]|lia|lia|apply Hr]. }
  simpl in Hrd, Hmk. split; [done|lia|by rewrite H0| | | | | | |].
  - intros D [HD|HD%list_elem_of_singleton]%elem_of_app.
    + rewrite Hrd; [by apply (inv_dirs _ _ _ _ Hinv)| |].
      * apply (used_range Hinv). by apply used_dir.
      * intros E%list_elem_of_singleton. by apply (data_not_root Hinv (ad_block D)), E; apply data_dir.
    + subst D. simpl. rewrite Hrd by (lia || set_solver by lia).
      rewrite (inv_free _ _ _ _ Hinv) by (lia || done). apply zero_block_dir_repr.
  - intros D f [HD|HD%list_elem_of_singleton]%elem_of_app Hf; [|subst D; simpl in Hf; set_solver].
    apply (file_repr_frame d); [|by eapply (inv_files _ _ _ _ Hinv)].
    intros i Hi. apply Hrd; [apply (used_range Hinv); by eapply used_file|].
    intros E%list_elem_of_singleton. by apply (data_not_root Hinv i); [eapply data_file|].
  - rewrite used_app. change (dir_blocks (mkadir nm k [])) with [k]. apply NoDup_app; split_and!; [apply (inv_nodup _ _ _ _ Hinv)| |].
    + set_solver.
    + apply NoDup_singleton.
  - intros i. rewrite used_app. change (dir_blocks (mkadir nm k [])) with [k]. intros [Hu|Hu%list_elem_of_singleton]%elem_of_app; [|subst i].
    + destruct (inv_used _ _ _ _ Hinv i Hu) as [? [?|Hm]]; [auto|].
      split; [done|right]. rewrite Hmk by done. by rewrite Hm.
    + split; [lia|right]. rewrite Hmk by lia. rewrite bool_decide_eq_true_2 by set_solver.
      by rewrite orb_true_r.
  - intros i Hi. rewrite Hmk by lia. intros [Hm _]%orb_false_elim.
    rewrite Hrd by (lia || set_solver by lia). by apply (inv_free _ _ _ _ Hinv).
  - rewrite map_app. apply NoDup_app; split_and!; [apply (inv_names _ _ _ _ Hinv)| |apply NoDup_singleton].
    intros x (D & -> & HD)%list_elem_of_fmap. simpl. intros E%list_elem_of_singleton. by apply (Hnew D).
  - intros D [HD|HD%list_elem_of_singleton]%elem_of_app; [by apply (inv_fnames _ _ _ _ Hinv)|subst D].
    simpl. constructor.
Qed.

(** The common prefix of the handlers: open the disk, read the root, look the
    directory up. *)
Definition dir_idx (A : list adir) (nm : list Z) : Z :=
  find_idx (λ e, de_name e = nm) (map dirent_of A).

Section lookups.
Context {n : Z} {d : list Z} {nf : Z} {A : list adir} (Hinv : fs_inv n d nf A).

Lemma root_count : load_int (rd d 0) 0 = Ok (Z.of_nat (length A)).
Proof. destruct (inv_root _ _ _ _ Hinv) as (_ & _ & H & _). by rewrite H, length_map. Qed.

Lemma root_lookup nm : dname_ok nm →
  dir_index_of (rd d 0) (Some nm) (Z.of_nat (length A)) = Ok (dir_idx A nm).
Proof.
  intros (_ & Hc & _). rewrite <- (length_map dirent_of A).
  apply dir_index_repr; [apply (inv_root _ _ _ _ Hinv)|done].
Qed.

Lemma dir_idx_absent nm : (∀ D, D ∈ A → ad_name D ≠ nm) → dir_idx A nm = Z.of_nat (length A).
Proof.
  intros H. unfold dir_idx. rewrite find_idx_absent; [by rewrite length_map|].
  intros e (D & -> & HD)%list_elem_of_fmap. simpl. by apply H.
Qed.

Lemma dir_idx_present D : D ∈ A → ∃ j, dir_idx A (ad_name D) = Z.of_nat j ∧ A !! j = Some D.
Proof.
  intros HD. destruct (find_idx_present (λ e, de_name e = ad_name D) (map dirent_of A))
    as (j & e & Hj & Hl & He).
  { exists (dirent_of D). split; [by apply list_elem_of_fmap_2|done]. }
  apply list_lookup_fmap_Some in Hl as (D' & -> & HD'). simpl in He. exists j. split; [done|].
  rewrite HD'. f_equal. pose proof (inv_names _ _ _ _ Hinv) as Hn.
  apply list_elem_of_lookup in HD as [j' Hj'].
  assert (j = j') as ->; [|congruence].
  eapply NoDup_lookup; [exact Hn| |]; by rewrite list_lookup_fmap, ?HD', ?Hj'; simpl; f_equal.
Qed.

Lemma root_start j D : A !! j = Some D →
  load_long (rd d 0) (dstart_off (Z.of_nat j)) = Ok (ad_block D).
Proof.
  intros Hj. destruct (inv_root _ _ _ _ Hinv) as (_ & _ & _ & _ & He).
  destruct (He j (dirent_of D)) as (_ & H & _); [|done].
  by rewrite list_lookup_fmap, Hj.
Qed.
End lookups.

Lemma nm_strlen nm : strlen_of (Some nm) = Ok (Z.of_nat (length nm)).
Proof. done. Qed.

Section mkdir.
Context (n : Z) (d : list Z) (nf : Z) (A : list adir) (nm : list Z).
Context (Hinv : fs_inv n d nf A) (Hnm : dname_ok nm).
Context (p os lb : Z).

Ltac mkdir_prefix :=
  pose proof (inv_image _ _ _ _ Hinv) as Him; pose proof (n_range Hinv) as Hn;
  unfold cs1550_mkdir; rewrite scan_dir_path by done; lok; cbn [count directory];
  rewrite bool_decide_eq_true_2 by done; cbn [negb]; rewrite nm_strlen; lok;
  rewrite (bool_decide_eq_false_2 (Z.of_nat (length nm) > _))
    by (destruct Hnm as (_ & _ & ? & _); unfold MAX_DIRNAME; lia);
  mok; unfold open_root; mok;
  rewrite (root_count Hinv); lok; rewrite (root_lookup Hinv) by done; lok.

Lemma mkdir_exists D : D ∈ A → ad_name D = nm → ∃ p',
  cs1550_mkdir (dir_path nm) (mkfs (Some d) p nf os lb)
  = Ok (- EEXIST, mkfs (Some d) p' nf os lb).
Proof.
  intros HD E. destruct (dir_idx_present Hinv D HD) as (j & Hj & Hl). rewrite E in Hj.
  apply lookup_lt_Some in Hl. mkdir_prefix.
  rewrite Hj, bool_decide_eq_true_2 by lia. mok. mok. eexists.
  rewrite run_ret. do 3 f_equal; lia.
Qed.

Lemma mkdir_full : (∀ D, D ∈ A → ad_name D ≠ nm) → length A = 29%nat → ∃ p',
  cs1550_mkdir (dir_path nm) (mkfs (Some d) p nf os lb)
  = Ok (- ENOSPC, mkfs (Some d) p' nf os lb).
Proof.
  intros Hnew Hl. mkdir_prefix. rewrite (dir_idx_absent nm Hnew).
  rewrite bool_decide_eq_false_2 by lia. rewrite Hl.
  rewrite bool_decide_eq_true_2 by (vm_compute; done). mok. mok. eexists.
  rewrite run_ret. do 3 f_equal; lia.
Qed.

Lemma mkdir_new k :
  (∀ D, D ∈ A → ad_name D ≠ nm) → (length A < 29)%nat →
  nf ≤ k < n → (∀ j, nf ≤ j < k → marked d j = true) → marked d k = false → ∃ p',
  cs1550_mkdir (dir_path nm) (mkfs (Some d) p nf os lb)
  = Ok (0, mkfs (Some (mkdir_image d A nm k)) p' k os lb).
Proof.
  intros Hnew Hlen Hk Hm Hu. pose proof (inv_nf _ _ _ _ Hinv).
  destruct (inv_root _ _ _ _ Hinv) as (Hb & _).
  pose proof Hnm as (_ & _ & Hl8 & _).
  assert (length (nm ++ [0]) = S (length nm)) as Hnl by (rewrite length_app; simpl; lia).
  mkdir_prefix. rewrite (dir_idx_absent nm Hnew).
  rewrite bool_decide_eq_false_2 by lia.
  rewrite bool_decide_eq_false_2.
  2:{ change MAX_DIRS_IN_ROOT with 29. rewrite u64_small; lia. }
  rewrite store_ok by lia. lok. unfold of_option. lok.
  assert (length (splice (rd d 0) (Z.to_nat 0) (le_bytes 4 (Z.of_nat (length A) + 1))) = 512%nat)
    as L1 by (rewrite length_splice; rewrite ?length_le_bytes; lia).
  unfold strcpy. rewrite store_bytes_ok.
  2:{ layout; lia. }
  2:{ rewrite L1. layout; lia. }
  lok.
  edestruct (find_next_free_run n d) as [p1 Hf]; [exact Him| | |exact Hm|exact Hu|]; [lia|lia|].
  erewrite bind_ok by exact Hf. cbv beta. rewrite bool_decide_eq_false_2 by lia.
  rewrite store_ok.
  2:{ layout; lia. }
  2:{ rewrite length_splice; rewrite ?L1; layout; lia. }
  lok. edestruct (set_bitmap_run n d p1 k (os + 1) (lb + 1) k) as [p2 Hs]; [exact Him|lia|].
  erewrite bind_ok by exact Hs. cbv beta. unfold save_root. rewrite bind_assoc.
  assert (root_repr (root_add (rd d 0) (length A) nm k) (map dirent_of A ++ [mkdirent nm k])) as Hr.
  { rewrite <- (length_map dirent_of A). apply root_add_repr; [apply (inv_root _ _ _ _ Hinv)|rewrite length_map; lia|done|lia]. }
  erewrite bind_ok.
  2:{ apply (write_block_run n); [by apply image_set_mark; [|lia]|lia|]. apply Hr. }
  cbv beta. erewrite bind_ok by apply run_ret. mok. mok. eexists. rewrite run_ret.
  unfold mkdir_image. do 3 f_equal; lia.
Qed.
End mkdir.

(** ** Replacing one directory of a represented state *)
Lemma NoDup_replace_mid {X} (l1 m m' l2 : list X) :
  NoDup (l1 ++ m ++ l2) → NoDup m' →
  (∀ x, x ∈ m' → x ∈ m ∨ ((x ∉ l1) ∧ (x ∉ l2))) → NoDup (l1 ++ m' ++ l2).
Proof. rewrite !NoDup_app. intros. set_solver. Qed.

Lemma used_mid A1 D A2 :
  used (A1 ++ D :: A2) = (0 :: concat (map dir_blocks A1)) ++ dir_blocks D ++ concat (map dir_blocks A2).
Proof. unfold used. rewrite map_app, concat_app. done. Qed.

Lemma dir_blocks_disjoint n d nf A1 D A2 D0 x :
  fs_inv n d nf (A1 ++ D :: A2) → D0 ∈ A1 ++ A2 → x ∈ dir_blocks D0 → x ∉ dir_blocks D.
Proof.
  intros Hinv HD Hx. pose proof (inv_nodup _ _ _ _ Hinv) as Hn. rewrite used_mid in Hn.
  apply NoDup_app in Hn as (_ & H1 & Hn). apply NoDup_app in Hn as (_ & H2 & _).
  apply elem_of_app in HD as [HD|HD]; pose proof (elem_of_concat_map _ _ _ _ HD Hx).
  - intros Hd. apply (H1 x); [by right|]. apply elem_of_app; auto.
  - intros Hd. by apply (H2 x).
Qed.

Lemma elem_of_mid {X} (x y : X) l1 l2 : x ∈ l1 ++ y :: l2 ↔ x = y ∨ x ∈ l1 ++ l2.
Proof. rewrite !elem_of_app, elem_of_cons. tauto. Qed.

Section replace_dir.
Context (n : Z) (d : list Z) (nf : Z) (A1 A2 : list adir) (D D' : adir).
Context (Hinv : fs_inv n d nf (A1 ++ D :: A2)).
Context (d' : list Z) (W K : list Z) (Hupd : updated n d d' W K).
Context (HK : ∀ k, k ∈ K → 1 ≤ k < n ∧ marked d k = false).
Context (HW : ∀ i, i ∈ W → i ∈ dir_blocks D ∨ i ∈ K).
Context (Hname : ad_name D' = ad_name D) (Hblock : ad_block D' = ad_block D).
Context (Hblocks : ∀ i, i ∈ dir_blocks D' → i ∈ dir_blocks D ∨ i ∈ K).
Context (Hnodup : NoDup (dir_blocks D')).
Context (Hdir : dir_repr (rd d' (ad_block D)) (map fileent_of (ad_files D'))).
Context (Hfiles : ∀ f, f ∈ ad_files D' → file_repr d' f).
Context (Hfn : NoDup (map (λ f, (af_name f, af_ext f)) (ad_files D'))).

Lemma fresh_not_used k : k ∈ K → k ∉ used (A1 ++ D :: A2).
Proof. intros Hk. destruct (HK k Hk). apply (free_not_used Hinv); [lia|done]. Qed.

Lemma own_used i : i ∈ dir_blocks D → i ∈ used (A1 ++ D :: A2).
Proof. intros. rewrite used_mid, !elem_of_app. auto. Qed.

Lemma other_untouched D0 x : D0 ∈ A1 ++ A2 → x ∈ dir_blocks D0 → rd d' x = rd d x.
Proof.
  intros HD Hx. assert (x ∈ used (A1 ++ D :: A2)) as Hu.
  { right. eapply elem_of_concat_map; [|done]. apply elem_of_mid. by right. }
  apply (upd_rd _ _ _ _ _ Hupd); [by apply (used_range Hinv)|].
  intros [HxD|HxK]%HW; [by eapply dir_blocks_disjoint|by apply (fresh_not_used x)].
Qed.

Lemma root_untouched : rd d' 0 = rd d 0.
Proof.
  pose proof (n_range Hinv). apply (upd_rd _ _ _ _ _ Hupd); [lia|]. intros [H0|H0]%HW.
  - apply (data_not_root Hinv 0); [|done]. eapply elem_of_concat_map; [|done].
    apply elem_of_mid. by left.
  - destruct (HK _ H0). lia.
Qed.

Lemma replace_dir_inv nf' : 1 ≤ nf' → fs_inv n d' nf' (A1 ++ D' :: A2).
Proof.
  intros Hnf. split.
  - apply (upd_image _ _ _ _ _ Hupd).
  - done.
  - rewrite root_untouched. pose proof (inv_root _ _ _ _ Hinv) as Hr.
    rewrite !map_app in *. simpl in *.
    replace (dirent_of D') with (dirent_of D); [done|]. unfold dirent_of. by rewrite Hname, Hblock.
  - intros D0 [->|HD]%elem_of_mid; [by rewrite Hblock|].
    rewrite (other_untouched D0) by (done || by left).
    apply (inv_dirs _ _ _ _ Hinv), elem_of_mid. by right.
  - intros D0 f [->|HD]%elem_of_mid Hf; [by apply Hfiles|].
    apply (file_repr_frame d).
    + intros i Hi. apply (other_untouched D0); [done|]. right. by eapply elem_of_concat_map.
    + eapply (inv_files _ _ _ _ Hinv); [|done]. apply elem_of_mid. by right.
  - rewrite used_mid. eapply NoDup_replace_mid; [|done|].
    + rewrite <- used_mid. apply (inv_nodup _ _ _ _ Hinv).
    + intros i [Hi|Hi]%Hblocks; [by left|right]. pose proof (fresh_not_used i Hi) as Hu.
      rewrite used_mid, !elem_of_app in Hu. tauto.
  - intros i. rewrite used_mid, !elem_of_app. intros Hi.
    assert (i ∈ used (A1 ++ D :: A2) ∨ i ∈ K) as [Hu|Hk].
    { rewrite used_mid, !elem_of_app. destruct Hi as [Hi|[Hi|Hi]]; [auto| |auto].
      apply Hblocks in Hi as [Hi|Hi]; auto. }
    + destruct (inv_used _ _ _ _ Hinv i Hu) as [? Hm]. split; [done|].
      rewrite (upd_marked _ _ _ _ _ Hupd) by done. destruct Hm as [?|Hm]; [auto|]. rewrite Hm; auto.
    + destruct (HK i Hk). split; [lia|right]. rewrite (upd_marked _ _ _ _ _ Hupd) by lia.
      rewrite (bool_decide_eq_true_2 (i ∈ K)) by done. by rewrite orb_true_r.
  - intros i Hi. rewrite (upd_marked _ _ _ _ _ Hupd) by lia.
    intros [Hm Hk]%orb_false_elim. apply bool_decide_eq_false in Hk.
    rewrite (upd_rd _ _ _ _ _ Hupd); [by apply (inv_free _ _ _ _ Hinv)|lia|].
    intros [HiD|?]%HW; [|done]. by apply (free_not_used Hinv i); [lia| |apply own_used].
  - pose proof (inv_names _ _ _ _ Hinv) as Hn. rewrite !map_app in *. simpl in *. by rewrite Hname.
  - intros D0 [->|HD]%elem_of_mid; [done|]. apply (inv_fnames _ _ _ _ Hinv), elem_of_mid. by right.
Qed.
End replace_dir.
