(* ===== verification/Cs1550RefineFile.v ===== *)
(** * File creation and attributes: mknod, getattr, readdir

    These handlers against the abstract file system of [Cs1550Spec]. *)
From stdpp Require Import base numbers list gmap sets.
From S2P Require Import Prelude Bytes Cs1550Disk Cs1550DiskFacts Cs1550Fs Cs1550Path Cs1550Spec.
From S2P Require Import Cs1550Refine.
#[local] Open Scope Z_scope.

(** Index of a file in a directory, as the lookup loop computes it. *)
Definition file_idx (D : adir) (nm ex : list Z) : Z :=
  find_idx (λ e, fe_name e = nm ∧ fe_ext e = ex) (map fileent_of (ad_files D)).

Section dir_lookups.
Context {n : Z} {d : list Z} {nf : Z} {A : list adir} (Hinv : fs_inv n d nf A).
Context {D : adir} (HD : D ∈ A).

Lemma dir_block_range : 0 ≤ ad_block D < n.
Proof. apply (used_range Hinv), used_dir, HD. Qed.

Lemma dir_count : load_int (rd d (ad_block D)) 0 = Ok (Z.of_nat (length (ad_files D))).
Proof. destruct (inv_dirs _ _ _ _ Hinv D HD) as (_ & _ & H & _). by rewrite H, length_map. Qed.

Lemma dir_lookup nm ex : fname_ok nm → fext_ok ex →
  file_index_of (rd d (ad_block D)) (Some nm) (Some ex) (Z.of_nat (length (ad_files D)))
  = Ok (file_idx D nm ex).
Proof.
  intros (_ & ? & _) (_ & ? & _). rewrite <- (length_map fileent_of).
  by apply file_index_repr; [apply (inv_dirs _ _ _ _ Hinv)| |].
Qed.

Lemma file_idx_absent nm ex :
  (∀ f, f ∈ ad_files D → (af_name f, af_ext f) ≠ (nm, ex)) →
  file_idx D nm ex = Z.of_nat (length (ad_files D)).
Proof.
  intros H. unfold file_idx. rewrite find_idx_absent; [by rewrite length_map|].
  intros e (f & -> & Hf)%list_elem_of_fmap. simpl. intros [<- <-]. by apply (H f).
Qed.

Lemma file_idx_present f : f ∈ ad_files D →
  ∃ j, file_idx D (af_name f) (af_ext f) = Z.of_nat j ∧ ad_files D !! j = Some f.
Proof.
  intros Hf.
  destruct (find_idx_present (λ e, fe_name e = af_name f ∧ fe_ext e = af_ext f)
    (map fileent_of (ad_files D))) as (j & e & Hj & Hl & He).
  { exists (fileent_of f). split; [by apply list_elem_of_fmap_2|done]. }
  apply list_lookup_fmap_Some in Hl as (f' & -> & Hf'). simpl in He. exists j. split; [done|].
  rewrite Hf'. f_equal. apply list_elem_of_lookup in Hf as [j' Hj'].
  assert (j = j') as ->; [|congruence].
  eapply NoDup_lookup; [apply (inv_fnames _ _ _ _ Hinv D HD)| |];
    rewrite list_lookup_fmap, ?Hf', ?Hj'; simpl; f_equal; by destruct He as [-> ->].
Qed.

Lemma file_fields j f : ad_files D !! j = Some f →
  load 8 (rd d (ad_block D)) (fsize_off (Z.of_nat j)) = Ok (Z.of_nat (length (af_data f))) ∧
  load_long (rd d (ad_block D)) (fstart_off (Z.of_nat j)) = Ok (default 0 (head (af_blocks f))) ∧
  str_at (rd d (ad_block D)) (fname_off (Z.of_nat j)) (af_name f) ∧
  str_at (rd d (ad_block D)) (fext_off (Z.of_nat j)) (af_ext f) ∧
  fname_ok (af_name f) ∧ fext_ok (af_ext f).
Proof.
  intros Hj. destruct (inv_dirs _ _ _ _ Hinv D HD) as (_ & _ & _ & _ & He).
  destruct (He j (fileent_of f)) as (? & ? & ? & ? & ? & ?); [|done].
  by rewrite list_lookup_fmap, Hj.
Qed.

(** A file on a represented disk is shorter than the disk. *)
Lemma file_start_range f : f ∈ ad_files D →
  ∃ b bl, af_blocks f = b :: bl ∧ 0 ≤ b < n.
Proof.
  intros Hf. destruct (inv_files _ _ _ _ Hinv D f HD Hf) as (Hc & _).
  destruct (af_blocks f) as [|b bl] eqn:E; [done|]. exists b, bl. split; [done|].
  apply (used_range Hinv). eapply used_file; [done|done|]. rewrite E. by left.
Qed.

Lemma blocks_nodup f : f ∈ ad_files D → NoDup (af_blocks f).
Proof.
  intros Hf. apply list_elem_of_split in HD as (A1 & A2 & E).
  pose proof (inv_nodup _ _ _ _ Hinv) as Hn. rewrite E, used_mid in Hn.
  apply NoDup_app in Hn as (_ & _ & Hn). apply NoDup_app in Hn as (Hn & _ & _).
  apply NoDup_cons in Hn as [_ Hn]. apply list_elem_of_split in Hf as (F1 & F2 & Ef).
  rewrite Ef, map_app, concat_app in Hn. simpl in Hn.
  apply NoDup_app in Hn as (_ & _ & Hn). by apply NoDup_app in Hn as (? & _ & _).
Qed.

Lemma blocks_bound f : f ∈ ad_files D → Z.of_nat (length (af_blocks f)) ≤ n.
Proof.
  intros Hf. pose proof (n_range Hinv).
  assert (length (af_blocks f) ≤ length (seqZ 0 n))%nat as Hl.
  { apply submseteq_length, NoDup_submseteq; [by apply blocks_nodup|].
    intros i Hi. apply elem_of_seqZ. rewrite Z.add_0_l. apply (used_range Hinv).
    by eapply used_file. }
  rewrite length_seqZ in Hl. lia.
Qed.

Lemma file_size_bound f : f ∈ ad_files D → Z.of_nat (length (af_data f)) ≤ 504 * n.
Proof.
  intros Hf. destruct (inv_files _ _ _ _ Hinv D f HD Hf) as (_ & Hl & _).
  pose proof (blocks_bound f Hf). lia.
Qed.
End dir_lookups.

(** ** mknod *)
Definition mknod_image (d : list Z) (D : adir) (nm ex : list Z) (k : Z) : list Z :=
  wr (set_mark d k) (ad_block D) (dir_add (rd d (ad_block D)) (length (ad_files D)) nm ex k).
Definition with_new_file (D : adir) (nm ex : list Z) (k : Z) : adir :=
  mkadir (ad_name D) (ad_block D) (ad_files D ++ [mkafile nm ex [] [k]]).

Lemma zero_block_chain d k : rd d k = zero_block → chain d [k].
Proof. intros H. simpl. by rewrite H. Qed.

Lemma mknod_inv n d nf A1 D A2 nm ex k :
  fs_inv n d nf (A1 ++ D :: A2) → fname_ok nm → fext_ok ex → (length (ad_files D) < 17)%nat →
  (∀ f, f ∈ ad_files D → (af_name f, af_ext f) ≠ (nm, ex)) → 1 ≤ k < n → marked d k = false →
  fs_inv n (mknod_image d D nm ex k) k (A1 ++ with_new_file D nm ex k :: A2).
Proof.
  intros Hinv Hnm Hex Hlen Hnew Hk Hfree.
  assert (D ∈ A1 ++ D :: A2) as HD by (apply elem_of_mid; auto).
  pose proof (inv_image _ _ _ _ Hinv) as Him. pose proof (n_range Hinv).
  pose proof (dir_block_range Hinv HD) as Hb. pose proof (inv_dirs _ _ _ _ Hinv D HD) as Hdr.
  set (b := dir_add (rd d (ad_block D)) (length (ad_files D)) nm ex k).
  assert (dir_repr b (map fileent_of (ad_files (with_new_file D nm ex k)))) as Hb'.
  { simpl. rewrite map_app. unfold b. rewrite <- (length_map fileent_of (ad_files D)).
    apply dir_add_repr; [done|rewrite length_map; lia|done|done|lia]. }
  assert (image_ok n (set_mark d k)) as Him' by (apply image_set_mark; [done|lia]).
  assert (updated n d (mknod_image d D nm ex k) ([] ++ [ad_block D]) ([k] ++ [])) as Hupd.
  { eapply updated_trans; [apply updated_mark; [done|lia]|].
    apply updated_wr; [done|lia|apply Hb'|apply Hb']. }
  simpl in Hupd.
  assert (k ∉ dir_blocks D) as HkD.
  { intros Hkd. apply (free_not_used Hinv k); [lia|done|].
    right. eapply elem_of_concat_map; done. }
  eapply (replace_dir_inv n d nf A1 A2 D); [done|exact Hupd| | |done|done| | | | | |lia].
  - intros k' ->%list_elem_of_singleton. split; [lia|done].
  - intros i ->%list_elem_of_singleton. left. by left.
  - intros i. unfold dir_blocks, with_new_file. simpl. rewrite map_app, concat_app. simpl. set_solver.
  - unfold dir_blocks, with_new_file. simpl. rewrite map_app, concat_app. simpl.
    rewrite app_comm_cons. change (ad_block D :: concat (map af_blocks (ad_files D))) with (dir_blocks D).
    apply NoDup_app. split_and!; [|set_solver|apply NoDup_singleton].
    pose proof (inv_nodup _ _ _ _ Hinv) as Hn. rewrite used_mid in Hn.
    apply NoDup_app in Hn as (_ & _ & Hn). by apply NoDup_app in Hn as (? & _ & _).
  - unfold mknod_image. rewrite (rd_wr n); [|done|lia|lia|apply Hb'].
    by rewrite bool_decide_eq_true_2.
  - simpl. intros f [Hf|Hf%list_elem_of_singleton]%elem_of_app.
    + apply (file_repr_frame d); [|by eapply (inv_files _ _ _ _ Hinv)].
      intros i Hi. apply (upd_rd _ _ _ _ _ Hupd); [apply (used_range Hinv); by eapply used_file|].
      intros E%list_elem_of_singleton. pose proof (inv_nodup _ _ _ _ Hinv) as Hn.
      rewrite used_mid in Hn. apply NoDup_app in Hn as (_ & _ & Hn).
      apply NoDup_app in Hn as (Hn & _ & _). apply NoDup_cons in Hn as [Hn _]. apply Hn.
      rewrite <- E. by eapply elem_of_concat_map.
    + subst f. split_and!; [|simpl; lia|done]. simpl af_blocks. apply zero_block_chain.
      rewrite (upd_rd _ _ _ _ _ Hupd); [by apply (inv_free _ _ _ _ Hinv)|lia|].
      intros E%list_elem_of_singleton. apply HkD. rewrite E. by left.
  - simpl. rewrite map_app. apply NoDup_app.
    split_and!; [by apply (inv_fnames _ _ _ _ Hinv)| |apply NoDup_singleton].
    intros x (f & -> & Hf)%list_elem_of_fmap. simpl. intros E%list_elem_of_singleton. by apply (Hnew f).
Qed.

(** The prefix every file handler shares once the path is parsed. *)
Lemma dir_split (A : list adir) D : D ∈ A → ∃ A1 A2, A = A1 ++ D :: A2.
Proof. intros H. apply list_elem_of_split in H as (A1 & A2 & ->). eauto. Qed.

Lemma fname_short nm : fname_ok nm → Z.of_nat (length nm) ≤ 8.
Proof. intros (_ & _ & ? & _). lia. Qed.
Lemma fext_short ex : fext_ok ex → Z.of_nat (length ex) ≤ 3.
Proof. intros (_ & _ & ? & _). lia. Qed.
Lemma dname_short nm : dname_ok nm → Z.of_nat (length nm) ≤ 8.
Proof. intros (_ & _ & ? & _). lia. Qed.

Ltac setup_inv Hinv :=
  pose proof (inv_image _ _ _ _ Hinv) as Him; pose proof (n_range Hinv) as Hn.

(** Reads the root block and finds the directory [D], in the middle of a
    handler; leaves the index [j] with [Hj : A !! j = Some D]. *)
Ltac find_the_dir Hinv HD j Hj :=
  let Hi := fresh in let Hlt := fresh in
  destruct (dir_idx_present Hinv _ HD) as (j & Hi & Hj);
  pose proof (lookup_lt_Some _ _ _ Hj) as Hlt;
  mok; unfold open_root; mok; rewrite (root_count Hinv); lok;
  rewrite (root_lookup Hinv) by done; lok; rewrite Hi;
  rewrite (bool_decide_eq_false_2 (Z.of_nat j = _)) by lia;
  rewrite (root_start Hinv j _ Hj); lok; unfold open_dir;
  pose proof (dir_block_range Hinv HD); mok.

Section mknod.
Context (n : Z) (d : list Z) (nf : Z) (A : list adir) (D : adir) (nm ex : list Z).
Context (Hinv : fs_inv n d nf A) (HD : D ∈ A) (HDn : dname_ok (ad_name D)).
Context (Hnm : fname_ok nm) (Hex : fext_ok ex).
Context (p os lb : Z).

Ltac mknod_prefix j Hj :=
  setup_inv Hinv; pose proof (fname_short _ Hnm); pose proof (fext_short _ Hex);
  unfold cs1550_mknod; rewrite scan_file_path by done; lok;
  cbn [count directory filename extension];
  rewrite (bool_decide_eq_false_2 (3 < 3)) by lia; rewrite !nm_strlen; lok;
  rewrite (bool_decide_eq_false_2 (Z.of_nat (length nm) > _)) by (unfold MAX_FILENAME; lia);
  rewrite (bool_decide_eq_false_2 (Z.of_nat (length ex) > _)) by (unfold MAX_EXTENSION; lia);
  cbn [orb]; find_the_dir Hinv HD j Hj; mok;
  rewrite (dir_count Hinv HD); lok; rewrite (dir_lookup Hinv HD) by done; lok.

Lemma mknod_exists f : f ∈ ad_files D → af_name f = nm → af_ext f = ex → ∃ p',
  cs1550_mknod (file_path (ad_name D) nm ex) (mkfs (Some d) p nf os lb)
  = Ok (- EEXIST, mkfs (Some d) p' nf os lb).
Proof.
  intros Hf E1 E2. destruct (file_idx_present Hinv HD f Hf) as (i & Hi & Hl).
  rewrite E1, E2 in Hi. apply lookup_lt_Some in Hl. mknod_prefix j Hj.
  rewrite Hi, bool_decide_eq_true_2 by lia. mok. mok. eexists. rewrite run_ret. do 3 f_equal; lia.
Qed.

Lemma mknod_new k :
  (∀ f, f ∈ ad_files D → (af_name f, af_ext f) ≠ (nm, ex)) → (length (ad_files D) < 17)%nat →
  nf ≤ k < n → (∀ j, nf ≤ j < k → marked d j = true) → marked d k = false → ∃ p',
  cs1550_mknod (file_path (ad_name D) nm ex) (mkfs (Some d) p nf os lb)
  = Ok (0, mkfs (Some (mknod_image d D nm ex k)) p' k os (lb + 1)).
Proof.
  intros Hnew Hlen Hk Hm Hu. pose proof (inv_nf _ _ _ _ Hinv).
  pose proof (inv_dirs _ _ _ _ Hinv D HD) as Hdr.
  assert (dir_repr (dir_add (rd d (ad_block D)) (length (ad_files D)) nm ex k)
    (map fileent_of (ad_files D) ++ [mkfileent nm ex 0 k])) as Hr.
  { rewrite <- (length_map fileent_of (ad_files D)).
    apply dir_add_repr; [done|rewrite length_map; lia|done|done|]. pose proof (n_range Hinv). lia. }
  destruct Hdr as (Hb & _).
  assert (length (nm ++ [0]) = S (length nm)) as Hnl by (rewrite length_app; simpl; lia).
  assert (length (ex ++ [0]) = S (length ex)) as Hel by (rewrite length_app; simpl; lia).
  mknod_prefix j Hj. rewrite (file_idx_absent nm ex Hnew).
  rewrite bool_decide_eq_false_2 by lia.
  rewrite bool_decide_eq_false_2 by (change MAX_FILES_IN_DIR with 17; rewrite u64_small; lia).
  unfold of_option. lok. rewrite store_ok by lia. lok. unfold strcpy.
  rewrite store_bytes_ok by (rewrite ?length_splice; rewrite ?length_le_bytes; layout; lia). lok.
  assert (length (splice (rd d (ad_block D)) (Z.to_nat 0)
    (le_bytes 4 (Z.of_nat (length (ad_files D)) + 1))) = 512%nat) as L1
    by (rewrite length_splice; rewrite ?length_le_bytes; lia).
  rewrite store_bytes_ok.
  2:{ layout; lia. }
  2:{ rewrite length_splice; rewrite ?L1; layout; lia. }
  lok.
  match goal with |- context [store 8 (splice ?b ?o (ex ++ [0])) _ 0] => set (b2 := b) end.
  assert (length b2 = 512%nat) as L2 by (unfold b2; rewrite length_splice; rewrite ?L1; layout; lia).
  match goal with |- context [store 8 ?b _ 0] => set (b3 := b) end.
  assert (length b3 = 512%nat) as L3 by (unfold b3; rewrite length_splice; rewrite ?L2; layout; lia).
  rewrite store_ok by (layout; lia). lok.
  edestruct (find_next_free_run n d) as [p1 Hf]; [exact Him| | |exact Hm|exact Hu|]; [lia|lia|].
  erewrite bind_ok by exact Hf. cbv beta. rewrite bool_decide_eq_false_2 by lia.
  rewrite store_ok.
  2:{ layout; lia. }
  2:{ rewrite length_splice; rewrite ?length_le_bytes; layout; lia. }
  lok. edestruct (set_bitmap_run n d p1 k (os + 1) (lb + 1 + 1 - 1) k) as [p2 Hs]; [exact Him|lia|].
  erewrite bind_ok by exact Hs. cbv beta. unfold save_dir. rewrite bind_assoc.
  erewrite bind_ok.
  2:{ apply (write_block_run n); [by apply image_set_mark; [|lia]|lia|]. apply Hr. }
  cbv beta. erewrite bind_ok by apply run_ret. mok. eexists. rewrite run_ret.
  unfold mknod_image. do 3 f_equal; lia.
Qed.
End mknod.

(** ** getattr *)
Section getattr.
Context (n : Z) (d : list Z) (nf : Z) (A : list adir) (Hinv : fs_inv n d nf A).
Context (p os lb : Z).

Lemma path_not_root nm rest : dname_ok nm → is_root (SLASH :: nm ++ rest) = false.
Proof.
  intros (? & _). unfold is_root. apply bool_decide_eq_false_2. by destruct nm.
Qed.
Lemma dir_path_not_root nm : dname_ok nm → is_root (dir_path nm) = false.
Proof. intros H. unfold dir_path. rewrite <- (app_nil_r nm). by apply path_not_root. Qed.

Lemma getattr_root : ∃ p',
  cs1550_getattr [SLASH] (mkfs (Some d) p nf os lb)
  = Ok ((0, mkstat 16877 2 0), mkfs (Some d) p' nf os lb).
Proof. eexists. unfold cs1550_getattr. mok. change (is_root [SLASH]) with true.
  cbv iota. mok. rewrite run_ret. do 3 f_equal; lia. Qed.

Lemma getattr_dir D : D ∈ A → dname_ok (ad_name D) → ∃ p',
  cs1550_getattr (dir_path (ad_name D)) (mkfs (Some d) p nf os lb)
  = Ok ((0, mkstat 16877 2 0), mkfs (Some d) p' nf os lb).
Proof.
  intros HD Hnm. setup_inv Hinv. destruct (dir_idx_present Hinv D HD) as (j & Hj & Hl).
  apply lookup_lt_Some in Hl.
  unfold cs1550_getattr. mok. rewrite dir_path_not_root, scan_dir_path by done. lok.
  cbn [count directory]. rewrite (bool_decide_eq_false_2 (1 < 1)) by lia.
  unfold open_root. mok. rewrite (root_count Hinv). lok.
  rewrite (root_lookup Hinv) by done. lok. rewrite Hj.
  rewrite (bool_decide_eq_false_2 (Z.of_nat j = _)) by lia.
  rewrite (bool_decide_eq_true_2 (1 = 1)) by done. mok. mok. eexists.
  rewrite run_ret. do 3 f_equal; lia.
Qed.

Lemma getattr_file D f : D ∈ A → dname_ok (ad_name D) → f ∈ ad_files D → ∃ p',
  cs1550_getattr (file_path (ad_name D) (af_name f) (af_ext f)) (mkfs (Some d) p nf os lb)
  = Ok ((0, mkstat 33206 1 (Z.of_nat (length (af_data f)))), mkfs (Some d) p' nf os lb).
Proof.
  intros HD Hnm Hf. setup_inv Hinv.
  destruct (file_idx_present Hinv HD f Hf) as (i & Hi & Hli).
  destruct (file_fields Hinv HD i f Hli) as (Hsz & _ & _ & _ & Hfn & Hfe).
  pose proof (lookup_lt_Some _ _ _ Hli).
  unfold cs1550_getattr. mok. unfold file_path at 1.
  rewrite path_not_root, scan_file_path by done. lok.
  cbn [count directory filename extension]. rewrite (bool_decide_eq_false_2 (3 < 1)) by lia.
  destruct (dir_idx_present Hinv _ HD) as (j & Hj & Hl). pose proof (lookup_lt_Some _ _ _ Hl).
  unfold open_root. mok. rewrite (root_count Hinv). lok. rewrite (root_lookup Hinv) by done. lok.
  rewrite Hj. rewrite (bool_decide_eq_false_2 (Z.of_nat j = _)) by lia.
  rewrite (bool_decide_eq_false_2 (3 = 1)) by lia. rewrite (root_start Hinv j _ Hl). lok.
  unfold open_dir. pose proof (dir_block_range Hinv HD). mok.
  rewrite (dir_count Hinv HD). lok. rewrite (dir_lookup Hinv HD) by done. lok. rewrite Hi.
  rewrite (bool_decide_eq_false_2 (Z.of_nat i = _)) by lia. rewrite Hsz. lok.
  do 3 mok. eexists. rewrite run_ret.
  pose proof (file_size_bound Hinv HD f Hf).
  rewrite s64_small; [do 3 f_equal; lia|lia].
Qed.
End getattr.

(** ** readdir *)
Section readdir.
Context (n : Z) (d : list Z) (nf : Z) (A : list adir) (Hinv : fs_inv n d nf A).
Context (p os lb : Z).
Definition dot_entries : list (list Z) := [[DOT]; [DOT; DOT]].
Definition display_name (f : afile) : list Z := af_name f ++ [DOT] ++ af_ext f.

Lemma readdir_root : ∃ p',
  cs1550_readdir [SLASH] (mkfs (Some d) p nf os lb)
  = Ok ((0, dot_entries ++ map ad_name A), mkfs (Some d) p' nf os lb).
Proof.
  setup_inv Hinv. unfold cs1550_readdir. mok. unfold open_root. mok.
  change (is_root [SLASH]) with true. cbv iota zeta. rewrite (root_count Hinv). lok.
  unfold fill_dirs. rewrite Nat2Z.id.
  rewrite (for_collect_map ad_name A). 2:{
    intros j D Hj. destruct (inv_root _ _ _ _ Hinv) as (_ & _ & _ & _ & He).
    destruct (He j (dirent_of D)) as (Hs & _ & _ & Hc & _); [by rewrite list_lookup_fmap, Hj|].
    by apply cstring_str. }
  lok. mok. mok. eexists. rewrite run_ret. do 3 f_equal; lia.
Qed.

(** A directory whose names all fit the 12-byte scratch array. *)
Lemma readdir_dir D : D ∈ A → dname_ok (ad_name D) →
  (∀ f, f ∈ ad_files D → (length (af_name f) + length (af_ext f) ≤ 10)%nat) → ∃ p',
  cs1550_readdir (dir_path (ad_name D)) (mkfs (Some d) p nf os lb)
  = Ok ((0, dot_entries ++ map display_name (ad_files D)), mkfs (Some d) p' nf os lb).
Proof.
  intros HD Hnm Hshort. setup_inv Hinv. unfold cs1550_readdir.
  destruct (dir_idx_present Hinv D HD) as (j & Hj & Hl). pose proof (lookup_lt_Some _ _ _ Hl).
  mok. unfold open_root. mok. rewrite dir_path_not_root, scan_dir_path by done. lok.
  cbn [count directory]. rewrite (bool_decide_eq_false_2 (1 > 1)) by lia.
  rewrite (root_count Hinv). lok. rewrite (root_lookup Hinv) by done. lok. rewrite Hj.
  rewrite (bool_decide_eq_false_2 (Z.of_nat j = _)) by lia. rewrite (root_start Hinv j _ Hl). lok.
  unfold open_dir. pose proof (dir_block_range Hinv HD). mok.
  rewrite (dir_count Hinv HD). lok. unfold fill_files. rewrite Nat2Z.id.
  rewrite (for_collect_map display_name (ad_files D)). 2:{
    intros i f Hi. pose proof (list_elem_of_lookup_2 _ _ _ Hi) as Hf.
    destruct (file_fields Hinv HD i f Hi) as (_ & _ & Hs1 & Hs2 & (_ & Hc1 & _) & (_ & Hc2 & _)).
    unfold file_display_name. rewrite (cstring_str _ _ _ Hs1) by done. simpl.
    rewrite (cstring_str _ _ _ Hs2) by done. simpl. pose proof (Hshort f Hf).
    rewrite bool_decide_eq_true_2; [done|]. rewrite length_app. simpl.
    unfold MAX_FILENAME, MAX_EXTENSION. lia. }
  lok. do 3 mok. eexists. rewrite run_ret. do 3 f_equal; lia.
Qed.

(** A full 8.3 name needs 13 bytes and does not fit the array. *)
Lemma readdir_overflow D f rest : D ∈ A → dname_ok (ad_name D) →
  ad_files D = f :: rest → length (af_name f) = 8%nat → length (af_ext f) = 3%nat →
  cs1550_readdir (dir_path (ad_name D)) (mkfs (Some d) p nf os lb) = Fault Undefined.
Proof.
  intros HD Hnm Hfs H8 H3. setup_inv Hinv. unfold cs1550_readdir.
  destruct (dir_idx_present Hinv D HD) as (j & Hj & Hl). pose proof (lookup_lt_Some _ _ _ Hl).
  mok. unfold open_root. mok. rewrite dir_path_not_root, scan_dir_path by done. lok.
  cbn [count directory]. rewrite (bool_decide_eq_false_2 (1 > 1)) by lia.
  rewrite (root_count Hinv). lok. rewrite (root_lookup Hinv) by done. lok. rewrite Hj.
  rewrite (bool_decide_eq_false_2 (Z.of_nat j = _)) by lia. rewrite (root_start Hinv j _ Hl). lok.
  unfold open_dir. pose proof (dir_block_range Hinv HD). mok.
  rewrite (dir_count Hinv HD). lok. unfold fill_files. rewrite Nat2Z.id.
  rewrite Hfs. cbn [for_collect length]. rewrite bool_decide_eq_true_2 by lia.
  destruct (file_fields Hinv HD 0 f) as (_ & _ & Hs1 & Hs2 & (_ & Hc1 & _) & (_ & Hc2 & _));
    [by rewrite Hfs|].
  change (Z.of_nat 0) with 0 in *.
  unfold file_display_name. rewrite (cstring_str _ _ _ Hs1) by done. simpl.
  rewrite (cstring_str _ _ _ Hs2) by done. simpl.
  rewrite (bool_decide_eq_false_2 (_ ≤ MAX_FILENAME + MAX_EXTENSION + 1)); [reflexivity|].
  rewrite length_app. simpl. unfold MAX_FILENAME, MAX_EXTENSION. lia.
Qed.
End readdir.
