(* ===== verification/Cs1550RefineData.v ===== *)
(** * File contents: read and write

    The block-chain walks of [cs1550_read] and [cs1550_write] against the
    contents of abstract files. *)
From stdpp Require Import base numbers list gmap sets.
From S2P Require Import Prelude Bytes Cs1550Disk Cs1550DiskFacts Cs1550Fs Cs1550Path Cs1550Spec.
From S2P Require Import Cs1550Refine Cs1550RefineFile.
#[local] Open Scope Z_scope.

Lemma MAX_DATA_val : MAX_DATA_IN_BLOCK = 504.
Proof. reflexivity. Qed.

(** ** Chains *)
Lemma chain_tail d b c bl : chain d (b :: c :: bl) → block_next (rd d b) = Ok c ∧ chain d (c :: bl).
Proof. done. Qed.

Lemma chain_data_app d bl bl' : chain_data d (bl ++ bl') = chain_data d bl ++ chain_data d bl'.
Proof. unfold chain_data. by rewrite map_app, concat_app. Qed.

Lemma chain_data_cons d b bl : chain_data d (b :: bl) = take 504 (rd d b) ++ chain_data d bl.
Proof. done. Qed.

Section chains.
Context (n : Z) (d : list Z) (Hd : image_ok n d).

Lemma length_chain_data bl :
  Forall (λ i, 0 ≤ i < n) bl → length (chain_data d bl) = (504 * length bl)%nat.
Proof.
  induction 1 as [|i bl Hi _ IH]; [done|]. rewrite chain_data_cons, length_app, IH, length_take.
  rewrite (rd_length n d Hd) by lia. simpl. lia.
Qed.

Context (nf os lb offset : Z).

(** The seek loop of [cs1550_read] stops in the block that holds the offset:
    [adj] is the offset relative to the current block. *)
Lemma read_seek_run bl : ∀ fuel b adj p,
  chain d (b :: bl) → Forall (λ i, 0 < i < n) (b :: bl) →
  0 ≤ adj ≤ 504 * Z.of_nat (length (b :: bl)) → adj ≤ offset < 2^62 →
  adj < 504 * Z.of_nat fuel → ∃ p' pre b' rest,
  b :: bl = pre ++ b' :: rest ∧ chain d (b' :: rest) ∧
  0 ≤ adj - 504 * Z.of_nat (length pre) ≤ 504 ∧
  read_seek fuel DISK_FILE offset (offset - adj + 504) adj (rd d b) (mkfs (Some d) p nf os lb)
  = Ok (Some (rd d b', adj - 504 * Z.of_nat (length pre)), mkfs (Some d) p' nf os lb).
Proof.
  induction bl as [|c bl IH]; intros [|fuel] b adj p Hc Hr Ha Ho Hf; simpl in Ha; try lia.
  - exists p, [], b, []. split_and!; [done|done|simpl; lia|simpl; lia|]. simpl.
    rewrite u64_small, bool_decide_eq_false_2 by lia. rewrite run_ret. do 3 f_equal. f_equal. lia.
  - simpl read_seek. rewrite u64_small by lia. destruct (decide (adj ≤ 504)).
    + exists p, [], b, (c :: bl). split_and!; [done|done|simpl; lia|simpl; lia|].
      rewrite bool_decide_eq_false_2 by lia. rewrite run_ret. do 3 f_equal. f_equal. simpl. lia.
    + rewrite bool_decide_eq_true_2 by lia. destruct (chain_tail _ _ _ _ Hc) as [Hn Hc'].
      inversion Hr as [|? ? Hb Hr']; subst. inversion Hr' as [|? ? Hcr Hr'']; subst.
      rewrite Hn. lok. rewrite (bool_decide_eq_false_2 (c = 0)) by lia.
      mok. erewrite bind_ok by (eapply open_block_run; [exact Hd|lia]). cbv beta.
      rewrite MAX_DATA_val. rewrite !u64_small by lia.
      destruct (IH fuel c (adj - 504) (512 * c + 512)) as (p' & pre & b' & rest & E & Hcb & Hpre & Hrun);
        [done|done|simpl; lia|lia|lia|].
      exists p', (b :: pre), b', rest. split_and!; [simpl; by rewrite E|done|simpl; lia|simpl; lia|].
      replace (offset - adj + 504 + 504) with (offset - (adj - 504) + 504) by lia.
      replace (lb - 1 + 1) with lb by lia. rewrite Hrun. simpl. do 4 f_equal. lia.
Qed.

(** The seek loop of [cs1550_write] is the same walk, with the block number. *)
Lemma write_seek_run bl : ∀ fuel b adj p,
  chain d (b :: bl) → Forall (λ i, 0 < i < n) (b :: bl) →
  0 ≤ adj ≤ 504 * Z.of_nat (length (b :: bl)) → adj ≤ offset < 2^62 →
  adj < 504 * Z.of_nat fuel → ∃ p' pre b' rest,
  b :: bl = pre ++ b' :: rest ∧ chain d (b' :: rest) ∧
  0 ≤ adj - 504 * Z.of_nat (length pre) ≤ 504 ∧
  write_seek fuel DISK_FILE offset (offset - adj + 504) adj b (rd d b) (mkfs (Some d) p nf os lb)
  = Ok ((b', rd d b', adj - 504 * Z.of_nat (length pre)), mkfs (Some d) p' nf os lb).
Proof.
  induction bl as [|c bl IH]; intros [|fuel] b adj p Hc Hr Ha Ho Hf; simpl in Ha; try lia.
  - exists p, [], b, []. split_and!; [done|done|simpl; lia|simpl; lia|]. simpl.
    rewrite u64_small, bool_decide_eq_false_2 by lia. rewrite run_ret. do 2 f_equal. f_equal. lia.
  - simpl write_seek. rewrite u64_small by lia. destruct (decide (adj ≤ 504)).
    + exists p, [], b, (c :: bl). split_and!; [done|done|simpl; lia|simpl; lia|].
      rewrite bool_decide_eq_false_2 by lia. rewrite run_ret. do 2 f_equal. f_equal. simpl. lia.
    + rewrite bool_decide_eq_true_2 by lia. destruct (chain_tail _ _ _ _ Hc) as [Hn Hc'].
      inversion Hr as [|? ? Hb Hr']; subst. inversion Hr' as [|? ? Hcr Hr'']; subst.
      rewrite Hn. lok. rewrite (bool_decide_eq_false_2 (c = 0)) by lia.
      mok. erewrite bind_ok by (eapply open_block_run; [exact Hd|lia]). cbv beta.
      rewrite MAX_DATA_val. rewrite !u64_small by lia.
      destruct (IH fuel c (adj - 504) (512 * c + 512)) as (p' & pre & b' & rest & E & Hcb & Hpre & Hrun);
        [done|done|simpl; lia|lia|lia|].
      exists p', (b :: pre), b', rest. split_and!; [simpl; by rewrite E|done|simpl; lia|simpl; lia|].
      replace (offset - adj + 504 + 504) with (offset - (adj - 504) + 504) by lia.
      replace (lb - 1 + 1) with lb by lia. rewrite Hrun. simpl. do 3 f_equal. lia.
Qed.

Lemma memcpy_out_run cap out b off m :
  0 ≤ b < n → 0 ≤ off → 0 ≤ m → off + m ≤ 512 → Z.of_nat (length out) + m ≤ cap →
  memcpy_out cap out (rd d b) off m
  = Ok (out ++ slice (rd d b) (Z.to_nat off) (Z.to_nat m)).
Proof.
  intros. unfold memcpy_out. rewrite bool_decide_eq_true_2 by lia.
  by rewrite load_bytes_ok by (rewrite ?(rd_length n d Hd); lia).
Qed.

(** The copy loop, from a block boundary on, copies what is left of the file. *)
Lemma read_loop_run fsize cap : 0 ≤ offset → 0 ≤ fsize < 2^62 → ∀ bl fuel b size_read out p,
  chain d (b :: bl) → Forall (λ i, 0 < i < n) (b :: bl) →
  0 ≤ size_read ≤ fsize - offset →
  fsize - offset - size_read ≤ 504 * Z.of_nat (length (b :: bl)) →
  fsize - offset - size_read < 504 * (Z.of_nat fuel - 1) →
  Z.of_nat (length out) + (fsize - offset - size_read) ≤ cap → ∃ p',
  read_loop fuel DISK_FILE cap fsize offset 0 size_read (rd d b) out (mkfs (Some d) p nf os lb)
  = Ok (out ++ take (Z.to_nat (fsize - offset - size_read)) (chain_data d (b :: bl)),
        mkfs (Some d) p' nf os lb).
Proof.
  intros Ho Hfs. induction bl as [|c bl IH]; intros fuel b sr out p Hc Hr Hs Hrem Hfuel Hcap;
    (destruct fuel as [|[|fuel]]; [lia|lia|]);
    pose proof (Forall_inv Hr) as Hb; cbv beta in Hb; cbn [length] in Hrem.
  all: remember (S fuel) as fuel1; cbn [read_loop]; rewrite (u64_small (fsize - offset)) by lia;
    destruct (decide (sr = fsize - offset)) as [->|];
    [rewrite bool_decide_eq_false_2 by lia; exists p; rewrite run_ret;
     replace (fsize - offset - (fsize - offset)) with 0 by lia; simpl take; by rewrite app_nil_r|].
  all: rewrite bool_decide_eq_true_2 by lia; rewrite (u64_small (fsize - offset - sr)) by lia;
    rewrite MAX_DATA_val; destruct (decide (fsize - offset - sr ≤ 504));
    [rewrite bool_decide_eq_false_2 by lia; rewrite memcpy_out_run by lia; lok;
     rewrite u64_small by lia; subst fuel1; cbn [read_loop];
     rewrite (u64_small (fsize - offset)) by lia; rewrite bool_decide_eq_false_2 by lia;
     exists p; rewrite run_ret; do 3 f_equal; rewrite chain_data_cons;
     rewrite take_app_le by (rewrite length_take, (rd_length n d Hd) by lia; lia);
     rewrite take_take; unfold slice; rewrite drop_0; f_equal; lia|].
  - simpl in Hrem. lia.
  - rewrite bool_decide_eq_true_2 by lia. rewrite memcpy_out_run by lia. lok.
    destruct (chain_tail _ _ _ _ Hc) as [Hn Hc']. rewrite Hn. lok.
    pose proof (Forall_inv_tail Hr) as Hr'. pose proof (Forall_inv Hr') as Hcr. simpl in Hcr.
    rewrite (bool_decide_eq_false_2 (c = 0)) by lia. mok.
    erewrite bind_ok by (eapply open_block_run; [exact Hd|lia]). cbv beta.
    rewrite u64_small by lia. replace (lb - 1 + 1) with lb by lia.
    assert (length (slice (rd d b) (Z.to_nat 0) (Z.to_nat 504)) = 504%nat) as Hl504
      by (apply length_slice; rewrite (rd_length n d Hd); lia).
    edestruct (IH fuel1 c (sr + 504) (out ++ slice (rd d b) (Z.to_nat 0) (Z.to_nat 504)))
      as [p' Hrun]; [done|done|lia|cbn [length]; lia|lia|rewrite length_app, Hl504; lia|].
    exists p'. rewrite Hrun. rewrite <- app_assoc. do 4 f_equal.
    rewrite (chain_data_cons _ b).
    change (slice (rd d b) (Z.to_nat 0) (Z.to_nat 504)) with (take 504 (rd d b)) in *.
    rewrite take_app_ge by lia. rewrite Hl504. do 2 f_equal. lia.
Qed.
End chains.

(** ** read *)
Lemma block_fuel_enough z : 0 ≤ z < 2^62 → z < 504 * (Z.of_nat (block_fuel z) - 1).
Proof.
  intros. unfold block_fuel. rewrite u64_small, MAX_DATA_val by lia. dlia.
Qed.

Lemma data_suffix (data X : list Z) (pre : list Z) (k : nat) Y offset adj :
  data = take (length data) X → X = pre ++ Y → length pre = k →
  (offset = k + adj)%nat → (offset ≤ length data)%nat →
  drop offset data = take (length data - offset) (drop adj Y).
Proof.
  intros Hd -> Hk -> Ho. rewrite Hd at 1. rewrite skipn_firstn_comm. f_equal.
  rewrite drop_app_ge by lia. f_equal. lia.
Qed.

Section read.
Context (n : Z) (d : list Z) (nf : Z) (A : list adir) (Hinv : fs_inv n d nf A).
Context (D : adir) (HD : D ∈ A) (f : afile) (Hf : f ∈ ad_files D).

Lemma blocks_positive : Forall (λ i, 0 < i < n) (af_blocks f).
Proof.
  apply Forall_forall. intros i Hi. pose proof (data_file A D f i HD Hf Hi) as Hdt.
  pose proof (data_not_root Hinv i Hdt).
  pose proof (used_range Hinv i (used_file A D f i HD Hf Hi)). lia.
Qed.

Context (os lb : Z).
Abbreviation fsize := (Z.of_nat (length (af_data f))).

(** What is left of the file is in one block. *)
Lemma read_last_block p b' rest size offset adj os' lb' : fsize < 2^62 → 0 ≤ offset ≤ fsize → 0 < size < 2^62 → 0 ≤ adj →
  0 ≤ b' < n → adj + (fsize - offset) ≤ 504 → fsize ≤ offset + size →
  drop (Z.to_nat offset) (af_data f) = take (length (af_data f) - Z.to_nat offset) (drop (Z.to_nat adj) (chain_data d (b' :: rest))) →
  read_loop (block_fuel (fsize - offset)) DISK_FILE size fsize offset adj 0 (rd d b') [] (mkfs (Some d) p nf os' lb')
  = Ok (drop (Z.to_nat offset) (af_data f), mkfs (Some d) p nf os' lb').
Proof.
  intros Hfs Ho Hsz Hadj Hb' Hfit Hend Hdrop. pose proof (inv_image _ _ _ _ Hinv) as Him. assert (length (rd d b') = 512%nat) as Hl512 by (apply (rd_length n d Him); lia).
  unfold block_fuel. cbn [read_loop]. rewrite (u64_small (fsize - offset)) by lia.
  assert (take (Z.to_nat (fsize - offset)) (drop (Z.to_nat adj) (rd d b')) = drop (Z.to_nat offset) (af_data f)) as Hs.
  { rewrite Hdrop, chain_data_cons. rewrite drop_app_le by (rewrite length_take; lia).
    rewrite take_app_le by (rewrite length_drop, length_take; lia).
    rewrite skipn_firstn_comm, take_take. f_equal. lia. }
  destruct (decide (fsize - offset = 0)) as [Z0|].
  - rewrite bool_decide_eq_false_2 by lia. rewrite run_ret. rewrite <- Hs.
    replace (Z.to_nat (fsize - offset)) with 0%nat by lia. done.
  - rewrite bool_decide_eq_true_2 by lia.
    replace (fsize - offset - 0) with (fsize - offset) by lia.
    rewrite (u64_small (fsize - offset)) by lia. rewrite MAX_DATA_val.
    rewrite bool_decide_eq_false_2 by lia.
    rewrite (memcpy_out_run n d Him) by (simpl; lia). lok.
    rewrite (bool_decide_eq_false_2 (u64 _ < _)) by (rewrite u64_small; lia).
    rewrite run_ret. rewrite <- Hs. done.
Qed.
(** The rest of a block and then the blocks behind it. *)
Lemma read_split b' rest offset adj : 0 ≤ offset ≤ fsize → 0 ≤ adj ≤ 504 → length (rd d b') = 512%nat → 504 - adj ≤ fsize - offset →
  take (length (af_data f) - Z.to_nat offset) (drop (Z.to_nat adj) (chain_data d (b' :: rest))) =
  slice (rd d b') (Z.to_nat adj) (Z.to_nat (504 - adj)) ++ take (Z.to_nat (fsize - offset - (504 - adj))) (chain_data d rest).
Proof.
  intros Ho Hadj Hl512 Hlong. rewrite (chain_data_cons _ b'). rewrite drop_app_le by (rewrite length_take; lia).
  assert (drop (Z.to_nat adj) (take 504 (rd d b')) = slice (rd d b') (Z.to_nat adj) (Z.to_nat (504 - adj))) as ->.
  { unfold slice. rewrite skipn_firstn_comm. f_equal. lia. }
  assert (length (slice (rd d b') (Z.to_nat adj) (Z.to_nat (504 - adj))) = Z.to_nat (504 - adj)) as Hsl by (apply length_slice; lia).
  rewrite take_app_ge by (rewrite Hsl; lia). rewrite Hsl. do 2 f_equal. lia.
Qed.

(** Reading from the opened start block to the end of the file. *)
Lemma read_data_run p b bl size offset :
  af_blocks f = b :: bl → 0 ≤ offset ≤ fsize → 0 < size < 2^62 → fsize ≤ offset + size → ∃ p',
  read_data DISK_FILE fsize size size offset (rd d b) (mkfs (Some d) p nf (os + 1) (lb + 2))
  = Ok ((fsize - offset, drop (Z.to_nat offset) (af_data f)), mkfs (Some d) p' nf os lb).
Proof.
  intros Hbl Ho Hsz Hend. pose proof (inv_image _ _ _ _ Hinv) as Him.
  pose proof (n_range Hinv). pose proof (file_size_bound Hinv HD f Hf).
  destruct (inv_files _ _ _ _ Hinv D f HD Hf) as (Hc & Hcap & Hdata).
  pose proof blocks_positive as Hpos. rewrite Hbl in Hc, Hcap, Hdata, Hpos. cbn [length] in Hcap.
  unfold read_data. rewrite (u64_small (offset + size)) by lia. rewrite (u64_small (fsize - offset)) by lia.
  replace (if bool_decide (offset + size > fsize) then fsize - offset else size) with (fsize - offset)
    by (case_bool_decide; lia).
  destruct (read_seek_run n d Him nf (os + 1) (lb + 2) offset bl (block_fuel offset) b offset p)
    as (p1 & pre & b' & rest & E & Hcb & Hadj & Hrun);
    [done|done|cbn [length]; lia|lia| |].
  { pose proof (block_fuel_enough offset). lia. }
  rewrite (u64_small offset) by lia. rewrite MAX_DATA_val.
  replace (offset - offset + 504) with 504 in Hrun by lia. rewrite (bind_ok _ _ _ _ _ Hrun). cbv beta iota.
  set (adj := offset - 504 * Z.of_nat (length pre)) in *.
  assert (Forall (λ i, 0 < i < n) pre) as Hpre by (rewrite E in Hpos; by apply Forall_app in Hpos as [? _]).
  assert (Forall (λ i, 0 < i < n) (b' :: rest)) as Hsuf by (rewrite E in Hpos; by apply Forall_app in Hpos as [_ ?]).
  pose proof (Forall_inv Hsuf) as Hb'. cbv beta in Hb'.
  assert (length (rd d b') = 512%nat) as Hl512 by (apply (rd_length n d Him); lia).
  assert (drop (Z.to_nat offset) (af_data f) =
    take (length (af_data f) - Z.to_nat offset) (drop (Z.to_nat adj) (chain_data d (b' :: rest)))) as Hdrop.
  { eapply data_suffix; [exact Hdata| | | |lia].
    - rewrite E. apply chain_data_app.
    - apply (length_chain_data n d Him). eapply Forall_impl; [exact Hpre|]. simpl; lia.
    - lia. }
  assert (fsize - offset ≤ 504 * Z.of_nat (length (b' :: rest)) - adj) as Hfit.
  { assert (length (b :: bl) = length (pre ++ b' :: rest)) as E' by (by rewrite E).
    rewrite length_app in E'. cbn [length] in *. lia. }
  rewrite (u64_small (adj + _)) by lia. destruct (decide (adj + (fsize - offset) ≤ 504)).
  - rewrite bool_decide_eq_false_2 by lia.
    pose proof (read_last_block p1 b' rest size offset adj (os + 1) (lb + 2) ltac:(lia) Ho Hsz ltac:(lia) ltac:(lia) ltac:(lia) Hend Hdrop) as Hl.
    rewrite (bind_ok _ _ _ _ _ Hl). cbv beta. do 3 mok. eexists. rewrite run_ret.
    rewrite s32_small by lia. do 3 f_equal; lia.
  - rewrite bool_decide_eq_true_2 by lia. rewrite (u64_small (504 - adj)) by lia.
    rewrite (memcpy_out_run n d Him) by (simpl; lia). lok.
    destruct rest as [|c rest]; [cbn [length] in Hfit; lia|].
    destruct (chain_tail _ _ _ _ Hcb) as [Hnext Hcc]. rewrite Hnext. lok.
    pose proof (Forall_inv_tail Hsuf) as Hsuf'. pose proof (Forall_inv Hsuf') as Hcr. cbv beta in Hcr.
    rewrite (bool_decide_eq_false_2 (c = 0)) by lia. mok.
    erewrite bind_ok by (eapply open_block_run; [exact Him|lia]). cbv beta.
    assert (length (slice (rd d b') (Z.to_nat adj) (Z.to_nat (504 - adj))) = Z.to_nat (504 - adj)) as Hsl
      by (apply length_slice; lia).
    edestruct (read_loop_run n d Him nf (os + 1) (lb + 2 - 1 + 1) offset fsize size) as [p2 Hl];
      [lia|lia|exact Hcc|exact Hsuf'| | | | |].
    5:{ rewrite (bind_ok _ _ _ _ _ Hl). cbv beta. do 3 mok. eexists. rewrite run_ret.
        rewrite s32_small by lia. rewrite Hdrop, read_split by (done || lia). simpl app. do 3 f_equal; lia. }
    + lia.
    + cbn [length] in *. lia.
    + pose proof (block_fuel_enough (fsize - offset)). lia.
    + simpl app. rewrite Hsl. lia.
Qed.

Lemma read_file p size offset :
  dname_ok (ad_name D) → 0 ≤ offset ≤ fsize → 0 < size < 2^62 → fsize ≤ offset + size → ∃ p',
  cs1550_read (file_path (ad_name D) (af_name f) (af_ext f)) size offset (mkfs (Some d) p nf os lb)
  = Ok ((fsize - offset, drop (Z.to_nat offset) (af_data f)), mkfs (Some d) p' nf os lb).
Proof.
  intros Hnm Ho Hsz Hend. setup_inv Hinv.
  destruct (file_idx_present Hinv HD f Hf) as (i & Hi & Hli). pose proof (lookup_lt_Some _ _ _ Hli).
  destruct (file_fields Hinv HD i f Hli) as (Hs & Hst & _ & _ & Hfn & Hfe).
  destruct (file_start_range Hinv HD f Hf) as (b & bl & Hbl & Hb).
  pose proof (fname_short _ Hfn). pose proof (fext_short _ Hfe). pose proof (dname_short _ Hnm).
  unfold cs1550_read. rewrite scan_file_path by done. lok. cbn [count directory filename extension].
  rewrite (bool_decide_eq_false_2 (size ≤ 0)) by lia.
  rewrite (bool_decide_eq_false_2 (3 ≠ 3)) by lia. rewrite !nm_strlen. lok.
  rewrite !(bool_decide_eq_false_2 (_ > _)) by (unfold MAX_DIRNAME, MAX_FILENAME, MAX_EXTENSION; lia).
  cbn [orb]. find_the_dir Hinv HD j Hj. mok.
  rewrite (dir_count Hinv HD). lok. rewrite (dir_lookup Hinv HD) by done. lok. rewrite Hi.
  rewrite (bool_decide_eq_false_2 (Z.of_nat i = _)) by lia. rewrite Hst. lok. rewrite Hbl. simpl default.
  mok. rewrite Hs. lok. replace (lb + 1 + 1 - 1 + 1) with (lb + 2) by lia.
  by apply (read_data_run _ b bl).
Qed.
End read.

(** ** write *)

(** Contents before and after, as lists: [P] the data of the blocks before the
    one written, [B] that block. *)
Lemma take_prefix (data P B R : list Z) (adj : nat) :
  data = take (length data) (P ++ take 504 B ++ R) → length B = 512%nat →
  (adj ≤ 504)%nat → (length P + adj ≤ length data)%nat →
  take (length P + adj) data = P ++ take adj B.
Proof.
  intros Hd HB Ha Hl. rewrite Hd, take_take. rewrite Nat.min_l by lia.
  rewrite take_app_ge by lia. f_equal. rewrite take_app_le by (rewrite length_take; lia).
  rewrite take_take. f_equal. lia.
Qed.

Lemma take_splice_low B off bs (m : nat) :
  (off + length bs ≤ length B)%nat → (off + length bs ≤ m)%nat →
  take (off + length bs) (take m (splice B off bs)) = take off B ++ bs.
Proof.
  intros Hl Hm. rewrite take_take, Nat.min_l by lia. unfold splice.
  rewrite app_assoc. rewrite take_app_length'; [done|]. rewrite length_app, length_take. lia.
Qed.

Lemma content_in (data P B R buf : list Z) (adj : nat) :
  data = take (length data) (P ++ take 504 B ++ R) → length B = 512%nat →
  (adj + length buf ≤ 504)%nat → (length P + adj ≤ length data)%nat →
  let new := take (length P + adj) data ++ buf in
  new = take (length new) (P ++ take 504 (splice B adj buf) ++ R).
Proof.
  intros Hd HB Ha Hl new. unfold new. rewrite (take_prefix data P B R) by (done || lia).
  rewrite !length_app, length_take, Nat.min_l by lia.
  rewrite <- app_assoc. rewrite take_app_ge by lia. f_equal.
  replace (length P + adj + length buf - length P)%nat with (adj + length buf)%nat by lia.
  rewrite take_app_le by (rewrite length_take, length_splice; lia).
  by rewrite take_splice_low by lia.
Qed.

Lemma content_spill (data P B R nx buf1 buf2 : list Z) (adj : nat) :
  data = take (length data) (P ++ take 504 B ++ R) → length B = 512%nat → length nx = 8%nat →
  (adj + length buf1 = 504)%nat → (length P + adj ≤ length data)%nat → (length buf2 ≤ 504)%nat →
  let new := take (length P + adj) data ++ buf1 ++ buf2 in
  new = take (length new)
    (P ++ take 504 (splice (splice B 504 nx) adj buf1) ++ take 504 (splice zero_block 0 buf2) ++ []).
Proof.
  intros Hd HB Hnx Ha Hl Hb2 new. unfold new. rewrite (take_prefix data P B R) by (done || lia).
  assert (length (splice B 504 nx) = 512%nat) as HB1 by (rewrite length_splice; lia).
  assert (take 504 (splice (splice B 504 nx) adj buf1) = take adj B ++ buf1) as ->.
  { pose proof (take_splice_low (splice B 504 nx) adj buf1 504) as H. rewrite Ha, take_take in H.
    change (504 `min` 504)%nat with 504%nat in H. rewrite H by lia. f_equal. unfold splice.
    rewrite take_app_le by (rewrite length_take; lia). rewrite take_take. f_equal. lia. }
  rewrite !length_app, length_take, Nat.min_l by lia. rewrite app_nil_r.
  rewrite <- (app_assoc P). rewrite take_app_ge by lia. f_equal.
  rewrite <- app_assoc. rewrite take_app_ge by (rewrite length_take; lia). f_equal.
  rewrite length_take, Nat.min_l by lia. rewrite take_app_ge by lia. f_equal.
  pose proof (take_splice_low zero_block 0 buf2 504) as H. simpl in H. 
  replace (length P + adj + (length buf1 + length buf2) - length P - adj - length buf1)%nat
    with (length buf2) by lia.
  symmetry. apply H; lia.
Qed.

Lemma memcpy_in_run block off buf m :
  0 ≤ m ≤ Z.of_nat (length buf) → 0 ≤ off → off + m ≤ Z.of_nat (length block) →
  memcpy_in block off buf m = Ok (splice block (Z.to_nat off) (take (Z.to_nat m) buf)).
Proof.
  intros. unfold memcpy_in. rewrite bool_decide_eq_true_2 by lia.
  apply store_bytes_ok; rewrite ?length_take; lia.
Qed.

(** The final, partial block of the write loop. *)
Lemma write_loop_last n d (Hd : image_ok n d) nf os lb fuel size adj b block buf p :
  0 < size ≤ 504 → Z.of_nat (length buf) = size → 0 ≤ b < n → length block = 512%nat →
  0 ≤ adj → adj + size ≤ 504 → ∃ p',
  write_loop (S (S fuel)) DISK_FILE size adj b block buf (mkfs (Some d) p nf os lb)
  = Ok (tt, mkfs (Some (wr d b (splice block (Z.to_nat adj) buf))) p' nf os lb).
Proof.
  intros Hs Hb Hbn Hl Ha Has. cbn [write_loop]. rewrite bool_decide_eq_true_2 by lia.
  rewrite MAX_DATA_val, bool_decide_eq_false_2 by lia.
  rewrite memcpy_in_run by lia. lok. rewrite take_ge by lia.
  erewrite bind_ok by (apply (write_block_run n); [done|lia|rewrite length_splice; lia]).
  cbv beta. rewrite bool_decide_eq_false_2 by lia. rewrite run_ret. eauto.
Qed.
