(* ===== verification/Cs1550RefineWrite.v ===== *)
(** * Writing files

    [cs1550_write] of at most one block's worth of bytes replaces everything
    from the offset on by the bytes written and keeps the image consistent; it
    takes a new block when the write runs past the end of its block. *)
From stdpp Require Import base numbers list gmap sets.
From S2P Require Import Prelude Bytes Cs1550Disk Cs1550DiskFacts Cs1550Fs Cs1550Path Cs1550Spec.
From S2P Require Import Cs1550Refine Cs1550RefineFile Cs1550RefineData.
#[local] Open Scope Z_scope.

(** The images after a write inside block [b] and after one that spills into
    the free block [k]. *)
Definition img_in (d : list Z) (b : Z) (adj : nat) (buf : list Z) : list Z :=
  wr d b (splice (rd d b) adj buf).
Definition img_spill (d : list Z) (b : Z) (adj : nat) (buf : list Z) (k : Z) : list Z :=
  wr (wr (set_mark d k) b
        (splice (splice (rd d b) 504 (le_bytes 8 k)) adj (take (504 - adj) buf)))
    k (splice zero_block 0 (drop (504 - adj) buf)).

Section write_data.
Context (n : Z) (d : list Z) (Hd : image_ok n d) (nf os lb offset size : Z) (buf : list Z).
Context (Hsize : 0 < size ≤ 504) (Hbuf : Z.of_nat (length buf) = size).
Context (Hbb : Forall byte_ok buf).
Context (k : Z) (Hnf : 1 ≤ nf ≤ k) (Hkn : k < n) (Hm : ∀ j, nf ≤ j < k → marked d j = true)
  (Hu : marked d k = false) (Hz : rd d k = zero_block).

(** A write that runs past the end of the block takes the first free one. *)
Lemma write_spill_run b' adj p : 0 < b' < n → k ≠ b' → (adj ≤ 504)%nat → 504 < Z.of_nat adj + size → ∃ p',
  (next_open_block ← find_next_free_block_index DISK_FILE;
   block ← lift (set_block_next (rd d b') next_open_block);
   set_bitmap DISK_FILE next_open_block 1;;
   let size_written_so_far := u64 (504 - Z.of_nat adj) in
   block ← lift (memcpy_in block (Z.of_nat adj) buf size_written_so_far);
   let buf := drop (Z.to_nat size_written_so_far) buf in
   let size := u64 (size - size_written_so_far) in
   write_block DISK_FILE b' block;;
   free_block;;
   block ← open_block DISK_FILE next_open_block;
   write_loop (block_fuel size) DISK_FILE size 0 next_open_block block buf) (mkfs (Some d) p nf os lb)
  = Ok (tt, mkfs (Some (img_spill d b' adj buf k)) p' k os lb).
Proof using All.
  intros Hb' Hkb' Hadj Hlong. pose proof Hd as (Hn & _ & _). assert (length (rd d b') = 512%nat) as Hl by (apply (rd_length n d Hd); lia).
  edestruct (find_next_free_run n d p nf os lb k) as [p2 Hf]; [done|lia|lia|done|done|].
  rewrite (bind_ok _ _ _ _ _ Hf). cbv beta. unfold set_block_next. rewrite MAX_DATA_val.
  rewrite store_ok by (rewrite ?Hl; lia). lok.
  edestruct (set_bitmap_run n d p2 k os lb k) as [p3 Hs]; [done|lia|].
  rewrite (bind_ok _ _ _ _ _ Hs). cbv beta zeta. rewrite (u64_small (504 - _)) by lia.
  set (B1 := splice (rd d b') (Z.to_nat 504) (le_bytes 8 k)).
  assert (length B1 = 512%nat) as HB1
    by (unfold B1; rewrite length_splice; rewrite ?length_le_bytes; lia).
  rewrite memcpy_in_run by lia. lok. rewrite (u64_small (size - _)) by lia.
  assert (image_ok n (set_mark d k)) as Hd1 by (apply image_set_mark; [done|lia]).
  set (B2 := splice B1 (Z.to_nat (Z.of_nat adj)) (take (Z.to_nat (504 - Z.of_nat adj)) buf)).
  assert (length B2 = 512%nat) as HB2 by (unfold B2; rewrite length_splice; rewrite ?length_take; lia).
  erewrite bind_ok by (apply (write_block_run n); [done|lia|done]). cbv beta. mok.
  assert (Forall byte_ok B2) as HB2b.
  { unfold B2, B1. apply splice_forall; [apply splice_forall; [apply (rd_bytes n d Hd)|apply le_bytes_ok]|].
    by apply Forall_take. }
  assert (image_ok n (wr (set_mark d k) b' B2)) as Hd2 by (apply image_wr; [done|lia|done|done]).
  erewrite bind_ok by (eapply open_block_run; [exact Hd2|lia]). cbv beta.
  replace (rd (wr (set_mark d k) b' B2) k) with zero_block.
  2:{ rewrite (rd_wr n) by (done || lia). rewrite bool_decide_eq_false_2 by done.
      rewrite (rd_set_mark n) by (done || lia). done. }
  set (buf2 := drop (Z.to_nat (504 - Z.of_nat adj)) buf).
  assert (length buf2 = Z.to_nat (size - (504 - Z.of_nat adj))) as Hb2
    by (unfold buf2; rewrite length_drop; lia).
  unfold block_fuel.
  edestruct (write_loop_last n _ Hd2 k os (lb - 1 + 1)
    (Z.to_nat (u64 (size - (504 - Z.of_nat adj)) / MAX_DATA_IN_BLOCK))
    (size - (504 - Z.of_nat adj)) 0 k zero_block buf2) as [p4 H4];
    [lia|lia|lia|done|lia|lia|].
  exists p4. rewrite H4. unfold img_spill. replace (lb - 1 + 1) with lb by lia. do 4 f_equal.
  unfold buf2, B2, B1. rewrite Nat2Z.id. replace (Z.to_nat (504 - Z.of_nat adj)) with (504 - adj)%nat by lia. done.
Qed.

Lemma write_data_run b bl p :
  chain d (b :: bl) → Forall (λ i, 0 < i < n) (b :: bl) → k ∉ (b :: bl) →
  0 ≤ offset ≤ 504 * Z.of_nat (length (b :: bl)) → offset < 2^62 → ∃ p' pre b' rest adj,
  b :: bl = pre ++ b' :: rest ∧ chain d (b' :: rest) ∧
  offset = 504 * Z.of_nat (length pre) + Z.of_nat adj ∧ (adj ≤ 504)%nat ∧
  write_data DISK_FILE size offset b (rd d b) buf (mkfs (Some d) p nf os lb)
  = Ok (tt, if bool_decide (Z.of_nat adj + size ≤ 504)
            then mkfs (Some (img_in d b' adj buf)) p' nf os lb
            else mkfs (Some (img_spill d b' adj buf k)) p' k os lb).
Proof.
  intros Hc Hr Hkb Ho Ho62. pose proof Hd as (Hn & _ & _).
  destruct (write_seek_run n d Hd nf os lb offset bl (block_fuel offset) b offset p)
    as (p1 & pre & b' & rest & E & Hcb & Hadj & Hrun); [done|done|lia|lia| |].
  { pose proof (block_fuel_enough offset). lia. }
  replace (offset - offset + 504) with 504 in Hrun by lia.
  assert (∃ adj : nat, offset - 504 * Z.of_nat (length pre) = Z.of_nat adj) as (adj & Ea)
    by (exists (Z.to_nat (offset - 504 * Z.of_nat (length pre))); lia).
  rewrite Ea in Hrun, Hadj.
  assert (0 < b' < n) as Hb'.
  { rewrite E in Hr. apply Forall_app in Hr as [_ Hr]. by apply Forall_inv in Hr. }
  assert (k ≠ b') as Hkb'. { intros ->. apply Hkb. rewrite E. set_solver. }
  assert (length (rd d b') = 512%nat) as Hl by (apply (rd_length n d Hd); lia).
  unfold write_data. rewrite MAX_DATA_val, (u64_small offset) by lia.
  rewrite (bind_ok _ _ _ _ _ Hrun). cbv beta iota. rewrite (u64_small (_ + size)) by lia.
  destruct (decide (Z.of_nat adj + size ≤ 504)).
  - rewrite bool_decide_eq_false_2 by lia. unfold block_fuel.
    destruct (write_loop_last n d Hd nf os lb (Z.to_nat (u64 size / MAX_DATA_IN_BLOCK)) size
      (Z.of_nat adj) b' (rd d b') buf p1) as [p2 H2]; try lia.
    exists p2, pre, b', rest, adj. split_and!; [done|done|lia|lia|].
    rewrite H2, bool_decide_eq_true_2 by lia. by rewrite Nat2Z.id.
  - rewrite bool_decide_eq_true_2 by lia.
    destruct (write_spill_run b' adj p1 Hb' Hkb' ltac:(lia) ltac:(lia)) as [p2 H2]. exists p2, pre, b', rest, adj. split_and!; [done|done|lia|lia|].
    rewrite bool_decide_eq_false_2 by lia. exact H2.
Qed.
End write_data.

(** ** Pieces of the represented state *)
Lemma chain_replace d d' pre b rest rest' :
  chain d (pre ++ b :: rest) → (∀ i, i ∈ pre → rd d' i = rd d i) →
  chain d' (b :: rest') → chain d' (pre ++ b :: rest').
Proof.
  intros Hc Hr Hb. induction pre as [|i pre IH]; [done|].
  destruct pre as [|j pre]; simpl in *.
  - rewrite Hr by set_solver. by destruct Hc as [? _].
  - rewrite (Hr i) by set_solver. destruct Hc as [? Hc]. split; [done|].
    apply IH; [done|set_solver].
Qed.

(** The directory block with the size of entry [i] changed. *)
Lemma dir_set_size b l i e v :
  dir_repr b l → l !! i = Some e → 0 ≤ v < 2^64 →
  dir_repr (splice b (Z.to_nat (fsize_off (Z.of_nat i))) (le_bytes 8 v))
    (<[i := mkfileent (fe_name e) (fe_ext e) v (fe_start e)]> l).
Proof.
  intros (Hl & Hb & Hc & Hn & He) Hi Hv. pose proof (lookup_lt_Some _ _ _ Hi).
  assert (Z.of_nat (Z.to_nat (fsize_off (Z.of_nat i))) = 17 + 29 * Z.of_nat i) as Ho by (layout; lia).
  split_and!.
  - rewrite length_splice; rewrite ?length_le_bytes; lia.
  - apply splice_forall; [done|apply le_bytes_ok].
  - rewrite load_int_splice_other by (rewrite ?length_le_bytes; lia). by rewrite length_insert.
  - by rewrite length_insert.
  - intros j e' Hj. destruct (decide (i = j)) as [<-|Hne].
    + rewrite list_lookup_insert_eq in Hj by done. injection Hj as <-.
      destruct (He i e Hi) as (H1 & H2 & H3 & H4 & H5 & H6).
      pose proof (fname_short _ H5). pose proof (fext_short _ H6).
      split_and!; [| | | |done|done]; cbn [fe_name fe_ext fe_size fe_start].
      * apply str_at_splice_other; [rewrite ?length_le_bytes; lia|layout; lia|rewrite ?length_le_bytes; layout; lia|done].
      * apply str_at_splice_other; [rewrite ?length_le_bytes; lia|layout; lia|rewrite ?length_le_bytes; layout; lia|done].
      * rewrite load_splice_same by (layout; lia). f_equal. apply Z.mod_small. done.
      * rewrite load_long_splice_other; [done|rewrite ?length_le_bytes; lia|rewrite ?length_le_bytes; layout; lia].
    + rewrite list_lookup_insert_ne in Hj by done.
      pose proof (lookup_lt_Some _ _ _ Hj).
      apply fileent_at_frame; [rewrite ?length_le_bytes; lia|lia|rewrite ?length_le_bytes; lia|by apply He].
Qed.

(** ** Replacing one file of one directory *)
Definition with_file_at (D : adir) (F1 : list afile) (f' : afile) (F2 : list afile) : adir :=
  mkadir (ad_name D) (ad_block D) (F1 ++ f' :: F2).

Lemma dir_blocks_mid D F1 f F2 : ad_files D = F1 ++ f :: F2 →
  dir_blocks D = (ad_block D :: concat (map af_blocks F1)) ++ af_blocks f ++ concat (map af_blocks F2).
Proof. intros E. unfold dir_blocks. rewrite E, map_app, concat_app. done. Qed.

Section replace_file.
Context (n : Z) (d : list Z) (nf : Z) (A1 A2 : list adir) (D : adir) (F1 F2 : list afile) (f : afile).
Context (Hinv : fs_inv n d nf (A1 ++ D :: A2)) (HF : ad_files D = F1 ++ f :: F2).
(** [d1]: the file's blocks rewritten; then the directory block gets the new size. *)
Context (d1 : list Z) (W K : list Z) (Hupd : updated n d d1 W K).
Context (HK : ∀ k, k ∈ K → 1 ≤ k < n ∧ marked d k = false).
Context (HW : ∀ i, i ∈ W → i ∈ af_blocks f ∨ i ∈ K).
Context (f' : afile) (Hname : af_name f' = af_name f) (Hext : af_ext f' = af_ext f).
Context (Hhead : head (af_blocks f') = head (af_blocks f)).
Context (Hbl : ∀ i, i ∈ af_blocks f' → i ∈ af_blocks f ∨ i ∈ K) (Hnd : NoDup (af_blocks f')).
Context (Hrepr : file_repr d1 f') (Hlen : Z.of_nat (length (af_data f')) < 2^64).

Definition resized : list Z :=
  splice (rd d (ad_block D)) (Z.to_nat (fsize_off (Z.of_nat (length F1))))
    (le_bytes 8 (Z.of_nat (length (af_data f')))).
Definition d2 : list Z := wr d1 (ad_block D) resized.

Lemma mid_D : D ∈ A1 ++ D :: A2.
Proof. apply elem_of_mid; auto. Qed.
Lemma mid_f : f ∈ ad_files D.
Proof. rewrite HF. apply elem_of_mid; auto. Qed.

Lemma own_nodup : NoDup (dir_blocks D).
Proof.
  pose proof (inv_nodup _ _ _ _ Hinv) as Hn. rewrite used_mid in Hn.
  apply NoDup_app in Hn as (_ & _ & Hn). by apply NoDup_app in Hn as (? & _ & _).
Qed.

Lemma dir_block_not_file g i : g ∈ ad_files D → i ∈ af_blocks g → i ≠ ad_block D.
Proof.
  intros Hg Hi ->. pose proof own_nodup as Hn. apply NoDup_cons in Hn as [Hn _]. apply Hn.
  by eapply elem_of_concat_map.
Qed.

Lemma K_not_own i : i ∈ K → i ∉ dir_blocks D.
Proof.
  intros Hk Hi. destruct (HK i Hk). apply (free_not_used Hinv i); [lia|done|].
  right. eapply elem_of_concat_map; [apply mid_D|done].
Qed.

Lemma resized_repr : dir_repr resized (map fileent_of (F1 ++ f' :: F2)).
Proof.
  pose proof (inv_dirs _ _ _ _ Hinv D mid_D) as Hr.
  assert (map fileent_of (ad_files D) !! length F1 = Some (fileent_of f)) as Hi.
  { rewrite HF, list_lookup_fmap. by rewrite list_lookup_middle. }
  pose proof (dir_set_size _ _ _ _ (Z.of_nat (length (af_data f'))) Hr Hi ltac:(lia)) as H.
  unfold resized. replace (map fileent_of (F1 ++ f' :: F2)) with
    (<[length F1 := mkfileent (fe_name (fileent_of f)) (fe_ext (fileent_of f))
       (Z.of_nat (length (af_data f'))) (fe_start (fileent_of f))]> (map fileent_of (ad_files D))); [done|].
  rewrite HF, !map_app. simpl.
  rewrite <- (length_map fileent_of F1) at 1.
  rewrite insert_app_r_alt by lia. rewrite Nat.sub_diag. simpl. do 2 f_equal.
  unfold fileent_of. by rewrite Hname, Hext, Hhead.
Qed.

Lemma d2_updated : updated n d d2 (W ++ [ad_block D]) K.
Proof.
  rewrite <- (app_nil_r K). eapply updated_trans; [exact Hupd|].
  apply updated_wr; [apply (upd_image _ _ _ _ _ Hupd)| |apply resized_repr|apply resized_repr].
  apply (dir_block_range Hinv mid_D).
Qed.

Lemma d2_file g i : g ∈ ad_files D → i ∈ af_blocks g → 0 ≤ i < n → rd d2 i = rd d1 i.
Proof.
  intros Hg Hi Hr. unfold d2.
  rewrite (rd_wr n); [|apply (upd_image _ _ _ _ _ Hupd)|apply (dir_block_range Hinv mid_D)|done|apply resized_repr].
  rewrite bool_decide_eq_false_2; [done|]. intros E. by apply (dir_block_not_file g i).
Qed.

Lemma replace_file_inv nf' : 1 ≤ nf' → fs_inv n d2 nf' (A1 ++ with_file_at D F1 f' F2 :: A2).
Proof.
  intros Hnf. pose proof own_nodup as Hown. rewrite (dir_blocks_mid D F1 f F2) in Hown by done.
  apply (replace_dir_inv n d nf A1 A2 D _ Hinv d2 (W ++ [ad_block D]) K d2_updated); try done.
  - intros i [Hi|Hi%list_elem_of_singleton]%elem_of_app; [|subst; left; by left].
    apply HW in Hi as [Hi|Hi]; [left|by right]. right. by eapply elem_of_concat_map; [apply mid_f|].
  - intros i. rewrite (dir_blocks_mid (with_file_at D F1 f' F2) F1 f' F2) by done.
    rewrite (dir_blocks_mid D F1 f F2) by done. simpl ad_block. rewrite !elem_of_app.
    intros [?|[Hi|?]]; [auto| |auto]. apply Hbl in Hi as [?|?]; auto.
  - rewrite (dir_blocks_mid (with_file_at D F1 f' F2) F1 f' F2) by done. simpl ad_block.
    eapply NoDup_replace_mid; [exact Hown|done|].
    intros i [Hi|Hi]%Hbl; [by left|right]. pose proof (K_not_own i Hi) as Hno.
    rewrite (dir_blocks_mid D F1 f F2), !elem_of_app in Hno by done. tauto.
  - simpl. unfold d2.
    rewrite (rd_wr n); [|apply (upd_image _ _ _ _ _ Hupd)|apply (dir_block_range Hinv mid_D)
      |apply (dir_block_range Hinv mid_D)|apply resized_repr].
    rewrite bool_decide_eq_true_2 by done. apply resized_repr.
  - simpl. intros g [->|Hg]%elem_of_mid.
    + apply (file_repr_frame d1); [|done]. intros i Hi. apply Hbl in Hi as [Hi|Hi].
      * apply (d2_file f); [apply mid_f|done|]. apply (used_range Hinv). eapply used_file; [apply mid_D|apply mid_f|done].
      * destruct (HK i Hi). unfold d2.
        rewrite (rd_wr n); [|apply (upd_image _ _ _ _ _ Hupd)|apply (dir_block_range Hinv mid_D)|lia|apply resized_repr].
        rewrite bool_decide_eq_false_2; [done|]. intros E. apply (K_not_own i Hi). rewrite <- E. by left.
    + assert (g ∈ ad_files D) as Hg' by (rewrite HF; apply elem_of_mid; auto).
      apply (file_repr_frame d); [|eapply (inv_files _ _ _ _ Hinv); [apply mid_D|done]].
      intros i Hi. assert (0 ≤ i < n) as Hr
        by (apply (used_range Hinv); eapply used_file; [apply mid_D|done|done]).
      rewrite (d2_file g) by done. apply (upd_rd _ _ _ _ _ Hupd); [done|].
      intros [Hif|Hik]%HW.
      * apply NoDup_app in Hown as (_ & H1 & Hown). apply NoDup_app in Hown as (_ & H2 & _).
        apply elem_of_app in Hg as [Hg|Hg]; pose proof (elem_of_concat_map af_blocks _ _ _ Hg Hi).
        -- apply (H1 i); [by right|]. apply elem_of_app; auto.
        -- by apply (H2 i).
      * apply (K_not_own i Hik). right. by eapply elem_of_concat_map.
  - simpl. pose proof (inv_fnames _ _ _ _ Hinv D mid_D) as Hn. rewrite HF in Hn.
    rewrite map_app in *. simpl in *. by rewrite Hname, Hext.
Qed.
End replace_file.

(** ** The file after the write *)
Section new_file.
Context (n : Z) (d : list Z) (Hd : image_ok n d) (f : afile) (Hf : file_repr d f).
Context (Hpos : Forall (λ i, 0 < i < n) (af_blocks f)) (Hnd : NoDup (af_blocks f)).
Context (pre rest : list Z) (b : Z) (Hsplit : af_blocks f = pre ++ b :: rest).
Context (adj : nat) (Hadj : (adj ≤ 504)%nat).
Context (Hoff : (504 * length pre + adj ≤ length (af_data f))%nat).
Context (buf : list Z) (Hbb : Forall byte_ok buf).
Abbreviation off := (504 * length pre + adj)%nat.
Definition new_data : list Z := take off (af_data f) ++ buf.

Lemma b_range : 0 < b < n.
Proof. rewrite Hsplit in Hpos. apply Forall_app in Hpos as [_ H]. by apply Forall_inv in H. Qed.
Lemma b_len : length (rd d b) = 512%nat.
Proof. apply (rd_length n d Hd). pose proof b_range. lia. Qed.
Lemma pre_len : length (chain_data d pre) = (504 * length pre)%nat.
Proof.
  apply (length_chain_data n d Hd). rewrite Hsplit in Hpos. apply Forall_app in Hpos as [H _].
  eapply Forall_impl; [exact H|]. simpl. lia.
Qed.
Lemma b_fresh i : i ∈ pre ∨ i ∈ rest → i ≠ b.
Proof. rewrite Hsplit in Hnd. apply NoDup_app in Hnd as (_ & H1 & [H2 _]%NoDup_cons). set_solver. Qed.
Lemma block_range i : i ∈ af_blocks f → 0 ≤ i < n.
Proof. intros Hi. rewrite Forall_forall in Hpos. pose proof (Hpos i Hi). simpl in *. lia. Qed.

Lemma data_split :
  af_data f = take (length (af_data f)) (chain_data d pre ++ take 504 (rd d b) ++ chain_data d rest).
Proof. destruct Hf as (_ & _ & H). by rewrite Hsplit, chain_data_app, chain_data_cons in H. Qed.

Lemma updated_in : (adj + length buf ≤ 504)%nat → updated n d (img_in d b adj buf) [b] [].
Proof.
  intros Hlen. pose proof b_len. apply updated_wr; [done|pose proof b_range; lia| |].
  - rewrite length_splice; lia.
  - apply splice_forall; [apply (rd_bytes n d Hd)|done].
Qed.

Lemma file_repr_in : (adj + length buf ≤ 504)%nat →
  file_repr (img_in d b adj buf) (mkafile (af_name f) (af_ext f) new_data (pre ++ b :: rest)).
Proof.
  intros Hlen. pose proof b_len as Hbl. pose proof b_range. pose proof (updated_in Hlen) as Hu.
  assert (rd (img_in d b adj buf) b = splice (rd d b) adj buf) as Hrb.
  { unfold img_in. rewrite (rd_wr n) by (try rewrite length_splice; lia || done).
    by rewrite bool_decide_eq_true_2. }
  assert (∀ i, i ∈ pre ∨ i ∈ rest → rd (img_in d b adj buf) i = rd d i) as Hro.
  { intros i Hi. apply (upd_rd _ _ _ _ _ Hu); [apply block_range; rewrite Hsplit; set_solver|].
    intros ->%list_elem_of_singleton. by apply (b_fresh b). }
  destruct Hf as (Hc & Hcap & _). rewrite Hsplit in Hc, Hcap. split_and!; simpl.
  - eapply chain_replace; [exact Hc|auto|].
    assert (block_next (rd (img_in d b adj buf) b) = block_next (rd d b)) as Hn.
    { rewrite Hrb. unfold block_next. apply load_long_splice_other; rewrite ?MAX_DATA_val; lia. }
    assert (chain d (b :: rest)) as Hcb.
    { clear -Hc. induction pre as [|i p IH]; [done|]. destruct p; simpl in *; apply IH; tauto. }
    destruct rest as [|c r]; [simpl; by rewrite Hn|]. destruct Hcb as [Hb Hcr].
    split; [by rewrite Hn|]. apply (chain_frame d _ (c :: r)); [|exact Hcr].
    intros i Hi. apply Hro; auto.
  - unfold new_data. rewrite length_app, length_take. rewrite length_app in Hcap. simpl in *.
    rewrite length_app. simpl. lia.
  - rewrite chain_data_app, chain_data_cons, Hrb.
    rewrite (chain_data_frame d _ pre), (chain_data_frame d _ rest) by (intros; apply Hro; auto).
    unfold new_data. rewrite <- pre_len. apply content_in; [apply data_split|done|lia|].
    rewrite pre_len. lia.
Qed.

(** The spilling write: [k] is a zeroed block outside the file. *)
Context (k : Z) (Hk : 0 < k < n) (Hkf : k ∉ af_blocks f) (Hz : rd d k = zero_block).
Context (Hspill : (504 < adj + length buf)%nat) (Hbuf : (length buf ≤ 504)%nat).
Abbreviation B2 :=
  (splice (splice (rd d b) 504 (le_bytes 8 k)) adj (take (504 - adj) buf)).

Lemma B2_len : length B2 = 512%nat.
Proof.
  pose proof b_len. rewrite length_splice; rewrite length_splice; rewrite ?length_le_bytes, ?length_take; lia.
Qed.

Lemma spill_image1 : image_ok n (wr (set_mark d k) b B2).
Proof.
  pose proof b_range. apply image_wr; [apply image_set_mark; [done|]|lia|apply B2_len|].
  - destruct Hd as (? & _). lia.
  - apply splice_forall; [apply splice_forall; [apply (rd_bytes n d Hd)|apply le_bytes_ok]|].
    by apply Forall_take.
Qed.

Lemma last_len : length (splice zero_block 0 (drop (504 - adj) buf)) = 512%nat.
Proof. rewrite length_splice; [done|]. rewrite length_drop. change (length zero_block) with 512%nat. lia. Qed.

Lemma updated_spill : updated n d (img_spill d b adj buf k) [b; k] [k].
Proof.
  pose proof b_range. assert (k < 12288) by (destruct Hd as (? & _); lia).
  change [b; k] with (([] ++ [b]) ++ [k]). change [k] with (([k] ++ []) ++ []) at 2.
  eapply updated_trans; [eapply updated_trans; [apply updated_mark; [done|lia]|]|].
  - apply updated_wr; [apply image_set_mark; [done|lia]|lia|apply B2_len|].
    apply splice_forall; [apply splice_forall; [apply (rd_bytes n d Hd)|apply le_bytes_ok]|].
    by apply Forall_take.
  - apply updated_wr; [apply spill_image1|lia|apply last_len|].
    apply splice_forall; [by apply Forall_replicate|by apply Forall_drop].
Qed.

Lemma file_repr_spill :
  file_repr (img_spill d b adj buf k) (mkafile (af_name f) (af_ext f) new_data (pre ++ [b; k])).
Proof.
  pose proof b_len as Hbl. pose proof b_range. pose proof updated_spill as Hu.
  assert (b ≠ k) as Hbk. { intros ->. apply Hkf. rewrite Hsplit. set_solver. }
  assert (rd (img_spill d b adj buf k) k = splice zero_block 0 (drop (504 - adj) buf)) as Hrk.
  { unfold img_spill. rewrite (rd_wr n); [by rewrite bool_decide_eq_true_2|apply spill_image1|lia|lia|apply last_len]. }
  assert (rd (img_spill d b adj buf k) b = B2) as Hrb.
  { unfold img_spill. rewrite (rd_wr n); [|apply spill_image1|lia|lia|apply last_len].
    rewrite bool_decide_eq_false_2 by done.
    rewrite (rd_wr n); [by rewrite bool_decide_eq_true_2| |lia|lia|apply B2_len].
    apply image_set_mark; [done|]. destruct Hd as (? & _). lia. }
  assert (∀ i, i ∈ pre → rd (img_spill d b adj buf k) i = rd d i) as Hro.
  { intros i Hi. apply (upd_rd _ _ _ _ _ Hu); [apply block_range; rewrite Hsplit; set_solver|].
    pose proof (b_fresh i (or_introl Hi)). assert (i ≠ k); [|set_solver].
    intros ->. apply Hkf. rewrite Hsplit. set_solver. }
  destruct Hf as (Hc & Hcap & _). rewrite Hsplit in Hc, Hcap. split_and!; simpl.
  - eapply chain_replace; [exact Hc|auto|]. simpl. rewrite Hrb, Hrk. unfold block_next. split.
    + rewrite load_long_splice_other.
      * change 504%nat with (Z.to_nat MAX_DATA_IN_BLOCK).
        apply load_long_splice_same; rewrite ?MAX_DATA_val; destruct Hd as (? & _); lia.
      * rewrite length_splice; rewrite ?length_le_bytes, ?length_take; lia.
      * rewrite MAX_DATA_val, length_take. lia.
    + rewrite load_long_splice_other; [done| |].
      * rewrite length_drop. change (length zero_block) with 512%nat. lia.
      * rewrite MAX_DATA_val, length_drop. lia.
  - unfold new_data. rewrite length_app, length_take, length_app. simpl. lia.
  - rewrite chain_data_app, !chain_data_cons, Hrb, Hrk. change (chain_data _ []) with (@nil Z).
    rewrite (chain_data_frame d _ pre) by (intros; apply Hro; auto).
    assert (new_data = take off (af_data f) ++ take (504 - adj) buf ++ drop (504 - adj) buf) as ->
      by (unfold new_data; by rewrite take_drop).
    rewrite <- pre_len. eapply content_spill; [apply data_split|done|done| | |].
    + rewrite length_take. lia.
    + rewrite pre_len. lia.
    + rewrite length_drop. lia.
Qed.
End new_file.

(** ** The handler *)
Section write.
Context (n : Z) (d : list Z) (nf : Z) (A1 A2 : list adir) (D : adir) (F1 F2 : list afile) (f : afile).
Context (Hinv : fs_inv n d nf (A1 ++ D :: A2)) (HF : ad_files D = F1 ++ f :: F2).
Context (Hnm : dname_ok (ad_name D)) (buf : list Z) (Hbb : Forall byte_ok buf).
Context (size offset : Z) (Hsize : 0 < size ≤ 504) (Hbuf : Z.of_nat (length buf) = size).
Context (Hoff : 0 ≤ offset ≤ Z.of_nat (length (af_data f))).
Context (k : Z) (Hnf : nf ≤ k < n) (Hm : ∀ j, nf ≤ j < k → marked d j = true)
  (Hu : marked d k = false).

(** The bitmaps of [d] and [d'] differ in the blocks [T], which are newly marked. *)
Definition marks (d' T : list Z) : Prop := ∀ j, 0 ≤ j < n → marked d' j = (marked d j || bool_decide (j ∈ T)).

(** What the data part of the write leaves: a new image, a new file. *)
Lemma write_data_file b bl p os lb : af_blocks f = b :: bl → ∃ d1 W K f' p' nf',
  write_data DISK_FILE size offset b (rd d b) buf (mkfs (Some d) p nf os lb)
    = Ok (tt, mkfs (Some d1) p' nf' os lb) ∧
  updated n d d1 W K ∧ (∀ i, i ∈ K → 1 ≤ i < n ∧ marked d i = false) ∧
  (∀ i, i ∈ W → i ∈ af_blocks f ∨ i ∈ K) ∧ af_name f' = af_name f ∧ af_ext f' = af_ext f ∧
  head (af_blocks f') = head (af_blocks f) ∧
  (∀ i, i ∈ af_blocks f' → i ∈ af_blocks f ∨ i ∈ K) ∧ NoDup (af_blocks f') ∧
  file_repr d1 f' ∧ af_data f' = take (Z.to_nat offset) (af_data f) ++ buf ∧ 1 ≤ nf' ∧
  (K = [] ∧ nf' = nf ∨ K = [k] ∧ nf' = k).
Proof.
  intros Hbl. pose proof (inv_image _ _ _ _ Hinv) as Him. pose proof (n_range Hinv).
  pose proof (inv_nf _ _ _ _ Hinv). pose proof (mid_D A1 A2 D) as HD.
  pose proof (mid_f D F1 F2 f HF) as Hf. pose proof (file_size_bound Hinv HD f Hf).
  pose proof (blocks_positive n d nf _ Hinv D HD f Hf) as Hpos.
  pose proof (blocks_nodup Hinv HD f Hf) as Hnd. pose proof (inv_files _ _ _ _ Hinv D f HD Hf) as Hrep.
  assert (k ∉ af_blocks f) as Hkf.
  { intros Hkf. apply (free_not_used Hinv k); [lia|done|by eapply used_file]. }
  assert (rd d k = zero_block) as Hz by (apply (inv_free _ _ _ _ Hinv); [lia|done]).
  pose proof Hrep as (Hc & Hcap & _). rewrite Hbl in Hc, Hcap.
  destruct (write_data_run n d Him nf os lb offset size buf Hsize Hbuf Hbb k ltac:(lia) ltac:(lia) Hm Hu Hz b bl p)
    as (p' & pre & b' & rest & adj & E & Hcb & Eo & Hadj & Hrun);
    [done|by rewrite Hbl in Hpos|by rewrite Hbl in Hkf|lia|lia|].
  rewrite <- Hbl in E.
  assert (take (Z.to_nat offset) (af_data f) ++ buf = new_data f pre adj buf) as Hnew.
  { unfold new_data. do 2 f_equal. lia. }
  rewrite Hrun. clear Hrun. case_bool_decide as Hsp.
  - exists (img_in d b' adj buf), [b'], [], (mkafile (af_name f) (af_ext f) (new_data f pre adj buf) (pre ++ b' :: rest)), p', nf.
    split_and!; try done; simpl; rewrite <- ?E; try done.
    + eapply updated_in; eauto; lia.
    + set_solver.
    + intros i ->%list_elem_of_singleton. left. rewrite E. set_solver.
    + auto.
    + rewrite E. eapply file_repr_in; eauto; lia.
    + by left.
  - exists (img_spill d b' adj buf k), [b'; k], [k],
      (mkafile (af_name f) (af_ext f) (new_data f pre adj buf) (pre ++ [b'; k])), p', k.
    split_and!; try done; simpl.
    + eapply updated_spill; eauto; lia.
    + intros i ->%list_elem_of_singleton. split; [lia|done].
    + intros i Hi. rewrite E. set_solver.
    + rewrite E. by destruct pre.
    + intros i Hi. rewrite E. set_solver.
    + rewrite E in Hnd, Hkf. apply NoDup_app in Hnd as (Hq1 & Hq2 & [Hq3 _]%NoDup_cons).
      apply NoDup_app. split_and!; [done|set_solver|]. apply NoDup_cons. split; [set_solver|apply NoDup_singleton].
    + eapply file_repr_spill; eauto; lia.
    + lia.
    + by right.
Qed.

Lemma write_file p os lb : ∃ d' f' p' nf',
  cs1550_write (file_path (ad_name D) (af_name f) (af_ext f)) buf size offset (mkfs (Some d) p nf os lb)
    = Ok (size, mkfs (Some d') p' nf' os lb) ∧
  af_name f' = af_name f ∧ af_ext f' = af_ext f ∧
  af_data f' = take (Z.to_nat offset) (af_data f) ++ buf ∧
  fs_inv n d' nf' (A1 ++ with_file_at D F1 f' F2 :: A2) ∧
  (nf' = nf ∧ marks d' [] ∨ nf' = k ∧ marks d' [k]).
Proof.
  pose proof (mid_D A1 A2 D) as HD. pose proof (mid_f D F1 F2 f HF) as Hf. setup_inv Hinv.
  pose proof (file_size_bound Hinv HD f Hf).
  destruct (file_idx_present Hinv HD f Hf) as (i & Hi & Hli). pose proof (lookup_lt_Some _ _ _ Hli).
  assert (i = length F1) as Hi1.
  { eapply NoDup_lookup; [apply (inv_fnames _ _ _ _ Hinv D HD)| |].
    - by rewrite list_lookup_fmap, Hli.
    - rewrite HF, list_lookup_fmap. by rewrite list_lookup_middle. }
  destruct (file_fields Hinv HD i f Hli) as (Hs & Hst & _ & _ & Hfn & Hfe).
  destruct (file_start_range Hinv HD f Hf) as (b & bl & Hbl & Hb).
  unfold cs1550_write. rewrite scan_file_path by done. lok. cbn [count directory filename extension].
  rewrite (bool_decide_eq_false_2 (size ≤ 0)) by lia. rewrite (bool_decide_eq_false_2 (3 ≠ 3)) by lia.
  find_the_dir Hinv HD j Hj. mok.
  rewrite (dir_count Hinv HD). lok. rewrite (dir_lookup Hinv HD) by done. lok. rewrite Hi.
  rewrite (bool_decide_eq_false_2 (Z.of_nat i = _)) by lia. rewrite Hs. lok.
  rewrite (bool_decide_eq_false_2 (u64 offset > _)) by (rewrite u64_small; lia).
  rewrite Hst. lok. rewrite Hbl. simpl default. mok.
  edestruct (write_data_file b bl) as (d1 & W & K & f' & p1 & nf' & Hrun & Hupd & HK & HW & Hn1 & Hn2 & Hhd & Hb1 & Hb2 & Hrep & Hdat & Hnf' & HT); [done|].
  rewrite (bind_ok _ _ _ _ _ Hrun). cbv beta.
  assert (Z.of_nat (length (af_data f')) = offset + size) as Hlen.
  { rewrite Hdat, length_app, length_take. lia. }
  assert (length (rd d (ad_block D)) = 512%nat) as L by (destruct (inv_dirs _ _ _ _ Hinv D HD) as (? & _); done).
  destruct (inv_dirs _ _ _ _ Hinv D HD) as (_ & _ & _ & Hl17 & _). rewrite length_map in Hl17.
  rewrite store_ok by (layout; lia). lok. unfold save_dir. rewrite bind_assoc.
  pose proof (resized_repr n d nf A1 A2 D F1 F2 f Hinv HF f' Hn1 Hn2 Hhd ltac:(lia)) as Hres.
  rewrite (u64_small (offset + size)) by lia. rewrite <- Hlen, Hi1.
  fold (resized d D F1 f').
  erewrite bind_ok by (apply (write_block_run n); [apply (upd_image _ _ _ _ _ Hupd)|lia|apply Hres]).
  cbv beta. erewrite bind_ok by apply run_ret. do 3 mok. rewrite run_ret, s32_small by lia.
  eexists _, f', _, nf'. split_and!; [|done|done|done| |].
  - do 3 f_equal; lia.
  - eapply replace_file_inv; eauto. lia.
  - pose proof (upd_marked _ _ _ _ _ (d2_updated n d nf A1 A2 D F1 F2 f Hinv HF d1 W K Hupd f' Hn1 Hn2 Hhd ltac:(lia))) as Hmk.
    destruct HT as [[-> ->]|[-> ->]]; [by left|by right].
Qed.
End write.
