(* ===== verification/Cs1550Errors.v ===== *)
(** * Error branches of the cs1550 handlers

    What the handlers do when the name is not there, and the two places where
    the code steps outside a buffer: the eighteenth file of a directory, and a
    read of less than the rest of a file. *)
From stdpp Require Import base numbers list gmap sets.
From S2P Require Import Prelude Bytes Cs1550Disk Cs1550DiskFacts Cs1550Fs Cs1550Path Cs1550Spec.
From S2P Require Import Cs1550Refine Cs1550RefineFile Cs1550RefineData.
#[local] Open Scope Z_scope.

(** An access that leaves its buffer. *)
Lemma store_undefined n b off v :
  Z.of_nat (length b) < off + Z.of_nat n → store n b off v = Fault Undefined.
Proof.
  intros H. unfold store, store_bytes, in_bounds. rewrite length_le_bytes.
  by rewrite bool_decide_eq_false_2 by lia.
Qed.

Section absent_dir.
Context (n : Z) (d : list Z) (nf : Z) (A : list adir) (Hinv : fs_inv n d nf A).
Context (nm : list Z) (Hnm : dname_ok nm) (Habs : ∀ D, D ∈ A → ad_name D ≠ nm).
Context (p os lb : Z).

Ltac no_dir :=
  mok; unfold open_root; mok; rewrite (root_count Hinv); lok;
  rewrite (root_lookup Hinv) by done; lok; rewrite (dir_idx_absent nm Habs);
  rewrite bool_decide_eq_true_2 by done; do 2 mok; eexists; rewrite run_ret; do 3 f_equal; lia.

Lemma getattr_no_dir : ∃ p',
  cs1550_getattr (dir_path nm) (mkfs (Some d) p nf os lb)
  = Ok ((- ENOENT, stat0), mkfs (Some d) p' nf os lb).
Proof.
  setup_inv Hinv. unfold cs1550_getattr. mok. rewrite dir_path_not_root, scan_dir_path by done. lok.
  cbn [count directory]. rewrite (bool_decide_eq_false_2 (1 < 1)) by lia.
  unfold open_root. mok. rewrite (root_count Hinv). lok.
  rewrite (root_lookup Hinv) by done. lok. rewrite (dir_idx_absent nm Habs).
  rewrite bool_decide_eq_true_2 by done. do 2 mok. eexists. rewrite run_ret. do 3 f_equal; lia.
Qed.

Lemma readdir_no_dir : ∃ p',
  cs1550_readdir (dir_path nm) (mkfs (Some d) p nf os lb)
  = Ok ((- ENOENT, dot_entries), mkfs (Some d) p' nf os lb).
Proof.
  setup_inv Hinv. unfold cs1550_readdir. mok. unfold open_root. mok.
  rewrite dir_path_not_root, scan_dir_path by done. lok.
  cbn [count directory]. rewrite (bool_decide_eq_false_2 (1 > 1)) by lia.
  rewrite (root_count Hinv). lok. rewrite (root_lookup Hinv) by done. lok.
  rewrite (dir_idx_absent nm Habs), bool_decide_eq_true_2 by done. do 2 mok. eexists.
  rewrite run_ret. do 3 f_equal; lia.
Qed.

Context (fnm ex : list Z) (Hf : fname_ok fnm) (He : fext_ok ex).

Lemma getattr_file_no_dir : ∃ p',
  cs1550_getattr (file_path nm fnm ex) (mkfs (Some d) p nf os lb)
  = Ok ((- ENOENT, stat0), mkfs (Some d) p' nf os lb).
Proof.
  setup_inv Hinv. unfold cs1550_getattr. mok. unfold file_path at 1.
  rewrite path_not_root, scan_file_path by done. lok.
  cbn [count directory filename extension]. rewrite (bool_decide_eq_false_2 (3 < 1)) by lia.
  unfold open_root. mok. rewrite (root_count Hinv). lok.
  rewrite (root_lookup Hinv) by done. lok. rewrite (dir_idx_absent nm Habs).
  rewrite bool_decide_eq_true_2 by done. do 2 mok. eexists. rewrite run_ret. do 3 f_equal; lia.
Qed.

Lemma mknod_no_dir : ∃ p',
  cs1550_mknod (file_path nm fnm ex) (mkfs (Some d) p nf os lb)
  = Ok (- ENOENT, mkfs (Some d) p' nf os lb).
Proof.
  setup_inv Hinv. pose proof (fname_short _ Hf). pose proof (fext_short _ He).
  unfold cs1550_mknod. rewrite scan_file_path by done. lok. cbn [count directory filename extension].
  rewrite (bool_decide_eq_false_2 (3 < 3)) by lia. rewrite !nm_strlen. lok.
  rewrite !(bool_decide_eq_false_2 (_ > _)) by (unfold MAX_FILENAME, MAX_EXTENSION; lia).
  cbn [orb]. no_dir.
Qed.

Lemma write_no_dir buf size offset : 0 < size → ∃ p',
  cs1550_write (file_path nm fnm ex) buf size offset (mkfs (Some d) p nf os lb)
  = Ok (- EEXIST, mkfs (Some d) p' nf os lb).
Proof.
  intros Hs. setup_inv Hinv. unfold cs1550_write. rewrite scan_file_path by done. lok.
  cbn [count directory filename extension]. rewrite (bool_decide_eq_false_2 (size ≤ 0)) by lia.
  rewrite (bool_decide_eq_false_2 (3 ≠ 3)) by lia. no_dir.
Qed.
End absent_dir.

Section absent_file.
Context (n : Z) (d : list Z) (nf : Z) (A : list adir) (Hinv : fs_inv n d nf A).
Context (D : adir) (HD : D ∈ A) (HDn : dname_ok (ad_name D)).
Context (nm ex : list Z) (Hnm : fname_ok nm) (Hex : fext_ok ex).
Context (Habs : ∀ f, f ∈ ad_files D → (af_name f, af_ext f) ≠ (nm, ex)).
Context (p os lb : Z).

Lemma getattr_no_file : ∃ p',
  cs1550_getattr (file_path (ad_name D) nm ex) (mkfs (Some d) p nf os lb)
  = Ok ((- ENOENT, stat0), mkfs (Some d) p' nf os lb).
Proof.
  setup_inv Hinv. unfold cs1550_getattr. mok. unfold file_path at 1.
  rewrite path_not_root, scan_file_path by done. lok.
  cbn [count directory filename extension]. rewrite (bool_decide_eq_false_2 (3 < 1)) by lia.
  destruct (dir_idx_present Hinv _ HD) as (j & Hj & Hl). pose proof (lookup_lt_Some _ _ _ Hl).
  unfold open_root. mok. rewrite (root_count Hinv). lok. rewrite (root_lookup Hinv) by done. lok.
  rewrite Hj. rewrite (bool_decide_eq_false_2 (Z.of_nat j = _)) by lia.
  rewrite (bool_decide_eq_false_2 (3 = 1)) by lia. rewrite (root_start Hinv j _ Hl). lok.
  unfold open_dir. pose proof (dir_block_range Hinv HD). mok.
  rewrite (dir_count Hinv HD). lok. rewrite (dir_lookup Hinv HD) by done. lok.
  rewrite (file_idx_absent nm ex Habs), bool_decide_eq_true_2 by done.
  do 3 mok. eexists. rewrite run_ret. do 3 f_equal; lia.
Qed.

Lemma write_no_file buf size offset : 0 < size → ∃ p',
  cs1550_write (file_path (ad_name D) nm ex) buf size offset (mkfs (Some d) p nf os lb)
  = Ok (- ENOENT, mkfs (Some d) p' nf os lb).
Proof.
  intros Hs. setup_inv Hinv. unfold cs1550_write. rewrite scan_file_path by done. lok.
  cbn [count directory filename extension]. rewrite (bool_decide_eq_false_2 (size ≤ 0)) by lia.
  rewrite (bool_decide_eq_false_2 (3 ≠ 3)) by lia. find_the_dir Hinv HD j Hj. mok.
  rewrite (dir_count Hinv HD). lok. rewrite (dir_lookup Hinv HD) by done. lok.
  rewrite (file_idx_absent nm ex Habs), bool_decide_eq_true_2 by done.
  do 2 mok. eexists. rewrite run_ret. do 3 f_equal; lia.
Qed.

(** Seventeen files fill the block, but the test that should refuse another
    one compares with [>]. *)
Lemma mknod_18th : length (ad_files D) = 17%nat →
  cs1550_mknod (file_path (ad_name D) nm ex) (mkfs (Some d) p nf os lb) = Fault Undefined.
Proof.
  intros H17. setup_inv Hinv. pose proof (fname_short _ Hnm). pose proof (fext_short _ Hex).
  destruct (inv_dirs _ _ _ _ Hinv D HD) as (Hb & _).
  unfold cs1550_mknod. rewrite scan_file_path by done. lok.
  cbn [count directory filename extension]. rewrite (bool_decide_eq_false_2 (3 < 3)) by lia.
  rewrite !nm_strlen. lok.
  rewrite !(bool_decide_eq_false_2 (_ > _)) by (unfold MAX_FILENAME, MAX_EXTENSION; lia).
  cbn [orb]. find_the_dir Hinv HD j Hj. mok.
  rewrite (dir_count Hinv HD). lok. rewrite (dir_lookup Hinv HD) by done. lok.
  rewrite (file_idx_absent nm ex Habs), bool_decide_eq_false_2 by lia. rewrite H17.
  rewrite bool_decide_eq_false_2 by (change MAX_FILES_IN_DIR with 17; rewrite u64_small; lia).
  unfold of_option. lok. rewrite store_ok by lia. lok. unfold strcpy.
  assert (length (nm ++ [0]) = S (length nm)) as Hnl by (rewrite length_app; simpl; lia).
  assert (length (ex ++ [0]) = S (length ex)) as Hel by (rewrite length_app; simpl; lia).
  set (b1 := splice _ _ (le_bytes 4 _)).
  assert (length b1 = 512%nat) as L1 by (unfold b1; rewrite length_splice; rewrite ?length_le_bytes; lia).
  rewrite store_bytes_ok by (layout; lia). lok.
  set (b2 := splice b1 _ _).
  assert (length b2 = 512%nat) as L2 by (unfold b2; rewrite length_splice; rewrite ?L1; layout; lia).
  rewrite store_bytes_ok by (layout; lia). lok.
  erewrite bind_fault; [done|]. rewrite store_undefined; [done|].
  rewrite length_splice; rewrite ?L2; layout; lia.
Qed.
End absent_file.

(** A read that asks for less than the rest of a one-block file copies the
    whole rest all the same, past the end of the caller's buffer. *)
Section short_read.
Context (n : Z) (d : list Z) (nf : Z) (A : list adir) (Hinv : fs_inv n d nf A).
Context (D : adir) (HD : D ∈ A) (HDn : dname_ok (ad_name D)) (f : afile) (Hf : f ∈ ad_files D).
Context (p os lb size offset : Z).

Lemma seek_here block s : 0 ≤ offset ≤ 504 →
  read_seek (block_fuel offset) DISK_FILE offset 504 (u64 offset) block s
  = Ok (Some (block, offset), s).
Proof.
  intros. unfold block_fuel. cbn [read_seek]. rewrite (u64_small offset) by lia.
  by rewrite bool_decide_eq_false_2 by lia.
Qed.

Lemma read_short :
  0 < size → 0 ≤ offset → offset + size < Z.of_nat (length (af_data f)) ≤ 504 →
  cs1550_read (file_path (ad_name D) (af_name f) (af_ext f)) size offset (mkfs (Some d) p nf os lb)
  = Fault Undefined.
Proof.
  intros Hs Ho Hlt. setup_inv Hinv.
  destruct (file_idx_present Hinv HD f Hf) as (i & Hi & Hli). pose proof (lookup_lt_Some _ _ _ Hli).
  destruct (file_fields Hinv HD i f Hli) as (Hsz & Hst & _ & _ & Hfn & Hfe).
  destruct (file_start_range Hinv HD f Hf) as (b & bl & Hbl & Hb).
  pose proof (fname_short _ Hfn). pose proof (fext_short _ Hfe). pose proof (dname_short _ HDn).
  unfold cs1550_read. rewrite scan_file_path by done. lok. cbn [count directory filename extension].
  rewrite (bool_decide_eq_false_2 (size ≤ 0)) by lia.
  rewrite (bool_decide_eq_false_2 (3 ≠ 3)) by lia. rewrite !nm_strlen. lok.
  rewrite !(bool_decide_eq_false_2 (_ > _)) by (unfold MAX_DIRNAME, MAX_FILENAME, MAX_EXTENSION; lia).
  cbn [orb]. find_the_dir Hinv HD j Hj. mok.
  rewrite (dir_count Hinv HD). lok. rewrite (dir_lookup Hinv HD) by done. lok. rewrite Hi.
  rewrite (bool_decide_eq_false_2 (Z.of_nat i = _)) by lia. rewrite Hst. lok. rewrite Hbl. simpl default.
  mok. rewrite Hsz. lok. unfold read_data. rewrite (u64_small (offset + size)) by lia.
  rewrite bool_decide_eq_false_2 by lia. rewrite MAX_DATA_val.
  erewrite bind_ok by (apply seek_here; lia). cbv beta iota.
  rewrite (u64_small (offset + size)) by lia. rewrite bool_decide_eq_false_2 by lia.
  erewrite bind_fault; [done|]. unfold block_fuel. cbn [read_loop].
  rewrite (u64_small (Z.of_nat _ - offset)) by lia. rewrite bool_decide_eq_true_2 by lia.
  rewrite u64_small by lia. rewrite MAX_DATA_val, bool_decide_eq_false_2 by lia.
  apply bind_fault. unfold memcpy_out. rewrite bool_decide_eq_false_2; [done|]. cbn [length]. lia.
Qed.
End short_read.
