(* ===== verification/Cs1550Claims.v ===== *)
(** * What the cs1550 file system guarantees, and where it does not

    The theorems about the handlers of [src/proj4/cs1550.c]: refinement of the
    abstract file system for mkdir, mknod and small writes, exact results of the
    read-only handlers, the allocator, and the defects the model shows. *)
From stdpp Require Import base numbers list gmap sets.
From S2P Require Import Prelude Bytes Cs1550Disk Cs1550DiskFacts Cs1550Fs Cs1550Path Cs1550Spec.
From S2P Require Import Cs1550Refine Cs1550RefineFile Cs1550RefineData Cs1550RefineWrite.
From S2P Require Import Cs1550Errors.
#[local] Open Scope Z_scope.

(** ** Abstract operations *)

(** The block the bitmap scan finds when it starts at [nf]. *)
Definition first_free (n : Z) (d : list Z) (nf k : Z) : Prop :=
  nf ≤ k < n ∧ (∀ j, nf ≤ j < k → marked d j = true) ∧ marked d k = false.

Definition amkdir (A : list adir) (nm : list Z) (k : Z) : Z * list adir :=
  if bool_decide (nm ∈ map ad_name A) then (- EEXIST, A)
  else if bool_decide (29 ≤ length A)%nat then (- ENOSPC, A)
  else (0, A ++ [mkadir nm k []]).

Definition file_key (f : afile) : list Z * list Z := (af_name f, af_ext f).
Definition amknod (D : adir) (nm ex : list Z) (k : Z) : Z * adir :=
  if bool_decide ((nm, ex) ∈ map file_key (ad_files D)) then (- EEXIST, D)
  else (0, with_new_file D nm ex k).

(** ** Shared facts *)
Lemma stored_dname n d nf A D : fs_inv n d nf A → D ∈ A → dname_ok (ad_name D).
Proof.
  intros Hinv HD. apply list_elem_of_lookup in HD as [j Hj].
  destruct (inv_root _ _ _ _ Hinv) as (_ & _ & _ & _ & He).
  destruct (He j (dirent_of D)) as (_ & _ & ?); [by rewrite list_lookup_fmap, Hj|done].
Qed.

Lemma absent_name (A : list adir) nm : nm ∉ map ad_name A → ∀ D, D ∈ A → ad_name D ≠ nm.
Proof. intros H D HD <-. apply H. by apply list_elem_of_fmap_2. Qed.
Lemma absent_key (D : adir) nm ex :
  (nm, ex) ∉ map file_key (ad_files D) → ∀ f, f ∈ ad_files D → (af_name f, af_ext f) ≠ (nm, ex).
Proof. intros H f Hf E. apply H. rewrite <- E. by apply (list_elem_of_fmap_2 file_key). Qed.

(** A blank image with as many blocks as fit before the bitmap. *)
Definition blank (n : Z) : list Z := replicate (Z.to_nat (512 * (n + 3))) 0.

Lemma rd_blank n i : 0 ≤ i < n → rd (blank n) i = zero_block.
Proof.
  intros. unfold rd, slice, blank, zero_block. rewrite drop_replicate, take_replicate. f_equal. lia.
Qed.

Lemma marked_blank n i : marked (blank n) i = false.
Proof.
  unfold marked, bitmap_byte. assert (default 0 (blank n !! Z.to_nat (bitmap_pos (blank n) i)) = 0) as ->.
  { destruct (blank n !! _) eqn:E; [|done]. unfold blank in E.
    by apply lookup_replicate in E as [-> _]. }
  apply Z.testbit_0_l.
Qed.

(** The disk a fresh [.disk] file gives is the empty file system. *)
Lemma blank_inv n : 1 ≤ n ≤ 12288 → fs_inv n (blank n) 1 [].
Proof.
  intros Hn. split; try done.
  - split_and!; [lia|lia| |].
    + unfold blank. rewrite length_replicate. lia.
    + unfold blank. by apply Forall_replicate.
  - rewrite rd_blank by lia. split_and!; [done| |done|simpl; lia|done].
    by apply Forall_replicate.
  - by intros D ?%elem_of_nil.
  - by intros D f ?%elem_of_nil.
  - apply NoDup_singleton.
  - intros i ->%list_elem_of_singleton. split; [lia|by left].
  - intros i Hi _. by apply rd_blank; lia.
  - apply NoDup_nil_2.
  - by intros D ?%elem_of_nil.
Qed.

(** ** A small concrete disk for the witnesses *)
Module Ex.
(** "d", "f", "t" *)
Definition dn : list Z := [100].
Definition fn : list Z := [102].
Definition en : list Z := [116].
Definition d0 : list Z := blank 9.
Definition d1 : list Z := mkdir_image d0 [] dn 1.
Definition D1 : adir := mkadir dn 1 [].
Definition d2 : list Z := mknod_image d1 D1 fn en 2.
Definition f2 : afile := mkafile fn en [] [2].
Definition D2 : adir := mkadir dn 1 [f2].

Lemma dn_ok : dname_ok dn. Proof. by apply (bool_decide_unpack _). Qed.
Lemma fn_ok : fname_ok fn. Proof. by apply (bool_decide_unpack _). Qed.
Lemma en_ok : fext_ok en. Proof. by apply (bool_decide_unpack _). Qed.
Lemma inv0 : fs_inv 9 d0 1 [].
Proof. by apply blank_inv. Qed.
Lemma inv1 : fs_inv 9 d1 1 [D1].
Proof.
  apply (mkdir_inv 9 d0 1 [] dn 1); [apply inv0|apply dn_ok|simpl; lia| |lia|by vm_compute].
  by intros D ?%elem_of_nil.
Qed.
Lemma inv2 : fs_inv 9 d2 2 [D2].
Proof.
  apply (mknod_inv 9 d1 1 [] D1 [] fn en 2);
    [apply inv1|apply fn_ok|apply en_ok|simpl; lia| |lia|by vm_compute].
  by intros f ?%elem_of_nil.
Qed.
Lemma free0 : first_free 9 d0 1 1.
Proof. split_and!; [lia..| |by vm_compute]. lia. Qed.
Lemma free1 : first_free 9 d1 1 2.
Proof.
  split_and!; [lia..| |by vm_compute]. intros j Hj. assert (j = 1) as -> by lia. by vm_compute.
Qed.
Lemma free2 : first_free 9 d2 2 3.
Proof.
  split_and!; [lia..| |by vm_compute]. intros j Hj. assert (j = 2) as -> by lia. by vm_compute.
Qed.
End Ex.

(** ** Refinement *)

(** C1: on any disk image that represents an abstract file system, and with a
    free block left, [cs1550_mkdir] of an 8-character name does what the abstract
    mkdir does in every branch: -EEXIST for a name that is there, -ENOSPC when
    the root block is full, and otherwise 0 with an empty directory added whose
    block is the first free one; the resulting image represents the new abstract
    state, and the stream and the heap blocks of the call are released. *)
Theorem mkdir_refines n d nf A nm k p os lb :
  fs_inv n d nf A → dname_ok nm → first_free n d nf k → ∃ d' p' nf',
  cs1550_mkdir (dir_path nm) (mkfs (Some d) p nf os lb)
    = Ok ((amkdir A nm k).1, mkfs (Some d') p' nf' os lb) ∧
  fs_inv n d' nf' (amkdir A nm k).2.
Proof.
  intros Hinv Hnm (Hk & Hm & Hu). unfold amkdir. case_bool_decide as Hin.
  - apply list_elem_of_fmap in Hin as (D & -> & HD).
    destruct (mkdir_exists n d nf A (ad_name D) Hinv Hnm p os lb D HD eq_refl) as [p' Hr].
    by exists d, p', nf.
  - pose proof (absent_name A nm Hin) as Habs. case_bool_decide as Hl.
    + assert (length A = 29%nat) as H29.
      { destruct (inv_root _ _ _ _ Hinv) as (_ & _ & _ & Hle & _). rewrite length_map in Hle. lia. }
      destruct (mkdir_full n d nf A nm Hinv Hnm p os lb Habs H29) as [p' Hr]. by exists d, p', nf.
    + destruct (mkdir_new n d nf A nm Hinv Hnm p os lb k Habs) as [p' Hr]; [lia|done..|].
      eexists _, p', k. split; [exact Hr|]. pose proof (inv_nf _ _ _ _ Hinv).
      apply (mkdir_inv _ _ nf); (done || lia).
Qed.

Lemma mkdir_refines_witness : ∃ d' p' nf',
  cs1550_mkdir (dir_path Ex.dn) (mkfs (Some Ex.d0) 0 1 0 0) = Ok (0, mkfs (Some d') p' nf' 0 0) ∧
  fs_inv 9 d' nf' [mkadir Ex.dn 1 []].
Proof. apply (mkdir_refines 9 Ex.d0 1 [] Ex.dn 1 0 0 0 Ex.inv0 Ex.dn_ok Ex.free0). Defined.

(** C2: [cs1550_mknod] in a directory of at most sixteen files refines the
    abstract mknod: -EEXIST for an 8.3 name that is there, otherwise 0 and an
    empty file whose start block is the first free one.  The successful branch
    leaves one heap block allocated ([live_blocks] grows by one). *)
Theorem mknod_refines n d nf A1 D A2 nm ex k p os lb :
  fs_inv n d nf (A1 ++ D :: A2) → fname_ok nm → fext_ok ex → first_free n d nf k →
  (length (ad_files D) < 17)%nat → ∃ d' p' nf',
  cs1550_mknod (file_path (ad_name D) nm ex) (mkfs (Some d) p nf os lb)
    = Ok ((amknod D nm ex k).1, mkfs (Some d') p' nf' os
        (if bool_decide ((amknod D nm ex k).1 = 0) then lb + 1 else lb)) ∧
  fs_inv n d' nf' (A1 ++ (amknod D nm ex k).2 :: A2).
Proof.
  intros Hinv Hnm Hex (Hk & Hm & Hu) Hl. assert (D ∈ A1 ++ D :: A2) as HD by apply mid_D.
  pose proof (stored_dname _ _ _ _ _ Hinv HD) as HDn. unfold amknod. case_bool_decide as Hin.
  - apply list_elem_of_fmap in Hin as (f & [= -> ->] & Hf).
    destruct (file_idx_present Hinv HD f Hf) as (j & _ & Hj).
    destruct (file_fields Hinv HD j f Hj) as (_ & _ & _ & _ & Hfn & Hfe).
    destruct (mknod_exists n d nf _ D _ _ Hinv HD HDn Hfn Hfe p os lb f Hf eq_refl eq_refl) as [p' Hr].
    by exists d, p', nf.
  - pose proof (absent_key D nm ex Hin) as Habs.
    destruct (mknod_new n d nf _ D nm ex Hinv HD HDn Hnm Hex p os lb k Habs Hl Hk Hm Hu) as [p' Hr].
    eexists _, p', k. split; [exact Hr|]. pose proof (inv_nf _ _ _ _ Hinv).
    apply (mknod_inv _ _ nf); (done || lia).
Qed.

Lemma mknod_refines_witness : ∃ d' p' nf',
  cs1550_mknod (file_path Ex.dn Ex.fn Ex.en) (mkfs (Some Ex.d1) 0 1 0 0)
    = Ok (0, mkfs (Some d') p' nf' 0 1) ∧
  fs_inv 9 d' nf' [with_new_file Ex.D1 Ex.fn Ex.en 2].
Proof.
  apply (mknod_refines 9 Ex.d1 1 [] Ex.D1 [] Ex.fn Ex.en 2 0 0 0 Ex.inv1 Ex.fn_ok Ex.en_ok Ex.free1).
  simpl; lia.
Defined.

(** C3: a [cs1550_write] of at most 504 bytes at an offset inside the file
    replaces the content by the bytes before the offset followed by the bytes
    written: the size becomes offset + size, and what the file had after them is
    cut off.  A free block must be left, also when the write does not take it.  The
    bitmap either stays as it is or gets one new mark, on the first free block from
    the allocation cursor on; the resulting image again represents the abstract
    file system, and no other file and no directory changes in it. *)
Theorem write_refines n d nf A1 D A2 F1 f F2 buf size offset k p os lb :
  fs_inv n d nf (A1 ++ D :: A2) → ad_files D = F1 ++ f :: F2 →
  Forall byte_ok buf → Z.of_nat (length buf) = size → 0 < size ≤ 504 →
  0 ≤ offset ≤ Z.of_nat (length (af_data f)) → first_free n d nf k → ∃ d' f' p' nf',
  cs1550_write (file_path (ad_name D) (af_name f) (af_ext f)) buf size offset
      (mkfs (Some d) p nf os lb) = Ok (size, mkfs (Some d') p' nf' os lb) ∧
  file_key f' = file_key f ∧ af_data f' = take (Z.to_nat offset) (af_data f) ++ buf ∧
  fs_inv n d' nf' (A1 ++ with_file_at D F1 f' F2 :: A2) ∧
  (nf' = nf ∧ marks n d d' [] ∨ nf' = k ∧ marks n d d' [k]).
Proof.
  intros Hinv HF Hb Hlen Hs Ho (Hk & Hm & Hu).
  pose proof (stored_dname _ _ _ _ _ Hinv (mid_D A1 A2 D)) as HDn.
  destruct (write_file n d nf A1 A2 D F1 F2 f Hinv HF HDn buf Hb size offset Hs Hlen Ho k Hk Hm Hu p os lb)
    as (d' & f' & p' & nf' & Hr & Hn1 & Hn2 & Hd & Hi & Hmk).
  exists d', f', p', nf'. split_and!; [done| |done|done|done]. unfold file_key. by rewrite Hn1, Hn2.
Qed.

Lemma write_refines_witness : ∃ d' f' p' nf',
  cs1550_write (file_path Ex.dn Ex.fn Ex.en) [104; 105] 2 0 (mkfs (Some Ex.d2) 0 2 0 0)
    = Ok (2, mkfs (Some d') p' nf' 0 0) ∧
  file_key f' = file_key Ex.f2 ∧ af_data f' = [104; 105] ∧
  fs_inv 9 d' nf' [with_file_at Ex.D2 [] f' []] ∧
  (nf' = 2 ∧ marks 9 Ex.d2 d' [] ∨ nf' = 3 ∧ marks 9 Ex.d2 d' [3]).
Proof.
  refine (write_refines 9 Ex.d2 2 [] Ex.D2 [] [] Ex.f2 [] [104; 105] 2 0 3 0 0 0 Ex.inv2 eq_refl _
    eq_refl _ _ Ex.free2); [by repeat constructor|lia|simpl; lia].
Defined.

(** C4: what was written is read back: after a write of up to 504 bytes, a read
    from any offset of the new file, with a buffer that reaches its end, delivers
    exactly the new content from that offset on. *)
Theorem write_read_roundtrip n d nf A1 D A2 F1 f F2 buf size offset k p os lb rsize roff :
  fs_inv n d nf (A1 ++ D :: A2) → ad_files D = F1 ++ f :: F2 →
  Forall byte_ok buf → Z.of_nat (length buf) = size → 0 < size ≤ 504 →
  0 ≤ offset ≤ Z.of_nat (length (af_data f)) → first_free n d nf k →
  0 ≤ roff ≤ offset + size → 0 < rsize < 2^62 → offset + size ≤ roff + rsize →
  ∃ s1 s2 bytes,
  cs1550_write (file_path (ad_name D) (af_name f) (af_ext f)) buf size offset
      (mkfs (Some d) p nf os lb) = Ok (size, s1) ∧
  cs1550_read (file_path (ad_name D) (af_name f) (af_ext f)) rsize roff s1
      = Ok ((Z.of_nat (length bytes), bytes), s2) ∧
  bytes = drop (Z.to_nat roff) (take (Z.to_nat offset) (af_data f) ++ buf).
Proof.
  intros Hinv HF Hb Hlen Hs Ho (Hk & Hm & Hu) Hro Hrs Hend.
  pose proof (stored_dname _ _ _ _ _ Hinv (mid_D A1 A2 D)) as HDn.
  destruct (write_file n d nf A1 A2 D F1 F2 f Hinv HF HDn buf Hb size offset Hs Hlen Ho k Hk Hm Hu p os lb)
    as (d' & f' & p' & nf' & Hr & Hn1 & Hn2 & Hd & Hi & Hmk).
  assert (Z.of_nat (length (af_data f')) = offset + size) as Hl'.
  { rewrite Hd, length_app, length_take. lia. }
  destruct (read_file n d' nf' _ Hi (with_file_at D F1 f' F2) (mid_D _ _ _) f'
    ltac:(by apply (mid_f _ F1 F2)) os lb p' rsize roff) as [p2 Hrd]; [done|lia|lia|lia|].
  rewrite Hn1, Hn2 in Hrd. change (ad_name (with_file_at D F1 f' F2)) with (ad_name D) in Hrd.
  eexists _, _, _. split_and!; [exact Hr| |reflexivity]. rewrite Hrd, Hd. do 3 f_equal.
  rewrite <- Hd, length_drop. lia.
Qed.

Lemma write_read_roundtrip_witness : ∃ s1 s2 bytes,
  cs1550_write (file_path Ex.dn Ex.fn Ex.en) [104; 105; 33] 3 0 (mkfs (Some Ex.d2) 0 2 0 0) = Ok (3, s1) ∧
  cs1550_read (file_path Ex.dn Ex.fn Ex.en) 4096 1 s1 = Ok ((Z.of_nat (length bytes), bytes), s2) ∧
  bytes = [105; 33].
Proof.
  refine (write_read_roundtrip 9 Ex.d2 2 [] Ex.D2 [] [] Ex.f2 [] [104; 105; 33] 3 0 3 0 0 0 4096 1
    Ex.inv2 eq_refl _ eq_refl _ _ Ex.free2 _ _ _); [by repeat constructor|lia|simpl; lia|lia..].
Defined.

(** ** Read-only handlers *)
Definition dir_stat : stat := mkstat 16877 2 0.           (* S_IFDIR | 0755 *)
Definition file_stat (f : afile) : stat := mkstat 33206 1 (Z.of_nat (length (af_data f))).

Definition agetattr_dir (A : list adir) (nm : list Z) : Z * stat :=
  if bool_decide (nm ∈ map ad_name A) then (0, dir_stat) else (- ENOENT, stat0).
Definition agetattr_file (A : list adir) (dn nm ex : list Z) : Z * stat :=
  match list_find (λ D, ad_name D = dn) A with
  | Some (_, D) =>
    match list_find (λ f, file_key f = (nm, ex)) (ad_files D) with
    | Some (_, f) => (0, file_stat f)
    | None => (- ENOENT, stat0)
    end
  | None => (- ENOENT, stat0)
  end.

(** C5: [cs1550_getattr] tells the root, the directories and the files apart:
    directory mode for the root and for every directory that exists, file mode
    with the file's length for every file, -ENOENT for every other 8-character
    directory name and for every other path of an 8-character directory name and an
    8.3 file name, whether the file or already its directory is missing; and it
    changes neither the disk nor the allocation cursor. *)
Theorem getattr_exact n d nf A p os lb :
  fs_inv n d nf A →
  (∃ p', cs1550_getattr [SLASH] (mkfs (Some d) p nf os lb)
     = Ok ((0, dir_stat), mkfs (Some d) p' nf os lb)) ∧
  (∀ nm, dname_ok nm → ∃ p', cs1550_getattr (dir_path nm) (mkfs (Some d) p nf os lb)
     = Ok (agetattr_dir A nm, mkfs (Some d) p' nf os lb)) ∧
  (∀ dn nm ex, dname_ok dn → fname_ok nm → fext_ok ex → ∃ p',
     cs1550_getattr (file_path dn nm ex) (mkfs (Some d) p nf os lb)
     = Ok (agetattr_file A dn nm ex, mkfs (Some d) p' nf os lb)).
Proof.
  intros Hinv. split_and!.
  - apply getattr_root.
  - intros nm Hnm. unfold agetattr_dir. case_bool_decide as Hin.
    + apply list_elem_of_fmap in Hin as (D & -> & HD). by apply (getattr_dir n d nf A).
    + apply (getattr_no_dir n d nf A Hinv); [done|]. by apply absent_name.
  - intros dn nm ex HDn Hnm Hex. unfold agetattr_file. destruct (list_find _ A) as [[i D]|] eqn:ED.
    2:{ apply (getattr_file_no_dir n d nf A Hinv); [done| |done..]. intros D HD Hn.
        eapply list_find_None in ED. eapply Forall_forall in ED; [|exact HD]. by apply ED. }
    apply list_find_Some in ED as (HD%list_elem_of_lookup_2 & <- & _). destruct (list_find _ _) as [[j f]|] eqn:E.
    + apply list_find_Some in E as (Hj & [= <- <-] & _). apply list_elem_of_lookup_2 in Hj.
      by apply (getattr_file n d nf A).
    + apply (getattr_no_file n d nf A Hinv); [done..|]. intros f Hf Ef.
      eapply list_find_None in E. eapply Forall_forall in E; [|exact Hf]. by apply E.
Qed.

Lemma getattr_exact_witness :
  (∃ p', cs1550_getattr (file_path Ex.dn Ex.fn Ex.en) (mkfs (Some Ex.d2) 0 2 0 0)
    = Ok ((0, file_stat Ex.f2), mkfs (Some Ex.d2) p' 2 0 0)) ∧
  (∃ p', cs1550_getattr (file_path Ex.dn Ex.fn Ex.en) (mkfs (Some Ex.d0) 0 1 0 0)
    = Ok ((- ENOENT, stat0), mkfs (Some Ex.d0) p' 1 0 0)).
Proof.
  split.
  - exact (proj2 (proj2 (getattr_exact 9 Ex.d2 2 [Ex.D2] 0 0 0 Ex.inv2)) Ex.dn Ex.fn Ex.en Ex.dn_ok Ex.fn_ok Ex.en_ok).
  - exact (proj2 (proj2 (getattr_exact 9 Ex.d0 1 [] 0 0 0 Ex.inv0)) Ex.dn Ex.fn Ex.en Ex.dn_ok Ex.fn_ok Ex.en_ok).
Defined.

(** C6: [cs1550_readdir] lists exactly the directories of the root, and exactly
    the files of a directory in [name.ext] form (for names that fit the 12-byte
    scratch array), in the order of the entries and after [.] and [..]; an
    unknown directory gives -ENOENT. *)
Theorem readdir_exact n d nf A p os lb :
  fs_inv n d nf A →
  (∃ p', cs1550_readdir [SLASH] (mkfs (Some d) p nf os lb)
     = Ok ((0, dot_entries ++ map ad_name A), mkfs (Some d) p' nf os lb)) ∧
  (∀ D, D ∈ A → (∀ f, f ∈ ad_files D → (length (af_name f) + length (af_ext f) ≤ 10)%nat) → ∃ p',
     cs1550_readdir (dir_path (ad_name D)) (mkfs (Some d) p nf os lb)
     = Ok ((0, dot_entries ++ map display_name (ad_files D)), mkfs (Some d) p' nf os lb)) ∧
  (∀ nm, dname_ok nm → nm ∉ map ad_name A → ∃ p',
     cs1550_readdir (dir_path nm) (mkfs (Some d) p nf os lb)
     = Ok ((- ENOENT, dot_entries), mkfs (Some d) p' nf os lb)).
Proof.
  intros Hinv. split_and!.
  - by apply (readdir_root n d nf A).
  - intros D HD Hl. apply (readdir_dir n d nf A); try done. by apply (stored_dname n d nf A).
  - intros nm Hnm Hin. apply (readdir_no_dir n d nf A); try done. by apply absent_name.
Qed.

Lemma readdir_exact_witness : ∃ p',
  cs1550_readdir (dir_path Ex.dn) (mkfs (Some Ex.d2) 0 2 0 0)
  = Ok ((0, dot_entries ++ [[102; 46; 116]]), mkfs (Some Ex.d2) p' 2 0 0).
Proof.
  refine (proj1 (proj2 (readdir_exact 9 Ex.d2 2 [Ex.D2] 0 0 0 Ex.inv2)) Ex.D2 _ _); [by left|].
  intros f ->%list_elem_of_singleton. simpl. lia.
Defined.

(** ** The allocator *)

(** The bitmap scan is first fit from the cursor, and it cannot fail: on an
    image of [n] blocks it returns the first unmarked index from the cursor on,
    and if the whole bitmap is marked it returns 12288, the first index past it.
    So -1, the only value the callers treat as a full disk, is never returned,
    and the index returned may be that of a bitmap block or beyond the disk. *)
Theorem allocator_first_fit n d p nf os lb :
  image_ok n d → 0 ≤ nf ≤ 12288 → ∃ k p',
  find_next_free_block_index DISK_FILE (mkfs (Some d) p nf os lb) = Ok (k, mkfs (Some d) p' k os lb) ∧
  nf ≤ k ≤ 12288 ∧ marked d k = false ∧ (∀ j, nf ≤ j < k → marked d j = true).
Proof.
  intros Him Hnf.
  assert (∃ m : nat, marked d (nf + Z.of_nat m) = false ∧ nf + Z.of_nat m ≤ 12288 ∧
    ∀ j, nf ≤ j < nf + Z.of_nat m → marked d j = true) as (m & Hu & Hle & Hm).
  { assert (∀ r : nat, Z.of_nat r ≤ 12288 - nf →
      (∃ m : nat, (m < r)%nat ∧ marked d (nf + Z.of_nat m) = false ∧
         ∀ j, nf ≤ j < nf + Z.of_nat m → marked d j = true) ∨
      (∀ j, nf ≤ j < nf + Z.of_nat r → marked d j = true)) as Hs.
    { induction r as [|r IH]; intros Hr; [right; lia|].
      destruct IH as [(m & ? & ? & ?)|Hall]; [lia|left; exists m; split_and!; (done || lia)|].
      destruct (marked d (nf + Z.of_nat r)) eqn:E.
      - right. intros j Hj. destruct (decide (j = nf + Z.of_nat r)) as [->|]; [done|].
        apply Hall. lia.
      - left. exists r. split_and!; [lia|done|done]. }
    destruct (Hs (Z.to_nat (12288 - nf)) ltac:(lia)) as [(m & ? & ? & ?)|Hall].
    - exists m. split_and!; (done || lia).
    - exists (Z.to_nat (12288 - nf)). replace (nf + _) with 12288 by lia.
      split_and!; [by eapply marked_past_end|lia|]. intros j Hj. apply Hall. lia. }
  destruct (find_next_free_run n d p nf os lb (nf + Z.of_nat m) Him) as [p' Hr]; [lia|lia|done|done|].
  exists (nf + Z.of_nat m), p'. split_and!; (done || lia).
Qed.

(** A disk of nine blocks, all marked: the scan answers with block 9, which is
    the first block of the bitmap itself. *)
Definition full9 : list Z := replicate 4608 0 ++ [255; 128] ++ replicate 1534 0.

Lemma allocator_first_fit_witness : ∃ k p',
  find_next_free_block_index DISK_FILE (mkfs (Some full9) 0 1 0 0) = Ok (k, mkfs (Some full9) p' k 0 0) ∧
  1 ≤ k ≤ 12288 ∧ marked full9 k = false ∧ (∀ j, 1 ≤ j < k → marked full9 j = true).
Proof.
  apply (allocator_first_fit 9 full9 0 1 0 0); [|lia]. split_and!; [lia|lia|reflexivity|].
  unfold full9. apply Forall_app. split; [by apply Forall_replicate|].
  apply Forall_app. split; [repeat constructor; lia|by apply Forall_replicate].
Defined.

(** ** Defects *)

(** In a directory that holds seventeen files, all that fit its block,
    [cs1550_mknod] of a new name is not refused with -ENOSPC: it writes the new
    entry past the end of the 512-byte buffer. *)
Theorem mknod_full_dir_overflows n d nf A D nm ex p os lb :
  fs_inv n d nf A → D ∈ A → length (ad_files D) = 17%nat → fname_ok nm → fext_ok ex →
  (nm, ex) ∉ map file_key (ad_files D) →
  cs1550_mknod (file_path (ad_name D) nm ex) (mkfs (Some d) p nf os lb) = Fault Undefined.
Proof.
  intros Hinv HD Hl Hnm Hex Hin. apply (mknod_18th n d nf A); try done.
  - by apply (stored_dname n d nf A).
  - by apply absent_key.
Qed.

(** A read that asks for fewer bytes than the rest of the file holds still
    copies the whole rest: on a one-block file it runs past the end of the
    caller's buffer. *)
Theorem short_read_overruns n d nf A D f p os lb size offset :
  fs_inv n d nf A → D ∈ A → f ∈ ad_files D →
  0 < size → 0 ≤ offset → offset + size < Z.of_nat (length (af_data f)) ≤ 504 →
  cs1550_read (file_path (ad_name D) (af_name f) (af_ext f)) size offset (mkfs (Some d) p nf os lb)
  = Fault Undefined.
Proof.
  intros Hinv HD Hf ? ? ?. apply (read_short n d nf A); try done. by apply (stored_dname n d nf A).
Qed.

Lemma short_read_overruns_witness : ∃ d' nf' f',
  af_data f' = [104; 105] ∧
  cs1550_read (file_path Ex.dn (af_name f') (af_ext f')) 1 0 (mkfs (Some d') 0 nf' 0 0) = Fault Undefined.
Proof.
  destruct (write_file 9 Ex.d2 2 [] [] Ex.D2 [] [] Ex.f2 Ex.inv2 eq_refl Ex.dn_ok [104; 105]
    ltac:(by repeat constructor) 2 0 ltac:(lia) eq_refl ltac:(simpl; lia) 3 ltac:(lia)
    (proj1 (proj2 Ex.free2)) (proj2 (proj2 Ex.free2)) 0 0 0) as (d' & f' & p' & nf' & _ & _ & _ & Hd & Hi & _).
  exists d', nf', f'. split; [done|].
  apply (short_read_overruns 9 d' nf' _ (with_file_at Ex.D2 [] f' []) f' 0 0 0 1 0 Hi);
    [by left|by left|lia|lia|]. rewrite Hd. simpl. lia.
Defined.

(** A directory with [m] files, for any [m] up to seventeen. *)
Lemma marked_wr_mark n d k i b j :
  image_ok n d → 0 ≤ k < n → 0 ≤ i < n → 0 ≤ j < n → length b = 512%nat → k ≠ j →
  marked (wr (set_mark d k) i b) j = marked d j.
Proof.
  intros Him ? ? ? ? ?. pose proof Him as (? & _).
  rewrite (marked_wr n) by (try apply image_set_mark; (done || lia)).
  rewrite (marked_set_mark n) by (done || lia).
  by rewrite bool_decide_eq_false_2, orb_false_r by done.
Qed.

Lemma many_files (m : nat) : (m ≤ 17)%nat → ∃ d nf D,
  fs_inv 40 d nf [D] ∧ ad_name D = Ex.dn ∧
  map file_key (ad_files D) = map (λ j, ([97 + Z.of_nat j], Ex.en)) (seq 0 m) ∧
  ∀ k, Z.of_nat m + 2 ≤ k < 40 → marked d k = false.
Proof.
  induction m as [|m IH]; intros Hm.
  - pose proof (blank_inv 40 ltac:(lia)) as Hinv0.
    exists (mkdir_image (blank 40) [] Ex.dn 1), 1, (mkadir Ex.dn 1 []). split_and!; [|done|done|].
    + apply (mkdir_inv 40 (blank 40) 1 []); [done|apply Ex.dn_ok|simpl; lia|
        by intros D ?%elem_of_nil|lia|by apply marked_blank].
    + intros k Hk. unfold mkdir_image.
      rewrite (marked_wr_mark 40); [by apply marked_blank|apply Hinv0|lia..| |lia].
      apply (root_add_repr _ [] Ex.dn 1 (inv_root _ _ _ _ Hinv0)); [simpl; lia|apply Ex.dn_ok|lia].
  - destruct IH as (d & nf & D & Hinv & Hn & Hks & Hmk); [lia|].
    assert (length (ad_files D) = m) as Hl.
    { rewrite <- (length_map file_key), Hks, length_map. apply length_seq. }
    pose proof (inv_image _ _ _ _ Hinv) as Him.
    set (nm := [97 + Z.of_nat m]). set (k := Z.of_nat m + 2).
    exists (mknod_image d D nm Ex.en k), k, (with_new_file D nm Ex.en k).
    assert (fname_ok nm) as Hok.
    { unfold fname_ok, cstr_ok, nm.
      split_and!; [done|repeat constructor; lia|simpl; lia|repeat constructor; unfold DOT; lia]. }
    split_and!; [|done| |].
    + apply (mknod_inv 40 d nf [] D []); [done|done|apply Ex.en_ok|lia| |lia|apply Hmk; lia].
      apply absent_key. rewrite Hks. intros (j & [= E] & Hj%elem_of_seq)%list_elem_of_fmap. lia.
    + rewrite seq_S. cbn [with_new_file ad_files]. by rewrite !map_app, Hks.
    + intros j Hj. pose proof (dir_block_range Hinv (list_elem_of_here D [])).
      unfold mknod_image. rewrite (marked_wr_mark 40 _ k) by
        (try done; first [lia | rewrite <- (length_map fileent_of);
          apply (dir_add_repr _ _ nm Ex.en k (inv_dirs _ _ _ _ Hinv D (list_elem_of_here D [])));
          [rewrite length_map; lia|done|apply Ex.en_ok|lia]]).
      apply Hmk. lia.
Qed.

Lemma mknod_full_dir_overflows_witness : ∃ d nf D,
  length (ad_files D) = 17%nat ∧
  cs1550_mknod (file_path (ad_name D) [65] Ex.en) (mkfs (Some d) 0 nf 0 0) = Fault Undefined.
Proof.
  destruct (many_files 17 ltac:(lia)) as (d & nf & D & Hinv & Hn & Hks & _).
  assert (length (ad_files D) = 17%nat) as Hl by (rewrite <- (length_map file_key), Hks; done).
  exists d, nf, D. split; [done|].
  apply (mknod_full_dir_overflows 40 d nf [D] D [65] Ex.en 0 0 0 Hinv); [by left|done| |apply Ex.en_ok|].
  - by apply (bool_decide_unpack _).
  - rewrite Hks. intros (j & [= E] & Hj%elem_of_seq)%list_elem_of_fmap. lia.
Defined.

(** The session [mkdir /d; mknod /d/f.t; write 1600 bytes; getattr; read]. *)
Definition big : list Z := replicate 504 65 ++ replicate 504 66 ++ replicate 504 67 ++ replicate 88 68.
Definition big_session : M fs (Z * (Z * stat) * (Z * list Z)) :=
  cs1550_mkdir (dir_path Ex.dn);;
  cs1550_mknod (file_path Ex.dn Ex.fn Ex.en);;
  w ← cs1550_write (file_path Ex.dn Ex.fn Ex.en) big 1600 0;
  st ← cs1550_getattr (file_path Ex.dn Ex.fn Ex.en);
  r ← cs1550_read (file_path Ex.dn Ex.fn Ex.en) 1600 0;
  mret (w, st, r).

(** A write that needs more than one new block corrupts the data it
    reports as written.  On a fresh disk, a 1600-byte write to an empty file (504
    bytes each of A, B and C, then 88 of D) returns 1600 and sets the size to
    1600, but the block the loop takes for the rest is not marked, so it is handed
    out twice and linked to itself: the D bytes land on the start of the C block
    and the file reads back as A, B, D, the tail of C, and D again. *)
Theorem large_write_corrupts : ∃ s,
  big_session (mkfs (Some Ex.d0) 0 1 0 0)
  = Ok ((1600, (0, mkstat 33206 1 1600),
         (1600, replicate 504 65 ++ replicate 504 66 ++ replicate 88 68 ++ replicate 416 67
                ++ replicate 88 68)), s).
Proof. eexists. vm_compute. reflexivity. Qed.
