(* ===== verification/Sem.v ===== *)
(** * Processes that synchronise with the cs1550 semaphores

    The programs of [src/proj1_test] and [src/proj2] are sets of processes that
    share a few counters and semaphores.  [down] and [up] are system calls of a
    modified kernel that is not part of the repository: the class [Semaphore]
    states what the programs rely on, a counting semaphore with a first-come
    first-served queue, by an abstraction to the reference semaphore [qsem].

    A process is the list of its remaining actions, as a tree ([code]); the
    system steps by running one enabled process.  Every action is atomic; that
    this is sound for the counters is the race-freedom theorem of the programs,
    which lets only the holder of the mutex touch them. *)
From stdpp Require Import base numbers list relations.
From S2P Require Import Prelude.
#[local] Open Scope Z_scope.

(** ** Semaphores *)

(** The reference semaphore: [value] is what [struct cs1550_sem] holds; a
    negative value counts the processes in the queue. *)
Record qsem : Type := mkq { q_value : Z; q_queue : list nat }.
#[export] Instance qsem_eq : EqDecision qsem.
Proof. solve_decision. Defined.

Definition qinit (v : Z) : qsem := mkq v [].
(** [true]: the caller goes on; [false]: it sleeps at the tail of the queue. *)
Definition qdown (p : nat) (s : qsem) : qsem * bool :=
  if bool_decide (q_value s - 1 < 0)
  then (mkq (q_value s - 1) (q_queue s ++ [p]), false)
  else (mkq (q_value s - 1) (q_queue s), true).
(** The process woken, if any: the head of the queue. *)
Definition qup (s : qsem) : qsem * option nat :=
  if bool_decide (q_value s + 1 ≤ 0) then
    match q_queue s with
    | p :: q => (mkq (q_value s + 1) q, Some p)
    | [] => (mkq (q_value s + 1) [], None)
    end
  else (mkq (q_value s + 1) (q_queue s), None).

Class Semaphore (sem : Type) : Type := {
  sem_init : Z → sem;
  sem_down : nat → sem → sem * bool;
  sem_up : sem → sem * option nat;
  sem_view : sem → qsem;
  sem_init_view v : sem_view (sem_init v) = qinit v;
  sem_down_view p s : qdown p (sem_view s) = (sem_view (sem_down p s).1, (sem_down p s).2);
  sem_up_view s : qup (sem_view s) = (sem_view (sem_up s).1, (sem_up s).2) }.

#[export, refine] Instance qsem_semaphore : Semaphore qsem :=
  { sem_init := qinit; sem_down := qdown; sem_up := qup; sem_view := id }.
Proof.
  - done.
  - intros p s. unfold id. by destruct (qdown p s).
  - intros s. unfold id. by destruct (qup s).
Defined.

(** ** Programs *)
Inductive test : Type := TGe (c : nat) (z : Z) | TLt (c : nat) (z : Z) | TEq (c : nat) (z : Z).

Inductive action (ev : Type) : Type :=
| DOWN (s : nat)            (** [down(sem)] *)
| UP (s : nat)              (** [up(sem)] *)
| PRINT (e : ev)
| SLEEP (n : Z)
| ADD (c : nat) (z : Z)     (** [( *c)++] and [( *c)--] *)
| SET (c : nat) (z : Z).    (** [*c = z] *)
Arguments DOWN {ev} s.
Arguments UP {ev} s.
Arguments PRINT {ev} e.
Arguments SLEEP {ev} n.
Arguments ADD {ev} c z.
Arguments SET {ev} c z.

Inductive code (ev : Type) : Type :=
| END
| DO (a : action ev) (k : code ev)
| IF (t : test) (th el : code ev).
Arguments END {ev}.
Arguments DO {ev} a k.
Arguments IF {ev} t th el.

#[export] Instance test_eq : EqDecision test.
Proof. solve_decision. Defined.
#[export] Instance action_eq {ev} `{EqDecision ev} : EqDecision (action ev).
Proof. solve_decision. Defined.
#[export] Instance code_eq {ev} `{EqDecision ev} : EqDecision (code ev).
Proof. solve_decision. Defined.

Declare Scope code_scope.
Delimit Scope code_scope with code.
Notation "a ;> k" := (DO a k) (at level 100, right associativity) : code_scope.

(** [blocked_on]: the semaphore the process sleeps on. *)
Record proc (ev : Type) : Type := mkproc { p_code : code ev; blocked_on : option nat }.
Arguments mkproc {ev} p_code blocked_on.
Arguments p_code {ev} p.
Arguments blocked_on {ev} p.
#[export] Instance proc_eq {ev} `{EqDecision ev} : EqDecision (proc ev).
Proof. solve_decision. Defined.

Record sys (sem ev : Type) : Type := mksys {
  sems : list sem; mem : list Z; procs : list (proc ev); out : list ev }.
Arguments mksys {sem ev} sems mem procs out.
Arguments sems {sem ev} s.
Arguments mem {sem ev} s.
Arguments procs {sem ev} s.
Arguments out {sem ev} s.
#[export] Instance sys_eq {sem ev} `{EqDecision sem, EqDecision ev} : EqDecision (sys sem ev).
Proof. solve_decision. Defined.

Definition eval_test (t : test) (m : list Z) : bool :=
  match t with
  | TGe c z => bool_decide (z ≤ m !!! c)
  | TLt c z => bool_decide (m !!! c < z)
  | TEq c z => bool_decide (m !!! c = z)
  end.

Definition unblock {ev} (p : proc ev) : proc ev := mkproc (p_code p) None.
Definition wake {ev} (w : option nat) (l : list (proc ev)) : list (proc ev) :=
  match w with Some j => alter unblock j l | None => l end.

(** One step of process [i]; [None] when it has ended or sleeps. *)
Definition exec {sem ev} `{Semaphore sem} (i : nat) (st : sys sem ev) : option (sys sem ev) :=
  match procs st !! i with
  | Some (mkproc c None) =>
    match c with
    | END => None
    | IF t a b =>
      Some (mksys (sems st) (mem st)
              (<[i := mkproc (if eval_test t (mem st) then a else b) None]> (procs st)) (out st))
    | DO (DOWN s) k =>
      x ← sems st !! s;
      let '(x', go) := sem_down i x in
      Some (mksys (<[s := x']> (sems st)) (mem st)
              (<[i := mkproc k (if (go : bool) then None else Some s)]> (procs st)) (out st))
    | DO (UP s) k =>
      x ← sems st !! s;
      let '(x', w) := sem_up x in
      Some (mksys (<[s := x']> (sems st)) (mem st)
              (wake w (<[i := mkproc k None]> (procs st))) (out st))
    | DO (PRINT e) k =>
      Some (mksys (sems st) (mem st) (<[i := mkproc k None]> (procs st)) (out st ++ [e]))
    | DO (SLEEP _) k =>
      Some (mksys (sems st) (mem st) (<[i := mkproc k None]> (procs st)) (out st))
    | DO (ADD c z) k =>
      Some (mksys (sems st) (<[c := mem st !!! c + z]> (mem st))
              (<[i := mkproc k None]> (procs st)) (out st))
    | DO (SET c z) k =>
      Some (mksys (sems st) (<[c := z]> (mem st)) (<[i := mkproc k None]> (procs st)) (out st))
    end
  | _ => None
  end.

Definition step {sem ev} `{Semaphore sem} (st st' : sys sem ev) : Prop := ∃ i, exec i st = Some st'.

(** Processes started on fresh semaphores with the given values. *)
Definition start {sem ev} `{Semaphore sem} (vals : list Z) (m : list Z) (ps : list (code ev))
  : sys sem ev :=
  mksys (map sem_init vals) m (map (λ c, mkproc c None) ps) [].

Definition reachable {sem ev} `{Semaphore sem} (st0 st : sys sem ev) : Prop := rtc step st0 st.

(** A schedule as a list of process numbers; one that is not enabled is an error. *)
Fixpoint run {sem ev} `{Semaphore sem} (sched : list nat) (st : sys sem ev) : option (sys sem ev) :=
  match sched with
  | [] => Some st
  | i :: sched => st' ← exec i st; run sched st'
  end.

Lemma run_reachable {sem ev} `{Semaphore sem} sched (st st' : sys sem ev) :
  run sched st = Some st' → reachable st st'.
Proof.
  revert st. induction sched as [|i sched IH]; intros st Hr; simpl in Hr.
  - simplify_eq. apply rtc_refl.
  - destruct (exec i st) eqn:E; [|done]. eapply rtc_l; [by exists i|by apply IH].
Qed.

(** Nothing can move although some process has not ended. *)
Definition finished {sem ev} (st : sys sem ev) : bool :=
  forallb (λ p, match p_code p, blocked_on p with END, None => true | _, _ => false end) (procs st).
Definition idle {sem ev} `{Semaphore sem} (st : sys sem ev) : bool :=
  forallb (λ i, match exec i st with None => true | _ => false end) (seq 0 (length (procs st))).
Definition deadlocked {sem ev} `{Semaphore sem} (st : sys sem ev) : bool := idle st && negb (finished st).

(** ** Every implementation behaves like the reference semaphore *)
Section view.
Context {sem ev : Type} `{Hsem : Semaphore sem}.

Definition sys_view (st : sys sem ev) : sys qsem ev :=
  mksys (map sem_view (sems st)) (mem st) (procs st) (out st).

Lemma exec_view i (st : sys sem ev) : exec i (sys_view st) = sys_view <$> exec i st.
Proof.
  unfold exec. cbn [procs sys_view]. destruct (procs st !! i) as [[c [b|]]|]; [done| |done].
  destruct c as [|[] k|]; try done; cbn [sems sys_view].
  - rewrite list_lookup_fmap. destruct (sems st !! s) as [x|] eqn:E; [|done]. cbn.
    pose proof (sem_down_view i x) as Hv. destruct (sem_down i x) as [x' go]. simpl in Hv.
    rewrite Hv. cbn. unfold sys_view. cbn. by rewrite list_fmap_insert.
  - rewrite list_lookup_fmap. destruct (sems st !! s) as [x|] eqn:E; [|done]. cbn.
    pose proof (sem_up_view x) as Hv. destruct (sem_up x) as [x' w]. simpl in Hv.
    rewrite Hv. cbn. unfold sys_view. cbn. by rewrite list_fmap_insert.
Qed.

Lemma start_view vals m ps : sys_view (start vals m ps) = start vals m ps.
Proof.
  unfold start, sys_view. cbn. f_equal. rewrite map_map. apply map_ext. apply sem_init_view.
Qed.

Lemma reachable_view st st' : reachable st st' → reachable (sys_view st) (sys_view st').
Proof.
  induction 1 as [|st1 st2 st3 [i Hi] _ IH]; [apply rtc_refl|].
  eapply rtc_l; [|exact IH]. exists i. by rewrite exec_view, Hi.
Qed.

Lemma run_view sched st : run sched (sys_view st) = sys_view <$> run sched st.
Proof.
  revert st. induction sched as [|i sched IH]; intros st; [done|]. simpl. rewrite exec_view.
  destruct (exec i st); simpl; [apply IH|done].
Qed.

Lemma finished_view st : finished (sys_view st) = finished st.
Proof. done. Qed.
Lemma idle_view st : idle (sys_view st) = idle st.
Proof.
  unfold idle. change (procs (sys_view st)) with (procs st). generalize (seq 0 (length (procs st))) as l.
  induction l as [|i l IH]; [done|]. simpl. rewrite exec_view, IH. by destruct (exec i st).
Qed.
Lemma deadlocked_view st : deadlocked (sys_view st) = deadlocked st.
Proof. unfold deadlocked. by rewrite idle_view, finished_view. Qed.
End view.
