(* ===== verification/SemFacts.v ===== *)
(** * Invariants of semaphore programs

    Facts about every program of [Sem]: the queues hold exactly sleeping
    processes; code that brackets its critical section with [down] and [up] of a
    semaphore that starts at 1 excludes all others from it; counters that are
    only incremented and decremented count the processes in between; and an
    exhaustive exploration of a finite system is sound. *)
From stdpp Require Import base numbers list relations.
From S2P Require Import Prelude Sem.
#[local] Open Scope Z_scope.

(** ** The kinds of step *)
Section facts.
Context {ev : Type}.
Implicit Types (st : sys qsem ev) (p : proc ev) (k : code ev).

Inductive xstep (i : nat) (st : sys qsem ev) : sys qsem ev → Prop :=
| X_if t (a b : code ev) :
    procs st !! i = Some (mkproc (IF t a b) None) →
    xstep i st (mksys (sems st) (mem st)
      (<[i := mkproc (if eval_test t (mem st) then a else b) None]> (procs st)) (out st))
| X_go s k x :
    procs st !! i = Some (mkproc (DO (DOWN s) k) None) → sems st !! s = Some x → 0 < q_value x →
    xstep i st (mksys (<[s := mkq (q_value x - 1) (q_queue x)]> (sems st)) (mem st)
      (<[i := mkproc k None]> (procs st)) (out st))
| X_block s k x :
    procs st !! i = Some (mkproc (DO (DOWN s) k) None) → sems st !! s = Some x → q_value x ≤ 0 →
    xstep i st (mksys (<[s := mkq (q_value x - 1) (q_queue x ++ [i])]> (sems st)) (mem st)
      (<[i := mkproc k (Some s)]> (procs st)) (out st))
| X_up s k x :
    procs st !! i = Some (mkproc (DO (UP s) k) None) → sems st !! s = Some x →
    0 ≤ q_value x ∨ q_queue x = [] →
    xstep i st (mksys (<[s := mkq (q_value x + 1) (q_queue x)]> (sems st)) (mem st)
      (<[i := mkproc k None]> (procs st)) (out st))
| X_wake s k x j q :
    procs st !! i = Some (mkproc (DO (UP s) k) None) → sems st !! s = Some x →
    q_value x < 0 → q_queue x = j :: q →
    xstep i st (mksys (<[s := mkq (q_value x + 1) q]> (sems st)) (mem st)
      (alter unblock j (<[i := mkproc k None]> (procs st))) (out st))
| X_print e k :
    procs st !! i = Some (mkproc (DO (PRINT e) k) None) →
    xstep i st (mksys (sems st) (mem st) (<[i := mkproc k None]> (procs st)) (out st ++ [e]))
| X_sleep n k :
    procs st !! i = Some (mkproc (DO (SLEEP n) k) None) →
    xstep i st (mksys (sems st) (mem st) (<[i := mkproc k None]> (procs st)) (out st))
| X_add c z k :
    procs st !! i = Some (mkproc (DO (ADD c z) k) None) →
    xstep i st (mksys (sems st) (<[c := mem st !!! c + z]> (mem st))
      (<[i := mkproc k None]> (procs st)) (out st))
| X_set c z k :
    procs st !! i = Some (mkproc (DO (SET c z) k) None) →
    xstep i st (mksys (sems st) (<[c := z]> (mem st))
      (<[i := mkproc k None]> (procs st)) (out st)).

Lemma exec_xstep i st st' : exec i st = Some st' → xstep i st st'.
Proof.
  unfold exec. destruct (procs st !! i) as [[c [b|]]|] eqn:Hp; [done| |done].
  destruct c as [|[s|s|e|n|c z|c z] k|t a b]; intros H; simplify_eq/=;
    try (econstructor; (exact Hp || done)).
  - destruct (sems st !! s) as [x|] eqn:Hx; [|done]. simpl in H. unfold qdown in H.
    case_bool_decide; simplify_eq/=; econstructor; (done || lia).
  - destruct (sems st !! s) as [x|] eqn:Hx; [|done]. simpl in H. unfold qup in H.
    destruct x as [v q]. simpl in H. case_bool_decide.
    + destruct q as [|j q]; simplify_eq/=.
      * eapply (X_up i st s k (mkq v [])); [done|done|by right].
      * eapply (X_wake i st s k (mkq v (j :: q)) j q); simpl; (done || lia).
    + simplify_eq/=. eapply (X_up i st s k (mkq v q)); simpl; [done|done|left; lia].
Qed.

(** Invariants by induction over the runs of the system. *)
Lemma reachable_ind (I : sys qsem ev → Prop) st0 st :
  I st0 → (∀ i st st', I st → xstep i st st' → I st') → reachable st0 st → I st.
Proof.
  intros H0 HI Hr. induction Hr as [|st1 st2 st3 [i Hi] _ IH]; [done|].
  apply IH. eapply HI; [exact H0|by apply exec_xstep].
Qed.

(** ** Queues *)
Definition queue_ok (ps : list (proc ev)) (s : nat) (x : qsem) : Prop :=
  Z.of_nat (length (q_queue x)) = Z.max 0 (- q_value x) ∧ NoDup (q_queue x) ∧
  ∀ i, i ∈ q_queue x → ∃ p, ps !! i = Some p ∧ blocked_on p = Some s.
Definition queues_ok st : Prop := ∀ s x, sems st !! s = Some x → queue_ok (procs st) s x.

(** Changing a process that is not asleep, to one that is not asleep. *)
Lemma queue_ok_insert ps s x i p q :
  queue_ok ps s x → ps !! i = Some p → blocked_on p = None → queue_ok (<[i := q]> ps) s x.
Proof.
  intros (Hl & Hn & Hq) Hi Hb. split_and!; [done|done|]. intros j Hj.
  destruct (Hq j Hj) as (p' & Hp' & Hb'). exists p'. split; [|done].
  destruct (decide (i = j)) as [->|]; [congruence|]. by rewrite list_lookup_insert_ne.
Qed.

Lemma queues_insert st i p q m o :
  queues_ok st → procs st !! i = Some p → blocked_on p = None →
  queues_ok (mksys (sems st) m (<[i := q]> (procs st)) o).
Proof. intros Hq Hi Hb s x Hx. eapply queue_ok_insert; eauto. Qed.

Lemma queues_set_sem st s x y ps m o :
  (∀ t z, s ≠ t → sems st !! t = Some z → queue_ok ps t z) →
  sems st !! s = Some x → queue_ok ps s y → queues_ok (mksys (<[s := y]> (sems st)) m ps o).
Proof.
  intros Hq Hx Hy t z Hz. simpl in *. destruct (decide (s = t)) as [->|].
  - rewrite list_lookup_insert_eq in Hz by (by eapply lookup_lt_Some). by simplify_eq.
  - rewrite list_lookup_insert_ne in Hz by done. by apply Hq.
Qed.

Lemma queues_step i st st' : queues_ok st → xstep i st st' → queues_ok st'.
Proof.
  intros Hq Hx. destruct Hx as [t a b Hp|s k x Hp Hs Hv|s k x Hp Hs Hv|s k x Hp Hs Hv|
    s k x j q Hp Hs Hv Hqu|e k Hp|n k Hp|c z k Hp|c z k Hp]; try (by eapply queues_insert).
  - destruct (Hq s x Hs) as (Hl & Hn & Hw).
    eapply queues_set_sem; [intros; eapply queue_ok_insert; eauto|exact Hs|].
    eapply (queue_ok_insert (procs st)); [|done|done]. split_and!; simpl; [lia|done|done].
  - destruct (Hq s x Hs) as (Hl & Hn & Hw).
    assert (i ∉ q_queue x) as Hi by (intros (p & Hp' & Hb)%Hw; simplify_eq/=).
    eapply queues_set_sem; [intros; eapply queue_ok_insert; eauto|exact Hs|]. split_and!; simpl.
    + rewrite length_app. simpl. lia.
    + apply NoDup_app. split_and!; [done| |apply NoDup_singleton].
      by intros j Hj ->%list_elem_of_singleton.
    + intros j [Hj| ->%list_elem_of_singleton]%elem_of_app.
      * destruct (Hw j Hj) as (p' & Hp' & Hb'). exists p'. split; [|done].
        rewrite list_lookup_insert_ne; [done|]. by intros ->.
      * exists (mkproc k (Some s)). split; [|done].
        apply list_lookup_insert_eq. by eapply lookup_lt_Some.
  - destruct (Hq s x Hs) as (Hl & Hn & Hw).
    eapply queues_set_sem; [intros; eapply queue_ok_insert; eauto|exact Hs|].
    eapply (queue_ok_insert (procs st)); [|done|done].
    destruct Hv as [Hv|Hv]; [|rewrite Hv in Hl; simpl in Hl];
      (split_and!; simpl; [|done|done]); [lia|rewrite Hv; simpl; lia].
  - destruct (Hq s x Hs) as (Hl & Hn & Hw). rewrite Hqu in *.
    apply NoDup_cons in Hn as [Hjq Hn]. destruct (Hw j) as (pj & Hpj & Hbj); [by left|].
    assert (i ≠ j) as Hij by (intros ->; simplify_eq/=).
    (* waking [j] touches no other queue: [j] sleeps on [s] alone *)
    assert (∀ t y, queue_ok (procs st) t y → j ∉ q_queue y →
      queue_ok (alter unblock j (<[i:=mkproc k None]> (procs st))) t y) as Hframe.
    { intros t y (Hl' & Hn' & Hw') Hj'. split_and!; [done|done|]. intros u Hu.
      destruct (Hw' u Hu) as (p' & Hp' & Hb'). exists p'. split; [|done].
      rewrite list_lookup_alter_ne by (by intros ->).
      rewrite list_lookup_insert_ne; [done|]. intros ->. simplify_eq/=. }
    eapply queues_set_sem.
    + intros t y Hst Hy. apply Hframe; [by apply Hq|]. intros Hj.
      destruct (Hq t y Hy) as (_ & _ & Hw'). destruct (Hw' j Hj) as (p' & ? & ?). congruence.
    + exact Hs.
    + apply Hframe; [|done]. split_and!; simpl in *; [lia|done|]. intros u Hu. apply Hw. by right.
Qed.

Lemma queues_start vals m (ps : list (code ev)) :
  Forall (λ v, 0 ≤ v) vals → queues_ok (start vals m ps).
Proof.
  intros Hv s x Hx. simpl in Hx. apply list_lookup_fmap_Some in Hx as (v & -> & Hs).
  eapply Forall_lookup_1 in Hs; [|exact Hv]. split_and!; simpl in *; [lia|apply NoDup_nil_2|].
  by intros i ?%elem_of_nil.
Qed.

(** ** Critical sections

    [holds s c]: the code [c] runs inside ([Some true]) or outside ([Some
    false]) a section it entered with [down] and will leave with [up]; [None]
    for code that does not bracket its sections. *)
Fixpoint holds (s : nat) (c : code ev) : option bool :=
  match c with
  | END => Some false
  | DO (DOWN t) k =>
    if bool_decide (t = s) then (if holds s k is Some true then Some false else None) else holds s k
  | DO (UP t) k =>
    if bool_decide (t = s) then (if holds s k is Some false then Some true else None) else holds s k
  | DO _ k => holds s k
  | IF _ a b => if bool_decide (holds s a = holds s b) then holds s a else None
  end.

Definition inside (s : nat) p : bool := bool_decide (holds s (p_code p) = Some true).
Definition holder (s : nat) p : Prop := holds s (p_code p) = Some true ∧ blocked_on p ≠ Some s.

Definition f_held (s : nat) p : Z := if inside s p then 1 else 0.
Definition f_wait (s : nat) p : Z := if bool_decide (blocked_on p = Some s) then 1 else 0.

(** The semaphore [s], started at 1, counts its holder and its sleepers. *)
Record lock_ok (s : nat) st : Prop := {
  lk_code : ∀ p, p ∈ procs st →
    holds s (p_code p) ≠ None ∧ (blocked_on p = Some s → holds s (p_code p) = Some true);
  lk_sem : ∃ x, sems st !! s = Some x ∧ q_value x = 1 - tally (f_held s) (procs st) ∧
    Z.of_nat (length (q_queue x)) = tally (f_wait s) (procs st) }.

Lemma holds_if s t (a b : code ev) (v : bool) :
  holds s (IF t a b) ≠ None → holds s (if v then a else b) = holds s (IF t a b).
Proof. simpl. case_bool_decide as E; [|done]. intros _. by destruct v. Qed.

(** A step that neither moves [s] nor the position of [i] relative to it. *)
Lemma lock_frame s st i p k sms m o b :
  lock_ok s st → procs st !! i = Some p → blocked_on p = None → b ≠ Some s →
  holds s k = holds s (p_code p) → sms !! s = sems st !! s →
  lock_ok s (mksys sms m (<[i := mkproc k b]> (procs st)) o).
Proof.
  intros [Hc (x & Hx & Hv & Hq)] Hi Hb Hbs Hk Hs. split.
  - intros p' Hp'. simpl in Hp'. apply elem_of_insert_inv in Hp' as [->|Hp']; [|by apply Hc].
    simpl. rewrite Hk. destruct (Hc p) as [H1 _]; [by eapply list_elem_of_lookup_2|]. by split.
  - exists x. simpl. rewrite Hs. split; [done|].
    rewrite !(tally_insert _ _ _ p) by done. unfold f_held, f_wait, inside in *. simpl.
    rewrite Hk, Hb. rewrite !(bool_decide_eq_false_2 (_ = Some s)) by done. split; lia.
Qed.

Lemma held_down s k : holds s (DO (DOWN s) k) ≠ None →
  holds s (DO (DOWN s) k) = Some false ∧ holds s k = Some true.
Proof. simpl. rewrite bool_decide_eq_true_2 by done. by destruct (holds s k) as [[]|]. Qed.
Lemma held_up s k : holds s (DO (UP s) k) ≠ None →
  holds s (DO (UP s) k) = Some true ∧ holds s k = Some false.
Proof. simpl. rewrite bool_decide_eq_true_2 by done. by destruct (holds s k) as [[]|]. Qed.

(** A step of [i] on [s] itself, with the semaphore following the process. *)
Lemma lock_move s st i p k b x v q m o : lock_ok s st → procs st !! i = Some p → blocked_on p = None → sems st !! s = Some x →
  holds s k ≠ None → (b = Some s → holds s k = Some true) →
  v = q_value x + f_held s p - f_held s (mkproc k b) → Z.of_nat (length q) = Z.of_nat (length (q_queue x)) + f_wait s (mkproc k b) →
  lock_ok s (mksys (<[s := mkq v q]> (sems st)) m (<[i := mkproc k b]> (procs st)) o).
Proof.
  intros [Hc (x0 & Hx0 & Hv0 & Hq0)] Hp Hb Hx Hk Hbk -> Hq. assert (x = x0) as -> by congruence. split.
  - intros p' [->|Hp']%elem_of_insert_inv; [by split|by apply Hc].
  - eexists. split; [apply list_lookup_insert_eq; by eapply lookup_lt_Some|]. simpl. rewrite !(tally_insert _ _ _ _ _ Hp). rewrite Hq.
    assert (f_wait s p = 0) as -> by (unfold f_wait; by rewrite Hb). split; lia.
Qed.
(** An [UP] that wakes a process moves its waiting, and [s] if it is on [s]. *)
Lemma lock_wake s i st t k x j q : queues_ok st → lock_ok s st → procs st !! i = Some (mkproc (DO (UP t) k) None) →
  sems st !! t = Some x → q_queue x = j :: q → holds s (DO (UP t) k) ≠ None →
  lock_ok s (mksys (<[t := mkq (q_value x + 1) q]> (sems st)) (mem st) (alter unblock j (<[i := mkproc k None]> (procs st))) (out st)).
Proof.
  intros Hqs [Hc (x0 & Hx0 & Hv0 & Hq0)] Hp Hs Hqu Hn. destruct (Hqs t x Hs) as (_ & _ & Hw). destruct (Hw j) as (pj & Hpj & Hbj); [rewrite Hqu; by left|].
  assert (i ≠ j) as Hij by (intros ->; simplify_eq/=).
  assert (<[i := mkproc k None]> (procs st) !! j = Some pj) as Hj' by (by rewrite list_lookup_insert_ne).
  assert (∀ p', p' ∈ alter unblock j (<[i:=mkproc k None]> (procs st)) →
    p' = mkproc k None ∨ p' ∈ procs st ∨ p' = unblock pj) as Hmem.
  { intros p' [Hp'|(y & Hy & ->)]%elem_of_alter_inv.
    - apply elem_of_insert_inv in Hp' as [->|]; auto.
    - rewrite Hj' in Hy. simplify_eq. auto. }
  destruct (Hc pj) as [Hnj Htj]; [by eapply list_elem_of_lookup_2|].
  assert (f_held s (unblock pj) = f_held s pj) as Hfu by done.
  destruct (decide (t = s)) as [->|Hts].
  - destruct (held_up s k Hn) as [H1 H2]. assert (x = x0) as -> by congruence. split.
    + intros p' [->|[Hp'| ->]]%Hmem; [simpl; by rewrite H2|by apply Hc|by split].
    + eexists. split; [apply list_lookup_insert_eq; by eapply lookup_lt_Some|]. simpl.
      rewrite !(tally_alter _ _ _ _ _ Hj'), !(tally_insert _ _ _ _ _ Hp), Hfu.
      rewrite Hqu in Hq0. unfold f_held, f_wait, inside in *. cbn [p_code blocked_on unblock].
      rewrite H1, H2, Hbj. rewrite (bool_decide_eq_true_2 (Some s = Some s)) by done.
      simpl in *. split; lia.
  - assert (holds s k = holds s (DO (UP t) k)) as Hk by (simpl; by rewrite bool_decide_eq_false_2). split.
    + intros p' [->|[Hp'| ->]]%Hmem; [simpl; by rewrite Hk|by apply Hc|by split].
    + exists x0. simpl. rewrite list_lookup_insert_ne by done. split; [done|].
      rewrite !(tally_alter _ _ _ _ _ Hj'), !(tally_insert _ _ _ _ _ Hp), Hfu.
      unfold f_held, f_wait, inside in *. cbn [p_code blocked_on unblock]. rewrite Hk, Hbj.
      rewrite !(bool_decide_eq_false_2 (_ = Some s)) by naive_solver. split; lia.
Qed.
Lemma lock_step s i st st' : queues_ok st → lock_ok s st → xstep i st st' → lock_ok s st'.
Proof.
  intros Hqs Hlk Hx.
  assert (∀ p, procs st !! i = Some p → holds s (p_code p) ≠ None) as Hnone.
  { intros p Hp. by apply (lk_code _ _ Hlk), (list_elem_of_lookup_2 _ i). }
  destruct Hx as [t a b Hp|t k x Hp Hs Hv|t k x Hp Hs Hv|t k x Hp Hs Hv|
    t k x j q Hp Hs Hv Hqu|e k Hp|n k Hp|c z k Hp|c z k Hp];
    pose proof (Hnone _ Hp) as Hn; simpl in Hn;
    try (by eapply lock_frame; [exact Hlk|exact Hp|..]).
  - eapply lock_frame; [exact Hlk|exact Hp|done|done| |done]. by apply (holds_if s t).
  - destruct (decide (t = s)) as [->|Hts].
    + destruct (held_down s k Hn) as [H1 H2]. eapply lock_move; [done|done|done|done|by rewrite H2|done| |]; unfold f_held, f_wait, inside; cbn [p_code blocked_on]; rewrite ?H1, ?H2; simpl; lia.
    + eapply lock_frame; [exact Hlk|exact Hp|done|done| |by rewrite list_lookup_insert_ne]. simpl. by rewrite bool_decide_eq_false_2.
  - destruct (decide (t = s)) as [->|Hts].
    + destruct (held_down s k Hn) as [H1 H2]. eapply lock_move; [done|done|done|done|by rewrite H2|done| |]; unfold f_held, f_wait, inside; cbn [p_code blocked_on];
        rewrite ?H1, ?H2, ?(bool_decide_eq_true_2 (Some s = Some s)), ?length_app by done; simpl; lia.
    + eapply lock_frame; [exact Hlk|exact Hp|done|naive_solver| |by rewrite list_lookup_insert_ne]. simpl. by rewrite bool_decide_eq_false_2.
  - destruct (decide (t = s)) as [->|Hts].
    + destruct (held_up s k Hn) as [H1 H2]. eapply lock_move; [done|done|done|done|by rewrite H2|done| |]; unfold f_held, f_wait, inside; cbn [p_code blocked_on]; rewrite ?H1, ?H2; simpl; lia.
    + eapply lock_frame; [exact Hlk|exact Hp|done|done| |by rewrite list_lookup_insert_ne]. simpl. by rewrite bool_decide_eq_false_2.
  - by apply lock_wake.
Qed.

(** Processes that start outside the section of a semaphore that starts at 1. *)
Definition brackets (s : nat) (c : code ev) : Prop := holds s c = Some false.

Lemma lock_start s vals m (ps : list (code ev)) :
  vals !! s = Some 1 → Forall (brackets s) ps → lock_ok s (start vals m ps).
Proof.
  intros Hv Hb. rewrite Forall_forall in Hb. split.
  - intros p (c & -> & Hc)%list_elem_of_fmap. simpl. by rewrite (Hb c Hc).
  - exists (qinit 1). simpl. rewrite list_lookup_fmap, Hv. split; [done|].
    rewrite !tally_map, !tally_zero; [done| |].
    + intros c Hc. done.
    + intros c Hc. unfold f_held, inside. simpl. by rewrite (Hb c Hc).
Qed.

Lemma lock_reachable s vals m (ps : list (code ev)) st :
  Forall (λ v, 0 ≤ v) vals → vals !! s = Some 1 → Forall (brackets s) ps →
  reachable (start vals m ps) st → queues_ok st ∧ lock_ok s st.
Proof.
  intros Hpos Hv Hb. apply (reachable_ind (λ st, queues_ok st ∧ lock_ok s st)).
  - split; [by apply queues_start|by apply lock_start].
  - intros i st1 st2 [Hq Hl] Hx. split; [by eapply queues_step|by eapply lock_step].
Qed.

(** Two processes are never inside at the same time. *)
Lemma mutual_exclusion s st i j p q :
  queues_ok st → lock_ok s st → procs st !! i = Some p → procs st !! j = Some q →
  holder s p → holder s q → i = j.
Proof.
  intros Hqs [Hc (x & Hx & Hv & Hq)] Hi Hj [Hp1 Hp2] [Hq1 Hq2].
  destruct (decide (i = j)) as [|Hij]; [done|exfalso].
  destruct (Hqs s x Hx) as (Hl & _ & _).
  set (g := λ p, f_held s p - f_wait s p).
  assert (tally g (procs st) = tally (f_held s) (procs st) - tally (f_wait s) (procs st)) as Hg.
  { generalize (procs st). induction l as [|p' l IH]; simpl; [done|]. unfold g at 1. lia. }
  assert (∀ p, p ∈ procs st → 0 ≤ g p) as Hnn.
  { intros p' Hp'. unfold g, f_held, f_wait, inside. destruct (Hc p' Hp') as [_ Hb].
    case_bool_decide; case_bool_decide; try lia. naive_solver. }
  assert (∀ p, holds s (p_code p) = Some true → blocked_on p ≠ Some s → g p = 1) as H1.
  { intros p' ? ?. unfold g, f_held, f_wait, inside.
    by rewrite bool_decide_eq_true_2, bool_decide_eq_false_2. }
  pose proof (tally_two g _ i j p q Hnn Hij Hi Hj) as H2. rewrite !H1 in H2 by done. lia.
Qed.

(** ** Circular waiting is permanent

    A process that holds [s] and sleeps on [t], and one that holds [t] and
    sleeps on [s], sleep forever: only they could wake each other. *)
Record circular (s t i j : nat) (p q : proc ev) st : Prop := {
  cw_queues : queues_ok st; cw_s : lock_ok s st; cw_t : lock_ok t st;
  cw_i : procs st !! i = Some p; cw_j : procs st !! j = Some q;
  cw_p : holds s (p_code p) = Some true ∧ blocked_on p = Some t;
  cw_q : holds t (p_code q) = Some true ∧ blocked_on q = Some s }.

Lemma circular_step s t i j p q u st st' :
  s ≠ t → circular s t i j p q st → xstep u st st' → circular s t i j p q st'.
Proof.
  intros Hst [Hq Hs Ht Hi Hj [Hp1 Hp2] [Hq1 Hq2]] Hx.
  assert (∀ c, procs st !! u = Some (mkproc c None) → u ≠ i ∧ u ≠ j) as Hu.
  { intros c Hc. split; intros ->; simplify_eq/=; congruence. }
  assert (∀ r k x w l, procs st !! u = Some (mkproc (DO (UP r) k) None) →
    sems st !! r = Some x → q_queue x = w :: l → w ≠ i ∧ w ≠ j) as Hwake.
  { intros r k x w l Hc Hr Hl. destruct (Hq r x Hr) as (_ & _ & Hw).
    destruct (Hw w) as (pw & Hpw & Hbw); [rewrite Hl; by left|].
    assert (∀ z, z = r → lock_ok z st → holder z (mkproc (DO (UP r) k) None)) as Hh.
    { intros z -> [Hc' _]. split; [|done]. apply (held_up r k), (Hc' (mkproc (DO (UP r) k) None)).
      by eapply list_elem_of_lookup_2. }
    destruct (Hu _ Hc) as [Hui Huj]. split; intros ->; simplify_eq.
    - apply Huj. eapply (mutual_exclusion t); [done|done|exact Hc|exact Hj| |split; [done|congruence]].
      apply Hh; [congruence|done].
    - apply Hui. eapply (mutual_exclusion s); [done|done|exact Hc|exact Hi| |split; [done|congruence]].
      apply Hh; [congruence|done]. }
  assert (∀ v, v = i ∨ v = j → procs st' !! v = procs st !! v) as Hkeep.
  { intros v Hv. destruct Hx as [t' a b Hp|t' k x Hp Hs' Hv'|t' k x Hp Hs' Hv'|t' k x Hp Hs' Hv'|
      t' k x w l Hp Hs' Hv' Hqu|e k Hp|n k Hp|d z k Hp|d z k Hp];
      destruct (Hu _ Hp) as [Hui Huj]; simpl;
      try (by rewrite list_lookup_insert_ne by (intros ->; naive_solver)).
    destruct (Hwake _ _ _ _ _ Hp Hs' Hqu) as [Hwi Hwj].
    rewrite list_lookup_alter_ne by (intros ->; naive_solver).
    by rewrite list_lookup_insert_ne by (intros ->; naive_solver). }
  split; [by eapply queues_step|by eapply lock_step|by eapply lock_step| | |done|done].
  - rewrite Hkeep by auto. done.
  - rewrite Hkeep by auto. done.
Qed.

Lemma circular_forever s t i j p q st st' :
  s ≠ t → circular s t i j p q st → reachable st st' → circular s t i j p q st'.
Proof. intros Hst Hc. apply reachable_ind; [done|]. intros. by eapply circular_step. Qed.

(** ** Counters *)

(** What the code still adds to counter [c]; [None] if that depends on the
    path or the counter is assigned. *)
Fixpoint net (c : nat) (k : code ev) : option Z :=
  match k with
  | END => Some 0
  | DO (ADD d z) k => if bool_decide (d = c) then (λ n, n + z) <$> net c k else net c k
  | DO (SET d _) k => if bool_decide (d = c) then None else net c k
  | DO _ k => net c k
  | IF _ a b => if bool_decide (net c a = net c b) then net c a else None
  end.

Definition f_net (c : nat) p : Z := default 0 (net c (p_code p)).
Record counter_ok (c : nat) (total : Z) st : Prop := {
  ct_code : ∀ p, p ∈ procs st → net c (p_code p) ≠ None;
  ct_len : (c < length (mem st))%nat;
  ct_sum : mem st !!! c + tally (f_net c) (procs st) = total }.

(** Waking a process leaves its code alone. *)
Lemma tally_wake c j (l : list (proc ev)) : tally (f_net c) (alter unblock j l) = tally (f_net c) l.
Proof.
  revert j. induction l as [|p l IH]; intros [|j]; [done|done|done|].
  change (f_net c p + tally (f_net c) (alter unblock j l) = f_net c p + tally (f_net c) l).
  by rewrite IH.
Qed.

Lemma counter_frame c total st i p k b sms m o :
  counter_ok c total st → procs st !! i = Some p → net c k ≠ None →
  (c < length m)%nat → m !!! c + f_net c (mkproc k b) = mem st !!! c + f_net c p →
  counter_ok c total (mksys sms m (<[i := mkproc k b]> (procs st)) o).
Proof.
  intros [Hc Hl Hs] Hi Hk Hm E. split; simpl.
  - intros p' [->|Hp']%elem_of_insert_inv; [done|by apply Hc].
  - done.
  - rewrite (tally_insert _ _ _ _ _ Hi). lia.
Qed.

Lemma counter_step c total i st st' : counter_ok c total st → xstep i st st' → counter_ok c total st'.
Proof.
  intros Hct Hx. pose proof Hct as [Hc Hl Hs].
  assert (∀ p, procs st !! i = Some p → net c (p_code p) ≠ None) as Hnone.
  { intros p Hp. by apply Hc, (list_elem_of_lookup_2 _ i). }
  destruct Hx as [t a b Hp|t k x Hp Hs' Hv|t k x Hp Hs' Hv|t k x Hp Hs' Hv|
    t k x j q Hp Hs' Hv Hqu|e k Hp|n k Hp|d z k Hp|d z k Hp];
    pose proof (Hnone _ Hp) as Hn; simpl in Hn;
    try (by eapply counter_frame; [exact Hct|exact Hp|..]).
  - assert (net c (if eval_test t (mem st) then a else b) = net c (IF t a b)) as E.
    { simpl. case_bool_decide as E; [|done]. by destruct (eval_test t (mem st)). }
    eapply counter_frame; [exact Hct|exact Hp|by rewrite E|done|]. unfold f_net. cbn [p_code].
    by rewrite E.
  - destruct (counter_frame c total st i _ k None (<[t:=mkq (q_value x + 1) q]> (sems st)) (mem st) (out st)
      Hct Hp Hn Hl eq_refl) as [Hc' Hl' Hs'']. split; simpl in *; [|done|by rewrite tally_wake].
    intros p' [Hp'|(y & Hy & ->)]%elem_of_alter_inv; [by apply Hc'|]. simpl.
    apply Hc'. by eapply list_elem_of_lookup_2.
  - destruct (decide (d = c)) as [->|Hdc].
    + rewrite bool_decide_eq_true_2 in Hn by done.
      destruct (net c k) as [v|] eqn:Ek; [|done].
      eapply counter_frame; [exact Hct|exact Hp|by rewrite Ek|by rewrite length_insert|].
      rewrite list_lookup_total_insert_eq by done. unfold f_net. simpl.
      rewrite bool_decide_eq_true_2 by done. rewrite Ek. simpl. lia.
    + rewrite bool_decide_eq_false_2 in Hn by done.
      eapply counter_frame; [exact Hct|exact Hp|done|by rewrite length_insert|].
      rewrite list_lookup_total_insert_ne by done. unfold f_net. simpl.
      by rewrite bool_decide_eq_false_2.
  - destruct (decide (d = c)) as [->|Hdc].
    + by rewrite bool_decide_eq_true_2 in Hn.
    + rewrite bool_decide_eq_false_2 in Hn by done.
      eapply counter_frame; [exact Hct|exact Hp|done|by rewrite length_insert|].
      rewrite list_lookup_total_insert_ne by done. unfold f_net. simpl.
      by rewrite bool_decide_eq_false_2.
Qed.

Lemma counter_reachable c vals m (ps : list (code ev)) st :
  (c < length m)%nat → Forall (λ k, net c k = Some 0) ps →
  reachable (start vals m ps) st → counter_ok c (m !!! c) st.
Proof.
  intros Hl Hps. rewrite Forall_forall in Hps. apply reachable_ind; [|intros; by eapply counter_step].
  split; simpl.
  - intros p (k & -> & Hk)%list_elem_of_fmap. simpl. by rewrite Hps.
  - done.
  - rewrite tally_map, tally_zero; [lia|]. intros k Hk. unfold f_net. simpl. by rewrite Hps.
Qed.

(** ** Code properties closed under execution *)
Definition code_closed (P : code ev → Prop) : Prop :=
  (∀ a k, P (DO a k) → P k) ∧ (∀ t a b, P (IF t a b) → P a ∧ P b).

Lemma code_reachable P vals m (ps : list (code ev)) st :
  code_closed P → Forall P ps → reachable (start vals m ps) st →
  ∀ p, p ∈ procs st → P (p_code p).
Proof.
  intros [Hdo Hif] Hps. rewrite Forall_forall in Hps.
  apply (reachable_ind (λ st, ∀ p, p ∈ procs st → P (p_code p))).
  { intros p (k & -> & Hk)%list_elem_of_fmap. by apply Hps. }
  intros i st1 st2 HP Hx.
  assert (∀ k b, P k → ∀ p, p ∈ <[i := mkproc k b]> (procs st1) → P (p_code p)) as Hins.
  { intros k b Hk p [->|Hp]%elem_of_insert_inv; [done|by apply HP]. }
  assert (∀ c, procs st1 !! i = Some (mkproc c None) → P c) as Hi.
  { intros c Hc. by apply (HP (mkproc c None)), (list_elem_of_lookup_2 _ i). }
  destruct Hx as [t a b Hp|t k x Hp Hs' Hv|t k x Hp Hs' Hv|t k x Hp Hs' Hv|
    t k x j q Hp Hs' Hv Hqu|e k Hp|n k Hp|d z k Hp|d z k Hp];
    pose proof (Hi _ Hp) as HPi; simpl; try (by eapply Hins, Hdo).
  - apply Hins. apply Hif in HPi as [? ?]. by destruct (eval_test t (mem st1)).
  - intros p [Hp'|(y & Hy & ->)]%elem_of_alter_inv; [by eapply Hins; [eapply Hdo|]|]. simpl.
    eapply Hins; [by eapply Hdo|]. by eapply list_elem_of_lookup_2.
Qed.

(** ** Races

    Code whose every access to a counter happens inside the section of [s]. *)
Definition accesses (c : code ev) : bool :=
  match c with DO (ADD _ _) _ | DO (SET _ _) _ | IF _ _ _ => true | _ => false end.
Fixpoint guarded (s : nat) (c : code ev) : bool :=
  (negb (accesses c) || bool_decide (holds s c = Some true)) &&
  match c with
  | END => true
  | DO _ k => guarded s k
  | IF _ a b => guarded s a && guarded s b
  end.

Lemma guarded_closed s : code_closed (λ c, guarded s c = true).
Proof.
  split.
  - intros a k H. simpl in H. by apply andb_prop in H as [_ ?].
  - intros t a b H. simpl in H. apply andb_prop in H as [_ H]. by apply andb_prop in H.
Qed.

Lemma race_freedom s vals m (ps : list (code ev)) st i j c c' :
  Forall (λ v, 0 ≤ v) vals → vals !! s = Some 1 → Forall (brackets s) ps →
  Forall (λ c, guarded s c = true) ps → reachable (start vals m ps) st →
  procs st !! i = Some (mkproc c None) → procs st !! j = Some (mkproc c' None) →
  accesses c = true → accesses c' = true → i = j.
Proof.
  intros Hpos Hv Hb Hg Hr Hi Hj Ha Ha'.
  destruct (lock_reachable s vals m ps st Hpos Hv Hb Hr) as [Hq Hl].
  assert (∀ c, guarded s c = true → accesses c = true → holds s c = Some true) as Hh.
  { intros d Hd Had. destruct d as [|[]|]; simpl in Had; try done; simpl in Hd;
      apply andb_prop in Hd as [Hd _]; by apply bool_decide_eq_true in Hd. }
  eapply (mutual_exclusion s); [done|done|exact Hi|exact Hj|split; [|done]|split; [|done]].
  - apply Hh; [|done].
    apply (code_reachable _ vals m ps st (guarded_closed s) Hg Hr (mkproc c None)).
    by eapply list_elem_of_lookup_2.
  - apply Hh; [|done].
    apply (code_reachable _ vals m ps st (guarded_closed s) Hg Hr (mkproc c' None)).
    by eapply list_elem_of_lookup_2.
Qed.
End facts.

(** ** Exhaustive exploration *)
Section explore.
Context {ev : Type} `{EqDecision ev}.

Definition succs (st : sys qsem ev) : list (sys qsem ev) :=
  omap (λ i, exec i st) (seq 0 (length (procs st))).

(** All states reachable from [todo], in addition to [seen]; [fuel] bounds the
    number of states handled. *)
Fixpoint explore (fuel : nat) (todo seen : list (sys qsem ev)) : option (list (sys qsem ev)) :=
  match todo with
  | [] => Some seen
  | st :: todo =>
    match fuel with
    | O => None
    | S fuel =>
      if bool_decide (st ∈ seen) then explore fuel todo seen
      else explore fuel (succs st ++ todo) (st :: seen)
    end
  end.

Lemma succs_step st st' : step st st' → st' ∈ succs st.
Proof.
  intros [i Hi]. unfold succs. apply list_elem_of_omap. exists i. split; [|done].
  apply elem_of_seq. split; [lia|]. unfold exec in Hi.
  destruct (procs st !! i) eqn:E; [|done]. apply lookup_lt_Some in E. lia.
Qed.

Lemma explore_closed fuel todo seen res :
  explore fuel todo seen = Some res →
  (∀ st, st ∈ seen → ∀ st', step st st' → st' ∈ seen ∨ st' ∈ todo) →
  (∀ st, st ∈ seen ∨ st ∈ todo → st ∈ res) ∧ (∀ st, st ∈ res → ∀ st', step st st' → st' ∈ res).
Proof.
  revert todo seen. induction fuel as [|fuel IH]; intros [|st todo] seen He Hinv; simpl in He;
    simplify_eq;
    try (by split; [intros st [?|?%elem_of_nil]|intros st Hst st' Hs;
      destruct (Hinv st Hst st' Hs) as [?|?%elem_of_nil]]).
  - case_bool_decide as Hin.
    + apply IH in He as [H1 H2].
      * split; [|done]. intros u [Hu|[->|Hu]%elem_of_cons]; apply H1; auto.
      * intros u Hu u' Hs. destruct (Hinv u Hu u' Hs) as [?|[->|?]%elem_of_cons]; auto.
    + apply IH in He as [H1 H2].
      * split; [|done]. intros u [Hu|[->|Hu]%elem_of_cons]; apply H1.
        { left. by right. } { left. by left. } { right. apply elem_of_app. auto. }
      * intros u [->|Hu]%elem_of_cons u' Hs.
        { right. apply elem_of_app. left. by apply succs_step. }
        destruct (Hinv u Hu u' Hs) as [?|[->|?]%elem_of_cons].
        { left. by right. } { left. by left. } { right. apply elem_of_app. auto. }
Qed.

(** What holds in all explored states holds in all reachable states. *)
Lemma explore_sound fuel st0 P st :
  (if explore fuel [st0] [] is Some l then forallb P l else false) = true →
  reachable st0 st → P st = true.
Proof.
  destruct (explore fuel [st0] []) as [l|] eqn:E; [|done]. intros HP Hr.
  destruct (explore_closed _ _ _ _ E) as [H1 H2]; [by intros ? ?%elem_of_nil|].
  assert (st ∈ l) as Hin.
  { assert (st0 ∈ l) as H0 by (apply H1; right; by left).
    clear -H2 Hr H0. induction Hr; [done|]. apply IHHr. by eapply H2. }
  rewrite forallb_forall in HP. apply HP. by apply list_elem_of_In.
Qed.
End explore.

(** ** Termination: every step shortens the code of one process *)
Fixpoint size {ev} (c : code ev) : nat :=
  match c with
  | END => 0
  | DO _ k => S (size k)
  | IF _ a b => S (Nat.max (size a) (size b))
  end.
Definition work {ev} (l : list (proc ev)) : Z := tally (λ p, Z.of_nat (size (p_code p))) l.

Lemma work_step {ev} i (st st' : sys qsem ev) : xstep i st st' → work (procs st') < work (procs st).
Proof.
  intros Hx. destruct Hx as [t a b Hp|t k x Hp Hs' Hv|t k x Hp Hs' Hv|t k x Hp Hs' Hv|
    t k x j q Hp Hs' Hv Hqu|e k Hp|n k Hp|d z k Hp|d z k Hp]; unfold work; cbn [procs].
  5:{ assert (∀ l : list (proc ev), tally (λ p, Z.of_nat (size (p_code p))) (alter unblock j l)
        = tally (λ p, Z.of_nat (size (p_code p))) l) as ->.
      { intros l. clear. revert j. induction l as [|p l IH]; intros [|j]; [done..|].
        change (Z.of_nat (size (p_code p)) + tally (λ p, Z.of_nat (size (p_code p))) (alter unblock j l)
          = Z.of_nat (size (p_code p)) + tally (λ p, Z.of_nat (size (p_code p))) l). by rewrite IH. }
      rewrite (tally_insert _ _ _ _ _ Hp). cbn [p_code size]. lia. }
  all: rewrite (tally_insert _ _ _ _ _ Hp); cbn [p_code size]; try lia.
  destruct (eval_test t (mem st)); lia.
Qed.

Lemma work_nonneg {ev} (l : list (proc ev)) : 0 ≤ work l.
Proof. apply tally_nonneg. lia. Qed.

(** ** From the reference semaphore to any implementation *)
Section transfer.
Context {sem ev : Type} `{Hsem : Semaphore sem}.
Context (vals m : list Z) (ps : list (code ev)).

Lemma reachable_start (st : sys sem ev) :
  reachable (start vals m ps) st → reachable (start vals m ps) (sys_view st).
Proof. intros H. apply reachable_view in H. by rewrite start_view in H. Qed.

Lemma run_start sched q :
  run sched (start vals m ps) = Some q →
  ∃ st : sys sem ev, run sched (start vals m ps) = Some st ∧ sys_view st = q.
Proof.
  intros H. pose proof (run_view sched (start vals m ps : sys sem ev)) as E.
  rewrite start_view, H in E. destruct (run sched (start vals m ps : sys sem ev)) as [st|]; [|done].
  exists st. split; [done|]. by injection E.
Qed.

(** A schedule that ends in a state satisfying [P], run on the reference
    semaphore, runs on every implementation. *)
Lemma run_check sched (P : sys qsem ev → bool) :
  (if run sched (start vals m ps) is Some q then P q else false) = true →
  ∃ st : sys sem ev, reachable (start vals m ps) st ∧ P (sys_view st) = true.
Proof.
  destruct (run sched (start vals m ps)) as [q|] eqn:E; [|done]. intros HP.
  destruct (run_start _ _ E) as (st & Hr & <-). exists st. split; [by eapply run_reachable|done].
Qed.

(** Every run is finite, and a run that cannot be continued has finished or is
    deadlocked. *)
Lemma runs_finite (st : sys sem ev) n :
  nsteps step n (start vals m ps) st → Z.of_nat n ≤ tally (λ c, Z.of_nat (size c)) ps.
Proof.
  assert (∀ st0, nsteps step n st0 st → Z.of_nat n ≤ work (procs st0)) as H.
  { intros st0 H. induction H as [st0|n st1 st2 st3 [i Hi] _ IH].
    - pose proof (work_nonneg (procs st0)). lia.
    - assert (work (procs st2) < work (procs st1)); [|lia].
      assert (exec i (sys_view st1) = Some (sys_view st2)) as Hv by (by rewrite exec_view, Hi).
      by apply exec_xstep, work_step in Hv. }
  intros Hn. apply H in Hn. unfold work in Hn. simpl in Hn. by rewrite tally_map in Hn.
Qed.
End transfer.
