(* ===== verification/Trafficsim.v ===== *)
(** * The semaphore test programs

    Models [src/proj1_test/trafficsim.c], [trafficsim-strict-order.c] and
    [trafficsim-mutex.c]: the three processes each of them forks, over any
    semaphore that meets the interface of [Sem].  [sleep] delays a process but
    promises nothing about the others, so it is a step like any other; the final
    [wait] calls of the parent touch no shared state and are left out. *)
From stdpp Require Import base numbers list relations.
From S2P Require Import Prelude Sem SemFacts.
#[local] Open Scope Z_scope.
#[local] Open Scope code_scope.

(** The three lines of the ordering tests. *)
Inductive line := LFirst | LSecond | LLast.
#[export] Instance line_eq : EqDecision line.
Proof. solve_decision. Defined.

(** ** trafficsim.c: one semaphore, ordered by sleeping *)
Module Plain.
Definition sem : nat := 0.
Definition child1 : code line := DOWN sem ;> PRINT LSecond ;> END.
Definition child2 : code line := SLEEP 1 ;> DOWN sem ;> PRINT LLast ;> END.
Definition parent : code line :=
  SLEEP 3 ;> PRINT LFirst ;> UP sem ;> SLEEP 1 ;> UP sem ;> END.
Definition main {S} `{Semaphore S} : sys S line := start [0] [] [parent; child1; child2].
End Plain.

(** ** trafficsim-strict-order.c: a second semaphore orders the children *)
Module Strict.
Definition sem : nat := 0.
Definition nextsem : nat := 1.
Definition child1 : code line := DOWN sem ;> PRINT LSecond ;> UP nextsem ;> END.
Definition child2 : code line := DOWN nextsem ;> PRINT LLast ;> END.
Definition parent : code line := PRINT LFirst ;> UP sem ;> END.
Definition main {S} `{Semaphore S} : sys S line := start [0; 0] [] [parent; child1; child2].
End Strict.

(** ** trafficsim-mutex.c: a critical section *)
Module Mutex.
Inductive who := Child1 | Child2 | Parent.
Inductive entry := Entering (w : who) (i : Z) | Exiting (w : who) (i j : Z).

Definition LOOPS1 : Z := 1.
Definition LOOPS2 : Z := 1.
Definition sem : nat := 0.

(** [for (i=0; i < LOOPS2; i++) { down(sem); ... up(sem); }]; the inner loop
    only computes on the process's own [m] and leaves [j] at [LOOPS1]. *)
Fixpoint loop (w : who) (i : Z) (n : nat) : code entry :=
  match n with
  | O => END
  | S n =>
    DOWN sem ;> PRINT (Entering w i) ;> PRINT (Exiting w i LOOPS1) ;> UP sem ;> loop w (i + 1) n
  end.
Definition body (w : who) : code entry := loop w 0 (Z.to_nat LOOPS2).
Definition main {S} `{Semaphore S} : sys S entry :=
  start [1] [] [body Parent; body Child1; body Child2].
End Mutex.

#[export] Instance who_eq : EqDecision Mutex.who.
Proof. solve_decision. Defined.
#[export] Instance entry_eq : EqDecision Mutex.entry.
Proof. solve_decision. Defined.

(** ** Properties *)

(** The critical sections do not interleave in the output. *)
Fixpoint sections (tr : list Mutex.entry) : bool :=
  match tr with
  | [] => true
  | [Mutex.Entering _ _] => true
  | Mutex.Entering w i :: Mutex.Exiting w' i' _ :: tr =>
    bool_decide (w = w') && bool_decide (i = i') && sections tr
  | _ => false
  end.

Definition order : list line := [LFirst; LSecond; LLast].

Definition strict_good (q : sys qsem line) : bool :=
  bool_decide (out q = take (length (out q)) order) && negb (deadlocked q) &&
  (negb (finished q) || bool_decide (out q = order)).
Lemma strict_explored :
  (if explore 200 [Strict.main] [] is Some l then forallb strict_good l else false) = true.
Proof. vm_compute. reflexivity. Qed.

(** C7: in [trafficsim-strict-order] the output is, in every interleaving and
    with every semaphore implementation that meets the interface, a prefix of
    first, second, last; no reachable state is deadlocked, every run is finite,
    and when the processes have ended all three lines are there. *)
Theorem strict_order_prints_in_order {S} `{Semaphore S} (st : sys S line) :
  reachable Strict.main st →
  (∃ rest, order = out st ++ rest) ∧ deadlocked st = false ∧
  (finished st = true → out st = order) ∧
  (∀ n st', nsteps step n (Strict.main (S := S)) st' → Z.of_nat n ≤ 7).
Proof.
  intros Hr. apply reachable_start in Hr.
  pose proof (explore_sound 200 Strict.main strict_good _ strict_explored Hr) as HP.
  apply andb_prop in HP as [HP H3]. apply andb_prop in HP as [H1 H2].
  rewrite deadlocked_view in H2. rewrite finished_view in H3. simpl in H1, H3.
  apply bool_decide_eq_true in H1. split_and!.
  - exists (drop (length (out st)) order). rewrite H1 at 1. by rewrite take_drop.
  - by destruct (deadlocked st).
  - intros Hf. rewrite Hf in H3. by apply bool_decide_eq_true in H3.
  - intros n st' Hn. by apply runs_finite in Hn.
Qed.

Lemma strict_order_prints_in_order_witness :
  (∃ rest, order = out (Strict.main (S := qsem)) ++ rest) ∧
  deadlocked (Strict.main (S := qsem)) = false ∧
  (finished (Strict.main (S := qsem)) = true → out (Strict.main (S := qsem)) = order) ∧
  (∀ n st', nsteps step n (Strict.main (S := qsem)) st' → Z.of_nat n ≤ 7).
Proof. apply (strict_order_prints_in_order (Strict.main (S := qsem))). apply rtc_refl. Defined.

Definition mutex_good (q : sys qsem Mutex.entry) : bool := sections (out q) && negb (deadlocked q).
Lemma mutex_explored :
  (if explore 5000 [Mutex.main] [] is Some l then forallb mutex_good l else false) = true.
Proof. vm_compute. reflexivity. Qed.

(** In [trafficsim-mutex] an Entering line is always directly followed by
    the Exiting line of the same process and iteration, in every interleaving
    and for every semaphore implementation; no reachable state is deadlocked. *)
Theorem mutex_sections_do_not_interleave {S} `{Semaphore S} (st : sys S Mutex.entry) :
  reachable Mutex.main st → sections (out st) = true ∧ deadlocked st = false.
Proof.
  intros Hr. apply reachable_start in Hr.
  pose proof (explore_sound 5000 Mutex.main mutex_good _ mutex_explored Hr) as HP.
  apply andb_prop in HP as [H1 H2]. rewrite deadlocked_view in H2. split; [done|].
  by destruct (deadlocked st).
Qed.

Lemma mutex_sections_do_not_interleave_witness :
  sections (out (Mutex.main (S := qsem))) = true ∧ deadlocked (Mutex.main (S := qsem)) = false.
Proof. apply (mutex_sections_do_not_interleave (Mutex.main (S := qsem))). apply rtc_refl. Defined.

Definition plain_good (q : sys qsem line) : bool :=
  bool_decide (head (out q) ≠ Some LSecond) && bool_decide (head (out q) ≠ Some LLast) &&
  negb (deadlocked q).
Lemma plain_explored :
  (if explore 500 [Plain.main] [] is Some l then forallb plain_good l else false) = true.
Proof. vm_compute. reflexivity. Qed.

(** Both children are past their sleeps, the second one reaches [down] first. *)
Definition plain_bad (q : sys qsem line) : bool :=
  finished q && bool_decide (out q = [LFirst; LLast; LSecond]).
Lemma plain_bad_run :
  (if run [2; 2; 1; 0; 0; 0; 0; 0; 2; 1]%nat (start [0] [] [Plain.parent; Plain.child1; Plain.child2])
   is Some q then plain_bad q else false) = true.
Proof. vm_compute. reflexivity. Qed.

(** In [trafficsim] the first line is always printed first and no reachable
    state is deadlocked, but the order of the other two depends on the sleeps:
    there is a complete run, with every semaphore implementation, that prints
    the last line before the second. *)
Theorem plain_order_depends_on_sleep {S} `{Semaphore S} :
  (∀ st : sys S line, reachable Plain.main st →
     head (out st) ≠ Some LSecond ∧ head (out st) ≠ Some LLast ∧ deadlocked st = false) ∧
  (∃ st : sys S line, reachable Plain.main st ∧ finished st = true ∧
     out st = [LFirst; LLast; LSecond]).
Proof.
  split.
  - intros st Hr. apply reachable_start in Hr.
    pose proof (explore_sound 500 Plain.main plain_good _ plain_explored Hr) as HP.
    apply andb_prop in HP as [HP H3]. apply andb_prop in HP as [H1 H2].
    rewrite deadlocked_view in H3. apply bool_decide_eq_true in H1, H2.
    split_and!; [done|done|]. by destruct (deadlocked st).
  - destruct (run_check (sem := S) [0] [] [Plain.parent; Plain.child1; Plain.child2] [2; 2; 1; 0; 0; 0; 0; 0; 2; 1]%nat plain_bad plain_bad_run) as (st & Hr & HP).
    apply andb_prop in HP as [H1 H2]. apply bool_decide_eq_true in H2. by exists st.
Qed.

Lemma plain_order_depends_on_sleep_witness :
  ∃ st : sys qsem line, reachable Plain.main st ∧ finished st = true ∧ out st = [LFirst; LLast; LSecond].
Proof. apply (proj2 (plain_order_depends_on_sleep (S := qsem))). Defined.
