(* ===== verification/Aptsim.v ===== *)
(** * The apartment simulation

    Models [src/proj2/aptsim.c]: agents and tenants as processes over seven
    semaphores and two shared counters, one definition per C function, each
    taking the code that follows it.  Process creation is modelled by the set of
    processes it creates: the creators only fork and sleep, and a created process
    may be delayed arbitrarily.  [loadArguments] is modelled on the argument
    vector. *)
From stdpp Require Import base numbers list relations strings.
From S2P Require Import Prelude Sem SemFacts.
#[local] Open Scope Z_scope.
#[local] Open Scope code_scope.

(** ** Shared data *)
Definition MAX_TENANTS_PER_AGENT : Z := 10.

Definition mutex : nat := 0.
Definition waiting_for_agent : nat := 1.
Definition tenant_arrived : nat := 2.
Definition agent_arrived : nat := 3.
Definition apt_lock : nat := 4.
Definition tenants_leave : nat := 5.
Definition agent_apt_lock : nat := 6.

Definition current_agent_tenants : nat := 0.
Definition tenants_in_apt : nat := 1.

(** Initial semaphore values and counters. *)
Definition init_sems : list Z := [1; 0; 0; 0; 0; 0; 1].
Definition init_counters : list Z := [0; 0].

Inductive event :=
| AgentArrives (id : Z) | AgentOpens (id : Z) | AgentLeaves (id : Z) | AptEmpty
| TenantArrives (id : Z) | TenantInspects (id : Z) | TenantLeaves (id : Z).
#[export] Instance event_eq : EqDecision event.
Proof. solve_decision. Defined.

(** ** Agents *)
Definition agentArrives (agent_id : Z) (k : code event) : code event :=
  PRINT (AgentArrives agent_id) ;>
  DOWN mutex ;>
  let rest :=
    (UP mutex ;>
     UP agent_arrived ;>
     DOWN tenant_arrived ;>
     k) in
  if bool_decide (agent_id ≠ 0) then
    (UP mutex ;>
     DOWN agent_apt_lock ;>
     DOWN mutex ;>
     UP waiting_for_agent ;>
     rest)
  else
    (DOWN agent_apt_lock ;>
     rest).

Definition openApt (agent_id : Z) (k : code event) : code event :=
  PRINT (AgentOpens agent_id) ;>
  UP apt_lock ;>
  k.

Definition agentLeaves (agent_id : Z) (k : code event) : code event :=
  DOWN tenants_leave ;>
  DOWN mutex ;>
  PRINT (AgentLeaves agent_id) ;>
  PRINT AptEmpty ;>
  UP agent_apt_lock ;>
  SET current_agent_tenants 0 ;>
  UP mutex ;>
  k.

(** ** Tenants *)
Definition tenantArrives (tenant_id : Z) (k : code event) : code event :=
  PRINT (TenantArrives tenant_id) ;>
  DOWN mutex ;>
  let rest :=
    (ADD tenants_in_apt 1 ;>
     let rest' :=
       (UP mutex ;>
        DOWN agent_arrived ;>
        DOWN mutex ;>
        UP agent_arrived ;>
        UP mutex ;>
        k) in
     IF (TEq current_agent_tenants 1) (UP tenant_arrived ;> rest') rest') in
  IF (TGe current_agent_tenants MAX_TENANTS_PER_AGENT)
    (UP mutex ;>
     DOWN waiting_for_agent ;>
     DOWN mutex ;>
     ADD current_agent_tenants 1 ;>
     IF (TLt current_agent_tenants MAX_TENANTS_PER_AGENT) (UP waiting_for_agent ;> rest) rest)
    (ADD current_agent_tenants 1 ;> rest).

Definition viewApt (tenant_id : Z) (k : code event) : code event :=
  DOWN apt_lock ;>
  PRINT (TenantInspects tenant_id) ;>
  UP apt_lock ;>
  SLEEP 2 ;>
  k.

Definition tenantLeaves (tenant_id : Z) (k : code event) : code event :=
  DOWN mutex ;>
  ADD tenants_in_apt (-1) ;>
  PRINT (TenantLeaves tenant_id) ;>
  IF (TEq tenants_in_apt 0)
    (SET current_agent_tenants MAX_TENANTS_PER_AGENT ;>
     UP tenants_leave ;>
     UP mutex ;>
     DOWN agent_arrived ;>
     DOWN apt_lock ;>
     k)
    (UP mutex ;>
     k).

(** ** Processes *)
Definition agentProcess (agent_id : Z) : code event :=
  agentArrives agent_id (openApt agent_id (agentLeaves agent_id END)).
Definition tenantProcess (tenant_id : Z) : code event :=
  tenantArrives tenant_id (viewApt tenant_id (tenantLeaves tenant_id END)).

(** [for(i=0; i<total; i++) ... if(fork() == 0) { id = i; process(); }] *)
Definition ids (total : Z) : list Z := map Z.of_nat (seq 0 (Z.to_nat total)).
Definition startAgentCreation (total_agents : Z) : list (code event) := map agentProcess (ids total_agents).
Definition startTenantCreation (total_tenants : Z) : list (code event) :=
  map tenantProcess (ids total_tenants).

(** Agents first, then tenants. *)
Definition initSharedVariables {S} `{Semaphore S} (ps : list (code event)) : sys S event :=
  start init_sems init_counters ps.
Definition apartment {S} `{Semaphore S} (total_agents total_tenants : Z) : sys S event :=
  initSharedVariables (startAgentCreation total_agents ++ startTenantCreation total_tenants).

(** [rand() % 100], compared with the probability given. *)
Definition shouldDelay (rand probability : Z) : bool := bool_decide (Z.rem rand 100 > probability).

(** ** Command line *)
Record cli_args : Type := mkargs {
  total_tenants : Z; total_agents : Z; p_tenant_follows : Z;
  delay_tenant : Z; p_agent_follows : Z; delay_agent : Z }.
Definition default_args : cli_args := mkargs 1 1 100 0 100 0.

Definition code_of (c : Ascii.ascii) : Z := Z.of_N (Ascii.N_of_ascii c).
Definition is_digit (c : Ascii.ascii) : bool := bool_decide (48 ≤ code_of c ≤ 57).
Definition is_space (c : Ascii.ascii) : bool := bool_decide (code_of c = 32 ∨ 9 ≤ code_of c ≤ 13).

Fixpoint digits (s : string) (acc : Z) : Z :=
  match s with
  | String c s => if is_digit c then digits s (10 * acc + (code_of c - 48)) else acc
  | EmptyString => acc
  end.
Fixpoint skip_spaces (s : string) : string :=
  match s with String c s' => if is_space c then skip_spaces s' else s | EmptyString => s end.

(** [atoi]: optional space and sign, then digits; a value that is not an [int]
    is undefined behaviour. *)
Definition atoi (s : string) : res Z :=
  let v := match skip_spaces s with
           | String c s' =>
             if bool_decide (code_of c = 45) then - digits s' 0
             else if bool_decide (code_of c = 43) then digits s' 0
             else digits (String c s') 0
           | EmptyString => 0
           end in
  if bool_decide (- 2^31 ≤ v < 2^31) then Ok v else Fault Undefined.

(** One option of the chain of [strcmp] tests; [None] for an unknown one. *)
Definition set_arg (flag : string) (value : Z) (a : cli_args) : option cli_args :=
  if bool_decide (flag = "-m"%string) then
    Some (mkargs value (total_agents a) (p_tenant_follows a) (delay_tenant a) (p_agent_follows a) (delay_agent a))
  else if bool_decide (flag = "-k"%string) then
    Some (mkargs (total_tenants a) value (p_tenant_follows a) (delay_tenant a) (p_agent_follows a) (delay_agent a))
  else if bool_decide (flag = "-pt"%string) then
    Some (mkargs (total_tenants a) (total_agents a) value (delay_tenant a) (p_agent_follows a) (delay_agent a))
  else if bool_decide (flag = "-dt"%string) then
    Some (mkargs (total_tenants a) (total_agents a) (p_tenant_follows a) value (p_agent_follows a) (delay_agent a))
  else if bool_decide (flag = "-pa"%string) then
    Some (mkargs (total_tenants a) (total_agents a) (p_tenant_follows a) (delay_tenant a) value (delay_agent a))
  else if bool_decide (flag = "-da"%string) then
    Some (mkargs (total_tenants a) (total_agents a) (p_tenant_follows a) (delay_tenant a) (p_agent_follows a) value)
  else None.

Definition starts_with_dash (s : string) : bool :=
  match s with String c _ => bool_decide (code_of c = 45) | EmptyString => false end.

(** The result of [loadArguments]: -1 on the two error returns; the function
    falls off its end otherwise and its value is indeterminate ([None]). *)
Fixpoint load_loop (argv : list string) (a : cli_args) : res (option Z * cli_args) :=
  match argv with
  | [] => Ok (None, a)
  | arg :: rest =>
    if starts_with_dash arg then
      next ← of_option (head rest);
      value ← atoi next;
      match set_arg arg value a with
      | Some a' => load_loop rest a'
      | None => Ok (Some (-1), a)
      end
    else load_loop rest a
  end.

(** [argv] without the program's name. *)
Definition loadArguments (argc : Z) (argv : list string) : res (option Z * cli_args) :=
  if bool_decide (argc ≠ 13) then Ok (Some (-1), default_args) else load_loop argv default_args.

(** The start of [main]: the return value is tested before anything else. *)
Definition main {S} `{Semaphore S} (argc : Z) (argv : list string) : res (option (sys S event)) :=
  '(ret, args) ← loadArguments argc argv;
  validArgs ← of_option ret;
  if bool_decide (validArgs < 0) then Ok None
  else Ok (Some (apartment (total_agents args) (total_tenants args))).
