(* ===== verification/AptsimClaims.v ===== *)
(** * Properties of the apartment simulation

    For any number of agents and tenants: one agent at a time, counters touched
    only under the mutex, and [tenants_in_apt] exact.  For the smallest system
    every interleaving is explored.  The last part shows runs that break what
    [src/proj2/writeup.txt] promises. *)
From stdpp Require Import base numbers list relations strings.
From S2P Require Import Prelude Sem SemFacts Aptsim.
#[local] Open Scope Z_scope.

Definition people (k m : Z) : list (code event) := startAgentCreation k ++ startTenantCreation m.

(** ** Static facts about the processes *)
Lemma people_forall (P : code event → Prop) k m :
  (∀ a, P (agentProcess a)) → (∀ t, P (tenantProcess t)) → Forall P (people k m).
Proof.
  intros Ha Ht. apply Forall_app. split; apply Forall_forall.
  - by intros c (a & -> & _)%list_elem_of_fmap.
  - by intros c (t & -> & _)%list_elem_of_fmap.
Qed.

Ltac by_agent a := unfold agentProcess, agentArrives; case_bool_decide; reflexivity.

Lemma mutex_brackets k m : Forall (brackets mutex) (people k m).
Proof. apply people_forall; [intros a; by_agent a|reflexivity]. Qed.
Lemma agent_lock_brackets k m : Forall (brackets agent_apt_lock) (people k m).
Proof. apply people_forall; [intros a; by_agent a|reflexivity]. Qed.
Lemma counters_guarded k m : Forall (λ c, guarded mutex c = true) (people k m).
Proof. apply people_forall; [intros a; by_agent a|reflexivity]. Qed.
Lemma tenants_net k m : Forall (λ c, net tenants_in_apt c = Some 0) (people k m).
Proof. apply people_forall; [intros a; by_agent a|reflexivity]. Qed.

Lemma init_sems_nonneg : Forall (λ v, 0 ≤ v) init_sems.
Proof. repeat constructor; lia. Qed.

(** A tenant between its [( *tenants_in_apt)++] and its [( *tenants_in_apt)--]. *)
Definition in_apartment (p : proc event) : bool := bool_decide (net tenants_in_apt (p_code p) = Some (-1)).
Definition occupants (l : list (proc event)) : Z := tally (λ p, if in_apartment p then 1 else 0) l.

(** Code never has a pending change of [tenants_in_apt] other than 0 or -1. *)
Fixpoint nets_ok (c : code event) : bool :=
  bool_decide (net tenants_in_apt c = Some 0 ∨ net tenants_in_apt c = Some (-1)) &&
  match c with
  | END => true
  | DO _ k => nets_ok k
  | IF _ a b => nets_ok a && nets_ok b
  end.
Lemma nets_ok_closed : code_closed (λ c, nets_ok c = true).
Proof.
  split.
  - intros a k H. simpl in H. by apply andb_prop in H as [_ ?].
  - intros t a b H. simpl in H. apply andb_prop in H as [_ H]. by apply andb_prop in H.
Qed.
Lemma people_nets_ok k m : Forall (λ c, nets_ok c = true) (people k m).
Proof. apply people_forall; [intros a; by_agent a|reflexivity]. Qed.

(** ** For any number of processes *)

(** C8: at most one agent is in the apartment: with any number of agents and
    tenants, any semaphore implementation and any interleaving, two processes
    that are between their [down(agent_apt_lock)] and their [up(agent_apt_lock)]
    are the same process; likewise for the sections of [mutex]. *)
Theorem one_agent_at_a_time {S} `{Semaphore S} k m (st : sys S event) i j p q :
  reachable (apartment k m) st → procs st !! i = Some p → procs st !! j = Some q →
  holder agent_apt_lock p ∧ holder agent_apt_lock q ∨ holder mutex p ∧ holder mutex q → i = j.
Proof.
  intros Hr Hi Hj Hh. apply reachable_start in Hr.
  destruct (lock_reachable agent_apt_lock _ _ _ _ init_sems_nonneg eq_refl (agent_lock_brackets k m) Hr) as [Hq Hl].
  destruct (lock_reachable mutex _ _ _ _ init_sems_nonneg eq_refl (mutex_brackets k m) Hr) as [_ Hl'].
  destruct Hh as [[Hp Hq']|[Hp Hq']].
  - by apply (mutual_exclusion agent_apt_lock (sys_view st) i j p q).
  - by apply (mutual_exclusion mutex (sys_view st) i j p q).
Qed.

Lemma one_agent_at_a_time_witness : ∃ st : sys qsem event,
  run [0; 0; 0]%nat (apartment 2 1) = Some st ∧
  ∀ j q, procs st !! j = Some q → holder agent_apt_lock q → j = 0%nat.
Proof.
  eexists. split; [reflexivity|]. intros j q Hj Hq.
  eapply (one_agent_at_a_time 2 1 _ j 0 q); [by apply (run_reachable [0; 0; 0]%nat)|exact Hj|reflexivity|].
  left. split; [exact Hq|]. split; [reflexivity|done].
Defined.

(** The counters are free of races: no two processes are ever about to
    access [current_agent_tenants] or [tenants_in_apt] at the same time, since
    every access is made while holding [mutex].  (This is what justifies treating
    [( *counter)++] as one step.) *)
Theorem counters_race_free {S} `{Semaphore S} k m (st : sys S event) i j c c' :
  reachable (apartment k m) st →
  procs st !! i = Some (mkproc c None) → procs st !! j = Some (mkproc c' None) →
  accesses c = true → accesses c' = true → i = j.
Proof.
  intros Hr Hi Hj. apply reachable_start in Hr.
  by apply (race_freedom mutex _ _ _ (sys_view st) i j c c' init_sems_nonneg eq_refl
    (mutex_brackets k m) (counters_guarded k m) Hr).
Qed.

Lemma counters_race_free_witness : ∃ st : sys qsem event,
  run [1; 1; 2]%nat (apartment 1 2) = Some st ∧
  ∀ j c, procs st !! j = Some (mkproc c None) → accesses c = true → j = 1%nat.
Proof.
  eexists. split; [reflexivity|]. intros j c Hj Hc.
  eapply (counters_race_free 1 2 _ j 1 c); [by apply (run_reachable [1; 1; 2]%nat)|exact Hj|reflexivity|exact Hc|reflexivity].
Defined.

(** [tenants_in_apt] is exact: in every reachable state it equals the
    number of tenants that have entered and not left, so it is never negative and
    the last one out is the one that finds 0. *)
Theorem tenants_in_apt_exact {S} `{Semaphore S} k m (st : sys S event) :
  reachable (apartment k m) st →
  mem st !!! tenants_in_apt = occupants (procs st) ∧ 0 ≤ occupants (procs st).
Proof.
  intros Hr. apply reachable_start in Hr.
  destruct (counter_reachable tenants_in_apt init_sems init_counters (people k m) _
    ltac:(unfold tenants_in_apt; simpl; lia) (tenants_net k m) Hr)
    as [_ _ Hsum].
  pose proof (code_reachable _ _ _ _ _ nets_ok_closed (people_nets_ok k m) Hr) as Hok. simpl in Hsum, Hok.
  change (init_counters !!! tenants_in_apt) with 0 in Hsum.
  assert (tally (f_net tenants_in_apt) (procs st) = - occupants (procs st)) as E.
  { unfold occupants. revert Hok. generalize (procs st). clear.
    induction l as [|p l IH]; intros Hok; simpl; [done|].
    rewrite IH by (intros p' Hp'; apply Hok; by right).
    assert (nets_ok (p_code p) = true) as Hp by (apply Hok; by left).
    assert (net tenants_in_apt (p_code p) = Some 0 ∨ net tenants_in_apt (p_code p) = Some (-1)) as Hn.
    { destruct (p_code p); [by left|..]; cbn [nets_ok] in Hp;
        by apply andb_prop in Hp as [Hp%bool_decide_eq_true _]. }
    unfold f_net, in_apartment. destruct Hn as [-> | ->]; simpl; lia. }
  split; [lia|]. apply tally_nonneg. intros p _. by destruct (in_apartment p).
Qed.

Lemma tenants_in_apt_exact_witness : ∃ st : sys qsem event,
  run [1; 1; 1; 1; 1]%nat (apartment 1 1) = Some st ∧
  mem st !!! tenants_in_apt = 1 ∧ occupants (procs st) = 1.
Proof.
  eexists. split; [reflexivity|].
  match goal with |- mem ?st !!! _ = _ ∧ _ =>
    destruct (tenants_in_apt_exact 1 1 st) as [H _] end.
  - by apply (run_reachable [1; 1; 1; 1; 1]%nat).
  - split; [reflexivity|]. rewrite <- H. reflexivity.
Defined.

(** ** One agent and one tenant *)
Definition visit : list event :=
  [AgentOpens 0; TenantInspects 0; TenantLeaves 0; AgentLeaves 0; AptEmpty].
Definition arrival (e : event) : bool :=
  match e with AgentArrives _ | TenantArrives _ => true | _ => false end.
Definition one_visit_ok (q : sys qsem event) : bool :=
  bool_decide (List.filter (λ e, negb (arrival e)) (out q) =
    take (length (List.filter (λ e, negb (arrival e)) (out q))) visit) &&
  negb (deadlocked q) &&
  (negb (finished q) ||
   bool_decide (List.filter (λ e, negb (arrival e)) (out q) = visit ∧ sems q = map qinit [1; 0; 0; 0; 0; 0; 1]
     ∧ mem q = [0; 0])).
Lemma one_visit_explored :
  (if explore 2000 [apartment 1 1] [] is Some l then forallb one_visit_ok l else false) = true.
Proof. vm_compute. reflexivity. Qed.

(** With one agent and one tenant every interleaving works out: the events
    after the arrivals are a prefix of opens, inspects, tenant leaves, agent
    leaves, empty; no state is deadlocked; and when both are done the whole visit
    has happened and every semaphore and counter is back at its initial value. *)
Theorem one_visit_correct {S} `{Semaphore S} (st : sys S event) :
  reachable (apartment 1 1) st →
  (∃ rest, visit = List.filter (λ e, negb (arrival e)) (out st) ++ rest) ∧
  deadlocked st = false ∧
  (finished st = true → List.filter (λ e, negb (arrival e)) (out st) = visit ∧
     sems (sys_view st) = map qinit init_sems ∧ mem st = init_counters).
Proof.
  intros Hr. apply reachable_start in Hr.
  pose proof (explore_sound 2000 (apartment 1 1) one_visit_ok _ one_visit_explored Hr) as HP.
  unfold one_visit_ok in HP. apply andb_prop in HP as [HP H3]. apply andb_prop in HP as [H1 H2].
  rewrite deadlocked_view in H2. rewrite finished_view in H3.
  apply bool_decide_eq_true in H1. change (out (sys_view st)) with (out st) in *. split_and!.
  - eexists. rewrite H1 at 1. symmetry. apply take_drop.
  - by destruct (deadlocked st).
  - intros Hf. rewrite Hf in H3. apply bool_decide_eq_true in H3. done.
Qed.

Lemma one_visit_correct_witness :
  ∃ rest, visit = List.filter (λ e, negb (arrival e)) (out (apartment (S := qsem) 1 1)) ++ rest.
Proof. apply (one_visit_correct (apartment (S := qsem) 1 1)). apply rtc_refl. Defined.

(** ** Runs that break the promises of the write-up *)

(** [steps l]: run process [i] for [n] steps, for each [(i, n)] in turn. *)
Definition steps (l : list (nat * nat)) : list nat := concat (map (λ '(i, n), replicate n i) l).

(** Agent 1 takes [agent_apt_lock]; agent 0, as the first agent, then takes
    [mutex] and waits for [agent_apt_lock] without giving it back; agent 1 waits
    for [mutex]. *)
Definition deadlock_sched : list nat := steps [(1, 4); (0, 3); (1, 1)]%nat.
Definition agent0_stuck : proc event :=
  mkproc (DO (UP mutex) (DO (UP agent_arrived) (DO (DOWN tenant_arrived) (openApt 0 (agentLeaves 0 END)))))
    (Some agent_apt_lock).
Definition agent1_stuck : proc event :=
  mkproc (DO (UP waiting_for_agent) (DO (UP mutex) (DO (UP agent_arrived) (DO (DOWN tenant_arrived)
    (openApt 1 (agentLeaves 1 END)))))) (Some mutex).

Lemma ids_two k : 2 ≤ k → ∃ l, ids k = 0 :: 1 :: l.
Proof.
  intros Hk. unfold ids. replace (Z.to_nat k) with (S (S (Z.to_nat (k - 2)))) by lia. simpl. eauto.
Qed.

Lemma deadlock_run k m : 2 ≤ k → ∃ q : sys qsem event,
  run deadlock_sched (apartment k m) = Some q ∧
  procs q !! 0%nat = Some agent0_stuck ∧ procs q !! 1%nat = Some agent1_stuck.
Proof.
  intros Hk. destruct (ids_two k Hk) as [l Hl]. unfold apartment, startAgentCreation. rewrite Hl.
  eexists. split; [vm_compute; reflexivity|]. split; vm_compute; reflexivity.
Qed.

(** The simulation can deadlock: with two or more agents and any number of
    tenants, under every semaphore implementation, there is a run after which
    agents 0 and 1 sleep forever, whatever happens next: agent 0 holds [mutex] and
    waits for [agent_apt_lock], agent 1 holds [agent_apt_lock] and waits for
    [mutex], so that no one passes [down(mutex)] again. *)
Theorem agents_deadlock {S} `{Semaphore S} k m :
  2 ≤ k → ∃ st : sys S event, reachable (apartment k m) st ∧
  ∀ st', reachable st st' →
    procs st' !! 0%nat = Some agent0_stuck ∧ procs st' !! 1%nat = Some agent1_stuck.
Proof.
  intros Hk. destruct (deadlock_run k m Hk) as (q & Hq & H0 & H1).
  destruct (run_start (sem := S) _ _ _ _ _ Hq) as (st & Hr & <-). apply run_reachable in Hr.
  exists st. split; [exact Hr|]. intros st' Hr'. apply reachable_start in Hr.
  destruct (lock_reachable agent_apt_lock _ _ _ _ init_sems_nonneg eq_refl (agent_lock_brackets k m) Hr) as [Hqs Hl].
  destruct (lock_reachable mutex _ _ _ _ init_sems_nonneg eq_refl (mutex_brackets k m) Hr) as [_ Hl'].
  apply reachable_view in Hr'.
  destruct (circular_forever mutex agent_apt_lock 0 1 agent0_stuck agent1_stuck (sys_view st) (sys_view st'))
    as [_ _ _ Hi Hj _ _]; [done|by split|exact Hr'|by split].
Qed.

Lemma agents_deadlock_witness : ∃ st : sys qsem event, reachable (apartment 2 1) st ∧
  ∀ st', reachable st st' →
    procs st' !! 0%nat = Some agent0_stuck ∧ procs st' !! 1%nat = Some agent1_stuck.
Proof. apply (agents_deadlock (S := qsem) 2 1). lia. Defined.

(** The tenants shown around by agent [a], and those inside at the end. *)
Fixpoint shown (a : Z) (opened : bool) (tr : list event) : Z :=
  match tr with
  | [] => 0
  | AgentOpens b :: tr => shown a (bool_decide (a = b)) tr
  | AgentLeaves b :: tr => shown a (opened && negb (bool_decide (a = b))) tr
  | TenantInspects _ :: tr => (if opened then 1 else 0) + shown a opened tr
  | _ :: tr => shown a opened tr
  end.
Definition inside_now (tr : list event) : list Z :=
  foldl (λ l e, match e with
                | TenantInspects t => t :: l
                | TenantLeaves t => List.filter (λ u, negb (bool_decide (u = t))) l
                | _ => l
                end) [] tr.

(** Agent 0 and tenant 0 complete a visit; agent 1 arrives when nobody waits,
    so its [up(waiting_for_agent)] leaves a token for a tenant too many. *)
Definition first_visit : list (nat * nat) :=
  [(0, 6); (2, 13); (0, 3); (2, 12); (0, 6); (1, 9)]%nat.
Definition eleven_sched : list nat :=
  steps (first_visit ++ [(3, 13)]%nat ++ map (λ i, (i, 12%nat)) (seq 4 9) ++ [(13, 16); (1, 3); (3, 8)]%nat ++
         map (λ i, (i, 8%nat)) (seq 4 9) ++ [(13, 12); (1, 6)]%nat).
Definition eleven_shown (q : sys qsem event) : bool := bool_decide (shown 1 false (out q) = 11).
Lemma eleven_run :
  (if run eleven_sched (start init_sems init_counters (people 2 12)) is Some q then eleven_shown q else false)
  = true.
Proof. vm_compute. reflexivity. Qed.

(** Tenant 2 comes in on the token after the last tenant has told the agent to
    leave, and inspects the apartment before the agent goes. *)
Definition occupied_sched : list nat :=
  steps (first_visit ++ [(3, 13); (1, 3); (3, 10); (4, 18); (1, 6)]%nat).
Definition occupied_left (q : sys qsem event) : bool :=
  bool_decide (last (out q) = Some AptEmpty) && bool_decide (inside_now (out q) = [2]).
Lemma occupied_run :
  (if run occupied_sched (start init_sems init_counters (people 2 3)) is Some q then occupied_left q else false)
  = true.
Proof. vm_compute. reflexivity. Qed.

(** The limit of ten tenants per agent and the empty apartment at the
    agent's leave are not kept: with two agents and twelve tenants there is a run
    in which agent 1 shows the apartment to eleven tenants, and with two agents
    and three tenants one in which agent 1 leaves and the apartment is announced
    empty while tenant 2 is inspecting it.  Both hold for every semaphore
    implementation. *)
Theorem limits_broken {S} `{Semaphore S} :
  (∃ st : sys S event, reachable (apartment 2 12) st ∧ MAX_TENANTS_PER_AGENT < shown 1 false (out st)) ∧
  (∃ st : sys S event, reachable (apartment 2 3) st ∧ last (out st) = Some AptEmpty ∧
     inside_now (out st) = [2]).
Proof.
  split.
  - destruct (run_check (sem := S) init_sems init_counters (people 2 12) eleven_sched eleven_shown eleven_run)
      as (st & Hr & HP). apply bool_decide_eq_true in HP. exists st. split; [exact Hr|].
    change (out (sys_view st)) with (out st) in HP. rewrite HP. done.
  - destruct (run_check (sem := S) init_sems init_counters (people 2 3) occupied_sched occupied_left occupied_run)
      as (st & Hr & HP). apply andb_prop in HP as [H1%bool_decide_eq_true H2%bool_decide_eq_true].
    by exists st.
Qed.

Lemma limits_broken_witness :
  ∃ st : sys qsem event, reachable (apartment 2 12) st ∧ MAX_TENANTS_PER_AGENT < shown 1 false (out st).
Proof. apply (limits_broken (S := qsem)). Defined.

(** ** Arguments *)

(** Options and their values, in the order of the command line. *)
Definition argv_of (l : list (string * string)) : list string :=
  concat (map (λ '(f, v), [f; v]) l).
Fixpoint set_all (l : list (string * Z)) (a : cli_args) : option cli_args :=
  match l with
  | [] => Some a
  | (f, z) :: l => a' ← set_arg f z a; set_all l a'
  end.

Ltac arg_cases := unfold set_arg; repeat (case_bool_decide; simplify_eq/=); try done.

Lemma set_arg_comm f g x y a : f ≠ g →
  (a' ← set_arg f x a; set_arg g y a') = (a' ← set_arg g y a; set_arg f x a').
Proof. intros Hfg. arg_cases. Qed.

Lemma set_all_perm l l' a : NoDup (map fst l) → l ≡ₚ l' → set_all l a = set_all l' a.
Proof.
  intros Hn Hp. revert a Hn. induction Hp as [|[f z] l l' _ IH|[g x] [f y] l|l l' l'' H1 IH1 H2 IH2]; intros a Hn.
  - done.
  - simpl in *. apply NoDup_cons in Hn as [_ Hn]. destruct (set_arg f z a); simpl; [by apply IH|done].
  - simpl in *. apply NoDup_cons in Hn as [Hf _].
    assert (f ≠ g) as Hfg by (intros ->; apply Hf; by left).
    pose proof (set_arg_comm f g y x a Hfg) as Hc.
    transitivity (a2 ← (a1 ← set_arg f y a; set_arg g x a1); set_all l a2); [by destruct (set_arg f y a)|].
    rewrite Hc. by destruct (set_arg g x a).
  - rewrite IH1 by done. apply IH2. by rewrite <- H1.
Qed.

(** An option is followed by a value that does not look like an option. *)
Lemma load_pairs l zs a a' :
  Forall2 (λ fv z, starts_with_dash fv.1 = true ∧ starts_with_dash fv.2 = false ∧ atoi fv.2 = Ok z) l zs →
  set_all (zip (map fst l) zs) a = Some a' → load_loop (argv_of l) a = Ok (None, a').
Proof.
  intros HF. revert a. induction HF as [|[f v] z l zs (Hf & Hv & Hz) _ IH]; intros a Ha; simpl in *.
  - by simplify_eq.
  - rewrite Hf, Hz. simpl. destruct (set_arg f z a) as [a1|]; [|done]. rewrite Hv. by apply IH.
Qed.

Lemma load_triples (L : list (string * string * Z)) a a' :
  Forall (λ t, starts_with_dash t.1.1 = true ∧ starts_with_dash t.1.2 = false ∧ atoi t.1.2 = Ok t.2) L →
  set_all (map (λ t, (t.1.1, t.2)) L) a = Some a' → load_loop (argv_of (map fst L)) a = Ok (None, a').
Proof.
  intros HL Ha. apply (load_pairs _ (map snd L)).
  - clear Ha. induction HL as [|t L Ht _ IH]; simpl; constructor; done.
  - rewrite <- Ha. f_equal. clear. induction L as [|t L IH]; simpl; congruence.
Qed.

(** [loadArguments] accepts the six options in any order: whatever the
    permutation, every field gets the [atoi] of its own value.  But it then falls
    off its end without a [return], and [main] tests the value it does not have:
    a correct command line leads to undefined behaviour. *)
Theorem arguments_in_any_order {S} `{Semaphore S} (v : list string) (z : list Z) l :
  Forall2 (λ v z, starts_with_dash v = false ∧ atoi v = Ok z) v z →
  length v = 6%nat →
  l ≡ₚ zip ["-m"; "-k"; "-pt"; "-dt"; "-pa"; "-da"]%string v →
  loadArguments 13 (argv_of l) =
    Ok (None, mkargs (z !!! 0) (z !!! 1) (z !!! 2) (z !!! 3) (z !!! 4) (z !!! 5))%nat ∧
  main (S := S) 13 (argv_of l) = Fault Undefined.
Proof.
  intros HF Hlen Hp.
  assert (∃ L, l = map fst L ∧ zip (zip ["-m"; "-k"; "-pt"; "-dt"; "-pa"; "-da"]%string v) z ≡ₚ L) as (L & -> & HL).
  { assert (map fst (zip (zip ["-m"; "-k"; "-pt"; "-dt"; "-pa"; "-da"]%string v) z) ≡ₚ l) as Hm.
    { rewrite Hp. apply Forall2_length in HF. change (map fst) with (fmap (M := list) (@fst (string * string) Z)).
      rewrite fst_zip; [done|]. rewrite length_zip. cbn [length]. lia. }
    apply Permutation_sym, Permutation_map_inv in Hm as (L & -> & HL). by exists L. }
  clear Hp. assert (loadArguments 13 (argv_of (map fst L)) =
    Ok (None, mkargs (z !!! 0) (z !!! 1) (z !!! 2) (z !!! 3) (z !!! 4) (z !!! 5))%nat) as Hload.
  { destruct v as [|v1 [|v2 [|v3 [|v4 [|v5 [|v6 [|]]]]]]]; try done.
    destruct z as [|z1 [|z2 [|z3 [|z4 [|z5 [|z6 [|]]]]]]]; try (by apply Forall2_length in HF).
    unfold loadArguments. rewrite bool_decide_eq_false_2 by lia. apply load_triples.
    - rewrite <- HL. clear HL. simpl. repeat (apply Forall2_cons in HF as [[? ?] HF]). by repeat constructor.
    - rewrite <- (set_all_perm (map (λ t, (t.1.1, t.2)) (zip (zip ["-m"; "-k"; "-pt"; "-dt"; "-pa"; "-da"]%string
        [v1; v2; v3; v4; v5; v6]) [z1; z2; z3; z4; z5; z6]))).
      + reflexivity.
      + apply (bool_decide_unpack _). reflexivity.
      + by apply Permutation_map. }
  split; [done|]. unfold main. by rewrite Hload.
Qed.

Lemma arguments_in_any_order_witness :
  loadArguments 13 ["-k"; "2"; "-m"; "12"; "-pt"; "70"; "-dt"; "1"; "-pa"; "0"; "-da"; "3"]%string
    = Ok (None, mkargs 12 2 70 1 0 3) ∧
  main (S := qsem) 13 ["-k"; "2"; "-m"; "12"; "-pt"; "70"; "-dt"; "1"; "-pa"; "0"; "-da"; "3"]%string
    = Fault Undefined.
Proof.
  refine (arguments_in_any_order ["12"; "2"; "70"; "1"; "0"; "3"]%string [12; 2; 70; 1; 0; 3]
    [("-k", "2"); ("-m", "12"); ("-pt", "70"); ("-dt", "1"); ("-pa", "0"); ("-da", "3")]%string _ eq_refl _).
  - by repeat constructor.
  - apply perm_swap.
Defined.
