(* ===== verification/XString.v ===== *)
(** * xv6 memory and string routines

    Models [src/lab3/xv6-public/string.c] (the same file is in lab4).  Memory is
    a list of bytes and an address an index into it; an access outside is
    [Undefined].  Loops take their iteration count from the [n] argument. *)
From stdpp Require Import base numbers list.
From S2P Require Import Prelude Bytes.
#[local] Open Scope Z_scope.

(** ** Byte access *)
Definition getb (m : list Z) (a : Z) : res Z :=
  if bool_decide (0 ≤ a) then of_option (m !! Z.to_nat a) else Fault Undefined.
Definition putb (m : list Z) (a v : Z) : res (list Z) :=
  if bool_decide (0 ≤ a < Z.of_nat (length m)) then Ok (<[Z.to_nat a := u8 v]> m)
  else Fault Undefined.

(** ** memset: [rep stosl] on words when everything is aligned, [rep stosb] otherwise *)
Fixpoint stosb (n : nat) (m : list Z) (a c : Z) : res (list Z) :=
  match n with
  | O => Ok m
  | S n => m ← putb m a c; stosb n m (a + 1) c
  end.
Fixpoint stosl (n : nat) (m : list Z) (a w : Z) : res (list Z) :=
  match n with
  | O => Ok m
  | S n => m ← store 4 m a w; stosl n m (a + 4) w
  end.

Definition memset (m : list Z) (dst c n : Z) : res (list Z) :=
  if bool_decide (Z.rem (s32 dst) 4 = 0 ∧ n `mod` 4 = 0) then
    let c := Z.land c 255 in
    stosl (Z.to_nat (n / 4)) m dst
      (Z.lor (Z.lor (Z.lor (u32 (Z.shiftl c 24)) (Z.shiftl c 16)) (Z.shiftl c 8)) c)
  else stosb (Z.to_nat n) m dst c.

(** ** memcmp and memmove *)
Fixpoint memcmp (n : nat) (m : list Z) (s1 s2 : Z) : res Z :=
  match n with
  | O => Ok 0
  | S n =>
    a ← getb m s1; b ← getb m s2;
    if bool_decide (a ≠ b) then Ok (a - b) else memcmp n m (s1 + 1) (s2 + 1)
  end.

Fixpoint move_down (n : nat) (m : list Z) (d s : Z) : res (list Z) :=
  match n with
  | O => Ok m
  | S n =>
    c ← getb m (s - 1); m ← putb m (d - 1) c; move_down n m (d - 1) (s - 1)
  end.
Fixpoint move_up (n : nat) (m : list Z) (d s : Z) : res (list Z) :=
  match n with
  | O => Ok m
  | S n => c ← getb m s; m ← putb m d c; move_up n m (d + 1) (s + 1)
  end.
Definition memmove (m : list Z) (dst src : Z) (n : nat) : res (list Z) :=
  if bool_decide (src < dst ∧ src + Z.of_nat n > dst)
  then move_down n m (dst + Z.of_nat n) (src + Z.of_nat n)
  else move_up n m dst src.
Definition memcpy (m : list Z) (dst src : Z) (n : nat) : res (list Z) := memmove m dst src n.

(** ** Strings *)
Fixpoint strncmp (n : nat) (m : list Z) (p q : Z) : res Z :=
  match n with
  | O => Ok 0
  | S n' =>
    a ← getb m p;
    if bool_decide (a = 0) then b ← getb m q; Ok (a - b)
    else b ← getb m q; if bool_decide (a = b) then strncmp n' m (p + 1) (q + 1) else Ok (a - b)
  end.

(** [while(n-- > 0 && ( *s++ = *t++) != 0);]: memory, [s] and [n] after it. *)
Fixpoint copy_until_nul (fuel : nat) (m : list Z) (s t n : Z) : res (list Z * Z * Z) :=
  match fuel with
  | O => Fault OutOfFuel
  | S fuel =>
    if bool_decide (n > 0) then
      c ← getb m t; m ← putb m s c;
      if bool_decide (c ≠ 0) then copy_until_nul fuel m (s + 1) (t + 1) (n - 1)
      else Ok (m, s + 1, n - 1)
    else Ok (m, s, n - 1)
  end.

Definition strncpy (m : list Z) (s t n : Z) : res (list Z) :=
  '(m, s, n) ← copy_until_nul (S (Z.to_nat n)) m s t n;
  stosb (Z.to_nat n) m s 0.

(** [while(--n > 0 && ...)] tests one less than [while(n-- > 0 && ...)]. *)
Definition safestrcpy (m : list Z) (s t n : Z) : res (list Z) :=
  if bool_decide (n ≤ 0) then Ok m
  else
    '(m, s, _) ← copy_until_nul (S (Z.to_nat n)) m s t (n - 1);
    putb m s 0.

Fixpoint strlen_loop (fuel : nat) (m : list Z) (s n : Z) : res Z :=
  match fuel with
  | O => Fault OutOfFuel
  | S fuel =>
    c ← getb m (s + n);
    if bool_decide (c ≠ 0) then strlen_loop fuel m s (n + 1) else Ok n
  end.
(** The string ends inside memory or the scan leaves it: [length m] bytes are
    enough to find out. *)
Definition strlen (m : list Z) (s : Z) : res Z := strlen_loop (S (length m)) m s 0.

(** ** Byte access lemmas *)
Lemma getb_ok m a b : 0 ≤ a → m !! Z.to_nat a = Some b → getb m a = Ok b.
Proof. intros H E. unfold getb. by rewrite bool_decide_eq_true_2, E. Qed.
Lemma putb_ok m a v : 0 ≤ a < Z.of_nat (length m) → putb m a v = Ok (<[Z.to_nat a := u8 v]> m).
Proof. intros H. unfold putb. by rewrite bool_decide_eq_true_2. Qed.

Lemma lookup_byte m i b : Forall byte_ok m → m !! i = Some b → byte_ok b.
Proof. intros H E. by eapply Forall_lookup_1 in H. Qed.

(** [bs] lies in memory at address [a]. *)
Definition at_addr (m : list Z) (a : Z) (bs : list Z) : Prop :=
  0 ≤ a ∧ ∀ i b, bs !! i = Some b → m !! Z.to_nat (a + Z.of_nat i) = Some b.

Lemma at_addr_slice m a n :
  0 ≤ a → at_addr m a (slice m (Z.to_nat a) n).
Proof.
  intros Ha. split; [done|]. intros i b Hi.
  assert (i < n)%nat. { apply lookup_lt_Some in Hi. unfold slice in Hi. rewrite length_take in Hi. lia. }
  rewrite lookup_slice in Hi by done. rewrite <- Hi. f_equal. lia.
Qed.

Lemma at_addr_cons m a b bs : at_addr m a (b :: bs) → m !! Z.to_nat a = Some b ∧ at_addr m (a + 1) bs.
Proof.
  intros [Ha H]. split.
  - rewrite <- (H 0%nat b) by done. f_equal. lia.
  - split; [lia|]. intros i c Hi. rewrite <- (H (S i) c) by done. f_equal. lia.
Qed.

Lemma at_addr_insert m a bs j v :
  at_addr m a bs → (Z.of_nat j < a ∨ a + Z.of_nat (length bs) ≤ Z.of_nat j) →
  at_addr (<[j := v]> m) a bs.
Proof.
  intros [Ha H] Hj. split; [done|]. intros i b Hi. rewrite list_lookup_insert_ne; [by apply H|].
  apply lookup_lt_Some in Hi. lia.
Qed.

Lemma splice_cons m (a : nat) b bs :
  (a + S (length bs) ≤ length m)%nat → splice m a (b :: bs) = splice (<[a := b]> m) (S a) bs.
Proof.
  intros Hl. apply list_eq. intros i.
  destruct (decide (a ≤ i < a + S (length bs))%nat) as [Hi|Hi].
  - rewrite lookup_splice_new by (simpl; lia). destruct (decide (i = a)) as [->|].
    + rewrite Nat.sub_diag. rewrite lookup_splice_old by (rewrite ?length_insert; lia).
      rewrite list_lookup_insert_eq by lia. done.
    + rewrite lookup_splice_new by (rewrite ?length_insert; lia).
      replace (i - a)%nat with (S (i - S a)) by lia. done.
  - rewrite lookup_splice_old by (simpl; lia).
    rewrite lookup_splice_old by (rewrite ?length_insert; lia). by rewrite list_lookup_insert_ne by lia.
Qed.

Lemma splice_nil (m : list Z) a : splice m a [] = m.
Proof. unfold splice. simpl. rewrite Nat.add_0_r. apply take_drop. Qed.

Lemma splice_snoc m (a : nat) bs b :
  (a + S (length bs) ≤ length m)%nat →
  splice m a (bs ++ [b]) = splice (<[(a + length bs)%nat := b]> m) a bs.
Proof.
  intros Hl. assert (length (bs ++ [b]) = S (length bs)) as Hlb by (rewrite length_app; simpl; lia).
  apply list_eq. intros i.
  destruct (decide (a ≤ i < a + S (length bs))%nat) as [Hi|Hi].
  - rewrite lookup_splice_new by lia. destruct (decide (i = a + length bs)%nat) as [->|].
    + rewrite lookup_app_r by lia. rewrite lookup_splice_old by (rewrite ?length_insert; lia).
      rewrite list_lookup_insert_eq by lia. by replace (a + length bs - a - length bs)%nat with 0%nat by lia.
    + rewrite lookup_app_l by lia. rewrite lookup_splice_new by (rewrite ?length_insert; lia). done.
  - rewrite lookup_splice_old by lia.
    rewrite lookup_splice_old by (rewrite ?length_insert; lia). by rewrite list_lookup_insert_ne by lia.
Qed.

(** ** memset *)
Lemma stosb_run n m a c :
  0 ≤ a → a + Z.of_nat n ≤ Z.of_nat (length m) →
  stosb n m a c = Ok (splice m (Z.to_nat a) (replicate n (u8 c))).
Proof.
  revert m a. induction n as [|n IH]; intros m a Ha Hl; simpl.
  - by rewrite splice_nil.
  - rewrite putb_ok by lia. simpl. rewrite IH by (rewrite ?length_insert; lia).
    rewrite splice_cons by (rewrite length_replicate; lia). do 2 f_equal. lia.
Qed.

Lemma splice_app m (a : nat) bs cs :
  (a + length bs + length cs ≤ length m)%nat →
  splice m a (bs ++ cs) = splice (splice m a bs) (a + length bs) cs.
Proof.
  revert m a. induction bs as [|b bs IH]; intros m a Hl; simpl.
  - rewrite splice_nil. f_equal. lia.
  - rewrite !splice_cons by (rewrite ?length_app; simpl in *; lia). simpl in Hl.
    rewrite IH by (rewrite ?length_insert; lia). f_equal. lia.
Qed.

Lemma stosl_run n m a w bs :
  0 ≤ a → a + 4 * Z.of_nat n ≤ Z.of_nat (length m) → le_bytes 4 w = bs →
  stosl n m a w = Ok (splice m (Z.to_nat a) (concat (replicate n bs))).
Proof.
  intros Ha Hl Hw. revert m a Ha Hl. induction n as [|n IH]; intros m a Ha Hl.
  - simpl. by rewrite splice_nil.
  - cbn [stosl]. rewrite store_ok by lia. unfold mbind, res_bind. assert (length bs = 4%nat) as L by (rewrite <- Hw; done).
    assert (length (concat (replicate n bs)) = 4 * n)%nat as Lc.
    { clear -L. induction n; simpl; [done|]. rewrite length_app. lia. }
    rewrite IH; [|lia|rewrite length_splice; rewrite ?length_le_bytes; lia].
    rewrite Hw. cbn [replicate concat]. rewrite splice_app by lia. do 2 f_equal. lia.
Qed.

(** The word built from four copies of a byte. *)
Lemma fill_word c : byte_ok c →
  Z.lor (Z.lor (Z.lor (u32 (Z.shiftl c 24)) (Z.shiftl c 16)) (Z.shiftl c 8)) c = c * 16843009.
Proof.
  intros Hc. unfold byte_ok in Hc. rewrite u32_small by (rewrite Z.shiftl_mul_pow2 by lia; lia).
  assert (forallb (λ k, bool_decide (Z.lor (Z.lor (Z.lor (Z.shiftl (Z.of_nat k) 24)
    (Z.shiftl (Z.of_nat k) 16)) (Z.shiftl (Z.of_nat k) 8)) (Z.of_nat k) = Z.of_nat k * 16843009))
    (seq 0 256) = true) as Hall by (vm_compute; reflexivity).
  rewrite forallb_forall in Hall. specialize (Hall (Z.to_nat c)).
  rewrite bool_decide_eq_true, Z2Nat.id in Hall by lia. apply Hall, in_seq. lia.
Qed.

Lemma fill_bytes c : byte_ok c → le_bytes 4 (c * 16843009) = [c; c; c; c].
Proof.
  intros Hc. unfold byte_ok in Hc. simpl.
  assert ((c * 16843009) / 256 = c * 65793) as -> by dlia.
  assert ((c * 65793) / 256 = c * 257) as -> by dlia.
  assert ((c * 257) / 256 = c) as -> by dlia.
  repeat f_equal; dlia.
Qed.

Lemma concat_replicate (n : nat) (c : Z) : concat (replicate n [c; c; c; c]) = replicate (4 * n) c.
Proof.
  induction n as [|n IH]; [done|]. simpl concat. rewrite IH.
  replace (4 * S n)%nat with (S (S (S (S (4 * n))))) by lia. done.
Qed.

(** [memset] fills exactly the [n] bytes at [dst] with the low byte of [c],
    whether it takes the word path ([rep stosl] of the byte repeated four times)
    or the byte path, and changes nothing else. *)
Theorem memset_fills m dst c n :
  0 ≤ dst → 0 ≤ n → dst + n ≤ Z.of_nat (length m) →
  memset m dst c n = Ok (splice m (Z.to_nat dst) (replicate (Z.to_nat n) (u8 c))).
Proof.
  intros Hd Hn Hl. unfold memset. case_bool_decide as E.
  - destruct E as [_ E]. change 255 with (Z.ones 8). rewrite Z.land_ones by lia.
    change (c `mod` 2 ^ 8) with (u8 c). assert (byte_ok (u8 c)) as Hb by apply u8_range.
    rewrite fill_word by done. rewrite (stosl_run _ _ _ _ [u8 c; u8 c; u8 c; u8 c]);
      [|lia|dlia|by apply fill_bytes].
    rewrite concat_replicate. do 3 f_equal. dlia.
  - rewrite stosb_run by lia. done.
Qed.

Lemma memset_fills_witness :
  memset (replicate 12 7) 4 257 4 = Ok (replicate 4 7 ++ [1; 1; 1; 1] ++ replicate 4 7) ∧
  memset (replicate 12 7) 5 257 4 = Ok (replicate 5 7 ++ [1; 1; 1; 1] ++ replicate 3 7).
Proof.
  split.
  - apply (memset_fills (replicate 12 7) 4 257 4); simpl; lia.
  - apply (memset_fills (replicate 12 7) 5 257 4); simpl; lia.
Defined.

(** ** memmove *)
Lemma move_up_run n m d s bs :
  Forall byte_ok bs → length bs = n → at_addr m s bs → (d ≤ s ∨ s + Z.of_nat n ≤ d) → 0 ≤ d →
  d + Z.of_nat n ≤ Z.of_nat (length m) → move_up n m d s = Ok (splice m (Z.to_nat d) bs).
Proof.
  intros Hb Hlen. revert m d s bs Hb Hlen. induction n as [|n IH]; intros m d s bs Hb Hlen Hat Hov Hd Hl.
  - destruct bs; [|done]. by rewrite splice_nil.
  - destruct bs as [|b bs]; [done|]. apply Forall_cons in Hb as [Hb0 Hb].
    destruct Hat as [Hs Hat]. destruct (at_addr_cons m s b bs (conj Hs Hat)) as [H0 Ht].
    cbn [move_up]. rewrite (getb_ok _ _ b) by done. simpl. rewrite putb_ok by lia. simpl.
    injection Hlen as Hlen. rewrite (IH _ _ _ bs); try done.
    + rewrite splice_cons by lia. rewrite u8_small by done. do 2 f_equal. lia.
    + apply at_addr_insert; [done|]. lia.
    + lia.
    + lia.
    + rewrite length_insert. lia.
Qed.

Lemma at_addr_snoc m a bs b : at_addr m a (bs ++ [b]) →
  m !! Z.to_nat (a + Z.of_nat (length bs)) = Some b ∧ at_addr m a bs.
Proof.
  intros [Ha H]. split.
  - apply H. rewrite lookup_app_r by lia. by rewrite Nat.sub_diag.
  - split; [done|]. intros i c Hi. apply H. rewrite lookup_app_l; [done|]. by eapply lookup_lt_Some.
Qed.

Lemma move_down_run n m d s bs :
  Forall byte_ok bs → length bs = n → at_addr m s bs → s ≤ d → 0 ≤ d →
  d + Z.of_nat n ≤ Z.of_nat (length m) →
  move_down n m (d + Z.of_nat n) (s + Z.of_nat n) = Ok (splice m (Z.to_nat d) bs).
Proof.
  revert m bs. induction n as [|n IH]; intros m bs Hb Hlen Hat Hov Hd Hl.
  - destruct bs; [|done]. by rewrite splice_nil.
  - destruct (exists_last (l := bs)) as (bs' & b & ->); [by destruct bs|].
    rewrite length_app in Hlen. simpl in Hlen. assert (length bs' = n) as Hn by lia.
    apply Forall_app in Hb as [Hb Hb0]. apply Forall_cons in Hb0 as [Hb0 _].
    destruct (at_addr_snoc _ _ _ _ Hat) as [H0 Ht]. pose proof Ht as [Hs _].
    cbn [move_down]. rewrite (getb_ok _ _ b); [|lia|rewrite <- H0; f_equal; lia]. simpl.
    rewrite putb_ok by lia. simpl.
    replace (d + Z.of_nat (S n) - 1) with (d + Z.of_nat n) by lia.
    replace (s + Z.of_nat (S n) - 1) with (s + Z.of_nat n) by lia.
    rewrite (IH _ bs'); try done.
    + rewrite splice_snoc by lia. rewrite u8_small by done. do 3 f_equal. lia.
    + apply at_addr_insert; [done|]. lia.
    + rewrite length_insert. lia.
Qed.

(** [memmove] copies the bytes the source had before the call, however the
    two ranges overlap, and changes nothing outside the destination. *)
Theorem memmove_copies m dst src n :
  Forall byte_ok m → 0 ≤ src → 0 ≤ dst →
  src + Z.of_nat n ≤ Z.of_nat (length m) → dst + Z.of_nat n ≤ Z.of_nat (length m) →
  memmove m dst src n = Ok (splice m (Z.to_nat dst) (slice m (Z.to_nat src) n)).
Proof.
  intros Hm Hs Hd Hsl Hdl.
  assert (length (slice m (Z.to_nat src) n) = n) as L by (apply length_slice; lia).
  unfold memmove. case_bool_decide as E.
  - apply move_down_run; (done || lia || by apply slice_forall || by apply at_addr_slice).
  - apply move_up_run; (done || lia || by apply slice_forall || by apply at_addr_slice).
Qed.

Lemma memmove_copies_witness :
  memmove [1; 2; 3; 4; 5; 6] 2 0 4 = Ok [1; 2; 1; 2; 3; 4] ∧
  memmove [1; 2; 3; 4; 5; 6] 0 1 4 = Ok [2; 3; 4; 5; 5; 6].
Proof.
  split.
  - apply (memmove_copies [1; 2; 3; 4; 5; 6] 2 0 4); try (simpl; lia). by repeat constructor.
  - apply (memmove_copies [1; 2; 3; 4; 5; 6] 0 1 4); try (simpl; lia). by repeat constructor.
Defined.

(** ** Strings *)
Lemma triple_ok {A} (x x' : A) (y y' z z' : Z) :
  x = x' → y = y' → z = z' → Ok (x, y, z) = Ok (x', y', z').
Proof. by intros -> -> ->. Qed.

Lemma copy_run fuel m s t n str :
  cstr_ok str → at_addr m t str → (Z.of_nat (length str) < n → at_addr m t (str ++ [0])) →
  0 ≤ n → (Z.to_nat n < fuel)%nat → 0 ≤ s →
  s + n ≤ Z.of_nat (length m) → t + Z.of_nat (length str) < s ∨ s + n ≤ t →
  copy_until_nul fuel m s t n =
  Ok (if bool_decide (n ≤ Z.of_nat (length str))
      then (splice m (Z.to_nat s) (take (Z.to_nat n) str), s + n, -1)
      else (splice m (Z.to_nat s) (str ++ [0]), s + Z.of_nat (length str) + 1, n - Z.of_nat (length str) - 1)).
Proof.
  intros Hstr. revert m s t n fuel.
  induction Hstr as [|c str Hc _ IH]; intros m s t n [|fuel] Hat Hnul Hn Hf Hs Hl Hov; try lia; cbn [copy_until_nul].
  - simpl length in *. case_bool_decide as Hn0.
    + rewrite bool_decide_eq_false_2 by lia.
      destruct (at_addr_cons _ _ _ _ (Hnul ltac:(lia))) as [H0 _]. destruct Hat as [Ht _].
      rewrite (getb_ok _ _ 0) by done. simpl. rewrite putb_ok by lia. simpl.
      simpl app. rewrite (splice_cons _ _ 0 []) by (simpl; lia). rewrite splice_nil.
      apply triple_ok; [done|lia|lia].
    + rewrite bool_decide_eq_true_2 by lia. replace (Z.to_nat n) with 0%nat by lia.
      simpl. rewrite splice_nil. apply triple_ok; [done|lia|lia].
  - case_bool_decide as Hn0.
    + destruct (at_addr_cons _ _ _ _ Hat) as [H0 Htl]. destruct Hat as [Ht _].
      rewrite (getb_ok _ _ c) by done. simpl mbind. rewrite putb_ok by lia. simpl mbind.
      rewrite (bool_decide_eq_true_2 (c ≠ 0)) by lia. rewrite u8_small by lia.
      simpl length in Hov. rewrite IH; try lia.
      2:{ apply at_addr_insert; [done|]. lia. }
      2:{ intros Hlt. simpl length in Hnul. apply at_addr_insert; [|rewrite length_app; simpl; lia].
          by destruct (at_addr_cons _ _ _ _ (Hnul ltac:(lia))). }
      2:{ rewrite length_insert. lia. }
      case_bool_decide as Hle.
      * rewrite bool_decide_eq_true_2 by (simpl; lia).
        replace (Z.to_nat n) with (S (Z.to_nat (n - 1))) by lia. simpl take.
        rewrite splice_cons by (rewrite length_take; lia). apply triple_ok; [f_equal; lia|lia|lia].
      * rewrite bool_decide_eq_false_2 by (simpl; lia). simpl app.
        rewrite splice_cons by (rewrite length_app; simpl; lia). simpl length. apply triple_ok; [f_equal; lia|lia|lia].
    + rewrite bool_decide_eq_true_2 by (simpl; lia). replace (Z.to_nat n) with 0%nat by lia.
      simpl. rewrite splice_nil. apply triple_ok; [done|lia|lia].
Qed.

Lemma at_addr_prefix m t l k : at_addr m t (l ++ k) → at_addr m t l.
Proof. intros [Ht H]. split; [done|]. intros i b Hi. apply H. by apply lookup_app_l_Some. Qed.

(** [strncpy] from a string or from an array of [n] bytes. *)
Lemma strncpy_run m s t n str :
  cstr_ok str → at_addr m t str → (Z.of_nat (length str) < n → at_addr m t (str ++ [0])) → 0 ≤ n → 0 ≤ s →
  s + n ≤ Z.of_nat (length m) → t + Z.of_nat (length str) < s ∨ s + n ≤ t →
  strncpy m s t n = Ok (splice m (Z.to_nat s) (take (Z.to_nat n) (str ++ replicate (Z.to_nat n) 0))).
Proof.
  intros Hstr Hat Hnul Hn Hs Hl Hov. unfold strncpy. rewrite (copy_run _ m s t n str) by (done || lia).
  case_bool_decide as Hle; simpl mbind.
  - simpl. rewrite take_app_le by lia. done.
  - rewrite stosb_run; [|lia|rewrite length_splice; rewrite ?length_app; simpl; lia].
    change (u8 0) with 0. replace (Z.to_nat (s + _ + 1)) with (Z.to_nat s + length (str ++ [0%Z]))%nat
      by (rewrite length_app; simpl; lia).
    rewrite <- splice_app by (rewrite length_app, length_replicate; simpl; lia). do 2 f_equal.
    rewrite take_app_ge by lia. rewrite take_replicate, Nat.min_l by lia.
    rewrite <- app_assoc. f_equal. replace (Z.to_nat n - length str)%nat with
      (S (Z.to_nat (n - Z.of_nat (length str) - 1))) by lia. done.
Qed.

(** [strlen] of a string. *)
Lemma strlen_run m t str : cstr_ok str → at_addr m t (str ++ [0]) → strlen m t = Ok (Z.of_nat (length str)).
Proof.
  intros Hstr Hat. unfold strlen.
  assert (∀ pre suf fuel, str = pre ++ suf → (length suf < fuel)%nat →
    strlen_loop fuel m t (Z.of_nat (length pre)) = Ok (Z.of_nat (length str))) as Hloop.
  { intros pre suf. revert pre. induction suf as [|c suf IH]; intros pre [|fuel] E Hf; try (simpl in Hf; lia);
      cbn [strlen_loop]; destruct Hat as [Ht Hat].
    - rewrite app_nil_r in E. subst pre. rewrite (getb_ok _ _ 0); [done|lia|].
      apply Hat. rewrite lookup_app_r by lia. by rewrite Nat.sub_diag.
    - rewrite (getb_ok _ _ c); [|lia|].
      2:{ apply Hat. rewrite E, <- app_assoc. rewrite lookup_app_r by lia. by rewrite Nat.sub_diag. }
      simpl mbind. rewrite bool_decide_eq_true_2.
      2:{ rewrite E in Hstr. apply Forall_app in Hstr as [_ Hstr]. apply Forall_cons in Hstr as [? _]. lia. }
      replace (Z.of_nat (length pre) + 1) with (Z.of_nat (length (pre ++ [c]))) by (rewrite length_app; simpl; lia).
      apply IH; [by rewrite <- app_assoc|simpl in Hf; lia]. }
  apply (Hloop [] str); [done|].
  destruct Hat as [Ht Hat]. specialize (Hat (length str) 0).
  rewrite lookup_app_r, Nat.sub_diag in Hat by lia. specialize (Hat eq_refl).
  apply lookup_lt_Some in Hat. lia.
Qed.

(** The string copies, for a source string [str] outside the destination:
    [strncpy] writes exactly [n] bytes, the string cut to [n] or padded with NULs;
    [safestrcpy] writes the string cut to [n-1] bytes and always a NUL after it,
    inside the [n] bytes; [strlen] returns the length. *)
Theorem string_copies m s t n str :
  cstr_ok str → at_addr m t (str ++ [0]) → 0 ≤ s → s + n ≤ Z.of_nat (length m) →
  t + Z.of_nat (length str) < s ∨ s + n ≤ t →
  (0 ≤ n → strncpy m s t n =
     Ok (splice m (Z.to_nat s) (take (Z.to_nat n) (str ++ replicate (Z.to_nat n) 0)))) ∧
  (0 < n → safestrcpy m s t n =
     Ok (splice m (Z.to_nat s) (take (Z.to_nat (n - 1)) (str ++ [0]) ++ [0]))) ∧
  strlen m t = Ok (Z.of_nat (length str)).
Proof.
  intros Hstr Hat Hs Hl Hov. assert (at_addr m t str) as Hat' by (by eapply at_addr_prefix). split_and!.
  - intros Hn. by apply strncpy_run.
  - intros Hn. unfold safestrcpy. rewrite bool_decide_eq_false_2 by lia.
    rewrite (copy_run _ m s t (n - 1) str) by (done || lia). case_bool_decide as Hle; simpl mbind.
    + rewrite putb_ok by (rewrite length_splice; rewrite ?length_take; lia).
      change (u8 0) with 0. f_equal. rewrite take_app_le by lia.
      rewrite splice_app by (rewrite length_take; simpl; lia).
      rewrite (splice_cons _ _ 0 []) by (rewrite ?length_splice; rewrite ?length_take; simpl; lia).
      rewrite splice_nil. f_equal. rewrite length_take. lia.
    + rewrite putb_ok by (rewrite length_splice; rewrite ?length_app; simpl; lia).
      change (u8 0) with 0. f_equal. rewrite (take_ge (str ++ [0])) by (rewrite length_app; simpl; lia).
      rewrite (splice_app _ _ (str ++ [0]) [0]) by (rewrite length_app; simpl; lia).
      rewrite (splice_cons _ _ 0 []) by (rewrite ?length_splice; rewrite ?length_app; simpl; lia).
      rewrite splice_nil. f_equal. rewrite length_app. simpl. lia.
  - by apply strlen_run.
Qed.

Lemma string_copies_witness :
  (strncpy [104; 105; 0; 9; 9; 9; 9; 9] 3 0 5 = Ok [104; 105; 0; 104; 105; 0; 0; 0]) ∧
  (safestrcpy [104; 105; 0; 9; 9; 9; 9; 9] 3 0 2 = Ok [104; 105; 0; 104; 0; 9; 9; 9]) ∧
  strlen [104; 105; 0; 9; 9; 9; 9; 9] 0 = Ok 2.
Proof.
  assert (at_addr [104; 105; 0; 9; 9; 9; 9; 9] 0 ([104; 105] ++ [0])) as Hat.
  { split; [lia|]. intros i b. by destruct i as [|[|[|]]]; intros ?; simplify_eq/=. }
  assert (cstr_ok [104; 105]) as Hc by (repeat constructor; lia).
  split_and!.
  - apply (string_copies [104; 105; 0; 9; 9; 9; 9; 9] 3 0 5 [104; 105] Hc Hat); simpl; lia.
  - apply (string_copies [104; 105; 0; 9; 9; 9; 9; 9] 3 0 2 [104; 105] Hc Hat); simpl; lia.
  - apply (string_copies [104; 105; 0; 9; 9; 9; 9; 9] 3 0 2 [104; 105] Hc Hat); simpl; lia.
Defined.
