(* ===== verification/Kalloc.v ===== *)
(** * xv6 physical page allocator

    Models [src/lab3/xv6-public/kalloc.c] (the same file is in lab4).  Physical
    memory is a map from page addresses (kernel virtual addresses, multiples of
    4096) to the 4096 bytes of the page; a free page holds in its first word the
    address of the next free page.  [kmem.lock] makes each operation one atomic
    step; taking and releasing it is not repeated here. *)
From stdpp Require Import base numbers list gmap strings.
From S2P Require Import Prelude Bytes.
#[local] Open Scope Z_scope.

(** ** Layout (memlayout.h, mmu.h) *)
Definition PGSIZE : Z := 4096.
Definition KERNBASE : Z := 2147483648.        (* 0x80000000 *)
Definition PHYSTOP : Z := 234881024.          (* 0xE000000 *)
Definition V2P (a : Z) : Z := u32 (a - KERNBASE).
Definition P2V (a : Z) : Z := u32 (a + KERNBASE).
Definition PGROUNDUP (sz : Z) : Z := Z.land (u32 (sz + PGSIZE - 1)) (u32 (Z.lnot (PGSIZE - 1))).
Definition PGROUNDDOWN (a : Z) : Z := Z.land a (u32 (Z.lnot (PGSIZE - 1))).

Lemma clear_low12 x : 0 ≤ x < 2^32 → Z.land x (u32 (Z.lnot (PGSIZE - 1))) = PGSIZE * (x / PGSIZE).
Proof.
  intros Hx. change (u32 (Z.lnot (PGSIZE - 1))) with (Z.ldiff (Z.ones 32) (Z.ones 12)).
  rewrite Z.ldiff_land, Z.land_assoc, Z.land_ones by lia. rewrite Z.mod_small by lia.
  rewrite <- Z.ldiff_land, Z.ldiff_ones_r by lia.
  rewrite Z.shiftl_mul_pow2, Z.shiftr_div_pow2 by lia. change (2^12) with PGSIZE. lia.
Qed.
Lemma PGROUNDUP_val x : 0 ≤ x → x + PGSIZE - 1 < 2^32 → PGROUNDUP x = PGSIZE * ((x + PGSIZE - 1) / PGSIZE).
Proof.
  intros H0 H1. unfold PGROUNDUP. rewrite u32_small by (unfold PGSIZE in *; lia).
  apply clear_low12. unfold PGSIZE in *. lia.
Qed.
Lemma PGROUNDDOWN_val x : 0 ≤ x < 2^32 → PGROUNDDOWN x = PGSIZE * (x / PGSIZE).
Proof. apply clear_low12. Qed.

(** ** State *)
Record kmem : Type := mkkmem {
  use_lock : bool;
  freelist : Z;                     (** 0: empty *)
  pages : gmap Z (list Z) }.

Definition set_freelist (v : Z) (s : kmem) : kmem := mkkmem (use_lock s) v (pages s).
Definition set_page (a : Z) (b : list Z) (s : kmem) : kmem :=
  mkkmem (use_lock s) (freelist s) (<[a := b]> (pages s)).

(** The content of the page at [a]; [Undefined] where there is no memory. *)
Definition get_page (a : Z) : M kmem (list Z) := λ s,
  match pages s !! a with Some b => Ok (b, s) | None => Fault Undefined end.
Definition put_page (a : Z) (b : list Z) : M kmem unit :=
  get_page a;; modify (set_page a b).

Section kalloc.
(** [end]: the first address after the kernel, from the linker. *)
Context (kend : Z).

Definition kfree (v : Z) : M kmem unit :=
  if bool_decide (v `mod` PGSIZE ≠ 0 ∨ v < kend ∨ PHYSTOP ≤ V2P v) then panic "kfree"
  else
    put_page v (replicate 4096 1);;
    next ← gets freelist;
    page ← get_page v;
    page ← lift (store 4 page 0 next);
    put_page v page;;
    modify (set_freelist v).

Definition kalloc : M kmem Z :=
  r ← gets freelist;
  if bool_decide (r ≠ 0) then
    page ← get_page r;
    next ← lift (load 4 page 0);
    modify (set_freelist next);;
    mret r
  else mret r.

(** [for(; p + PGSIZE <= vend; p += PGSIZE) kfree(p);] *)
Fixpoint freerange_loop (fuel : nat) (p vend : Z) : M kmem unit :=
  match fuel with
  | O => fail OutOfFuel
  | S fuel =>
    if bool_decide (p + PGSIZE ≤ vend) then
      kfree p;; freerange_loop fuel (p + PGSIZE) vend
    else mret tt
  end.
Definition freerange (vstart vend : Z) : M kmem unit :=
  let p := PGROUNDUP vstart in
  freerange_loop (S (Z.to_nat ((vend - p) / PGSIZE))) p vend.

Definition kinit1 (vstart vend : Z) : M kmem unit :=
  modify (λ s, mkkmem false (freelist s) (pages s));;
  freerange vstart vend.
Definition kinit2 (vstart vend : Z) : M kmem unit :=
  freerange vstart vend;;
  modify (λ s, mkkmem true (freelist s) (pages s)).

(** ** The free list *)

(** An address [kfree] accepts. *)
Definition page_ok (v : Z) : Prop := v `mod` PGSIZE = 0 ∧ kend ≤ v ∧ KERNBASE ≤ v < KERNBASE + PHYSTOP.

(** The pages chained from [a] are [fl]. *)
Fixpoint free_chain (pg : gmap Z (list Z)) (a : Z) (fl : list Z) : Prop :=
  match fl with
  | [] => a = 0
  | p :: fl => a = p ∧ ∃ b next, pg !! p = Some b ∧ length b = 4096%nat ∧ load 4 b 0 = Ok next ∧
               free_chain pg next fl
  end.

Record free_repr (s : kmem) (fl : list Z) : Prop := {
  fr_chain : free_chain (pages s) (freelist s) fl;
  fr_ok : Forall page_ok fl;
  fr_nodup : NoDup fl }.

Lemma page_ok_guard v : page_ok v → ¬ (v `mod` PGSIZE ≠ 0 ∨ v < kend ∨ PHYSTOP ≤ V2P v).
Proof.
  intros (H1 & H2 & H3) [?|[?|H]]; [done|lia|]. unfold V2P in H.
  rewrite u32_small in H; unfold KERNBASE, PHYSTOP in *; lia.
Qed.

Lemma free_chain_insert pg a fl v b :
  v ∉ fl → free_chain pg a fl → free_chain (<[v := b]> pg) a fl.
Proof.
  revert a. induction fl as [|p fl IH]; intros a Hv; [done|]. simpl.
  apply not_elem_of_cons in Hv as [Hvp Hv].
  intros (-> & b' & next & Hp & Hl & Hld & Hc). split; [done|]. exists b', next.
  rewrite lookup_insert_ne by done. auto.
Qed.

(** The link written by [kfree], over the junk fill. *)
Definition freed_page (next : Z) : list Z := splice (replicate 4096 1) 0 (le_bytes 4 next).

Lemma kfree_run v s b :
  page_ok v → pages s !! v = Some b → 0 ≤ freelist s < 2^32 →
  kfree v s = Ok (tt, mkkmem (use_lock s) v (<[v := freed_page (freelist s)]> (pages s))).
Proof.
  intros Hv Hp Hf. unfold kfree. rewrite bool_decide_eq_false_2 by by apply page_ok_guard.
  unfold put_page, mbind, M_bind, get_page, gets, modify, lift, set_page, set_freelist.
  cbn [pages]. rewrite Hp. cbn [pages freelist]. rewrite !lookup_insert_eq.
  rewrite store_ok by (rewrite ?length_replicate; lia). cbn [pages freelist].
  rewrite lookup_insert_eq. cbn [use_lock freelist pages]. rewrite insert_insert_eq. done.
Qed.

Lemma freed_page_next next : 0 ≤ next < 2^32 → load 4 (freed_page next) 0 = Ok next.
Proof.
  intros H. unfold freed_page.
  erewrite load_store_same by (apply (store_ok 4 _ 0); [lia|rewrite length_replicate; lia]).
  change (2 ^ (8 * Z.of_nat 4)) with (2^32). f_equal. by apply Z.mod_small.
Qed.

Lemma page_ok_range v : page_ok v → 0 < v < 2^32.
Proof. intros (_ & _ & ?). unfold KERNBASE, PHYSTOP in *. lia. Qed.

Lemma free_head_range s fl : free_repr s fl → 0 ≤ freelist s < 2^32.
Proof.
  intros [Hc Ho _]. destruct fl as [|p fl]; simpl in Hc.
  - rewrite Hc. lia.
  - destruct Hc as [-> _]. apply Forall_cons in Ho as [Ho _]. pose proof (page_ok_range p Ho). lia.
Qed.

Lemma kfree_repr v s fl b :
  free_repr s fl → page_ok v → pages s !! v = Some b → v ∉ fl →
  ∃ s', kfree v s = Ok (tt, s') ∧ free_repr s' (v :: fl) ∧ use_lock s' = use_lock s ∧
    pages s' = <[v := freed_page (freelist s)]> (pages s).
Proof.
  intros Hr Hv Hp Hn. pose proof (free_head_range s fl Hr). pose proof Hr as [Hc Ho Hd].
  eexists. split_and!; [by eapply kfree_run| |done|done]. split; simpl.
  - split; [done|]. eexists _, _. rewrite lookup_insert_eq. split_and!; [done| |by apply freed_page_next|].
    + unfold freed_page. rewrite length_splice; [apply length_replicate|].
      rewrite length_le_bytes, length_replicate. lia.
    + by apply free_chain_insert.
  - by constructor.
  - by constructor.
Qed.

Lemma kalloc_repr s fl :
  free_repr s fl →
  match fl with
  | [] => kalloc s = Ok (0, s)
  | p :: fl' => ∃ s', kalloc s = Ok (p, s') ∧ free_repr s' fl' ∧ pages s' = pages s ∧ use_lock s' = use_lock s
  end.
Proof.
  intros [Hc Ho Hd]. unfold kalloc, mbind, M_bind, gets, get_page, lift, modify.
  destruct fl as [|p fl]; simpl in Hc.
  - rewrite Hc, bool_decide_eq_false_2; [|lia]. by rewrite run_ret, <- Hc.
  - destruct Hc as (-> & b & next & Hp & Hl & Hld & Hch).
    apply Forall_cons in Ho as [Hop Ho]. apply NoDup_cons in Hd as [_ Hd].
    pose proof (page_ok_range p Hop). rewrite bool_decide_eq_true_2 by lia. rewrite Hp, Hld.
    eexists. split_and!; [done| |done|done]. by split.
Qed.

(** Freeing a range, lowest page first. *)
Definition range_pages (p : Z) (k : nat) : list Z := map (λ i, p + PGSIZE * Z.of_nat i) (seq 0 k).

Lemma range_pages_S p k : range_pages p (S k) = p :: range_pages (p + PGSIZE) k.
Proof.
  unfold range_pages. cbn [seq map]. f_equal; [lia|]. rewrite <- fmap_S_seq, map_map.
  apply map_ext. intros i. lia.
Qed.

Lemma freerange_loop_run k fuel p vend s fl :
  free_repr s fl → p + PGSIZE * Z.of_nat k ≤ vend < p + PGSIZE * Z.of_nat k + PGSIZE → (k < fuel)%nat →
  Forall page_ok (range_pages p k) → (∀ q, q ∈ range_pages p k → (q ∉ fl) ∧ is_Some (pages s !! q)) →
  ∃ s', freerange_loop fuel p vend s = Ok (tt, s') ∧
    free_repr s' (rev (range_pages p k) ++ fl) ∧ use_lock s' = use_lock s ∧
    (∀ q, q ∉ range_pages p k → pages s' !! q = pages s !! q).
Proof.
  revert fuel p s fl. induction k as [|k IH]; intros [|fuel] p s fl Hr Hv Hf Hok Hq; try lia; cbn [freerange_loop].
  - rewrite bool_decide_eq_false_2 by lia. exists s. by split_and!.
  - rewrite bool_decide_eq_true_2 by (unfold PGSIZE in *; lia). rewrite range_pages_S in *.
    apply Forall_cons in Hok as [Hop Hok].
    destruct (Hq p ltac:(by left)) as [Hn [b Hb]].
    destruct (kfree_repr p s fl b Hr Hop Hb Hn) as (s1 & Hk & Hr1 & Hul & Hpg).
    rewrite (bind_ok _ _ _ _ _ Hk). cbv beta.
    destruct (IH fuel (p + PGSIZE) s1 (p :: fl) Hr1) as (s' & Hrun & Hr' & Hul' & Hpg');
      [lia|lia|done| |].
    + intros q Hin. destruct (Hq q ltac:(by right)) as [Hn' [b' Hb']].
      assert (p ≠ q) as Hpq.
      { intros ->. apply list_elem_of_fmap in Hin as (i & E & _). unfold PGSIZE in E. lia. }
      rewrite Hpg, lookup_insert_ne by done. split; [|by eexists].
      apply not_elem_of_cons. split; [by apply not_eq_sym|done].
    + exists s'. split_and!; [done| |congruence|].
      * simpl rev. by rewrite <- app_assoc.
      * intros q [Hqp Hqn]%not_elem_of_cons. rewrite Hpg' by done.
        rewrite Hpg, lookup_insert_ne; [done|by apply not_eq_sym].
Qed.
End kalloc.

(** ** Properties *)

(** C9: [kalloc] and [kfree] implement a stack of free pages.  [kalloc] returns
    0, changing nothing, exactly when the stack is empty, and otherwise pops its
    head without touching any page; [kfree] of a page that is not free pushes it,
    overwrites the page with junk and touches no other page, so the next [kalloc]
    returns it and restores the stack; [kfree] of an address that is unaligned,
    below the end of the kernel or above the top of memory panics. *)
Theorem page_allocator_is_a_stack kend s fl :
  free_repr kend s fl →
  (fl = [] → kalloc s = Ok (0, s)) ∧
  (∀ p fl', fl = p :: fl' → ∃ s', kalloc s = Ok (p, s') ∧ free_repr kend s' fl' ∧ pages s' = pages s) ∧
  (∀ v b, page_ok kend v → pages s !! v = Some b → v ∉ fl → ∃ s' s'',
     kfree kend v s = Ok (tt, s') ∧ free_repr kend s' (v :: fl) ∧
     (∀ q, q ≠ v → pages s' !! q = pages s !! q) ∧
     (∀ i, (4 ≤ i < 4096)%nat → ((pages s' !! v) ≫= (λ b, b !! i)) = Some 1) ∧
     kalloc s' = Ok (v, s'') ∧ free_repr kend s'' fl) ∧
  (∀ v, v `mod` PGSIZE ≠ 0 ∨ v < kend ∨ PHYSTOP ≤ V2P v → kfree kend v s = Fault (Panic "kfree")).
Proof.
  intros Hr. split_and!.
  - intros ->. apply (kalloc_repr kend s [] Hr).
  - intros p fl' ->. destruct (kalloc_repr kend s (p :: fl') Hr) as (s' & H1 & H2 & H3 & _). by exists s'.
  - intros v b Hv Hb Hn. destruct (kfree_repr kend v s fl b Hr Hv Hb Hn) as (s' & H1 & H2 & H3 & H4).
    destruct (kalloc_repr kend s' (v :: fl) H2) as (s'' & H5 & H6 & _).
    exists s', s''. split_and!; try done.
    + intros q Hq. by rewrite H4, lookup_insert_ne by done.
    + intros i Hi. rewrite H4, lookup_insert_eq. simpl. unfold freed_page.
      rewrite lookup_splice_old by (rewrite ?length_le_bytes, ?length_replicate; lia).
      apply lookup_replicate_2. lia.
  - intros v Hv. unfold kfree. by rewrite bool_decide_eq_true_2.
Qed.

(** Two free pages at the bottom of memory. *)
Definition km_ex : kmem :=
  mkkmem false (KERNBASE + 4096)
    (<[KERNBASE + 4096 := freed_page (KERNBASE + 8192)]> (<[KERNBASE + 8192 := freed_page 0]> ∅)).

Lemma km_ex_repr : free_repr KERNBASE km_ex [KERNBASE + 4096; KERNBASE + 8192].
Proof.
  split.
  - cbn [free_chain km_ex freelist pages]. split; [done|]. eexists _, _.
    rewrite lookup_insert_eq. split_and!; [done|by vm_compute|apply freed_page_next; unfold KERNBASE; lia|done|].
    eexists _, _. rewrite lookup_insert_ne by done. rewrite lookup_insert_eq.
    split_and!; [done|by vm_compute|apply freed_page_next; lia|done].
  - repeat constructor; unfold page_ok, KERNBASE, PHYSTOP; done.
  - apply (bool_decide_unpack _). by vm_compute.
Qed.

Lemma page_allocator_is_a_stack_witness : ∃ s',
  kalloc km_ex = Ok (KERNBASE + 4096, s') ∧ free_repr KERNBASE s' [KERNBASE + 8192] ∧ pages s' = pages km_ex.
Proof.
  apply (proj1 (proj2 (page_allocator_is_a_stack KERNBASE km_ex _ km_ex_repr)) _ _ eq_refl).
Defined.

(** [freerange] frees exactly the whole pages inside the range: from the
    first page boundary at or above [vstart] on, every page that ends at or below
    [vend] is pushed, in ascending order, and nothing outside is touched. *)
Theorem freerange_frees_whole_pages kend s fl vstart vend :
  free_repr kend s fl → KERNBASE ≤ vstart → vstart ≤ vend ≤ KERNBASE + PHYSTOP → kend ≤ vstart →
  let p := PGROUNDUP vstart in let k := Z.to_nat ((vend - p) / PGSIZE) in
  (∀ q, q ∈ range_pages p k → (q ∉ fl) ∧ is_Some (pages s !! q)) →
  vstart ≤ p < vstart + PGSIZE ∧ p `mod` PGSIZE = 0 ∧
  ∃ s', freerange kend vstart vend s = Ok (tt, s') ∧ free_repr kend s' (rev (range_pages p k) ++ fl) ∧
    (∀ q, q ∉ range_pages p k → pages s' !! q = pages s !! q).
Proof.
  intros Hr Hb Hv Hk p k Hq.
  assert (p = PGSIZE * ((vstart + PGSIZE - 1) / PGSIZE)) as Hp.
  { apply PGROUNDUP_val; unfold PGSIZE, KERNBASE, PHYSTOP in *; lia. }
  assert (PGROUNDUP vstart = p) as Ep by done. clearbody p.
  assert (vstart ≤ p < vstart + PGSIZE) as Hrange by (unfold PGSIZE in *; dlia).
  split; [done|]. split; [rewrite Hp; unfold PGSIZE; dlia|].
  destruct (decide (p ≤ vend)) as [Hpv|Hpv].
  - destruct (freerange_loop_run kend k (S k) p vend s fl Hr) as (s' & H1 & H2 & _ & H3).
    + unfold k, PGSIZE in *. dlia.
    + lia.
    + apply Forall_forall. intros q (i & -> & Hi%elem_of_seq)%list_elem_of_fmap.
      unfold page_ok, k, PGSIZE in *. split_and!; dlia.
    + done.
    + exists s'. split_and!; try done. unfold freerange. by rewrite Ep.
  - assert (k = 0%nat) as Hk0 by (unfold k, PGSIZE in *; dlia).
    exists s. rewrite Hk0. split_and!; [|done|done].
    unfold freerange. rewrite Ep. cbn [freerange_loop].
    rewrite bool_decide_eq_false_2 by (unfold PGSIZE; lia). done.
Qed.

(** Two blank pages, nothing free yet. *)
Definition km_raw : kmem :=
  mkkmem false 0 (<[KERNBASE + 4096 := replicate 4096 0]> (<[KERNBASE + 8192 := replicate 4096 0]> ∅)).

Lemma freerange_frees_whole_pages_witness : ∃ s',
  freerange KERNBASE (KERNBASE + 1) (KERNBASE + 12289) km_raw = Ok (tt, s') ∧
  free_repr KERNBASE s' [KERNBASE + 8192; KERNBASE + 4096].
Proof.
  destruct (freerange_frees_whole_pages KERNBASE km_raw [] (KERNBASE + 1) (KERNBASE + 12289))
    as (_ & _ & s' & H1 & H2 & _); try (unfold KERNBASE, PHYSTOP; lia).
  - split; [done|constructor|constructor].
  - change (Z.to_nat ((KERNBASE + 12289 - PGROUNDUP (KERNBASE + 1)) / PGSIZE)) with 2%nat.
    change (PGROUNDUP (KERNBASE + 1)) with (KERNBASE + 4096).
    intros q [->|[->|?%elem_of_nil]%elem_of_cons]%elem_of_cons; [| |done];
      (split; [by apply not_elem_of_nil|]); vm_compute; eauto.
  - exists s'. split; [exact H1|exact H2].
Defined.
