(* ===== verification/Vm.v ===== *)
(** * xv6 virtual memory

    Models [src/lab3/xv6-public/vm.c] (lab4 has the same code) on the memory of
    [Kalloc]: page directories and page tables are pages of 1024 little-endian
    words.  A pointer to a page table entry is a pair of the page's address and
    the index of the word.  [loaduvm], which also reads the file system, is in
    [Exec].  Segment set-up and the task state are not modelled;
    of [switchuvm] the checks and the page table register are. *)
From stdpp Require Import base numbers list gmap strings.
From S2P Require Import Prelude Bytes Kalloc.
#[local] Open Scope Z_scope.

(** ** Constants (mmu.h, memlayout.h) *)
Definition PTE_P : Z := 1.
Definition PTE_W : Z := 2.
Definition PTE_U : Z := 4.
Definition NPDENTRIES : Z := 1024.
Definition PDX (va : Z) : Z := Z.land (Z.shiftr va 22) 1023.
Definition PTX (va : Z) : Z := Z.land (Z.shiftr va 12) 1023.
Definition PGADDR (d t o : Z) : Z := u32 (Z.lor (Z.lor (Z.shiftl d 22) (Z.shiftl t 12)) o).
Definition PTE_ADDR (pte : Z) : Z := Z.land pte (u32 (Z.lnot 4095)).
Definition PTE_FLAGS (pte : Z) : Z := Z.land pte 4095.
Definition EXTMEM : Z := 1048576.             (* 0x100000 *)
Definition DEVSPACE : Z := 4261412864.        (* 0xFE000000 *)
Definition KERNLINK : Z := KERNBASE + EXTMEM.

(** ** Words of a page *)
Definition read_word (a i : Z) : M kmem Z := page ← get_page a; lift (load 4 page (4 * i)).
Definition write_word (a i v : Z) : M kmem unit :=
  page ← get_page a; page ← lift (store 4 page (4 * i) v); put_page a page.

Definition present (pte : Z) : bool := negb (bool_decide (Z.land pte PTE_P = 0)).

Section vm.
(** [end] and [data] come from the linker. *)
Context (kend kdata : Z).

Definition walkpgdir (pgdir va : Z) (alloc : bool) : M kmem (option (Z * Z)) :=
  pde ← read_word pgdir (PDX va);
  if present pde then mret (Some (P2V (PTE_ADDR pde), PTX va))
  else if negb alloc then mret None
  else
    pgtab ← kalloc;
    if bool_decide (pgtab = 0) then mret None
    else
      put_page pgtab (replicate 4096 0);;
      write_word pgdir (PDX va) (Z.lor (Z.lor (Z.lor (V2P pgtab) PTE_P) PTE_W) PTE_U);;
      mret (Some (pgtab, PTX va)).

(** The loop of [mappages]; [fuel] is the number of pages. *)
Fixpoint mappages_loop (fuel : nat) (pgdir a last pa perm : Z) : M kmem Z :=
  match fuel with
  | O => fail OutOfFuel
  | S fuel =>
    pte ← walkpgdir pgdir a true;
    match pte with
    | None => mret (-1)
    | Some (t, i) =>
      old ← read_word t i;
      if present old then panic "remap"
      else
        write_word t i (Z.lor (Z.lor pa perm) PTE_P);;
        if bool_decide (a = last) then mret 0
        else mappages_loop fuel pgdir (u32 (a + PGSIZE)) last (u32 (pa + PGSIZE)) perm
    end
  end.

Definition mappages (pgdir va size pa perm : Z) : M kmem Z :=
  let a := PGROUNDDOWN va in
  let last := PGROUNDDOWN (u32 (va + size - 1)) in
  mappages_loop (S (Z.to_nat (u32 (last - a) / PGSIZE))) pgdir a last pa perm.

(** ** Releasing memory *)

(** [for(; a < oldsz; a += PGSIZE)], skipping absent page tables. *)
Fixpoint dealloc_loop (fuel : nat) (pgdir a oldsz : Z) : M kmem unit :=
  match fuel with
  | O => fail OutOfFuel
  | S fuel =>
    if bool_decide (a < oldsz) then
      pte ← walkpgdir pgdir a false;
      match pte with
      | None => dealloc_loop fuel pgdir (u32 (u32 (PGADDR (PDX a + 1) 0 0 - PGSIZE) + PGSIZE)) oldsz
      | Some (t, i) =>
        v ← read_word t i;
        if present v then
          let pa := PTE_ADDR v in
          if bool_decide (pa = 0) then panic "kfree"
          else
            kfree kend (P2V pa);;
            write_word t i 0;;
            dealloc_loop fuel pgdir (u32 (a + PGSIZE)) oldsz
        else dealloc_loop fuel pgdir (u32 (a + PGSIZE)) oldsz
      end
    else mret tt
  end.

Definition deallocuvm (pgdir oldsz newsz : Z) : M kmem Z :=
  if bool_decide (oldsz ≤ newsz) then mret oldsz
  else
    let a := PGROUNDUP newsz in
    dealloc_loop (S (Z.to_nat ((oldsz - newsz) / PGSIZE + 1))) pgdir a oldsz;;
    mret newsz.

(** [for(i = 0; i < NPDENTRIES; i++)] over the page tables. *)
Fixpoint free_tables (n : nat) (pgdir i : Z) : M kmem unit :=
  match n with
  | O => mret tt
  | S n =>
    pde ← read_word pgdir i;
    if present pde then kfree kend (P2V (PTE_ADDR pde));; free_tables n pgdir (i + 1)
    else free_tables n pgdir (i + 1)
  end.

Definition freevm (pgdir : Z) : M kmem unit :=
  if bool_decide (pgdir = 0) then panic "freevm: no pgdir"
  else
    deallocuvm pgdir KERNBASE 0;;
    free_tables (Z.to_nat NPDENTRIES) pgdir 0;;
    kfree kend pgdir.

(** ** The kernel part of an address space *)
Record kmap_entry : Type := mkkmap { virt : Z; phys_start : Z; phys_end : Z; kperm : Z }.
Definition kmap : list kmap_entry :=
  [mkkmap KERNBASE 0 EXTMEM PTE_W;
   mkkmap KERNLINK (V2P KERNLINK) (V2P kdata) 0;
   mkkmap kdata (V2P kdata) PHYSTOP PTE_W;
   mkkmap DEVSPACE DEVSPACE 0 PTE_W].

Fixpoint map_all (ks : list kmap_entry) (pgdir : Z) : M kmem Z :=
  match ks with
  | [] => mret pgdir
  | k :: ks =>
    r ← mappages pgdir (virt k) (u32 (phys_end k - phys_start k)) (phys_start k) (kperm k);
    if bool_decide (r < 0) then freevm pgdir;; mret 0 else map_all ks pgdir
  end.

Definition setupkvm : M kmem Z :=
  pgdir ← kalloc;
  if bool_decide (pgdir = 0) then mret 0
  else
    put_page pgdir (replicate 4096 0);;
    if bool_decide (P2V PHYSTOP > DEVSPACE) then panic "PHYSTOP too high"
    else map_all kmap pgdir.

(** ** User memory *)
Definition inituvm (pgdir : Z) (init : list Z) : M kmem unit :=
  if bool_decide (PGSIZE ≤ Z.of_nat (length init)) then panic "inituvm: more than a page"
  else
    mem ← kalloc;
    put_page mem (replicate 4096 0);;
    mappages pgdir 0 PGSIZE (V2P mem) (Z.lor PTE_W PTE_U);;
    page ← get_page mem;
    put_page mem (splice page 0 init).

(** [for(; a < newsz; a += PGSIZE)]: 0 when memory runs out. *)
Fixpoint alloc_loop (fuel : nat) (pgdir a oldsz newsz : Z) : M kmem Z :=
  match fuel with
  | O => fail OutOfFuel
  | S fuel =>
    if bool_decide (a < newsz) then
      mem ← kalloc;
      if bool_decide (mem = 0) then deallocuvm pgdir newsz oldsz;; mret 0
      else
        put_page mem (replicate 4096 0);;
        r ← mappages pgdir a PGSIZE (V2P mem) (Z.lor PTE_W PTE_U);
        if bool_decide (r < 0) then
          deallocuvm pgdir newsz oldsz;; kfree kend mem;; mret 0
        else alloc_loop fuel pgdir (u32 (a + PGSIZE)) oldsz newsz
    else mret newsz
  end.

Definition allocuvm (pgdir oldsz newsz : Z) : M kmem Z :=
  if bool_decide (KERNBASE ≤ newsz) then mret 0
  else if bool_decide (newsz < oldsz) then mret oldsz
  else alloc_loop (S (Z.to_nat ((newsz - oldsz) / PGSIZE + 1))) pgdir (PGROUNDUP oldsz) oldsz newsz.

Definition clearpteu (pgdir uva : Z) : M kmem unit :=
  pte ← walkpgdir pgdir uva false;
  match pte with
  | None => panic "clearpteu"
  | Some (t, i) => v ← read_word t i; write_word t i (Z.land v (u32 (Z.lnot PTE_U)))
  end.

(** [for(i = 0; i < sz; i += PGSIZE)] of [copyuvm]; [bad] frees the copy. *)
Fixpoint copy_loop (fuel : nat) (pgdir d i sz : Z) : M kmem Z :=
  match fuel with
  | O => fail OutOfFuel
  | S fuel =>
    if bool_decide (i < sz) then
      pte ← walkpgdir pgdir i false;
      match pte with
      | None => panic "copyuvm: pte should exist"
      | Some (t, j) =>
        v ← read_word t j;
        if negb (present v) then panic "copyuvm: page not present"
        else
          let pa := PTE_ADDR v in
          let flags := PTE_FLAGS v in
          mem ← kalloc;
          if bool_decide (mem = 0) then freevm d;; mret 0
          else
            src ← get_page (P2V pa);
            put_page mem src;;
            r ← mappages d i PGSIZE (V2P mem) flags;
            if bool_decide (r < 0) then kfree kend mem;; freevm d;; mret 0
            else copy_loop fuel pgdir d (u32 (i + PGSIZE)) sz
      end
    else mret d
  end.

Definition copyuvm (pgdir sz : Z) : M kmem Z :=
  d ← setupkvm;
  if bool_decide (d = 0) then mret 0
  else copy_loop (S (S (Z.to_nat (sz / PGSIZE)))) pgdir d 0 sz.

(** A user address without a page table makes [uva2ka] follow a null pointer. *)
Definition uva2ka (pgdir uva : Z) : M kmem Z :=
  pte ← walkpgdir pgdir uva false;
  match pte with
  | None => fail Undefined
  | Some (t, i) =>
    v ← read_word t i;
    if negb (present v) then mret 0
    else if bool_decide (Z.land v PTE_U = 0) then mret 0
    else mret (P2V (PTE_ADDR v))
  end.

Fixpoint copyout_loop (fuel : nat) (pgdir va : Z) (buf : list Z) : M kmem Z :=
  match fuel with
  | O => fail OutOfFuel
  | S fuel =>
    if bool_decide (0 < Z.of_nat (length buf)) then
      let va0 := PGROUNDDOWN va in
      pa0 ← uva2ka pgdir va0;
      if bool_decide (pa0 = 0) then mret (-1)
      else
        let n := Z.to_nat (Z.min (PGSIZE - (va - va0)) (Z.of_nat (length buf))) in
        page ← get_page pa0;
        put_page pa0 (splice page (Z.to_nat (va - va0)) (take n buf));;
        copyout_loop fuel pgdir (u32 (va0 + PGSIZE)) (drop n buf)
    else mret 0
  end.
Definition copyout (pgdir va : Z) (buf : list Z) : M kmem Z :=
  copyout_loop (S (S (S (length buf / 4096)))) pgdir va buf.

(** ** lab4: the page fault branch of [trap] and the lazy [sys_sbrk]

    [cr2] is the faulting address; the result says whether a page was mapped. *)
Definition page_fault (pgdir cr2 : Z) : M kmem bool :=
  let a := PGROUNDDOWN cr2 in
  mem ← kalloc;
  if bool_decide (mem = 0) then mret false
  else
    put_page mem (replicate 4096 0);;
    r ← mappages pgdir a PGSIZE (V2P mem) (Z.lor PTE_W PTE_U);
    if bool_decide (r < 0) then kfree kend mem;; mret false
    else mret true.
End vm.

(** [addr = myproc()->sz; myproc()->sz += n; return addr;] *)
Definition sys_sbrk_lazy (sz n : Z) : Z * Z := (s32 sz, u32 (sz + n)).
