(* ===== verification/VmFacts.v ===== *)
(** * Page tables: what the vm operations do to a mapping

    [pte_at] reads the entry for a virtual address directly from memory and
    [mapped] keeps the present ones; [pt_wf] says that a page directory and its
    tables are distinct pages outside the free list.  The lemmas describe the
    operations of [Vm] through this view. *)
From stdpp Require Import base numbers list gmap strings.
From S2P Require Import Prelude Bytes Kalloc Vm.
#[local] Open Scope Z_scope.

(** ** Words *)
Definition page_good (b : list Z) : Prop := length b = 4096%nat ∧ Forall byte_ok b.
Definition word (b : list Z) (i : Z) : Z := le_val (slice b (Z.to_nat (4 * i)) 4).
Definition set_word (b : list Z) (i v : Z) : list Z := splice b (Z.to_nat (4 * i)) (le_bytes 4 v).

Lemma load_word b i : page_good b → 0 ≤ i < 1024 → load 4 b (4 * i) = Ok (word b i).
Proof. intros [Hl _] Hi. apply load_ok; lia. Qed.
Lemma store_word b i v : page_good b → 0 ≤ i < 1024 → store 4 b (4 * i) v = Ok (set_word b i v).
Proof. intros [Hl _] Hi. apply store_ok; lia. Qed.

Lemma set_word_good b i v : page_good b → 0 ≤ i < 1024 → page_good (set_word b i v).
Proof.
  intros [Hl Hb] Hi. split.
  - unfold set_word. rewrite length_splice; [done|]. rewrite length_le_bytes. lia.
  - apply splice_forall; [done|]. apply le_bytes_ok.
Qed.

Lemma word_set b i j v : page_good b → 0 ≤ i < 1024 → 0 ≤ j < 1024 → 0 ≤ v < 2^32 →
  word (set_word b i v) j = if bool_decide (i = j) then v else word b j.
Proof.
  intros Hb Hi Hj Hv. pose proof (store_word b i v Hb Hi) as Hs.
  pose proof (set_word_good b i v Hb Hi) as Hg. case_bool_decide as E; [subst j|].
  - pose proof (load_store_same _ _ _ _ _ Hs) as Hl. rewrite (load_word _ _ Hg Hi) in Hl.
    injection Hl as ->. change (2 ^ (8 * Z.of_nat 4)) with (2^32). by apply Z.mod_small.
  - pose proof (load_store_other 4 b (4 * i) v _ 4 (4 * j) Hs ltac:(lia)) as Hl.
    rewrite (load_word _ _ Hg Hj), (load_word _ _ Hb Hj) in Hl. by injection Hl as ->.
Qed.

Lemma word_range b i : page_good b → 0 ≤ i < 1024 → 0 ≤ word b i < 2^32.
Proof.
  intros [Hl Hb] Hi. pose proof (le_val_range (slice b (Z.to_nat (4 * i)) 4)) as H.
  rewrite length_slice in H by lia. apply H. by apply slice_forall.
Qed.

Lemma zero_page_good : page_good (replicate 4096 0).
Proof. split; [apply length_replicate|by apply Forall_replicate]. Qed.
Lemma word_zero i : 0 ≤ i < 1024 → word (replicate 4096 0) i = 0.
Proof.
  intros Hi. unfold word, slice. rewrite drop_replicate, take_replicate. apply le_val_replicate_0.
Qed.

(** ** Address arithmetic *)
Lemma PDX_val va : 0 ≤ va → PDX va = (va / 4194304) `mod` 1024.
Proof.
  intros H. unfold PDX. rewrite Z.shiftr_div_pow2 by lia. change 1023 with (Z.ones 10).
  by rewrite Z.land_ones by lia.
Qed.
Lemma PTX_val va : 0 ≤ va → PTX va = (va / 4096) `mod` 1024.
Proof.
  intros H. unfold PTX. rewrite Z.shiftr_div_pow2 by lia. change 1023 with (Z.ones 10).
  by rewrite Z.land_ones by lia.
Qed.
Lemma PDX_range va : 0 ≤ va → 0 ≤ PDX va < 1024.
Proof. intros. rewrite PDX_val by done. dlia. Qed.
Lemma PTX_range va : 0 ≤ va → 0 ≤ PTX va < 1024.
Proof. intros. rewrite PTX_val by done. dlia. Qed.

(** Two addresses share both indices exactly when they are on the same page. *)
Definition page_of (va : Z) : Z := va / 4096.
Lemma same_page va va' : 0 ≤ va < 2^32 → 0 ≤ va' < 2^32 →
  page_of va = page_of va' ↔ PDX va = PDX va' ∧ PTX va = PTX va'.
Proof.
  intros H H'. rewrite !PDX_val, !PTX_val by lia. unfold page_of.
  assert (∀ x, x / 4194304 = x / 4096 / 1024) as Hd by (intros x; rewrite Z.div_div by lia; done).
  rewrite !Hd. split; [by intros ->|]. intros [H1 H2].
  assert (0 ≤ va / 4096 < 1048576) by dlia. assert (0 ≤ va' / 4096 < 1048576) by dlia.
  rewrite !(Z.mod_small (_ / 1024)) in H1 by dlia. dlia.
Qed.

(** Page frame and flags of an entry. *)
Lemma land_aligned k f : 0 ≤ f < 4096 → Z.land (4096 * k) f = 0.
Proof.
  intros Hf. apply Z.bits_inj'. intros n Hn. rewrite Z.land_spec, Z.bits_0.
  destruct (decide (n < 12)).
  - rewrite Z.mul_comm. change 4096 with (2^12). rewrite Z.mul_pow2_bits_low by lia. done.
  - rewrite (Z.bits_above_log2 f n); [apply andb_false_r|lia|].
    destruct (decide (f = 0)) as [->|]; [simpl; lia|].
    assert (Z.log2 f < 12); [|lia]. apply Z.log2_lt_pow2; lia.
Qed.
Lemma lor_aligned k f : 0 ≤ f < 4096 → Z.lor (4096 * k) f = 4096 * k + f.
Proof. intros Hf. pose proof (Z.add_lor_land (4096 * k) f) as H. rewrite land_aligned in H by done. lia. Qed.

Lemma PTE_ADDR_val pte : 0 ≤ pte < 2^32 → PTE_ADDR pte = 4096 * (pte / 4096).
Proof. intros H. apply (clear_low12 pte H). Qed.
Lemma PTE_FLAGS_val pte : PTE_FLAGS pte = pte `mod` 4096.
Proof. unfold PTE_FLAGS. change 4095 with (Z.ones 12). by rewrite Z.land_ones by lia. Qed.
Lemma present_odd pte : present pte = Z.odd pte.
Proof.
  unfold present, PTE_P. assert (Z.land pte 1 = pte `mod` 2) as -> by exact (Z.land_ones pte 1 ltac:(lia)).
  rewrite Zmod_odd. by destruct (Z.odd pte).
Qed.
Lemma present_frame k f : present (4096 * k + f) = Z.odd f.
Proof. rewrite present_odd, Z.odd_add. replace (4096 * k) with (2 * (2048 * k)) by lia. by rewrite Z.odd_mul. Qed.

Section view.
Context (kend : Z).

(** ** The view *)
Definition page_at (pg : gmap Z (list Z)) (a : Z) : list Z := default [] (pg !! a).
Lemma page_at_Some pg a b : pg !! a = Some b → page_at pg a = b.
Proof. unfold page_at. by intros ->. Qed.
Lemma page_at_eq pg a b : page_at (<[a := b]> pg) a = b.
Proof. apply page_at_Some, lookup_insert_eq. Qed.
Lemma page_at_ne pg a b q : a ≠ q → page_at (<[a := b]> pg) q = page_at pg q.
Proof. intros H. unfold page_at. by rewrite lookup_insert_ne. Qed.

Definition pde_at (pg : gmap Z (list Z)) (pgdir i : Z) : Z := word (page_at pg pgdir) i.
Definition table_of (pg : gmap Z (list Z)) (pgdir i : Z) : Z := P2V (PTE_ADDR (pde_at pg pgdir i)).
Definition pte_at (pg : gmap Z (list Z)) (pgdir va : Z) : Z :=
  if present (pde_at pg pgdir (PDX va)) then word (page_at pg (table_of pg pgdir (PDX va))) (PTX va)
  else 0.
(** The entry that maps [va], if there is one. *)
Definition mapped (pg : gmap Z (list Z)) (pgdir va : Z) : option Z :=
  if present (pte_at pg pgdir va) then Some (pte_at pg pgdir va) else None.

Definition good_at (pg : gmap Z (list Z)) (a : Z) : Prop := ∃ b, pg !! a = Some b ∧ page_good b.

Record pt_wf (s : kmem) (fl : list Z) (pgdir : Z) : Prop := {
  pt_free : free_repr kend s fl;
  pt_fl : ∀ p, p ∈ fl → good_at (pages s) p;
  pt_dir : good_at (pages s) pgdir ∧ (pgdir ∉ fl);
  pt_tab : ∀ i, 0 ≤ i < 1024 → present (pde_at (pages s) pgdir i) = true →
    good_at (pages s) (table_of (pages s) pgdir i) ∧ (table_of (pages s) pgdir i ∉ fl) ∧
    table_of (pages s) pgdir i ≠ pgdir;
  pt_inj : ∀ i j, 0 ≤ i < 1024 → 0 ≤ j < 1024 → present (pde_at (pages s) pgdir i) = true →
    present (pde_at (pages s) pgdir j) = true →
    table_of (pages s) pgdir i = table_of (pages s) pgdir j → i = j }.

(** The pages a directory owns. *)
Definition owns (pg : gmap Z (list Z)) (pgdir q : Z) : Prop :=
  q = pgdir ∨ ∃ i, 0 ≤ i < 1024 ∧ present (pde_at pg pgdir i) = true ∧ q = table_of pg pgdir i.

Lemma read_word_run s a i b : pages s !! a = Some b → page_good b → 0 ≤ i < 1024 →
  read_word a i s = Ok (word b i, s).
Proof.
  intros Ha Hb Hi. unfold read_word, mbind, M_bind, get_page, lift. by rewrite Ha, load_word.
Qed.
Lemma write_word_run s a i b v : pages s !! a = Some b → page_good b → 0 ≤ i < 1024 →
  write_word a i v s = Ok (tt, set_page a (set_word b i v) s).
Proof.
  intros Ha Hb Hi. unfold write_word, put_page, mbind, M_bind, get_page, lift, modify.
  by rewrite Ha, store_word, Ha by done.
Qed.
Lemma put_page_run s a b b' : pages s !! a = Some b' → put_page a b s = Ok (tt, set_page a b s).
Proof. intros Ha. unfold put_page, mbind, M_bind, get_page, modify. by rewrite Ha. Qed.

(** ** walkpgdir *)
Lemma walk_present s fl pgdir va alloc :
  pt_wf s fl pgdir → 0 ≤ va → present (pde_at (pages s) pgdir (PDX va)) = true →
  walkpgdir pgdir va alloc s = Ok (Some (table_of (pages s) pgdir (PDX va), PTX va), s).
Proof.
  intros Hwf Hva Hp. destruct (pt_dir _ _ _ Hwf) as [(b & Hb & Hg) _]. unfold walkpgdir.
  erewrite bind_ok by (eapply read_word_run; [exact Hb|done|by apply PDX_range]). cbv beta.
  unfold pde_at in Hp. rewrite (page_at_Some _ _ _ Hb) in Hp. rewrite Hp.
  unfold table_of, pde_at. by rewrite (page_at_Some _ _ _ Hb).
Qed.

Lemma walk_absent s fl pgdir va :
  pt_wf s fl pgdir → 0 ≤ va → present (pde_at (pages s) pgdir (PDX va)) = false →
  walkpgdir pgdir va false s = Ok (None, s).
Proof.
  intros Hwf Hva Hp. destruct (pt_dir _ _ _ Hwf) as [(b & Hb & Hg) _]. unfold walkpgdir.
  erewrite bind_ok by (eapply read_word_run; [exact Hb|done|by apply PDX_range]). cbv beta.
  unfold pde_at in Hp. rewrite (page_at_Some _ _ _ Hb) in Hp. by rewrite Hp.
Qed.

(** A directory entry for a fresh table page. *)
Definition pde_for (p : Z) : Z := Z.lor (Z.lor (Z.lor (V2P p) PTE_P) PTE_W) PTE_U.

Lemma frame_val p : page_ok kend p → ∃ k, V2P p = 4096 * k ∧ 0 ≤ k < 57344 ∧ P2V (4096 * k) = p.
Proof.
  intros (Hm & _ & Hr). exists ((p - KERNBASE) / 4096). unfold V2P, P2V, KERNBASE, PHYSTOP, PGSIZE in *.
  rewrite u32_small by lia.
  assert (p - 2147483648 = 4096 * ((p - 2147483648) / 4096)) as E by dlia.
  split; [done|]. split; [dlia|]. rewrite <- E, u32_small; lia.
Qed.

Lemma pde_for_val p : page_ok kend p →
  pde_for p = V2P p + 7 ∧ 0 ≤ pde_for p < 2^32 ∧ present (pde_for p) = true ∧ P2V (PTE_ADDR (pde_for p)) = p.
Proof.
  intros Hp. destruct (frame_val p Hp) as (k & Hk & Hr & Hback).
  assert (pde_for p = V2P p + 7) as E.
  { unfold pde_for. rewrite <- !Z.lor_assoc. change (Z.lor PTE_P (Z.lor PTE_W PTE_U)) with 7.
    rewrite Hk, lor_aligned by lia. done. }
  split; [done|]. rewrite E, Hk. split; [lia|]. split.
  - by rewrite present_frame.
  - rewrite PTE_ADDR_val by lia. replace ((4096 * k + 7) / 4096) with k by dlia. done.
Qed.

Lemma free_set_page s fl a b : free_repr kend s fl → a ∉ fl → free_repr kend (set_page a b s) fl.
Proof. intros [Hc Ho Hn] Ha. split; [by apply free_chain_insert|done|done]. Qed.

Lemma good_insert pg a b q : page_good b → good_at pg q → good_at (<[a := b]> pg) q.
Proof.
  intros Hb (b' & Hq & Hg). destruct (decide (a = q)) as [->|].
  - exists b. by rewrite lookup_insert_eq.
  - exists b'. by rewrite lookup_insert_ne.
Qed.

(** Directory entries do not change when another page is written. *)
Lemma pde_at_ne pg pgdir a b i : a ≠ pgdir → pde_at (<[a := b]> pg) pgdir i = pde_at pg pgdir i.
Proof. intros H. unfold pde_at. by rewrite page_at_ne. Qed.
Lemma table_of_ne pg pgdir a b i : a ≠ pgdir → table_of (<[a := b]> pg) pgdir i = table_of pg pgdir i.
Proof. intros H. unfold table_of. by rewrite pde_at_ne. Qed.

(** Writing a page that the directory does not own and that is not free. *)
Lemma pt_set_foreign s fl pgdir a b :
  pt_wf s fl pgdir → page_good b → a ∉ fl → ¬ owns (pages s) pgdir a →
  pt_wf (set_page a b s) fl pgdir ∧ ∀ va, 0 ≤ va → pte_at (<[a := b]> (pages s)) pgdir va = pte_at (pages s) pgdir va.
Proof.
  intros Hwf Hb Ha Ho. assert (a ≠ pgdir) as Hd by (intros ->; apply Ho; by left).
  pose proof Hwf as [Hf Hfl [Hdir Hdf] Htab Hinj]. split.
  - split; cbn [pages set_page].
    + by apply free_set_page.
    + intros p Hp. apply good_insert; auto.
    + split; [by apply good_insert|done].
    + intros i Hi. rewrite table_of_ne, pde_at_ne by done. intros Hp.
      destruct (Htab i Hi Hp) as (H1 & H2 & H3). split_and!; [by apply good_insert|done|done].
    + intros i j Hi Hj. rewrite !table_of_ne, !pde_at_ne by done. auto.
  - intros va Hva. unfold pte_at. rewrite table_of_ne, pde_at_ne by done.
    destruct (present _) eqn:Hp; [|done]. rewrite page_at_ne; [done|].
    intros ->. apply Ho. right. exists (PDX va). split_and!; [by apply PDX_range..|done|done].
Qed.

(** Writing an entry of an existing table. *)
Lemma pte_write s fl pgdir va v :
  pt_wf s fl pgdir → 0 ≤ va < 2^32 → 0 ≤ v < 2^32 → present (pde_at (pages s) pgdir (PDX va)) = true →
  let t := table_of (pages s) pgdir (PDX va) in
  ∃ b, pages s !! t = Some b ∧ page_good b ∧ word b (PTX va) = pte_at (pages s) pgdir va ∧
    let s' := set_page t (set_word b (PTX va) v) s in
    pt_wf s' fl pgdir ∧
    ∀ va', 0 ≤ va' < 2^32 → pte_at (pages s') pgdir va' =
      if bool_decide (page_of va' = page_of va) then v else pte_at (pages s) pgdir va'.
Proof.
  intros Hwf Hva Hv Hp t. pose proof Hwf as [Hf Hfl [Hdir Hdf] Htab Hinj].
  pose proof (PDX_range va ltac:(lia)) as HPD. pose proof (PTX_range va ltac:(lia)) as HPT.
  destruct (Htab _ HPD Hp) as ((b & Hb & Hg) & Htf & Htd). fold t in Hb, Htf, Htd.
  pose proof (set_word_good b (PTX va) v Hg HPT) as Hg'. exists b. split_and!; try done.
  { unfold pte_at. rewrite Hp. fold t. by rewrite (page_at_Some _ _ _ Hb). }
  split.
  - split; cbn [pages set_page].
    + by apply free_set_page.
    + intros p Hpf. apply good_insert; auto.
    + split; [by apply good_insert|done].
    + intros i Hi. rewrite table_of_ne, pde_at_ne by done. intros Hpi.
      destruct (Htab i Hi Hpi) as (H1 & H2 & H3). split_and!; [by apply good_insert|done|done].
    + intros i j Hi Hj. rewrite !table_of_ne, !pde_at_ne by done. auto.
  - intros va' Hva'. cbn [pages set_page]. unfold pte_at. rewrite table_of_ne, pde_at_ne by done.
    pose proof (PDX_range va' ltac:(lia)) as HPD'. pose proof (PTX_range va' ltac:(lia)) as HPT'.
    pose proof (same_page va' va Hva' Hva) as Hsame.
    destruct (present (pde_at (pages s) pgdir (PDX va'))) eqn:Hp'.
    + destruct (decide (PDX va' = PDX va)) as [E|E].
      * rewrite E. fold t. rewrite page_at_eq, (page_at_Some _ _ _ Hb). rewrite word_set by done.
        rewrite (bool_decide_ext (PTX va = PTX va') (page_of va' = page_of va)); [done|].
        rewrite Hsame, E. split; [by intros ->|by intros [_ ->]].
      * rewrite page_at_ne by (intros Et; apply E; symmetry; by apply Hinj).
        rewrite bool_decide_eq_false_2; [done|]. rewrite Hsame. by intros [? _].
    + rewrite bool_decide_eq_false_2; [done|]. rewrite Hsame. intros [E _]. by rewrite E, Hp in Hp'.
Qed.

(** [walkpgdir] with allocation when the table is missing. *)
Lemma walk_alloc_none s pgdir va :
  pt_wf s [] pgdir → 0 ≤ va → present (pde_at (pages s) pgdir (PDX va)) = false →
  walkpgdir pgdir va true s = Ok (None, s).
Proof.
  intros Hwf Hva Hp. destruct (pt_dir _ _ _ Hwf) as [(b & Hb & Hg) _]. unfold walkpgdir.
  erewrite bind_ok by (eapply read_word_run; [exact Hb|done|by apply PDX_range]). cbv beta.
  unfold pde_at in Hp. rewrite (page_at_Some _ _ _ Hb) in Hp. rewrite Hp. cbn [negb].
  erewrite bind_ok by (exact (kalloc_repr kend s [] (pt_free _ _ _ Hwf))). done.
Qed.

(** The memory after a new page table, of zeros, has been entered in the directory. *)
Section new_table.
Context (s : kmem) (p : Z) (fl : list Z) (pgdir va : Z) (b : list Z).
Context (Hwf : pt_wf s (p :: fl) pgdir) (Hva : 0 ≤ va < 2^32) (Hp : present (pde_at (pages s) pgdir (PDX va)) = false).
Context (Hb : pages s !! pgdir = Some b) (Hg : page_good b) (Hpk : page_ok kend p) (Hdp : pgdir ≠ p).
Definition with_table : gmap Z (list Z) := <[pgdir := set_word b (PDX va) (pde_for p)]> (<[p := replicate 4096 0]> (pages s)).

Lemma with_table_pde i : 0 ≤ i < 1024 → pde_at with_table pgdir i = if bool_decide (PDX va = i) then pde_for p else pde_at (pages s) pgdir i.
Proof using All.
  intros Hi. pose proof (PDX_range va ltac:(lia)). destruct (pde_for_val p Hpk) as (_ & Hv1 & _). unfold pde_at at 1, with_table. rewrite page_at_eq, word_set by done.
  case_bool_decide; [done|]. unfold pde_at. by rewrite (page_at_Some _ _ _ Hb).
Qed.
Lemma with_table_of i : 0 ≤ i < 1024 → table_of with_table pgdir i = if bool_decide (PDX va = i) then p else table_of (pages s) pgdir i.
Proof using All. intros Hi. destruct (pde_for_val p Hpk) as (_ & Hv2 & Hv3 & Hv4). unfold table_of. rewrite with_table_pde by done. by case_bool_decide. Qed.
Lemma with_table_good q : good_at (pages s) q ∨ q = p → good_at with_table q.
Proof using All.
  pose proof (PDX_range va ltac:(lia)). destruct (pde_for_val p Hpk) as (_ & Hv1 & _). intros Hq. apply good_insert; [by apply set_word_good|]. destruct Hq as [Hq| ->].
  - by apply good_insert; [apply zero_page_good|].
  - eexists. rewrite lookup_insert_eq. split; [done|apply zero_page_good].
Qed.
Lemma with_table_wf s' : pages s' = with_table → free_repr kend s' fl → pt_wf s' fl pgdir.
Proof using All.
  intros Hpg Hf. pose proof Hwf as [_ Hfl [_ Hdf] Htab Hinj]. pose proof (PDX_range va ltac:(lia)). destruct (pde_for_val p Hpk) as (Hv1 & Hv2 & Hv3 & Hv4).
  pose proof (pt_free _ _ _ Hwf) as [_ _ Hnd]. apply NoDup_cons in Hnd as [Hpn _]. apply not_elem_of_cons in Hdf as [_ Hdf].
  split; rewrite ?Hpg.
  - done.
  - intros q Hq. apply with_table_good. left. apply Hfl. by right.
  - split; [|done]. eexists. unfold with_table. rewrite lookup_insert_eq. split; [done|by apply set_word_good].
  - intros i Hi. rewrite with_table_pde, with_table_of by done. case_bool_decide as Ei.
    + intros _. split_and!; [apply with_table_good; by right|done|by apply not_eq_sym].
    + intros Hpi. destruct (Htab i Hi Hpi) as (H1 & H2 & H3). apply not_elem_of_cons in H2 as [H2 H2'].
      split_and!; [|done|done]. apply with_table_good. by left.
  - intros i j Hi Hj. rewrite !with_table_pde, !with_table_of by done. case_bool_decide as Ei; case_bool_decide as Ej; subst; auto.
    + intros _ Hpj E. destruct (Htab j Hj Hpj) as (_ & H2 & _). exfalso. apply H2. rewrite <- E. by left.
    + intros Hpi _ E. destruct (Htab i Hi Hpi) as (_ & H2 & _). exfalso. apply H2. rewrite E. by left.
Qed.
Lemma with_table_pte va' : 0 ≤ va' < 2^32 → pte_at with_table pgdir va' = pte_at (pages s) pgdir va'.
Proof using All.
  intros Hva'. pose proof (PDX_range va' ltac:(lia)) as HPD'. pose proof (PTX_range va' ltac:(lia)) as HPT'. destruct (pde_for_val p Hpk) as (Hv1 & Hv2 & Hv3 & Hv4).
  unfold pte_at. rewrite with_table_pde, with_table_of by done. case_bool_decide as E.
  - rewrite Hv3, <- E, Hp. unfold with_table. rewrite page_at_ne, page_at_eq by done. by apply word_zero.
  - destruct (present (pde_at (pages s) pgdir (PDX va'))) eqn:Hp'; [|done]. destruct (pt_tab _ _ _ Hwf _ HPD' Hp') as (_ & H2 & H3).
    apply not_elem_of_cons in H2 as [H2 _]. unfold with_table. by rewrite !page_at_ne by (by apply not_eq_sym).
Qed.
End new_table.

Lemma walk_alloc s p fl pgdir va :
  pt_wf s (p :: fl) pgdir → 0 ≤ va < 2^32 → present (pde_at (pages s) pgdir (PDX va)) = false →
  ∃ s', walkpgdir pgdir va true s = Ok (Some (p, PTX va), s') ∧ pt_wf s' fl pgdir ∧
    present (pde_at (pages s') pgdir (PDX va)) = true ∧ table_of (pages s') pgdir (PDX va) = p ∧
    (∀ va', 0 ≤ va' < 2^32 → pte_at (pages s') pgdir va' = pte_at (pages s) pgdir va') ∧
    (∀ q, q ≠ pgdir → q ≠ p → pages s' !! q = pages s !! q) ∧
    (∀ q, owns (pages s') pgdir q ↔ owns (pages s) pgdir q ∨ q = p).
Proof.
  intros Hwf Hva Hp. pose proof Hwf as [Hf Hfl [(b & Hb & Hg) Hdf] _ _].
  pose proof (PDX_range va ltac:(lia)) as HPD. pose proof (PTX_range va ltac:(lia)) as HPT.
  pose proof Hf as [_ Hok Hnd]. apply Forall_cons in Hok as [Hpk _]. apply NoDup_cons in Hnd as [Hpn _].
  apply not_elem_of_cons in Hdf as [Hdp Hdf].
  destruct (pde_for_val p Hpk) as (Hv1 & Hv2 & Hv3 & Hv4). pose proof (page_ok_range kend p Hpk).
  destruct (kalloc_repr kend s (p :: fl) Hf) as (s1 & Hk & Hf1 & Hpg1 & _).
  destruct (Hfl p ltac:(by left)) as (bp & Hbp & _).
  set (s3 := set_page pgdir (set_word b (PDX va) (pde_for p)) (set_page p (replicate 4096 0) s1)).
  assert (pages s3 = with_table s p pgdir va b) as Hpg3 by (unfold s3; cbn [pages set_page]; by rewrite Hpg1).
  exists s3. split_and!.
  - unfold walkpgdir.
    erewrite bind_ok by (eapply read_word_run; [exact Hb|done|done]). cbv beta.
    unfold pde_at in Hp. rewrite (page_at_Some _ _ _ Hb) in Hp. rewrite Hp. cbn [negb].
    rewrite (bind_ok _ _ _ _ _ Hk). cbv beta. rewrite bool_decide_eq_false_2 by lia.
    erewrite bind_ok by (eapply put_page_run; by rewrite Hpg1). cbv beta.
    erewrite bind_ok by (eapply write_word_run; [|exact Hg|done]; cbn [pages set_page]; rewrite lookup_insert_ne by done; by rewrite Hpg1).
    done.
  - apply (with_table_wf s p fl pgdir va b Hwf Hva Hp Hb Hg Hpk Hdp); [done|]. apply free_set_page; [|done]. by apply free_set_page.
  - rewrite Hpg3. rewrite (with_table_pde s p fl pgdir va b Hwf Hva Hp Hb Hg Hpk Hdp) by done. by rewrite bool_decide_eq_true_2.
  - rewrite Hpg3. rewrite (with_table_of s p fl pgdir va b Hwf Hva Hp Hb Hg Hpk Hdp) by done. by rewrite bool_decide_eq_true_2.
  - intros va' Hva'. rewrite Hpg3. by apply (with_table_pte s p fl pgdir va b).
  - intros q H1 H2. rewrite Hpg3. unfold with_table. by rewrite !lookup_insert_ne by (by apply not_eq_sym).
  - intros q. split.
    2:{ intros [[->|(i & Hi & Hpi & ->)]| ->]; [by left| |]; right; rewrite Hpg3; [exists i|exists (PDX va)];
          rewrite (with_table_pde s p fl pgdir va b Hwf Hva Hp Hb Hg Hpk Hdp), (with_table_of s p fl pgdir va b Hwf Hva Hp Hb Hg Hpk Hdp) by done.
        - rewrite bool_decide_eq_false_2 by (intros <-; by rewrite Hp in Hpi). done.
        - by rewrite bool_decide_eq_true_2. }
    intros [->|(i & Hi & Hpi & ->)]; [by left; left|]. rewrite Hpg3 in *. rewrite (with_table_pde s p fl pgdir va b Hwf Hva Hp Hb Hg Hpk Hdp) in Hpi by done.
    rewrite (with_table_of s p fl pgdir va b Hwf Hva Hp Hb Hg Hpk Hdp) by done. case_bool_decide; [by right|]. left. right. by exists i.
Qed.

(** ** Mapping one page *)
Definition user_pte (pa perm : Z) : Z := Z.lor (Z.lor pa perm) PTE_P.

Lemma user_pte_val k perm : 0 ≤ k < 1048576 → 0 ≤ perm < 4096 →
  user_pte (4096 * k) perm = 4096 * k + Z.lor perm PTE_P ∧ 0 ≤ user_pte (4096 * k) perm < 2^32 ∧
  present (user_pte (4096 * k) perm) = true.
Proof.
  intros Hk Hperm. assert (0 ≤ Z.lor perm PTE_P < 4096) as Hl.
  { split; [apply Z.lor_nonneg; unfold PTE_P; lia|]. destruct (decide (Z.lor perm PTE_P = 0)) as [->|]; [lia|].
    apply Z.log2_lt_cancel. rewrite Z.log2_lor by (unfold PTE_P; lia).
    change (Z.log2 4096) with 12. change (Z.log2 PTE_P) with 0.
    destruct (decide (perm = 0)) as [->|]; [simpl; lia|].
    assert (Z.log2 perm < 12); [|lia]. apply Z.log2_lt_pow2; lia. }
  assert (user_pte (4096 * k) perm = 4096 * k + Z.lor perm PTE_P) as E.
  { unfold user_pte. rewrite <- Z.lor_assoc. by apply lor_aligned. }
  split; [done|]. rewrite E. split; [lia|]. rewrite present_frame. rewrite <- Z.bit0_odd, Z.lor_spec.
  unfold PTE_P. change (Z.testbit 1 0) with true. apply orb_true_r.
Qed.

Lemma mappages_one pgdir va pa perm : 0 ≤ va < 2^32 → va `mod` PGSIZE = 0 →
  mappages pgdir va PGSIZE pa perm = mappages_loop 1 pgdir va va pa perm.
Proof.
  intros Hva Hm. unfold mappages.
  assert (PGROUNDDOWN va = va) as E1 by (rewrite PGROUNDDOWN_val by lia; unfold PGSIZE in *; dlia).
  assert (PGROUNDDOWN (u32 (va + PGSIZE - 1)) = va) as E2.
  { rewrite u32_small by (unfold PGSIZE in *; dlia).
    rewrite PGROUNDDOWN_val by (unfold PGSIZE in *; dlia). unfold PGSIZE in *; dlia. }
  rewrite E1, E2, Z.sub_diag. done.
Qed.

Record map_result (s : kmem) (fl : list Z) (pgdir va v : Z) (s' : kmem) (fl' : list Z) : Prop := {
  mr_wf : pt_wf s' fl' pgdir;
  mr_fl : fl' = fl ∨ ∃ p, fl = p :: fl';
  mr_pte : ∀ va', 0 ≤ va' < 2^32 → pte_at (pages s') pgdir va' =
    if bool_decide (page_of va' = page_of va) then v else pte_at (pages s) pgdir va';
  mr_frame : ∀ q, ¬ owns (pages s) pgdir q → q ∉ fl → pages s' !! q = pages s !! q;
  mr_owns : ∀ q, owns (pages s') pgdir q → owns (pages s) pgdir q ∨ q ∈ fl;
  mr_kept : ∀ q, owns (pages s) pgdir q ∨ q ∈ fl → owns (pages s') pgdir q ∨ q ∈ fl' }.

(** What a directory owns is written in the directory. *)
Lemma owns_same_dir pg pg' pgdir q : pg' !! pgdir = pg !! pgdir → owns pg pgdir q → owns pg' pgdir q.
Proof. intros E. unfold owns, table_of, pde_at, page_at. by rewrite E. Qed.

Lemma owns_set_table pg pgdir t b q : t ≠ pgdir → owns (<[t := b]> pg) pgdir q → owns pg pgdir q.
Proof.
  intros Ht [->|(i & Hi & Hp & ->)]; [by left|right]. exists i.
  rewrite pde_at_ne in Hp by done. rewrite table_of_ne by done. done.
Qed.

(** One turn of the loop of [mappages], whatever the range. *)
Lemma map_step s fl pgdir va k perm :
  pt_wf s fl pgdir → 0 ≤ va < 2^32 → 0 ≤ k < 1048576 → 0 ≤ perm < 4096 →
  mapped (pages s) pgdir va = None →
  (∃ s' fl', (∀ fuel last, mappages_loop (S fuel) pgdir va last (4096 * k) perm s =
       (if bool_decide (va = last) then mret 0 else mappages_loop fuel pgdir (u32 (va + PGSIZE)) last (u32 (4096 * k + PGSIZE)) perm) s') ∧
     map_result s fl pgdir va (user_pte (4096 * k) perm) s' fl') ∨
  (fl = [] ∧ ∀ fuel last, mappages_loop (S fuel) pgdir va last (4096 * k) perm s = Ok (-1, s)).
Proof.
  intros Hwf Hva Hk Hperm Hmap. destruct (user_pte_val k perm Hk Hperm) as (_ & Hv & _).
  assert (present (pte_at (pages s) pgdir va) = false) as Hnp.
  { unfold mapped in Hmap. by destruct (present (pte_at (pages s) pgdir va)). }
  pose proof (PTX_range va ltac:(lia)) as HPT.
  destruct (present (pde_at (pages s) pgdir (PDX va))) eqn:Hp.
  - left. destruct (pte_write s fl pgdir va (user_pte (4096 * k) perm) Hwf Hva Hv Hp) as (b & Hb & Hg & Hw & Hwf' & Hpte).
    eexists _, fl. split.
    + intros fuel last. cbn [mappages_loop]. rewrite (bind_ok _ _ _ _ _ (walk_present s fl pgdir va true Hwf ltac:(lia) Hp)). cbv beta iota.
      erewrite bind_ok by (eapply read_word_run; [exact Hb|done|done]). cbv beta. rewrite Hw, Hnp.
      by erewrite bind_ok by (eapply write_word_run; [exact Hb|done|done]).
    + destruct (pt_tab _ _ _ Hwf _ (PDX_range va ltac:(lia)) Hp) as (_ & Htf & Htd).
      split; [exact Hwf'|by left|exact Hpte| | |].
      3:{ intros q [Hq|Hq]; [left|by right]. eapply owns_same_dir; [|exact Hq]. cbn [pages set_page]. by rewrite lookup_insert_ne by done. }
      * intros q Hq _. cbn [pages set_page]. rewrite lookup_insert_ne; [done|]. intros <-. apply Hq. right.
        exists (PDX va). split_and!; [apply PDX_range; lia..|done|done].
      * intros q Hq. left. cbn [pages set_page] in Hq. exact (owns_set_table _ _ _ _ _ Htd Hq).
  - destruct fl as [|p fl].
    + right. split; [done|]. intros fuel last. cbn [mappages_loop]. by rewrite (bind_ok _ _ _ _ _ (walk_alloc_none s pgdir va Hwf ltac:(lia) Hp)).
    + left. destruct (walk_alloc s p fl pgdir va Hwf Hva Hp) as (s1 & Hrun & Hwf1 & Hp1 & Ht1 & Hpte1 & Hfr1 & Ho1).
      destruct (pte_write s1 fl pgdir va (user_pte (4096 * k) perm) Hwf1 Hva Hv Hp1) as (b & Hb & Hg & Hw & Hwf' & Hpte).
      rewrite Ht1 in Hb, Hwf', Hpte. eexists _, fl. split.
      * intros fuel last. cbn [mappages_loop]. rewrite (bind_ok _ _ _ _ _ Hrun). cbv beta iota.
        erewrite bind_ok by (eapply read_word_run; [exact Hb|done|done]). cbv beta. rewrite Hw, Hpte1, Hnp by done.
        by erewrite bind_ok by (eapply write_word_run; [exact Hb|done|done]).
      * destruct (pt_tab _ _ _ Hwf1 _ (PDX_range va ltac:(lia)) Hp1) as (_ & _ & Htd). rewrite Ht1 in Htd.
        split; [exact Hwf'|right; by eexists| | | |].
        4:{ intros q Hq. assert (owns (pages s1) pgdir q ∨ q ∈ fl) as [Hq1|Hq1]; [|left|by right].
            - destruct Hq as [Hq|[->|Hq]%elem_of_cons]; [left; apply Ho1; by left|left; apply Ho1; by right|by right].
            - eapply owns_same_dir; [|exact Hq1]. cbn [pages set_page]. by rewrite lookup_insert_ne by done. }
        { intros va' Hva'. rewrite Hpte by done. by rewrite Hpte1. }
        { intros q Hq Hqf. apply not_elem_of_cons in Hqf as [Hqp _]. cbn [pages set_page].
          rewrite lookup_insert_ne by (by apply not_eq_sym). apply Hfr1; [|done].
          intros ->. apply Hq. by left. }
        { intros q Hq. apply owns_set_table in Hq; [|done]. destruct (proj1 (Ho1 q) Hq) as [?| ->]; [by left|].
          right. by left. }
Qed.

Lemma mappages_new s fl pgdir va k perm :
  pt_wf s fl pgdir → 0 ≤ va < 2^32 → va `mod` PGSIZE = 0 → 0 ≤ k < 1048576 → 0 ≤ perm < 4096 →
  mapped (pages s) pgdir va = None →
  (∃ s' fl', mappages pgdir va PGSIZE (4096 * k) perm s = Ok (0, s') ∧
     map_result s fl pgdir va (user_pte (4096 * k) perm) s' fl') ∨
  (fl = [] ∧ mappages pgdir va PGSIZE (4096 * k) perm s = Ok (-1, s)).
Proof.
  intros Hwf Hva Hm Hk Hperm Hmap. rewrite mappages_one by done.
  destruct (map_step s fl pgdir va k perm Hwf Hva Hk Hperm Hmap) as [(s' & fl' & Hr & Hmr)|[? Hr]]; [left|by right].
  exists s', fl'. split; [|done]. rewrite Hr. by rewrite bool_decide_eq_true_2.
Qed.

Lemma mappages_remap s fl pgdir va pa perm pte :
  pt_wf s fl pgdir → 0 ≤ va < 2^32 → va `mod` PGSIZE = 0 → mapped (pages s) pgdir va = Some pte →
  mappages pgdir va PGSIZE pa perm s = Fault (Panic "remap").
Proof.
  intros Hwf Hva Hm Hmap. rewrite mappages_one by done. cbn [mappages_loop].
  unfold mapped in Hmap. destruct (present (pte_at (pages s) pgdir va)) eqn:Hpr; [|done].
  destruct (present (pde_at (pages s) pgdir (PDX va))) eqn:Hp.
  2:{ unfold pte_at in Hpr. by rewrite Hp in Hpr. }
  rewrite (bind_ok _ _ _ _ _ (walk_present s fl pgdir va true Hwf ltac:(lia) Hp)). cbv beta iota.
  destruct (pte_write s fl pgdir va 0 Hwf Hva ltac:(lia) Hp) as (b & Hb & Hg & Hw & _).
  erewrite bind_ok by (eapply read_word_run; [exact Hb|done|apply PTX_range; lia]). cbv beta.
  by rewrite Hw, Hpr.
Qed.

(** ** Taking and returning pages *)
Lemma owned_not_free s fl pgdir q : pt_wf s fl pgdir → owns (pages s) pgdir q → q ∉ fl.
Proof.
  intros Hwf [->|(i & Hi & Hp & ->)]; [apply (pt_dir _ _ _ Hwf)|].
  by destruct (pt_tab _ _ _ Hwf i Hi Hp) as (_ & ? & _).
Qed.

Lemma pt_kalloc s p fl pgdir : pt_wf s (p :: fl) pgdir → ∃ s1,
  kalloc s = Ok (p, s1) ∧ pt_wf s1 fl pgdir ∧ pages s1 = pages s ∧ p ≠ 0 ∧ page_ok kend p ∧
  (p ∉ fl) ∧ ¬ owns (pages s) pgdir p ∧ good_at (pages s) p.
Proof.
  intros Hwf. pose proof Hwf as [Hf Hfl [Hdir Hdf] Htab Hinj].
  destruct (kalloc_repr kend s (p :: fl) Hf) as (s1 & Hk & Hf1 & Hpg & _).
  pose proof Hf as [_ Hok Hnd]. apply Forall_cons in Hok as [Hpk _]. apply NoDup_cons in Hnd as [Hpn _].
  pose proof (page_ok_range kend p Hpk). exists s1. split_and!; try done; [|lia| |].
  - split; rewrite ?Hpg; try done.
    + intros q Hq. apply Hfl. by right.
    + split; [done|]. intros Hd. apply Hdf. by right.
    + intros i Hi Hp. destruct (Htab i Hi Hp) as (H1 & H2 & H3). split_and!; try done.
      intros H4. apply H2. by right.
  - intros Ho. apply (owned_not_free s (p :: fl) pgdir p Hwf Ho). by left.
  - apply Hfl. by left.
Qed.

Lemma pt_kfree s fl pgdir v : pt_wf s fl pgdir → page_ok kend v → good_at (pages s) v → v ∉ fl →
  ¬ owns (pages s) pgdir v → ∃ s', kfree kend v s = Ok (tt, s') ∧ pt_wf s' (v :: fl) pgdir ∧
    (∀ va, 0 ≤ va → pte_at (pages s') pgdir va = pte_at (pages s) pgdir va).
Proof.
  intros Hwf Hv (b & Hb & _) Hn Ho.
  destruct (kfree_repr kend v s fl b (pt_free _ _ _ Hwf) Hv Hb Hn) as (s' & Hk & Hf & _ & Hpg).
  assert (page_good (freed_page (freelist s))) as Hg.
  { split.
    - unfold freed_page. rewrite length_splice; [apply length_replicate|].
      rewrite length_le_bytes, length_replicate. lia.
    - apply splice_forall; [by apply Forall_replicate|apply le_bytes_ok]. }
  destruct (pt_set_foreign s fl pgdir v _ Hwf Hg Hn Ho) as [Hwf1 Hpte].
  exists s'. split_and!; [done| |intros va Hva; rewrite Hpg; by apply Hpte].
  pose proof Hwf1 as [_ Hfl1 [Hdir1 Hdf1] Htab1 Hinj1]. cbn [pages set_page] in *. rewrite <- Hpg in *.
  assert (¬ owns (pages s') pgdir v) as Ho'.
  { intros H. apply Ho. rewrite Hpg in H. apply owns_set_table in H; [done|]. intros ->. apply Ho. by left. }
  split; try done.
  - intros p [->|Hp]%elem_of_cons; [|by apply Hfl1]. eexists. rewrite Hpg, lookup_insert_eq. done.
  - split; [done|]. apply not_elem_of_cons. split; [|done]. intros ->. apply Ho. by left.
  - intros i Hi Hp. destruct (Htab1 i Hi Hp) as (H1 & H2 & H3). split_and!; try done.
    apply not_elem_of_cons. split; [|done]. intros <-. apply Ho'. right. by exists i.
Qed.

(** A fresh zeroed page, mapped for the user at an unmapped address. *)
Lemma map_fresh s mem fl pgdir a :
  pt_wf s (mem :: fl) pgdir → 0 ≤ a < 2^32 → a `mod` PGSIZE = 0 → mapped (pages s) pgdir a = None → ∃ s1 s2,
  kalloc s = Ok (mem, s1) ∧ mem ≠ 0 ∧ put_page mem (replicate 4096 0) s1 = Ok (tt, s2) ∧
  pt_wf s2 fl pgdir ∧ page_ok kend mem ∧ (mem ∉ fl) ∧ ¬ owns (pages s2) pgdir mem ∧
  pages s2 !! mem = Some (replicate 4096 0) ∧ good_at (pages s2) mem ∧
  (∀ va, 0 ≤ va → pte_at (pages s2) pgdir va = pte_at (pages s) pgdir va) ∧
  (∀ q, q ≠ mem → pages s2 !! q = pages s !! q) ∧
  (∀ q, owns (pages s2) pgdir q → owns (pages s) pgdir q) ∧
  ((∃ s3 fl', mappages pgdir a PGSIZE (V2P mem) (Z.lor PTE_W PTE_U) s2 = Ok (0, s3) ∧
      map_result s2 fl pgdir a (V2P mem + 7) s3 fl' ∧ pages s3 !! mem = Some (replicate 4096 0) ∧
      ¬ owns (pages s3) pgdir mem) ∨
   (fl = [] ∧ mappages pgdir a PGSIZE (V2P mem) (Z.lor PTE_W PTE_U) s2 = Ok (-1, s2))).
Proof.
  intros Hwf Ha Hm Hmap. destruct (pt_kalloc s mem fl pgdir Hwf) as (s1 & Hk & Hwf1 & Hpg & H0 & Hok & Hn & Ho & Hg).
  destruct Hg as (bm & Hbm & _). rewrite <- Hpg in Ho.
  destruct (pt_set_foreign s1 fl pgdir mem _ Hwf1 zero_page_good Hn Ho) as [Hwf2 Hpte2].
  exists s1, (set_page mem (replicate 4096 0) s1).
  assert (mem ≠ pgdir) as Hmd by (intros ->; apply Ho; by left).
  assert (¬ owns (<[mem:=replicate 4096 0]> (pages s1)) pgdir mem) as Ho2.
  { intros H. apply owns_set_table in H; done. }
  split_and!; try done.
  - eapply put_page_run. by rewrite Hpg.
  - cbn [pages set_page]. apply lookup_insert_eq.
  - eexists. cbn [pages set_page]. rewrite lookup_insert_eq. split; [done|apply zero_page_good].
  - intros va Hva. cbn [pages set_page]. rewrite Hpte2 by done. by rewrite Hpg.
  - intros q Hq. cbn [pages set_page]. rewrite lookup_insert_ne by (by apply not_eq_sym). by rewrite Hpg.
  - intros q Hq. cbn [pages set_page] in Hq. apply owns_set_table in Hq; [|done]. by rewrite <- Hpg.
  - destruct (frame_val mem Hok) as (k & Hk1 & Hk2 & _). rewrite Hk1.
    assert (user_pte (4096 * k) (Z.lor PTE_W PTE_U) = 4096 * k + 7) as Hup.
    { destruct (user_pte_val k (Z.lor PTE_W PTE_U)) as (E & _); [lia|by vm_compute|]. by rewrite E. }
    rewrite <- Hup.
    destruct (mappages_new (set_page mem (replicate 4096 0) s1) fl pgdir a k (Z.lor PTE_W PTE_U) Hwf2 Ha Hm)
      as [(s3 & fl' & Hr & Hmr)|[? Hr]]; [lia|by vm_compute| | |right; by split].
    { unfold mapped. cbn [pages set_page]. rewrite Hpte2 by lia. rewrite Hpg. done. }
    left. exists s3, fl'. split_and!; [done|done| |].
    + rewrite (mr_frame _ _ _ _ _ _ _ Hmr); [cbn [pages set_page]; apply lookup_insert_eq|done|done].
    + intros H. apply (mr_owns _ _ _ _ _ _ _ Hmr) in H as [H|H]; done.
Qed.
End view.
