(* ===== verification/VmClaims.v ===== *)
(** * Properties of the xv6 virtual memory code

    Mapping a page, growing a process, and the lazy allocation of lab4: its page
    fault handler, what it maps and what it does not check. *)
From stdpp Require Import base numbers list gmap strings.
From S2P Require Import Prelude Bytes Kalloc Vm VmFacts.
#[local] Open Scope Z_scope.

(** The pages after an aligned address. *)
Lemma page_of_aligned a i va : a `mod` PGSIZE = 0 →
  page_of va = page_of a + i ↔ a + PGSIZE * i ≤ va < a + PGSIZE * i + PGSIZE.
Proof. unfold page_of, PGSIZE. intros. dlia. Qed.
Lemma page_of_aligned_0 a va : a `mod` PGSIZE = 0 → page_of va = page_of a ↔ a ≤ va < a + PGSIZE.
Proof. unfold page_of, PGSIZE. intros. dlia. Qed.

Section claims_support.
Context (kend : Z).

(** A page of the range is mapped to its own fresh zeroed page, for the user. *)
Definition fresh_at (pg : gmap Z (list Z)) (pgdir : Z) (fl fl' : list Z) (va mem : Z) : Prop :=
  pte_at pg pgdir va = V2P mem + 7 ∧ pg !! mem = Some (replicate 4096 0) ∧ mem ∈ fl ∧ (mem ∉ fl') ∧ ¬ owns pg pgdir mem.

Record grown (s : kmem) (fl : list Z) (pgdir a n : Z) (s' : kmem) (fl' : list Z) : Prop := {
  gr_wf : pt_wf kend s' fl' pgdir;
  gr_fl : ∃ used, fl = used ++ fl';
  gr_old : ∀ va, 0 ≤ va < 2^32 → (va < a ∨ a + PGSIZE * n ≤ va) →
    pte_at (pages s') pgdir va = pte_at (pages s) pgdir va;
  gr_new : ∃ mems, NoDup mems ∧ length mems = Z.to_nat n ∧
    (∀ i mem, mems !! i = Some mem → ∀ va, page_of va = page_of a + Z.of_nat i →
      fresh_at (pages s') pgdir fl fl' va mem) ∧
    ∀ q, owns (pages s) pgdir q ∨ q ∈ fl → owns (pages s') pgdir q ∨ q ∈ fl' ∨ q ∈ mems;
  gr_frame : ∀ q, ¬ owns (pages s) pgdir q → q ∉ fl → pages s' !! q = pages s !! q;
  gr_owns : ∀ q, owns (pages s') pgdir q → owns (pages s) pgdir q ∨ q ∈ fl }.

(** Growing by some pages and then by the next ones. *)
Lemma grown_app s fl pgdir a n1 n2 s1 fl1 s2 fl2 : 0 ≤ a → a `mod` PGSIZE = 0 → 0 ≤ n1 → 0 ≤ n2 → a + PGSIZE * n1 ≤ 2^32 →
  grown s fl pgdir a n1 s1 fl1 → grown s1 fl1 pgdir (a + PGSIZE * n1) n2 s2 fl2 → grown s fl pgdir a (n1 + n2) s2 fl2.
Proof.
  intros Ha Hal Hn1 Hn2 Hlim [W1 [u1 L1] O1 (m1 & N1 & Len1 & M1 & K1) F1 V1] [W2 [u2 L2] O2 (m2 & N2 & Len2 & M2 & K2) F2 V2].
  assert (page_of (a + PGSIZE * n1) = page_of a + n1) as Hpn by (apply page_of_aligned; [done|unfold PGSIZE; lia]).
  assert (∀ i m, m2 !! i = Some m → m ∈ fl1 ∧ ¬ owns (pages s2) pgdir m) as Hin2.
  { intros i m Hi. destruct (M2 i m Hi ((page_of (a + PGSIZE * n1) + Z.of_nat i) * 4096)) as (_ & _ & ? & _ & ?); [|done].
    unfold page_of at 1. by rewrite Z.div_mul by lia. }
  assert (∀ i m, m1 !! i = Some m → m ∉ fl1) as Hout1.
  { intros i m Hi. destruct (M1 i m Hi ((page_of a + Z.of_nat i) * 4096)) as (_ & _ & _ & ? & _); [|done]. unfold page_of at 1. by rewrite Z.div_mul by lia. }
  split; [done| | | | |].
  - exists (u1 ++ u2). by rewrite L1, L2, app_assoc.
  - intros va Hva Ho. rewrite O2, O1 by (unfold PGSIZE in *; lia). done.
  - exists (m1 ++ m2). split_and!; [|rewrite length_app; lia| |].
    3:{ intros q Hq. rewrite elem_of_app. destruct (K1 q Hq) as [H|[H|H]]; [| |tauto]; (destruct (K2 q) as [?|[?|?]]; tauto). }
    + apply NoDup_app. split; [done|]. split; [|done]. intros m [i Hi]%list_elem_of_lookup [j Hj]%list_elem_of_lookup. by eapply Hout1, Hin2.
    + intros i m [Hi|[Hge Hi]]%lookup_app_Some va Hva.
      * destruct (M1 i m Hi va Hva) as (P1 & P2 & P3 & P4 & P5). pose proof (lookup_lt_Some _ _ _ Hi) as Hlt.
        assert (a + PGSIZE * Z.of_nat i ≤ va < a + PGSIZE * Z.of_nat i + PGSIZE) as Hr by (by apply page_of_aligned).
        split_and!; [rewrite O2 by (unfold PGSIZE in *; lia); done|rewrite F2; done|done| |].
        -- intros H. apply P4. rewrite L2. apply elem_of_app. by right.
        -- intros [H|H]%V2; done.
      * destruct (M2 (i - length m1)%nat m Hi va) as (P1 & P2 & P3 & P4 & P5); [lia|]. split_and!; try done. rewrite L1. apply elem_of_app. by right.
  - intros q Hq Hqf. rewrite F2; [by apply F1| |].
    + intros [H|H]%V1; done.
    + intros H. apply Hqf. rewrite L1. apply elem_of_app. by right.
  - intros q [H|H]%V2; [by apply V1|right]. rewrite L1. apply elem_of_app. by right.
Qed.
(** One turn of the loop: a page mapped, or no page for a table. *)
Lemma grow_turn s mem fl pgdir a : pt_wf kend s (mem :: fl) pgdir → 0 ≤ a < 2^32 → a `mod` PGSIZE = 0 → mapped (pages s) pgdir a = None →
  ∃ s1 s2, kalloc s = Ok (mem, s1) ∧ mem ≠ 0 ∧ put_page mem (replicate 4096 0) s1 = Ok (tt, s2) ∧
    ((∃ s3 fl3, mappages pgdir a PGSIZE (V2P mem) (Z.lor PTE_W PTE_U) s2 = Ok (0, s3) ∧ grown s (mem :: fl) pgdir a 1 s3 fl3 ∧ (length fl ≤ S (length fl3))%nat) ∨
     (fl = [] ∧ mappages pgdir a PGSIZE (V2P mem) (Z.lor PTE_W PTE_U) s2 = Ok (-1, s2))).
Proof.
  intros Hwf Ha Hal Hun. destruct (map_fresh kend s mem fl pgdir a Hwf Ha Hal Hun) as
    (s1 & s2 & Hr1 & H0 & Hr2 & Hwf2 & Hok & Hmn & Ho2 & Hz & Hg & Hpte2 & Hfr2 & Hown2 & Hmap). exists s1, s2. split_and!; try done.
  destruct Hmap as [(s3 & fl3 & Hr3 & [Hwf3 Hfl3 Hpte3 Hfr3 Hown3 Hk3] & Hz3 & Ho3)|[-> Hr3]]; [left|by right]. exists s3, fl3.
  pose proof (page_of_aligned_0 a) as Hpa0. assert (∀ q, q ∈ fl3 → q ∈ fl) as Hsub.
  { intros q Hq. destruct Hfl3 as [->|(p & ->)]; [done|by right]. }
  assert (mem ≠ pgdir) as Hmd by (intros ->; apply Ho2; by left).
  split_and!; try done; [|destruct Hfl3 as [->|(p & ->)]; simpl; lia]. split; [done| | | | |].
  - destruct Hfl3 as [->|(p & ->)]; [by exists [mem]|by exists [mem; p]].
  - intros va Hva Hout. rewrite Hpte3 by done. rewrite bool_decide_eq_false_2 by (rewrite Hpa0 by done; lia). apply Hpte2. lia.
  - exists [mem]. split_and!; [apply NoDup_singleton|done| |].
    + intros [|i] m Hi va Hva; [injection Hi as <-|done]. rewrite Z.add_0_r in Hva.
      assert (a ≤ va < a + PGSIZE) as Hr by (by apply Hpa0). assert (va < 2^32) as Hvl by (unfold PGSIZE in *; dlia).
      split_and!; try done; [rewrite Hpte3 by lia; by rewrite bool_decide_eq_true_2|left|intros H; by apply Hmn, Hsub].
    + intros q [Hq|[->|Hq]%elem_of_cons]; [|right; right; by left|].
      * destruct (Hk3 q) as [?|?]; [left; eapply owns_same_dir; [|exact Hq]; by apply Hfr2, not_eq_sym|tauto|tauto].
      * destruct (Hk3 q) as [?|?]; [by right|tauto|tauto].
  - intros q Hq Hqf. apply not_elem_of_cons in Hqf as [Hqm Hqf]. rewrite Hfr3; [by apply Hfr2| |done]. intros H. by apply Hq, Hown2.
  - intros q [H|H]%Hown3; [left; by apply Hown2|right; by right].
Qed.
(** A range of no pages. *)
Lemma grown_nil s fl pgdir a : pt_wf kend s fl pgdir → grown s fl pgdir a 0 s fl.
Proof.
  intros Hwf. split; try done.
  - by exists [].
  - exists []. split_and!; [constructor|done|by intros i mem ?|tauto].
  - by intros q Hq; left.
Qed.
Lemma alloc_loop_grows n fuel s fl pgdir a oldsz newsz :
  pt_wf kend s fl pgdir → 0 ≤ a → a `mod` PGSIZE = 0 → newsz < KERNBASE →
  a + PGSIZE * (Z.of_nat n - 1) < newsz ∨ n = 0%nat → newsz ≤ a + PGSIZE * Z.of_nat n →
  (∀ va, a ≤ va < a + PGSIZE * Z.of_nat n → mapped (pages s) pgdir va = None) →
  (2 * n ≤ length fl)%nat → (n < fuel)%nat →
  ∃ s' fl', alloc_loop kend fuel pgdir a oldsz newsz s = Ok (newsz, s') ∧
    grown s fl pgdir a (Z.of_nat n) s' fl'.
Proof.
  revert fuel s fl a. induction n as [|n IH]; intros [|fuel] s fl a Hwf Ha Hal Hk Hlo Hhi Hun Hl Hf; try lia;
    cbn [alloc_loop].
  - rewrite bool_decide_eq_false_2 by lia. exists s, fl. split; [done|by apply grown_nil].
  - destruct Hlo as [Hlo|]; [|done]. rewrite bool_decide_eq_true_2 by (unfold PGSIZE in *; lia).
    destruct fl as [|mem [|p2 fl]]; [simpl in Hl; lia|simpl in Hl; lia|].
    assert (0 ≤ a < 2^32 ∧ a + PGSIZE < 2^32) as [Ha' Hae] by (unfold KERNBASE, PGSIZE in *; lia).
    destruct (grow_turn s mem (p2 :: fl) pgdir a Hwf Ha' Hal) as (s1 & s2 & Hr1 & H0 & Hr2 & [(s3 & fl3 & Hr3 & G1 & Hlen)|[? _]]); [apply Hun; unfold PGSIZE; lia| |done].
    rewrite (bind_ok _ _ _ _ _ Hr1). cbv beta. rewrite bool_decide_eq_false_2 by done. rewrite (bind_ok _ _ _ _ _ Hr2). cbv beta.
    rewrite (bind_ok _ _ _ _ _ Hr3). cbv beta. rewrite bool_decide_eq_false_2 by lia. rewrite (u32_small (a + PGSIZE)) by (unfold PGSIZE in *; lia).
    destruct (IH fuel s3 fl3 (a + PGSIZE)) as (s' & fl' & Hrun & G2).
    + apply G1.
    + unfold PGSIZE; lia.
    + clear -Hal. unfold PGSIZE in *. dlia.
    + done.
    + unfold PGSIZE in *. lia.
    + unfold PGSIZE in *. lia.
    + intros va Hva. unfold mapped. rewrite (gr_old _ _ _ _ _ _ _ G1) by (unfold KERNBASE, PGSIZE in *; lia). apply Hun. unfold PGSIZE in *. lia.
    + simpl in *. lia.
    + lia.
    + exists s', fl'. split; [done|]. replace (Z.of_nat (S n)) with (1 + Z.of_nat n) by lia. eapply grown_app; [done|done|lia|lia| |exact G1|].
      * rewrite Z.mul_1_r. lia.
      * by rewrite Z.mul_1_r.
Qed.
Lemma allocuvm_more s fl pgdir oldsz newsz : pt_wf kend s fl pgdir → 0 ≤ oldsz →
  let a := PGSIZE * ((oldsz + PGSIZE - 1) / PGSIZE) in
  let n := Z.max 0 ((newsz - a + PGSIZE - 1) / PGSIZE) in
  oldsz ≤ newsz < KERNBASE → 2 * n ≤ Z.of_nat (length fl) →
  (∀ va, a ≤ va < a + PGSIZE * n → mapped (pages s) pgdir va = None) →
  ∃ s' fl', allocuvm kend pgdir oldsz newsz s = Ok (newsz, s') ∧ grown s fl pgdir a n s' fl'.
Proof.
  intros Hwf Hold a n [Hle Hk] Hfl Hun. unfold allocuvm. rewrite !bool_decide_eq_false_2 by lia.
  rewrite PGROUNDUP_val by (unfold PGSIZE, KERNBASE in *; lia). fold a.
  assert (oldsz ≤ a < oldsz + PGSIZE) as Ha by (unfold a, PGSIZE; dlia).
  assert (a `mod` PGSIZE = 0) as Hal by (unfold a, PGSIZE; dlia).
  assert (n = Z.of_nat (Z.to_nat n)) as En by (rewrite Z2Nat.id by lia; done).
  rewrite En in *. apply (alloc_loop_grows (Z.to_nat n)); try done; try lia.
  - destruct (decide (newsz ≤ a)); [right; unfold n, PGSIZE in *; dlia|left].
    rewrite <- En. unfold n, PGSIZE in *. dlia.
  - rewrite <- En. unfold n, PGSIZE in *. dlia.
  - clear -Ha Hle. unfold n, PGSIZE in *. dlia.
Qed.
End claims_support.

(** ** A small memory for the witnesses: a blank directory and two free pages *)
Module ExVm.
Definition dir : Z := KERNBASE + 12288.
Definition fl : list Z := [KERNBASE + 4096; KERNBASE + 8192].
Definition s0 : kmem := set_page dir (replicate 4096 0) km_ex.

Lemma freed_good n : page_good (freed_page n).
Proof.
  split.
  - unfold freed_page. rewrite length_splice; [apply length_replicate|].
    rewrite length_le_bytes, length_replicate. lia.
  - apply splice_forall; [by apply Forall_replicate|apply le_bytes_ok].
Qed.

Lemma pde_zero i : 0 ≤ i < 1024 → pde_at (pages s0) dir i = 0.
Proof. intros Hi. unfold pde_at, s0. cbn [pages set_page]. rewrite page_at_eq. by apply word_zero. Qed.

Lemma not_free : dir ∉ fl.
Proof. unfold dir, fl, KERNBASE. set_solver by lia. Qed.

Lemma wf : pt_wf KERNBASE s0 fl dir.
Proof.
  split.
  - apply free_set_page; [apply km_ex_repr|apply not_free].
  - intros p Hp. apply good_insert; [apply zero_page_good|].
    apply elem_of_cons in Hp as [->|[->|?%elem_of_nil]%elem_of_cons]; [| |done]; unfold km_ex; cbn [pages].
    + exists (freed_page (KERNBASE + 8192)). rewrite lookup_insert_eq. split; [done|apply freed_good].
    + exists (freed_page 0). rewrite lookup_insert_ne, lookup_insert_eq by done. split; [done|apply freed_good].
  - split; [|apply not_free]. exists (replicate 4096 0). split; [apply lookup_insert_eq|apply zero_page_good].
  - intros i Hi. by rewrite pde_zero.
  - intros i j Hi Hj. by rewrite pde_zero.
Qed.

Lemma unmapped va : 0 ≤ va → mapped (pages s0) dir va = None.
Proof. intros Hva. unfold mapped, pte_at. by rewrite (pde_zero (PDX va)) by (by apply PDX_range). Qed.
End ExVm.

(** ** Properties *)

(** [mappages] of one page into a well-formed page table: at an unmapped
    address it installs exactly the entry [pa|perm|PTE_P] for that page, changes
    the translation of no other address and no page outside the tables, and keeps
    the table well-formed, taking at most one free page for a new table; it
    returns -1, changing nothing, only when a table is needed and no page is free;
    at a mapped address it panics. *)
Theorem mappages_maps_one_page kend s fl pgdir va k perm :
  pt_wf kend s fl pgdir → 0 ≤ va < 2^32 → va `mod` PGSIZE = 0 → 0 ≤ k < 1048576 → 0 ≤ perm < 4096 →
  (mapped (pages s) pgdir va = None →
     (∃ s' fl', mappages pgdir va PGSIZE (4096 * k) perm s = Ok (0, s') ∧
        map_result kend s fl pgdir va (Z.lor (Z.lor (4096 * k) perm) PTE_P) s' fl') ∨
     (fl = [] ∧ mappages pgdir va PGSIZE (4096 * k) perm s = Ok (-1, s))) ∧
  (∀ pte, mapped (pages s) pgdir va = Some pte →
     mappages pgdir va PGSIZE (4096 * k) perm s = Fault (Panic "remap")).
Proof.
  intros Hwf Hva Hm Hk Hp. split.
  - by apply (mappages_new kend).
  - intros pte. by apply (mappages_remap kend s fl).
Qed.

Lemma mappages_maps_one_page_witness : ∃ s' fl',
  mappages ExVm.dir 8192 PGSIZE (4096 * 5) 6 ExVm.s0 = Ok (0, s') ∧
  map_result KERNBASE ExVm.s0 ExVm.fl ExVm.dir 8192 20487 s' fl'.
Proof.
  destruct (proj1 (mappages_maps_one_page KERNBASE ExVm.s0 ExVm.fl ExVm.dir 8192 5 6 ExVm.wf
    ltac:(lia) eq_refl ltac:(lia) ltac:(lia)) (ExVm.unmapped 8192 ltac:(lia))) as [(s' & fl' & H1 & H2)|[? _]]; [|done].
  exists s', fl'. split; [exact H1|exact H2].
Defined.

(** [allocuvm] grows a process.  If the pages of the new range are unmapped
    and enough pages are free (two per page cover the page tables), it returns the
    new size and every page of the range is mapped present, writable and
    user-accessible, each to a page of its own taken from the free list and filled
    with zeros, while every translation outside the range is unchanged.  A new
    size at or above [KERNBASE] gives 0 and a smaller one the old size, both
    without any change. *)
Theorem allocuvm_grows kend s fl pgdir oldsz newsz :
  pt_wf kend s fl pgdir → 0 ≤ oldsz → 0 ≤ newsz < 2^32 →
  let a := PGSIZE * ((oldsz + PGSIZE - 1) / PGSIZE) in
  let n := Z.max 0 ((newsz - a + PGSIZE - 1) / PGSIZE) in
  (oldsz ≤ newsz < KERNBASE → 2 * n ≤ Z.of_nat (length fl) →
   (∀ va, a ≤ va < a + PGSIZE * n → mapped (pages s) pgdir va = None) →
   ∃ s' fl', allocuvm kend pgdir oldsz newsz s = Ok (newsz, s') ∧ grown kend s fl pgdir a n s' fl') ∧
  (KERNBASE ≤ newsz → allocuvm kend pgdir oldsz newsz s = Ok (0, s)) ∧
  (newsz < oldsz → newsz < KERNBASE → allocuvm kend pgdir oldsz newsz s = Ok (oldsz, s)).
Proof.
  intros Hwf Hold Hnew a n. split_and!.
  - intros H1 H2 H3. by apply allocuvm_more.
  - intros Hk. unfold allocuvm. by rewrite bool_decide_eq_true_2.
  - intros H1 H2. unfold allocuvm. rewrite bool_decide_eq_false_2 by lia. by rewrite bool_decide_eq_true_2.
Qed.

Lemma allocuvm_grows_witness : ∃ s' fl',
  allocuvm KERNBASE ExVm.dir 5000 9000 ExVm.s0 = Ok (9000, s') ∧
  grown KERNBASE ExVm.s0 ExVm.fl ExVm.dir 8192 1 s' fl'.
Proof.
  refine (proj1 (allocuvm_grows KERNBASE ExVm.s0 ExVm.fl ExVm.dir 5000 9000 ExVm.wf _ _) _ _ _);
    try (unfold KERNBASE; simpl; lia); [by vm_compute|].
  intros va Hva. apply ExVm.unmapped. change (PGSIZE * ((5000 + PGSIZE - 1) / PGSIZE)) with 8192 in Hva. lia.
Defined.

(** The page fault handler of lab4.  With a free page, a fault at any
    32-bit address whose page is unmapped maps that page, present, writable and
    user-accessible, to a fresh zeroed page and leaves every other translation
    alone; if no page is left for a table it undoes the allocation.  The handler
    has no access to the process size: an access beyond the end of the process is
    served like one inside it.  And a user access to a page that is mapped but not
    accessible, such as the stack's guard page, panics the kernel. *)
Theorem page_fault_maps_zero_page kend s mem fl pgdir cr2 :
  pt_wf kend s (mem :: fl) pgdir → 0 ≤ cr2 < 2^32 →
  (mapped (pages s) pgdir (PGROUNDDOWN cr2) = None →
   ∃ ok s' fl', page_fault kend pgdir cr2 s = Ok (ok, s') ∧ pt_wf kend s' fl' pgdir ∧
     (ok = true → pages s' !! mem = Some (replicate 4096 0) ∧ ∀ va, 0 ≤ va < 2^32 →
        pte_at (pages s') pgdir va =
          if bool_decide (page_of va = page_of cr2) then V2P mem + 7 else pte_at (pages s) pgdir va) ∧
     (ok = false → fl = [] ∧ fl' = [mem] ∧ ∀ va, 0 ≤ va → pte_at (pages s') pgdir va = pte_at (pages s) pgdir va)) ∧
  (∀ pte, mapped (pages s) pgdir (PGROUNDDOWN cr2) = Some pte →
     page_fault kend pgdir cr2 s = Fault (Panic "remap")).
Proof.
  intros Hwf Hc. unfold page_fault.
  assert (0 ≤ PGROUNDDOWN cr2 < 2^32) as Ha by (rewrite PGROUNDDOWN_val by done; unfold PGSIZE; dlia).
  assert (PGROUNDDOWN cr2 `mod` PGSIZE = 0) as Hal by (rewrite PGROUNDDOWN_val by done; unfold PGSIZE; dlia).
  assert (page_of (PGROUNDDOWN cr2) = page_of cr2) as Hpo
    by (rewrite PGROUNDDOWN_val by done; unfold page_of, PGSIZE; dlia).
  split.
  - intros Hmap.
    destruct (map_fresh kend s mem fl pgdir _ Hwf Ha Hal Hmap) as
      (s1 & s2 & Hr1 & H0 & Hr2 & Hwf2 & Hok & Hmn & Ho2 & Hz & Hg & Hpte2 & _ & _ & Hres).
    rewrite (bind_ok _ _ _ _ _ Hr1). cbv beta. rewrite bool_decide_eq_false_2 by done.
    rewrite (bind_ok _ _ _ _ _ Hr2). cbv beta. destruct Hres as [(s3 & fl3 & Hr3 & Hmr & Hz3 & _)|[-> Hr3]].
    + rewrite (bind_ok _ _ _ _ _ Hr3). cbv beta. rewrite bool_decide_eq_false_2 by lia.
      exists true, s3, fl3. split_and!; [done|apply Hmr| |done]. intros _. split; [done|]. intros va Hva.
      rewrite (mr_pte _ _ _ _ _ _ _ _ Hmr va Hva), Hpo. case_bool_decide; [done|]. apply Hpte2. lia.
    + rewrite (bind_ok _ _ _ _ _ Hr3). cbv beta. rewrite bool_decide_eq_true_2 by lia.
      destruct (pt_kfree kend s2 [] pgdir mem Hwf2 Hok Hg Hmn Ho2) as (s4 & Hr4 & Hwf4 & Hpte4).
      rewrite (bind_ok _ _ _ _ _ Hr4). cbv beta. exists false, s4, [mem].
      split_and!; [done|done|done|]. intros _. split_and!; [done|done|]. intros va Hva.
      rewrite Hpte4 by done. by apply Hpte2.
  - intros pte Hmap. destruct (pt_kalloc kend s mem fl pgdir Hwf) as (s1 & Hk & Hwf1 & Hpg & H0 & Hok & Hn & Ho & (bm & Hbm & _)).
    rewrite (bind_ok _ _ _ _ _ Hk). cbv beta. rewrite bool_decide_eq_false_2 by done.
    rewrite <- Hpg in Ho, Hbm, Hmap.
    destruct (pt_set_foreign kend s1 fl pgdir mem _ Hwf1 zero_page_good Hn Ho) as [Hwf2 Hpte2].
    erewrite bind_ok by (eapply put_page_run; exact Hbm). cbv beta.
    erewrite bind_fault; [done|]. eapply (mappages_remap kend _ fl); [exact Hwf2|done|done|].
    unfold mapped in *. cbn [pages set_page]. rewrite Hpte2 by lia. exact Hmap.
Qed.

(** A fault far beyond any process: 2 GB - 1. *)
Lemma page_fault_maps_zero_page_witness : ∃ ok s' fl',
  page_fault KERNBASE ExVm.dir 2147483647 ExVm.s0 = Ok (ok, s') ∧ pt_wf KERNBASE s' fl' ExVm.dir.
Proof.
  destruct (proj1 (page_fault_maps_zero_page KERNBASE ExVm.s0 _ _ ExVm.dir 2147483647 ExVm.wf ltac:(lia))
    (ExVm.unmapped (PGROUNDDOWN 2147483647) ltac:(by vm_compute))) as (ok & s' & fl' & H1 & H2 & _).
  exists ok, s', fl'. split; [exact H1|exact H2].
Defined.

(** Lazy [sbrk] and [fork] do not fit together: [sys_sbrk] of lab4 moves
    the size without mapping anything, and the copy loop of [copyuvm], which
    [fork] runs over the whole size, panics at the first page below the size that
    has not been touched yet. *)
Theorem fork_after_lazy_sbrk_panics kend s fl pgdir d sz n i fuel :
  pt_wf kend s fl pgdir → 0 ≤ sz → 0 ≤ n → sz + n < KERNBASE →
  0 ≤ i < (sys_sbrk_lazy sz n).2 → mapped (pages s) pgdir i = None →
  (sys_sbrk_lazy sz n) = (sz, sz + n) ∧
  ∃ msg, copy_loop kend (S fuel) pgdir d i (sys_sbrk_lazy sz n).2 s = Fault (Panic msg).
Proof.
  intros Hwf Hsz Hn Hk Hi Hmap. split.
  { unfold sys_sbrk_lazy, KERNBASE in *. rewrite s32_small, u32_small by lia. done. }
  cbn [copy_loop]. rewrite bool_decide_eq_true_2 by lia. unfold mapped in Hmap.
  destruct (present (pde_at (pages s) pgdir (PDX i))) eqn:Hp.
  - rewrite (bind_ok _ _ _ _ _ (walk_present kend s fl pgdir i false Hwf ltac:(lia) Hp)). cbv beta iota.
    pose proof (u32_range (sz + n)).
    destruct (pte_write kend s fl pgdir i 0 Hwf ltac:(unfold sys_sbrk_lazy in Hi; simpl in Hi; lia) ltac:(lia) Hp)
      as (b & Hb & Hg & Hw & _).
    erewrite bind_ok by (eapply read_word_run; [exact Hb|done|apply PTX_range; lia]). cbv beta.
    rewrite Hw. destruct (present (pte_at (pages s) pgdir i)); [done|]. by eexists.
  - rewrite (bind_ok _ _ _ _ _ (walk_absent kend s fl pgdir i Hwf ltac:(lia) Hp)). by eexists.
Qed.

Lemma fork_after_lazy_sbrk_panics_witness : sys_sbrk_lazy 0 4096 = (0, 4096) ∧
  ∃ msg, copy_loop KERNBASE 2 ExVm.dir 0 0 4096 ExVm.s0 = Fault (Panic msg).
Proof.
  apply (fork_after_lazy_sbrk_panics KERNBASE ExVm.s0 ExVm.fl ExVm.dir 0 0 4096 0 1 ExVm.wf);
    try (unfold KERNBASE; lia); [by vm_compute|by apply ExVm.unmapped].
Defined.
