(* ===== verification/VmSpace.v ===== *)
(** * Address spaces of xv6

    The invariant of a page directory whose user part owns its pages, and what
    [deallocuvm], [allocuvm] and [freevm] do to it whether or not memory runs
    out: no page is lost, none is freed twice. *)
From stdpp Require Import base numbers list gmap strings.
From S2P Require Import Prelude Bytes Kalloc Vm VmFacts VmClaims.
#[local] Open Scope Z_scope.

Section space.
(** The kernel ends above its load address, so no frame has physical address 0. *)
Context (kend : Z) (Hkend : KERNBASE < kend).

(** The kernel's address of the page at [va]. *)
Definition frame (pg : gmap Z (list Z)) (pgdir va : Z) : Z := P2V (PTE_ADDR (pte_at pg pgdir va)).
Definition user_at (pg : gmap Z (list Z)) (pgdir va : Z) : Prop := 0 ≤ va < KERNBASE ∧ present (pte_at pg pgdir va) = true.

Record space (s : kmem) (fl : list Z) (pgdir : Z) : Prop := {
  as_pt : pt_wf kend s fl pgdir;
  as_dir : page_ok kend pgdir;
  as_tab : ∀ i, 0 ≤ i < 1024 → present (pde_at (pages s) pgdir i) = true → page_ok kend (table_of (pages s) pgdir i);
  as_user : ∀ va, user_at (pages s) pgdir va →
    page_ok kend (frame (pages s) pgdir va) ∧ good_at (pages s) (frame (pages s) pgdir va) ∧
    (frame (pages s) pgdir va ∉ fl) ∧ ¬ owns (pages s) pgdir (frame (pages s) pgdir va);
  as_inj : ∀ va va', user_at (pages s) pgdir va → user_at (pages s) pgdir va' →
    frame (pages s) pgdir va = frame (pages s) pgdir va' → page_of va = page_of va' }.

Lemma pte_same_page pg pgdir va va' : 0 ≤ va < 2^32 → 0 ≤ va' < 2^32 → page_of va = page_of va' → pte_at pg pgdir va = pte_at pg pgdir va'.
Proof. intros H H' E. apply same_page in E as [E1 E2]; [|done|done]. unfold pte_at. by rewrite E1, E2. Qed.
Lemma pte_range s fl pgdir va : pt_wf kend s fl pgdir → 0 ≤ va → 0 ≤ pte_at (pages s) pgdir va < 2^32.
Proof.
  intros Hwf Hva. unfold pte_at. destruct (present _) eqn:Hp; [|lia].
  destruct (pt_tab _ _ _ _ Hwf (PDX va) (PDX_range va Hva) Hp) as ((b & Hb & Hg) & _). rewrite (page_at_Some _ _ _ Hb).
  apply word_range; [done|by apply PTX_range].
Qed.
Lemma pde_of_pte pg pgdir va : present (pte_at pg pgdir va) = true → present (pde_at pg pgdir (PDX va)) = true.
Proof. unfold pte_at. by destruct (present (pde_at _ _ _)). Qed.

(** Two states with the same directory and tables. *)
Lemma owns_ext pg pg' pgdir q : (∀ i, 0 ≤ i < 1024 → pde_at pg' pgdir i = pde_at pg pgdir i) → owns pg' pgdir q ↔ owns pg pgdir q.
Proof.
  intros E. assert (∀ i, 0 ≤ i < 1024 → table_of pg' pgdir i = table_of pg pgdir i) as Et by (intros i Hi; unfold table_of; by rewrite E).
  split; (intros [?|(i & Hi & Hp & Hq)]; [by left|right; exists i]); rewrite Et, E in * by done; done.
Qed.
Lemma free_good s fl pgdir v : space s fl pgdir → page_ok kend v → good_at (pages s) v → v ∉ fl → ¬ owns (pages s) pgdir v →
  ∃ s1, kfree kend v s = Ok (tt, s1) ∧ pt_wf kend s1 (v :: fl) pgdir ∧
    (∀ va, 0 ≤ va → pte_at (pages s1) pgdir va = pte_at (pages s) pgdir va) ∧
    pages s1 = <[v := freed_page (freelist s)]> (pages s).
Proof using All.
  intros H Hok Hg Hn Ho. pose proof Hg as (b & Hb & _).
  destruct (pt_kfree kend s fl pgdir v (as_pt _ _ _ H) Hok Hg Hn Ho) as (s1 & Hk & Hwf & Hpte).
  destruct (kfree_repr kend v s fl b (pt_free _ _ _ _ (as_pt _ _ _ H)) Hok Hb Hn) as (s1' & Hk' & _ & _ & Hpg).
  rewrite Hk in Hk'. injection Hk' as <-. by exists s1.
Qed.

(** Unmapping a page and freeing its frame: one turn of [deallocuvm]. *)
Record unmapped_one (s : kmem) (fl : list Z) (pgdir va : Z) (s2 : kmem) : Prop := {
  un_space : space s2 (frame (pages s) pgdir va :: fl) pgdir;
  un_pte : ∀ va', 0 ≤ va' < 2^32 →
    pte_at (pages s2) pgdir va' = if bool_decide (page_of va' = page_of va) then 0 else pte_at (pages s) pgdir va';
  un_pde : ∀ i, 0 ≤ i < 1024 → pde_at (pages s2) pgdir i = pde_at (pages s) pgdir i;
  un_frame : ∀ q, ¬ owns (pages s) pgdir q → q ≠ frame (pages s) pgdir va → pages s2 !! q = pages s !! q }.

Lemma unmap_one s fl pgdir va : space s fl pgdir → user_at (pages s) pgdir va →
  ∃ s1 s2, PTE_ADDR (pte_at (pages s) pgdir va) ≠ 0 ∧ kfree kend (frame (pages s) pgdir va) s = Ok (tt, s1) ∧
    write_word (table_of (pages s) pgdir (PDX va)) (PTX va) 0 s1 = Ok (tt, s2) ∧ unmapped_one s fl pgdir va s2.
Proof using All.
  intros H Hu. pose proof Hu as [Hva Hp]. destruct (as_user _ _ _ H va Hu) as (Hok & Hg & Hn & Ho). set (f := frame (pages s) pgdir va) in *.
  destruct (free_good s fl pgdir f H Hok Hg Hn Ho) as (s1 & Hk & Hwf1 & Hpte1 & Hpg1).
  assert (0 ≤ va < 2^32) as Hva32 by (unfold KERNBASE in *; lia).
  assert (f ≠ pgdir) as Hfd by (intros E; apply Ho; by left).
  assert (∀ i, pde_at (pages s1) pgdir i = pde_at (pages s) pgdir i) as Hpde1 by (intros i; rewrite Hpg1; by apply pde_at_ne).
  pose proof (pde_of_pte _ _ _ Hp) as Hd. rewrite <- Hpde1 in Hd.
  destruct (pte_write kend s1 (f :: fl) pgdir va 0 Hwf1 Hva32 ltac:(lia) Hd) as (b & Hb & Hgb & _ & Hwf2 & Hpte2).
  assert (table_of (pages s1) pgdir (PDX va) = table_of (pages s) pgdir (PDX va)) as Et by (unfold table_of; by rewrite Hpde1).
  rewrite Et in *. set (t := table_of (pages s) pgdir (PDX va)) in *.
  assert (t ≠ pgdir ∧ owns (pages s) pgdir t) as [Htd Hto].
  { rewrite Hpde1 in Hd. split; [apply (pt_tab _ _ _ _ (as_pt _ _ _ H) (PDX va) (PDX_range va ltac:(lia)) Hd)|].
    right. exists (PDX va). split; [apply PDX_range; lia|done]. }
  exists s1, (set_page t (set_word b (PTX va) 0) s1). split_and!; [|done|by apply write_word_run; [..|apply PTX_range; lia]|].
  { intros E. pose proof Hok as (_ & Hk0 & _). unfold f, frame in Hk0. rewrite E in Hk0. change (P2V 0) with KERNBASE in Hk0. lia. }
  set (s2 := set_page t (set_word b (PTX va) 0) s1) in *.
  assert (∀ i, pde_at (pages s2) pgdir i = pde_at (pages s) pgdir i) as Hpde2.
  { intros i. cbn [s2 pages set_page]. rewrite pde_at_ne by done. apply Hpde1. }
  assert (∀ va', 0 ≤ va' < 2^32 → pte_at (pages s2) pgdir va' = if bool_decide (page_of va' = page_of va) then 0 else pte_at (pages s) pgdir va') as Hpte.
  { intros va' Hv. rewrite Hpte2 by done. destruct (bool_decide _); [done|]. apply Hpte1. lia. }
  assert (∀ va', user_at (pages s2) pgdir va' → page_of va' ≠ page_of va ∧ user_at (pages s) pgdir va' ∧ frame (pages s2) pgdir va' = frame (pages s) pgdir va') as Hus.
  { intros va' [Hr Hpr]. rewrite Hpte in Hpr by (unfold KERNBASE in *; lia). unfold frame, user_at. rewrite Hpte by (unfold KERNBASE in *; lia).
    destruct (decide (page_of va' = page_of va)) as [E|E]; [by rewrite bool_decide_eq_true_2 in Hpr by done|].
    rewrite bool_decide_eq_false_2 in * by done. destruct Hr. by split_and!. }
  assert (∀ q, owns (pages s2) pgdir q ↔ owns (pages s) pgdir q) as Hown by (intros q; by apply owns_ext).
  split; [split| | |].
  - done.
  - apply H.
  - intros i Hi. rewrite Hpde2. unfold table_of. rewrite Hpde2. by apply (as_tab _ _ _ H).
  - intros va' Hu'. destruct (Hus va' Hu') as (Hne & Hu1 & ->). destruct (as_user _ _ _ H va' Hu1) as (U1 & U2 & U3 & U4).
    assert (frame (pages s) pgdir va' ≠ f) as Hff by (intros E; apply Hne; by apply (as_inj _ _ _ H)).
    split_and!; [done| |by apply not_elem_of_cons|by rewrite Hown].
    destruct U2 as (b' & Hb' & Hg'). exists b'. split; [|done]. cbn [s2 pages set_page].
    rewrite lookup_insert_ne by (intros E; apply U4; by rewrite <- E). by rewrite Hpg1, lookup_insert_ne by (by apply not_eq_sym).
  - intros v v' Hv Hv'. destruct (Hus v Hv) as (_ & ? & ->). destruct (Hus v' Hv') as (_ & ? & ->). by apply (as_inj _ _ _ H).
  - done.
  - auto.
  - intros q Hq Hqf. cbn [s2 pages set_page]. rewrite lookup_insert_ne by (intros <-; done). by rewrite Hpg1, lookup_insert_ne by (by apply not_eq_sym).
Qed.

(** ** deallocuvm *)

(** The pages from [lo] to [hi] are gone, their frames free. *)
Record shrunk (s : kmem) (fl : list Z) (pgdir lo hi : Z) (s' : kmem) (freed : list Z) : Prop := {
  sh_space : space s' (freed ++ fl) pgdir;
  sh_in : ∀ va, lo ≤ va < hi → present (pte_at (pages s') pgdir va) = false;
  sh_out : ∀ va, 0 ≤ va < 2^32 → va < lo ∨ hi ≤ va → pte_at (pages s') pgdir va = pte_at (pages s) pgdir va;
  sh_pde : ∀ i, 0 ≤ i < 1024 → pde_at (pages s') pgdir i = pde_at (pages s) pgdir i;
  sh_freed : ∀ q, q ∈ freed ↔ ∃ va, lo ≤ va < hi ∧ user_at (pages s) pgdir va ∧ q = frame (pages s) pgdir va;
  sh_frame : ∀ q, ¬ owns (pages s) pgdir q → q ∉ freed → pages s' !! q = pages s !! q }.

Lemma shrunk_none s fl pgdir lo hi : space s fl pgdir → (∀ va, lo ≤ va < hi → present (pte_at (pages s) pgdir va) = false) →
  shrunk s fl pgdir lo hi s [].
Proof.
  intros H Hn. split; try done. intros q. split; [by intros ?%elem_of_nil|]. intros (va & Hva & [_ Hp] & _). by rewrite Hn in Hp.
Qed.
Lemma shrunk_app s fl pgdir lo mid hi s1 f1 s2 f2 : 0 ≤ lo ≤ mid → mid ≤ hi ≤ KERNBASE →
  shrunk s fl pgdir lo mid s1 f1 → shrunk s1 (f1 ++ fl) pgdir mid hi s2 f2 → shrunk s fl pgdir lo hi s2 (f2 ++ f1).
Proof.
  intros Hlo Hhi [A1 A2 A3 A4 A5 A6] [B1 B2 B3 B4 B5 B6].
  assert (∀ va, mid ≤ va < hi → (user_at (pages s1) pgdir va ↔ user_at (pages s) pgdir va) ∧ frame (pages s1) pgdir va = frame (pages s) pgdir va) as Hsame.
  { intros va Hva. unfold user_at, frame. by rewrite A3 by (unfold KERNBASE in *; lia). }
  split.
  - by rewrite <- app_assoc.
  - intros va Hva. destruct (decide (mid ≤ va)); [apply B2; lia|]. rewrite B3 by (unfold KERNBASE in *; lia). apply A2. lia.
  - intros va Hva Ho. rewrite B3, A3 by lia. done.
  - intros i Hi. by rewrite B4, A4.
  - intros q. rewrite elem_of_app, A5, B5. split.
    + intros [(va & Hva & Hu & ->)|(va & Hva & Hu & ->)]; exists va; [|split; [lia|done]].
      destruct (Hsame va Hva) as [E ->]. split; [lia|]. by split; [apply E|].
    + intros (va & Hva & Hu & ->). destruct (decide (mid ≤ va)) as [Hm|Hm]; [left|right; exists va; split; [lia|done]].
      exists va. destruct (Hsame va ltac:(lia)) as [E ->]. split; [lia|]. by split; [apply E|].
  - intros q Hq Hn. rewrite not_elem_of_app in Hn. destruct Hn as [Hn2 Hn1]. rewrite B6; [by apply A6| |done].
    rewrite (owns_ext (pages s)); [done|exact A4].
Qed.
Lemma shrunk_one s fl pgdir a s2 : 0 ≤ a → a + PGSIZE ≤ KERNBASE → a `mod` PGSIZE = 0 → user_at (pages s) pgdir a → unmapped_one s fl pgdir a s2 →
  shrunk s fl pgdir a (a + PGSIZE) s2 [frame (pages s) pgdir a].
Proof.
  intros Ha0 Ha Hal Hu [U1 U2 U3 U4]. pose proof (page_of_aligned_0 a) as P0. split; try done.
  - intros va Hva. rewrite U2 by (unfold KERNBASE, PGSIZE in *; lia). by rewrite bool_decide_eq_true_2 by (by apply P0).
  - intros va Hva Ho. rewrite U2 by done. rewrite bool_decide_eq_false_2; [done|]. rewrite P0 by done. lia.
  - intros q. rewrite list_elem_of_singleton. split.
    + intros ->. exists a. split; [unfold PGSIZE; lia|done].
    + intros (va & Hva & [Hv _] & ->). unfold frame.
      rewrite (pte_same_page (pages s) pgdir va a); [done|unfold KERNBASE in *; lia|unfold KERNBASE, PGSIZE in *; lia|by apply P0].
  - intros q Hq Hn. apply U4; [done|]. intros ->. apply Hn. by left.
Qed.

(** Where the loop goes on after a missing page table. *)
Lemma next_table a : 0 ≤ a < KERNBASE → u32 (u32 (PGADDR (PDX a + 1) 0 0 - PGSIZE) + PGSIZE) = 4194304 * (a / 4194304 + 1).
Proof.
  intros Ha. rewrite PDX_val by lia. assert (0 ≤ a / 4194304 < 512) as Hd by (unfold KERNBASE in *; dlia). rewrite Z.mod_small by lia.
  unfold PGADDR. rewrite Z.shiftl_0_l, !Z.lor_0_r, Z.shiftl_mul_pow2 by lia. change (2 ^ 22) with 4194304.
  rewrite (u32_small (_ * _)) by lia. rewrite (u32_small (_ - _)) by (unfold PGSIZE; lia). rewrite u32_small; unfold PGSIZE; lia.
Qed.

Lemma dealloc_loop_run fuel s fl pgdir a oldsz : space s fl pgdir → 0 ≤ a → a `mod` PGSIZE = 0 → oldsz ≤ KERNBASE →
  let hi := Z.max a (PGSIZE * ((oldsz + PGSIZE - 1) / PGSIZE)) in hi - a < PGSIZE * Z.of_nat fuel →
  ∃ s' freed, dealloc_loop kend fuel pgdir a oldsz s = Ok (tt, s') ∧ shrunk s fl pgdir a hi s' freed.
Proof using All.
  revert s fl a. induction fuel as [|fuel IH]; intros s fl a H Ha Hal Hold hi Hf; [unfold hi in Hf; lia|]. cbn [dealloc_loop].
  destruct (decide (a < oldsz)) as [Hlt|Hge].
  2:{ rewrite bool_decide_eq_false_2 by done. exists s, []. split; [done|]. apply shrunk_none; [done|]. intros va Hva. unfold hi, PGSIZE in *. dlia. }
  rewrite bool_decide_eq_true_2 by done.
  assert (a + PGSIZE ≤ hi ∧ hi ≤ KERNBASE ∧ hi `mod` PGSIZE = 0) as (Hhi & Hhk & Hhm) by (unfold hi, KERNBASE, PGSIZE in *; dlia).
  assert (∀ b, a ≤ b → b `mod` PGSIZE = 0 → b ≤ hi → Z.max b (PGSIZE * ((oldsz + PGSIZE - 1) / PGSIZE)) = hi) as Hmax by (intros; unfold hi, PGSIZE in *; dlia).
  assert (0 ≤ a < KERNBASE ∧ 0 ≤ a < 2^32) as [Hak Ha32] by (unfold KERNBASE, PGSIZE in *; lia).
  destruct (present (pde_at (pages s) pgdir (PDX a))) eqn:Hd.
  - rewrite (bind_ok _ _ _ _ _ (walk_present kend s fl pgdir a false (as_pt _ _ _ H) ltac:(lia) Hd)). cbv beta iota.
    destruct (pte_write kend s fl pgdir a 0 (as_pt _ _ _ H) Ha32 ltac:(lia) Hd) as (b & Hb & Hg & Hw & _).
    erewrite bind_ok by (eapply read_word_run; [exact Hb|done|apply PTX_range; lia]). cbv beta. rewrite Hw.
    rewrite (u32_small (a + PGSIZE)) by (unfold KERNBASE, PGSIZE in *; lia).
    assert ((a + PGSIZE) `mod` PGSIZE = 0) as Hal' by (clear -Hal; unfold PGSIZE in *; dlia).
    destruct (present (pte_at (pages s) pgdir a)) eqn:Hp.
    + destruct (unmap_one s fl pgdir a H (conj Hak Hp)) as (s1 & s2 & Hnz & Hk & Hwr & Hun). cbv zeta. rewrite bool_decide_eq_false_2 by done.
      mstep Hk. mstep Hwr. pose proof (shrunk_one s fl pgdir a s2 Ha ltac:(lia) Hal (conj Hak Hp) Hun) as S1.
      destruct (IH s2 (frame (pages s) pgdir a :: fl) (a + PGSIZE)) as (s' & freed & Hrun & S2); [apply Hun|unfold PGSIZE; lia|done|done| |].
      { rewrite Hmax by (try done; unfold PGSIZE in *; lia). unfold PGSIZE in *. lia. }
      rewrite Hmax in S2 by (try done; unfold PGSIZE in *; lia). exists s', (freed ++ [frame (pages s) pgdir a]). split; [done|].
      eapply shrunk_app; [| |exact S1|exact S2]; unfold PGSIZE in *; lia.
    + destruct (IH s fl (a + PGSIZE)) as (s' & freed & Hrun & S2); [done|unfold PGSIZE; lia|done|done| |].
      { rewrite Hmax by (try done; unfold PGSIZE in *; lia). unfold PGSIZE in *. lia. }
      rewrite Hmax in S2 by (try done; unfold PGSIZE in *; lia). exists s', (freed ++ []). split; [done|].
      eapply (shrunk_app s fl pgdir a (a + PGSIZE)); [unfold PGSIZE; lia|unfold PGSIZE in *; lia|apply shrunk_none; [done|]|exact S2].
      intros va Hva. rewrite (pte_same_page _ _ va a); [done|unfold KERNBASE, PGSIZE in *; lia|done|by apply page_of_aligned_0].
  - assert (walkpgdir pgdir a false s = Ok (None, s)) as Hwalk by (apply (walk_absent kend s fl); [apply H|lia|done]).
    mstep Hwalk. cbv iota. rewrite next_table by done. set (a' := 4194304 * (a / 4194304 + 1)).
    assert (a + PGSIZE ≤ a' ∧ a' `mod` PGSIZE = 0) as [Ha' Hal'] by (clear -Hal; unfold a', PGSIZE in *; dlia).
    assert (∀ va, a ≤ va < a' → present (pte_at (pages s) pgdir va) = false) as Hnone.
    { intros va Hva. unfold pte_at. replace (PDX va) with (PDX a); [by rewrite Hd|]. rewrite !PDX_val by lia. f_equal. clear -Hva. unfold a' in *. dlia. }
    destruct (decide (oldsz ≤ a')) as [Hend|Hmore].
    + destruct fuel as [|fuel]; [unfold PGSIZE in *; lia|]. cbn [dealloc_loop]. rewrite bool_decide_eq_false_2 by lia. exists s, []. split; [done|].
      apply shrunk_none; [done|]. intros va Hva. apply Hnone. clear -Hva Hend Hal' Ha' Hhi. unfold hi, PGSIZE in *. dlia.
    + assert (a' ≤ hi) as Hle by (unfold hi, PGSIZE in *; dlia).
      destruct (IH s fl a') as (s' & freed & Hrun & S2); [done|unfold PGSIZE in *; lia|done|done| |].
      { rewrite Hmax by (try done; unfold PGSIZE in *; lia). unfold PGSIZE in *. lia. }
      rewrite Hmax in S2 by (try done; unfold PGSIZE in *; lia). exists s', (freed ++ []). split; [done|].
      eapply (shrunk_app s fl pgdir a a'); [unfold PGSIZE in *; lia|lia|by apply shrunk_none|exact S2].
Qed.

(** [deallocuvm] frees the pages between the sizes, and cannot fail. *)
Lemma deallocuvm_run s fl pgdir oldsz newsz : space s fl pgdir → 0 ≤ newsz → newsz < oldsz ≤ KERNBASE →
  let lo := PGSIZE * ((newsz + PGSIZE - 1) / PGSIZE) in let hi := Z.max lo (PGSIZE * ((oldsz + PGSIZE - 1) / PGSIZE)) in
  ∃ s' freed, deallocuvm kend pgdir oldsz newsz s = Ok (newsz, s') ∧ shrunk s fl pgdir lo hi s' freed.
Proof using All.
  intros H Hn Ho lo hi. unfold deallocuvm. rewrite bool_decide_eq_false_2 by lia. rewrite PGROUNDUP_val by (unfold KERNBASE, PGSIZE in *; lia). fold lo.
  destruct (dealloc_loop_run (S (Z.to_nat ((oldsz - newsz) / PGSIZE + 1))) s fl pgdir lo oldsz H) as (s' & freed & Hrun & S).
  - unfold lo, PGSIZE. dlia.
  - clear. unfold lo, PGSIZE. dlia.
  - lia.
  - rewrite Nat2Z.inj_succ, Z2Nat.id by (unfold PGSIZE; dlia). fold hi. clear -Hn Ho. unfold hi, lo, PGSIZE in *. dlia.
  - mstep Hrun. by exists s', freed.
Qed.

(** ** freevm *)
Section tables.
Context (pgdir : Z) (b : list Z) (Hg : page_good b).
Let tab (j : Z) : Z := P2V (PTE_ADDR (word b j)).
(** The tables from index [i] on are still to be freed. *)
Record tables_left (s : kmem) (fl : list Z) (i : Z) : Prop := {
  tl_free : free_repr kend s fl;
  tl_dir : pages s !! pgdir = Some b;
  tl_tab : ∀ j, i ≤ j < 1024 → present (word b j) = true →
    page_ok kend (tab j) ∧ is_Some (pages s !! tab j) ∧ (tab j ∉ fl) ∧ tab j ≠ pgdir;
  tl_inj : ∀ j j', i ≤ j < 1024 → i ≤ j' < 1024 → present (word b j) = true → present (word b j') = true → tab j = tab j' → j = j' }.

Lemma free_tables_run n s fl i : 0 ≤ i → i + Z.of_nat n = 1024 → tables_left s fl i →
  ∃ s' freed, free_tables kend n pgdir i s = Ok (tt, s') ∧ free_repr kend s' (freed ++ fl) ∧
    (∀ q, q ∈ freed ↔ ∃ j, i ≤ j < 1024 ∧ present (word b j) = true ∧ q = tab j) ∧
    (∀ q, q ∉ freed → pages s' !! q = pages s !! q) ∧ (∀ q, q ∈ freed → good_at (pages s') q).
Proof using Hg.
  revert s fl i. induction n as [|n IH]; intros s fl i Hi Hn [Hf Hd Ht Hinj].
  - exists s, []. split_and!; [done|done| |done|by intros q ?%elem_of_nil]. intros q. split; [by intros ?%elem_of_nil|]. intros (j & Hj & _). lia.
  - cbn [free_tables]. assert (read_word pgdir i s = Ok (word b i, s)) as Hr by (apply read_word_run; [done|done|lia]). mstep Hr.
    destruct (present (word b i)) eqn:Hp.
    + destruct (Ht i ltac:(lia) Hp) as (Hok & [bt Hbt] & Hnf & Hnd).
      destruct (kfree_repr kend (tab i) s fl bt Hf Hok Hbt Hnf) as (s1 & Hk & Hf1 & _ & Hpg). mstep Hk.
      assert (∀ q, q ≠ tab i → pages s1 !! q = pages s !! q) as Hsame by (intros q Hq; by rewrite Hpg, lookup_insert_ne by (by apply not_eq_sym)).
      destruct (IH s1 (tab i :: fl) (i + 1)) as (s' & freed & Hrun & Hf' & Hmem & Hfr & Hgo); [lia|lia| |].
      { split; [done|by rewrite Hsame by (by apply not_eq_sym)| |intros; apply Hinj; lia || done].
        intros j Hj Hpj. destruct (Ht j ltac:(lia) Hpj) as (T1 & T2 & T3 & T4).
        assert (tab j ≠ tab i) as Hji by (intros E; apply Hinj in E; [lia|lia|lia|done|done]).
        split_and!; [done|by rewrite Hsame|by apply not_elem_of_cons|done]. }
      exists s', (freed ++ [tab i]). rewrite <- app_assoc. split_and!; [done|done| | |].
      * intros q. rewrite elem_of_app, list_elem_of_singleton, Hmem. split.
        -- intros [(j & Hj & Hpj & ->)| ->]; [exists j|exists i]; (split; [lia|done]).
        -- intros (j & Hj & Hpj & ->). destruct (decide (j = i)) as [->|]; [by right|left; exists j; split; [lia|done]].
      * intros q Hq. rewrite not_elem_of_app, list_elem_of_singleton in Hq. destruct Hq. rewrite Hfr by done. by apply Hsame.
      * intros q [Hq|Hq]%elem_of_app; [by apply Hgo|]. apply list_elem_of_singleton in Hq as ->. destruct (decide (tab i ∈ freed)) as [?|Hn']; [by apply Hgo|].
        eexists. rewrite Hfr, Hpg, lookup_insert_eq by done. split; [done|apply ExVm.freed_good].
    + destruct (IH s fl (i + 1)) as (s' & freed & Hrun & Hf' & Hmem & Hfr & Hgo); [lia|lia| |].
      { split; [done|done|intros; apply Ht; lia || done|intros; apply Hinj; lia || done]. }
      exists s', freed. split_and!; [done|done| |done|done]. intros q. rewrite Hmem. split; intros (j & Hj & Hpj & ->); exists j; (split; [|done]); [lia|].
      assert (j ≠ i) by (intros ->; by rewrite Hp in Hpj). lia.
Qed.
End tables.

(** The pages of an address space: its frames, its tables and its directory. *)
Definition space_page (s : kmem) (pgdir q : Z) : Prop :=
  owns (pages s) pgdir q ∨ ∃ va, user_at (pages s) pgdir va ∧ q = frame (pages s) pgdir va.

Lemma freevm_run s fl pgdir : space s fl pgdir →
  ∃ s' freed, freevm kend pgdir s = Ok (tt, s') ∧ free_repr kend s' (freed ++ fl) ∧
    (∀ q, q ∈ freed ↔ space_page s pgdir q) ∧ (∀ q, q ∉ freed → pages s' !! q = pages s !! q) ∧
    (∀ q, q ∈ freed ++ fl → good_at (pages s') q).
Proof using All.
  intros H. unfold freevm. pose proof (page_ok_range kend pgdir (as_dir _ _ _ H)) as Hnz. rewrite bool_decide_eq_false_2 by lia.
  destruct (deallocuvm_run s fl pgdir KERNBASE 0 H) as (s1 & f1 & Hr1 & S1); [lia|unfold KERNBASE; lia|].
  change (PGSIZE * ((0 + PGSIZE - 1) / PGSIZE)) with 0 in S1. change (Z.max 0 _) with KERNBASE in S1. mstep Hr1.
  pose proof (as_pt _ _ _ (sh_space _ _ _ _ _ _ _ S1)) as W1. destruct (pt_dir _ _ _ _ W1) as [(b & Hb & Hg) Hdn].
  assert (∀ i, pde_at (pages s1) pgdir i = word b i) as Hpde by (intros i; unfold pde_at; by rewrite (page_at_Some _ _ _ Hb)).
  destruct (free_tables_run pgdir b Hg (Z.to_nat NPDENTRIES) s1 (f1 ++ fl) 0) as (s2 & f2 & Hr2 & Hf2 & Hm2 & Hfr2 & Hgo2); [lia|done| |].
  { split; [apply W1|done| |].
    - intros j Hj Hp. rewrite <- Hpde in *. destruct (pt_tab _ _ _ _ W1 j Hj Hp) as ((bt & Hbt & _) & T2 & T3).
      split_and!; [by apply (as_tab _ _ _ (sh_space _ _ _ _ _ _ _ S1))|by exists bt|done|done].
    - intros j j' Hj Hj' Hp Hp' E. apply (pt_inj _ _ _ _ W1); [done|done|by rewrite Hpde|by rewrite Hpde|]. unfold table_of. by rewrite !Hpde. }
  mstep Hr2.
  assert (pgdir ∉ f2) as Hd2.
  { intros (j & Hj & Hp & E)%Hm2. rewrite <- Hpde in *. destruct (pt_tab _ _ _ _ W1 j Hj Hp) as (_ & _ & T3). done. }
  destruct (kfree_repr kend pgdir s2 (f2 ++ f1 ++ fl) b Hf2 (as_dir _ _ _ H)) as (s3 & Hk & Hf3 & _ & Hpg3).
  { by rewrite Hfr2. }
  { rewrite not_elem_of_app. by split. }
  exists s3, (pgdir :: f2 ++ f1). split_and!; [done|by rewrite <- app_comm_cons, <- app_assoc| | |].
  - intros q. rewrite elem_of_cons, elem_of_app, Hm2, (sh_freed _ _ _ _ _ _ _ S1). unfold space_page. split.
    + intros [->|[(j & Hj & Hp & ->)|(va & Hva & Hu & ->)]]; [left; by left| |right; by exists va].
      left. right. exists j. rewrite <- Hpde in *. rewrite (sh_pde _ _ _ _ _ _ _ S1) in * by done. done.
    + intros [[->|(j & Hj & Hp & ->)]|(va & Hu & ->)]; [by left| |right; right; exists va; split; [apply Hu|done]].
      right. left. exists j. rewrite <- Hpde. rewrite (sh_pde _ _ _ _ _ _ _ S1) by done. done.
  - intros q Hq. rewrite not_elem_of_cons, not_elem_of_app in Hq. destruct Hq as (Hqd & Hq2 & Hq1).
    rewrite Hpg3, lookup_insert_ne by (by apply not_eq_sym). rewrite Hfr2 by done.
    apply (sh_frame _ _ _ _ _ _ _ S1); [|done]. intros [?|(j & Hj & Hp & E)]; [done|]. apply Hq2, Hm2. exists j.
    unfold table_of in E. rewrite <- (sh_pde _ _ _ _ _ _ _ S1) in Hp, E by done. rewrite Hpde in *. done.
  - intros q Hq. destruct (decide (q = pgdir)) as [->|Hqd].
    { eexists. rewrite Hpg3, lookup_insert_eq. split; [done|apply ExVm.freed_good]. }
    unfold good_at. rewrite Hpg3, lookup_insert_ne by (by apply not_eq_sym). destruct (decide (q ∈ f2)) as [?|Hn2]; [by apply Hgo2|]. rewrite Hfr2 by done.
    apply (pt_fl _ _ _ _ W1). rewrite elem_of_app, elem_of_cons, elem_of_app in Hq. rewrite elem_of_app. tauto.
Qed.

(** ** Accounting *)

(** The free pages and the pages of the address space are the same together;
    every other page is left alone. *)
Record moved (s : kmem) (fl : list Z) (pgdir : Z) (s' : kmem) (fl' : list Z) : Prop := {
  mv_all : ∀ q, (q ∈ fl' ∨ space_page s' pgdir q) ↔ (q ∈ fl ∨ space_page s pgdir q);
  mv_frame : ∀ q, q ∉ fl → ¬ space_page s pgdir q → pages s' !! q = pages s !! q }.
Lemma moved_refl s fl pgdir : moved s fl pgdir s fl.
Proof. by split. Qed.
Lemma moved_trans s fl pgdir s1 fl1 s2 fl2 : moved s fl pgdir s1 fl1 → moved s1 fl1 pgdir s2 fl2 → moved s fl pgdir s2 fl2.
Proof.
  intros [A1 A2] [B1 B2]. split.
  - intros q. by rewrite B1, A1.
  - intros q Hq Hs. assert (¬ (q ∈ fl1 ∨ space_page s1 pgdir q)) as Hn by (rewrite A1; tauto). rewrite B2 by tauto. by apply A2.
Qed.

Lemma space_page_frame s fl pgdir q : space s fl pgdir → space_page s pgdir q → page_ok kend q ∧ good_at (pages s) q ∧ (q ∉ fl).
Proof.
  intros H [[->|(i & Hi & Hp & ->)]|(va & Hu & ->)].
  - split_and!; [apply H|apply (pt_dir _ _ _ _ (as_pt _ _ _ H))..].
  - split_and!; [by apply (as_tab _ _ _ H)|apply (pt_tab _ _ _ _ (as_pt _ _ _ H) i Hi Hp)..].
  - destruct (as_user _ _ _ H va Hu) as (? & ? & ? & _). done.
Qed.

(** Writing a page that is neither free nor a table. *)
Lemma space_set s fl pgdir a b : space s fl pgdir → page_good b → a ∉ fl → ¬ owns (pages s) pgdir a →
  space (set_page a b s) fl pgdir ∧ (∀ va, 0 ≤ va → pte_at (pages (set_page a b s)) pgdir va = pte_at (pages s) pgdir va) ∧
  (∀ q, owns (pages (set_page a b s)) pgdir q ↔ owns (pages s) pgdir q).
Proof.
  intros H Hb Ha Ho. destruct (pt_set_foreign kend s fl pgdir a b (as_pt _ _ _ H) Hb Ha Ho) as [Hwf Hpte].
  assert (a ≠ pgdir) as Hd by (intros ->; apply Ho; by left).
  assert (∀ i, pde_at (pages (set_page a b s)) pgdir i = pde_at (pages s) pgdir i) as Hpde by (intros i; by apply pde_at_ne).
  assert (∀ q, owns (pages (set_page a b s)) pgdir q ↔ owns (pages s) pgdir q) as Hown by (intros q; by apply owns_ext).
  assert (∀ va, user_at (pages (set_page a b s)) pgdir va → user_at (pages s) pgdir va ∧ frame (pages (set_page a b s)) pgdir va = frame (pages s) pgdir va) as Hus.
  { intros va [Hr Hp]. unfold user_at, frame. cbn [pages set_page] in *. rewrite Hpte in * by lia. done. }
  split_and!; [split| |]; try done.
  - apply H.
  - intros i Hi. unfold table_of. rewrite Hpde. by apply (as_tab _ _ _ H).
  - intros va Hu. destruct (Hus va Hu) as [Hu1 ->]. destruct (as_user _ _ _ H va Hu1) as (U1 & U2 & U3 & U4).
    split_and!; [done|by apply good_insert|done|by rewrite Hown].
  - intros va va' Hu Hu'. destruct (Hus va Hu) as [? ->]. destruct (Hus va' Hu') as [? ->]. by apply (as_inj _ _ _ H).
Qed.
Lemma space_page_set s fl pgdir a b : space s fl pgdir → page_good b → a ∉ fl → ¬ owns (pages s) pgdir a →
  ∀ q, space_page (set_page a b s) pgdir q ↔ space_page s pgdir q.
Proof.
  intros H Hb Ha Ho q. destruct (space_set s fl pgdir a b H Hb Ha Ho) as (_ & Hpte & Hown). unfold space_page. rewrite Hown.
  assert (∀ va, (user_at (pages (set_page a b s)) pgdir va ∧ q = frame (pages (set_page a b s)) pgdir va) ↔ (user_at (pages s) pgdir va ∧ q = frame (pages s) pgdir va)) as E.
  { intros va. unfold user_at, frame. destruct (decide (0 ≤ va)); [by rewrite Hpte|]. split; lia. }
  split; (intros [?|(va & Hv)]; [by left|right; exists va; by apply E]).
Qed.

(** Taking a page from the free list, and returning one. *)
Lemma space_kalloc s p fl pgdir : space s (p :: fl) pgdir → ∃ s1, kalloc s = Ok (p, s1) ∧ space s1 fl pgdir ∧ pages s1 = pages s ∧ p ≠ 0 ∧
  page_ok kend p ∧ (p ∉ fl) ∧ ¬ space_page s pgdir p ∧ good_at (pages s) p.
Proof.
  intros H. destruct (pt_kalloc kend s p fl pgdir (as_pt _ _ _ H)) as (s1 & Hk & Hwf & Hpg & Hnz & Hok & Hn & Ho & Hg).
  exists s1. split_and!; try done.
  - split; rewrite ?Hpg; try (by apply H); [done|]. intros va Hu. destruct (as_user _ _ _ H va Hu) as (U1 & U2 & U3 & U4).
    rewrite not_elem_of_cons in U3. by destruct U3.
  - intros Hs. destruct (space_page_frame s (p :: fl) pgdir p H Hs) as (_ & _ & Hc). apply Hc. by left.
Qed.
Lemma space_kfree s fl pgdir v : space s fl pgdir → page_ok kend v → good_at (pages s) v → v ∉ fl → ¬ space_page s pgdir v →
  ∃ s1, kfree kend v s = Ok (tt, s1) ∧ space s1 (v :: fl) pgdir ∧
    (∀ va, 0 ≤ va → pte_at (pages s1) pgdir va = pte_at (pages s) pgdir va) ∧ (∀ q, space_page s1 pgdir q ↔ space_page s pgdir q) ∧
    (∀ q, q ≠ v → pages s1 !! q = pages s !! q).
Proof using All.
  intros H Hok Hg Hn Hs. assert (¬ owns (pages s) pgdir v) as Ho by (intros ?; apply Hs; by left).
  destruct (free_good s fl pgdir v H Hok Hg Hn Ho) as (s1 & Hk & Hwf & Hpte & Hpg). pose proof (ExVm.freed_good (freelist s)) as Hgf.
  destruct (space_set s fl pgdir v _ H Hgf Hn Ho) as (Hsp & _ & _). pose proof (space_page_set s fl pgdir v _ H Hgf Hn Ho) as Hsame.
  exists s1. split_and!; [done| |done| |].
  - destruct Hsp as [_ S2 S3 S4 S5]. cbn [pages set_page] in S3, S4, S5. rewrite <- Hpg in *. split; try done. intros va Hu.
    destruct (S4 va Hu) as (U1 & U2 & U3 & U4). split_and!; [done|done| |done]. apply not_elem_of_cons. split; [|done]. intros E. apply Hs.
    right. exists va. unfold user_at, frame in *. rewrite Hpte in * by lia. by split.
  - intros q. rewrite <- Hsame. unfold space_page. by rewrite Hpg.
  - intros q Hq. by rewrite Hpg, lookup_insert_ne by (by apply not_eq_sym).
Qed.

Lemma shrunk_moved s fl pgdir lo hi s' freed : 0 ≤ lo → hi ≤ KERNBASE → shrunk s fl pgdir lo hi s' freed → moved s fl pgdir s' (freed ++ fl).
Proof.
  intros Hlo Hhi [A1 A2 A3 A4 A5 A6]. assert (∀ q, owns (pages s') pgdir q ↔ owns (pages s) pgdir q) as Hown by (intros q; by apply owns_ext).
  split.
  - intros q. rewrite elem_of_app, A5. unfold space_page. rewrite Hown. split.
    + intros [[(va & _ & Hu & ->)|?]|[?|(va & Hu & ->)]]; [right; right; by exists va|by left|right; by left|]. right. right.
      destruct Hu as [Hr Hp]. destruct (decide (lo ≤ va < hi)) as [Hin|Hout]; [by rewrite A2 in Hp|]. exists va. unfold user_at, frame.
      rewrite A3 in * by (unfold KERNBASE in *; lia). done.
    + intros [?|[?|(va & Hu & ->)]]; [by left; right|right; by left|].
      destruct (decide (lo ≤ va < hi)) as [Hin|Hout]; [left; left; by exists va|]. right. right. exists va. destruct Hu as [Hr Hp]. unfold user_at, frame.
      rewrite A3 by (unfold KERNBASE in *; lia). done.
  - intros q Hq Hs. apply A6; [intros ?; apply Hs; by left|]. rewrite A5. intros (va & _ & Hu & ->). apply Hs. right. by exists va.
Qed.

Section grown.
Context (s : kmem) (fl : list Z) (pgdir a n : Z) (s' : kmem) (fl' : list Z).
Context (H : space s fl pgdir) (Ha : 0 ≤ a) (Hal : a `mod` PGSIZE = 0) (Hn : 0 ≤ n) (Hk : a + PGSIZE * n ≤ KERNBASE).
Context (Hun : ∀ va, a ≤ va < a + PGSIZE * n → mapped (pages s) pgdir va = None) (G : grown kend s fl pgdir a n s' fl').

Lemma grown_sub q : q ∈ fl' → q ∈ fl.
Proof using G. clear -G. destruct (gr_fl _ _ _ _ _ _ _ _ G) as [u ->]. intros ?. apply elem_of_app. by right. Qed.
Lemma grown_old va : 0 ≤ va < KERNBASE → ¬ (a ≤ va < a + PGSIZE * n) → pte_at (pages s') pgdir va = pte_at (pages s) pgdir va.
Proof using G. clear -G. intros Hv Ho. apply (gr_old _ _ _ _ _ _ _ _ G); unfold KERNBASE in *; lia. Qed.
(** The pages of the range and their frames. *)
Lemma grown_range : ∃ mems, NoDup mems ∧ (∀ q, owns (pages s) pgdir q ∨ q ∈ fl → owns (pages s') pgdir q ∨ q ∈ fl' ∨ q ∈ mems) ∧
  (∀ va, a ≤ va < a + PGSIZE * n → ∃ i, mems !! i = Some (frame (pages s') pgdir va) ∧ page_of va = page_of a + Z.of_nat i) ∧
  (∀ i mem, mems !! i = Some mem → a ≤ a + PGSIZE * Z.of_nat i < a + PGSIZE * n) ∧
  (∀ va, a ≤ va < a + PGSIZE * n → let f := frame (pages s') pgdir va in
     present (pte_at (pages s') pgdir va) = true ∧ pages s' !! f = Some (replicate 4096 0) ∧ f ∈ fl ∧ (f ∉ fl') ∧ ¬ owns (pages s') pgdir f).
Proof using All.
  destruct (gr_new _ _ _ _ _ _ _ _ G) as (mems & N & Len & M & K). exists mems.
  assert (∀ va, a ≤ va < a + PGSIZE * n → ∃ i mem, mems !! i = Some mem ∧ page_of va = page_of a + Z.of_nat i) as Hidx.
  { intros va Hva. exists (Z.to_nat (page_of va - page_of a)). destruct (lookup_lt_is_Some_2 mems (Z.to_nat (page_of va - page_of a))) as [mem Hm].
    - clear -Hva Len Hal. unfold page_of, PGSIZE in *. dlia.
    - exists mem. split; [done|]. clear -Hva Hal. unfold page_of, PGSIZE in *. dlia. }
  assert (∀ va i mem, mems !! i = Some mem → page_of va = page_of a + Z.of_nat i → present (pte_at (pages s') pgdir va) = true ∧ frame (pages s') pgdir va = mem) as Hfr.
  { intros va i mem Hi Hp. destruct (M i mem Hi va Hp) as (E & _ & Hin & _). unfold frame. rewrite E.
    pose proof (fr_ok _ _ _ (pt_free _ _ _ _ (as_pt _ _ _ H))) as Hok. rewrite Forall_forall in Hok.
    destruct (pde_for_val kend mem (Hok _ Hin)) as (Ev & _ & Hpr & Hb). rewrite <- Ev. done. }
  split_and!; [done|done| | |].
  - intros va Hva. destruct (Hidx va Hva) as (i & mem & Hi & Hp). exists i. destruct (Hfr va i mem Hi Hp) as [_ ->]. done.
  - intros i mem Hi. apply lookup_lt_Some in Hi. clear -Hi Len Hn. unfold PGSIZE. lia.
  - intros va Hva. destruct (Hidx va Hva) as (i & mem & Hi & Hp). destruct (Hfr va i mem Hi Hp) as [Hpr Hf]. cbv zeta. rewrite Hf.
    destruct (M i mem Hi va Hp) as (_ & M2 & M3 & M4 & M5). done.
Qed.

Lemma grown_space : space s' fl' pgdir.
Proof using All.
  destruct grown_range as (mems & N & _ & Hidx & _ & M). pose proof (fr_ok _ _ _ (pt_free _ _ _ _ (as_pt _ _ _ H))) as Hok. rewrite Forall_forall in Hok.
  assert (∀ va, user_at (pages s') pgdir va → ¬ (a ≤ va < a + PGSIZE * n) → user_at (pages s) pgdir va ∧ frame (pages s') pgdir va = frame (pages s) pgdir va) as Hout.
  { intros va [Hr Hp] Ho. unfold user_at, frame. rewrite grown_old in * by done. done. }
  split.
  - apply G.
  - apply H.
  - intros i Hi Hp. assert (owns (pages s') pgdir (table_of (pages s') pgdir i)) as Ho by (right; by exists i).
    destruct (gr_owns _ _ _ _ _ _ _ _ G _ Ho) as [Ho'|?]; [|by apply Hok].
    apply (space_page_frame s fl pgdir); [done|by left].
  - intros va Hu. destruct (decide (a ≤ va < a + PGSIZE * n)) as [Hin|Ho].
    + destruct (M va Hin) as (_ & M2 & M3 & M4 & M5). split_and!; [by apply Hok| |done|done]. eexists. split; [exact M2|apply zero_page_good].
    + destruct (Hout va Hu Ho) as [Hu1 ->]. destruct (as_user _ _ _ H va Hu1) as (U1 & (b & U2 & U2') & U3 & U4). split_and!; [done| | |].
      * exists b. by rewrite (gr_frame _ _ _ _ _ _ _ _ G).
      * by intros ?%grown_sub.
      * by intros [?|?]%(gr_owns _ _ _ _ _ _ _ _ G).
  - assert (∀ v v', user_at (pages s') pgdir v → user_at (pages s') pgdir v' → a ≤ v < a + PGSIZE * n → ¬ (a ≤ v' < a + PGSIZE * n) → frame (pages s') pgdir v ≠ frame (pages s') pgdir v') as Hmix.
    { intros v v' Hv Hv' Hi Ho E. destruct (M v Hi) as (_ & _ & M3 & _). destruct (Hout v' Hv' Ho) as [Hu1 E1]. rewrite E, E1 in M3. destruct (as_user _ _ _ H v' Hu1) as (_ & _ & U3 & _). done. }
    intros v v' Hv Hv' E. destruct (decide (a ≤ v < a + PGSIZE * n)) as [Hi|Ho], (decide (a ≤ v' < a + PGSIZE * n)) as [Hi'|Ho'].
    + destruct (Hidx v Hi) as (i & Hm & ->). destruct (Hidx v' Hi') as (j & Hm' & ->). rewrite E in Hm. by rewrite (NoDup_lookup _ _ _ _ N Hm Hm').
    + by destruct (Hmix v v').
    + by destruct (Hmix v' v).
    + destruct (Hout v Hv Ho) as [? E1]. destruct (Hout v' Hv' Ho') as [? E2]. rewrite E1, E2 in E. by apply (as_inj _ _ _ H).
Qed.

Lemma grown_moved : moved s fl pgdir s' fl'.
Proof using All.
  destruct grown_range as (mems & N & K & Hidx & Hin & M). split.
  - intros q. split.
    + intros [?%grown_sub|[Ho|(va & [Hr Hp] & ->)]]; [by left| |].
      * destruct (gr_owns _ _ _ _ _ _ _ _ G _ Ho); [right; by left|by left].
      * destruct (decide (a ≤ va < a + PGSIZE * n)) as [Hi|Ho]; [left; by apply M|]. right. right. exists va. unfold user_at, frame.
        rewrite grown_old in * by done. done.
    + intros Hq. assert ((owns (pages s) pgdir q ∨ q ∈ fl) ∨ ∃ va, user_at (pages s) pgdir va ∧ q = frame (pages s) pgdir va) as [Hq'|(va & [Hr Hp] & ->)] by (unfold space_page in Hq; tauto).
      * destruct (K q Hq') as [?|[?|[i Hi]%list_elem_of_lookup]]; [right; by left|by left|]. right. right. pose proof (Hin i q Hi) as Hrange.
        exists (a + PGSIZE * Z.of_nat i). destruct (Hidx _ Hrange) as (j & Hj & Hpj). destruct (M _ Hrange) as (Hpr & _).
        split; [split; [lia|done]|]. assert (i = j) as -> by (clear -Hpj Hal; unfold page_of, PGSIZE in *; dlia). congruence.
      * right. right. exists va. unfold user_at, frame. rewrite grown_old; [done|done|]. intros Hv. specialize (Hun va Hv). unfold mapped in Hun. by rewrite Hp in Hun.
  - intros q Hq Hs. apply (gr_frame _ _ _ _ _ _ _ _ G); [|done]. intros ?. apply Hs. by left.
Qed.
End grown.

(** A directory owns at most itself and 1024 tables. *)
Definition owned (pg : gmap Z (list Z)) (d : Z) : list Z := d :: map (table_of pg d) (seqZ 0 1024).
Lemma owned_all pg d q : owns pg d q → q ∈ owned pg d.
Proof.
  intros [->|(i & Hi & _ & ->)]; [by left|right]. apply list_elem_of_fmap. exists i. split; [done|]. apply elem_of_seqZ. lia.
Qed.
Lemma length_owned pg d : length (owned pg d) = 1025%nat.
Proof. unfold owned. cbn [length]. by rewrite length_map, length_seqZ. Qed.
Lemma grown_spent s fl pgdir a n s' fl' : 0 ≤ n → grown kend s fl pgdir a n s' fl' → NoDup fl → Z.of_nat (length fl) ≤ 1025 + Z.of_nat (length fl') + n.
Proof.
  intros Hn G Hnd. destruct (gr_new _ _ _ _ _ _ _ _ G) as (mems & _ & Len & _ & K).
  assert (length fl ≤ length (owned (pages s') pgdir ++ fl' ++ mems))%nat as Hl.
  { apply submseteq_length, NoDup_submseteq; [done|]. intros q Hq. rewrite !elem_of_app.
    destruct (K q ltac:(by right)) as [?%owned_all|[?|?]]; tauto. }
  rewrite !length_app, length_owned in Hl. lia.
Qed.

(** ** allocuvm, whether or not there is memory *)

(** The allocation was undone: nothing is mapped that was not, nothing is lost
    (page tables may have been added). *)
Record undone (s : kmem) (fl : list Z) (pgdir : Z) (s' : kmem) (fl' : list Z) : Prop := {
  ud_space : space s' fl' pgdir;
  ud_moved : moved s fl pgdir s' fl';
  ud_mapped : ∀ va, 0 ≤ va < 2^32 → mapped (pages s') pgdir va = mapped (pages s) pgdir va }.

Section alloc.
Context (s0 : kmem) (fl0 : list Z) (pgdir oldsz newsz : Z).
Let a0 : Z := PGSIZE * ((oldsz + PGSIZE - 1) / PGSIZE).
Let n : Z := Z.max 0 ((newsz - a0 + PGSIZE - 1) / PGSIZE).
Context (H0 : space s0 fl0 pgdir) (Hold : 0 ≤ oldsz ≤ newsz) (Hnew : newsz < KERNBASE).
Context (Hun : ∀ va, a0 ≤ va < a0 + PGSIZE * n → mapped (pages s0) pgdir va = None).

Lemma alloc_bounds : oldsz ≤ a0 ∧ a0 `mod` PGSIZE = 0 ∧ 0 ≤ n ∧ a0 + PGSIZE * n ≤ KERNBASE ∧
  (0 < n → oldsz < newsz ∧ Z.max a0 (PGSIZE * ((newsz + PGSIZE - 1) / PGSIZE)) = a0 + PGSIZE * n) ∧
  (∀ k, 0 ≤ k < n → a0 + PGSIZE * k < newsz) ∧ newsz ≤ a0 + PGSIZE * n.
Proof using Hold Hnew.
  clear -Hold Hnew. unfold n. assert (oldsz ≤ a0 < oldsz + PGSIZE ∧ a0 `mod` PGSIZE = 0) as [Ha Hm] by (unfold a0, PGSIZE; dlia).
  revert Ha Hm. generalize a0. intros a Ha Hm. unfold KERNBASE, PGSIZE in *. split_and!; try lia; dlia.
Qed.

(** The first [k] pages are taken back. *)
Lemma give_back k s fl s2 fl2 : 0 ≤ k < n → grown kend s0 fl0 pgdir a0 k s fl → space s2 fl2 pgdir →
  (∀ va, 0 ≤ va → pte_at (pages s2) pgdir va = pte_at (pages s) pgdir va) →
  ∃ s3 freed, deallocuvm kend pgdir newsz oldsz s2 = Ok (oldsz, s3) ∧ space s3 (freed ++ fl2) pgdir ∧ moved s2 fl2 pgdir s3 (freed ++ fl2) ∧
    ∀ va, 0 ≤ va < 2^32 → mapped (pages s3) pgdir va = mapped (pages s0) pgdir va.
Proof using All.
  intros Hk G H2 Hpte. destruct alloc_bounds as (B1 & B2 & B3 & B4 & B5 & B6 & B7). destruct (B5 ltac:(lia)) as [B8 B9].
  destruct (deallocuvm_run s2 fl2 pgdir newsz oldsz H2) as (s3 & freed & Hrun & S); [lia|lia|]. fold a0 in S. rewrite B9 in S.
  exists s3, freed. split_and!; [done|apply S|by eapply shrunk_moved; [| |exact S]; lia|]. intros va Hva. unfold mapped.
  destruct (decide (a0 ≤ va < a0 + PGSIZE * n)) as [Hin|Hout].
  - rewrite (sh_in _ _ _ _ _ _ _ S) by done. specialize (Hun va Hin). unfold mapped in Hun. by destruct (present (pte_at (pages s0) pgdir va)).
  - rewrite (sh_out _ _ _ _ _ _ _ S) by lia. rewrite Hpte by lia. rewrite (gr_old _ _ _ _ _ _ _ _ G); [done|done|]. unfold PGSIZE in *. lia.
Qed.

Lemma grown_part k s fl : 0 ≤ k ≤ n → grown kend s0 fl0 pgdir a0 k s fl → space s fl pgdir ∧ moved s0 fl0 pgdir s fl.
Proof using All.
  intros Hk G. destruct alloc_bounds as (B1 & B2 & B3 & B4 & _). assert (a0 + PGSIZE * k ≤ KERNBASE) as Hkk by (unfold PGSIZE in *; lia).
  assert (∀ va, a0 ≤ va < a0 + PGSIZE * k → mapped (pages s0) pgdir va = None) as Hun' by (intros va Hva; apply Hun; unfold PGSIZE in *; lia).
  split; [eapply grown_space|eapply grown_moved]; try exact G; try done; lia.
Qed.

(** The page that was taken last cannot be mapped. *)
Lemma no_table k s mem : 0 ≤ k < n → grown kend s0 fl0 pgdir a0 k s [mem] →
  ∀ s1 s2, kalloc s = Ok (mem, s1) → put_page mem (replicate 4096 0) s1 = Ok (tt, s2) →
  ∃ s3 s4 fl', deallocuvm kend pgdir newsz oldsz s2 = Ok (oldsz, s3) ∧ kfree kend mem s3 = Ok (tt, s4) ∧ undone s0 fl0 pgdir s4 fl'.
Proof using All.
  intros Hk G s1 s2 Hr1 Hr2. destruct (grown_part k s [mem] ltac:(lia) G) as [H M].
  destruct (space_kalloc s mem [] pgdir H) as (s1' & Hr1' & H1 & Hpg1 & Hnz & Hok & _ & Hns & (bm & Hbm & _)).
  rewrite Hr1 in Hr1'. injection Hr1' as <-. assert (s2 = set_page mem (replicate 4096 0) s1) as ->.
  { rewrite (put_page_run s1 mem _ bm) in Hr2 by (by rewrite Hpg1). by injection Hr2 as <-. }
  assert (¬ owns (pages s1) pgdir mem) as Ho by (rewrite Hpg1; intros ?; apply Hns; by left).
  destruct (space_set s1 [] pgdir mem _ H1 zero_page_good (not_elem_of_nil _) Ho) as (H2 & Hpte2 & _).
  pose proof (space_page_set s1 [] pgdir mem _ H1 zero_page_good (not_elem_of_nil _) Ho) as Hsp. set (s2 := set_page mem (replicate 4096 0) s1) in *.
  assert (∀ q, space_page s2 pgdir q ↔ space_page s pgdir q) as Hsp' by (intros q; rewrite Hsp; unfold space_page; by rewrite Hpg1).
  destruct (give_back k s [mem] s2 [] Hk G H2) as (s3 & freed & Hr3 & H3 & M3 & Hmap3); [intros va Hva; rewrite Hpte2 by done; by rewrite Hpg1|].
  rewrite app_nil_r in *. assert (¬ (mem ∈ freed ∨ space_page s3 pgdir mem)) as Hn3.
  { rewrite (mv_all _ _ _ _ _ M3), Hsp', elem_of_nil. tauto. }
  destruct (space_kfree s3 freed pgdir mem H3 Hok) as (s4 & Hr4 & H4 & Hpte4 & Hsp4 & Hfr4); [|tauto|tauto|].
  { exists (replicate 4096 0). split; [|apply zero_page_good]. rewrite (mv_frame _ _ _ _ _ M3) by (rewrite ?Hsp', ?elem_of_nil; tauto).
    cbn [s2 pages set_page]. apply lookup_insert_eq. }
  exists s3, s4, (mem :: freed). split_and!; [done|done|]. split; [done| |].
  - eapply moved_trans; [exact M|]. split.
    + intros q. pose proof (mv_all _ _ _ _ _ M3 q) as E. rewrite elem_of_nil in E. rewrite Hsp4, !elem_of_cons, elem_of_nil. rewrite Hsp' in E. tauto.
    + intros q Hq Hs. rewrite list_elem_of_singleton in Hq. rewrite Hfr4 by done. rewrite (mv_frame _ _ _ _ _ M3) by (rewrite ?Hsp', ?elem_of_nil; tauto).
      cbn [s2 pages set_page]. rewrite lookup_insert_ne by (by apply not_eq_sym). by rewrite Hpg1.
  - intros va Hva. unfold mapped. rewrite Hpte4 by lia. apply Hmap3. done.
Qed.

Lemma alloc_loop_total m fuel k s fl : 0 ≤ k → k + Z.of_nat m = n → (m < fuel)%nat → grown kend s0 fl0 pgdir a0 k s fl →
  (∃ s' fl', alloc_loop kend fuel pgdir (a0 + PGSIZE * k) oldsz newsz s = Ok (newsz, s') ∧ grown kend s0 fl0 pgdir a0 n s' fl') ∨
  (∃ s' fl', alloc_loop kend fuel pgdir (a0 + PGSIZE * k) oldsz newsz s = Ok (0, s') ∧ undone s0 fl0 pgdir s' fl' ∧ Z.of_nat (length fl0) ≤ 1025 + n).
Proof using All.
  revert fuel k s fl. destruct alloc_bounds as (B1 & B2 & B3 & B4 & B5 & B6 & B7).
  induction m as [|m IH]; intros [|fuel] k s fl Hk Hm Hf G; try lia; cbn [alloc_loop].
  - assert (k = n) as -> by lia. rewrite bool_decide_eq_false_2 by lia. left. by exists s, fl.
  - assert (0 ≤ k < n) as Hkn by lia. pose proof (B6 k Hkn) as Hlt. rewrite bool_decide_eq_true_2 by done.
    destruct (grown_part k s fl ltac:(lia) G) as [H M]. set (a := a0 + PGSIZE * k) in *.
    pose proof (grown_spent _ _ _ _ _ _ _ Hk G (fr_nodup _ _ _ (pt_free _ _ _ _ (as_pt _ _ _ H0)))) as Hspent.
    assert (0 ≤ a < 2^32 ∧ a `mod` PGSIZE = 0) as [Ha32 Hal] by (split; [unfold a, KERNBASE, PGSIZE in *; lia|clear -B2; unfold a, PGSIZE in *; dlia]).
    destruct fl as [|mem fl].
    + right. pose proof (kalloc_repr kend s [] (pt_free _ _ _ _ (as_pt _ _ _ H))) as Hr. simpl in Hr. mstep Hr. rewrite bool_decide_eq_true_2 by done.
      destruct (give_back k s [] s [] Hkn G H) as (s3 & freed & Hr3 & H3 & M3 & Hmap3); [done|]. mstep Hr3. exists s3, (freed ++ []). split; [done|].
      split; [|simpl in Hspent; lia]. split; [done|by eapply moved_trans|done].
    + destruct (grow_turn kend s mem fl pgdir a (as_pt _ _ _ H) Ha32 Hal) as (s1 & s2 & Hr1 & Hnz & Hr2 & Hmap).
      { unfold mapped. rewrite (gr_old _ _ _ _ _ _ _ _ G) by (unfold a, PGSIZE in *; lia). apply Hun. unfold a, PGSIZE in *. lia. }
      mstep Hr1. rewrite bool_decide_eq_false_2 by done. mstep Hr2. destruct Hmap as [(s3 & fl3 & Hr3 & G1 & _)|[-> Hr3]]; mstep Hr3.
      * rewrite bool_decide_eq_false_2 by lia. rewrite u32_small by (unfold a, KERNBASE, PGSIZE in *; lia).
        replace (a + PGSIZE) with (a0 + PGSIZE * (k + 1)) by (unfold a; lia). apply (IH fuel (k + 1) s3 fl3); [lia|lia|lia|].
        eapply grown_app; [lia|done|lia|lia| |exact G|exact G1]. unfold KERNBASE, PGSIZE in *. lia.
      * rewrite bool_decide_eq_true_2 by lia. right. destruct (no_table k s mem Hkn G s1 s2 Hr1 Hr2) as (s3 & s4 & fl' & Hr4 & Hr5 & U).
        mstep Hr4. mstep Hr5. exists s4, fl'. split_and!; [done|done|simpl in Hspent; lia].
Qed.

Lemma allocuvm_total :
  (∃ s' fl', allocuvm kend pgdir oldsz newsz s0 = Ok (newsz, s') ∧ grown kend s0 fl0 pgdir a0 n s' fl') ∨
  (∃ s' fl', allocuvm kend pgdir oldsz newsz s0 = Ok (0, s') ∧ undone s0 fl0 pgdir s' fl' ∧ Z.of_nat (length fl0) ≤ 1025 + n).
Proof using All.
  destruct alloc_bounds as (B1 & B2 & B3 & B4 & _). unfold allocuvm. rewrite !bool_decide_eq_false_2 by lia.
  rewrite PGROUNDUP_val by (unfold KERNBASE, PGSIZE in *; lia). fold a0.
  assert (Z.to_nat n < S (Z.to_nat ((newsz - oldsz) / PGSIZE + 1)))%nat as Hf by (clear -Hold Hnew; unfold n, a0, PGSIZE in *; dlia).
  pose proof (alloc_loop_total (Z.to_nat n) _ 0 s0 fl0 ltac:(lia) ltac:(lia) Hf (grown_nil kend s0 fl0 pgdir a0 (as_pt _ _ _ H0))) as R.
  by rewrite Z.mul_0_r, Z.add_0_r in R.
Qed.
End alloc.
End space.

(** C10: the life of an address space.  In a well-formed space, whose directory,
    page tables and user pages are pages of their own:
    [allocuvm] over an unmapped range gives every page of the range a zeroed page
    of its own, present, writable and user-accessible, and changes no other
    translation, or gives 0 with every translation as it was, which happens only
    if fewer pages are free than the range and the tables can need;
    [deallocuvm] unmaps exactly the range and frees exactly its pages;
    [freevm] frees every page of the space and touches no other.  No page is lost
    or held twice: after each the free pages and those of the space are the same
    pages as before, and the space is well formed. *)
Theorem address_space_lifecycle kend s fl pgdir : KERNBASE < kend → space kend s fl pgdir →
  (∀ oldsz newsz, 0 ≤ oldsz ≤ newsz → newsz < KERNBASE →
    let a := PGSIZE * ((oldsz + PGSIZE - 1) / PGSIZE) in let n := Z.max 0 ((newsz - a + PGSIZE - 1) / PGSIZE) in
    (∀ va, a ≤ va < a + PGSIZE * n → mapped (pages s) pgdir va = None) →
    ∃ r s' fl', allocuvm kend pgdir oldsz newsz s = Ok (r, s') ∧ space kend s' fl' pgdir ∧ moved s fl pgdir s' fl' ∧
      (r = newsz ∧ grown kend s fl pgdir a n s' fl' ∨
       r = 0 ∧ (∀ va, 0 ≤ va < 2^32 → mapped (pages s') pgdir va = mapped (pages s) pgdir va) ∧ Z.of_nat (length fl) ≤ 1025 + n)) ∧
  (∀ oldsz newsz, 0 ≤ newsz → newsz < oldsz ≤ KERNBASE →
    let lo := PGSIZE * ((newsz + PGSIZE - 1) / PGSIZE) in let hi := Z.max lo (PGSIZE * ((oldsz + PGSIZE - 1) / PGSIZE)) in
    ∃ s' freed, deallocuvm kend pgdir oldsz newsz s = Ok (newsz, s') ∧ shrunk kend s fl pgdir lo hi s' freed ∧ moved s fl pgdir s' (freed ++ fl)) ∧
  (∃ s' freed, freevm kend pgdir s = Ok (tt, s') ∧ free_repr kend s' (freed ++ fl) ∧
    (∀ q, q ∈ freed ↔ space_page s pgdir q) ∧ ∀ q, q ∉ freed → pages s' !! q = pages s !! q).
Proof.
  intros Hk H. split_and!.
  - intros oldsz newsz Ho Hn a n Hun. destruct (allocuvm_total kend Hk s fl pgdir oldsz newsz H Ho Hn Hun) as [(s' & fl' & Hr & G)|(s' & fl' & Hr & [U1 U2 U3] & Hl)].
    + assert (0 ≤ a ∧ a + PGSIZE * n ≤ KERNBASE) as [Ha Hb] by (clear -Ho Hn; unfold n, a, KERNBASE, PGSIZE in *; split; dlia).
      exists newsz, s', fl'. split_and!; [done| | |by left]; [eapply (grown_space kend Hk s fl pgdir a n)|eapply (grown_moved kend Hk s fl pgdir a n)]; try done; (try (unfold n, a, PGSIZE; dlia)).
    + exists 0, s', fl'. split_and!; [done..|]. by right.
  - intros oldsz newsz Hn Ho lo hi. destruct (deallocuvm_run kend Hk s fl pgdir oldsz newsz H Hn Ho) as (s' & freed & Hr & S). exists s', freed.
    split_and!; [done|done|]. eapply shrunk_moved; [| |exact S]; unfold lo, hi; clear -Hn Ho; unfold KERNBASE, PGSIZE in *; dlia.
  - destruct (freevm_run kend Hk s fl pgdir H) as (s' & freed & Hr & Hf & Hm & Hfr & _). by exists s', freed.
Qed.

Module ExSpace.
Lemma blank_dir : space (KERNBASE + 1) ExVm.s0 ExVm.fl ExVm.dir.
Proof.
  destruct ExVm.wf as [[F1 _ F3] W2 W3 W4 W5].
  assert (∀ va, ¬ user_at (pages ExVm.s0) ExVm.dir va) as Hno.
  { intros va [Hr Hp]. pose proof (ExVm.unmapped va ltac:(lia)) as Hm. unfold mapped in Hm. by rewrite Hp in Hm. }
  split.
  - split; [|done..]. split; [done| |done]. repeat constructor; by vm_compute.
  - by vm_compute.
  - intros i Hi. by rewrite ExVm.pde_zero.
  - intros va Hva. by destruct (Hno va).
  - intros va va' Hva. by destruct (Hno va).
Qed.
End ExSpace.

Lemma address_space_lifecycle_witness :
  (∃ s' fl', allocuvm (KERNBASE + 1) ExVm.dir 5000 9000 ExVm.s0 = Ok (0, s') ∨ allocuvm (KERNBASE + 1) ExVm.dir 5000 9000 ExVm.s0 = Ok (9000, s') ∧ grown (KERNBASE + 1) ExVm.s0 ExVm.fl ExVm.dir 8192 1 s' fl') ∧
  (∃ s', deallocuvm (KERNBASE + 1) ExVm.dir 9000 0 ExVm.s0 = Ok (0, s')) ∧
  ∃ s' (freed : list Z), freevm (KERNBASE + 1) ExVm.dir ExVm.s0 = Ok (tt, s') ∧ ExVm.dir ∈ freed.
Proof.
  destruct (address_space_lifecycle (KERNBASE + 1) ExVm.s0 ExVm.fl ExVm.dir eq_refl ExSpace.blank_dir) as (H1 & H2 & s' & freed & Hr & _ & Hm & _). split_and!.
  - destruct (H1 5000 9000) as (r & s1 & fl1 & Ha & _ & _ & [[-> G]|[-> _]]); [lia|by vm_compute| | |].
    + intros va Hva. apply ExVm.unmapped. change (PGSIZE * ((5000 + PGSIZE - 1) / PGSIZE)) with 8192 in Hva. lia.
    + exists s1, fl1. right. split; [exact Ha|exact G].
    + exists s1, fl1. left. exact Ha.
  - destruct (H2 9000 0) as (s1 & freed1 & Hd & _); [lia|unfold KERNBASE; lia|]. exists s1. exact Hd.
  - exists s', freed. split; [exact Hr|]. apply Hm. left. by left.
Defined.
