(* ===== verification/VmSetup.v ===== *)
(** * Making an address space in xv6

    [mappages] of a range of the kernel part and [setupkvm]: the new directory
    is an address space without user pages, or memory has run out and every page
    that was taken is free again. *)
From stdpp Require Import base numbers list gmap strings.
From S2P Require Import Prelude Bytes Kalloc Vm VmFacts VmClaims VmSpace.
#[local] Open Scope Z_scope.

Section setup.
Context (kend : Z) (Hkend : KERNBASE < kend).

(** Only translations from [lo] on changed; the tables came from the free list. *)
Record kmapped (s : kmem) (fl : list Z) (pgdir lo hi : Z) (s' : kmem) (fl' : list Z) : Prop := {
  km_wf : pt_wf kend s' fl' pgdir;
  km_fl : ∃ used, fl = used ++ fl';
  km_pte : ∀ va, 0 ≤ va < 2^32 → va < lo ∨ hi ≤ va → pte_at (pages s') pgdir va = pte_at (pages s) pgdir va;
  km_frame : ∀ q, ¬ owns (pages s) pgdir q → q ∉ fl → pages s' !! q = pages s !! q;
  km_owns : ∀ q, owns (pages s') pgdir q → owns (pages s) pgdir q ∨ q ∈ fl;
  km_kept : ∀ q, owns (pages s) pgdir q ∨ q ∈ fl → owns (pages s') pgdir q ∨ q ∈ fl' }.

Lemma kmapped_refl s fl pgdir lo hi : pt_wf kend s fl pgdir → kmapped s fl pgdir lo hi s fl.
Proof. intros H. split; try done; [by exists []|by left]. Qed.
Lemma kmapped_trans s fl pgdir lo hi s1 fl1 s2 fl2 : kmapped s fl pgdir lo hi s1 fl1 → kmapped s1 fl1 pgdir lo hi s2 fl2 → kmapped s fl pgdir lo hi s2 fl2.
Proof.
  intros [A1 [u1 A2] A3 A4 A5 A6] [B1 [u2 B2] B3 B4 B5 B6]. assert (∀ q, q ∈ fl1 → q ∈ fl) as Hsub by (intros q Hq; rewrite A2; apply elem_of_app; by right).
  split; [done|exists (u1 ++ u2); by rewrite A2, B2, app_assoc| | | |].
  - intros va Hva Ho. by rewrite B3, A3.
  - intros q Hq Hf. rewrite B4; [by apply A4| |by intros ?%Hsub]. by intros [?|?]%A5.
  - intros q [?%A5|?%Hsub]%B5; [done|by right].
  - intros q Hq. by apply B6, A6.
Qed.
Lemma kmapped_weaken s fl pgdir lo hi lo' hi' s' fl' : lo' ≤ lo → hi ≤ hi' → kmapped s fl pgdir lo hi s' fl' → kmapped s fl pgdir lo' hi' s' fl'.
Proof. intros Hl Hh [A1 A2 A3 A4 A5 A6]. split; try done. intros va Hva Ho. apply A3; [done|]. lia. Qed.
Lemma kmapped_one s fl pgdir va v s' fl' : va `mod` PGSIZE = 0 → map_result kend s fl pgdir va v s' fl' → kmapped s fl pgdir va (va + PGSIZE) s' fl'.
Proof.
  intros Hal [A1 A2 A3 A4 A5 A6]. split; try done.
  - destruct A2 as [->|[p ->]]; [by exists []|by exists [p]].
  - intros w Hw Ho. rewrite A3 by done. rewrite bool_decide_eq_false_2; [done|]. rewrite page_of_aligned_0 by done. lia.
Qed.

(** [m + 1] pages from [a] on. *)
Lemma mappages_loop_run m s fl pgdir a k perm : pt_wf kend s fl pgdir → 0 ≤ a → a `mod` PGSIZE = 0 → a + PGSIZE * (Z.of_nat m + 1) ≤ 2^32 →
  0 ≤ k → k + Z.of_nat m < 1048576 → 0 ≤ perm < 4096 → (∀ va, a ≤ va < a + PGSIZE * (Z.of_nat m + 1) → mapped (pages s) pgdir va = None) →
  ∃ r s' fl', mappages_loop (S m) pgdir a (a + PGSIZE * Z.of_nat m) (4096 * k) perm s = Ok (r, s') ∧ (r = 0 ∨ r = -1 ∧ fl' = []) ∧
    kmapped s fl pgdir a (a + PGSIZE * (Z.of_nat m + 1)) s' fl'.
Proof.
  revert s fl a k. induction m as [|m IH]; intros s fl a k Hwf Ha Hal Hhi Hk Hkm Hp Hun.
  all: destruct (map_step kend s fl pgdir a k perm Hwf ltac:(unfold PGSIZE in *; lia) ltac:(lia) Hp (Hun a ltac:(unfold PGSIZE; lia)))
    as [(s1 & fl1 & Hr & Hmr)|[-> Hr]]; rewrite Hr; [|exists (-1), s, []; split_and!; [done|by right|by apply kmapped_refl]].
  - rewrite bool_decide_eq_true_2 by lia. exists 0, s1, fl1. split_and!; [done|by left|]. eapply kmapped_weaken; [reflexivity| |by eapply kmapped_one]. lia.
  - rewrite bool_decide_eq_false_2 by (unfold PGSIZE; lia). rewrite (u32_small (a + PGSIZE)) by (unfold PGSIZE in *; lia).
    rewrite (u32_small (4096 * k + PGSIZE)) by (unfold PGSIZE in *; lia). pose proof (kmapped_one _ _ _ _ _ _ _ Hal Hmr) as K1.
    replace (4096 * k + PGSIZE) with (4096 * (k + 1)) by (unfold PGSIZE; lia).
    replace (a + PGSIZE * Z.of_nat (S m)) with (a + PGSIZE + PGSIZE * Z.of_nat m) by lia.
    destruct (IH s1 fl1 (a + PGSIZE) (k + 1)) as (r & s' & fl' & Hrun & Hr' & K2); [apply K1|unfold PGSIZE; lia| | |lia|lia|done| |].
    + clear -Hal. unfold PGSIZE in *. dlia.
    + lia.
    + intros va Hva. unfold mapped. rewrite (km_pte _ _ _ _ _ _ _ K1) by (unfold PGSIZE in *; lia). apply Hun. unfold PGSIZE in *. lia.
    + exists r, s', fl'. split_and!; [done|done|]. eapply kmapped_trans; eapply kmapped_weaken; [| |exact K1| | |exact K2]; unfold PGSIZE; lia.
Qed.

Lemma mappages_range s fl pgdir va m k perm : pt_wf kend s fl pgdir → 0 ≤ va → va `mod` PGSIZE = 0 → va + PGSIZE * (Z.of_nat m + 1) ≤ 2^32 →
  0 ≤ k → k + Z.of_nat m < 1048576 → 0 ≤ perm < 4096 → (∀ w, va ≤ w < va + PGSIZE * (Z.of_nat m + 1) → mapped (pages s) pgdir w = None) →
  ∃ r s' fl', mappages pgdir va (PGSIZE * (Z.of_nat m + 1)) (4096 * k) perm s = Ok (r, s') ∧ (r = 0 ∨ r = -1 ∧ fl' = []) ∧
    kmapped s fl pgdir va (va + PGSIZE * (Z.of_nat m + 1)) s' fl'.
Proof.
  intros Hwf Hva Hal Hhi Hk Hkm Hp Hun. unfold mappages.
  assert (PGROUNDDOWN va = va) as E1 by (rewrite PGROUNDDOWN_val by (unfold PGSIZE in *; lia); clear -Hal; unfold PGSIZE in *; dlia).
  assert (PGROUNDDOWN (u32 (va + PGSIZE * (Z.of_nat m + 1) - 1)) = va + PGSIZE * Z.of_nat m) as E2.
  { rewrite u32_small by (unfold PGSIZE in *; lia). rewrite PGROUNDDOWN_val by (unfold PGSIZE in *; lia). clear -Hal. unfold PGSIZE in *. dlia. }
  rewrite E1, E2. replace (Z.to_nat (u32 (va + PGSIZE * Z.of_nat m - va) / PGSIZE)) with m; [by apply mappages_loop_run|].
  replace (va + PGSIZE * Z.of_nat m - va) with (Z.of_nat m * PGSIZE) by lia. rewrite u32_small by (unfold PGSIZE in *; lia).
  rewrite Z.div_mul by (by unfold PGSIZE). lia.
Qed.

(** The kernel part does not touch the user part. *)
Lemma kmapped_space s fl pgdir hi s' fl' : space kend s fl pgdir → kmapped s fl pgdir KERNBASE hi s' fl' →
  space kend s' fl' pgdir ∧ moved s fl pgdir s' fl' ∧ (∀ va, user_at (pages s') pgdir va ↔ user_at (pages s) pgdir va).
Proof.
  intros H [A1 [u A2] A3 A4 A5 A6]. assert (∀ q, q ∈ fl' → q ∈ fl) as Hsub by (intros q Hq; rewrite A2; apply elem_of_app; by right).
  assert (∀ va, 0 ≤ va < KERNBASE → pte_at (pages s') pgdir va = pte_at (pages s) pgdir va) as Hpte by (intros va Hva; apply A3; unfold KERNBASE in *; lia).
  assert (∀ va, user_at (pages s') pgdir va ↔ user_at (pages s) pgdir va) as Hu.
  { intros va. unfold user_at. split; intros [Hr Hp]; rewrite Hpte in * by done; done. }
  assert (∀ va, user_at (pages s) pgdir va → frame (pages s') pgdir va = frame (pages s) pgdir va) as Hf by (intros va [Hr _]; unfold frame; by rewrite Hpte).
  pose proof (fr_ok _ _ _ (pt_free _ _ _ _ (as_pt _ _ _ _ H))) as Hok. rewrite Forall_forall in Hok. split_and!; [split| |done].
  - done.
  - apply H.
  - intros i Hi Hp. assert (owns (pages s') pgdir (table_of (pages s') pgdir i)) as Ho by (right; by exists i).
    destruct (A5 _ Ho) as [Ho'|?]; [|by apply Hok]. apply (space_page_frame kend s fl pgdir); [done|by left].
  - intros va Hv. apply Hu in Hv. rewrite Hf by done. destruct (as_user _ _ _ _ H va Hv) as (U1 & (b & U2 & U2') & U3 & U4).
    split_and!; [done|exists b; by rewrite A4|by intros ?%Hsub|by intros [?|?]%A5].
  - intros v v' Hv Hv'. apply Hu in Hv, Hv'. rewrite !Hf by done. by apply (as_inj _ _ _ _ H).
  - split.
    + intros q. unfold space_page. split.
      * intros [?%Hsub|[[?|?]%A5|(va & Hv & ->)]]; [by left|right; by left|by left|]. apply Hu in Hv. rewrite Hf by done. right. right. by exists va.
      * intros Hq. assert ((owns (pages s) pgdir q ∨ q ∈ fl) ∨ ∃ va, user_at (pages s) pgdir va ∧ q = frame (pages s) pgdir va) as [Hq'|(va & Hv & ->)] by tauto.
        -- destruct (A6 q Hq'); [right; by left|by left].
        -- right. right. exists va. rewrite Hf by done. split; [by apply Hu|done].
    + intros q Hq Hs. apply A4; [|done]. intros ?. apply Hs. by left.
Qed.

(** ** The kernel's ranges *)
Definition range_ok (e : kmap_entry) (m : nat) (k : Z) : Prop :=
  virt e `mod` PGSIZE = 0 ∧ u32 (phys_end e - phys_start e) = PGSIZE * (Z.of_nat m + 1) ∧ virt e + PGSIZE * (Z.of_nat m + 1) ≤ 2^32 ∧
  phys_start e = 4096 * k ∧ 0 ≤ k ∧ k + Z.of_nat m < 1048576 ∧ 0 ≤ kperm e < 4096.
(** Each range begins at or above [lo] and ends where the next may begin. *)
Fixpoint ranges_ok (lo : Z) (ks : list kmap_entry) : Prop :=
  match ks with
  | [] => True
  | e :: ks => lo ≤ virt e ∧ ∃ m k, range_ok e m k ∧ ranges_ok (virt e + PGSIZE * (Z.of_nat m + 1)) ks
  end.

Lemma ranges_cons lo e ks n k : lo ≤ virt e → virt e `mod` 4096 = 0 → 0 < n → u32 (phys_end e - phys_start e) = 4096 * n → virt e + 4096 * n ≤ 2^32 →
  phys_start e = 4096 * k → 0 ≤ k → k + n ≤ 1048576 → 0 ≤ kperm e < 4096 → ranges_ok (virt e + 4096 * n) ks → ranges_ok lo (e :: ks).
Proof.
  intros H1 H2 H3 H4 H5 H6 H7 H8 H9 H10. split; [done|]. exists (Z.to_nat (n - 1)), k. unfold range_ok, PGSIZE.
  rewrite Z2Nat.id by lia. replace (n - 1 + 1) with n by lia. split_and!; lia || done.
Qed.
Lemma kmap_ranges kdata : kdata `mod` PGSIZE = 0 → KERNLINK < kdata < KERNBASE + PHYSTOP → ranges_ok KERNBASE (kmap kdata).
Proof.
  intros Hal Hr. unfold kmap. change KERNLINK with 2148532224 in *. change (KERNBASE + PHYSTOP) with 2382364672 in Hr. change PGSIZE with 4096 in Hal.
  assert (V2P kdata = kdata - 2147483648) as E by (unfold V2P, KERNBASE; rewrite u32_small by lia; done).
  assert (∃ j, kdata = 2147483648 + 4096 * j) as [j ->] by (exists ((kdata - 2147483648) / 4096); dlia). rewrite E.
  apply (ranges_cons _ _ _ 256 0); cbn [virt phys_start phys_end kperm]; try done. change (KERNBASE + 4096 * 256) with 2148532224.
  change (V2P 2148532224) with 1048576.
  apply (ranges_cons _ _ _ (j - 256) 256); cbn [virt phys_start phys_end kperm]; try done; [lia|rewrite u32_small by lia; lia|lia|lia|].
  replace (2148532224 + 4096 * (j - 256)) with (2147483648 + 4096 * j) by lia. change PHYSTOP with 234881024.
  apply (ranges_cons _ _ _ (57344 - j) j); cbn [virt phys_start phys_end kperm]; try done; [lia|rewrite u32_small by lia; lia|lia|lia|lia|lia|].
  replace (2147483648 + 4096 * j + 4096 * (57344 - j)) with 2382364672 by lia.
  apply (ranges_cons _ _ _ 8192 1040384); cbn [virt phys_start phys_end kperm]; done.
Qed.

Lemma map_all_run ks s fl pgdir lo : space kend s fl pgdir → KERNBASE ≤ lo → ranges_ok lo ks →
  (∀ va, lo ≤ va < 2^32 → mapped (pages s) pgdir va = None) →
  ∃ s1 fl1, kmapped s fl pgdir KERNBASE (2^32) s1 fl1 ∧
    (map_all kend ks pgdir s = Ok (pgdir, s1) ∨ fl1 = [] ∧ ∃ s2, freevm kend pgdir s1 = Ok (tt, s2) ∧ map_all kend ks pgdir s = Ok (0, s2)).
Proof using All.
  revert s fl lo. induction ks as [|e ks IH]; intros s fl lo H Hlo Hks Hun; cbn [map_all].
  - exists s, fl. split; [apply kmapped_refl, H|by left].
  - destruct Hks as (Hle & m & k & (R1 & R2 & R3 & R4 & R5 & R6 & R7) & Hks). rewrite R2, R4.
    destruct (mappages_range s fl pgdir (virt e) m k (kperm e)) as (r & s1 & fl1 & Hr & Hres & K); try done; [apply H|unfold KERNBASE in *; lia|intros w Hw; apply Hun; lia|].
    assert (kmapped s fl pgdir KERNBASE (2^32) s1 fl1) as K' by (eapply kmapped_weaken; [| |exact K]; lia). mstep Hr.
    destruct (kmapped_space s fl pgdir _ s1 fl1 H K') as (H1 & _). destruct Hres as [->|[-> ->]].
    + rewrite bool_decide_eq_false_2 by lia. destruct (IH s1 fl1 (virt e + PGSIZE * (Z.of_nat m + 1)) H1) as (s2 & fl2 & K2 & Hrun); [|exact Hks| |].
      * unfold KERNBASE, PGSIZE in *. lia.
      * intros va Hva. unfold mapped. rewrite (km_pte _ _ _ _ _ _ _ K) by (unfold KERNBASE in *; unfold PGSIZE in *; lia). apply Hun. unfold PGSIZE in *. lia.
      * exists s2, fl2. split; [by eapply kmapped_trans|done].
    + rewrite bool_decide_eq_true_2 by lia. exists s1, []. split; [done|]. right. split; [done|].
      destruct (freevm_run kend Hkend s1 [] pgdir H1) as (s2 & freed & Hf & _). exists s2. split; [done|]. by mstep Hf.
Qed.

(** ** setupkvm *)

(** The free list and the pages on it. *)
Definition pool (s : kmem) (fl : list Z) : Prop := free_repr kend s fl ∧ ∀ p, p ∈ fl → good_at (pages s) p.
Lemma space_pool s fl pgdir : space kend s fl pgdir → pool s fl.
Proof. intros H. split; apply H. Qed.

(** A blank directory. *)
Lemma blank_space s p fl s1 : pool s (p :: fl) → kalloc s = Ok (p, s1) → 
  let s2 := set_page p (replicate 4096 0) s1 in
  put_page p (replicate 4096 0) s1 = Ok (tt, s2) ∧ space kend s2 fl p ∧ p ≠ 0 ∧ (∀ va, 0 ≤ va → pte_at (pages s2) p va = 0) ∧
  (∀ q, q ≠ p → pages s2 !! q = pages s !! q) ∧ (∀ q, space_page s2 p q ↔ q = p).
Proof.
  intros [Hf Hfl] Hk s2. destruct (kalloc_repr kend s (p :: fl) Hf) as (s1' & Hk' & Hf1 & Hpg & _). rewrite Hk in Hk'. injection Hk' as <-.
  pose proof Hf as [_ Hok Hnd]. apply Forall_cons in Hok as [Hpk _]. apply NoDup_cons in Hnd as [Hpn _]. pose proof (page_ok_range kend p Hpk).
  destruct (Hfl p ltac:(by left)) as (bp & Hbp & _).
  assert (∀ i, 0 ≤ i < 1024 → pde_at (pages s2) p i = 0) as Hz by (intros i Hi; unfold pde_at; cbn [s2 pages set_page]; rewrite page_at_eq; by apply word_zero).
  assert (∀ va, 0 ≤ va → pte_at (pages s2) p va = 0) as Hpte by (intros va Hva; unfold pte_at; by rewrite (Hz (PDX va)) by (by apply PDX_range)).
  assert (∀ va, ¬ user_at (pages s2) p va) as Hnu by (intros va [Hr Hp]; by rewrite Hpte in Hp by lia).
  split_and!; [|split|lia|done| |].
  - eapply put_page_run. by rewrite Hpg.
  - split; try (by intros i Hi; rewrite Hz by done).
    + by apply free_set_page.
    + intros q Hq. apply good_insert; [apply zero_page_good|]. rewrite Hpg. apply Hfl. by right.
    + split; [|done]. eexists. cbn [s2 pages set_page]. rewrite lookup_insert_eq. split; [done|apply zero_page_good].
    + intros i j Hi Hj. by rewrite Hz.
  - done.
  - intros i Hi. by rewrite Hz.
  - by intros va ?%Hnu.
  - by intros va va' ?%Hnu.
  - intros q Hq. cbn [s2 pages set_page]. by rewrite lookup_insert_ne, Hpg by (by apply not_eq_sym).
  - intros q. split; [|intros ->; left; by left]. intros [[?|(i & Hi & Hp & _)]|(va & ?%Hnu & _)]; [done|by rewrite Hz in Hp|done].
Qed.

Lemma setupkvm_run kdata s fl : kdata `mod` PGSIZE = 0 → KERNLINK < kdata < KERNBASE + PHYSTOP → pool s fl →
  ∃ d s' fl', setupkvm kend kdata s = Ok (d, s') ∧ (∀ q, q ∉ fl → pages s' !! q = pages s !! q) ∧ pool s' fl' ∧
    (d = 0 ∧ (∀ q, q ∈ fl' ↔ q ∈ fl) ∧ (length fl ≤ 1025)%nat ∨
     d ≠ 0 ∧ space kend s' fl' d ∧ (∀ va, ¬ user_at (pages s') d va) ∧ (∀ q, (q ∈ fl' ∨ space_page s' d q) ↔ q ∈ fl)).
Proof using All.
  intros Hal Hr Hp. unfold setupkvm. pose proof Hp as [Hf _]. destruct fl as [|p fl].
  { pose proof (kalloc_repr kend s [] Hf) as Hk. simpl in Hk. mstep Hk. rewrite bool_decide_eq_true_2 by done. exists 0, s, []. split_and!; try done. left. split_and!; [done|done|simpl; lia]. }
  destruct (kalloc_repr kend s (p :: fl) Hf) as (s1 & Hk & _). mstep Hk.
  destruct (blank_space s p fl s1 Hp Hk) as (Hput & H2 & Hnz & Hpte & Hsame & Hsp). rewrite bool_decide_eq_false_2 by done. mstep Hput.
  rewrite bool_decide_eq_false_2 by (by vm_compute). set (s2 := set_page p (replicate 4096 0) s1) in *.
  destruct (map_all_run (kmap kdata) s2 fl p KERNBASE H2 ltac:(lia) (kmap_ranges kdata Hal Hr)) as (s3 & fl3 & K & Hrun).
  { intros va Hva. unfold mapped. by rewrite Hpte by (unfold KERNBASE in *; lia). }
  destruct (kmapped_space s2 fl p _ s3 fl3 H2 K) as (H3 & M3 & Hu3).
  assert (∀ q, (q ∈ fl3 ∨ space_page s3 p q) ↔ q ∈ p :: fl) as Hall by (intros q; rewrite (mv_all _ _ _ _ _ M3), Hsp, elem_of_cons; tauto).
  assert (∀ q, q ∉ p :: fl → pages s3 !! q = pages s !! q) as Hfr3.
  { intros q Hq. rewrite not_elem_of_cons in Hq. destruct Hq as [Hqp Hq]. rewrite (mv_frame _ _ _ _ _ M3) by (rewrite ?Hsp; done). by apply Hsame. }
  destruct Hrun as [Hrun|(-> & s4 & Hfree & Hrun)].
  - exists p, s3, fl3. split_and!; [done|done|by eapply space_pool|]. right. split_and!; [done|done| |done].
    intros va Hu%Hu3. destruct Hu as [Hr' Hp']. by rewrite Hpte in Hp' by lia.
  - destruct (freevm_run kend Hkend s3 [] p H3) as (s4' & freed & Hfree' & Hf4 & Hm4 & Hfr4 & Hg4). rewrite Hfree in Hfree'. injection Hfree' as <-.
    exists 0, s4, (freed ++ []). split_and!; [done| |by split|].
    + intros q Hq. rewrite Hfr4; [by apply Hfr3|]. rewrite Hm4. intros Hs. apply Hq, Hall. by right.
    + left. split_and!; [done|intros q; rewrite elem_of_app, Hm4, <- Hall; tauto|].
      rewrite <- (length_owned (pages s3) p). apply submseteq_length, NoDup_submseteq; [apply Hf|]. intros q Hq%Hall. apply owned_all.
      destruct Hq as [?%elem_of_nil|[?|(va & [Hr' Hp']%Hu3 & _)]]; [done|done|]. by rewrite Hpte in Hp' by lia.
Qed.

(** An address space whose pages are left alone. *)
Lemma space_keep s fl d s' fl' : space kend s fl d → (∀ q, space_page s d q → pages s' !! q = pages s !! q) → pool s' fl' →
  (∀ q, space_page s d q → q ∉ fl') →
  space kend s' fl' d ∧ (∀ va, 0 ≤ va → pte_at (pages s') d va = pte_at (pages s) d va) ∧ (∀ q, owns (pages s') d q ↔ owns (pages s) d q) ∧
  (∀ q, space_page s' d q ↔ space_page s d q).
Proof.
  intros H Hsame [Hf Hg] Hn. assert (pages s' !! d = pages s !! d) as Ed by (apply Hsame; left; by left).
  assert (∀ i, pde_at (pages s') d i = pde_at (pages s) d i) as Hpde by (intros i; unfold pde_at, page_at; by rewrite Ed).
  assert (∀ i, table_of (pages s') d i = table_of (pages s) d i) as Htab by (intros i; unfold table_of; by rewrite Hpde).
  assert (∀ va, 0 ≤ va → pte_at (pages s') d va = pte_at (pages s) d va) as Hpte.
  { intros va Hva. unfold pte_at. rewrite Hpde, Htab. destruct (present _) eqn:Hp; [|done]. unfold page_at. rewrite Hsame; [done|].
    left. right. exists (PDX va). split; [by apply PDX_range|done]. }
  assert (∀ q, owns (pages s') d q ↔ owns (pages s) d q) as Hown by (intros q; by apply owns_ext).
  assert (∀ va, user_at (pages s') d va → user_at (pages s) d va ∧ frame (pages s') d va = frame (pages s) d va) as Hu.
  { intros va [Hr Hp]. unfold user_at, frame. rewrite Hpte in * by lia. done. }
  assert (∀ q, space_page s d q → good_at (pages s') q) as Hgood.
  { intros q Hq. unfold good_at. rewrite Hsame by done. by apply (space_page_frame kend s fl d q). }
  assert (∀ i, 0 ≤ i < 1024 → present (pde_at (pages s) d i) = true → space_page s d (table_of (pages s) d i)) as Hts by (intros i Hi Hp; left; right; by exists i).
  split_and!; [split| | |]; try done.
  - split; try done.
    + split; [apply Hgood; left; by left|apply Hn; left; by left].
    + intros i Hi. rewrite Hpde, Htab. intros Hp. split_and!; [by apply Hgood, Hts|by apply Hn, Hts|by apply (pt_tab _ _ _ _ (as_pt _ _ _ _ H) i Hi Hp)].
    + intros i j Hi Hj. rewrite !Hpde, !Htab. by apply (pt_inj _ _ _ _ (as_pt _ _ _ _ H)).
  - apply H.
  - intros i Hi. rewrite Hpde, Htab. by apply (as_tab _ _ _ _ H).
  - intros va Hv. destruct (Hu va Hv) as [Hv1 ->]. destruct (as_user _ _ _ _ H va Hv1) as (U1 & _ & _ & U4).
    assert (space_page s d (frame (pages s) d va)) as Hs by (right; by exists va). split_and!; [done|by apply Hgood|by apply Hn|by rewrite Hown].
  - intros v v' Hv Hv'. destruct (Hu v Hv) as [? ->]. destruct (Hu v' Hv') as [? ->]. by apply (as_inj _ _ _ _ H).
  - intros q. unfold space_page. rewrite Hown. split.
    + intros [?|(va & Hv & ->)]; [by left|right; exists va]. destruct (Hu va Hv) as [? ->]. done.
    + intros [?|(va & Hv & ->)]; [by left|right; exists va]. destruct Hv as [Hr Hp]. unfold user_at, frame. rewrite Hpte by lia. done.
Qed.
End setup.
