(* ===== verification/Pipe.v ===== *)
(** * xv6 pipes

    Models [src/lab3/xv6-public/pipe.c] (the same file is in lab4).  [pipewrite]
    and [piperead] give up the pipe's lock only inside [sleep], so each is modelled
    as the section of code it runs from taking the lock to returning or sleeping;
    a process that was woken runs the section again with the bytes it has left.
    [wakeup] only makes sleepers run their section again, which the step relation
    allows at any time.  [pipealloc]'s file table entries are modelled with the file table, in File. *)
From stdpp Require Import base numbers list relations.
From S2P Require Import Prelude Bytes.
#[local] Open Scope Z_scope.

Definition PIPESIZE : Z := 512.

Record pipe : Type := mkpipe {
  pdata : list Z; nread : Z; nwrite : Z; readopen : bool; writeopen : bool }.

(** [pipealloc]'s initialisation of the page; its old content stays in [data]. *)
Definition pipe_init (junk : list Z) : pipe := mkpipe junk 0 0 true true.

(** ** pipewrite *)
Inductive wresult := WDone | WError | WSleep (rest : list Z).

Definition put_byte (p : pipe) (b : Z) : pipe :=
  mkpipe (<[Z.to_nat (nwrite p `mod` PIPESIZE) := b]> (pdata p)) (nread p) (u32 (nwrite p + 1))
    (readopen p) (writeopen p).

(** The loop over [addr[i]], with the bytes not yet stored; [killed] is
    [myproc()->killed]. *)
Fixpoint pipewrite (p : pipe) (addr : list Z) (killed : bool) : pipe * wresult :=
  match addr with
  | [] => (p, WDone)
  | b :: rest =>
    if bool_decide (nwrite p = u32 (nread p + PIPESIZE)) then
      if negb (readopen p) || killed then (p, WError) else (p, WSleep addr)
    else pipewrite (put_byte p b) rest killed
  end.

(** ** piperead *)
Inductive rresult := RBytes (bs : list Z) | RError | RSleep.

Fixpoint read_bytes (n : nat) (p : pipe) (acc : list Z) : pipe * list Z :=
  match n with
  | O => (p, acc)
  | S n =>
    if bool_decide (nread p = nwrite p) then (p, acc)
    else
      let b := pdata p !!! Z.to_nat (nread p `mod` PIPESIZE) in
      read_bytes n (mkpipe (pdata p) (u32 (nread p + 1)) (nwrite p) (readopen p) (writeopen p)) (acc ++ [b])
  end.

Definition piperead (p : pipe) (n : Z) (killed : bool) : pipe * rresult :=
  if bool_decide (nread p = nwrite p) && writeopen p then
    if killed then (p, RError) else (p, RSleep)
  else
    let '(p', bs) := read_bytes (Z.to_nat n) p [] in (p', RBytes bs).

(** ** pipeclose: the new state, and whether the page is freed *)
Definition pipeclose (p : pipe) (writable : bool) : pipe * bool :=
  let p' := if writable then mkpipe (pdata p) (nread p) (nwrite p) (readopen p) false
            else mkpipe (pdata p) (nread p) (nwrite p) false (writeopen p) in
  (p', negb (readopen p') && negb (writeopen p')).

(** ** The queue a pipe represents *)
Record pipe_repr (p : pipe) (q : list Z) : Prop := {
  pr_data : length (pdata p) = 512%nat;
  pr_nread : 0 ≤ nread p < 2^32;
  pr_nwrite : nwrite p = u32 (nread p + Z.of_nat (length q));
  pr_len : (length q ≤ 512)%nat;
  pr_bytes : ∀ i b, q !! i = Some b → pdata p !! Z.to_nat ((nread p + Z.of_nat i) `mod` PIPESIZE) = Some b }.

Lemma mod_u32 x : (u32 x) `mod` PIPESIZE = x `mod` PIPESIZE.
Proof.
  unfold u32, PIPESIZE. change (2^32) with 4294967296. dlia.
Qed.

Lemma pipe_full p q : pipe_repr p q →
  bool_decide (nwrite p = u32 (nread p + PIPESIZE)) = bool_decide (length q = 512%nat).
Proof.
  intros [_ Hr Hw Hl _]. apply bool_decide_ext. rewrite Hw. unfold u32, PIPESIZE. split; [|by intros ->].
  intros E. assert (0 ≤ Z.of_nat (length q) ≤ 512) by lia. change (2^32) with 4294967296 in *.
  enough (Z.of_nat (length q) = 512) by lia. dlia.
Qed.

Lemma pipe_empty p q : pipe_repr p q →
  bool_decide (nread p = nwrite p) = bool_decide (q = []).
Proof.
  intros [_ Hr Hw Hl _]. apply bool_decide_ext. rewrite Hw. unfold u32. split.
  - intros E. apply nil_length_inv.
    assert (0 ≤ Z.of_nat (length q) ≤ 512) by lia. change (2^32) with 4294967296 in *.
    enough (Z.of_nat (length q) = 0) by lia. dlia.
  - intros ->. simpl. rewrite Z.add_0_r. by rewrite Z.mod_small.
Qed.

Lemma put_repr p q b : pipe_repr p q → (length q < 512)%nat → pipe_repr (put_byte p b) (q ++ [b]).
Proof.
  intros [Hd Hr Hw Hl Hb] Hlt. unfold put_byte. split; simpl.
  - by rewrite length_insert.
  - done.
  - rewrite Hw, length_app. simpl. unfold u32. rewrite Zplus_mod_idemp_l. f_equal. lia.
  - rewrite length_app. simpl. lia.
  - rewrite Hw, mod_u32. intros i c Hi. destruct (decide (i < length q)%nat) as [Hiq|Hiq].
    + rewrite lookup_app_l in Hi by done. rewrite list_lookup_insert_ne; [by apply Hb|].
      unfold PIPESIZE. dlia.
    + rewrite lookup_app_r in Hi by lia. apply list_lookup_singleton_Some in Hi as [Hi <-].
      replace i with (length q) by lia. apply list_lookup_insert_eq. rewrite Hd. unfold PIPESIZE. dlia.
Qed.

Lemma write_repr p q addr killed : pipe_repr p q →
  let k := Nat.min (length addr) (512 - length q) in
  ∃ p', pipewrite p addr killed =
    (p', if bool_decide (length addr ≤ 512 - length q)%nat then WDone
         else if negb (readopen p) || killed then WError else WSleep (drop k addr)) ∧
  pipe_repr p' (q ++ take k addr) ∧ readopen p' = readopen p ∧ writeopen p' = writeopen p.
Proof.
  revert p q. induction addr as [|b addr IH]; intros p q Hr k.
  - exists p. cbn [pipewrite]. rewrite bool_decide_eq_true_2 by (simpl; lia). rewrite take_nil, app_nil_r. done.
  - cbn [pipewrite]. rewrite (pipe_full p q Hr). pose proof (pr_len _ _ Hr). case_bool_decide as Hf.
    + exists p. rewrite bool_decide_eq_false_2 by (simpl; lia).
      assert (k = 0%nat) as -> by (unfold k; lia). rewrite take_0, app_nil_r. simpl drop.
      by destruct (negb (readopen p) || killed).
    + destruct (IH (put_byte p b) (q ++ [b])) as (p' & Hrun & Hrep & Ho1 & Ho2); [apply put_repr; [done|lia]|].
      rewrite length_app in Hrun, Hrep. cbn [length] in *.
      replace (512 - (length q + 1))%nat with (511 - length q)%nat in * by lia.
      exists p'. split_and!; [|rewrite <- app_assoc in Hrep|done|done].
      * rewrite Hrun. f_equal. change (readopen (put_byte p b)) with (readopen p).
        rewrite (bool_decide_ext (length addr ≤ 511 - length q)%nat (S (length addr) ≤ 512 - length q)%nat) by lia.
        replace k with (S (Nat.min (length addr) (511 - length q))) by (unfold k; cbn [length]; lia). done.
      * replace k with (S (Nat.min (length addr) (511 - length q))) by (unfold k; cbn [length]; lia). done.
Qed.

Lemma read_bytes_repr n p q acc : pipe_repr p q → ∃ p',
  read_bytes n p acc = (p', acc ++ take n q) ∧ pipe_repr p' (drop n q) ∧
  readopen p' = readopen p ∧ writeopen p' = writeopen p.
Proof.
  revert p q acc. induction n as [|n IH]; intros p q acc Hr.
  - exists p. simpl. by rewrite app_nil_r.
  - cbn [read_bytes]. rewrite (pipe_empty p q Hr). case_bool_decide as Hq.
    + subst q. exists p. simpl. by rewrite app_nil_r.
    + destruct q as [|b q]; [done|]. pose proof Hr as [Hd Hr0 Hw Hl Hb].
      pose proof (Hb 0%nat b eq_refl) as H0. rewrite Z.add_0_r in H0.
      rewrite (list_lookup_total_correct _ _ _ H0).
      edestruct (IH (mkpipe (pdata p) (u32 (nread p + 1)) (nwrite p) (readopen p) (writeopen p)) q) as
        (p' & Hrun & Hrep & Ho1 & Ho2).
      { split; simpl; [done|apply u32_range| | |].
        - rewrite Hw. unfold u32. rewrite Zplus_mod_idemp_l. f_equal. simpl. lia.
        - simpl in Hl. lia.
        - intros i c Hi. rewrite <- (Hb (S i) c Hi). do 2 f_equal. rewrite <- (mod_u32 (u32 _ + _)).
          unfold u32 at 1 2. rewrite Zplus_mod_idemp_l. change (_ `mod` 2^32) with (u32 (nread p + 1 + Z.of_nat i)).
          rewrite mod_u32. f_equal. lia. }
      exists p'. rewrite Hrun. split_and!; [by rewrite <- app_assoc|done|done|done].
Qed.

(** ** Runs

    The pipe with everything accepted from writers and delivered to readers so
    far.  A step is a section of [pipewrite] or [piperead] by any process, or a
    [pipeclose] that leaves the pipe allocated. *)
Record pstate : Type := mkps { ps_pipe : pipe; accepted : list Z; delivered : list Z }.

Inductive pstep : pstate → pstate → Prop :=
| step_write p p' acc del addr killed res :
    pipewrite p addr killed = (p', res) →
    pstep (mkps p acc del)
      (mkps p' (acc ++ match res with WSleep rest => take (length addr - length rest) addr
                                    | WDone => addr
                                    | WError => take (Z.to_nat (u32 (nwrite p' - nwrite p))) addr end) del)
| step_read p p' acc del n killed res :
    piperead p n killed = (p', res) →
    pstep (mkps p acc del) (mkps p' acc (del ++ match res with RBytes bs => bs | _ => [] end))
| step_close p p' acc del w :
    pipeclose p w = (p', false) → pstep (mkps p acc del) (mkps p' acc del).

Definition fifo (s : pstate) : Prop := ∃ q, pipe_repr (ps_pipe s) q ∧ accepted s = delivered s ++ q.

Lemma fifo_step s s' : fifo s → pstep s s' → fifo s'.
Proof.
  intros (q & Hr & Ha) Hst.
  destruct Hst as [p p' acc del addr killed res Hw|p p' acc del n killed res Hrd|p p' acc del w Hc]; simpl in *.
  - destruct (write_repr p q addr killed Hr) as (p1 & Hrun & Hrep & _). rewrite Hw in Hrun. simplify_eq/=.
    exists (q ++ take (Nat.min (length addr) (512 - length q)) addr). split; [done|]. simpl.
    rewrite <- app_assoc. do 2 f_equal. pose proof (pr_len _ _ Hr). case_bool_decide as Hle.
    + rewrite take_ge by lia. done.
    + destruct (negb (readopen p) || killed).
      * f_equal. destruct Hrep as [_ _ Hw' _ _]. destruct Hr as [_ Hr0 Hw0 _ _].
        assert (nread p1 = nread p) as Hn.
        { clear -Hw. revert p Hw. induction addr as [|b addr IH]; intros p Hw; cbn [pipewrite] in Hw; [by simplify_eq|].
          case_bool_decide; [destruct (negb (readopen p) || killed); by simplify_eq|]. by rewrite (IH _ Hw). }
        rewrite Hw', Hw0, Hn. rewrite length_app, length_take. unfold u32.
        rewrite Zminus_mod_idemp_l, Zminus_mod_idemp_r.
        replace (_ - _) with (Z.of_nat (512 - length q)) by lia. rewrite Z.mod_small by lia. lia.
      * f_equal. rewrite length_drop. lia.
  - unfold piperead in Hrd. destruct (bool_decide _ && _).
    + destruct killed; simplify_eq/=; exists q; by rewrite app_nil_r.
    + destruct (read_bytes_repr (Z.to_nat n) p q [] Hr) as (p1 & Hrun & Hrep & _). rewrite Hrun in Hrd.
      simplify_eq/=. exists (drop (Z.to_nat n) q). split; [done|]. simpl. by rewrite <- app_assoc, take_drop.
  - unfold pipeclose in Hc. exists q. split; [|done]. destruct Hr.
    destruct w; simplify_eq/=; by split.
Qed.

Lemma init_repr junk : length junk = 512%nat → pipe_repr (pipe_init junk) [].
Proof. intros Hj. split; cbn [pipe_init pdata nread nwrite length]; [done|lia|done|lia|]. by intros i b ?. Qed.

(** ** Properties *)

(** C13: a pipe is a first-in first-out byte stream.  In every run of any number
    of writers and readers over a fresh pipe, whatever the interleaving of their
    sections and closes, and also when the 32-bit counters wrap around, the bytes
    delivered are a prefix of the bytes accepted and the at most 512 bytes in
    between are the content of the buffer in order. *)
Theorem pipe_is_fifo junk s :
  length junk = 512%nat → rtc pstep (mkps (pipe_init junk) [] []) s →
  ∃ q, pipe_repr (ps_pipe s) q ∧ (length q ≤ 512)%nat ∧ accepted s = delivered s ++ q.
Proof.
  intros Hj Hr. assert (fifo s) as (q & Hq & Ha).
  { assert (fifo (mkps (pipe_init junk) [] [])) as H0 by (exists []; split; [by apply init_repr|done]).
    clear -Hr H0. induction Hr as [|s1 s2 s3 H12 _ IH]; [done|]. apply IH. by eapply fifo_step. }
  exists q. split_and!; [done|apply (pr_len _ _ Hq)|done].
Qed.

Lemma pipe_is_fifo_witness : ∃ q,
  pipe_repr (pipewrite (pipe_init (replicate 512 0)) [1; 2] false).1 q ∧ (length q ≤ 512)%nat ∧ [1; 2] = [] ++ q.
Proof.
  refine (pipe_is_fifo (replicate 512 0) (mkps (pipewrite (pipe_init (replicate 512 0)) [1; 2] false).1 [1; 2] []) eq_refl _).
  eapply rtc_once. apply (step_write _ _ [] [] [1; 2] false WDone). reflexivity.
Defined.

(** What a section of [pipewrite] and [piperead] does with a pipe holding
    [q].  A write stores as many bytes as fit, in order, and is done if all fit;
    otherwise it fails when the read end is closed or the process was killed and
    sleeps with the remaining bytes when neither is the case.  A read sleeps
    exactly when the pipe is empty, the write end open and the process not
    killed; otherwise, unless killed on an empty open pipe, it takes the first
    [n] bytes, so it returns nothing only for [n <= 0] or at end of file. *)
Theorem pipe_sections p q addr n killed : pipe_repr p q →
  (let k := Nat.min (length addr) (512 - length q) in ∃ p',
   pipewrite p addr killed =
    (p', if bool_decide (length addr ≤ 512 - length q)%nat then WDone
         else if negb (readopen p) || killed then WError else WSleep (drop k addr)) ∧
   pipe_repr p' (q ++ take k addr)) ∧
  (∃ p', piperead p n killed =
     (p', if bool_decide (q = []) && writeopen p then (if killed then RError else RSleep)
          else RBytes (take (Z.to_nat n) q)) ∧
   pipe_repr p' (if bool_decide (q = []) && writeopen p then q else drop (Z.to_nat n) q)).
Proof.
  intros Hr. split.
  - destruct (write_repr p q addr killed Hr) as (p' & H1 & H2 & _). by exists p'.
  - unfold piperead. rewrite (pipe_empty p q Hr). destruct (bool_decide (q = []) && writeopen p).
    + exists p. by destruct killed.
    + destruct (read_bytes_repr (Z.to_nat n) p q [] Hr) as (p' & H1 & H2 & _). exists p'. by rewrite H1.
Qed.

Lemma pipe_sections_witness :
  ∃ p', piperead (pipe_init (replicate 512 0)) 5 false = (p', RSleep) ∧ pipe_repr p' [].
Proof. apply (pipe_sections (pipe_init (replicate 512 0)) [] [] 5 false). by apply init_repr. Defined.
