(* ===== verification/Spinlock.v ===== *)
(** * xv6 spin locks and interrupt nesting

    Models [src/lab3/xv6-public/spinlock.c] and [sleeplock.c] (the same files are
    in lab4) for a machine with several CPUs: [pushcli]/[popcli] with the
    interrupt flag, and locks that record the CPU holding them.  The debugging
    fields (names, call stacks) are left out.  [acquire]'s spinning is one
    attempt: on a lock that is taken the loop goes on for as long as nobody
    releases it, which the sequential function reports as [OutOfFuel]. *)
From stdpp Require Import base numbers list strings.
From S2P Require Import Prelude.
#[local] Open Scope Z_scope.

Record cpu : Type := mkcpu {
  ncli : Z;             (** depth of [pushcli] nesting *)
  intena : bool;        (** were interrupts enabled before the first [pushcli]? *)
  IF : bool }.          (** the interrupt flag of %eflags *)
Record spinlock : Type := mklock { locked : bool; lcpu : option nat }.
Record mach : Type := mkmach { cpus : list cpu; locks : list spinlock }.

(** A CPU or lock number outside the arrays is an error of the caller. *)
Definition get_cpu (c : nat) : M mach cpu := λ s,
  match cpus s !! c with Some x => Ok (x, s) | None => Fault Undefined end.
Definition set_cpu (c : nat) (x : cpu) : M mach unit :=
  modify (λ s, mkmach (<[c := x]> (cpus s)) (locks s)).
Definition get_lock (l : nat) : M mach spinlock := λ s,
  match locks s !! l with Some x => Ok (x, s) | None => Fault Undefined end.
Definition set_lock (l : nat) (x : spinlock) : M mach unit :=
  modify (λ s, mkmach (cpus s) (<[l := x]> (locks s))).

(** [mycpu()] insists on disabled interrupts. *)
Definition mycpu (c : nat) : M mach nat :=
  x ← get_cpu c;
  if IF x then panic "mycpu called with interrupts enabled" else mret c.

Definition pushcli (c : nat) : M mach unit :=
  x ← get_cpu c;
  let eflags := IF x in
  set_cpu c (mkcpu (ncli x) (intena x) false);;
  mycpu c;;
  x ← get_cpu c;
  let ie := if bool_decide (ncli x = 0) then eflags else intena x in
  set_cpu c (mkcpu (ncli x + 1) ie (IF x)).

Definition popcli (c : nat) : M mach unit :=
  x ← get_cpu c;
  if IF x then panic "popcli - interruptible"
  else
    mycpu c;;
    let n := ncli x - 1 in
    set_cpu c (mkcpu n (intena x) (IF x));;
    if bool_decide (n < 0) then panic "popcli"
    else if bool_decide (n = 0) && intena x then set_cpu c (mkcpu n (intena x) true)
    else mret tt.

Definition holding (c l : nat) : M mach bool :=
  pushcli c;;
  x ← get_lock l;
  me ← mycpu c;
  let r := locked x && bool_decide (lcpu x = Some me) in
  popcli c;;
  mret r.

Definition initlock (l : nat) : M mach unit := set_lock l (mklock false None).

(** [while(xchg(&lk->locked, 1) != 0);] *)
Definition xchg_loop (l : nat) : M mach unit :=
  x ← get_lock l;
  if locked x then fail OutOfFuel else set_lock l (mklock true (lcpu x)).

Definition acquire (c l : nat) : M mach unit :=
  pushcli c;;
  h ← holding c l;
  if (h : bool) then panic "acquire"
  else
    xchg_loop l;;
    me ← mycpu c;
    x ← get_lock l;
    set_lock l (mklock (locked x) (Some me)).

Definition release (c l : nat) : M mach unit :=
  h ← holding c l;
  if negb h then panic "release"
  else
    x ← get_lock l;
    set_lock l (mklock (locked x) None);;
    set_lock l (mklock false None);;
    popcli c.

(** ** Specifications of the parts *)
Lemma pushcli_run c s x : cpus s !! c = Some x →
  pushcli c s = Ok (tt, mkmach (<[c := mkcpu (ncli x + 1) (if bool_decide (ncli x = 0) then IF x else intena x) false]> (cpus s)) (locks s)).
Proof.
  intros Hc. pose proof (lookup_lt_Some _ _ _ Hc) as Hl.
  unfold pushcli, mycpu, get_cpu, set_cpu, mbind, M_bind, modify. rewrite Hc. cbn [cpus locks].
  rewrite list_lookup_insert_eq by done. cbn [IF ncli intena cpus locks].
  unfold mret, M_ret. cbn [cpus locks]. rewrite list_lookup_insert_eq by done. cbn [ncli intena IF cpus locks].
  by rewrite list_insert_insert_eq.
Qed.

Lemma popcli_run c s x : cpus s !! c = Some x → IF x = false → 0 < ncli x →
  popcli c s = Ok (tt, mkmach (<[c := mkcpu (ncli x - 1) (intena x) (bool_decide (ncli x = 1) && intena x)]> (cpus s)) (locks s)).
Proof.
  intros Hc Hif Hn. unfold popcli, mycpu, get_cpu, set_cpu, mbind, M_bind, modify. rewrite Hc. rewrite Hif. rewrite Hc, Hif.
  unfold mret, M_ret. rewrite bool_decide_eq_false_2 by lia.
  rewrite (bool_decide_ext (ncli x - 1 = 0) (ncli x = 1)) by lia.
  destruct (bool_decide (ncli x = 1) && intena x); [|done].
  cbn [cpus locks]. by rewrite list_insert_insert_eq.
Qed.

(** [pushcli] then [popcli] with interrupts off or nested leaves the CPU alone. *)
Lemma holding_run c l s x k : cpus s !! c = Some x → IF x = false → 0 < ncli x → locks s !! l = Some k →
  holding c l s = Ok (locked k && bool_decide (lcpu k = Some c), s).
Proof.
  intros Hc Hif Hn Hl. pose proof (lookup_lt_Some _ _ _ Hc) as Hlt. unfold holding.
  rewrite (bind_ok _ _ _ _ _ (pushcli_run c s x Hc)). cbv beta.
  unfold get_lock at 1, mbind at 1, M_bind at 1. cbn [locks]. rewrite Hl.
  unfold mycpu, get_cpu, mbind at 1, M_bind at 1. unfold mbind at 1, M_bind at 1. cbn [cpus].
  rewrite list_lookup_insert_eq by done. cbn [IF]. unfold mret at 1, M_ret at 1.
  erewrite bind_ok.
  2:{ eapply popcli_run; [cbn [cpus]; by apply list_lookup_insert_eq|done|cbn [ncli]; lia]. }
  rewrite run_ret. cbn [ncli intena IF cpus locks]. rewrite list_insert_insert_eq.
  rewrite (bool_decide_eq_false_2 (ncli x = 0)) by lia. rewrite (bool_decide_eq_false_2 (ncli x + 1 = 1)) by lia.
  replace (ncli x + 1 - 1) with (ncli x) by lia. cbn [andb]. rewrite list_insert_id; [by destruct s|].
  rewrite Hc. destruct x. cbn in *. by subst.
Qed.

Lemma insert_twice {A} (l : list A) i x y : <[i := x]> (<[i := y]> l) = <[i := x]> l.
Proof. apply list_insert_insert_eq. Qed.

Lemma acquire_run c l s x k : cpus s !! c = Some x → 0 ≤ ncli x → locks s !! l = Some k → locked k = false →
  acquire c l s = Ok (tt, mkmach
    (<[c := mkcpu (ncli x + 1) (if bool_decide (ncli x = 0) then IF x else intena x) false]> (cpus s))
    (<[l := mklock true (Some c)]> (locks s))).
Proof.
  intros Hc Hn Hl Hk. pose proof (lookup_lt_Some _ _ _ Hc) as Hlt. pose proof (lookup_lt_Some _ _ _ Hl) as Hll.
  unfold acquire. rewrite (bind_ok _ _ _ _ _ (pushcli_run c s x Hc)). cbv beta.
  erewrite bind_ok.
  2:{ eapply holding_run; [cbn [cpus]; by apply list_lookup_insert_eq|done|cbn [ncli]; lia|exact Hl]. }
  cbv beta. rewrite Hk. cbn [andb]. unfold xchg_loop, mycpu, get_lock, set_lock, get_cpu, modify, mbind, M_bind.
  cbn [cpus locks]. rewrite Hl, Hk. cbn [cpus locks]. rewrite list_lookup_insert_eq by done. cbn [IF].
  unfold mret, M_ret. cbn [cpus locks]. rewrite list_lookup_insert_eq by done. cbn [cpus locks locked].
  by rewrite insert_twice.
Qed.

Lemma acquire_again c l s x k : cpus s !! c = Some x → 0 ≤ ncli x → locks s !! l = Some k →
  locked k = true → lcpu k = Some c → acquire c l s = Fault (Panic "acquire").
Proof.
  intros Hc Hn Hl Hk Hkc. pose proof (lookup_lt_Some _ _ _ Hc) as Hlt.
  unfold acquire. rewrite (bind_ok _ _ _ _ _ (pushcli_run c s x Hc)). cbv beta.
  erewrite bind_ok.
  2:{ eapply holding_run; [cbn [cpus]; by apply list_lookup_insert_eq|done|cbn [ncli]; lia|exact Hl]. }
  cbv beta. rewrite Hk, Hkc. by rewrite bool_decide_eq_true_2.
Qed.

Lemma acquire_busy c l s x k : cpus s !! c = Some x → 0 ≤ ncli x → locks s !! l = Some k →
  locked k = true → lcpu k ≠ Some c → acquire c l s = Fault OutOfFuel.
Proof.
  intros Hc Hn Hl Hk Hkc. pose proof (lookup_lt_Some _ _ _ Hc) as Hlt.
  unfold acquire. rewrite (bind_ok _ _ _ _ _ (pushcli_run c s x Hc)). cbv beta.
  erewrite bind_ok.
  2:{ eapply holding_run; [cbn [cpus]; by apply list_lookup_insert_eq|done|cbn [ncli]; lia|exact Hl]. }
  cbv beta. rewrite Hk, bool_decide_eq_false_2 by done. cbn [andb].
  unfold xchg_loop, get_lock, mbind, M_bind. cbn [locks]. by rewrite Hl, Hk.
Qed.

Lemma release_run c l s x k : cpus s !! c = Some x → IF x = false → 0 < ncli x → locks s !! l = Some k →
  locked k = true → lcpu k = Some c →
  release c l s = Ok (tt, mkmach
    (<[c := mkcpu (ncli x - 1) (intena x) (bool_decide (ncli x = 1) && intena x)]> (cpus s))
    (<[l := mklock false None]> (locks s))).
Proof.
  intros Hc Hif Hn Hl Hk Hkc. pose proof (lookup_lt_Some _ _ _ Hl) as Hll.
  unfold release. rewrite (bind_ok _ _ _ _ _ (holding_run c l s x k Hc Hif Hn Hl)). cbv beta.
  rewrite Hk, Hkc, bool_decide_eq_true_2 by done. cbn [andb negb].
  unfold get_lock, set_lock, modify, mbind at 1 2 3, M_bind at 1 2 3. rewrite Hl. cbn [cpus locks].
  rewrite insert_twice. by rewrite (popcli_run c (mkmach (cpus s) _) x Hc Hif Hn).
Qed.

Lemma release_unheld c l s x k : cpus s !! c = Some x → IF x = false → 0 < ncli x → locks s !! l = Some k →
  locked k && bool_decide (lcpu k = Some c) = false → release c l s = Fault (Panic "release").
Proof.
  intros Hc Hif Hn Hl Hk. unfold release.
  rewrite (bind_ok _ _ _ _ _ (holding_run c l s x k Hc Hif Hn Hl)). cbv beta. by rewrite Hk.
Qed.

(** ** The interrupt discipline of one CPU *)

(** Locks held by CPU [c]. *)
Definition held_by (c : nat) (k : spinlock) : Z := if locked k && bool_decide (lcpu k = Some c) then 1 else 0.
Definition n_held (c : nat) (s : mach) : Z := tally (held_by c) (locks s).

(** [b]: the interrupt flag when no lock is held. *)
Definition cpu_inv (c : nat) (b : bool) (s : mach) : Prop := ∃ x, cpus s !! c = Some x ∧
  ncli x = n_held c s ∧ (ncli x = 0 → IF x = b) ∧ (0 < ncli x → IF x = false ∧ intena x = b).

Inductive lock_op := Acquire (l : nat) | Release (l : nat).
Definition run_op (c : nat) (o : lock_op) : M mach unit :=
  match o with Acquire l => acquire c l | Release l => release c l end.
Fixpoint run_ops (c : nat) (os : list lock_op) : M mach unit :=
  match os with [] => mret tt | o :: os => run_op c o;; run_ops c os end.

Lemma held_nonneg c s k : k ∈ locks s → 0 ≤ held_by c k.
Proof. intros _. unfold held_by. by destruct (_ && _). Qed.
Lemma n_held_nonneg c s : 0 ≤ n_held c s.
Proof. apply tally_nonneg. apply held_nonneg. Qed.

Lemma n_held_set c s l k k' cs : locks s !! l = Some k →
  n_held c (mkmach cs (<[l := k']> (locks s))) = n_held c s - held_by c k + held_by c k'.
Proof. intros Hl. unfold n_held. cbn [locks]. by rewrite (tally_insert _ _ _ _ _ Hl). Qed.

Lemma run_op_inv c b o s s' : cpu_inv c b s → run_op c o s = Ok (tt, s') → cpu_inv c b s'.
Proof.
  intros (x & Hc & Hn & H0 & H1) Hr. pose proof (n_held_nonneg c s) as Hnn.
  pose proof (lookup_lt_Some _ _ _ Hc) as Hlt. destruct o as [l|l]; simpl in Hr.
  - destruct (locks s !! l) as [k|] eqn:Hl.
    2:{ unfold acquire, holding in Hr. rewrite (bind_ok _ _ _ _ _ (pushcli_run c s x Hc)) in Hr. cbv beta in Hr.
        minv Hr. apply bind_inv in Hrun as (? & s1 & Hp & Hrun). rewrite (pushcli_run c _ (mkcpu (ncli x + 1)
          (if bool_decide (ncli x = 0) then IF x else intena x) false)) in Hp by (cbn [cpus]; by apply list_lookup_insert_eq).
        injection Hp as _ <-. unfold get_lock, mbind, M_bind in Hrun. cbn [locks] in Hrun. by rewrite Hl in Hrun. }
    destruct (locked k) eqn:Hk.
    + destruct (decide (lcpu k = Some c)).
      * by rewrite (acquire_again c l s x k) in Hr by (done || lia).
      * by rewrite (acquire_busy c l s x k) in Hr by (done || lia).
    + rewrite (acquire_run c l s x k) in Hr by (done || lia). injection Hr as <-.
      eexists. split; [cbn [cpus]; by apply list_lookup_insert_eq|]. cbn [ncli IF intena].
      rewrite (n_held_set c s l k) by done. unfold held_by. rewrite Hk. cbn [locked lcpu andb].
      rewrite (bool_decide_eq_true_2 (Some c = Some c)) by done. split_and!; [lia|lia|]. intros _. split; [done|].
      case_bool_decide as E; [by apply H0|]. apply H1. lia.
  - destruct (decide (0 < ncli x)) as [Hpos|Hz].
    + destruct (H1 Hpos) as [Hif Hie]. destruct (locks s !! l) as [k|] eqn:Hl.
      2:{ unfold release, holding in Hr. minv Hr. rewrite (bind_ok _ _ _ _ _ (pushcli_run c s x Hc)) in Hrun.
          cbv beta in Hrun. unfold get_lock, mbind, M_bind in Hrun. cbn [locks] in Hrun. by rewrite Hl in Hrun. }
      destruct (locked k && bool_decide (lcpu k = Some c)) eqn:Hk.
      2:{ by rewrite (release_unheld c l s x k) in Hr. }
      apply andb_prop in Hk as [Hk1 Hk2%bool_decide_eq_true].
      rewrite (release_run c l s x k) in Hr by done. injection Hr as <-.
      eexists. split; [cbn [cpus]; by apply list_lookup_insert_eq|]. cbn [ncli IF intena].
      rewrite (n_held_set c s l k) by done. unfold held_by. rewrite Hk1, Hk2. cbn [locked lcpu andb].
      rewrite (bool_decide_eq_true_2 (Some c = Some c)) by done. split_and!; [lia| |].
      * intros E. rewrite bool_decide_eq_true_2 by lia. done.
      * intros E. rewrite bool_decide_eq_false_2 by lia. done.
    + exfalso. (* nothing is held: [holding] is false and [release] panics *)
      assert (n_held c s = 0) as Hz0 by lia. unfold release in Hr. minv Hr.
      destruct a; [|done]. unfold holding in Hrun. rewrite (bind_ok _ _ _ _ _ (pushcli_run c s x Hc)) in Hrun.
      cbv beta in Hrun. unfold get_lock at 1, mbind at 1, M_bind at 1 in Hrun. cbn [locks] in Hrun.
      destruct (locks s !! l) as [k|] eqn:Hl; [|done].
      apply bind_inv in Hrun as (me & s1 & Hme & Hrun). apply bind_inv in Hrun as (? & s2 & _ & Hrun).
      injection Hrun as Hh _. unfold mycpu in Hme. apply bind_inv in Hme as (y & s3 & _ & Hme).
      destruct (IF y); [done|]. injection Hme as <- _.
      pose proof (tally_one (held_by c) _ _ _ (held_nonneg c s) Hl) as Ht. unfold n_held in Hz0.
      unfold held_by at 1 in Ht. rewrite Hh in Ht. lia.
Qed.

(** ** Sleep locks

    The sections of [acquiresleep] and [releasesleep] under the lock's own spin
    lock: a process that finds the lock taken sleeps and runs the section again
    when woken. *)
Record sleeplock : Type := mksleeplock { slocked : bool; spid : Z }.
Definition initsleeplock : sleeplock := mksleeplock false 0.
(** [None]: sleeps. *)
Definition acquiresleep (k : sleeplock) (pid : Z) : option sleeplock :=
  if slocked k then None else Some (mksleeplock true pid).
Definition releasesleep (k : sleeplock) : sleeplock := mksleeplock false 0.
Definition holdingsleep (k : sleeplock) (pid : Z) : bool := slocked k && bool_decide (spid k = pid).

(** ** Properties *)

(** C14: the lock discipline of a CPU.  Whatever sequence of acquires and
    releases it completes, in whatever nesting, the depth [ncli] is the number of
    locks it holds, interrupts are off while it holds any, and they are back to
    what they were once it holds none.  A lock it holds makes a second [acquire]
    panic, a lock another CPU holds keeps it spinning, and [release] of a lock it
    does not hold, while holding another, panics. *)
Theorem lock_discipline c b os s s' :
  cpu_inv c b s → run_ops c os s = Ok (tt, s') →
  (∃ x, cpus s' !! c = Some x ∧ ncli x = n_held c s' ∧
     (n_held c s' = 0 → IF x = b) ∧ (0 < n_held c s' → IF x = false)) ∧
  (∀ l k, locks s' !! l = Some k → locked k = true →
     acquire c l s' = Fault (if bool_decide (lcpu k = Some c) then Panic "acquire" else OutOfFuel)) ∧
  (∀ l k, locks s' !! l = Some k → locked k && bool_decide (lcpu k = Some c) = false → 0 < n_held c s' →
     release c l s' = Fault (Panic "release")).
Proof.
  intros Hi Hr. assert (cpu_inv c b s') as (x & Hc & Hn & H0 & H1).
  { revert s Hi Hr. induction os as [|o os IH]; intros s Hi Hr; simpl in Hr; [by injection Hr as <-|].
    minv Hr. destruct a. eapply IH; [|exact Hr]. by eapply run_op_inv. }
  pose proof (n_held_nonneg c s'). split_and!.
  - exists x. rewrite Hn in H0, H1. split_and!; [done|done|done|]. intros H2. by apply H1.
  - intros l k Hl Hk. case_bool_decide.
    + by eapply acquire_again; [exact Hc|lia|exact Hl|..].
    + by eapply acquire_busy; [exact Hc|lia|exact Hl|..].
  - intros l k Hl Hk Hpos. destruct (H1 ltac:(lia)) as [Hif _].
    by eapply release_unheld; [exact Hc|done|lia|exact Hl|].
Qed.

(** One CPU with interrupts on, two free locks, released in the order taken. *)
Definition mach_ex : mach := mkmach [mkcpu 0 false true] [mklock false None; mklock false None].
Lemma lock_discipline_witness : ∃ s',
  run_ops 0 [Acquire 0; Acquire 1; Release 0] mach_ex = Ok (tt, s') ∧
  ∃ x, cpus s' !! 0%nat = Some x ∧ ncli x = n_held 0 s' ∧ n_held 0 s' = 1 ∧ IF x = false.
Proof.
  eexists. split; [vm_compute; reflexivity|].
  destruct (lock_discipline 0 true [Acquire 0; Acquire 1; Release 0] mach_ex
    (mkmach [mkcpu 1 true false] [mklock false None; mklock true (Some 0%nat)])) as [(x & H1 & H2 & _ & H4) _].
  - exists (mkcpu 0 false true). split_and!; done.
  - vm_compute. reflexivity.
  - exists x. split_and!; [exact H1|exact H2|reflexivity|]. apply H4. reflexivity.
Defined.
