(* ===== verification/Proc.v ===== *)
(** * xv6 processes and the priority scheduler

    Models [src/lab3/xv6-public/proc.c] and the process system calls of
    [sysproc.c]: the process table, fork, exit, wait, kill, sleep and wakeup, the
    priority scheduler of lab 3 and the round-robin one it replaced.

    A struct proc pointer is an index into the table and [myproc()] an argument.
    A definition is the code from taking [ptable.lock] to releasing it or to
    handing the CPU over in [sched()]; what follows a [sched()] is a definition of
    its own.  [fork] and [exit] also run without the lock, where the process can
    be preempted: their sections ([alloc_slot], [alloc_stack], [fork_mem],
    [fork_fill], [fork_run]; [exit_files], [exit_zombie]) are definitions that
    other processes' sections can come between, and [fork] and [exit] put them in
    order.  Memory and files are reached through the interface [ProcEnv]. *)
From stdpp Require Import base numbers list strings.
From S2P Require Import Prelude Spinlock.
#[local] Open Scope Z_scope.

Definition NPROC : nat := 64.
Definition NOFILE : nat := 16.
Definition KSTACKSIZE : Z := 4096.

(** ** What the process code asks of memory management and files *)
Class ProcEnv (E : Type) : Type := {
  env_kalloc : M E Z;
  env_kfree : Z → M E unit;
  env_setupkvm : M E Z;
  env_inituvm : Z → M E unit;
  env_copyuvm : Z → Z → M E Z;
  env_freevm : Z → M E unit;
  env_allocuvm : Z → Z → Z → M E Z;
  env_deallocuvm : Z → Z → Z → M E Z;
  env_filedup : Z → M E Z;
  env_fileclose : Z → M E unit;
  env_idup : Z → M E Z;
  env_iput : Z → M E unit;
  env_root : M E Z }.

(** ** Data *)
Inductive procstate := UNUSED | EMBRYO | SLEEPING | RUNNABLE | RUNNING | ZOMBIE.
#[export] Instance procstate_eq : EqDecision procstate.
Proof. solve_decision. Defined.

(** Sleep channels: the address of a process or any other address. *)
Inductive channel := ChProc (i : nat) | ChAddr (a : Z).
#[export] Instance channel_eq : EqDecision channel.
Proof. solve_decision. Defined.

Record proc : Type := mkproc {
  sz : Z; pgdir : Z; kstack : Z; state : procstate; pid : Z; parent : option nat;
  tf : list Z;                    (** the saved user registers *)
  chan : option channel; killed : bool;
  ofile : list Z; cwd : Z; name : string; priority : Z }.

Definition set_state (v : procstate) (p : proc) : proc :=
  mkproc (sz p) (pgdir p) (kstack p) v (pid p) (parent p) (tf p) (chan p) (killed p) (ofile p) (cwd p) (name p) (priority p).
Definition set_chan (v : option channel) (p : proc) : proc :=
  mkproc (sz p) (pgdir p) (kstack p) (state p) (pid p) (parent p) (tf p) v (killed p) (ofile p) (cwd p) (name p) (priority p).
Definition set_killed (v : bool) (p : proc) : proc :=
  mkproc (sz p) (pgdir p) (kstack p) (state p) (pid p) (parent p) (tf p) (chan p) v (ofile p) (cwd p) (name p) (priority p).
Definition set_parent (v : option nat) (p : proc) : proc :=
  mkproc (sz p) (pgdir p) (kstack p) (state p) (pid p) v (tf p) (chan p) (killed p) (ofile p) (cwd p) (name p) (priority p).
Definition set_priority (v : Z) (p : proc) : proc :=
  mkproc (sz p) (pgdir p) (kstack p) (state p) (pid p) (parent p) (tf p) (chan p) (killed p) (ofile p) (cwd p) (name p) v.
Definition set_kstack (v : Z) (p : proc) : proc :=
  mkproc (sz p) (pgdir p) v (state p) (pid p) (parent p) (tf p) (chan p) (killed p) (ofile p) (cwd p) (name p) (priority p).
Definition set_pgdir (v : Z) (p : proc) : proc :=
  mkproc (sz p) v (kstack p) (state p) (pid p) (parent p) (tf p) (chan p) (killed p) (ofile p) (cwd p) (name p) (priority p).
Definition set_sz (v : Z) (p : proc) : proc :=
  mkproc v (pgdir p) (kstack p) (state p) (pid p) (parent p) (tf p) (chan p) (killed p) (ofile p) (cwd p) (name p) (priority p).
Definition set_files (fs : list Z) (c : Z) (p : proc) : proc :=
  mkproc (sz p) (pgdir p) (kstack p) (state p) (pid p) (parent p) (tf p) (chan p) (killed p) fs c (name p) (priority p).

Record ptable (E : Type) : Type := mkpt { procs : list proc; nextpid : Z; initproc : option nat; env : E }.
Arguments mkpt {E} procs nextpid initproc env.
Arguments procs {E} p.
Arguments nextpid {E} p.
Arguments initproc {E} p.
Arguments env {E} p.

(** A table entry as [p = 0; p < NPROC] scans it. *)
Definition find_slot (P : proc → bool) (l : list proc) : option nat :=
  match list_find (λ p, P p = true) l with Some (i, _) => Some i | None => None end.

Section proc.
Context {E : Type} `{ProcEnv E}.
Abbreviation PM := (M (ptable E)).

Definition get_proc (i : nat) : PM proc := λ s,
  match procs s !! i with Some p => Ok (p, s) | None => Fault Undefined end.
Definition set_proc (i : nat) (p : proc) : PM unit :=
  modify (λ s, mkpt (<[i := p]> (procs s)) (nextpid s) (initproc s) (env s)).
Definition upd_proc (i : nat) (f : proc → proc) : PM unit := p ← get_proc i; set_proc i (f p).
Definition set_procs (l : list proc) : PM unit :=
  modify (λ s, mkpt l (nextpid s) (initproc s) (env s)).
Definition on_env {A} (m : M E A) : PM A := λ s,
  match m (env s) with
  | Ok (a, e) => Ok (a, mkpt (procs s) (nextpid s) (initproc s) e)
  | Fault f => Fault f
  end.

(** ** Creation *)

(** The slot found becomes an EMBRYO with a fresh pid and the default priority. *)
Definition embryo (n : Z) (p : proc) : proc :=
  mkproc (sz p) (pgdir p) (kstack p) EMBRYO n (parent p) (tf p) (chan p) (killed p) (ofile p) (cwd p) (name p) 50.

(** The locked part of [allocproc]. *)
Definition alloc_slot : PM (option nat) :=
  l ← gets procs;
  match find_slot (λ p, bool_decide (state p = UNUSED)) l with
  | None => mret None
  | Some i =>
    n ← gets nextpid;
    if bool_decide (n = 2^31 - 1) then fail Undefined
    else
      upd_proc i (embryo n);;
      modify (λ s, mkpt (procs s) (n + 1) (initproc s) (env s));;
      mret (Some i)
  end.
(** The rest, without the lock. *)
Definition alloc_stack (i : nat) : PM bool :=
  k ← on_env env_kalloc;
  upd_proc i (set_kstack k);;
  if bool_decide (k = 0) then upd_proc i (set_state UNUSED);; mret false
  else mret true.
Definition allocproc : PM (option nat) :=
  np ← alloc_slot;
  match np with
  | None => mret None
  | Some i => ok ← alloc_stack i; mret (if (ok : bool) then Some i else None)
  end.

(** [sizeof *p->tf] registers; %eax is the eighth. *)
Definition TF_EAX : nat := 7.

(** [for(i = 0; i < NOFILE; i++) if(curproc->ofile[i]) np->ofile[i] = filedup(...)] *)
Fixpoint dup_files (old new : list Z) : M E (list Z) :=
  match old, new with
  | f :: old, g :: new =>
    if bool_decide (f ≠ 0) then d ← env_filedup f; r ← dup_files old new; mret (d :: r)
    else r ← dup_files old new; mret (g :: r)
  | _, _ => mret new
  end.

(** [if((np->pgdir = copyuvm(...)) == 0) ...]: whether it went on. *)
Definition fork_mem (cur i : nat) : PM bool :=
  c ← get_proc cur;
  d ← on_env (env_copyuvm (pgdir c) (sz c));
  upd_proc i (set_pgdir d);;
  if bool_decide (d = 0) then
    p ← get_proc i;
    on_env (env_kfree (kstack p));;
    upd_proc i (set_kstack 0);;
    upd_proc i (set_state UNUSED);;
    mret false
  else mret true.
(** From [np->sz = curproc->sz] to the copy of the name. *)
Definition fork_fill (cur i : nat) : PM unit :=
  c ← get_proc cur;
  p ← get_proc i;
  fs ← on_env (dup_files (ofile c) (ofile p));
  wd ← on_env (env_idup (cwd c));
  upd_proc i (λ p, mkproc (sz c) (pgdir p) (kstack p) (state p) (pid p) (Some cur)
    (<[TF_EAX := 0]> (tf c)) (chan p) (killed p) fs wd (String.substring 0 15 (name c)) (priority p)).
(** With the lock again. *)
Definition fork_run (i : nat) : PM Z :=
  p ← get_proc i;
  let newpid := pid p in
  upd_proc i (set_state RUNNABLE);;
  mret newpid.

Definition fork (cur : nat) : PM Z :=
  np ← allocproc;
  match np with
  | None => mret (-1)
  | Some i =>
    ok ← fork_mem cur i;
    if (ok : bool) then fork_fill cur i;; fork_run i
    else mret (-1)
  end.

(** The trap frame of the first process: code and data segments, interrupts
    on, the stack at the top of its page, %eip 0. *)
Definition init_tf : list Z :=
  [0; 0; 0; 0; 0; 0; 0; 0; 0; 0; 35; 35; 0; 0; 0; 27; 512; 4096; 35].

Definition userinit : PM unit :=
  np ← allocproc;
  match np with
  | None => fail Undefined
  | Some i =>
    modify (λ s, mkpt (procs s) (nextpid s) (Some i) (env s));;
    d ← on_env env_setupkvm;
    upd_proc i (set_pgdir d);;
    if bool_decide (d = 0) then panic "userinit: out of memory?"
    else
      on_env (env_inituvm d);;
      upd_proc i (λ p, mkproc 4096 (pgdir p) (kstack p) (state p) (pid p) (parent p) init_tf (chan p) (killed p)
        (ofile p) (cwd p) "initcode" (priority p));;
      r ← on_env env_root;
      upd_proc i (λ p, set_files (ofile p) r p);;
      upd_proc i (set_state RUNNABLE)
  end.

(** ** Growing *)
Definition switchuvm_check (p : proc) : PM unit :=
  if bool_decide (kstack p = 0) then panic "switchuvm: no kstack"
  else if bool_decide (pgdir p = 0) then panic "switchuvm: no pgdir"
  else mret tt.

Definition growproc (cur : nat) (n : Z) : PM Z :=
  c ← get_proc cur;
  s' ← (if bool_decide (n > 0) then on_env (env_allocuvm (pgdir c) (sz c) (u32 (sz c + n)))
        else if bool_decide (n < 0) then on_env (env_deallocuvm (pgdir c) (sz c) (u32 (sz c + n)))
        else mret (sz c));
  if bool_decide (n ≠ 0 ∧ s' = 0) then mret (-1)
  else
    upd_proc cur (set_sz s');;
    c ← get_proc cur;
    switchuvm_check c;;
    mret 0.

(** ** Sleeping and waking *)
Definition wake_if (ch : option channel) (p : proc) : proc :=
  if bool_decide (state p = SLEEPING ∧ chan p = ch) then set_state RUNNABLE p else p.
Definition wakeup1 (ch : option channel) : PM unit :=
  l ← gets procs; set_procs (map (wake_if ch) l).
Definition wakeup (ch : option channel) : PM unit := wakeup1 ch.

(** Up to the [sched()] of [sleep], and what follows it. *)
Definition sleep (cur : nat) (ch : option channel) : PM unit :=
  upd_proc cur (set_chan ch);; upd_proc cur (set_state SLEEPING).
Definition sleep_resume (cur : nat) : PM unit := upd_proc cur (set_chan None).

Definition yield (cur : nat) : PM unit := upd_proc cur (set_state RUNNABLE).

(** ** Exit and wait *)
Fixpoint close_files (fs : list Z) : M E (list Z) :=
  match fs with
  | [] => mret []
  | f :: fs =>
    if bool_decide (f ≠ 0) then env_fileclose f;; r ← close_files fs; mret (0 :: r)
    else r ← close_files fs; mret (f :: r)
  end.

(** [if(p->parent == curproc) { p->parent = initproc; if ZOMBIE wakeup1(initproc); }] *)
Fixpoint reparent (cur : nat) (init : option nat) (l : list proc) (wake : bool) : list proc * bool :=
  match l with
  | [] => ([], wake)
  | p :: l =>
    if bool_decide (parent p = Some cur) then
      let '(r, w) := reparent cur init l (wake || bool_decide (state p = ZOMBIE)) in
      (set_parent init p :: r, w)
    else let '(r, w) := reparent cur init l wake in (p :: r, w)
  end.

(** Before [ptable.lock] is taken. *)
Definition exit_files (cur : nat) : PM unit :=
  init ← gets initproc;
  if bool_decide (init = Some cur) then panic "init exiting"
  else
    c ← get_proc cur;
    fs ← on_env (close_files (ofile c));
    on_env (env_iput (cwd c));;
    upd_proc cur (set_files fs 0).
(** Up to the [sched()] from which it does not return. *)
Definition exit_zombie (cur : nat) : PM unit :=
  init ← gets initproc;
  c ← get_proc cur;
  wakeup1 (ChProc <$> parent c);;
  l ← gets procs;
  let '(l', wake) := reparent cur init l false in
  set_procs l';;
  (if (wake : bool) then wakeup1 (ChProc <$> init) else mret tt);;
  upd_proc cur (set_state ZOMBIE).
Definition exit (cur : nat) : PM unit := exit_files cur;; exit_zombie cur.

Inductive wait_result := WaitPid (p : Z) | WaitFail | WaitSleep.

Definition reaped (p : proc) : proc :=
  mkproc (sz p) (pgdir p) 0 UNUSED 0 None (tf p) (chan p) false (ofile p) (cwd p) "" (priority p).

(** One scan of the table. *)
Definition wait (cur : nat) : PM wait_result :=
  l ← gets procs;
  match find_slot (λ p, bool_decide (parent p = Some cur ∧ state p = ZOMBIE)) l with
  | Some i =>
    p ← get_proc i;
    on_env (env_kfree (kstack p));;
    on_env (env_freevm (pgdir p));;
    upd_proc i reaped;;
    mret (WaitPid (pid p))
  | None =>
    c ← get_proc cur;
    if bool_decide (find_slot (λ p, bool_decide (parent p = Some cur)) l = None) || killed c
    then mret WaitFail
    else sleep cur (Some (ChProc cur));; mret WaitSleep
  end.

(** ** Kill *)
Definition kill (target : Z) : PM Z :=
  l ← gets procs;
  match find_slot (λ p, bool_decide (pid p = target)) l with
  | Some i =>
    upd_proc i (set_killed true);;
    upd_proc i (λ p, if bool_decide (state p = SLEEPING) then set_state RUNNABLE p else p);;
    mret 0
  | None => mret (-1)
  end.

(** ** System calls *)
Definition sys_fork (cur : nat) : PM Z := fork cur.
Definition sys_getpid (cur : nat) : PM Z := p ← get_proc cur; mret (pid p).
(** The argument as [argint] delivers it: [None] when it fails. *)
Definition sys_kill (arg : option Z) : PM Z :=
  match arg with None => mret (-1) | Some p => kill p end.
Definition sys_sbrk (cur : nat) (arg : option Z) : PM Z :=
  match arg with
  | None => mret (-1)
  | Some n =>
    c ← get_proc cur;
    r ← growproc cur n;
    if bool_decide (r < 0) then mret (-1) else mret (s32 (sz c))
  end.
(** [argint]'s result is ignored: a failing one leaves [priority] indeterminate. *)
Definition sys_setpriority (cur : nat) (arg : option Z) : PM Z :=
  v ← lift (of_option arg);
  if bool_decide (v < 0) || bool_decide (v > 200) then mret (-1)
  else
    c ← get_proc cur;
    let old_priority := priority c in
    upd_proc cur (set_priority v);;
    (if bool_decide (old_priority < v) then yield cur else mret tt);;
    mret 0.

(** ** Schedulers *)

(** The first loop of a pass: the smallest priority value among the runnable. *)
Definition max_priority (l : list proc) : Z :=
  foldl (λ m p, if bool_decide (state p ≠ RUNNABLE) then m
                else if bool_decide (priority p < m) then priority p else m) 201 l.

(** The second loop from table position [pos] on: the next process to run. *)
Definition pick (l : list proc) (pos : nat) (m : Z) : option nat :=
  (λ i, (pos + i)%nat) <$>
    find_slot (λ p, bool_decide (state p = RUNNABLE ∧ priority p = m)) (drop pos l).

(** [c->proc = p; switchuvm(p); p->state = RUNNING;] *)
Definition dispatch (i : nat) : PM unit :=
  p ← get_proc i; switchuvm_check p;; upd_proc i (set_state RUNNING).

(** A scheduler is at the start of a pass ([None]) or in its second loop, at a
    position and with the priority computed at the start.  A step runs it until
    it switches to a process ([Some]) or the pass ends. *)
Definition scheduler (sc : option (nat * Z)) : PM (option nat * option (nat * Z)) :=
  l ← gets procs;
  let '(pos, m) := match sc with None => (0%nat, max_priority l) | Some x => x end in
  match pick l pos m with
  | Some i => dispatch i;; mret (Some i, Some (S i, m))
  | None => mret (None, None)
  end.

(** The scheduler it replaced runs every runnable process in table order. *)
Definition scheduler_old (pos : nat) : PM (option nat * nat) :=
  l ← gets procs;
  match find_slot (λ p, bool_decide (state p = RUNNABLE)) (drop pos l) with
  | Some i => dispatch (pos + i);; mret (Some (pos + i)%nat, S (pos + i))
  | None => mret (None, 0%nat)
  end.
End proc.

(** [sched()]'s checks before it switches: [l] is [ptable.lock], [running]
    whether the process still has state RUNNING. *)
Definition sched_checks (c l : nat) (running : bool) : M mach unit :=
  h ← holding c l;
  if negb h then panic "sched ptable.lock"
  else
    x ← get_cpu c;
    if bool_decide (ncli x ≠ 1) then panic "sched locks"
    else if running then panic "sched running"
    else if IF x then panic "sched interruptible"
    else mret tt.
