(* ===== verification/ProcClaims.v ===== *)
(** * Properties of the xv6 process code

    The invariant of the process table under every operation, the choice of the
    priority scheduler, exit and wait, and two defects. *)
From stdpp Require Import base numbers list strings relations.
From S2P Require Import Prelude Spinlock Proc.
#[local] Open Scope Z_scope.

(** ** The invariant *)
Definition live (p : proc) : Prop := state p ≠ UNUSED.
Definition ready (p : proc) : Prop := state p ≠ UNUSED ∧ state p ≠ EMBRYO.
Definition alive (p : proc) : Prop := state p ≠ UNUSED ∧ state p ≠ EMBRYO ∧ state p ≠ ZOMBIE.

(** Process ids of live entries are positive, below [nextpid] and distinct;
    priorities are in range; an entry past EMBRYO has a kernel stack and a page
    directory; only live entries have a parent, and a parent, like [initproc], is
    neither free nor a zombie. *)
Record tab_inv (n : Z) (k : option nat) (l : list proc) : Prop := {
  ti_len : length l = NPROC;
  ti_next : 1 ≤ n;
  ti_pid : ∀ i p, l !! i = Some p → live p → 1 ≤ pid p < n;
  ti_uniq : ∀ i j p q, l !! i = Some p → l !! j = Some q → live p → live q → pid p = pid q → i = j;
  ti_prio : ∀ i p, l !! i = Some p → live p → 0 ≤ priority p ≤ 200;
  ti_res : ∀ i p, l !! i = Some p → ready p → kstack p ≠ 0 ∧ pgdir p ≠ 0;
  ti_par : ∀ i p j, l !! i = Some p → parent p = Some j → live p ∧ ∃ q, l !! j = Some q ∧ alive q;
  ti_init : ∀ i, k = Some i → ∃ q, l !! i = Some q ∧ alive q }.

Lemma insert_cases {X} (l : list X) i j q r :
  <[i := q]> l !! j = Some r → (j = i ∧ r = q) ∨ (j ≠ i ∧ l !! j = Some r).
Proof.
  intros Hj. destruct (decide (i = j)) as [->|]; [left|right; split; [by apply not_eq_sym|]].
  - split; [done|]. pose proof (lookup_lt_Some _ _ _ Hj) as Hlt. rewrite length_insert in Hlt.
    rewrite list_lookup_insert_eq in Hj by done. by simplify_eq.
  - by rewrite list_lookup_insert_ne in Hj.
Qed.

(** What a new entry [q] at [i] must satisfy. *)
Definition fits_at (n : Z) (k : option nat) (l : list proc) (i : nat) (q : proc) : Prop :=
  (live q → (1 ≤ pid q < n) ∧ (0 ≤ priority q ≤ 200) ∧
     ∀ j r, l !! j = Some r → live r → pid r = pid q → j = i) ∧
  (ready q → kstack q ≠ 0 ∧ pgdir q ≠ 0) ∧
  (∀ j, parent q = Some j → live q ∧ ((j = i ∧ alive q) ∨ (j ≠ i ∧ ∃ r, l !! j = Some r ∧ alive r))) ∧
  (alive q ∨ ((∀ j r, l !! j = Some r → parent r ≠ Some i) ∧ k ≠ Some i)).

Lemma tab_insert n k l i q : (i < length l)%nat → tab_inv n k l → fits_at n k l i q → tab_inv n k (<[i := q]> l).
Proof.
  intros Hi [H0 Hn H1 H2 H3 H4 H5 H6] (Hl & Hr & Hp & Ha). split.
  - by rewrite length_insert.
  - done.
  - intros j r [[-> ->]|[_ Hj]]%insert_cases Hlr; [by apply Hl|by eapply H1].
  - intros j j' r r' [[-> ->]|[Hji Hj]]%insert_cases [[-> ->]|[Hki Hk]]%insert_cases Hlr Hlr' Hpp; [done| | |by eapply H2].
    + symmetry. by eapply (Hl Hlr).
    + by eapply (Hl Hlr').
  - intros j r [[-> ->]|[_ Hj]]%insert_cases Hlr; [by apply Hl|by eapply H3].
  - intros j r [[-> ->]|[_ Hj]]%insert_cases Hrr; [by apply Hr|by eapply H4].
  - intros j r j' [[-> ->]|[Hji Hj]]%insert_cases Hpar.
    + destruct (Hp j' Hpar) as [? [[-> ?]|(? & r' & ? & ?)]]; (split; [done|]); [exists q|exists r']; split; try done.
      * by apply list_lookup_insert_eq.
      * by rewrite list_lookup_insert_ne by done.
    + destruct (H5 _ _ _ Hj Hpar) as (? & r' & Hr' & Har'). split; [done|].
      destruct (decide (j' = i)) as [->|].
      * exists q. split; [by apply list_lookup_insert_eq|]. destruct Ha as [|[Hno _]]; [done|]. by destruct (Hno j r Hj).
      * exists r'. by rewrite list_lookup_insert_ne by done.
  - intros j ->. destruct (H6 j eq_refl) as (r & Hj & Har). destruct (decide (j = i)) as [->|].
    + exists q. split; [by apply list_lookup_insert_eq|]. by destruct Ha as [|[_ ?]].
    + exists r. by rewrite list_lookup_insert_ne by done.
Qed.

(** The changes most operations make to an entry. *)
Definition okchange (p q : proc) : Prop :=
  (live q → live p ∧ pid q = pid p ∧ (priority q = priority p ∨ 0 ≤ priority q ≤ 200)) ∧
  (ready q → (kstack q ≠ 0 ∧ pgdir q ≠ 0) ∨ (ready p ∧ kstack q = kstack p ∧ pgdir q = pgdir p)) ∧
  (parent q = None ∨ (parent q = parent p ∧ (live p → live q))) ∧
  (alive p → alive q).

Lemma alive_dec p : {alive p} + {¬ alive p}.
Proof. unfold alive. destruct (state p); ((left; done) || (right; naive_solver)). Qed.

Lemma dead_childless n k l i p : tab_inv n k l → l !! i = Some p → ¬ alive p →
  (∀ j r, l !! j = Some r → parent r ≠ Some i) ∧ k ≠ Some i.
Proof.
  intros Ht Hi Ha. split.
  - intros j r Hj Hp. destruct (ti_par _ _ _ Ht _ _ _ Hj Hp) as (_ & q & Hq & Hal). by simplify_eq.
  - intros ->. destruct (ti_init _ _ _ Ht i eq_refl) as (q & Hq & Hal). by simplify_eq.
Qed.

Lemma okchange_fits n k l i p q : tab_inv n k l → l !! i = Some p → okchange p q → fits_at n k l i q.
Proof.
  intros Ht Hi (Hl & Hr & Hp & Ha). split; [|split; [|split]].
  - intros Hlq. destruct (Hl Hlq) as (Hlp & Hpid & Hpr). rewrite Hpid. split; [by eapply (ti_pid _ _ _ Ht)|]. split.
    + destruct Hpr as [->|]; [by eapply (ti_prio _ _ _ Ht)|done].
    + intros j r Hj Hlr Hpp. by eapply (ti_uniq _ _ _ Ht).
  - intros Hrq. destruct (Hr Hrq) as [|(Hrp & -> & ->)]; [done|]. by eapply (ti_res _ _ _ Ht).
  - intros j Hj. destruct Hp as [Hp|[Hp Hlive]]; [congruence|]. rewrite Hp in Hj.
    destruct (ti_par _ _ _ Ht _ _ _ Hi Hj) as (Hlp & r & Hr' & Har). split; [by apply Hlive|].
    destruct (decide (j = i)) as [->|]; [left|right; by eauto]. simplify_eq. split; [done|by apply Ha].
  - destruct (alive_dec p); [left; by apply Ha|]. right. by eapply dead_childless.
Qed.

(** Changing all entries at once, parents aside. *)
Lemma tab_map n k (f : proc → proc) l : tab_inv n k l →
  (∀ p, pid (f p) = pid p ∧ priority (f p) = priority p ∧ kstack (f p) = kstack p ∧ pgdir (f p) = pgdir p) →
  (∀ p, (live (f p) ↔ live p) ∧ (ready (f p) → ready p) ∧ (alive p → alive (f p))) →
  (∀ p, parent (f p) = parent p ∨ (parent (f p) = k ∧ is_Some (parent p))) → tab_inv n k (map f l).
Proof.
  intros [H0 Hn H1 H2 H3 H4 H5 H6] Hf Hs Hpar.
  assert (∀ i p, map f l !! i = Some p → ∃ q, p = f q ∧ l !! i = Some q) as Hc.
  { intros i p Hi. apply list_lookup_fmap_Some in Hi. destruct Hi as (q & Hq & ->). eauto. }
  assert (∀ i, (∃ q, l !! i = Some q ∧ alive q) → ∃ q, map f l !! i = Some q ∧ alive q) as Hal.
  { intros i (q & Hq & Ha). exists (f q). split; [|by apply Hs].
    change (map f l) with (f <$> l). by rewrite list_lookup_fmap, Hq. }
  split.
  - by rewrite length_map.
  - done.
  - intros i p (q & -> & Hq)%Hc Hl. destruct (Hf q) as (-> & _). exact (H1 i q Hq (proj1 (proj1 (Hs q)) Hl)).
  - intros i j p q (p' & -> & Hp')%Hc (q' & -> & Hq')%Hc Hl Hl'.
    destruct (Hf p') as (-> & _), (Hf q') as (-> & _).
    exact (H2 i j p' q' Hp' Hq' (proj1 (proj1 (Hs p')) Hl) (proj1 (proj1 (Hs q')) Hl')).
  - intros i p (q & -> & Hq)%Hc Hl. destruct (Hf q) as (_ & -> & _). exact (H3 i q Hq (proj1 (proj1 (Hs q)) Hl)).
  - intros i p (q & -> & Hq)%Hc Hr. destruct (Hf q) as (_ & _ & -> & ->). exact (H4 i q Hq (proj1 (proj2 (Hs q)) Hr)).
  - intros i p j (q & -> & Hq)%Hc Hp. destruct (Hs q) as (Hl & _).
    destruct (Hpar q) as [He|[He [j' Hj']]]; rewrite He in Hp.
    + destruct (H5 _ _ _ Hq Hp). split; [by apply Hl|by apply Hal].
    + destruct (H5 _ _ _ Hq Hj'). split; [by apply Hl|]. by apply Hal, H6.
  - intros i Hi. by apply Hal, H6.
Qed.

Section inv.
Context {E : Type} `{HE : ProcEnv E}.
Implicit Types (s : ptable E) (p q : proc).

Definition pt_inv s : Prop := tab_inv (nextpid s) (initproc s) (procs s).
Abbreviation put s i q := (mkpt (<[i := q]> (procs s)) (nextpid s) (initproc s) (env s)).

(** *** Running the table accessors *)
Lemma get_run i s p : procs s !! i = Some p → get_proc i s = Ok (p, s).
Proof. unfold get_proc. by intros ->. Qed.
Lemma upd_run i s p f : procs s !! i = Some p → upd_proc i f s = Ok (tt, put s i (f p)).
Proof. intros Hi. unfold upd_proc. by rewrite (bind_ok _ _ _ _ _ (get_run i s p Hi)). Qed.
Lemma get_inv i s p s' : get_proc i s = Ok (p, s') → procs s !! i = Some p ∧ s' = s.
Proof. unfold get_proc. destruct (procs s !! i); [|done]. intros Hr. by injection Hr as -> ->. Qed.
Lemma upd_inv i s f a s' : upd_proc i f s = Ok (a, s') →
  ∃ p, procs s !! i = Some p ∧ s' = put s i (f p).
Proof. intros Hr. apply bind_inv in Hr as (p & s1 & [Hp ->]%get_inv & Hr). injection Hr as _ <-. eauto. Qed.
Lemma env_inv {A} (m : M E A) s a s' : on_env m s = Ok (a, s') →
  procs s' = procs s ∧ nextpid s' = nextpid s ∧ initproc s' = initproc s.
Proof. unfold on_env. destruct (m (env s)) as [[b e]|]; [|done]. intros Hr. by injection Hr as _ <-. Qed.

Lemma pt_put s i p q : pt_inv s → procs s !! i = Some p → okchange p q → pt_inv (put s i q).
Proof.
  intros Hi Hp Hc. apply tab_insert; [by eapply lookup_lt_Some|done|by eapply okchange_fits].
Qed.

(** Commands that preserve the invariant. *)
Definition keeps {A} (m : M (ptable E) A) : Prop := ∀ s a s', pt_inv s → m s = Ok (a, s') → pt_inv s'.

Lemma keeps_bind {A B} (m : M (ptable E) A) (k : A → M (ptable E) B) :
  keeps m → (∀ a, keeps (k a)) → keeps (m ≫= k).
Proof. intros Hm Hk s b s' Hi Hr. apply bind_inv in Hr as (a & s1 & H1 & H2). eapply Hk; [|exact H2]. by eapply Hm. Qed.
Lemma keeps_ret {A} (a : A) : keeps (mret a).
Proof. intros s b s' Hi Hr. by injection Hr as _ <-. Qed.
Lemma keeps_gets {A} (f : ptable E → A) : keeps (gets f).
Proof. intros s a s' Hi Hr. by injection Hr as _ <-. Qed.
Lemma keeps_get i : keeps (get_proc i).
Proof. intros s a s' Hi Hr. by apply get_inv in Hr as [_ ->]. Qed.
Lemma keeps_fail {A} f : keeps (fail f : M (ptable E) A).
Proof. by intros s a s' _ ?. Qed.
Lemma keeps_env {A} (m : M E A) : keeps (on_env m).
Proof. intros s a s' Hi Hr. apply env_inv in Hr as (H1 & H2 & H3). unfold pt_inv. by rewrite H1, H2, H3. Qed.
Lemma keeps_lift {A} (r : res A) : keeps (lift r).
Proof. intros s a s' Hi Hr. unfold lift in Hr. destruct r; [|done]. by injection Hr as _ <-. Qed.
Lemma keeps_upd i f : (∀ p, okchange p (f p)) → keeps (upd_proc i f).
Proof. intros Hf s a s' Hi (p & Hp & ->)%upd_inv. by eapply pt_put. Qed.
Lemma keeps_wakeup ch : keeps (wakeup1 ch).
Proof.
  intros s a s' Hi Hr. injection Hr as _ <-. apply tab_map; [done| | |];
    intros p; unfold wake_if; case_bool_decide as Hc; try done; try (by left).
  unfold live, ready, alive. destruct Hc as [-> _]. simpl. naive_solver.
Qed.
End inv.

Ltac kstep := repeat match goal with
  | |- keeps (_ ≫= _) => apply keeps_bind; [|intros ?]
  | |- keeps (mret _) => apply keeps_ret
  | |- keeps (gets _) => apply keeps_gets
  | |- keeps (get_proc _) => apply keeps_get
  | |- keeps (fail _) => apply keeps_fail
  | |- keeps (on_env _) => apply keeps_env
  | |- keeps (lift _) => apply keeps_lift
  | |- keeps (wakeup1 _) => apply keeps_wakeup
  | |- keeps (if bool_decide _ then _ else _) => case_bool_decide
  | |- keeps (match _ with _ => _ end) => case_match
  end.
(** Field updates that are an [okchange] for every entry. *)
Ltac kupd := apply keeps_upd; intros ?; unfold okchange, live, ready, alive; simpl; naive_solver.

Section ops.
Context {E : Type} `{HE : ProcEnv E}.
Implicit Types (s : ptable E) (p q : proc).

Definition running s (cur : nat) : Prop := ∃ p, procs s !! cur = Some p ∧ state p = RUNNING.

Lemma find_slot_Some (P : proc → bool) l i : find_slot P l = Some i →
  ∃ p, l !! i = Some p ∧ P p = true ∧ ∀ j q, l !! j = Some q → (j < i)%nat → P q = false.
Proof.
  unfold find_slot. destruct (list_find _ l) as [[i' p]|] eqn:Hf; [|done]. intros [= ->].
  apply list_find_Some in Hf as (Hp & HP & Hmin). exists p. split; [done|]. split; [done|].
  intros j q Hq Hlt. specialize (Hmin j q Hq Hlt). by destruct (P q).
Qed.
Lemma find_slot_None (P : proc → bool) l : find_slot P l = None → ∀ j q, l !! j = Some q → P q = false.
Proof.
  unfold find_slot. destruct (list_find _ l) as [[i' p]|] eqn:Hf; [done|]. intros _ j q Hq.
  apply list_find_None in Hf. rewrite Forall_lookup in Hf. specialize (Hf j q Hq). by destruct (P q).
Qed.

(** *** One process giving up or regaining the CPU *)
Lemma okchange_state p v : live p → ready (set_state v p) → (alive p → alive (set_state v p)) →
  ready p → okchange p (set_state v p).
Proof. unfold okchange. intros Hl Hr Ha Hrp. split; [by intros _; auto|].
  split; [by intros _; right|]. split; [|done]. right. split; [done|]. intros _. apply Hr. Qed.

Lemma yield_inv cur s a s' : pt_inv s → running s cur → yield cur s = Ok (a, s') → pt_inv s'.
Proof.
  intros Hi (c & Hc & Hs) (p & Hp & ->)%upd_inv. simplify_eq. eapply pt_put; [done..|].
  apply okchange_state; unfold live, ready, alive; rewrite ?Hs; done.
Qed.

Lemma sleep_inv cur ch s a s' : pt_inv s → running s cur → sleep cur ch s = Ok (a, s') → pt_inv s'.
Proof.
  intros Hi (c & Hc & Hs) Hr. apply bind_inv in Hr as ([] & s1 & H1 & H2).
  assert (pt_inv s1) as Hi1 by (eapply (keeps_upd cur (set_chan ch)); [|done|done];
    intros ?; unfold okchange, live, ready, alive; simpl; naive_solver).
  apply upd_inv in H1 as (p & Hp & ->). simplify_eq. apply upd_inv in H2 as (p & Hp2 & ->). simpl in Hp2.
  rewrite list_lookup_insert_eq in Hp2 by (by eapply lookup_lt_Some). simplify_eq.
  eapply pt_put; [done| |].
  - simpl. by rewrite list_lookup_insert_eq by (by eapply lookup_lt_Some).
  - apply okchange_state; unfold live, ready, alive; simpl; rewrite ?Hs; done.
Qed.

Lemma sleep_resume_keeps cur : keeps (E:=E) (sleep_resume cur).
Proof. kupd. Qed.

Lemma growproc_keeps cur n : keeps (E:=E) (growproc cur n).
Proof. unfold growproc, switchuvm_check, panic. kstep; kupd. Qed.

Lemma kill_keeps t : keeps (E:=E) (kill t).
Proof.
  unfold kill. kstep; [kupd|]. apply keeps_upd. intros p. case_bool_decide as Hs.
  - apply okchange_state; unfold live, ready, alive; rewrite ?Hs; done.
  - unfold okchange. naive_solver.
Qed.

Lemma setpriority_inv cur arg s a s' : pt_inv s → running s cur →
  sys_setpriority cur arg s = Ok (a, s') → pt_inv s'.
Proof.
  intros Hi (c & Hc & Hs) Hr. unfold sys_setpriority in Hr. apply bind_inv in Hr as (v & s0 & H0 & Hr).
  unfold lift, of_option in H0. destruct arg as [v'|]; [|done]. injection H0 as -> <-.
  case_bool_decide as Hv0; [by injection Hr as _ <-|]. case_bool_decide as Hv1; [by injection Hr as _ <-|]. simpl in Hr.
  rewrite (bind_ok _ _ _ _ _ (get_run _ _ _ Hc)) in Hr.
  rewrite (bind_ok _ _ _ _ _ (upd_run _ _ _ _ Hc)) in Hr. apply bind_inv in Hr as (u & s1 & H1 & Hr).
  injection Hr as _ <-.
  assert (pt_inv (mkpt (<[cur := set_priority v c]> (procs s)) (nextpid s) (initproc s) (env s))) as Hi1.
  { eapply pt_put; [done..|]. unfold okchange, live, ready, alive; simpl.
    split; [intros; split; [done|split; [done|right; lia]]|]. naive_solver. }
  case_bool_decide; [|by injection H1 as _ <-]. eapply yield_inv; [exact Hi1| |exact H1].
  exists (set_priority v c). simpl. by rewrite list_lookup_insert_eq by (by eapply lookup_lt_Some).
Qed.

(** *** Dispatching *)
Lemma dispatch_runs s i p : pt_inv s → procs s !! i = Some p → state p = RUNNABLE →
  dispatch i s = Ok (tt, mkpt (<[i := set_state RUNNING p]> (procs s)) (nextpid s) (initproc s) (env s)).
Proof.
  intros Hi Hp Hs. unfold dispatch. rewrite (bind_ok _ _ _ _ _ (get_run _ _ _ Hp)).
  destruct (ti_res _ _ _ Hi _ _ Hp) as [Hk Hd]; [unfold ready; by rewrite Hs|].
  unfold switchuvm_check. rewrite !bool_decide_eq_false_2 by done. rewrite (bind_ok _ _ _ _ _ (run_ret tt s)).
  by apply upd_run.
Qed.

Lemma dispatch_inv s i p a s' : pt_inv s → procs s !! i = Some p → state p = RUNNABLE →
  dispatch i s = Ok (a, s') → pt_inv s'.
Proof.
  intros Hi Hp Hs Hr. rewrite (dispatch_runs _ _ _ Hi Hp Hs) in Hr. injection Hr as _ <-.
  eapply pt_put; [done..|]. apply okchange_state; unfold live, ready, alive; rewrite ?Hs; done.
Qed.

Lemma pick_Some l pos m i : pick l pos m = Some i →
  ∃ p, l !! i = Some p ∧ state p = RUNNABLE ∧ priority p = m ∧ (pos ≤ i)%nat ∧
    ∀ j q, l !! j = Some q → (pos ≤ j < i)%nat → ¬ (state q = RUNNABLE ∧ priority q = m).
Proof.
  unfold pick. intros Hf. apply fmap_Some in Hf as (k & Hf & ->).
  apply find_slot_Some in Hf as (p & Hp & HP & Hmin). rewrite lookup_drop in Hp.
  apply bool_decide_eq_true in HP as [? ?]. exists p. do 4 (split; [done || lia|]).
  intros j q Hq Hj. specialize (Hmin (j - pos)%nat q). rewrite lookup_drop in Hmin.
  replace (pos + (j - pos))%nat with j in Hmin by lia. specialize (Hmin Hq ltac:(lia)).
  by apply bool_decide_eq_false in Hmin.
Qed.

Lemma scheduler_inv sc s a s' : pt_inv s → scheduler sc s = Ok (a, s') → pt_inv s'.
Proof.
  intros Hi Hr. unfold scheduler in Hr. apply bind_inv in Hr as (l & s0 & H0 & Hr). injection H0 as <- <-.
  destruct (match sc with None => _ | Some x => x end) as [pos m].
  destruct (pick (procs s) pos m) as [i|] eqn:Hp; [|by injection Hr as _ <-].
  apply bind_inv in Hr as ([] & s1 & H1 & Hr). injection Hr as _ <-.
  apply pick_Some in Hp as (p & Hp & Hs & _). by eapply dispatch_inv.
Qed.

Lemma scheduler_old_inv pos s a s' : pt_inv s → scheduler_old pos s = Ok (a, s') → pt_inv s'.
Proof.
  intros Hi Hr. unfold scheduler_old in Hr. apply bind_inv in Hr as (l & s0 & H0 & Hr). injection H0 as <- <-.
  destruct (find_slot _ _) as [i|] eqn:Hp; [|by injection Hr as _ <-].
  apply bind_inv in Hr as ([] & s1 & H1 & Hr). injection Hr as _ <-.
  apply find_slot_Some in Hp as (p & Hp & Hs & _). rewrite lookup_drop in Hp.
  apply bool_decide_eq_true in Hs. by eapply dispatch_inv.
Qed.
End ops.

Section life.
Context {E : Type} `{HE : ProcEnv E}.
Implicit Types (s : ptable E) (p q : proc).

Lemma put_lookup s i q : (i < length (procs s))%nat →
  procs (mkpt (<[i := q]> (procs s)) (nextpid s) (initproc s) (env s)) !! i = Some q.
Proof. simpl. apply list_lookup_insert_eq. Qed.

(** *** Creation *)
Lemma embryo_inv s i p : pt_inv s → procs s !! i = Some p → state p = UNUSED →
  pt_inv (mkpt (<[i := embryo (nextpid s) p]> (procs s)) (nextpid s + 1) (initproc s) (env s)).
Proof.
  intros Hi Hp Hs. apply tab_insert; simpl; [by eapply lookup_lt_Some| |].
  - destruct Hi as [H0 Hn H1 H2 H3 H4 H5 H6]. split; try done; [lia|].
    intros j r Hj Hl. specialize (H1 j r Hj Hl). lia.
  - assert (¬ alive p) as Ha by (unfold alive; rewrite Hs; naive_solver). split; [|split; [|split]].
    + intros _. simpl. pose proof (ti_next _ _ _ Hi). split; [lia|]. split; [lia|].
      intros j r Hj Hl He. pose proof (ti_pid _ _ _ Hi _ _ Hj Hl). lia.
    + unfold ready. simpl. naive_solver.
    + simpl. intros j Hj. destruct (ti_par _ _ _ Hi _ _ _ Hp Hj) as [Hl _]. unfold live in Hl. by rewrite Hs in Hl.
    + right. by eapply dead_childless.
Qed.

(** The sections of [allocproc]: a free slot becomes an EMBRYO with the next
    pid, then gets a stack or is given up. *)
Lemma alloc_slot_spec s r s' : pt_inv s → alloc_slot s = Ok (r, s') → pt_inv s' ∧ initproc s' = initproc s ∧
  match r with
  | None => s' = s
  | Some i => ∃ p, procs s !! i = Some p ∧ state p = UNUSED ∧ parent p = None ∧ procs s' = <[i := embryo (nextpid s) p]> (procs s)
  end.
Proof.
  intros Hi Hr. unfold alloc_slot in Hr. apply bind_inv in Hr as (l & s0 & H0 & Hr). injection H0 as <- <-.
  destruct (find_slot _ _) as [i|] eqn:Hf; [|by injection Hr as <- <-].
  apply find_slot_Some in Hf as (p & Hp & Hs & _). apply bool_decide_eq_true in Hs.
  apply bind_inv in Hr as (n & s0 & H0 & Hr). injection H0 as <- <-. case_bool_decide; [done|].
  rewrite (bind_ok _ _ _ _ _ (upd_run _ _ _ _ Hp)) in Hr. apply bind_inv in Hr as ([] & s1 & H1 & Hr). injection H1 as <-. injection Hr as <- <-.
  split; [by apply embryo_inv|]. split; [done|]. exists p. split_and!; try done.
  destruct (parent p) eqn:Hpp; [|done]. destruct (ti_par _ _ _ Hi _ _ _ Hp Hpp) as [Hl _]. unfold live in Hl. by rewrite Hs in Hl.
Qed.

Lemma alloc_stack_spec s i q (r : bool) s' : pt_inv s → procs s !! i = Some q → state q = EMBRYO → parent q = None →
  alloc_stack i s = Ok (r, s') → pt_inv s' ∧ initproc s' = initproc s ∧
  ∃ k, procs s' = <[i := (if r then set_kstack k q else set_state UNUSED (set_kstack k q))]> (procs s) ∧ (r = true → k ≠ 0).
Proof.
  intros Hi Hq Hqs Hpar Hr. unfold alloc_stack in Hr. apply bind_inv in Hr as (k & s1 & (E1 & E2 & E3)%env_inv & Hr).
  assert (pt_inv s1) as Hi1 by (unfold pt_inv; by rewrite E1, E2, E3). rewrite <- E1 in Hq. pose proof (lookup_lt_Some _ _ _ Hq) as Hlt.
  rewrite (bind_ok _ _ _ _ _ (upd_run _ _ _ _ Hq)) in Hr. case_bool_decide as Hk.
  - rewrite (bind_ok _ _ _ _ _ (upd_run _ _ _ _ (put_lookup s1 i _ Hlt))) in Hr. injection Hr as <- <-. simpl. rewrite list_insert_insert_eq.
    split; [|split; [done|by exists k; rewrite E1]]. apply (pt_put s1 i q); [done..|]. unfold okchange, live, ready, alive. simpl. naive_solver.
  - injection Hr as <- <-. split; [|split; [done|by exists k; simpl; rewrite E1]]. apply (pt_put s1 i q); [done..|]. unfold okchange, live, ready, alive. simpl. naive_solver.
Qed.

Lemma allocproc_spec s r s' : pt_inv s → allocproc s = Ok (r, s') → pt_inv s' ∧ initproc s' = initproc s ∧
  match r with
  | None => True
  | Some i => ∃ p q, procs s !! i = Some p ∧ state p = UNUSED ∧ procs s' = <[i := q]> (procs s) ∧
      state q = EMBRYO ∧ kstack q ≠ 0 ∧ pid q = nextpid s ∧ parent q = None
      ∧ killed q = killed p ∧ priority q = 50
  end.
Proof.
  intros Hi Hr. unfold allocproc in Hr. apply bind_inv in Hr as (np & s1 & (Hi1 & E1 & Hnp)%alloc_slot_spec & Hr); [|done].
  destruct np as [i|]; [|by injection Hr as <- <-]. destruct Hnp as (p & Hp & Hs & Hpar & Hl). pose proof (lookup_lt_Some _ _ _ Hp) as Hlt.
  apply bind_inv in Hr as (ok & s2 & H2 & Hr).
  apply (alloc_stack_spec s1 i (embryo (nextpid s) p)) in H2 as (Hi2 & E2 & k & Hl2 & Hk); [|done|by rewrite Hl, list_lookup_insert_eq|done|done].
  injection Hr as <- <-. split; [done|]. split; [congruence|]. destruct ok; [|done]. exists p, (set_kstack k (embryo (nextpid s) p)).
  rewrite Hl2, Hl, list_insert_insert_eq. simpl. split_and!; try done. by apply Hk.
Qed.

(** A parent and a state past EMBRYO for an EMBRYO. *)
Lemma adopt_inv s i cur c p q : pt_inv s → procs s !! i = Some p → state p = EMBRYO →
  procs s !! cur = Some c → alive c → i ≠ cur →
  pid q = pid p → priority q = priority p → parent q = Some cur → state q = EMBRYO →
  pt_inv (mkpt (<[i := q]> (procs s)) (nextpid s) (initproc s) (env s)).
Proof.
  intros Hi Hp Hs Hc Ha Hne E1 E2 E5 E6. apply tab_insert; [by eapply lookup_lt_Some|done|].
  assert (live p) as Hl by (unfold live; by rewrite Hs). assert (¬ alive p) as Hnp by (unfold alive; rewrite Hs; naive_solver).
  split; [|split; [|split]].
  - intros _. rewrite E1, E2. split; [by eapply (ti_pid _ _ _ Hi)|]. split; [by eapply (ti_prio _ _ _ Hi)|].
    intros j r Hj Hlr Hpp. by eapply (ti_uniq _ _ _ Hi).
  - intros [_ Hr]. by rewrite E6 in Hr.
  - intros j Hj. rewrite E5 in Hj. injection Hj as <-. split; [unfold live; by rewrite E6|]. right. eauto.
  - right. by eapply dead_childless.
Qed.

(** The sections of [fork] after [allocproc]. *)
Lemma fork_mem_spec s cur i q (r : bool) s' : pt_inv s → procs s !! i = Some q → state q = EMBRYO → parent q = None →
  fork_mem cur i s = Ok (r, s') → pt_inv s' ∧ initproc s' = initproc s ∧
  ∃ d, procs s' = <[i := (if r then set_pgdir d q else set_state UNUSED (set_kstack 0 (set_pgdir d q)))]> (procs s) ∧ (r = true → d ≠ 0).
Proof.
  intros Hi Hq Hqs Hpar Hr. unfold fork_mem in Hr. apply bind_inv in Hr as (c & s0 & [Hc ->]%get_inv & Hr).
  apply bind_inv in Hr as (d & s1 & (E1 & E2 & E3)%env_inv & Hr).
  assert (pt_inv s1) as Hi1 by (unfold pt_inv; by rewrite E1, E2, E3). rewrite <- E1 in Hq. pose proof (lookup_lt_Some _ _ _ Hq) as Hlt.
  rewrite (bind_ok _ _ _ _ _ (upd_run _ _ _ _ Hq)) in Hr.
  assert (pt_inv (mkpt (<[i:=set_pgdir d q]> (procs s1)) (nextpid s1) (initproc s1) (env s1))) as Hi2.
  { apply (pt_put s1 i q); [done..|]. unfold okchange, live, ready, alive. simpl. naive_solver. }
  case_bool_decide as Hd; [|injection Hr as <- <-; split; [done|]; split; [done|]; exists d; simpl; by rewrite E1].
  rewrite (bind_ok _ _ _ _ _ (get_run _ _ _ (put_lookup s1 i _ Hlt))) in Hr.
  apply bind_inv in Hr as ([] & s4 & (F1 & F2 & F3)%env_inv & Hr). simpl in F1, F2, F3.
  assert (procs s4 !! i = Some (set_pgdir d q)) as Hq4 by (by rewrite F1, list_lookup_insert_eq).
  rewrite (bind_ok _ _ _ _ _ (upd_run _ _ _ _ Hq4)) in Hr. pose proof (lookup_lt_Some _ _ _ Hq4) as Hlt4.
  rewrite (bind_ok _ _ _ _ _ (upd_run _ _ _ _ (put_lookup s4 i _ Hlt4))) in Hr. injection Hr as <- <-. simpl. rewrite list_insert_insert_eq.
  split; [|split; [congruence|exists d; by rewrite F1, list_insert_insert_eq, E1]].
  assert (pt_inv s4) as Hi4 by (unfold pt_inv; by rewrite F1, F2, F3). apply (pt_put s4 i (set_pgdir d q)); [done..|].
  unfold okchange, live, ready, alive. simpl. naive_solver.
Qed.

Definition filled (cur : nat) (c : proc) (fs : list Z) (wd : Z) (q : proc) : proc :=
  mkproc (sz c) (pgdir q) (kstack q) (state q) (pid q) (Some cur) (<[TF_EAX := 0]> (tf c)) (chan q) (killed q) fs wd (String.substring 0 15 (name c)) (priority q).
Lemma fork_fill_spec s cur c i q r s' : pt_inv s → procs s !! cur = Some c → alive c → procs s !! i = Some q → state q = EMBRYO →
  fork_fill cur i s = Ok (r, s') → pt_inv s' ∧ initproc s' = initproc s ∧ ∃ fs wd, procs s' = <[i := filled cur c fs wd q]> (procs s).
Proof.
  intros Hi Hc Ha Hq Hqs Hr. unfold fork_fill in Hr. rewrite (bind_ok _ _ _ _ _ (get_run _ _ _ Hc)), (bind_ok _ _ _ _ _ (get_run _ _ _ Hq)) in Hr.
  apply bind_inv in Hr as (fs & s1 & (E1 & E2 & E3)%env_inv & Hr). apply bind_inv in Hr as (wd & s2 & (F1 & F2 & F3)%env_inv & Hr).
  rewrite E1 in F1. rewrite E2 in F2. rewrite E3 in F3. clear E1 E2 E3.
  assert (pt_inv s2) as Hi2 by (unfold pt_inv; by rewrite F1, F2, F3). rewrite <- F1 in Hq, Hc. rewrite (upd_run _ _ _ _ Hq) in Hr. injection Hr as _ <-.
  split; [|split; [done|exists fs, wd; simpl; by rewrite F1]].
  assert (i ≠ cur) as Hne by (intros ->; simplify_eq; by destruct Ha as (_ & ? & _)).
  by apply (adopt_inv s2 i cur c q (filled cur c fs wd q)).
Qed.

Lemma fork_run_spec s i q r s' : pt_inv s → procs s !! i = Some q → state q = EMBRYO → kstack q ≠ 0 → pgdir q ≠ 0 →
  fork_run i s = Ok (r, s') → pt_inv s' ∧ initproc s' = initproc s ∧ r = pid q ∧ procs s' = <[i := set_state RUNNABLE q]> (procs s).
Proof.
  intros Hi Hq Hqs Hk Hd Hr. unfold fork_run in Hr. rewrite (bind_ok _ _ _ _ _ (get_run _ _ _ Hq)) in Hr. cbv zeta in Hr.
  rewrite (bind_ok _ _ _ _ _ (upd_run _ _ _ _ Hq)) in Hr. injection Hr as <- <-. split; [|done]. apply (pt_put s i q); [done..|].
  unfold okchange, live, ready, alive. simpl. rewrite Hqs. naive_solver.
Qed.

(** A successful fork adds a child with the next pid that returns 0 from the
    call; the child's slot was free, nothing else in the table changed. *)
Definition forked (s s' : ptable E) (cur i : nat) (c q : proc) (r : Z) : Prop :=
  r = nextpid s ∧ procs s' = <[i := q]> (procs s) ∧ state q = RUNNABLE ∧ pid q = nextpid s ∧ parent q = Some cur ∧
  sz q = sz c ∧ tf q = <[TF_EAX := 0]> (tf c) ∧ priority q = 50.

Lemma fork_spec s cur c r s' : pt_inv s → procs s !! cur = Some c → state c = RUNNING →
  fork cur s = Ok (r, s') → pt_inv s' ∧
  (r = -1 ∨ ∃ i p q, procs s !! i = Some p ∧ state p = UNUSED ∧ killed q = killed p ∧ forked s s' cur i c q r).
Proof.
  intros Hi Hc Hcs Hr. unfold fork in Hr. apply bind_inv in Hr as (np & s1 & H1 & Hr).
  apply allocproc_spec in H1 as (Hi1 & _ & Hnp); [|done].
  destruct np as [i|]; [|injection Hr as <- <-; by auto].
  destruct Hnp as (p & q & Hp & Hps & Hl & Hqs & Hk & Hpid & Hpar & Hkl & Hpr).
  assert (i ≠ cur) as Hne by (intros ->; congruence). pose proof (lookup_lt_Some _ _ _ Hp) as Hlt.
  apply bind_inv in Hr as (ok & s2 & H2 & Hr).
  apply (fork_mem_spec s1 cur i q) in H2 as (Hi2 & _ & d & Hl2 & Hd); [|done|by rewrite Hl, list_lookup_insert_eq|done|done].
  rewrite Hl, list_insert_insert_eq in Hl2. destruct ok; [|injection Hr as <- <-; by auto].
  apply bind_inv in Hr as (u & s3 & H3 & Hr).
  apply (fork_fill_spec s2 cur c i (set_pgdir d q)) in H3 as (Hi3 & _ & fs & wd & Hl3);
    [|done|by rewrite Hl2, list_lookup_insert_ne|unfold alive; by rewrite Hcs|by rewrite Hl2, list_lookup_insert_eq|done].
  rewrite Hl2, list_insert_insert_eq in Hl3.
  apply (fork_run_spec s3 i (filled cur c fs wd (set_pgdir d q))) in Hr as (Hi4 & _ & -> & Hl4);
    [|done|by rewrite Hl3, list_lookup_insert_eq|done|done|by apply Hd].
  rewrite Hl3, list_insert_insert_eq in Hl4. split; [done|]. right. eexists i, p, _. split; [done|]. split; [done|]. split; [|split; [|split; [exact Hl4|]]]; by simpl.
Qed.
End life.

Section ends.
Context {E : Type} `{HE : ProcEnv E}.
Implicit Types (s : ptable E) (p q : proc).

Lemma tab_init n k l i q : tab_inv n k l → l !! i = Some q → alive q → tab_inv n (Some i) l.
Proof. intros [H0 Hn H1 H2 H3 H4 H5 H6] Hi Ha. split; try done. intros j [= <-]. eauto. Qed.

Lemma userinit_inv s a s' : pt_inv s → userinit s = Ok (a, s') → pt_inv s'.
Proof.
  intros Hi Hr. unfold userinit in Hr. apply bind_inv in Hr as (np & s1 & H1 & Hr).
  apply allocproc_spec in H1 as (Hi1 & _ & Hnp); [|done]. destruct np as [i|]; [|done].
  destruct Hnp as (p & q & Hp & Hps & Hl & Hqs & Hk & Hpid & Hpar & Hkl & Hpr).
  assert (procs s1 !! i = Some q) as Hq by (rewrite Hl, list_lookup_insert_eq; [done|by eapply lookup_lt_Some]).
  assert (i < length (procs s1))%nat as Hlt by (by eapply lookup_lt_Some).
  apply bind_inv in Hr as ([] & s2 & H2 & Hr). injection H2 as <-.
  apply bind_inv in Hr as (d & s3 & (E1 & E2 & E3)%env_inv & Hr). simpl in E1, E2, E3.
  rewrite <- E1 in Hq, Hlt. rewrite (bind_ok _ _ _ _ _ (upd_run _ _ _ _ Hq)) in Hr. case_bool_decide; [done|].
  apply bind_inv in Hr as ([] & s4 & (F1 & F2 & F3)%env_inv & Hr). simpl in F1, F2, F3.
  assert (procs s4 !! i = Some (set_pgdir d q)) as Hq4 by (by rewrite F1, list_lookup_insert_eq).
  rewrite (bind_ok _ _ _ _ _ (upd_run _ _ _ _ Hq4)) in Hr.
  apply bind_inv in Hr as (rt & s5 & (G1 & G2 & G3)%env_inv & Hr). simpl in G1, G2, G3.
  rewrite F1, list_insert_insert_eq in G1. rewrite F2 in G2. rewrite F3 in G3.
  apply bind_inv in Hr as ([] & s6 & (q6 & Hq6 & ->)%upd_inv & Hr). rewrite G1, list_lookup_insert_eq in Hq6 by done.
  injection Hq6 as <-. apply upd_inv in Hr as (q7 & Hq7 & ->). simpl in Hq7.
  rewrite G1, list_insert_insert_eq, list_lookup_insert_eq in Hq7 by done. injection Hq7 as <-.
  unfold pt_inv. simpl. rewrite G1, !list_insert_insert_eq, G2, G3, E2, E3, E1.
  eapply tab_init; [|by apply list_lookup_insert_eq; rewrite <- E1|by unfold alive].
  rewrite E1 in Hq. apply (pt_put s1 i q); [done|done|]. unfold okchange, live, ready, alive. simpl. rewrite Hqs.
  split; [|split; [|split]]; [naive_solver|by left|by left|naive_solver].
Qed.

(** *** Exit *)
Definition adopted (cur : nat) (init : option nat) p : proc :=
  if bool_decide (parent p = Some cur) then set_parent init p else p.
Lemma reparent_map cur init l w : reparent cur init l w =
  (map (adopted cur init) l, w || existsb (λ p, bool_decide (parent p = Some cur) && bool_decide (state p = ZOMBIE)) l).
Proof.
  revert w. induction l as [|p l IH]; intros w; simpl; [by rewrite orb_false_r|].
  unfold adopted at 1. case_bool_decide; rewrite IH; simpl; [|done]. by rewrite orb_assoc.
Qed.

Lemma adopted_parent cur init p : init ≠ Some cur → parent (adopted cur init p) ≠ Some cur.
Proof. unfold adopted. case_bool_decide; done. Qed.
Lemma adopted_same cur init p : state (adopted cur init p) = state p ∧ pid (adopted cur init p) = pid p ∧
  priority (adopted cur init p) = priority p ∧ kstack (adopted cur init p) = kstack p ∧
  pgdir (adopted cur init p) = pgdir p ∧ chan (adopted cur init p) = chan p.
Proof. unfold adopted. by case_bool_decide. Qed.

Lemma adopt_all_inv s cur : pt_inv s →
  pt_inv (mkpt (map (adopted cur (initproc s)) (procs s)) (nextpid s) (initproc s) (env s)).
Proof.
  intros Hi. apply tab_map; [done| | |]; intros p; destruct (adopted_same cur (initproc s) p) as (Hs & ? & ? & ? & ? & _).
  - done.
  - unfold live, ready, alive. by rewrite Hs.
  - unfold adopted. case_bool_decide as Hp; [right|by left]. simpl. rewrite Hp. eauto.
Qed.

Lemma wake_if_same ch p : parent (wake_if ch p) = parent p ∧ pid (wake_if ch p) = pid p ∧ chan (wake_if ch p) = chan p.
Proof. unfold wake_if. by case_bool_decide. Qed.

(** The table after an exit, entry by entry. *)
Definition after_exit (cur : nat) (init par : option nat) (wake : bool) p : proc :=
  (if wake then wake_if (ChProc <$> init) else id) (adopted cur init (wake_if (ChProc <$> par) p)).

Lemma after_exit_parent cur init par w p : parent (after_exit cur init par w p) =
  (if bool_decide (parent p = Some cur) then init else parent p).
Proof.
  unfold after_exit. destruct (wake_if_same (ChProc <$> par) p) as [Hp _].
  assert (parent ((if w then wake_if (ChProc <$> init) else id) (adopted cur init (wake_if (ChProc <$> par) p))) =
    parent (adopted cur init (wake_if (ChProc <$> par) p))) as -> by (destruct w; [apply wake_if_same|done]).
  unfold adopted. rewrite Hp. by case_bool_decide.
Qed.

Lemma after_exit_running cur init par w p : state p = RUNNING → state (after_exit cur init par w p) = RUNNING.
Proof.
  intros Hp. unfold after_exit.
  assert (∀ ch q, state q = RUNNING → wake_if ch q = q) as Hw.
  { intros ch q Hq. unfold wake_if. rewrite bool_decide_eq_false_2; [done|]. rewrite Hq. naive_solver. }
  rewrite (Hw _ p Hp). destruct (adopted_same cur init p) as [Hs _]. rewrite Hp in Hs. destruct w; [by rewrite Hw|done].
Qed.

Lemma insert_alter (f : proc → proc) (l : list proc) (i : nat) p : l !! i = Some p → <[i := f p]> l = alter f i l.
Proof. revert i. induction l as [|x l IH]; intros [|i] Hi; simplify_eq/=; [done|]. f_equal. by apply IH. Qed.

Lemma zombie_inv s i p : pt_inv s → procs s !! i = Some p → state p = RUNNING →
  (∀ j r, procs s !! j = Some r → parent r ≠ Some i) → initproc s ≠ Some i →
  pt_inv (mkpt (<[i := set_state ZOMBIE p]> (procs s)) (nextpid s) (initproc s) (env s)).
Proof.
  intros Hi Hp Hs Hno Hin. apply tab_insert; [by eapply lookup_lt_Some|done|].
  assert (live p) as Hl by (unfold live; by rewrite Hs). split; [|split; [|split]].
  - intros _. simpl. split; [by eapply (ti_pid _ _ _ Hi)|]. split; [by eapply (ti_prio _ _ _ Hi)|].
    intros j r Hj Hlr Hpp. by eapply (ti_uniq _ _ _ Hi).
  - intros _. eapply (ti_res _ _ _ Hi _ _ Hp). unfold ready. by rewrite Hs.
  - simpl. intros j Hj. split; [by unfold live|]. destruct (decide (j = i)) as [->|]; [by destruct (Hno i p)|].
    right. split; [done|]. by apply (ti_par _ _ _ Hi _ _ _ Hp).
  - right. done.
Qed.

(** The two sections of [exit]. *)
Lemma exit_files_spec s cur a s' : pt_inv s → exit_files cur s = Ok (a, s') → pt_inv s' ∧ initproc s' = initproc s ∧ initproc s ≠ Some cur ∧
  ∃ c fs, procs s !! cur = Some c ∧ procs s' = <[cur := set_files fs 0 c]> (procs s).
Proof.
  intros Hi Hr. unfold exit_files in Hr. apply bind_inv in Hr as (init & s0 & H0 & Hr). injection H0 as <- <-.
  case_bool_decide as Hinit; [done|]. apply bind_inv in Hr as (c & s0 & [Hc ->]%get_inv & Hr).
  apply bind_inv in Hr as (fs & s1 & (E1 & E2 & E3)%env_inv & Hr).
  apply bind_inv in Hr as ([] & s2 & (F1 & F2 & F3)%env_inv & Hr). rewrite E1 in F1. rewrite E2 in F2. rewrite E3 in F3.
  assert (pt_inv s2) as Hi2 by (unfold pt_inv; by rewrite F1, F2, F3). assert (procs s2 !! cur = Some c) as Hc2 by (by rewrite F1).
  rewrite (upd_run _ _ _ _ Hc2) in Hr. injection Hr as _ <-. split; [|split; [done|split; [done|exists c, fs; simpl; by rewrite F1]]].
  apply (pt_put s2 cur c); [done..|]. unfold okchange, live, ready, alive. simpl. naive_solver.
Qed.

(** The scan for zombie children is not disturbed by the first wakeup. *)
Lemma zombie_child s cur ch :
  existsb (λ p, bool_decide (parent p = Some cur) && bool_decide (state p = ZOMBIE)) (map (wake_if ch) (procs s)) = true ↔
  ∃ j q, procs s !! j = Some q ∧ parent q = Some cur ∧ state q = ZOMBIE.
Proof.
  rewrite existsb_exists. split.
  - intros (q & Hq & [Hp Hz]%andb_prop). apply bool_decide_eq_true in Hp, Hz.
    apply list_elem_of_In, list_elem_of_fmap in Hq as (r & -> & [j Hr]%list_elem_of_lookup).
    destruct (wake_if_same ch r) as [Hpar _]. rewrite Hpar in Hp.
    assert (state r = ZOMBIE) as Hrz by (revert Hz; unfold wake_if; by case_bool_decide). by eauto.
  - intros (j & q & Hj & Hp & Hz). exists q. split; [|by rewrite !bool_decide_eq_true_2].
    apply list_elem_of_In, list_elem_of_fmap. exists q. split; [|by apply list_elem_of_lookup; exists j].
    unfold wake_if. rewrite bool_decide_eq_false_2; [done|]. rewrite Hz. naive_solver.
Qed.

Lemma exit_zombie_spec s cur c a s' : pt_inv s → procs s !! cur = Some c → state c = RUNNING → initproc s ≠ Some cur →
  exit_zombie cur s = Ok (a, s') → pt_inv s' ∧ initproc s' = initproc s ∧ ∃ w,
    (w = true ↔ ∃ j q, procs s !! j = Some q ∧ parent q = Some cur ∧ state q = ZOMBIE) ∧
    procs s' = alter (set_state ZOMBIE) cur (map (after_exit cur (initproc s) (parent c) w) (procs s)).
Proof.
  intros Hi Hc Hcs Hinit Hr. unfold exit_zombie in Hr. apply bind_inv in Hr as (init & s0 & H0 & Hr). injection H0 as <- <-.
  rewrite (bind_ok _ _ _ _ _ (get_run _ _ _ Hc)) in Hr.
  apply bind_inv in Hr as ([] & s4 & H4 & Hr). pose proof (keeps_wakeup _ _ _ _ Hi H4) as Hi4.
  injection H4 as <-. simpl in *. apply bind_inv in Hr as (l & s5 & H5 & Hr). injection H5 as <- <-. simpl in Hr.
  rewrite reparent_map in Hr. simpl in Hr. set (w := existsb _ _) in Hr.
  apply bind_inv in Hr as ([] & s6 & H6 & Hr). injection H6 as <-. simpl in Hr.
  apply (adopt_all_inv _ cur) in Hi4. simpl in Hi4. apply bind_inv in Hr as ([] & s7 & H7 & Hr).
  assert (pt_inv s7 ∧ nextpid s7 = nextpid s ∧ initproc s7 = initproc s ∧
    procs s7 = map (after_exit cur (initproc s) (parent c) w) (procs s)) as (Hi7 & En & Ei & El).
  { unfold after_exit. destruct w.
    - split; [by eapply keeps_wakeup|]. injection H7 as <-. simpl. by rewrite !map_map.
    - injection H7 as <-. simpl. split; [done|]. by rewrite map_map. }
  apply upd_inv in Hr as (q & Hq & ->).
  assert (∀ j r, procs s7 !! j = Some r → parent r ≠ Some cur) as Hno.
  { intros j r Hj. rewrite El in Hj. apply list_lookup_fmap_Some in Hj as (r' & -> & Hr').
    rewrite after_exit_parent. by case_bool_decide. }
  assert (state q = RUNNING) as Hqs.
  { rewrite El in Hq. apply list_lookup_fmap_Some in Hq as (r & -> & Hr). simplify_eq. by apply after_exit_running. }
  split; [by apply zombie_inv; rewrite ?Ei|]. split; [done|]. exists w. split; [apply zombie_child|]. simpl.
  rewrite <- El. by rewrite (insert_alter _ _ _ _ Hq).
Qed.

Lemma exit_spec s cur c a s' : pt_inv s → procs s !! cur = Some c → state c = RUNNING →
  exit cur s = Ok (a, s') → pt_inv s' ∧ initproc s ≠ Some cur ∧ ∃ fs w,
    (w = true ↔ ∃ j q, procs s !! j = Some q ∧ parent q = Some cur ∧ state q = ZOMBIE) ∧
    procs s' = alter (set_state ZOMBIE) cur
      (map (after_exit cur (initproc s) (parent c) w) (<[cur := set_files fs 0 c]> (procs s))).
Proof.
  intros Hi Hc Hcs Hr. apply bind_inv in Hr as ([] & s1 & (Hi1 & E1 & Hinit & c' & fs & Hc' & Hl)%exit_files_spec & Hr); [|done]. simplify_eq.
  assert (procs s1 !! cur = Some (set_files fs 0 c)) as Hc1 by (rewrite Hl; apply list_lookup_insert_eq; by eapply lookup_lt_Some).
  destruct (exit_zombie_spec s1 cur _ a s' Hi1 Hc1 Hcs ltac:(by rewrite E1) Hr) as (Hi2 & _ & w & Hw & El).
  split; [done|]. split; [done|]. exists fs, w. rewrite <- Hl, <- E1. split; [|done]. rewrite Hw, Hl. split.
  - intros (j & q & [[-> ->]|[_ Hq]]%insert_cases & Hp & Hz); [simpl in Hz; congruence|by eauto].
  - intros (j & q & Hq & Hp & Hz). exists j, q. rewrite list_lookup_insert_ne; [done|]. intros ->. congruence.
Qed.
End ends.

Section steps.
Context {E : Type} `{HE : ProcEnv E}.
Implicit Types (s : ptable E) (p q : proc).

Lemma wait_inv s cur r s' : pt_inv s → running s cur → wait cur s = Ok (r, s') → pt_inv s'.
Proof.
  intros Hi Hrun Hr. unfold wait in Hr. apply bind_inv in Hr as (l & s0 & H0 & Hr). injection H0 as <- <-.
  destruct (find_slot _ _) as [i|] eqn:Hf.
  - apply find_slot_Some in Hf as (p & Hp & HP & _). apply bool_decide_eq_true in HP as [_ Hz].
    rewrite (bind_ok _ _ _ _ _ (get_run _ _ _ Hp)) in Hr.
    apply bind_inv in Hr as ([] & s1 & (E1 & E2 & E3)%env_inv & Hr).
    apply bind_inv in Hr as ([] & s2 & (F1 & F2 & F3)%env_inv & Hr). rewrite E1 in F1. rewrite E2 in F2. rewrite E3 in F3.
    apply bind_inv in Hr as ([] & s3 & (q & Hq & ->)%upd_inv & Hr). injection Hr as _ <-.
    assert (pt_inv s2) as Hi2 by (unfold pt_inv; by rewrite F1, F2, F3).
    refine (pt_put _ i q _ Hi2 Hq _). rewrite F1 in Hq. simplify_eq. unfold okchange, live, ready, alive. simpl. naive_solver.
  - apply bind_inv in Hr as (c & s1 & [Hc ->]%get_inv & Hr). destruct (_ || _); [by injection Hr as _ <-|].
    apply bind_inv in Hr as ([] & s1 & Hsl & Hr). injection Hr as _ <-. by eapply sleep_inv.
Qed.

Lemma sbrk_keeps cur arg : keeps (E:=E) (sys_sbrk cur arg).
Proof. unfold sys_sbrk. destruct arg; kstep. apply growproc_keeps. Qed.

(** ** The running system

    Where a process is in the kernel: in none of the calls with several sections,
    in [fork] with child [i] after a section, or in [exit] with its files closed. *)
Inductive kpos := Out | Slot (i : nat) | Stacked (i : nat) | Mapped (i : nat) | Filled (i : nat) | Exiting.
Record kernel : Type := mkkern { tab : ptable E; at_ : list kpos }.

(** A step is one section of a process that has the CPU, of a scheduler, or of an
    interrupt handler.  A process can be preempted ([yield]) or sleep anywhere; the
    calls with one section start from [Out]. *)
Inductive kstep (k : kernel) : kernel → Prop :=
| k_slot cur i s' : running (tab k) cur → at_ k !! cur = Some Out → alloc_slot (tab k) = Ok (Some i, s') →
    kstep k (mkkern s' (<[cur := Slot i]> (at_ k)))
| k_no_slot cur s' : running (tab k) cur → at_ k !! cur = Some Out → alloc_slot (tab k) = Ok (None, s') → kstep k (mkkern s' (at_ k))
| k_stack cur i (ok : bool) s' : running (tab k) cur → at_ k !! cur = Some (Slot i) → alloc_stack i (tab k) = Ok (ok, s') →
    kstep k (mkkern s' (<[cur := if ok then Stacked i else Out]> (at_ k)))
| k_mem cur i (ok : bool) s' : running (tab k) cur → at_ k !! cur = Some (Stacked i) → fork_mem cur i (tab k) = Ok (ok, s') →
    kstep k (mkkern s' (<[cur := if ok then Mapped i else Out]> (at_ k)))
| k_fill cur i r s' : running (tab k) cur → at_ k !! cur = Some (Mapped i) → fork_fill cur i (tab k) = Ok (r, s') →
    kstep k (mkkern s' (<[cur := Filled i]> (at_ k)))
| k_run cur i r s' : running (tab k) cur → at_ k !! cur = Some (Filled i) → fork_run i (tab k) = Ok (r, s') →
    kstep k (mkkern s' (<[cur := Out]> (at_ k)))
| k_exit cur r s' : running (tab k) cur → at_ k !! cur = Some Out → exit_files cur (tab k) = Ok (r, s') →
    kstep k (mkkern s' (<[cur := Exiting]> (at_ k)))
| k_zombie cur r s' : running (tab k) cur → at_ k !! cur = Some Exiting → exit_zombie cur (tab k) = Ok (r, s') →
    kstep k (mkkern s' (<[cur := Out]> (at_ k)))
| k_wait cur r s' : running (tab k) cur → at_ k !! cur = Some Out → wait cur (tab k) = Ok (r, s') → kstep k (mkkern s' (at_ k))
| k_sbrk cur arg r s' : running (tab k) cur → at_ k !! cur = Some Out → sys_sbrk cur arg (tab k) = Ok (r, s') → kstep k (mkkern s' (at_ k))
| k_priority cur arg r s' : running (tab k) cur → at_ k !! cur = Some Out → sys_setpriority cur arg (tab k) = Ok (r, s') → kstep k (mkkern s' (at_ k))
| k_kill t r s' : kill t (tab k) = Ok (r, s') → kstep k (mkkern s' (at_ k))
| k_sleep cur ch r s' : running (tab k) cur → sleep cur ch (tab k) = Ok (r, s') → kstep k (mkkern s' (at_ k))
| k_resume cur r s' : running (tab k) cur → sleep_resume cur (tab k) = Ok (r, s') → kstep k (mkkern s' (at_ k))
| k_yield cur r s' : running (tab k) cur → yield cur (tab k) = Ok (r, s') → kstep k (mkkern s' (at_ k))
| k_wakeup ch r s' : wakeup ch (tab k) = Ok (r, s') → kstep k (mkkern s' (at_ k))
| k_sched sc r s' : scheduler sc (tab k) = Ok (r, s') → kstep k (mkkern s' (at_ k))
| k_sched_old pos r s' : scheduler_old pos (tab k) = Ok (r, s') → kstep k (mkkern s' (at_ k)).

(** *** What a section leaves alone *)

(** An EMBRYO keeps what its maker gave it, and a process in the middle of a call
    stays alive. *)
Definition tame p q : Prop :=
  (state p = EMBRYO → state q = EMBRYO ∧ kstack q = kstack p ∧ pgdir q = pgdir p ∧ (parent p = None → parent q = None)) ∧
  (alive p → alive q).
Definition tamed s s' : Prop :=
  initproc s' = initproc s ∧ ∀ i p, procs s !! i = Some p → ∃ q, procs s' !! i = Some q ∧ tame p q.
#[local] Instance tamed_preorder : PreOrder tamed.
Proof using.
  split.
  - intros s. split; [done|]. intros i p Hp. exists p. split; [done|]. by split.
  - intros s s1 s2 [E1 H1] [E2 H2]. split; [congruence|]. intros i p Hp. destruct (H1 i p Hp) as (q & Hq & A1 & A2).
    destruct (H2 i q Hq) as (r & Hr & B1 & B2). exists r. split; [done|]. split; [|auto].
    intros Hs. destruct (A1 Hs) as (S1 & K1 & D1 & P1). destruct (B1 S1) as (S2 & K2 & D2 & P2). split_and!; [done|congruence|congruence|auto].
Qed.
Lemma tame_put s i p q : procs s !! i = Some p → tame p q → tamed s (mkpt (<[i := q]> (procs s)) (nextpid s) (initproc s) (env s)).
Proof using.
  intros Hp Ht. split; [done|]. intros j r Hr. simpl. destruct (decide (j = i)) as [->|Hne].
  - simplify_eq. exists q. split; [|done]. apply list_lookup_insert_eq. by eapply lookup_lt_Some.
  - exists r. rewrite list_lookup_insert_ne by done. split; [done|]. by split.
Qed.
Lemma tame_upd i f s a s' : (∀ p, procs s !! i = Some p → tame p (f p)) → upd_proc i f s = Ok (a, s') → tamed s s'.
Proof using. intros Hf (p & Hp & ->)%upd_inv. by apply (tame_put s i p); [|apply Hf]. Qed.
Lemma tame_env {A} (m : M E A) s a s' : on_env m s = Ok (a, s') → tamed s s'.
Proof using. intros (E1 & _ & E3)%env_inv. split; [done|]. intros i p Hp. exists p. rewrite E1. split; [done|]. by split. Qed.
Lemma tame_ready p v : state p ≠ EMBRYO → (alive p → v ≠ UNUSED ∧ v ≠ EMBRYO ∧ v ≠ ZOMBIE) → tame p (set_state v p).
Proof using. intros Hs Ha. by split. Qed.
Lemma tame_wake ch s a s' : wakeup1 ch s = Ok (a, s') → tamed s s'.
Proof using.
  intros Hr. injection Hr as _ <-. split; [done|]. intros i p Hp. exists (wake_if ch p). simpl. split; [change (map ?f ?l) with (f <$> l); by rewrite list_lookup_fmap, Hp|].
  unfold wake_if. case_bool_decide as Hc; [|by split]. apply tame_ready; [destruct Hc as [-> _]; done|done].
Qed.
Lemma yield_tame cur s a s' : running s cur → yield cur s = Ok (a, s') → tamed s s'.
Proof using. intros (c & Hc & Hs). apply tame_upd. intros p Hp. simplify_eq. apply tame_ready; [by rewrite Hs|done]. Qed.
Lemma sleep_tame cur ch s a s' : running s cur → sleep cur ch s = Ok (a, s') → tamed s s'.
Proof using.
  intros (c & Hc & Hs) Hr. apply bind_inv in Hr as ([] & s1 & H1 & H2). transitivity s1; [by eapply tame_upd; [|exact H1]|].
  apply upd_inv in H1 as (p & Hp & ->). simplify_eq. eapply tame_upd; [|exact H2]. intros p Hp'. simpl in Hp'.
  rewrite list_lookup_insert_eq in Hp' by (by eapply lookup_lt_Some). simplify_eq. apply tame_ready; [simpl; by rewrite Hs|done].
Qed.
Lemma kill_tame t s a s' : kill t s = Ok (a, s') → tamed s s'.
Proof using.
  intros Hr. unfold kill in Hr. apply bind_inv in Hr as (l & s0 & H0 & Hr). injection H0 as <- <-. destruct (find_slot _ _) as [i|]; [|by injection Hr as _ <-].
  apply bind_inv in Hr as ([] & s1 & H1 & Hr). apply bind_inv in Hr as ([] & s2 & H2 & Hr). injection Hr as _ <-.
  transitivity s1; [by eapply tame_upd; [|exact H1]|]. eapply tame_upd; [|exact H2]. intros p _. cbv beta. case_bool_decide as Hs; [|by split]. apply tame_ready; [by rewrite Hs|done].
Qed.
Lemma growproc_tame cur n s a s' : growproc cur n s = Ok (a, s') → tamed s s'.
Proof using.
  intros Hr. unfold growproc in Hr. apply bind_inv in Hr as (c & s0 & [_ ->]%get_inv & Hr). apply bind_inv in Hr as (z & s1 & H1 & Hr).
  transitivity s1. { clear Hr. case_bool_decide; [by eapply tame_env|]. case_bool_decide; [by eapply tame_env|]. by injection H1 as _ <-. }
  case_bool_decide; [by injection Hr as _ <-|]. apply bind_inv in Hr as ([] & s2 & H2 & Hr). transitivity s2; [by eapply tame_upd; [|exact H2]|].
  apply bind_inv in Hr as (c' & s3 & [_ ->]%get_inv & Hr). apply bind_inv in Hr as ([] & s3 & H3 & Hr). injection Hr as _ <-.
  clear H1. unfold switchuvm_check in H3. repeat case_bool_decide; try done. by injection H3 as <-.
Qed.
Lemma sbrk_tame cur arg s a s' : sys_sbrk cur arg s = Ok (a, s') → tamed s s'.
Proof using.
  intros Hr. unfold sys_sbrk in Hr. destruct arg as [n|]; [|by injection Hr as _ <-]. apply bind_inv in Hr as (c & s0 & [_ ->]%get_inv & Hr).
  apply bind_inv in Hr as (r & s1 & H1%growproc_tame & Hr). case_bool_decide; by injection Hr as _ <-.
Qed.
Lemma priority_tame cur arg s a s' : running s cur → sys_setpriority cur arg s = Ok (a, s') → tamed s s'.
Proof using.
  intros (c & Hc & Hs) Hr. unfold sys_setpriority in Hr. apply bind_inv in Hr as (v & s0 & H0 & Hr). unfold lift in H0. destruct (of_option arg); [|done]. injection H0 as -> <-.
  destruct (_ || _); [by injection Hr as _ <-|]. rewrite (bind_ok _ _ _ _ _ (get_run _ _ _ Hc)), (bind_ok _ _ _ _ _ (upd_run _ _ _ _ Hc)) in Hr.
  apply bind_inv in Hr as ([] & s1 & H1 & Hr). injection Hr as _ <-. etransitivity; [by apply (tame_put s cur c (set_priority v c)); [|split]|].
  revert H1. case_bool_decide; [|intros H1; by injection H1 as <-]. apply yield_tame. exists (set_priority v c). split; [|done]. simpl. apply list_lookup_insert_eq. by eapply lookup_lt_Some.
Qed.
Lemma dispatch_tame i p s a s' : procs s !! i = Some p → state p = RUNNABLE → dispatch i s = Ok (a, s') → tamed s s'.
Proof using.
  intros Hp Hs Hr. unfold dispatch in Hr. rewrite (bind_ok _ _ _ _ _ (get_run _ _ _ Hp)) in Hr. apply bind_inv in Hr as ([] & s1 & H1 & Hr).
  unfold switchuvm_check in H1. repeat case_bool_decide; try done. injection H1 as <-. eapply tame_upd; [|exact Hr]. intros q Hq. simplify_eq. apply tame_ready; [by rewrite Hs|done].
Qed.
Lemma sched_tame sc s a s' : scheduler sc s = Ok (a, s') → tamed s s'.
Proof using.
  intros Hr. unfold scheduler in Hr. apply bind_inv in Hr as (l & s0 & H0 & Hr). injection H0 as <- <-.
  destruct (match sc with None => _ | Some x => x end) as [pos m]. destruct (pick (procs s) pos m) as [i|] eqn:Hp; [|by injection Hr as _ <-].
  apply bind_inv in Hr as ([] & s1 & H1 & Hr). injection Hr as _ <-. apply pick_Some in Hp as (p & Hp & Hs & _). by eapply dispatch_tame.
Qed.
Lemma sched_old_tame pos s a s' : scheduler_old pos s = Ok (a, s') → tamed s s'.
Proof using.
  intros Hr. unfold scheduler_old in Hr. apply bind_inv in Hr as (l & s0 & H0 & Hr). injection H0 as <- <-.
  destruct (find_slot _ _) as [i|] eqn:Hp; [|by injection Hr as _ <-]. apply bind_inv in Hr as ([] & s1 & H1 & Hr). injection Hr as _ <-.
  apply find_slot_Some in Hp as (p & Hp & Hs & _). rewrite lookup_drop in Hp. apply bool_decide_eq_true in Hs. by eapply dispatch_tame.
Qed.
Lemma wait_tame cur s a s' : running s cur → wait cur s = Ok (a, s') → tamed s s'.
Proof using.
  intros Hrun Hr. unfold wait in Hr. apply bind_inv in Hr as (l & s0 & H0 & Hr). injection H0 as <- <-. destruct (find_slot _ _) as [i|] eqn:Hf.
  - apply find_slot_Some in Hf as (p & Hp & HP & _). apply bool_decide_eq_true in HP as [_ Hz]. rewrite (bind_ok _ _ _ _ _ (get_run _ _ _ Hp)) in Hr.
    apply bind_inv in Hr as ([] & s1 & H1 & Hr). pose proof (env_inv _ _ _ _ H1) as (E1 & _). apply tame_env in H1.
    apply bind_inv in Hr as ([] & s2 & H2 & Hr). pose proof (env_inv _ _ _ _ H2) as (E2 & _). apply tame_env in H2.
    apply bind_inv in Hr as ([] & s3 & H3 & Hr). injection Hr as _ <-. transitivity s1; [done|]. transitivity s2; [done|]. eapply tame_upd; [|exact H3].
    rewrite E2, E1. intros q Hq. simplify_eq. split; [by rewrite Hz|]. intros (_ & _ & Hn). by destruct Hn.
  - apply bind_inv in Hr as (c & s1 & [Hc ->]%get_inv & Hr). destruct (_ || _); [by injection Hr as _ <-|].
    apply bind_inv in Hr as ([] & s1 & Hsl & Hr). injection Hr as _ <-. by eapply sleep_tame.
Qed.

(** *** The invariant of the system *)
Definition child (x : kpos) : option nat :=
  match x with Slot i | Stacked i | Mapped i | Filled i => Some i | Out | Exiting => None end.
(** What is done of a child at a position. *)
Definition made (x : kpos) q : Prop :=
  match x with
  | Slot _ => parent q = None
  | Stacked _ => parent q = None ∧ kstack q ≠ 0
  | Mapped _ | Filled _ => kstack q ≠ 0 ∧ pgdir q ≠ 0
  | Out | Exiting => True
  end.
Record kinv (k : kernel) : Prop := {
  ki_tab : pt_inv (tab k);
  ki_busy : ∀ cur x, at_ k !! cur = Some x → x ≠ Out → ∃ c, procs (tab k) !! cur = Some c ∧ alive c;
  ki_exit : ∀ cur, at_ k !! cur = Some Exiting → initproc (tab k) ≠ Some cur;
  ki_child : ∀ cur x i, at_ k !! cur = Some x → child x = Some i → ∃ q, procs (tab k) !! i = Some q ∧ state q = EMBRYO ∧ made x q;
  ki_own : ∀ cur cur' x x' i, at_ k !! cur = Some x → at_ k !! cur' = Some x' → child x = Some i → child x' = Some i → cur = cur' }.

Lemma kinv_tamed k s' : kinv k → pt_inv s' → tamed (tab k) s' → kinv (mkkern s' (at_ k)).
Proof using.
  intros [H1 H2 H3 H4 H5] Hi [Ei Ht]. split; cbn [tab at_].
  - done.
  - intros cur x Hx Hn. destruct (H2 cur x Hx Hn) as (c & Hc & Ha). destruct (Ht cur c Hc) as (c' & Hc' & _ & Hal). eauto.
  - intros cur Hx. rewrite Ei. by apply H3.
  - intros cur x i Hx Hch. destruct (H4 cur x i Hx Hch) as (q & Hq & Hs & Hm). destruct (Ht i q Hq) as (q' & Hq' & Hem & _).
    destruct (Hem Hs) as (S & K & D & P). exists q'. split; [done|]. split; [done|]. destruct x; simpl in *; rewrite ?K, ?D; naive_solver.
  - done.
Qed.

(** A section of [fork] works on its own child and nothing else. *)
Lemma kinv_own_child k cur x i q y q' s' : kinv k → at_ k !! cur = Some x → child x = Some i → procs (tab k) !! i = Some q →
  pt_inv s' → initproc s' = initproc (tab k) → procs s' = <[i := q']> (procs (tab k)) →
  y = Out ∨ (child y = Some i ∧ state q' = EMBRYO ∧ made y q') → kinv (mkkern s' (<[cur := y]> (at_ k))).
Proof using.
  intros [H1 H2 H3 H4 H5] Hx Hch Hq Hi Ei El Hy. destruct (H4 cur x i Hx Hch) as (q0 & Hq0 & Hqs & _). simplify_eq.
  assert (∀ j c, procs (tab k) !! j = Some c → alive c → procs s' !! j = Some c) as Hal.
  { intros j c Hc Ha. rewrite El, list_lookup_insert_ne; [done|]. intros ->. simplify_eq. by destruct Ha as (_ & ? & _). }
  assert (child Exiting = None) as Hce by done. split; cbn [tab at_].
  - done.
  - intros j z [[-> ->]|[_ Hz]]%insert_cases Hn.
    + destruct (H2 cur x Hx) as (c & Hc & Ha); [by intros ->|]. eauto.
    + destruct (H2 j z Hz Hn) as (c & Hc & Ha). eauto.
  - intros j [[-> Ez]|[_ Hz]]%insert_cases; rewrite Ei; [|by apply H3]. destruct Hy as [->|(Hc & _)]; [done|]. by rewrite <- Ez in Hc.
  - intros j z i' [[-> ->]|[Hj Hz]]%insert_cases Hc.
    + destruct Hy as [->|(Hcy & Hs & Hm)]; [done|]. simplify_eq. exists q'. split; [|done]. rewrite El. apply list_lookup_insert_eq. by eapply lookup_lt_Some.
    + destruct (H4 j z i' Hz Hc) as (r & Hr & Hrs & Hm). exists r. split; [|done]. rewrite El, list_lookup_insert_ne; [done|]. intros ->.
      apply Hj. by eapply (H5 j cur z x i').
  - intros j j' z z' i' [[-> ->]|[Hj Hz]]%insert_cases [[-> ->]|[Hj' Hz']]%insert_cases Hc Hc'; [done| | |by eapply H5].
    + destruct Hy as [->|(Hcy & _)]; [done|]. simplify_eq. by eapply (H5 cur j' x z').
    + destruct Hy as [->|(Hcy & _)]; [done|]. simplify_eq. by eapply (H5 j cur z x).
Qed.
(** The table at boot: all zero. *)
Definition noproc : proc :=
  mkproc 0 0 0 UNUSED 0 None (replicate 19 0) None false (replicate NOFILE 0) 0 "" 0.
Definition boot (e : E) : ptable E := mkpt (replicate NPROC noproc) 1 None e.

Lemma boot_inv e : pt_inv (boot e).
Proof.
  assert (∀ i p, replicate NPROC noproc !! i = Some p → p = noproc) as Hc.
  { intros i p Hp. by apply lookup_replicate in Hp as [-> _]. }
  split; simpl; try done.
  - by intros i p ->%Hc Hl.
  - by intros i j p q ->%Hc _ Hl.
  - by intros i p ->%Hc Hl.
  - by intros i p ->%Hc [Hl _].
  - by intros i p j ->%Hc Hl.
Qed.

(** Steps that move a process between positions. *)
Lemma slot_inv k cur i s' : kinv k → running (tab k) cur → at_ k !! cur = Some Out → alloc_slot (tab k) = Ok (Some i, s') →
  kinv (mkkern s' (<[cur := Slot i]> (at_ k))).
Proof using.
  intros [H1 H2 H3 H4 H5] (c & Hc & Hcs) Hx (Hi & Ei & p & Hp & Hps & Hpar & El)%alloc_slot_spec; [|done]. pose proof (lookup_lt_Some _ _ _ Hp) as Hlt.
  assert (∀ j r, procs (tab k) !! j = Some r → state r ≠ UNUSED → procs s' !! j = Some r ∧ j ≠ i) as Hold.
  { intros j r Hr Hs. assert (j ≠ i) by (intros ->; congruence). by rewrite El, list_lookup_insert_ne by done. }
  split; cbn [tab at_].
  - done.
  - intros j z [[-> ->]|[_ Hz]]%insert_cases Hn.
    + exists c. split; [apply Hold; [done|by rewrite Hcs]|unfold alive; by rewrite Hcs].
    + destruct (H2 j z Hz Hn) as (r & Hr & Ha). exists r. split; [|done]. apply Hold; [done|apply Ha].
  - intros j [[-> Ez]|[_ Hz]]%insert_cases; [done|]. rewrite Ei. by apply H3.
  - intros j z i' [[-> ->]|[Hj Hz]]%insert_cases Hch.
    + injection Hch as <-. exists (embryo (nextpid (tab k)) p). rewrite El, list_lookup_insert_eq by done. split_and!; done.
    + destruct (H4 j z i' Hz Hch) as (r & Hr & Hrs & Hm). exists r. split; [|done]. apply Hold; [done|by rewrite Hrs].
  - assert (∀ j z, at_ k !! j = Some z → child z ≠ Some i) as Hnew.
    { intros j z Hz Hch. destruct (H4 j z i Hz Hch) as (r & Hr & Hrs & _). congruence. }
    intros j j' z z' i' [[-> ->]|[Hj Hz]]%insert_cases [[-> ->]|[Hj' Hz']]%insert_cases Hc1 Hc2; [done| | |by eapply H5].
    + injection Hc1 as <-. by destruct (Hnew j' z').
    + injection Hc2 as <-. by destruct (Hnew j z).
Qed.

Lemma exiting_inv k cur r s' : kinv k → running (tab k) cur → at_ k !! cur = Some Out → exit_files cur (tab k) = Ok (r, s') →
  kinv (mkkern s' (<[cur := Exiting]> (at_ k))).
Proof using.
  intros Hk (c & Hc & Hcs) Hx (Hi & Ei & Hin & c' & fs & Hc' & El)%exit_files_spec; [|apply Hk]. simplify_eq.
  assert (tamed (tab k) s') as Ht.
  { split; [done|]. intros i p Hp. rewrite El. destruct (decide (i = cur)) as [->|Hne].
    - simplify_eq. exists (set_files fs 0 c). split; [apply list_lookup_insert_eq; by eapply lookup_lt_Some|by split].
    - exists p. rewrite list_lookup_insert_ne by done. split; [done|by split]. }
  destruct (kinv_tamed k s' Hk Hi Ht) as [K1 K2 K3 K4 K5]. cbn [tab at_] in *. split; cbn [tab at_].
  - done.
  - intros j z [[-> ->]|[_ Hz]]%insert_cases Hn; [|by eapply K2].
    exists (set_files fs 0 c). split; [rewrite El; apply list_lookup_insert_eq; by eapply lookup_lt_Some|unfold alive; simpl; by rewrite Hcs].
  - intros j [[-> _]|[_ Hz]]%insert_cases; [by rewrite Ei|by apply K3].
  - intros j z i [[-> ->]|[_ Hz]]%insert_cases Hch; [done|by eapply K4].
  - intros j j' z z' i [[-> ->]|[_ Hz]]%insert_cases [[-> ->]|[_ Hz']]%insert_cases Hc1 Hc2; [done..|by eapply K5].
Qed.

Lemma after_exit_tame cur init par w p : tame p (after_exit cur init par w p).
Proof using.
  assert (∀ ch q, tame q (wake_if ch q)) as Hw.
  { intros ch q. unfold wake_if. case_bool_decide as Hc; [|by split]. apply tame_ready; [destruct Hc as [-> _]; done|done]. }
  assert (∀ q, tame q (adopted cur init q)) as Had.
  { intros q. unfold adopted. case_bool_decide as Hc; [|by split]. split; [intros Hs; split_and!; [done..|by rewrite Hc]|done]. }
  assert (∀ p q r, tame p q → tame q r → tame p r) as Htr.
  { intros x y z [A1 A2] [B1 B2]. split; [|auto]. intros Hs. destruct (A1 Hs) as (S1 & K1 & D1 & P1). destruct (B1 S1) as (S2 & K2 & D2 & P2).
    split_and!; [done|congruence|congruence|auto]. }
  unfold after_exit. eapply Htr; [apply (Hw (ChProc <$> par))|]. eapply Htr; [apply Had|]. destruct w; [apply Hw|by split].
Qed.

Lemma zombie_step_inv k cur r s' : kinv k → running (tab k) cur → at_ k !! cur = Some Exiting → exit_zombie cur (tab k) = Ok (r, s') →
  kinv (mkkern s' (<[cur := Out]> (at_ k))).
Proof using.
  intros Hk (c & Hc & Hcs) Hx Hr. destruct (exit_zombie_spec _ _ _ _ _ (ki_tab _ Hk) Hc Hcs (ki_exit _ Hk _ Hx) Hr) as (Hi & Ei & w & _ & El).
  set (g := after_exit cur (initproc (tab k)) (parent c) w) in *.
  assert (∀ i p, i ≠ cur → procs (tab k) !! i = Some p → procs s' !! i = Some (g p)) as Hl.
  { intros i p Hne Hp. rewrite El, list_lookup_alter_ne by done. change (map g ?l) with (g <$> l). by rewrite list_lookup_fmap, Hp. }
  destruct Hk as [H1 H2 H3 H4 H5]. split; cbn [tab at_].
  - done.
  - intros j z [[-> ->]|[Hj Hz]]%insert_cases Hn; [done|]. destruct (H2 j z Hz Hn) as (p & Hp & Ha). exists (g p). split; [by apply Hl|]. by apply after_exit_tame.
  - intros j [[-> Ez]|[_ Hz]]%insert_cases; [done|]. rewrite Ei. by apply H3.
  - intros j z i [[-> ->]|[Hj Hz]]%insert_cases Hch; [done|]. destruct (H4 j z i Hz Hch) as (q & Hq & Hs & Hm).
    assert (i ≠ cur) as Hne by (intros ->; congruence). exists (g q). split; [by apply Hl|].
    destruct (proj1 (after_exit_tame cur (initproc (tab k)) (parent c) w q) Hs) as (S & K & D & P). fold (g q) in S, K, D, P.
    split; [done|]. destruct z; simpl in *; rewrite ?K, ?D; naive_solver.
  - intros j j' z z' i [[-> ->]|[_ Hz]]%insert_cases [[-> ->]|[_ Hz']]%insert_cases Hc1 Hc2; [done..|by eapply H5].
Qed.

Lemma kstep_inv k k' : kinv k → kstep k k' → kinv k'.
Proof using.
  intros Hk Hst. pose proof (ki_tab _ Hk) as Hi.
  destruct Hst as [cur i s' Hrun Hx Hr|cur s' Hrun Hx Hr|cur i ok s' Hrun Hx Hr|cur i ok s' Hrun Hx Hr|cur i r s' Hrun Hx Hr|cur i r s' Hrun Hx Hr|
    cur r s' Hrun Hx Hr|cur r s' Hrun Hx Hr|cur r s' Hrun Hx Hr|cur arg r s' Hrun Hx Hr|cur arg r s' Hrun Hx Hr|t r s' Hr|cur ch r s' Hrun Hr|
    cur r s' Hrun Hr|cur r s' Hrun Hr|ch r s' Hr|sc r s' Hr|pos r s' Hr].
  - by eapply slot_inv.
  - apply alloc_slot_spec in Hr as (Hi' & _ & ->); [|done]. by apply kinv_tamed.
  - destruct (ki_child _ Hk _ _ i Hx eq_refl) as (q & Hq & Hs & Hp). destruct (alloc_stack_spec _ _ _ _ _ Hi Hq Hs Hp Hr) as (Hi' & Ei & d & El & Hd).
    eapply (kinv_own_child k cur (Slot i) i q); try done. destruct ok; [right; simpl; auto|by left].
  - destruct (ki_child _ Hk _ _ i Hx eq_refl) as (q & Hq & Hs & Hp & Hks). destruct (fork_mem_spec _ _ _ _ _ _ Hi Hq Hs Hp Hr) as (Hi' & Ei & d & El & Hd).
    eapply (kinv_own_child k cur (Stacked i) i q); try done. destruct ok; [right; simpl; auto|by left].
  - destruct (ki_child _ Hk _ _ i Hx eq_refl) as (q & Hq & Hs & Hks & Hpg). destruct (ki_busy _ Hk _ _ Hx ltac:(done)) as (c & Hc & Ha).
    destruct (fork_fill_spec _ _ _ _ _ _ _ Hi Hc Ha Hq Hs Hr) as (Hi' & Ei & fs & wd & El). eapply (kinv_own_child k cur (Mapped i) i q); try done. by right.
  - destruct (ki_child _ Hk _ _ i Hx eq_refl) as (q & Hq & Hs & Hks & Hpg). destruct (fork_run_spec _ _ _ _ _ Hi Hq Hs Hks Hpg Hr) as (Hi' & Ei & _ & El).
    eapply (kinv_own_child k cur (Filled i) i q); try done. by left.
  - by eapply exiting_inv.
  - by eapply zombie_step_inv.
  - apply kinv_tamed; [done|by eapply wait_inv|by eapply wait_tame].
  - apply kinv_tamed; [done|by eapply sbrk_keeps|by eapply sbrk_tame].
  - apply kinv_tamed; [done|by eapply setpriority_inv|by eapply priority_tame].
  - apply kinv_tamed; [done|by eapply kill_keeps|by eapply kill_tame].
  - apply kinv_tamed; [done|by eapply sleep_inv|by eapply sleep_tame].
  - apply kinv_tamed; [done|by eapply sleep_resume_keeps|eapply tame_upd; [|exact Hr]; by intros p _].
  - apply kinv_tamed; [done|by eapply yield_inv|by eapply yield_tame].
  - apply kinv_tamed; [done|by eapply keeps_wakeup|by eapply tame_wake].
  - apply kinv_tamed; [done|by eapply scheduler_inv|by eapply sched_tame].
  - apply kinv_tamed; [done|by eapply scheduler_old_inv|by eapply sched_old_tame].
Qed.

(** The system once [userinit] has made the first process. *)
Definition kernel0 s : kernel := mkkern s (replicate NPROC Out).
Definition reachable e (k : kernel) : Prop := ∃ s0, userinit (boot e) = Ok (tt, s0) ∧ rtc kstep (kernel0 s0) k.

Lemma kernel0_inv s : pt_inv s → kinv (kernel0 s).
Proof using.
  intros Hi. assert (∀ i x, replicate NPROC Out !! i = Some x → x = Out) as Hc by (intros i x Hx; by apply lookup_replicate in Hx as [-> _]).
  split; cbn [kernel0 tab at_].
  - done.
  - by intros cur x ->%Hc.
  - by intros cur H%Hc.
  - by intros cur x i ->%Hc.
  - by intros cur cur' x x' i ->%Hc.
Qed.
Lemma reachable_inv e k : reachable e k → kinv k.
Proof using.
  intros (s0 & H0 & Hst). assert (kinv (kernel0 s0)) as Hk by (apply kernel0_inv; eapply userinit_inv; [apply boot_inv|exact H0]).
  clear H0. induction Hst as [|k1 k2 k3 H12 _ IH]; [done|]. apply IH. by eapply kstep_inv.
Qed.

(** ** The priority scheduler *)
Lemma max_priority_acc l m :
  let f := λ m p, if bool_decide (state p ≠ RUNNABLE) then m else if bool_decide (priority p < m) then priority p else m in
  foldl f m l ≤ m ∧ (∀ p, p ∈ l → state p = RUNNABLE → foldl f m l ≤ priority p) ∧
  (foldl f m l = m ∨ ∃ p, p ∈ l ∧ state p = RUNNABLE ∧ priority p = foldl f m l).
Proof.
  intros f. revert m. induction l as [|p l IH]; intros m; simpl.
  { split; [done|]. split; [by intros p ?%elem_of_nil|by left]. }
  destruct (IH (f m p)) as (H1 & H2 & H3).
  assert (f m p ≤ m ∧ (state p = RUNNABLE → f m p ≤ priority p) ∧
    (f m p = m ∨ (state p = RUNNABLE ∧ priority p = f m p))) as (F1 & F2 & F3).
  { unfold f. case_bool_decide as Hs; [by split; [done|split; [done|by left]]|].
    case_bool_decide; split_and!; try lia; auto. }
  split; [lia|]. split.
  - intros q [->|Hq]%elem_of_cons Hs; [specialize (F2 Hs); lia|by apply H2].
  - destruct H3 as [->|(q & Hq & ?)]; [|right; exists q; split; [by right|done]].
    destruct F3 as [->|[? ?]]; [by left|]. right. exists p. split; [by left|done].
Qed.

Lemma max_priority_spec l : (∀ p, p ∈ l → live p → 0 ≤ priority p ≤ 200) →
  (∃ p, p ∈ l ∧ state p = RUNNABLE) →
  (∀ p, p ∈ l → state p = RUNNABLE → max_priority l ≤ priority p) ∧
  ∃ p, p ∈ l ∧ state p = RUNNABLE ∧ priority p = max_priority l.
Proof.
  intros Hp (p & Hpl & Hs). destruct (max_priority_acc l 201) as (H1 & H2 & H3).
  split; [done|]. destruct H3 as [H3|]; [|done]. specialize (H2 p Hpl Hs).
  assert (priority p ≤ 200) by (apply Hp; [done|unfold live; by rewrite Hs]).
  exfalso. revert H2. rewrite H3. lia.
Qed.

Lemma pick_None l m : pick l 0 m = None → ∀ p, p ∈ l → state p = RUNNABLE → priority p ≠ m.
Proof.
  unfold pick. intros Hf%fmap_None p [j Hj]%list_elem_of_lookup Hs Hm.
  pose proof (find_slot_None _ _ Hf j p) as Hn. rewrite lookup_drop in Hn. specialize (Hn Hj).
  apply bool_decide_eq_false in Hn. by destruct Hn.
Qed.
End steps.

(** ** Exit and wait, entry by entry *)
Section family.
Context {E : Type} `{HE : ProcEnv E}.
Implicit Types (s : ptable E) (p q : proc).

Lemma after_exit_fields cur init par w p : pid (after_exit cur init par w p) = pid p ∧
  chan (after_exit cur init par w p) = chan p.
Proof. unfold after_exit, adopted, wake_if. destruct w; simpl; repeat case_bool_decide; done. Qed.

Lemma after_exit_wakes cur init par w p i : state p = SLEEPING → chan p = Some (ChProc i) →
  par = Some i ∨ (w = true ∧ init = Some i) → state (after_exit cur init par w p) = RUNNABLE.
Proof.
  intros Hs Hc Hor. unfold after_exit. set (q := wake_if (ChProc <$> par) p).
  assert (state q = RUNNABLE ∨ (state q = SLEEPING ∧ par ≠ Some i)) as Hq.
  { subst q. unfold wake_if. case_bool_decide as Hb; [by left|right]. split; [done|]. intros ->. apply Hb. by rewrite Hc. }
  assert (chan q = Some (ChProc i)) as Hcq by (rewrite <- Hc; apply wake_if_same).
  destruct (adopted_same cur init q) as (Ha & _ & _ & _ & _ & Hca). rewrite <- Hca in Hcq. clear Hca.
  rewrite <- Ha in Hq. revert Hq Hcq. generalize (adopted cur init q). clear -Hor. intros r Hq Hcq.
  destruct w; simpl; [|naive_solver]. unfold wake_if. case_bool_decide as Hb; [done|].
  destruct Hq as [|[Hs Hn]]; [done|]. destruct Hb. split; [done|]. rewrite Hcq. naive_solver.
Qed.

Lemma exit_lookup s cur c a s' : pt_inv s → procs s !! cur = Some c → state c = RUNNING → exit cur s = Ok (a, s') →
  ∃ w, (∀ j q, procs s !! j = Some q → parent q = Some cur → state q = ZOMBIE → w = true) ∧
  ∃ c', procs s' !! cur = Some c' ∧ state c' = ZOMBIE ∧ pid c' = pid c ∧
    (parent c' = if bool_decide (parent c = Some cur) then initproc s else parent c) ∧
  ∀ j q, j ≠ cur → procs s !! j = Some q → procs s' !! j = Some (after_exit cur (initproc s) (parent c) w q).
Proof.
  intros Hi Hc Hs Hr. destruct (exit_spec _ _ _ _ _ Hi Hc Hs Hr) as (_ & _ & fs & w & Hw & El).
  exists w. split; [intros; apply Hw; eauto|].
  set (g := after_exit cur (initproc s) (parent c) w) in *.
  assert (procs s' !! cur = Some (set_state ZOMBIE (g (set_files fs 0 c)))) as Hcur.
  { rewrite El, list_lookup_alter_eq. change (map g ?l) with (g <$> l).
    rewrite list_lookup_fmap, list_lookup_insert_eq by (by eapply lookup_lt_Some). done. }
  eexists. split; [exact Hcur|]. split; [done|]. simpl. split; [apply (after_exit_fields _ _ _ _ (set_files fs 0 c))|].
  split; [apply (after_exit_parent _ _ _ _ (set_files fs 0 c))|].
  intros j q Hj Hq. rewrite El, list_lookup_alter_ne by done. change (map g ?l) with (g <$> l).
  by rewrite list_lookup_fmap, list_lookup_insert_ne, Hq.
Qed.

(** [wait] on a table where the caller has a zombie child. *)
Lemma wait_reaps s cur r s' j q : procs s !! j = Some q → parent q = Some cur → state q = ZOMBIE →
  wait cur s = Ok (r, s') → ∃ i p, procs s !! i = Some p ∧ parent p = Some cur ∧ state p = ZOMBIE ∧ (i ≤ j)%nat ∧
    r = WaitPid (pid p) ∧ procs s' = <[i := reaped p]> (procs s).
Proof.
  intros Hj Hp Hz Hr. unfold wait in Hr. apply bind_inv in Hr as (l & s0 & H0 & Hr). injection H0 as <- <-.
  destruct (find_slot _ _) as [i|] eqn:Hf.
  - apply find_slot_Some in Hf as (p & Hpi & HP & Hmin). apply bool_decide_eq_true in HP as [Hpar Hzp].
    rewrite (bind_ok _ _ _ _ _ (get_run _ _ _ Hpi)) in Hr.
    apply bind_inv in Hr as ([] & s1 & (E1 & _)%env_inv & Hr).
    apply bind_inv in Hr as ([] & s2 & (F1 & _)%env_inv & Hr). rewrite E1 in F1.
    apply bind_inv in Hr as ([] & s3 & (p' & Hp' & ->)%upd_inv & Hr). injection Hr as <- <-.
    rewrite F1 in Hp'. simplify_eq. exists i, p. simpl. rewrite F1. split_and!; try done.
    destruct (decide (i ≤ j)%nat); [done|]. specialize (Hmin j q Hj ltac:(lia)).
    apply bool_decide_eq_false in Hmin. by destruct Hmin.
  - pose proof (find_slot_None _ _ Hf j q Hj) as Hn. apply bool_decide_eq_false in Hn. by destruct Hn.
Qed.
End family.

(** ** A small instance of the interface, for concrete runs

    Pages and page directories are numbered upwards, files and inodes are passed
    on unchanged. *)
Module PEx.
Definition fresh : M Z Z := λ e, Ok (e, e + 4096).
#[export] Instance toy : ProcEnv Z := {|
  env_kalloc := fresh; env_kfree := λ _, mret tt; env_setupkvm := fresh; env_inituvm := λ _, mret tt;
  env_copyuvm := λ _ _, fresh; env_freevm := λ _, mret tt;
  env_allocuvm := λ _ _ n, mret n; env_deallocuvm := λ _ _ n, mret n;
  env_filedup := λ f, mret f; env_fileclose := λ _, mret tt; env_idup := λ i, mret i; env_iput := λ _, mret tt;
  env_root := mret 1 |}.

(** The final state of a run, the boot state when it fails. *)
Definition final {A} (r : res (A * ptable Z)) : ptable Z := match r with Ok (_, s) => s | Fault _ => boot 4096 end.

Definition p0 : ptable Z := Eval vm_compute in final (userinit (boot 4096)).
Definition p1 : ptable Z := Eval vm_compute in final (scheduler None p0).
Definition p2 : ptable Z := Eval vm_compute in final (fork 0 p1).
(** init sleeps in wait, its child runs *)
Definition p3 : ptable Z := Eval vm_compute in final (wait 0 p2).
Definition p4 : ptable Z := Eval vm_compute in final (scheduler None p3).
Definition p5 : ptable Z := Eval vm_compute in final (exit 1 p4).

Lemma p1_run : scheduler None p0 = Ok ((Some 0%nat, Some (1%nat, 50)), p1).
Proof. vm_compute. reflexivity. Qed.
Lemma p2_run : fork 0 p1 = Ok (2, p2).
Proof. vm_compute. reflexivity. Qed.
Lemma p3_run : wait 0 p2 = Ok (WaitSleep, p3).
Proof. vm_compute. reflexivity. Qed.
Lemma p4_run : scheduler None p3 = Ok ((Some 1%nat, Some (2%nat, 50)), p4).
Proof. vm_compute. reflexivity. Qed.
Lemma p5_run : exit 1 p4 = Ok (tt, p5).
Proof. vm_compute. reflexivity. Qed.

Lemma running_p1 : running p1 0.
Proof. eexists. split; reflexivity. Qed.
Lemma running_p2 : running p2 0.
Proof. eexists. split; reflexivity. Qed.

(** The same fork section by section, with init preempted in the middle. *)
Definition f1 : ptable Z := Eval vm_compute in final (alloc_slot p1).
Definition f2 : ptable Z := Eval vm_compute in final (yield 0 f1).
Definition f3 : ptable Z := Eval vm_compute in final (alloc_stack 1 f1).
Definition f4 : ptable Z := Eval vm_compute in final (fork_mem 0 1 f3).
Definition f5 : ptable Z := Eval vm_compute in final (fork_fill 0 1 f4).
Ltac now_running := eexists; split; reflexivity.
Lemma p3_reachable : reachable 4096 (kernel0 p3).
Proof.
  exists p0. split; [vm_compute; reflexivity|]. set (l := replicate NPROC Out).
  eapply rtc_l; [eapply (k_sched (kernel0 p0)), p1_run|].
  eapply rtc_l; [eapply (k_slot (mkkern p1 l) 0 1 f1); [now_running|reflexivity|vm_compute; reflexivity]|].
  eapply rtc_l; [eapply (k_yield (mkkern f1 _) 0 tt f2); [now_running|vm_compute; reflexivity]|].
  eapply rtc_l; [eapply (k_sched (mkkern f2 _) None _ f1); vm_compute; reflexivity|].
  eapply rtc_l; [eapply (k_stack (mkkern f1 _) 0 1 true f3); [now_running|reflexivity|vm_compute; reflexivity]|].
  eapply rtc_l; [eapply (k_mem (mkkern f3 _) 0 1 true f4); [now_running|reflexivity|vm_compute; reflexivity]|].
  eapply rtc_l; [eapply (k_fill (mkkern f4 _) 0 1 tt f5); [now_running|reflexivity|vm_compute; reflexivity]|].
  eapply rtc_l; [eapply (k_run (mkkern f5 _) 0 1 2 p2); [now_running|reflexivity|vm_compute; reflexivity]|].
  eapply rtc_l; [eapply (k_wait (mkkern p2 _) 0 _ p3); [apply running_p2|reflexivity|apply p3_run]|]. apply rtc_refl.
Qed.
Lemma p4_reachable : reachable 4096 (kernel0 p4).
Proof. destruct p3_reachable as (s & Hs & Hr). exists s. split; [done|]. eapply rtc_r; [exact Hr|]. eapply (k_sched (kernel0 p3)), p4_run. Qed.
Lemma p3_inv : pt_inv p3.
Proof. apply (ki_tab (kernel0 p3)), (reachable_inv 4096), p3_reachable. Qed.
Lemma p4_inv : pt_inv p4.
Proof. apply (ki_tab (kernel0 p4)), (reachable_inv 4096), p4_reachable. Qed.
End PEx.
#[local] Existing Instance PEx.toy.

(** ** The claims *)
Section claims.
Context {E : Type} `{HE : ProcEnv E}.
Implicit Types (s : ptable E) (p q : proc).


(** C16: a scheduling pass starts with the first process, in table order, among
    those runnable with the smallest priority value, and marks it RUNNING; with
    nothing runnable the pass ends and changes nothing. *)
Theorem scheduler_picks_best s : pt_inv s →
  ((∀ p, p ∈ procs s → state p ≠ RUNNABLE) → scheduler None s = Ok ((None, None), s)) ∧
  ((∃ p, p ∈ procs s ∧ state p = RUNNABLE) → ∃ i p,
    procs s !! i = Some p ∧ state p = RUNNABLE ∧
    (∀ j q, procs s !! j = Some q → state q = RUNNABLE →
       priority p < priority q ∨ (priority p = priority q ∧ (i ≤ j)%nat)) ∧
    scheduler None s = Ok ((Some i, Some (S i, priority p)),
      mkpt (<[i := set_state RUNNING p]> (procs s)) (nextpid s) (initproc s) (env s))).
Proof.
  intros Hi. unfold scheduler. rewrite (bind_ok _ _ s (procs s) s eq_refl). split.
  - intros Hno. destruct (pick _ _ _) as [i|] eqn:Hp; [|done].
    apply pick_Some in Hp as (p & Hp & Hs & _). by destruct (Hno p (list_elem_of_lookup_2 _ _ _ Hp)).
  - intros Hex. destruct (max_priority_spec (procs s)) as [Hle (p & Hp & Hs & Hm)]; [|done|].
    { intros p [i Hp]%list_elem_of_lookup Hl. by eapply (ti_prio _ _ _ Hi). }
    destruct (pick _ _ _) as [i|] eqn:Hpk; [|by destruct (pick_None _ _ Hpk p Hp Hs)].
    apply pick_Some in Hpk as (r & Hr & Hrs & Hrm & _ & Hmin). exists i, r. do 2 (split; [done|]). split.
    + intros j q Hj Hq. pose proof (Hle q (list_elem_of_lookup_2 _ _ _ Hj) Hq).
      destruct (decide (priority q = priority r)); [|left; lia]. right. split; [done|].
      destruct (decide (i ≤ j)%nat); [done|]. destruct (Hmin j q Hj); [lia|]. split; [done|congruence].
    + rewrite (bind_ok _ _ _ _ _ (dispatch_runs _ _ _ Hi Hr Hrs)). by rewrite Hrm.
Qed.

(** C17: exit makes the caller a zombie that keeps its pid, hands all its
    children to init, makes the parent runnable if it sleeps in wait, and init
    too if it sleeps in wait and inherits a zombie; a parent that then runs wait
    does not sleep but reaps a zombie child and frees its slot. *)
Theorem exit_then_wait s cur c a s' : pt_inv s → procs s !! cur = Some c → state c = RUNNING →
  exit cur s = Ok (a, s') →
  (∃ c', procs s' !! cur = Some c' ∧ state c' = ZOMBIE ∧ pid c' = pid c ∧
     (parent c ≠ Some cur → parent c' = parent c)) ∧
  (∀ j q, j ≠ cur → procs s !! j = Some q → ∃ q', procs s' !! j = Some q' ∧
     parent q' = (if bool_decide (parent q = Some cur) then initproc s else parent q) ∧
     (state q = SLEEPING → chan q = Some (ChProc j) →
      parent c = Some j ∨ (initproc s = Some j ∧
        ∃ k z, procs s !! k = Some z ∧ parent z = Some cur ∧ state z = ZOMBIE) →
      state q' = RUNNABLE)) ∧
  (∀ par r s'', parent c = Some par → par ≠ cur → wait par s' = Ok (r, s'') →
     ∃ i p, procs s' !! i = Some p ∧ parent p = Some par ∧ state p = ZOMBIE ∧
       r = WaitPid (pid p) ∧ procs s'' = <[i := reaped p]> (procs s')).
Proof.
  intros Hi Hc Hs Hr. destruct (exit_lookup _ _ _ _ _ Hi Hc Hs Hr) as (w & Hw & c' & Hc' & Hz & Hpid & Hpar & Ho).
  split; [|split].
  - exists c'. split_and!; try done. intros Hne. by rewrite bool_decide_eq_false_2 in Hpar.
  - intros j q Hj Hq. eexists. split; [by apply Ho|]. split; [apply after_exit_parent|].
    intros Hsl Hch Hor. apply (after_exit_wakes _ _ _ _ _ j); [done|done|].
    destruct Hor as [|(Hin & k & z & Hk & Hpz & Hzz)]; [by left|]. right. split; [by eapply Hw|done].
  - intros par r s'' Hp Hne Hwt. rewrite bool_decide_eq_false_2 in Hpar by (rewrite Hp; by intros [=]).
    destruct (wait_reaps _ _ _ _ cur c' Hc' (eq_trans Hpar Hp) Hz Hwt) as (i & p & ? & ? & ? & _ & ? & ?). eauto 10.
Qed.
End claims.


Lemma scheduler_picks_best_witness : ∃ i p, procs PEx.p3 !! i = Some p ∧ state p = RUNNABLE ∧
  ∃ s', scheduler None PEx.p3 = Ok ((Some i, Some (S i, priority p)), s').
Proof.
  destruct (proj2 (scheduler_picks_best PEx.p3 PEx.p3_inv)) as (i & p & Hp & Hs & _ & Hr).
  - eexists. split; [apply (list_elem_of_lookup_2 _ 1%nat); reflexivity|reflexivity].
  - exists i, p. split; [done|]. split; [done|]. eexists. exact Hr.
Defined.

Lemma exit_then_wait_witness : (∃ c', procs PEx.p5 !! 1%nat = Some c' ∧ state c' = ZOMBIE ∧ pid c' = 2) ∧
  ∃ q', procs PEx.p5 !! 0%nat = Some q' ∧ state q' = RUNNABLE.
Proof.
  destruct (exit_then_wait PEx.p4 1 _ tt PEx.p5 PEx.p4_inv eq_refl eq_refl PEx.p5_run) as ((c' & H1 & H2 & H3 & _) & Ho & _).
  split; [exists c'; split; [done|split; [done|exact H3]]|].
  destruct (Ho 0%nat _ ltac:(done) eq_refl) as (q' & Hq & _ & Hw). exists q'. split; [done|].
  apply Hw; [reflexivity|reflexivity|left; reflexivity].
Defined.

(** A pass in which the priority computed at its start goes stale: init lowers
    its priority value to 5, starts two children and waits; the first child runs
    and exits, which wakes init. *)
Definition stale_pass : M (ptable Z) (option (nat * Z)) :=
  userinit;;
  _ ← scheduler None; _ ← sys_setpriority 0 (Some 5); _ ← fork 0; _ ← fork 0; _ ← wait 0;
  r ← scheduler None;
  exit 1;;
  mret (snd r).

(** The lab's priority scheduler does not always run the best runnable
    process: it computes the best priority once per pass, so in the run above it
    goes on to the second child, of priority 50, while init is runnable with
    priority 5. *)
Theorem scheduler_goes_stale : ∃ sc s r s',
  stale_pass (boot 4096) = Ok (sc, s) ∧ scheduler sc s = Ok ((Some 2%nat, r), s') ∧
  (∃ p, procs s !! 0%nat = Some p ∧ state p = RUNNABLE ∧ priority p = 5) ∧
  (∃ p, procs s !! 2%nat = Some p ∧ state p = RUNNABLE ∧ priority p = 50).
Proof.
  exists (Some (2%nat, 50)). eexists _, _, _. split; [vm_compute; reflexivity|].
  split; [vm_compute; reflexivity|]. split; eexists; (split; [reflexivity|split; reflexivity]).
Qed.

(** init is the only process; somebody kills pid 0, then init forks. *)
Definition kill_zero_fork : M (ptable Z) (Z * Z) :=
  userinit;; _ ← scheduler None; k ← kill 0; f ← fork 0; mret (k, f).

(** Free slots have pid 0, so [kill(0)] marks one of them killed and reports
    success; [allocproc] does not clear the flag, and the next process forked into
    that slot is born killed although nobody named its pid. *)
Theorem kill_zero_kills_next_child : ∃ s,
  kill_zero_fork (boot 4096) = Ok ((0, 2), s) ∧
  ∃ p, procs s !! 1%nat = Some p ∧ pid p = 2 ∧ state p = RUNNABLE ∧ killed p = true.
Proof.
  eexists. split; [vm_compute; reflexivity|]. eexists. split; [reflexivity|]. split_and!; reflexivity.
Qed.
