(* ===== verification/Bio.v ===== *)
(** * xv6 buffer cache

    Models [src/lab3/xv6-public/bio.c] (the same file is in lab4) and the contract
    of [iderw] in [ide.c]: buffers with their flags, reference counts and sleep
    locks, the least-recently-used list, and a disk that records every block
    written to it in order.  The list links are an order of buffer numbers, most
    recently used first.  The code is followed for one process at a time; waiting
    for a buffer this process has locked itself is waiting forever, which is
    reported as [OutOfFuel].

    The abstract state of the cache is the content of every block ([V]), the
    blocks modified but not written ([D]) and the blocks in use ([H]). *)
From stdpp Require Import base numbers list gmap sets strings.
From S2P Require Import Prelude Bytes.
#[local] Open Scope Z_scope.

Definition NBUF : nat := 30.
Definition FSSIZE : Z := 1000.
Definition BSIZE : nat := 512.
Definition ROOTDEV : Z := 1.

Record buf : Type := mkbuf {
  valid : bool; dirty : bool;            (** B_VALID and B_DIRTY of [flags] *)
  bdev : Z; blockno : Z;
  blocked : bool;                        (** the sleep lock *)
  refcnt : Z;
  data : list Z }.

Record bcache : Type := mkbc {
  bufs : list buf;
  lru : list nat;
  disk : gmap (Z * Z) (list Z);
  writes : list (Z * Z * list Z) }.

(** ** Operations *)
Definition get_buf (i : nat) : M bcache buf := λ s,
  match bufs s !! i with Some x => Ok (x, s) | None => Fault Undefined end.
Definition put_buf (i : nat) (x : buf) : M bcache unit :=
  modify (λ s, mkbc (<[i := x]> (bufs s)) (lru s) (disk s) (writes s)).

Definition set_data (d : list Z) (x : buf) : buf :=
  mkbuf (valid x) (dirty x) (bdev x) (blockno x) (blocked x) (refcnt x) d.
Definition set_flags (v d : bool) (x : buf) : buf :=
  mkbuf v d (bdev x) (blockno x) (blocked x) (refcnt x) (data x).
Definition set_lock (l : bool) (n : Z) (x : buf) : buf :=
  mkbuf (valid x) (dirty x) (bdev x) (blockno x) l n (data x).

(** Every buffer is put at the head of the list in turn. *)
Definition binit (bs : list buf) (d : gmap (Z * Z) (list Z)) : bcache :=
  mkbc bs (rev (seq 0 NBUF)) d [].

(** The first buffer of a list order that satisfies a test. *)
Definition find_buf (P : buf → bool) (order : list nat) (bs : list buf) : option nat :=
  match list_find (λ i, from_option P false (bs !! i) = true) order with
  | Some (_, i) => Some i
  | None => None
  end.

(** [acquiresleep(&b->lock)] *)
Definition lock_buf (i : nat) : M bcache unit :=
  x ← get_buf i;
  if blocked x then fail OutOfFuel else put_buf i (set_lock true (refcnt x) x).

Definition bget (dev blkno : Z) : M bcache nat :=
  bs ← gets bufs;
  o ← gets lru;
  match find_buf (λ x, bool_decide (bdev x = dev ∧ blockno x = blkno)) o bs with
  | Some i =>
    x ← get_buf i;
    put_buf i (set_lock (blocked x) (u32 (refcnt x + 1)) x);;
    lock_buf i;;
    mret i
  | None =>
    match find_buf (λ x, bool_decide (refcnt x = 0) && negb (dirty x)) (rev o) bs with
    | Some i =>
      x ← get_buf i;
      put_buf i (mkbuf false false dev blkno (blocked x) 1 (data x));;
      lock_buf i;;
      mret i
    | None => panic "bget: no buffers"
    end
  end.

Section disk.
(** Is there a second disk? *)
Context (havedisk1 : bool).

(** The disk drive is [dev & 1]. *)
Definition sector (x : buf) : Z * Z := (Z.land (bdev x) 1, blockno x).

(** The request is queued, started and waited for. *)
Definition iderw (i : nat) : M bcache unit :=
  x ← get_buf i;
  if negb (blocked x) then panic "iderw: buf not locked"
  else if valid x && negb (dirty x) then panic "iderw: nothing to do"
  else if bool_decide (bdev x ≠ 0) && negb havedisk1 then panic "iderw: ide disk 1 not present"
  else if bool_decide (FSSIZE ≤ blockno x) then panic "incorrect blockno"
  else if dirty x then
    modify (λ s, mkbc (bufs s) (lru s) (<[sector x := data x]> (disk s)) (writes s ++ [(sector x, data x)]));;
    put_buf i (set_flags true false x)
  else
    dk ← gets disk;
    d ← lift (of_option (dk !! sector x));
    put_buf i (set_flags true false (set_data d x)).

Definition bread (dev blkno : Z) : M bcache nat :=
  i ← bget dev blkno;
  x ← get_buf i;
  (if negb (valid x) then iderw i else mret tt);;
  mret i.

Definition bwrite (i : nat) : M bcache unit :=
  x ← get_buf i;
  if negb (blocked x) then panic "bwrite"
  else
    put_buf i (set_flags (valid x) true x);;
    iderw i.

(** Move to the head of the list. *)
Definition mru (i : nat) (o : list nat) : list nat := i :: filter (λ j, j ≠ i) o.

Definition brelse (i : nat) : M bcache unit :=
  x ← get_buf i;
  if negb (blocked x) then panic "brelse"
  else
    let n := u32 (refcnt x - 1) in
    put_buf i (set_lock false n x);;
    if bool_decide (n = 0)
    then modify (λ s, mkbc (bufs s) (mru i (lru s)) (disk s) (writes s))
    else mret tt.

(** [b->data] of a buffer the caller holds. *)
Definition read_data (i : nat) : M bcache (list Z) := x ← get_buf i; mret (data x).
Definition write_data (i : nat) (d : list Z) : M bcache unit := x ← get_buf i; put_buf i (set_data d x).
End disk.

(** ** The abstraction *)
Definition busy (x : buf) : bool := dirty x || negb (bool_decide (refcnt x = 0)).
Definition nbusy (s : bcache) : Z := tally (λ x, if busy x then 1 else 0) (bufs s).

(** Buffer [i] is for block [b] of the root device. *)
Definition for_block (s : bcache) (b : Z) (i : nat) (x : buf) : Prop :=
  bufs s !! i = Some x ∧ bdev x = ROOTDEV ∧ blockno x = b.
(** The caller holds block [b] in buffer [i], with content [d]. *)
Definition holds (s : bcache) (i : nat) (b : Z) (d : list Z) : Prop :=
  ∃ dr, bufs s !! i = Some (mkbuf true dr ROOTDEV b true 1 d).

(** A valid buffer has the block's content; a block that is neither modified nor
    in use has it on the disk too. *)
Record binv (s : bcache) (V : gmap Z (list Z)) (D H : gset Z) : Prop := {
  bi_len : length (bufs s) = NBUF;
  bi_lru : lru s ≡ₚ seq 0 NBUF;
  bi_uniq : ∀ b i j x y, for_block s b i x → for_block s b j y → i = j;
  bi_dev : ∀ i x, bufs s !! i = Some x → bdev x = 0 ∨ bdev x = ROOTDEV;
  bi_ref : ∀ i x, bufs s !! i = Some x → refcnt x = if blocked x then 1 else 0;
  bi_own : ∀ i x, bufs s !! i = Some x → dirty x = true ∨ blocked x = true → bdev x = ROOTDEV ∧ valid x = true;
  bi_D : ∀ b, b ∈ D ↔ ∃ i x, for_block s b i x ∧ dirty x = true;
  bi_H : ∀ b, b ∈ H ↔ ∃ i x, for_block s b i x ∧ blocked x = true;
  bi_busy : nbusy s = Z.of_nat (size (D ∪ H));
  bi_dom : ∀ b, is_Some (V !! b) → 0 ≤ b < FSSIZE;
  bi_cached : ∀ b i x d, V !! b = Some d → for_block s b i x → valid x = true → data x = d;
  bi_disk : ∀ b d, V !! b = Some d → b ∉ D → b ∉ H → disk s !! (ROOTDEV, b) = Some d }.

(** ** Lemmas *)
Lemma get_buf_run i s x : bufs s !! i = Some x → get_buf i s = Ok (x, s).
Proof. unfold get_buf. by intros ->. Qed.

Lemma find_buf_Some P o bs i : find_buf P o bs = Some i → ∃ x, bs !! i = Some x ∧ P x = true.
Proof.
  unfold find_buf. destruct (list_find _ o) as [[k j]|] eqn:Hf; [|done]. intros [= ->].
  apply list_find_Some in Hf as (_ & HP & _). destruct (bs !! i); [by eauto|done].
Qed.
Lemma find_buf_None P o bs i x : find_buf P o bs = None → i ∈ o → bs !! i = Some x → P x = false.
Proof.
  unfold find_buf. destruct (list_find _ o) as [[k j]|] eqn:Hf; [done|]. intros _ Hi Hx.
  apply list_find_None in Hf. rewrite Forall_forall in Hf. specialize (Hf i Hi). rewrite Hx in Hf.
  simpl in Hf. by destruct (P x).
Qed.

Section cache.
Context (s : bcache) (V : gmap Z (list Z)) (D H : gset Z) (Hinv : binv s V D H).

Lemma lru_all i : (i < NBUF)%nat → i ∈ lru s.
Proof using Hinv. intros Hi. rewrite (bi_lru _ _ _ _ Hinv). apply elem_of_seq. lia. Qed.
Lemma buf_in_lru i x : bufs s !! i = Some x → i ∈ lru s.
Proof using Hinv. intros Hx%lookup_lt_Some. apply lru_all. by rewrite <- (bi_len _ _ _ _ Hinv). Qed.

(** With fewer than [NBUF] busy buffers one can be recycled. *)
Lemma some_free : (size (D ∪ H) < NBUF)%nat → ∃ i x, bufs s !! i = Some x ∧ busy x = false.
Proof using Hinv.
  intros Hlt. destruct (list_find (λ x, busy x = false) (bufs s)) as [[i x]|] eqn:Hf.
  - apply list_find_Some in Hf as (Hx & Hb & _). eauto.
  - exfalso. apply list_find_None in Hf. rewrite Forall_forall in Hf.
    assert (nbusy s = Z.of_nat (length (bufs s))) as Hn.
    { unfold nbusy. clear Hinv Hlt. induction (bufs s) as [|x l IH]; [done|]. simpl.
      assert (busy x ≠ false) as Hb by (apply Hf; by left). rewrite IH by (intros y Hy; apply Hf; by right).
      destruct (busy x); [lia|done]. }
    rewrite (bi_busy _ _ _ _ Hinv), (bi_len _ _ _ _ Hinv) in Hn. lia.
Qed.

Lemma holds_for i b d : holds s i b d → ∃ x, for_block s b i x ∧ valid x = true ∧ blocked x = true ∧ data x = d.
Proof using. intros [dr Hb]. eexists. split; [split; [exact Hb|done]|done]. Qed.

(** What [bget] does to the table. *)
Lemma bget_run b d : V !! b = Some d → b ∉ H → b ∈ D ∨ (size (D ∪ H) < NBUF)%nat →
  ∃ i x v e, bufs s !! i = Some x ∧ blocked x = false ∧
    bget ROOTDEV b s = Ok (i, mkbc (<[i := mkbuf v (dirty x) ROOTDEV b true 1 e]> (bufs s)) (lru s) (disk s) (writes s)) ∧
    ((bdev x = ROOTDEV ∧ blockno x = b ∧ v = valid x ∧ e = data x) ∨
     (busy x = false ∧ v = false ∧ ∀ j y, ¬ for_block s b j y)).
Proof using Hinv.
  intros Hb HH Hcap. unfold bget.
  rewrite (bind_ok _ _ s (bufs s) s eq_refl), (bind_ok _ _ s (lru s) s eq_refl).
  destruct (find_buf _ (lru s) _) as [i|] eqn:Hf.
  - apply find_buf_Some in Hf as (x & Hx & Hm). apply bool_decide_eq_true in Hm as [Hd Hn].
    assert (blocked x = false) as Hl.
    { destruct (blocked x) eqn:E; [|done]. destruct HH. apply (bi_H _ _ _ _ Hinv). exists i, x. split; [split|]; done. }
    pose proof (bi_ref _ _ _ _ Hinv _ _ Hx) as Hr. rewrite Hl in Hr.
    exists i, x, (valid x), (data x). split; [done|]. split; [done|]. split; [|by left].
    rewrite (bind_ok _ _ _ _ _ (get_buf_run _ _ _ Hx)). rewrite (bind_ok _ _ _ tt _ eq_refl). unfold lock_buf.
    rewrite bind_assoc. erewrite bind_ok; [|apply get_buf_run; simpl; apply list_lookup_insert_eq; by eapply lookup_lt_Some].
    simpl. rewrite Hl, Hr. rewrite (bind_ok _ _ _ tt _ eq_refl). unfold mret, M_ret. simpl.
    rewrite list_insert_insert_eq. unfold set_lock. simpl. by rewrite Hd, Hn.
  - assert (∀ j y, ¬ for_block s b j y) as Hno.
    { intros j y (Hj & Hd & Hn). pose proof (find_buf_None _ _ _ _ _ Hf (buf_in_lru _ _ Hj) Hj) as Hc.
      apply bool_decide_eq_false in Hc. by destruct Hc. }
    assert (size (D ∪ H) < NBUF)%nat as Hlt.
    { destruct Hcap as [HD|]; [|done]. apply (bi_D _ _ _ _ Hinv) in HD as (j & y & Hj & _). by destruct (Hno j y). }
    destruct (find_buf _ (rev (lru s)) _) as [i|] eqn:Hf2.
    + apply find_buf_Some in Hf2 as (x & Hx & Hm). apply andb_prop in Hm as [Hr Hd]. apply bool_decide_eq_true in Hr.
      assert (dirty x = false) as Hdf by (by destruct (dirty x)).
      assert (blocked x = false) as Hl by (pose proof (bi_ref _ _ _ _ Hinv _ _ Hx); destruct (blocked x); [lia|done]).
      exists i, x, false, (data x). split; [done|]. split; [done|]. split.
      * rewrite (bind_ok _ _ _ _ _ (get_buf_run _ _ _ Hx)). rewrite (bind_ok _ _ _ tt _ eq_refl). unfold lock_buf.
        rewrite bind_assoc. erewrite bind_ok; [|apply get_buf_run; simpl; apply list_lookup_insert_eq; by eapply lookup_lt_Some].
        simpl. rewrite Hl, Hdf. rewrite (bind_ok _ _ _ tt _ eq_refl). unfold mret, M_ret. simpl. by rewrite list_insert_insert_eq.
      * right. split; [|done]. unfold busy. by rewrite Hdf, bool_decide_eq_true_2.
    + destruct (some_free Hlt) as (i & x & Hx & Hb').
      assert (i ∈ rev (lru s)) as Hin by (apply list_elem_of_In, (proj1 (in_rev _ _)), list_elem_of_In; by eapply buf_in_lru).
      pose proof (find_buf_None _ _ _ i x Hf2 Hin Hx) as Hc. unfold busy in Hb'.
      apply orb_false_iff in Hb' as [Hb1 Hb2]. apply negb_false_iff, bool_decide_eq_true in Hb2.
      cbv beta in Hc. by rewrite Hb1, bool_decide_eq_true_2 in Hc.
Qed.
End cache.

(** ** Changing one buffer *)
Definition with_buf (s : bcache) (i : nat) (y : buf) : bcache :=
  mkbc (<[i := y]> (bufs s)) (lru s) (disk s) (writes s).

Lemma for_block_with s i y b j z : (i < length (bufs s))%nat →
  for_block (with_buf s i y) b j z ↔
  (j = i ∧ z = y ∧ bdev y = ROOTDEV ∧ blockno y = b) ∨ (j ≠ i ∧ for_block s b j z).
Proof.
  intros Hi. unfold for_block, with_buf. simpl. destruct (decide (j = i)) as [->|].
  - rewrite list_lookup_insert_eq by done. naive_solver.
  - rewrite list_lookup_insert_ne by done. naive_solver.
Qed.

Lemma lookup_with s i y j z : bufs (with_buf s i y) !! j = Some z →
  (j = i ∧ z = y) ∨ (j ≠ i ∧ bufs s !! j = Some z).
Proof.
  unfold with_buf. simpl. intros Hj. destruct (decide (j = i)) as [->|].
  - left. pose proof (lookup_lt_Some _ _ _ Hj) as Hl. rewrite length_insert in Hl.
    rewrite list_lookup_insert_eq in Hj by done. by simplify_eq.
  - right. by rewrite list_lookup_insert_ne in Hj.
Qed.

Lemma holds_with s i y j c e : j ≠ i → holds s j c e → holds (with_buf s i y) j c e.
Proof. intros Hne [dr Hb]. exists dr. simpl. by rewrite list_lookup_insert_ne. Qed.

Lemma nbusy_with s i x y : bufs s !! i = Some x →
  nbusy (with_buf s i y) = nbusy s - (if busy x then 1 else 0) + (if busy y then 1 else 0).
Proof. intros Hx. unfold nbusy, with_buf. simpl. by rewrite (tally_insert _ _ _ _ _ Hx). Qed.

(** The busy blocks before and after a change to block [b]. *)
Section busy_sets.
Context (b : Z) (D H : gset Z).

Lemma lock_dirty : b ∈ D → D ∪ ({[b]} ∪ H) = D ∪ H.
Proof using. set_solver. Qed.
Lemma lock_clean : b ∉ D → b ∉ H → size (D ∪ ({[b]} ∪ H)) = S (size (D ∪ H)).
Proof using.
  intros. replace (D ∪ ({[b]} ∪ H)) with ({[b]} ∪ (D ∪ H)) by set_solver.
  rewrite size_union by set_solver. by rewrite size_singleton.
Qed.
Lemma held_dirty (lk : bool) : b ∈ H → {[b]} ∪ D ∪ (if lk then H else H ∖ {[b]}) = D ∪ H.
Proof using. intros. apply set_eq. intros c. destruct lk, (decide (c = b)); set_solver. Qed.
Lemma held_clean : b ∈ H → D ∖ {[b]} ∪ H = D ∪ H.
Proof using. intros. apply set_eq. intros c. destruct (decide (c = b)); set_solver. Qed.
Lemma unlock_clean : b ∈ H → S (size (D ∖ {[b]} ∪ H ∖ {[b]})) = size (D ∪ H).
Proof using.
  intros. replace (D ∖ {[b]} ∪ H ∖ {[b]}) with ((D ∪ H) ∖ {[b]}) by set_solver.
  assert (size ({[b]} : gset Z) ≤ size (D ∪ H))%nat as Hsz by (apply subseteq_size; set_solver).
  rewrite size_difference by set_solver. rewrite size_singleton in *. lia.
Qed.
Lemma dirty_elem (dr : bool) c : c ∈ (if dr then {[b]} ∪ D else D ∖ {[b]}) ↔ (c = b ∧ dr = true) ∨ (c ≠ b ∧ c ∈ D).
Proof using. destruct dr, (decide (c = b)); set_solver. Qed.
Lemma held_elem (lk : bool) c : b ∈ H → c ∈ (if lk then H else H ∖ {[b]}) ↔ (c = b ∧ lk = true) ∨ (c ≠ b ∧ c ∈ H).
Proof using. intros. destruct lk, (decide (c = b)); set_solver. Qed.
End busy_sets.

(** Locking a buffer for block [b], as [bread] leaves it. *)
Lemma lock_inv s V D H i x b d : binv s V D H → V !! b = Some d → b ∉ H →
  bufs s !! i = Some x → blocked x = false →
  (bdev x = ROOTDEV ∧ blockno x = b) ∨ (busy x = false ∧ ∀ j y, ¬ for_block s b j y) →
  binv (with_buf s i (mkbuf true (dirty x) ROOTDEV b true 1 d)) V D ({[b]} ∪ H).
Proof.
  intros Hinv Hb HH Hx Hl Hor. pose proof (lookup_lt_Some _ _ _ Hx) as Hlt. set (y := mkbuf _ _ _ _ _ _ _).
  assert (∀ j z, for_block s b j z → j = i) as Hown.
  { intros j z Hj. destruct Hor as [[H1 H2]|[_ Hno]]; [|by destruct (Hno j z)].
    by eapply (bi_uniq _ _ _ _ Hinv); [|split; [exact Hx|]]. }
  assert (∀ c, c ∈ D → c ≠ b → ∃ j z, j ≠ i ∧ for_block s c j z ∧ dirty z = true) as HDo.
  { intros c Hc Hcb. apply (bi_D _ _ _ _ Hinv) in Hc as (j & z & Hj & Hz). exists j, z. split; [|done].
    intros ->. destruct Hj as (Hj & _ & Hc'). simplify_eq. destruct Hor as [[_ ?]|[Hbz _]]; [done|]. unfold busy in Hbz. by rewrite Hz in Hbz. }
  split.
  - simpl. rewrite length_insert. apply Hinv.
  - apply Hinv.
  - intros c j k z z' [(-> & -> & _ & E)|[Hji Hj]]%for_block_with [(-> & -> & _ & E')|[Hki Hk]]%for_block_with; try done.
    + simpl in E. subst c. symmetry. by eapply Hown.
    + simpl in E'. subst c. by eapply Hown.
    + by eapply (bi_uniq _ _ _ _ Hinv).
  - intros j z [[-> ->]|[_ Hj]]%lookup_with; [by right|by eapply (bi_dev _ _ _ _ Hinv)].
  - intros j z [[-> ->]|[_ Hj]]%lookup_with; [done|by eapply (bi_ref _ _ _ _ Hinv)].
  - intros j z [[-> ->]|[_ Hj]]%lookup_with; [done|by eapply (bi_own _ _ _ _ Hinv)].
  - intros c. split.
    + intros Hc. destruct (decide (c = b)) as [->|Hcb].
      * apply (bi_D _ _ _ _ Hinv) in Hc as (j & z & Hj & Hz). pose proof (Hown j z Hj) as ->. destruct Hj as (Hj & _). simplify_eq.
        exists i, y. split; [apply for_block_with; [done|by left]|done].
      * destruct (HDo c Hc Hcb) as (j & z & Hji & Hj & Hz). exists j, z. split; [apply for_block_with; [done|by right]|done].
    + intros (j & z & [(-> & -> & _ & E)|[_ Hj]]%for_block_with & Hz); [|by apply (bi_D _ _ _ _ Hinv); eauto|done].
      simpl in E, Hz. subst c. apply (bi_D _ _ _ _ Hinv). exists i, x. split; [|done].
      destruct Hor as [|[Hbz _]]; [done|]. unfold busy in Hbz. by rewrite Hz in Hbz.
  - intros c. rewrite elem_of_union, elem_of_singleton. split.
    + intros [->|Hc]; [exists i, y; split; [apply for_block_with; [done|by left]|done]|].
      apply (bi_H _ _ _ _ Hinv) in Hc as (j & z & Hj & Hz). exists j, z. split; [|done].
      apply for_block_with; [done|]. right. split; [|done]. intros ->. destruct Hj as (Hj & _). congruence.
    + intros (j & z & [(-> & -> & _ & E)|[_ Hj]]%for_block_with & Hz); [by left| |done].
      right. apply (bi_H _ _ _ _ Hinv). eauto.
  - rewrite (nbusy_with _ _ _ _ Hx), (bi_busy _ _ _ _ Hinv).
    pose proof (bi_ref _ _ _ _ Hinv _ _ Hx) as Hr. rewrite Hl in Hr.
    assert (busy x = dirty x) as -> by (unfold busy; by rewrite Hr, orb_false_r).
    assert (busy y = true) as -> by (unfold busy; simpl; by destruct (dirty x)).
    destruct (dirty x) eqn:Hd.
    + assert (b ∈ D) as HbD.
      { apply (bi_D _ _ _ _ Hinv). exists i, x. split; [|done].
        destruct Hor as [|[Hbz _]]; [done|]. unfold busy in Hbz. by rewrite Hd in Hbz. }
      rewrite (lock_dirty _ _ _ HbD). lia.
    + assert (b ∉ D) as HbD.
      { intros (j & z & Hj & Hz)%(bi_D _ _ _ _ Hinv). pose proof (Hown j z Hj) as ->. destruct Hj as (Hj & _). congruence. }
      rewrite (lock_clean _ _ _ HbD HH). lia.
  - apply Hinv.
  - intros c j z e Hc [(-> & -> & _ & E)|[_ Hj]]%for_block_with Hv; [|by eapply (bi_cached _ _ _ _ Hinv)|done].
    simpl in E. subst c. simpl. congruence.
  - intros c e Hc HcD HcH. apply (bi_disk _ _ _ _ Hinv); [done|done|set_solver].
Qed.

(** Any change to a buffer the caller holds. *)
Lemma held_inv s V D H i b dr d dr' lk d' l' dk ws : binv s V D H →
  bufs s !! i = Some (mkbuf true dr ROOTDEV b true 1 d) → is_Some (V !! b) →
  l' ≡ₚ lru s →
  (∀ c, c ≠ b → dk !! (ROOTDEV, c) = disk s !! (ROOTDEV, c)) →
  (dr' = false → lk = false → dk !! (ROOTDEV, b) = Some d') →
  binv (mkbc (<[i := mkbuf true dr' ROOTDEV b lk (if lk then 1 else 0) d']> (bufs s)) l' dk ws) (<[b := d']> V)
    (if dr' then {[b]} ∪ D else D ∖ {[b]}) (if lk then H else H ∖ {[b]}).
Proof.
  intros Hinv Hx HVb Hl' Hdk Hdkb. pose proof (lookup_lt_Some _ _ _ Hx) as Hlt. set (y := mkbuf true dr' _ _ _ _ _).
  set (s' := mkbc _ l' dk ws).
  assert (∀ c j z, for_block s' c j z ↔
    (j = i ∧ z = y ∧ bdev y = ROOTDEV ∧ blockno y = c) ∨ (j ≠ i ∧ for_block s c j z)) as Hfb
    by (intros c j z; by apply (for_block_with s)).
  assert (∀ j z, for_block s b j z → j = i) as Hown by (intros j z Hj; by eapply (bi_uniq _ _ _ _ Hinv); [|split; [exact Hx|]]).
  assert (b ∈ H) as HbH by (apply (bi_H _ _ _ _ Hinv); eexists i, _; split; [split; [exact Hx|done]|done]).
  assert (dr = bool_decide (b ∈ D)) as Hdr.
  { destruct dr; symmetry; [apply bool_decide_eq_true|apply bool_decide_eq_false].
    - apply (bi_D _ _ _ _ Hinv). eexists i, _. split; [split; [exact Hx|done]|done].
    - intros (j & z & Hj & Hz)%(bi_D _ _ _ _ Hinv). pose proof (Hown j z Hj) as ->. destruct Hj as (Hj & _). by simplify_eq. }
  split.
  - simpl. rewrite length_insert. apply Hinv.
  - simpl. rewrite Hl'. apply Hinv.
  - intros c j k z z' [(-> & -> & _ & E)|[Hji Hj]]%Hfb [(-> & -> & _ & E')|[Hki Hk]]%Hfb; try done.
    + simpl in E. subst c. symmetry. by eapply Hown.
    + simpl in E'. subst c. by eapply Hown.
    + by eapply (bi_uniq _ _ _ _ Hinv).
  - intros j z [[-> ->]|[_ Hj]]%(lookup_with s); [by right|by eapply (bi_dev _ _ _ _ Hinv)].
  - intros j z [[-> ->]|[_ Hj]]%(lookup_with s); [done|by eapply (bi_ref _ _ _ _ Hinv)].
  - intros j z [[-> ->]|[_ Hj]]%(lookup_with s); [done|by eapply (bi_own _ _ _ _ Hinv)].
  - intros c. rewrite dirty_elem. split.
    + intros [[-> Hd]|[Hcb Hc]]; [exists i, y; split; [apply Hfb; by left|done]|].
      apply (bi_D _ _ _ _ Hinv) in Hc as (j & z & Hj & Hz). exists j, z. split; [|done].
      apply Hfb. right. split; [|done]. intros ->. destruct Hj as (Hj & _ & Hc'). by simplify_eq/=.
    + intros (j & z & [(-> & -> & _ & E)|[Hji Hj]]%Hfb & Hz); [by left|].
      right. split; [|by apply (bi_D _ _ _ _ Hinv); eauto]. intros ->. by destruct Hji; eapply Hown.
  - intros c. rewrite (held_elem _ _ _ _ HbH). split.
    + intros [[-> Hd]|[Hcb Hc]]; [exists i, y; split; [apply Hfb; by left|done]|].
      apply (bi_H _ _ _ _ Hinv) in Hc as (j & z & Hj & Hz). exists j, z. split; [|done].
      apply Hfb. right. split; [|done]. intros ->. destruct Hj as (Hj & _ & Hc'). by simplify_eq/=.
    + intros (j & z & [(-> & -> & _ & E)|[Hji Hj]]%Hfb & Hz); [by left|].
      right. split; [|by apply (bi_H _ _ _ _ Hinv); eauto]. intros ->. by destruct Hji; eapply Hown.
  - change (nbusy s') with (nbusy (with_buf s i y)). rewrite (nbusy_with _ _ _ _ Hx), (bi_busy _ _ _ _ Hinv).
    assert (busy (mkbuf true dr ROOTDEV b true 1 d) = true) as -> by (unfold busy; simpl; by destruct dr).
    assert (busy y = dr' || lk) as -> by (unfold busy; simpl; by destruct dr', lk).
    destruct dr'; simpl; [by rewrite (held_dirty _ _ _ _ HbH); lia|].
    destruct lk; simpl; [by rewrite (held_clean _ _ _ HbH); lia|]. pose proof (unlock_clean _ D _ HbH). lia.
  - intros c Hc. apply (bi_dom _ _ _ _ Hinv). destruct (decide (c = b)) as [->|]; [done|]. by rewrite lookup_insert_ne in Hc.
  - intros c j z e Hc [(-> & -> & _ & E)|[Hji Hj]]%Hfb Hv.
    + simpl in E. subst c. rewrite lookup_insert_eq in Hc. by injection Hc.
    + rewrite lookup_insert_ne in Hc; [by eapply (bi_cached _ _ _ _ Hinv)|]. intros <-. by destruct Hji; eapply Hown.
  - intros c e Hc HcD HcH. rewrite dirty_elem in HcD. rewrite (held_elem _ _ _ _ HbH) in HcH. simpl.
    destruct (decide (c = b)) as [->|Hcb].
    + rewrite lookup_insert_eq in Hc. injection Hc as <-. apply Hdkb; [destruct dr'|destruct lk]; naive_solver.
    + rewrite lookup_insert_ne in Hc by done. rewrite Hdk by done.
      apply (bi_disk _ _ _ _ Hinv); [done|naive_solver|naive_solver].
Qed.

Lemma iderw_read s i x d : bufs s !! i = Some x → blocked x = true → valid x = false → dirty x = false →
  bdev x = ROOTDEV → blockno x < FSSIZE → disk s !! (ROOTDEV, blockno x) = Some d →
  iderw true i s = Ok (tt, with_buf s i (set_flags true false (set_data d x))).
Proof.
  intros Hx Hl Hv Hd Hdev Hn Hdk. unfold iderw. rewrite (bind_ok _ _ _ _ _ (get_buf_run _ _ _ Hx)).
  rewrite Hl, Hv, Hd, andb_false_r, (bool_decide_eq_false_2 (FSSIZE ≤ blockno x)) by lia. simpl.
  rewrite (bind_ok _ _ _ (disk s) _ eq_refl). unfold sector. rewrite Hdev. change (Z.land ROOTDEV 1) with ROOTDEV.
  by rewrite Hdk, (bind_ok _ _ s d s eq_refl).
Qed.

(** ** The operations against the abstraction

    The root device is the second disk, so it must be there. *)
Section operations.
Context (s : bcache) (V : gmap Z (list Z)) (D H : gset Z) (Hinv : binv s V D H).

Lemma bread_ok b d : V !! b = Some d → b ∉ H → b ∈ D ∨ (size (D ∪ H) < NBUF)%nat →
  ∃ i s', bread true ROOTDEV b s = Ok (i, s') ∧ binv s' V D ({[b]} ∪ H) ∧ holds s' i b d ∧
    disk s' = disk s ∧ writes s' = writes s ∧ ∀ j c e, holds s j c e → holds s' j c e.
Proof using Hinv.
  intros Hb HH Hcap. destruct (bget_run _ _ _ _ Hinv _ _ Hb HH Hcap) as (i & x & v & e & Hx & Hl & Hg & Hor).
  pose proof (lookup_lt_Some _ _ _ Hx) as Hlt.
  assert ((bdev x = ROOTDEV ∧ blockno x = b) ∨ (busy x = false ∧ ∀ j y, ¬ for_block s b j y)) as Hor'
    by (destruct Hor as [(?&?&_)|(?&_&?)]; [by left|by right]).
  pose proof (lock_inv _ _ _ _ _ _ _ _ Hinv Hb HH Hx Hl Hor') as Hi'.
  exists i, (with_buf s i (mkbuf true (dirty x) ROOTDEV b true 1 d)). split; [|split; [done|]].
  - unfold bread. rewrite (bind_ok _ _ _ _ _ Hg).
    erewrite bind_ok; [|apply get_buf_run; simpl; by apply list_lookup_insert_eq]. simpl. destruct v; simpl.
    + destruct Hor as [(Hd & Hn & Hv & He)|(_ & ? & _)]; [|done]. rewrite (bind_ok _ _ _ tt _ eq_refl). unfold mret, M_ret, with_buf.
      rewrite He. by rewrite (bi_cached _ _ _ _ Hinv b i x d Hb (conj Hx (conj Hd Hn)) (eq_sym Hv)).
    + assert (dirty x = false) as Hdf.
      { destruct (dirty x) eqn:Hd; [|done]. destruct (bi_own _ _ _ _ Hinv _ _ Hx (or_introl Hd)) as [_ Hv].
        destruct Hor as [(_ & _ & ? & _)|(Hbz & _)]; [congruence|]. unfold busy in Hbz. by rewrite Hd in Hbz. }
      assert (b ∉ D) as HbD.
      { intros (j & z & (Hj & Hjd & Hjb) & Hz)%(bi_D _ _ _ _ Hinv). destruct Hor as [(Hd & Hn & _)|(_ & _ & Hno)].
        - assert (j = i) as -> by (eapply (bi_uniq _ _ _ _ Hinv); split; eauto). congruence.
        - by destruct (Hno j z). }
      pose proof (bi_dom _ _ _ _ Hinv b (mk_is_Some _ _ Hb)) as Hdom.
      erewrite bind_ok; [|eapply (iderw_read _ i _ d); [simpl; by apply list_lookup_insert_eq|done|done|done|done|simpl; lia|]].
      * unfold mret, M_ret, with_buf, set_flags, set_data. simpl. by rewrite list_insert_insert_eq, Hdf.
      * exact (bi_disk _ _ _ _ Hinv b d Hb HbD HH).
  - split; [exists (dirty x); simpl; by apply list_lookup_insert_eq|]. split; [done|]. split; [done|].
    intros j c e' Hh. apply holds_with; [|done]. intros ->. destruct Hh as [dr Hh]. simplify_eq/=.
Qed.

Section held.
Context (i : nat) (b : Z) (d : list Z) (HV : V !! b = Some d) (Hh : holds s i b d).

Lemma other_buf j c e : holds s j c e → c ≠ b → j ≠ i.
Proof using Hh. intros [dr Hj] Hc ->. destruct Hh as [dr' Hi]. by simplify_eq. Qed.

Lemma held_in : b ∈ H.
Proof using Hinv Hh. destruct Hh as [dr Hx]. apply (bi_H _ _ _ _ Hinv). eexists i, _. split; [split; [exact Hx|done]|done]. Qed.

Lemma dirty_in dr : bufs s !! i = Some (mkbuf true dr ROOTDEV b true 1 d) → dr = true ↔ b ∈ D.
Proof using Hinv.
  intros Hx. rewrite (bi_D _ _ _ _ Hinv). split.
  - intros ->. eexists i, _. split; [split; [exact Hx|done]|done].
  - intros (j & z & Hj & Hz). assert (j = i) as -> by (eapply (bi_uniq _ _ _ _ Hinv); [exact Hj|split; [exact Hx|done]]).
    destruct Hj as (Hj & _). by simplify_eq/=.
Qed.

Lemma same_dirty dr : bufs s !! i = Some (mkbuf true dr ROOTDEV b true 1 d) →
  (if dr then {[b]} ∪ D else D ∖ {[b]}) = D.
Proof using Hinv. intros Hx%dirty_in. clear -Hx. destruct dr; [assert (b ∈ D) by naive_solver|assert (b ∉ D) by naive_solver]; set_solver. Qed.

Lemma buf_data_run : read_data i s = Ok (d, s).
Proof using Hh. destruct Hh as [dr Hx]. unfold read_data. by rewrite (bind_ok _ _ _ _ _ (get_buf_run _ _ _ Hx)). Qed.

Lemma write_data_ok e : ∃ s', write_data i e s = Ok (tt, s') ∧ binv s' (<[b := e]> V) D H ∧ holds s' i b e ∧
  disk s' = disk s ∧ writes s' = writes s ∧ ∀ j c e', c ≠ b → holds s j c e' → holds s' j c e'.
Proof using Hinv HV Hh.
  pose proof Hh as [dr Hx]. eexists. split; [|split; [|split; [|split; [|split]]]].
  - unfold write_data. by rewrite (bind_ok _ _ _ _ _ (get_buf_run _ _ _ Hx)).
  - pose proof (held_inv s V D H i b dr d dr true e (lru s) (disk s) (writes s) Hinv Hx (mk_is_Some _ _ HV)) as Hi.
    rewrite (same_dirty _ Hx) in Hi. by apply Hi.
  - exists dr. simpl. apply list_lookup_insert_eq. by eapply lookup_lt_Some.
  - done.
  - done.
  - intros j c e' Hc Hj. apply holds_with; [by eapply other_buf|done].
Qed.

Lemma bwrite_ok : ∃ s', bwrite true i s = Ok (tt, s') ∧ binv s' V (D ∖ {[b]}) H ∧ holds s' i b d ∧
  disk s' = <[(ROOTDEV, b) := d]> (disk s) ∧ writes s' = writes s ++ [((ROOTDEV, b), d)] ∧
  ∀ j c e, c ≠ b → holds s j c e → holds s' j c e.
Proof using Hinv HV Hh.
  pose proof Hh as [dr Hx]. pose proof (lookup_lt_Some _ _ _ Hx) as Hlt.
  pose proof (bi_dom _ _ _ _ Hinv b (mk_is_Some _ _ HV)) as Hdom.
  exists (mkbc (<[i := mkbuf true false ROOTDEV b true 1 d]> (bufs s)) (lru s) (<[(ROOTDEV, b) := d]> (disk s))
    (writes s ++ [((ROOTDEV, b), d)])). split; [|split; [|split; [|split; [|split]]]].
  - unfold bwrite. rewrite (bind_ok _ _ _ _ _ (get_buf_run _ _ _ Hx)). simpl. rewrite (bind_ok _ _ _ tt _ eq_refl).
    unfold iderw. erewrite bind_ok; [|apply get_buf_run; simpl; by apply list_lookup_insert_eq]. simpl.
    unfold FSSIZE in *. rewrite bool_decide_eq_false_2 by lia. rewrite (bind_ok _ _ _ tt _ eq_refl).
    unfold put_buf, modify, sector, set_flags. simpl. by rewrite list_insert_insert_eq.
  - rewrite <- (insert_id V b d HV). eapply (held_inv s V D H i b dr d false true d); [done|done|by eexists|done| |done].
    intros c Hc. apply lookup_insert_ne. naive_solver.
  - exists false. simpl. by apply list_lookup_insert_eq.
  - done.
  - done.
  - intros j c e Hc Hj. apply (holds_with s i _ j c e); [by eapply other_buf|done].
Qed.

Lemma mru_perm l : NoDup l → i ∈ l → mru i l ≡ₚ l.
Proof using.
  intros Hnd Hi. unfold mru. apply NoDup_Permutation; [|done|].
  - constructor; [|by apply NoDup_filter]. rewrite list_elem_of_filter. naive_solver.
  - intros j. rewrite elem_of_cons, list_elem_of_filter. destruct (decide (j = i)); naive_solver.
Qed.

Lemma brelse_ok : b ∈ D ∨ disk s !! (ROOTDEV, b) = Some d →
  ∃ s', brelse i s = Ok (tt, s') ∧ binv s' V D (H ∖ {[b]}) ∧ disk s' = disk s ∧ writes s' = writes s ∧
  ∀ j c e, c ≠ b → holds s j c e → holds s' j c e.
Proof using Hinv HV Hh.
  intros Hor. pose proof Hh as [dr Hx].
  exists (mkbc (<[i := mkbuf true dr ROOTDEV b false 0 d]> (bufs s)) (mru i (lru s)) (disk s) (writes s)).
  split; [|split; [|split; [|split]]].
  - unfold brelse. by rewrite (bind_ok _ _ _ _ _ (get_buf_run _ _ _ Hx)).
  - pose proof (held_inv s V D H i b dr d dr false d (mru i (lru s)) (disk s) (writes s) Hinv Hx (mk_is_Some _ _ HV)) as Hi.
    rewrite (same_dirty _ Hx), (insert_id V b d HV) in Hi. apply Hi; [|done|].
    + apply mru_perm; [rewrite (bi_lru _ _ _ _ Hinv); apply NoDup_seq|by eapply buf_in_lru].
    + intros -> _. destruct Hor as [HD|]; [|done]. by apply (dirty_in false Hx) in HD.
  - done.
  - done.
  - intros j c e Hc Hj. apply (holds_with s i _ j c e); [by eapply other_buf|done].
Qed.
End held.
End operations.
