(* ===== verification/Ide.v ===== *)
(** * xv6 disk driver

    Models [src/lab3/xv6-public/ide.c] (the same file is in lab4): the queue of
    requests linked through [qnext], [iderw] called by any number of processes,
    the interrupt handler, and the commands sent to the drive.

    The drive itself is not code of the kernel: it is a type with the four port
    instructions the driver uses ([Ata]), and what the driver relies on is a class
    of laws ([AtaLaws]) about its registers.  A drive may fail any command.  Code
    between [acquire(&idelock)] and [release(&idelock)] is one step; [sleep] gives
    up the lock, so the steps of different processes and of interrupts interleave
    there. *)
From stdpp Require Import base numbers list gmap sets strings.
From S2P Require Import Prelude Bytes Bio.
#[local] Open Scope Z_scope.

Definition SECTOR_SIZE : Z := 512.
Definition IDE_BSY : Z := 0x80.
Definition IDE_DRDY : Z := 0x40.
Definition IDE_DF : Z := 0x20.
Definition IDE_ERR : Z := 0x01.
Definition IDE_CMD_READ : Z := 0x20.
Definition IDE_CMD_WRITE : Z := 0x30.
Definition IDE_CMD_RDMUL : Z := 0xc4.
Definition IDE_CMD_WRMUL : Z := 0xc5.

(** ** The drive *)

(** The port instructions, on the state of the hardware.  [insl] and [outsl] move
    a number of 32-bit words, here as their bytes. *)
Class Ata (H : Type) : Type := {
  inb : Z → H → Z * H;
  outb : Z → Z → H → H;
  outsl : Z → list Z → H → H;
  insl : Z → nat → H → list Z * H }.

(** What a programmer sees of a drive pair: the task-file registers, the command
    whose data is still to be moved, and the sectors. *)
Inductive command : Type :=
| NoCommand
| Reading (sec : Z * Z) (count : Z)
| Writing (sec : Z * Z) (count : Z).

Record device : Type := mkdev {
  d_count : Z; d_lba0 : Z; d_lba1 : Z; d_lba2 : Z; d_drive : Z;
  d_cmd : command;
  d_disk : gmap (Z * Z) (list Z) }.

(** The sector the registers name: the drive bit and 28 bits of address. *)
Definition d_sector (v : device) : Z * Z :=
  (Z.land (Z.shiftr (d_drive v) 4) 1,
   Z.lor (d_lba0 v) (Z.lor (Z.shiftl (d_lba1 v) 8)
     (Z.lor (Z.shiftl (d_lba2 v) 16) (Z.shiftl (Z.land (d_drive v) 0x0f) 24)))).

Definition set_cmd (c : command) (v : device) : device :=
  mkdev (d_count v) (d_lba0 v) (d_lba1 v) (d_lba2 v) (d_drive v) c (d_disk v).
Definition set_sector (sec : Z * Z) (d : list Z) (v : device) : device :=
  mkdev (d_count v) (d_lba0 v) (d_lba1 v) (d_lba2 v) (d_drive v) NoCommand (<[sec := d]> (d_disk v)).

Definition reg_write (port b : Z) (v : device) : device :=
  let '(mkdev n l0 l1 l2 dr c k) := v in
  if bool_decide (port = 0x1f2) then mkdev b l0 l1 l2 dr c k
  else if bool_decide (port = 0x1f3) then mkdev n b l1 l2 dr c k
  else if bool_decide (port = 0x1f4) then mkdev n l0 b l2 dr c k
  else if bool_decide (port = 0x1f5) then mkdev n l0 l1 b dr c k
  else if bool_decide (port = 0x1f6) then mkdev n l0 l1 l2 b c k
  else if bool_decide (port = 0x1f7 ∧ b = IDE_CMD_READ) then set_cmd (Reading (d_sector v) n) v
  else if bool_decide (port = 0x1f7 ∧ b = IDE_CMD_WRITE) then set_cmd (Writing (d_sector v) n) v
  else v.

(** A status byte with the drive ready. *)
Definition is_ready (r : Z) : bool := bool_decide (Z.land r (Z.lor IDE_BSY IDE_DRDY) = IDE_DRDY).

Fixpoint polled {H} `{Ata H} (n : nat) (h : H) : H :=
  match n with O => h | S n => polled n (inb 0x1f7 h).2 end.

(** A drive that becomes ready within [polls] reads of its status: reading the
    status changes nothing else, and a ready drive takes register writes and
    commands.  It may fail the command it is given ([fault]), which its status shows
    in DF or ERR once it is ready; only then does a read have no data, and a write
    leave the sector as it was. *)
Class AtaLaws (polls : nat) (H : Type) `{Ata H} : Type := {
  view : H → device;
  ready : H → Prop;
  fault : H → bool;
  inb_view h : view (inb 0x1f7 h).2 = view h;
  inb_ready h : is_ready (inb 0x1f7 h).1 = true → ready (inb 0x1f7 h).2;
  inb_fault h : fault (inb 0x1f7 h).2 = fault h;
  inb_error h : is_ready (inb 0x1f7 h).1 = true → bool_decide (Z.land (inb 0x1f7 h).1 (Z.lor IDE_DF IDE_ERR) ≠ 0) = fault h;
  inb_patience h : ∃ n, (n < polls)%nat ∧ is_ready (inb 0x1f7 (polled n h)).1 = true;
  outb_view p b h : ready h → view (outb p b h) = reg_write p b (view h);
  outb_ready p b h : ready h → p ≠ 0x1f7 → ready (outb p b h);
  outsl_view d h sec : d_cmd (view h) = Writing sec 1 → length d = 512%nat →
    view (outsl 0x1f0 d h) = if fault (outsl 0x1f0 d h) then set_cmd NoCommand (view h) else set_sector sec d (view h);
  insl_view h sec d : ready h → fault h = false → d_cmd (view h) = Reading sec 1 → d_disk (view h) !! sec = Some d →
    (insl 0x1f0 128 h).1 = d ∧ view (insl 0x1f0 128 h).2 = set_cmd NoCommand (view h) }.

(** ** The driver *)

(** A process is elsewhere, asleep in [iderw] on a buffer, or woken from there. *)
Inductive pstate : Type :=
| Elsewhere
| Sleeping (chan : nat)
| Runnable (chan : nat).
#[export] Instance pstate_eq_dec : EqDecision pstate.
Proof. solve_decision. Defined.

Section driver.
Context {H : Type} `{Ata H} (polls : nat).

Record ide : Type := mkide {
  dbufs : list buf;                  (** the buffers *)
  holder : list (option nat);        (** the process that has each buffer's sleep lock *)
  qnext : list (option nat);         (** [b->qnext] *)
  idequeue : option nat;
  havedisk1 : bool;
  procs : list pstate;
  hw : H }.

Definition set_dbuf (i : nat) (x : buf) (s : ide) : ide :=
  mkide (<[i := x]> (dbufs s)) (holder s) (qnext s) (idequeue s) (havedisk1 s) (procs s) (hw s).
Definition set_qnext (i : nat) (p : option nat) (s : ide) : ide :=
  mkide (dbufs s) (holder s) (<[i := p]> (qnext s)) (idequeue s) (havedisk1 s) (procs s) (hw s).
Definition set_idequeue (p : option nat) (s : ide) : ide :=
  mkide (dbufs s) (holder s) (qnext s) p (havedisk1 s) (procs s) (hw s).
Definition set_havedisk1 (b : bool) (s : ide) : ide :=
  mkide (dbufs s) (holder s) (qnext s) (idequeue s) b (procs s) (hw s).
Definition set_procs (ps : list pstate) (s : ide) : ide :=
  mkide (dbufs s) (holder s) (qnext s) (idequeue s) (havedisk1 s) ps (hw s).
Definition set_hw (h : H) (s : ide) : ide :=
  mkide (dbufs s) (holder s) (qnext s) (idequeue s) (havedisk1 s) (procs s) h.

Definition on_hw {A} (m : M H A) : M ide A := λ s,
  match m (hw s) with Ok (a, h) => Ok (a, set_hw h s) | Fault f => Fault f end.
Definition in_port (p : Z) : M H Z := λ h, Ok (inb p h).
Definition out_port (p b : Z) : M H unit := modify (outb p b).

Fixpoint wait_ready (fuel : nat) (checkerr : bool) : M H Z :=
  match fuel with
  | O => fail OutOfFuel
  | S n =>
    r ← in_port 0x1f7;
    if negb (bool_decide (Z.land r (Z.lor IDE_BSY IDE_DRDY) = IDE_DRDY)) then wait_ready n checkerr
    else if checkerr && bool_decide (Z.land r (Z.lor IDE_DF IDE_ERR) ≠ 0) then mret (-1)
    else mret 0
  end.
Definition idewait (checkerr : bool) : M ide Z := on_hw (wait_ready polls checkerr).

Fixpoint probe (i : nat) : M ide unit :=
  match i with
  | O => mret tt
  | S i => r ← on_hw (in_port 0x1f7); if bool_decide (r ≠ 0) then modify (set_havedisk1 true) else probe i
  end.
Definition ideinit : M ide unit :=
  idewait false;;
  on_hw (out_port 0x1f6 (Z.lor 0xe0 (Z.shiftl 1 4)));;
  probe 1000;;
  on_hw (out_port 0x1f6 (Z.lor 0xe0 (Z.shiftl 0 4))).

Definition get_dbuf (i : nat) : M ide buf := λ s,
  match dbufs s !! i with Some x => Ok (x, s) | None => Fault Undefined end.

Definition idestart (b : option nat) : M ide unit :=
  match b with
  | None => panic "idestart"
  | Some i =>
    x ← get_dbuf i;
    if bool_decide (FSSIZE ≤ blockno x) then panic "incorrect blockno"
    else
      let sector_per_block := Z.of_nat BSIZE / SECTOR_SIZE in
      let sector := s32 (blockno x * sector_per_block) in
      let read_cmd := if bool_decide (sector_per_block = 1) then IDE_CMD_READ else IDE_CMD_RDMUL in
      let write_cmd := if bool_decide (sector_per_block = 1) then IDE_CMD_WRITE else IDE_CMD_WRMUL in
      if bool_decide (7 < sector_per_block) then panic "idestart"
      else
        idewait false;;
        on_hw (out_port 0x3f6 0;;
          out_port 0x1f2 sector_per_block;;
          out_port 0x1f3 (Z.land sector 0xff);;
          out_port 0x1f4 (Z.land (Z.shiftr sector 8) 0xff);;
          out_port 0x1f5 (Z.land (Z.shiftr sector 16) 0xff);;
          out_port 0x1f6 (Z.lor (Z.lor 0xe0 (Z.shiftl (Z.land (bdev x) 1) 4)) (Z.land (Z.shiftr sector 24) 0x0f)));;
        if dirty x then
          on_hw (out_port 0x1f7 write_cmd);;
          if bool_decide (length (data x) = BSIZE) then on_hw (modify (outsl 0x1f0 (data x))) else fail Undefined
        else on_hw (out_port 0x1f7 read_cmd)
  end.

(** [wakeup(b)] *)
Definition wake (i : nat) (p : pstate) : pstate := if bool_decide (p = Sleeping i) then Runnable i else p.
Definition wakeup (i : nat) : M ide unit := modify (λ s, set_procs (wake i <$> procs s) s).

Definition ideintr : M ide unit :=
  b ← gets idequeue;
  match b with
  | None => mret tt
  | Some i =>
    n ← (λ s, match qnext s !! i with Some n => Ok (n, s) | None => Fault Undefined end);
    modify (set_idequeue n);;
    x ← get_dbuf i;
    (if dirty x then mret tt
     else
       r ← idewait true;
       if bool_decide (0 ≤ r) then
         d ← on_hw (λ h, Ok (insl 0x1f0 (BSIZE / 4) h));
         modify (set_dbuf i (set_data d x))
       else mret tt);;
    x ← get_dbuf i;
    modify (set_dbuf i (set_flags true false x));;
    wakeup i;;
    q ← gets idequeue;
    match q with Some j => idestart (Some j) | None => mret tt end
  end.

(** A pointer to a link of the queue: [&idequeue] or [&b->qnext]. *)
Inductive link : Type := Queue | Qnext (i : nat).
Definition deref (pp : link) (s : ide) : option (option nat) :=
  match pp with Queue => Some (idequeue s) | Qnext i => qnext s !! i end.
Definition assign (pp : link) (p : option nat) (s : ide) : ide :=
  match pp with Queue => set_idequeue p s | Qnext i => set_qnext i p s end.
Fixpoint last_link (fuel : nat) (pp : link) (s : ide) : res link :=
  match fuel with
  | O => Fault OutOfFuel
  | S n => v ← of_option (deref pp s); match v with None => Ok pp | Some j => last_link n (Qnext j) s end
  end.

(** The loop at the end of [iderw], from where process [t] tests the flags. *)
Definition iderw_loop (t i : nat) : M ide unit :=
  x ← get_dbuf i;
  modify (λ s, set_procs (<[t := if valid x && negb (dirty x) then Elsewhere else Sleeping i]> (procs s)) s).

(** [iderw(b)] by process [t], until it returns or sleeps. *)
Definition iderw_call (t i : nat) : M ide unit :=
  x ← get_dbuf i;
  o ← gets holder;
  h ← gets havedisk1;
  if negb (bool_decide (o !! i = Some (Some t))) then panic "iderw: buf not locked"
  else if valid x && negb (dirty x) then panic "iderw: nothing to do"
  else if bool_decide (bdev x ≠ 0) && negb h then panic "iderw: ide disk 1 not present"
  else
    modify (set_qnext i None);;
    pp ← (λ s, match last_link (S (S (length (qnext s)))) Queue s with Ok pp => Ok (pp, s) | Fault f => Fault f end);
    modify (assign pp (Some i));;
    q ← gets idequeue;
    (if bool_decide (q = Some i) then idestart (Some i) else mret tt);;
    iderw_loop t i.

End driver.
Arguments ide : clear implicits.
Arguments mkide {H}.

(** ** Runs *)
Section runs.
Context (polls : nat) {H : Type} `{HA : Ata H} `{HL : !AtaLaws polls H}.

(** What a step shows: a request is queued, the request at the head of the queue is
    served or was failed by the drive, a process returns from [iderw], a process
    changes a buffer. *)
Inductive event : Type :=
| Request (t i : nat)
| Served (i : nat)
| Failed (i : nat)
| Return (t i : nat)
| Update (i : nat) (x : buf).

(** Buffers are touched by the holder of their lock, or when nobody holds it. *)
Definition may_touch (t : nat) (o : option nat) : Prop := o = None ∨ o = Some t.
Definition buf_wf (x : buf) (o : option nat) : Prop :=
  0 ≤ blockno x < 2^32 ∧ length (data x) = BSIZE ∧ blocked x = bool_decide (o ≠ None).

(** Processes that hold a buffer call [iderw] for a block of the disk; woken ones
    test their buffer's flags again; the interrupt handler runs at any time; a
    sleeping process may be woken for another reason ([kill]); processes elsewhere
    lock, change and release buffers. *)
Inductive ide_step (s : ide H) : list event → ide H → Prop :=
| step_call t i x s' : procs s !! t = Some Elsewhere → dbufs s !! i = Some x → blockno x < FSSIZE →
    iderw_call polls t i s = Ok (tt, s') → ide_step s [Request t i] s'
| step_resume t i s' : procs s !! t = Some (Runnable i) → iderw_loop t i s = Ok (tt, s') →
    ide_step s (if bool_decide (procs s' !! t = Some Elsewhere) then [Return t i] else []) s'
| step_intr s' : ideintr polls s = Ok (tt, s') →
    ide_step s (match idequeue s with Some i => [if fault (hw s) then Failed i else Served i] | None => [] end) s'
| step_kill t i : procs s !! t = Some (Sleeping i) → ide_step s [] (set_procs (<[t := Runnable i]> (procs s)) s)
| step_client t i o o' x : procs s !! t = Some Elsewhere → holder s !! i = Some o → may_touch t o → may_touch t o' →
    buf_wf x o' →
    ide_step s [Update i x]
      (mkide (<[i := x]> (dbufs s)) (<[i := o']> (holder s)) (qnext s) (idequeue s) (havedisk1 s) (procs s) (hw s)).

Inductive ide_run (s : ide H) : list event → ide H → Prop :=
| run_nil : ide_run s [] s
| run_snoc tr s' ev s'' : ide_run s tr s' → ide_step s' ev s'' → ide_run s (tr ++ ev) s''.

(** ** The contract *)

(** A buffer cache over a disk, and the buffers whose requests wait, in order.
    Serving one is [iderw] of the buffer cache's model, in one step; one that the
    drive failed leaves the disk and the bytes of the buffer as they were, and marks
    the buffer valid and clean all the same. *)
Inductive spec_step (hd : bool) : bcache * list nat → event → bcache * list nat → Prop :=
| spec_request t i c q : i ∉ q → spec_step hd (c, q) (Request t i) (c, q ++ [i])
| spec_served i c c' q : iderw hd i c = Ok (tt, c') → spec_step hd (c, i :: q) (Served i) (c', q)
| spec_failed i x c q : bufs c !! i = Some x →
    spec_step hd (c, i :: q) (Failed i) (mkbc (<[i := set_flags true false x]> (bufs c)) (lru c) (disk c) (writes c), q)
| spec_return t i x c q : i ∉ q → bufs c !! i = Some x → valid x = true → dirty x = false →
    spec_step hd (c, q) (Return t i) (c, q)
| spec_update i x c q : i ∉ q →
    spec_step hd (c, q) (Update i x) (mkbc (<[i := x]> (bufs c)) (lru c) (disk c) (writes c), q).

Inductive spec_run (hd : bool) (a : bcache * list nat) : list event → bcache * list nat → Prop :=
| spec_nil : spec_run hd a [] a
| spec_snoc tr a' ev a'' : spec_run hd a tr a' → spec_step hd a' ev a'' → spec_run hd a (tr ++ [ev]) a''.
End runs.

(** ** A drive in memory *)

(** It is busy for one read of its status after a command, and has one bad sector:
    the device, whether it is busy, and whether the command has failed. *)
Definition bad_sector : Z * Z := (0, 13).
Definition memdrive : Type := device * bool * bool.
#[export] Instance memdrive_ata : Ata memdrive := {
  inb p h := (if h.1.2 then IDE_BSY else if h.2 then Z.lor IDE_DRDY IDE_ERR else IDE_DRDY, (h.1.1, false, h.2));
  outb p b h := if bool_decide (p = 0x1f7) then (reg_write p b h.1.1, true, bool_decide (d_sector h.1.1 = bad_sector)) else (reg_write p b h.1.1, h.1.2, h.2);
  outsl p d h := (match d_cmd h.1.1 with Writing sec _ => if h.2 then set_cmd NoCommand h.1.1 else set_sector sec d h.1.1 | _ => h.1.1 end, h.1.2, h.2);
  insl p n h := (match d_cmd h.1.1 with Reading sec _ => default [] (d_disk h.1.1 !! sec) | _ => [] end, (set_cmd NoCommand h.1.1, h.1.2, h.2)) }.
#[export] Instance memdrive_laws : AtaLaws 2 memdrive.
Proof.
  refine {| view := λ h, h.1.1; ready := λ h, h.1.2 = false; fault := λ h, h.2 |}; simpl.
  - done.
  - done.
  - done.
  - by intros [[? []] []].
  - intros [[d []] []]; [exists 1%nat|exists 1%nat|exists 0%nat|exists 0%nat]; split; try lia; done.
  - intros p b h _. by case_bool_decide.
  - intros p b h Hh Hp. by rewrite bool_decide_eq_false_2.
  - intros d h sec Hc _. by rewrite Hc.
  - intros h sec d _ _ Hc Hd. by rewrite Hc, Hd.
Defined.
