(* ===== verification/IdeClaims.v ===== *)
(** * The disk driver implements its contract

    The buffer cache is built on an [iderw] that carries out a request before it
    returns (Bio).  Here every interleaving of processes and interrupts in the
    driver is shown to be a run of that contract with the requests in the order
    they were made, and every request to be completed. *)
From stdpp Require Import base numbers list gmap sets strings.
From S2P Require Import Prelude Bytes Bio Ide.
#[local] Open Scope Z_scope.

(** ** Sector addresses *)
Lemma lba_split b : 0 ≤ b < FSSIZE →
  Z.lor (Z.land b 0xff) (Z.lor (Z.shiftl (Z.land (Z.shiftr b 8) 0xff) 8)
     (Z.lor (Z.shiftl (Z.land (Z.shiftr b 16) 0xff) 16) (Z.shiftl (Z.land (Z.land (Z.shiftr b 24) 0x0f) 0x0f) 24))) = b.
Proof.
  unfold FSSIZE. intros Hb. assert (∀ k, 10 ≤ k → Z.shiftr b k = 0) as Hs.
  { intros k Hk. rewrite Z.shiftr_div_pow2 by lia. apply Z.div_small. pose proof (Z.pow_le_mono_r 2 10 k). lia. }
  rewrite (Hs 16), (Hs 24) by lia. change (Z.land 0 _) with 0. rewrite !Z.shiftl_0_l, !Z.lor_0_r.
  apply Z.bits_inj'. intros n Hn. change 255 with (Z.ones 8). rewrite Z.lor_spec, Z.land_spec, Z.shiftl_spec, Z.testbit_ones_nonneg by lia.
  destruct (decide (n < 8)).
  - rewrite (proj2 (Z.ltb_lt n 8)), (Z.testbit_neg_r _ (n - 8)) by lia. by rewrite andb_true_r, orb_false_r.
  - rewrite (proj2 (Z.ltb_ge n 8)), Z.land_spec, Z.shiftr_spec, Z.sub_add, andb_false_r by lia. cbn [orb].
    rewrite Z.testbit_ones_nonneg by lia. destruct (decide (n - 8 < 8)); [rewrite (proj2 (Z.ltb_lt (n - 8) 8)) by lia; by rewrite andb_true_r|].
    rewrite (proj2 (Z.ltb_ge (n - 8) 8)), andb_false_r by lia.
    assert (Z.testbit b n = false) as ->; [|done]. rewrite <- (Z.add_0_l n), <- Z.shiftr_spec, Hs by lia. by rewrite Z.testbit_0_l.
Qed.
Lemma drive_split dev h : 0 ≤ h < 16 → let r := Z.lor (Z.lor 0xe0 (Z.shiftl (Z.land dev 1) 4)) h in
  Z.land (Z.shiftr r 4) 1 = Z.land dev 1 ∧ Z.land r 0x0f = h.
Proof.
  intros Hh r. subst r. assert (Z.land dev 1 = 0 ∨ Z.land dev 1 = 1) as Hd.
  { pose proof (Z.land_ones dev 1 ltac:(lia)) as E. change (Z.ones 1) with 1 in E. rewrite E. pose proof (Z.mod_pos_bound dev (2^1)). lia. }
  assert (h ∈ seqZ 0 16) as Hi by (by apply elem_of_seqZ). clear Hh. revert Hi.
  repeat (intros [->|Hi]%elem_of_cons; [destruct Hd as [-> | ->]; done|]; revert Hi). intros []%not_elem_of_nil.
Qed.

Section driver.
Context {H : Type} `{AtaLaws polls H}.

(** ** The drive *)
Lemma wait_ready_from n : ∀ fuel c h, is_ready (inb 0x1f7 (polled n h)).1 = true → (n < fuel)%nat →
  ∃ h', wait_ready fuel c h = Ok (if c && fault h then -1 else 0, h') ∧ ready h' ∧ view h' = view h ∧ fault h' = fault h.
Proof using H1.
  assert (∀ fuel c h, is_ready (inb 0x1f7 h).1 = true → wait_ready (S fuel) c h = Ok (if c && fault h then -1 else 0, (inb 0x1f7 h).2)) as Hnow.
  { intros fuel c h Hr. cbn [wait_ready]. unfold in_port, mbind, M_bind. pose proof (inb_error h Hr) as G. unfold is_ready in Hr. destruct (inb 503 h) as [r h'].
    cbn [fst snd] in *. rewrite Hr, G. cbn [negb]. by destruct (c && fault h). }
  induction n as [|n IH]; intros [|fuel] c h Hr Hf; [lia| |lia|]; cbn [polled] in *.
  - exists (inb 0x1f7 h).2. rewrite Hnow by done. split_and!; [done|by apply inb_ready|apply inb_view|apply inb_fault].
  - destruct (is_ready (inb 0x1f7 h).1) eqn:Er.
    + exists (inb 0x1f7 h).2. rewrite Hnow by done. split_and!; [done|by apply inb_ready|apply inb_view|apply inb_fault].
    + destruct (IH fuel c (inb 0x1f7 h).2 Hr ltac:(lia)) as (h'' & E' & R' & V' & F'). exists h''. rewrite V', F', inb_view, inb_fault. rewrite inb_fault in E'. split; [|done].
      cbn [wait_ready]. unfold in_port, mbind, M_bind. unfold is_ready in Er. destruct (inb 503 h) as [r h']. cbn [fst snd] in *. by rewrite Er.
Qed.
Lemma idewait_ok c (s : ide H) : ∃ h, idewait polls c s = Ok (if c && fault (hw s) then -1 else 0, set_hw h s) ∧ ready h ∧ view h = view (hw s) ∧ fault h = fault (hw s).
Proof using H1.
  destruct (inb_patience (hw s)) as (n & Hn & Hr). destruct (wait_ready_from n polls c (hw s) Hr Hn) as (h & E & R & V & F).
  exists h. unfold idewait, on_hw. by rewrite E.
Qed.

Lemma read_command v : reg_write 0x1f7 IDE_CMD_READ v = set_cmd (Reading (d_sector v) (d_count v)) v.
Proof. by destruct v. Qed.
Lemma write_command v : reg_write 0x1f7 IDE_CMD_WRITE v = set_cmd (Writing (d_sector v) (d_count v)) v.
Proof. by destruct v. Qed.

(** The six writes that select a sector. *)
Lemma task_file h n l0 l1 l2 dr : ready h →
  let h' := outb 0x1f6 dr (outb 0x1f5 l2 (outb 0x1f4 l1 (outb 0x1f3 l0 (outb 0x1f2 n (outb 0x3f6 0 h))))) in
  ready h' ∧ view h' = mkdev n l0 l1 l2 dr (d_cmd (view h)) (d_disk (view h)).
Proof using H1.
  intros R h'. subst h'. assert (∀ p b g, ready g → p ≠ 0x1f7 → ready (outb p b g)) as Ho by apply outb_ready.
  split; [repeat (apply Ho; [|done]); done|].
  rewrite !outb_view by (repeat (apply Ho; [|done]); done). by destruct (view h).
Qed.
Lemma sector_selected x cmd k : 0 ≤ blockno x < FSSIZE →
  d_sector (mkdev 1 (Z.land (blockno x) 0xff) (Z.land (Z.shiftr (blockno x) 8) 0xff) (Z.land (Z.shiftr (blockno x) 16) 0xff)
    (Z.lor (Z.lor 0xe0 (Z.shiftl (Z.land (bdev x) 1) 4)) (Z.land (Z.shiftr (blockno x) 24) 0x0f)) cmd k) = sector x.
Proof.
  intros Hb. unfold d_sector, sector. cbn [d_drive d_lba0 d_lba1 d_lba2].
  destruct (drive_split (bdev x) (Z.land (Z.shiftr (blockno x) 24) 0x0f)) as [-> E].
  { change 0x0f with (Z.ones 4). rewrite Z.land_ones by lia. by apply Z.mod_pos_bound. }
  rewrite E. f_equal. rewrite <- (lba_split (blockno x) Hb) at 5. do 3 f_equal.
  rewrite <- Z.land_assoc. done.
Qed.

(** The drive works on the request of buffer [x], from contents [k]. *)
Definition started (x : buf) (k : gmap (Z * Z) (list Z)) (h : H) : Prop :=
  if dirty x then d_disk (view h) = (if fault h then k else <[sector x := data x]> k)
  else d_disk (view h) = k ∧ d_cmd (view h) = Reading (sector x) 1.

Lemma idestart_ok (s : ide H) i x : dbufs s !! i = Some x → 0 ≤ blockno x < FSSIZE → length (data x) = BSIZE →
  ∃ h, idestart polls (Some i) s = Ok (tt, set_hw h s) ∧ started x (d_disk (view (hw s))) h.
Proof using H1.
  intros Hx Hb Hl. destruct (idewait_ok false s) as (h & E & R & V & _).
  unfold idestart, get_dbuf, mbind, M_bind. rewrite Hx, bool_decide_eq_false_2 by lia.
  change (Z.of_nat BSIZE / SECTOR_SIZE) with 1. rewrite Z.mul_1_r, s32_small by (unfold FSSIZE in Hb; lia).
  rewrite (bool_decide_eq_false_2 (7 < 1)), !(bool_decide_eq_true_2 (1 = 1)), E by lia. cbn [andb]. unfold on_hw, out_port, modify. cbn [hw set_hw].
  match goal with |- context [outb 0x1f6 ?d ?g] => set (h6 := outb 0x1f6 d g) end.
  destruct (task_file h 1 (Z.land (blockno x) 0xff) (Z.land (Z.shiftr (blockno x) 8) 0xff) (Z.land (Z.shiftr (blockno x) 16) 0xff)
    (Z.lor (Z.lor 0xe0 (Z.shiftl (Z.land (bdev x) 1) 4)) (Z.land (Z.shiftr (blockno x) 24) 0x0f)) R) as [R6 V6].
  fold h6 in R6, V6. unfold started. destruct (dirty x) eqn:Ed.
  - rewrite bool_decide_eq_true_2 by done. eexists. split; [done|].
    assert (d_cmd (view (outb 0x1f7 IDE_CMD_WRITE h6)) = Writing (sector x) 1) as Ec.
    { rewrite outb_view, V6, write_command, sector_selected by done. done. }
    cbn [hw set_hw]. rewrite (outsl_view _ _ _ Ec Hl). rewrite outb_view, V6, write_command, V by done. match goal with |- context [fault ?g] => generalize (fault g) end. by intros [].
  - eexists. split; [done|]. cbn [hw set_hw]. rewrite outb_view, V6, read_command, sector_selected, <- V by done. done.
Qed.

(** ** The queue *)
Fixpoint chain (q : list (option nat)) (p : option nat) (l : list nat) : Prop :=
  match l with
  | [] => p = None
  | i :: l => p = Some i ∧ ∃ n, q !! i = Some n ∧ chain q n l
  end.

Lemma chain_insert q i v l : ∀ p, i ∉ l → chain q p l → chain (<[i := v]> q) p l.
Proof.
  induction l as [|j l IH]; intros p Hi; [done|]. intros (-> & n & Hn & Hc). split; [done|]. apply not_elem_of_cons in Hi as [Hij Hi].
  exists n. split; [by rewrite list_lookup_insert_ne|by apply IH].
Qed.
Lemma chain_bound q l : ∀ p, chain q p l → ∀ i, i ∈ l → (i < length q)%nat.
Proof.
  induction l as [|j l IH]; intros p Hc i Hi; [by apply not_elem_of_nil in Hi|]. destruct Hc as (-> & n & Hn & Hc).
  apply elem_of_cons in Hi as [->|Hi]; [by eapply lookup_lt_Some|by eapply IH].
Qed.
Lemma chain_length q p l : chain q p l → NoDup l → (length l ≤ length q)%nat.
Proof.
  intros Hc Hn. rewrite <- (length_seq (length q) 0). apply submseteq_length, NoDup_submseteq; [done|].
  intros i Hi. apply elem_of_seq. pose proof (chain_bound _ _ _ Hc i Hi). lia.
Qed.
Lemma chain_snoc q i l : ∀ p, chain q p l → NoDup l → i ∉ l → q !! i = Some None →
  chain (match last l with None => q | Some j => <[j := Some i]> q end) (match last l with None => Some i | _ => p end) (l ++ [i]).
Proof.
  induction l as [|j l IH]; intros p; [intros _ _ _ Hq; simpl; eauto|]. intros (-> & n & Hn & Hc) [Hj Hnd]%NoDup_cons [Hij Hi]%not_elem_of_cons Hq.
  destruct l as [|k l]; simpl in Hc.
  - subst n. split; [done|]. exists (Some i). simpl. rewrite list_lookup_insert_eq by (by eapply lookup_lt_Some).
    split; [done|]. split; [done|]. exists None. by rewrite list_lookup_insert_ne.
  - change (last (j :: k :: l)) with (last (k :: l)). specialize (IH n Hc Hnd Hi Hq).
    destruct (last (k :: l)) as [m|] eqn:El; [|by apply last_None in El]. split; [done|]. exists n. split; [|exact IH].
    rewrite list_lookup_insert_ne; [done|]. intros ->. apply Hj. by apply last_Some_elem_of.
Qed.
Lemma last_link_ok (s : ide H) l : ∀ fuel pp p, deref pp s = Some p → chain (qnext s) p l → (length l < fuel)%nat →
  last_link fuel pp s = Ok (match last l with None => pp | Some j => Qnext j end).
Proof.
  induction l as [|j l IH]; intros [|fuel] pp p Hp Hc Hf; simpl in Hf; try lia; cbn [last_link]; unfold mbind, res_bind; rewrite Hp.
  - simpl in Hc. by subst p.
  - destruct Hc as (-> & n & Hn & Hc). cbn [of_option]. rewrite (IH fuel (Qnext j) n Hn Hc) by lia.
    destruct l as [|k l]; [done|]. change (last (j :: k :: l)) with (last (k :: l)). by destruct (last (k :: l)) eqn:El; [|apply last_None in El].
Qed.

(** ** The invariant *)
Definition full_disk (hd : bool) (k : gmap (Z * Z) (list Z)) : Prop :=
  ∀ dev b, dev = 0 ∨ hd = true ∧ dev = 1 → 0 ≤ b < FSSIZE → ∃ d, k !! (dev, b) = Some d ∧ length d = BSIZE.
Definition synced (x : buf) : bool := valid x && negb (dirty x).
Record pending (hd : bool) (x : buf) : Prop := {
  pd_flags : synced x = false;
  pd_block : 0 ≤ blockno x < FSSIZE;
  pd_data : length (data x) = BSIZE;
  pd_lock : blocked x = true;
  pd_dev : bdev x = 0 ∨ hd = true }.
(** Process [t] is in [iderw] for buffer [i]. *)
Definition waits (s : ide H) (t i : nat) : Prop := procs s !! t = Some (Sleeping i) ∨ procs s !! t = Some (Runnable i).

(** The state of the driver, the contract's cache and the requests in order. *)
Record inv (c : bcache) (l : list nat) (s : ide H) : Prop := {
  iv_bufs : bufs c = dbufs s;
  iv_len : length (qnext s) = length (dbufs s) ∧ length (holder s) = length (dbufs s);
  iv_chain : chain (qnext s) (idequeue s) l;
  iv_nodup : NoDup l;
  iv_wf : ∀ i x o, dbufs s !! i = Some x → holder s !! i = Some o → buf_wf x o;
  iv_disk : full_disk (havedisk1 s) (disk c);
  iv_queued : ∀ i, i ∈ l → ∃ x t, dbufs s !! i = Some x ∧ pending (havedisk1 s) x ∧ waits s t i;
  iv_waits : ∀ t i, waits s t i → holder s !! i = Some (Some t) ∧ (i ∈ l ∨ ∃ x, dbufs s !! i = Some x ∧ synced x = true);
  iv_asleep : ∀ t i, procs s !! t = Some (Sleeping i) → i ∈ l;
  iv_dev : match l with
           | [] => d_disk (view (hw s)) = disk c
           | i :: _ => ∀ x, dbufs s !! i = Some x → started x (disk c) (hw s)
           end }.

Lemma held_not_queued c l s t i : inv c l s → procs s !! t = Some Elsewhere → ∀ o, holder s !! i = Some o → may_touch t o → i ∉ l.
Proof using.
  intros Hi Ht o Ho Hm Hin. destruct (iv_queued _ _ _ Hi i Hin) as (x & t' & _ & _ & Hw).
  destruct (iv_waits _ _ _ Hi _ _ Hw) as [Hh _]. destruct Hm as [-> | ->]; [congruence|]. assert (t' = t) as -> by congruence. destruct Hw; congruence.
Qed.

(** *** Calling [iderw] *)
Definition enqueued (t i : nat) (l : list nat) (s : ide H) (h : H) : ide H :=
  let q := <[i := None]> (qnext s) in
  mkide (dbufs s) (holder s) (match last l with None => q | Some j => <[j := Some i]> q end)
    (match last l with None => Some i | _ => idequeue s end) (havedisk1 s) (<[t := Sleeping i]> (procs s)) h.

Lemma call_inv c l s t i x h : inv c l s → procs s !! t = Some Elsewhere → dbufs s !! i = Some x → pending (havedisk1 s) x →
  holder s !! i = Some (Some t) →
  match l with [] => started x (disk c) h | _ => h = hw s end → inv c (l ++ [i]) (enqueued t i l s h).
Proof using.
  intros Hi Ht Hx Hp Hh Hd. pose proof (held_not_queued _ _ _ _ _ Hi Ht _ Hh ltac:(by right)) as Hil.
  assert (i < length (qnext s))%nat as Hlt by (rewrite (proj1 (iv_len _ _ _ Hi)); by eapply lookup_lt_Some).
  pose proof (lookup_lt_Some _ _ _ Ht) as Htl.
  assert (∀ t' j, waits (enqueued t i l s h) t' j ↔ t' = t ∧ j = i ∨ t' ≠ t ∧ waits s t' j) as Hw.
  { intros t' j. unfold waits. cbn [procs enqueued]. destruct (decide (t' = t)) as [->|Hne]; [rewrite list_lookup_insert_eq by done|rewrite list_lookup_insert_ne by done]; naive_solver. }
  split; cbn [dbufs holder qnext idequeue havedisk1 procs hw enqueued]; try apply Hi.
  - rewrite <- (proj1 (iv_len _ _ _ Hi)). split; [|rewrite (proj1 (iv_len _ _ _ Hi)); apply Hi]. destruct (last l); by rewrite !length_insert.
  - apply (chain_snoc (<[i := None]> (qnext s)) i l (idequeue s)); [apply chain_insert; [done|apply Hi]|apply Hi|done|by apply list_lookup_insert_eq].
  - apply NoDup_app. split; [apply Hi|]. split; [|apply NoDup_singleton]. intros j Hj ->%list_elem_of_singleton. done.
  - intros j [Hj| ->%list_elem_of_singleton]%elem_of_app.
    + destruct (iv_queued _ _ _ Hi j Hj) as (y & t' & Hy & Hpy & Hwt). exists y, t'. split_and!; [done..|]. apply Hw. right. split; [|done].
      intros ->. destruct Hwt; congruence.
    + exists x, t. split_and!; [done..|]. apply Hw. by left.
  - intros t' j [[-> ->]|[_ Hwt]]%Hw; [split; [done|]; left; apply elem_of_app; right; by apply list_elem_of_singleton|].
    destruct (iv_waits _ _ _ Hi _ _ Hwt) as [? [?|?]]; (split; [done|]); [left; apply elem_of_app; by left|by right].
  - intros t' j. destruct (decide (t' = t)) as [->|Hne]; [rewrite list_lookup_insert_eq by done; intros [= ->]; apply elem_of_app; right; by apply list_elem_of_singleton|].
    rewrite list_lookup_insert_ne by done. intros Hs. apply elem_of_app. left. by eapply iv_asleep.
  - destruct l as [|j l]; simpl.
    + intros y Hy. by simplify_eq.
    + subst h. pose proof (iv_dev _ _ _ Hi) as Hdv. exact Hdv.
Qed.

Lemma call_ok c l s t i x : inv c l s → procs s !! t = Some Elsewhere → dbufs s !! i = Some x → pending (havedisk1 s) x →
  holder s !! i = Some (Some t) → ∃ h, iderw_call polls t i s = Ok (tt, enqueued t i l s h) ∧ inv c (l ++ [i]) (enqueued t i l s h).
Proof using H1.
  intros Hi Ht Hx Hp Hh. pose proof (held_not_queued _ _ _ _ _ Hi Ht _ Hh ltac:(by right)) as Hil. pose proof Hp as [Pf Pb Pd Pl Pv].
  set (s1 := set_qnext i None s).
  assert (last_link (S (S (length (qnext s1)))) Queue s1 = Ok (match last l with None => Queue | Some j => Qnext j end)) as El.
  { apply (last_link_ok s1 l _ _ (idequeue s)); [done|apply chain_insert; [done|apply Hi]|]. cbn [qnext s1 set_qnext]. rewrite length_insert.
    pose proof (chain_length _ _ _ (iv_chain _ _ _ Hi) (iv_nodup _ _ _ Hi)). lia. }
  assert (bool_decide (bdev x ≠ 0) && negb (havedisk1 s) = false) as Eh by (by destruct Pv as [-> | ->]; [|apply andb_false_r]).
  unfold synced in Pf. unfold iderw_call, iderw_loop, get_dbuf, gets, mbind, M_bind, modify. rewrite Hx, bool_decide_eq_true_2, Pf by done. cbn [negb]. rewrite Eh. fold s1. rewrite El.
  destruct l as [|j l].
  - cbn [last assign]. rewrite bool_decide_eq_true_2 by done. destruct (idestart_ok (set_idequeue (Some i) s1) i x Hx Pb Pd) as (h & -> & Hst).
    exists h. cbn [dbufs set_hw set_idequeue s1 set_qnext procs]. rewrite Hx, Pf. split; [done|].
    apply (call_inv _ _ _ _ _ x); [done..|]. by rewrite <- (iv_dev _ _ _ Hi).
  - destruct (last (j :: l)) as [m|] eqn:Em; [|by apply last_None in Em]. cbn [assign idequeue s1 set_qnext].
    destruct (iv_chain _ _ _ Hi) as [Eq _]. rewrite Eq, bool_decide_eq_false_2 by (intros [= ->]; apply Hil; by left).
    exists (hw s). unfold mret, M_ret. cbn [dbufs set_qnext procs s1]. rewrite Hx, Pf. unfold enqueued. rewrite Em. split; [done|].
    pose proof (call_inv _ _ _ _ _ x (hw s) Hi Ht Hx Hp Hh eq_refl) as Hc. unfold enqueued in Hc. by rewrite Em in Hc.
Qed.

(** *** The interrupt handler *)
Lemma set_dbuf_id i x (s : ide H) : dbufs s !! i = Some x → s = set_hw (hw s) (set_dbuf i x s).
Proof. intros Hx. destruct s. unfold set_dbuf, set_hw. simpl in *. by rewrite list_insert_id. Qed.
Lemma sector_drive hd x : pending hd x → (sector x).1 = 0 ∨ hd = true ∧ (sector x).1 = 1.
Proof.
  intros Hp. unfold sector. cbn [fst]. destruct (pd_dev _ _ Hp) as [-> | ->]; [by left|].
  pose proof (Z.land_ones (bdev x) 1 ltac:(lia)) as E. change (Z.ones 1) with 1 in E. rewrite E. pose proof (Z.mod_pos_bound (bdev x) (2^1) ltac:(lia)). lia.
Qed.

(** What an interrupt says of the request at the head. *)
Definition outcome (s : ide H) (i : nat) : event := if fault (hw s) then Failed i else Served i.
Lemma transfer_ok hd c l (s : ide H) i x : dbufs s !! i = Some x → bufs c !! i = Some x → pending hd x → full_disk hd (disk c) →
  started x (disk c) (hw s) → ∃ x1 h c',
  (if dirty x then mret tt
   else r ← idewait polls true;
     if bool_decide (0 ≤ r) then
       d ← on_hw (λ h, Ok (insl 0x1f0 (BSIZE / 4) h));
       modify (set_dbuf i (set_data d x))
     else mret tt) s = Ok (tt, set_hw h (set_dbuf i x1 s)) ∧
  spec_step hd (c, i :: l) (outcome s i) (c', l) ∧ bufs c' = <[i := set_flags true false x1]> (bufs c) ∧
  disk c' = d_disk (view h) ∧ full_disk hd (disk c') ∧
  length (data x1) = BSIZE ∧ blockno x1 = blockno x ∧ blocked x1 = blocked x.
Proof using H1.
  intros Hx Hc Hp Hfull Hst. pose proof Hp as [Pf Pb Pd Pl Pv]. unfold started in Hst. unfold outcome.
  assert (bool_decide (bdev x ≠ 0) && negb hd = false) as Eh by (by destruct Pv as [-> | ->]; [|apply andb_false_r]). unfold synced in Pf.
  assert (iderw hd i c = (if dirty x then Ok (tt, mkbc (<[i := set_flags true false x]> (bufs c)) (lru c) (<[sector x := data x]> (disk c)) (writes c ++ [(sector x, data x)]))
    else match disk c !! sector x with Some d => Ok (tt, mkbc (<[i := set_flags true false (set_data d x)]> (bufs c)) (lru c) (disk c) (writes c)) | None => Fault Undefined end)) as Hrw.
  { unfold iderw, get_buf, mbind, M_bind. rewrite Hc, Pl. cbn [negb]. rewrite Pf, Eh, (bool_decide_eq_false_2 (FSSIZE ≤ blockno x)) by lia.
    destruct (dirty x); [done|]. unfold gets, lift. by destruct (disk c !! sector x). }
  destruct (dirty x) eqn:Ed.
  - destruct (fault (hw s)).
    { eexists x, (hw s), _. split_and!; [unfold mret, M_ret; by rewrite <- (set_dbuf_id i x s Hx)|by apply spec_failed|done|done|done|done..]. }
    eexists x, (hw s), _. split_and!; [unfold mret, M_ret; by rewrite <- (set_dbuf_id i x s Hx)|apply spec_served, Hrw|done|done| |done..].
    intros dev b Hdv Hb. cbn [disk]. destruct (decide (sector x = (dev, b))) as [<-|Hne]; [rewrite lookup_insert_eq; eauto|].
    rewrite lookup_insert_ne by done. by apply Hfull.
  - destruct Hst as [Hk Hcmd]. destruct (idewait_ok true s) as (h & Ew & R & V & F). unfold mbind, M_bind. rewrite Ew. cbn [andb]. destruct (fault (hw s)).
    { rewrite (bool_decide_eq_false_2 (0 ≤ -1)) by lia. eexists x, h, _. split_and!; [|by apply spec_failed|done|by rewrite V|done|done..].
      unfold mret, M_ret. rewrite (set_dbuf_id i x s Hx) at 1. done. }
    rewrite bool_decide_eq_true_2 by done.
    destruct (Hfull (sector x).1 (blockno x) (sector_drive _ _ Hp) Pb) as (d & Hd & Hdl). change ((sector x).1, blockno x) with (sector x) in Hd.
    rewrite <- V in Hcmd. destruct (insl_view h (sector x) d R F Hcmd ltac:(by rewrite V, Hk)) as [Ed1 Ev]. rewrite Hd in Hrw.
    unfold on_hw, modify. cbn [hw set_hw]. change (BSIZE / 4)%nat with 128%nat. destruct (insl 0x1f0 128 h) as [d' h'] eqn:Ei. cbn [fst snd] in *. subst d'.
    eexists (set_data d x), h', _. split_and!; [done|apply spec_served, Hrw|done| |done|done|done|done].
    cbn [disk]. by rewrite Ev, <- Hk, <- V.
Qed.

Definition served (i : nat) (n : option nat) (x : buf) (h : H) (s : ide H) : ide H :=
  mkide (<[i := x]> (dbufs s)) (holder s) (qnext s) n (havedisk1 s) (wake i <$> procs s) h.

Lemma wake_waits i n x h s t j : waits (served i n x h s) t j ↔ waits s t j.
Proof.
  unfold waits. cbn [procs served]. rewrite list_lookup_fmap. unfold wake. destruct (procs s !! t) as [p|]; simpl; [|naive_solver].
  case_bool_decide; naive_solver.
Qed.

Lemma intr_inv c c' i l s n x h : inv c (i :: l) s → qnext s !! i = Some n → chain (qnext s) n l →
  bufs c' = <[i := x]> (bufs c) → full_disk (havedisk1 s) (disk c') → synced x = true →
  (∀ o, holder s !! i = Some o → buf_wf x o) →
  match l with [] => d_disk (view h) = disk c' | j :: _ => ∀ y, dbufs s !! j = Some y → started y (disk c') h end →
  inv c' l (served i n x h s).
Proof using.
  intros Hi Hq Hc Hb Hfull Hs Hwf Hdv. pose proof (iv_nodup _ _ _ Hi) as [Hil Hnd]%NoDup_cons.
  assert (∀ j, j ≠ i → <[i := x]> (dbufs s) !! j = dbufs s !! j) as Hne by (intros j Hj; by rewrite list_lookup_insert_ne).
  destruct (iv_queued _ _ _ Hi i ltac:(by left)) as (x0 & t0 & Hx0 & _). pose proof (lookup_lt_Some _ _ _ Hx0) as Hlt.
  split; cbn [dbufs holder qnext idequeue havedisk1 procs hw served]; try done.
  - by rewrite Hb, (iv_bufs _ _ _ Hi).
  - rewrite length_insert. apply Hi.
  - intros j y o. destruct (decide (j = i)) as [->|Hj]; [rewrite list_lookup_insert_eq by done; intros [= <-]; apply Hwf|].
    rewrite Hne by done. apply Hi.
  - intros j Hj. destruct (iv_queued _ _ _ Hi j ltac:(by right)) as (y & t & Hy & Hp & Hw). exists y, t.
    rewrite Hne by (by intros ->). by rewrite wake_waits.
  - intros t j Hw%wake_waits. destruct (iv_waits _ _ _ Hi _ _ Hw) as [Hh Hor]. split; [done|]. destruct (decide (j = i)) as [->|Hj].
    + right. exists x. by rewrite list_lookup_insert_eq.
    + rewrite Hne by done. destruct Hor as [[?|?]%elem_of_cons|?]; [done|by left|by right].
  - intros t j. rewrite list_lookup_fmap. intros (p & Hp & E)%fmap_Some. unfold wake in E. case_bool_decide as Hpi; [done|]. subst p.
    pose proof (iv_asleep _ _ _ Hi _ _ Hp) as [->|?]%elem_of_cons; done.
  - destruct l as [|j l]; [done|]. intros y. rewrite Hne by (intros ->; apply Hil; by left). apply Hdv.
Qed.

Lemma intr_ok c i l s : inv c (i :: l) s → ∃ c' s', ideintr polls s = Ok (tt, s') ∧ spec_step (havedisk1 s) (c, i :: l) (outcome s i) (c', l) ∧
  inv c' l s' ∧ havedisk1 s' = havedisk1 s ∧ procs s' = wake i <$> procs s.
Proof using H1.
  intros Hi. destruct (iv_chain _ _ _ Hi) as (Eq & n & Hn & Hc). destruct (iv_queued _ _ _ Hi i ltac:(by left)) as (x & t & Hx & Hp & Hw).
  pose proof (iv_nodup _ _ _ Hi) as [Hil Hnd]%NoDup_cons. pose proof (lookup_lt_Some _ _ _ Hx) as Hlt.
  destruct (transfer_ok (havedisk1 s) c l (set_idequeue n s) i x) as (x1 & h & c' & Hrun & Hspec & Hb & Hk & Hfull & Hl1 & Hb1 & Hlk);
    [done|by rewrite (iv_bufs _ _ _ Hi)|done|apply Hi|by apply (iv_dev _ _ _ Hi)|].
  exists c'. unfold ideintr. rewrite (bind_ok _ _ s (Some i) s) by (unfold gets; by rewrite Eq). cbv iota beta.
  rewrite (bind_ok _ _ s n s) by (by rewrite Hn). rewrite (bind_ok _ _ s tt (set_idequeue n s)) by done.
  rewrite (bind_ok _ _ _ x (set_idequeue n s)) by (unfold get_dbuf; cbn [dbufs set_idequeue]; by rewrite Hx). rewrite (bind_ok _ _ _ _ _ Hrun).
  set (s1 := set_hw h (set_dbuf i x1 (set_idequeue n s))).
  rewrite (bind_ok _ _ _ x1 s1) by (unfold get_dbuf; cbn [dbufs s1 set_hw set_dbuf set_idequeue]; by rewrite list_lookup_insert_eq).
  set (x' := set_flags true false x1). assert (∀ h' : H, set_hw h' (set_procs (wake i <$> procs s1) (set_dbuf i x' s1)) = served i n x' h' s) as Hsv.
  { intros h'. unfold served, set_procs, set_dbuf, set_hw. cbn. by rewrite list_insert_insert_eq. }
  rewrite (bind_ok _ _ _ tt (set_dbuf i x' s1)) by done. rewrite (bind_ok _ _ _ tt (served i n x' h s)) by (unfold wakeup, modify; by rewrite <- Hsv).
  rewrite (bind_ok _ _ _ n (served i n x' h s)) by done.
  assert (∀ o, holder s !! i = Some o → buf_wf x' o) as Hwf.
  { intros o Ho. destruct (iv_wf _ _ _ Hi _ _ _ Hx Ho) as (W1 & W2 & W3). unfold buf_wf. cbn [blockno data blocked x' set_flags]. by rewrite Hb1, Hlk. }
  destruct l as [|j l]; simpl in Hc.
  - subst n. exists (served i None x' h s). split; [done|]. split; [done|]. split; [|done]. by apply (intr_inv c c').
  - destruct Hc as (-> & m & Hm & Hc). destruct (iv_queued _ _ _ Hi j ltac:(set_solver)) as (y & t' & Hy & [Py1 Py2 Py3 _ _] & _).
    destruct (idestart_ok (served i (Some j) x' h s) j y) as (h' & -> & Hst); [|done..|].
    { cbn [dbufs served]. rewrite list_lookup_insert_ne; [done|]. intros ->. apply Hil. by left. }
    exists (served i (Some j) x' h' s). split; [done|]. split; [done|]. split; [|done]. apply (intr_inv c c'); try done.
    + simpl. eauto.
    + intros y' Hy'. cbn [hw served] in Hst. rewrite <- Hk in Hst. by simplify_eq.
Qed.
Lemma intr_idle c s : inv c [] s → ideintr polls s = Ok (tt, s).
Proof using. intros Hi. pose proof (iv_chain _ _ _ Hi) as Hc. simpl in Hc. unfold ideintr, gets, mbind, M_bind. by rewrite Hc. Qed.

(** *** The other steps *)
Lemma procs_inv c l s t i p : inv c l s → waits s t i → p = Elsewhere ∧ i ∉ l ∨ (p = Sleeping i ∧ i ∈ l ∨ p = Runnable i) →
  inv c l (set_procs (<[t := p]> (procs s)) s).
Proof using.
  intros Hi Ht Hp. assert (t < length (procs s))%nat as Hlt by (destruct Ht; by eapply lookup_lt_Some).
  set (s' := set_procs _ s). assert (∀ t' j, t' ≠ t → waits s' t' j ↔ waits s t' j) as Hne.
  { intros t' j Hn. unfold waits. cbn [procs s' set_procs]. by rewrite list_lookup_insert_ne. }
  assert (∀ j, waits s' t j → j = i ∧ p ≠ Elsewhere) as Hself.
  { intros j. unfold waits. cbn [procs s' set_procs]. rewrite list_lookup_insert_eq by done. naive_solver. }
  split; try apply Hi.
  - intros j Hj. destruct (iv_queued _ _ _ Hi j Hj) as (x & t' & Hx & Hpd & Hw). destruct (decide (t' = t)) as [->|Hn]; [|exists x, t'; by rewrite Hne].
    assert (j = i) as -> by (destruct Ht, Hw; congruence). exists x, t. split_and!; [done..|]. unfold waits. cbn [procs s' set_procs]. rewrite list_lookup_insert_eq by done. naive_solver.
  - intros t' j Hw. destruct (decide (t' = t)) as [->|Hn]; [apply Hself in Hw as [-> _]; by apply (iv_waits _ _ _ Hi)|].
    apply Hne in Hw; [|done]. by apply (iv_waits _ _ _ Hi).
  - intros t' j. cbn [procs s' set_procs]. destruct (decide (t' = t)) as [->|Hn]; [rewrite list_lookup_insert_eq by done; naive_solver|].
    rewrite list_lookup_insert_ne by done. apply (iv_asleep _ _ _ Hi).
Qed.

Lemma client_inv c l s t i o o' x : inv c l s → procs s !! t = Some Elsewhere → holder s !! i = Some o → may_touch t o → buf_wf x o' →
  inv (mkbc (<[i := x]> (bufs c)) (lru c) (disk c) (writes c)) l
    (mkide (<[i := x]> (dbufs s)) (<[i := o']> (holder s)) (qnext s) (idequeue s) (havedisk1 s) (procs s) (hw s)).
Proof using.
  intros Hi Ht Ho Hm Hwf. pose proof (held_not_queued _ _ _ _ _ Hi Ht _ Ho Hm) as Hil. set (s' := mkide _ _ _ _ _ _ _).
  pose proof (lookup_lt_Some _ _ _ Ho) as Hlt. assert (i < length (dbufs s))%nat as Hlb by (by rewrite <- (proj2 (iv_len _ _ _ Hi))).
  assert (∀ j, j ≠ i → dbufs s' !! j = dbufs s !! j ∧ holder s' !! j = holder s !! j) as Hne by (intros j Hj; unfold s'; cbn; by rewrite !list_lookup_insert_ne).
  split; try apply Hi.
  - cbn [bufs s' dbufs]. by rewrite (iv_bufs _ _ _ Hi).
  - cbn [s' dbufs qnext holder]. rewrite !length_insert. apply Hi.
  - intros j y oj. destruct (decide (j = i)) as [->|Hj].
    + cbn [s' dbufs holder]. rewrite !list_lookup_insert_eq by done. by intros [= <-] [= <-].
    + rewrite !(proj1 (Hne j Hj)), (proj2 (Hne j Hj)). apply Hi.
  - intros j Hj. rewrite (proj1 (Hne j ltac:(by intros ->))). by apply (iv_queued _ _ _ Hi).
  - intros t' j Hw. change (waits s t' j) in Hw. destruct (iv_waits _ _ _ Hi _ _ Hw) as [Hh Hor]. destruct (decide (j = i)) as [->|Hj]; [|by rewrite (proj1 (Hne j Hj)), (proj2 (Hne j Hj))].
    exfalso. destruct Hm as [-> | ->]; [congruence|]. assert (t' = t) as -> by congruence. destruct Hw; congruence.
  - pose proof (iv_dev _ _ _ Hi) as Hd. destruct l as [|j l]; [done|]. rewrite (proj1 (Hne j ltac:(intros ->; apply Hil; by left))). exact Hd.
Qed.

(** ** Simulation *)
Lemma spec_run_app hd a b e tr1 tr2 : spec_run hd a tr1 b → spec_run hd b tr2 e → spec_run hd a (tr1 ++ tr2) e.
Proof. intros H1' H2. induction H2 as [|tr a' ev a'' Hr IH Hs]; [by rewrite app_nil_r|]. rewrite app_assoc. by eapply spec_snoc. Qed.
Lemma spec_one hd a ev b : spec_step hd a ev b → spec_run hd a [ev] b.
Proof. intros Hs. apply (spec_snoc hd a [] a ev b); [apply spec_nil|done]. Qed.

Lemma call_sim c l s t i x s' : inv c l s → procs s !! t = Some Elsewhere → dbufs s !! i = Some x → blockno x < FSSIZE →
  iderw_call polls t i s = Ok (tt, s') → (i ∉ l) ∧ inv c (l ++ [i]) s' ∧ havedisk1 s' = havedisk1 s.
Proof using H1.
  intros Hi Ht Hx Hb Hr. assert (holder s !! i = Some (Some t) ∧ synced x = false ∧ (bdev x = 0 ∨ havedisk1 s = true)) as (Hh & Hf & Hd).
  { revert Hr. unfold iderw_call, get_dbuf, gets, mbind, M_bind. rewrite Hx. case_bool_decide as Hh; [|done]. cbn [negb].
    fold (synced x). destruct (synced x); [done|]. case_bool_decide; destruct (havedisk1 s); simpl; try done; naive_solver lia. }
  destruct (iv_wf _ _ _ Hi _ _ _ Hx Hh) as (W1 & W2 & W3). assert (pending (havedisk1 s) x) as Hp by (split; [done|lia|done|by rewrite W3|done]).
  destruct (call_ok _ _ _ _ _ _ Hi Ht Hx Hp Hh) as (h & E & Hinv). rewrite E in Hr. injection Hr as <-.
  split; [|done]. eapply held_not_queued; [done..|by right].
Qed.

Lemma resume_sim c l s t i s' : inv c l s → procs s !! t = Some (Runnable i) → iderw_loop t i s = Ok (tt, s') →
  inv c l s' ∧ havedisk1 s' = havedisk1 s ∧
  (procs s' !! t = Some Elsewhere → (i ∉ l) ∧ ∃ x, bufs c !! i = Some x ∧ synced x = true).
Proof using.
  intros Hi Ht. assert (waits s t i) as Hw by (by right). unfold iderw_loop, get_dbuf, mbind, M_bind, modify.
  destruct (dbufs s !! i) as [x|] eqn:Hx; [|done]. fold (synced x). intros [= <-]. destruct (iv_waits _ _ _ Hi _ _ Hw) as [_ Hor].
  assert (synced x = true ↔ i ∉ l) as Hiff.
  { split; [intros Hs Hil|intros Hn; destruct Hor; naive_solver]. destruct (iv_queued _ _ _ Hi i Hil) as (y & _ & Hy & Hp & _).
    pose proof (pd_flags _ _ Hp). congruence. }
  split; [|split; [done|]].
  - apply (procs_inv _ _ _ _ i); [done..|]. destruct (synced x) eqn:Es; [left; naive_solver|]. right. left. split; [done|]. destruct Hor as [?|(y & Hy & Hs)]; [done|]. congruence.
  - cbn [procs set_procs]. rewrite list_lookup_insert_eq by (by eapply lookup_lt_Some). destruct (synced x) eqn:Es; [|done].
    intros _. split; [by apply Hiff|]. exists x. by rewrite (iv_bufs _ _ _ Hi).
Qed.

Lemma step_sim c l s ev s' : inv c l s → ide_step polls s ev s' →
  ∃ c' l', spec_run (havedisk1 s) (c, l) ev (c', l') ∧ inv c' l' s' ∧ havedisk1 s' = havedisk1 s.
Proof using H1.
  intros Hi [t i x s1 Ht Hx Hb Hr|t i s1 Ht Hr|s1 Hr|t i Ht|t i o o' x Ht Ho Hm Hm' Hwf].
  - destruct (call_sim _ _ _ _ _ _ _ Hi Ht Hx Hb Hr) as (Hil & Hinv & Hd). exists c, (l ++ [i]). split; [by apply spec_one, spec_request|done].
  - destruct (resume_sim _ _ _ _ _ _ Hi Ht Hr) as (Hinv & Hd & Hret). exists c, l. split; [|done]. case_bool_decide as He; [|apply spec_nil].
    destruct (Hret He) as (Hil & x & Hx & [Hv Hdr]%andb_true_iff). apply spec_one. by eapply spec_return; [..|apply negb_true_iff].
  - destruct l as [|i l].
    + rewrite (intr_idle _ _ Hi) in Hr. injection Hr as <-. exists c, []. pose proof (iv_chain _ _ _ Hi) as Hc. simpl in Hc. rewrite Hc. split; [apply spec_nil|done].
    + destruct (intr_ok _ _ _ _ Hi) as (c' & s2 & E & Hspec & Hinv & Hd & _). rewrite E in Hr. injection Hr as <-. exists c', l.
      rewrite (proj1 (iv_chain _ _ _ Hi)). split; [by apply spec_one|done].
  - exists c, l. split; [apply spec_nil|]. split; [|done]. apply (procs_inv _ _ _ _ i); [done|by left|auto].
  - eexists _, l. split; [apply spec_one, spec_update; by eapply held_not_queued|]. split; [by eapply client_inv|done].
Qed.

(** The driver with nothing to do. *)
Record at_rest (s : ide H) : Prop := {
  ar_queue : idequeue s = None;
  ar_procs : Forall (λ p, p = Elsewhere) (procs s);
  ar_len : length (qnext s) = length (dbufs s) ∧ length (holder s) = length (dbufs s);
  ar_wf : ∀ i x o, dbufs s !! i = Some x → holder s !! i = Some o → buf_wf x o;
  ar_disk : full_disk (havedisk1 s) (d_disk (view (hw s))) }.
Definition cache_of (s : ide H) : bcache := mkbc (dbufs s) [] (d_disk (view (hw s))) [].

Lemma run_sim s0 tr s : at_rest s0 → ide_run polls s0 tr s →
  ∃ c l, spec_run (havedisk1 s0) (cache_of s0, []) tr (c, l) ∧ inv c l s ∧ havedisk1 s = havedisk1 s0.
Proof using H1.
  intros [A1 A2 A3 A4 A5] Hr. induction Hr as [|tr s1 ev s2 Hr IH Hs].
  - exists (cache_of s0), []. split; [apply spec_nil|]. split; [|done]. assert (∀ t i, ¬ waits s0 t i) as Hno.
    { intros t i [Hw|Hw]; rewrite Forall_lookup in A2; specialize (A2 _ _ Hw); done. }
    split; try done; [apply NoDup_nil_2|intros i Hi; by apply not_elem_of_nil in Hi|intros t i Hw; by apply Hno in Hw|].
    intros t i Hw. exfalso. apply (Hno t i). by left.
  - destruct IH as (c & l & Hsp & Hi & Hd). destruct (step_sim _ _ _ _ _ Hi Hs) as (c' & l' & Hsp' & Hi' & Hd'). exists c', l'.
    split; [|split; [done|congruence]]. eapply spec_run_app; [done|]. by rewrite <- Hd.
Qed.

(** ** Theorems *)


Fixpoint interrupts (n : nat) : M (ide H) unit :=
  match n with O => mret tt | S n => ideintr polls;; interrupts n end.

Lemma drain l : ∀ c s, inv c l s → ∃ c' s', interrupts (length l) s = Ok (tt, s') ∧ inv c' [] s' ∧
  (∀ t i, waits s t i → waits s' t i).
Proof using H1.
  induction l as [|i l IH]; intros c s Hi; [by exists c, s|].
  destruct (intr_ok _ _ _ _ Hi) as (c1 & s1 & E & _ & Hi1 & _ & Hp). destruct (IH c1 s1 Hi1) as (c2 & s2 & E2 & Hi2 & Hw2). exists c2, s2.
  cbn [length interrupts]. rewrite (bind_ok _ _ _ _ _ E). split; [done|]. split; [done|]. intros t j Hw. apply Hw2. unfold waits. rewrite Hp.
  apply (wake_waits i (idequeue s) (mkbuf true true 0 0 true 0 []) (hw s)). done.
Qed.

(** C19: No request is lost.  Whatever happened before, as many interrupts as
    there are requests in the queue serve them all without a panic, and then every
    process that was in [iderw] is awake, finds its buffer valid and clean and
    returns; and a process that holds a buffer in need of the disk can always
    call [iderw] for it. *)
Theorem requests_complete s0 tr s : at_rest s0 → ide_run polls s0 tr s →
  (∃ n s', (n ≤ length (dbufs s))%nat ∧ interrupts n s = Ok (tt, s') ∧ idequeue s' = None ∧
    ∀ t i, waits s t i → procs s' !! t = Some (Runnable i) ∧
      ∃ s'', iderw_loop t i s' = Ok (tt, s'') ∧ procs s'' !! t = Some Elsewhere) ∧
  (∀ t i x, procs s !! t = Some Elsewhere → holder s !! i = Some (Some t) → dbufs s !! i = Some x →
    valid x = false ∨ dirty x = true → blockno x < FSSIZE → bdev x = 0 ∨ havedisk1 s = true →
    ∃ s', iderw_call polls t i s = Ok (tt, s')).
Proof using H1.
  intros H0' Hr. destruct (run_sim _ _ _ H0' Hr) as (c & q & _ & Hi & _). split.
  - destruct (drain q c s Hi) as (c' & s' & E & Hi' & Hw). exists (length q), s'. split; [|split; [done|]].
    { rewrite <- (proj1 (iv_len _ _ _ Hi)). eapply chain_length; apply Hi. }
    split; [apply (iv_chain _ _ _ Hi')|]. intros t i Ht%Hw. destruct (iv_waits _ _ _ Hi' _ _ Ht) as [_ [[]%not_elem_of_nil|(x & Hx & Hs)]].
    destruct Ht as [Ht|Ht]; [by apply (iv_asleep _ _ _ Hi'), not_elem_of_nil in Ht|]. split; [done|].
    unfold iderw_loop, get_dbuf, mbind, M_bind, modify. rewrite Hx. fold (synced x). rewrite Hs. eexists. split; [done|].
    apply list_lookup_insert_eq. by eapply lookup_lt_Some.
  - intros t i x Ht Hh Hx Hf Hb Hd. destruct (iv_wf _ _ _ Hi _ _ _ Hx Hh) as (W1 & W2 & W3).
    destruct (call_ok _ _ _ _ _ x Hi Ht Hx) as (h & E & _); [|done|by eexists].
    split; [unfold synced; destruct Hf as [-> | ->]; [done|apply andb_false_r]|lia|done|by rewrite W3|done].
Qed.

(** A drive that reports an error on a read: the handler still marks the buffer
    valid, with the bytes it had before. *)
Theorem read_error_unreported s s1 i x : idequeue s = Some i → qnext s !! i = Some None → dbufs s !! i = Some x → dirty x = false →
  idewait polls true (set_idequeue None s) = Ok (-1, s1) →
  ∃ s', ideintr polls s = Ok (tt, s') ∧ dbufs s' !! i = Some (set_flags true false x).
Proof using.
  intros Hq Hn Hx Hd Hw. assert (dbufs s1 = dbufs s ∧ idequeue s1 = None) as [Eb Eq].
  { revert Hw. unfold idewait, on_hw. destruct (wait_ready _ _ _) as [[r h]|]; [|done]. by intros [= _ <-]. }
  eexists. split.
  - unfold ideintr, gets, mbind, M_bind, get_dbuf, modify, wakeup. rewrite Hq, Hn. cbn [dbufs set_idequeue]. rewrite Hx, Hd. fold (@set_idequeue H None s). rewrite Hw.
    rewrite (bool_decide_eq_false_2 (0 ≤ -1)) by lia. unfold mret, M_ret. rewrite Eb, Hx. unfold modify. cbn [idequeue set_procs set_dbuf]. rewrite Eq. done.
  - cbn. rewrite Eb. apply list_lookup_insert_eq. by eapply lookup_lt_Some.
Qed.
End driver.

(** ** A run with three processes *)

(** Buffer 0 is to be written to block 7, buffer 1 to be filled from it, and buffer 2
    from the bad sector. *)
Definition blank_disk : gmap (Z * Z) (list Z) :=
  list_to_map ((λ b, ((0, b), replicate BSIZE 0)) <$> seqZ 0 FSSIZE).
Definition three_requests : ide memdrive :=
  mkide [mkbuf true true 0 7 true 1 (replicate BSIZE 5); mkbuf false false 0 7 true 1 (replicate BSIZE 0); mkbuf false false 0 13 true 1 (replicate BSIZE 9)]
    [Some 0%nat; Some 1%nat; Some 2%nat] [None; None; None] None false [Elsewhere; Elsewhere; Elsewhere]
    (mkdev 0 0 0 0 0 NoCommand blank_disk, false, false).

Lemma blank_disk_full : full_disk false blank_disk.
Proof.
  intros dev b [->|[? _]] Hb; [|done]. exists (replicate BSIZE 0). split; [|apply length_replicate]. unfold blank_disk.
  apply elem_of_list_to_map_1.
  - rewrite <- list_fmap_compose. apply NoDup_fmap_2; [intros ? ? [= ->]; done|apply NoDup_seqZ].
  - apply list_elem_of_fmap. exists b. split; [done|]. apply elem_of_seqZ. lia.
Qed.
Lemma three_requests_rest : at_rest three_requests.
Proof.
  split; [done|by repeat constructor|done| |exact blank_disk_full].
  intros [|[|[|i]]] x o Hx Ho; [| | |done]; injection Hx as <-; injection Ho as <-; (split; [simpl; lia|]; split; reflexivity).
Qed.
(** All call, three interrupts come. *)
Definition three_events : list event := [Request 0 0; Request 1 1; Request 2 2; Served 0; Served 1; Failed 2].
Definition after (m : M (ide memdrive) unit) (s : ide memdrive) : ide memdrive :=
  match m s with Ok (_, s') => s' | Fault _ => s end.
Definition called (t i : nat) (s : ide memdrive) : ide memdrive := after (iderw_call 2 t i) s.
Definition interrupted (s : ide memdrive) : ide memdrive := after (ideintr 2) s.
Definition all_called : ide memdrive := called 2 2 (called 1 1 (called 0 0 three_requests)).
Definition three_done : ide memdrive := interrupted (interrupted (interrupted all_called)).

Lemma after_ok (m : M (ide memdrive) unit) s : match m s with Ok _ => true | Fault _ => false end = true → m s = Ok (tt, after m s).
Proof. unfold after. by destruct (m s) as [[[] s']|]. Qed.
Lemma intr_event tr s0 s i e : ide_run 2 s0 tr s → match ideintr 2 s with Ok _ => true | Fault _ => false end = true → idequeue s = Some i →
  (if fault (hw s) then Failed i else Served i) = e → ide_run 2 s0 (tr ++ [e]) (interrupted s).
Proof.
  intros Hr Hm%after_ok Hq He. eapply run_snoc; [exact Hr|]. pose proof (step_intr 2 s _ Hm) as Hs. by rewrite Hq, He in Hs.
Qed.
Lemma call_event tr s0 s t i x : ide_run 2 s0 tr s → procs s !! t = Some Elsewhere → dbufs s !! i = Some x → blockno x < FSSIZE →
  match iderw_call 2 t i s with Ok _ => true | Fault _ => false end = true → ide_run 2 s0 (tr ++ [Request t i]) (called t i s).
Proof. intros Hr Ht Hx Hb Hm%after_ok. eapply run_snoc; [exact Hr|]. by eapply step_call. Qed.
Lemma three_requests_run : ide_run 2 three_requests three_events three_done.
Proof.
  assert (ide_run 2 three_requests [Request 0 0; Request 1 1; Request 2 2] all_called) as Hr.
  { apply (call_event [Request 0 0; Request 1 1] _ _ 2 2 (mkbuf false false 0 13 true 1 (replicate BSIZE 9))); [|vm_compute; reflexivity..].
    apply (call_event [Request 0 0] _ _ 1 1 (mkbuf false false 0 7 true 1 (replicate BSIZE 0))); [|vm_compute; reflexivity..].
    apply (call_event [] _ _ 0 0 (mkbuf true true 0 7 true 1 (replicate BSIZE 5))); [apply run_nil|vm_compute; reflexivity..]. }
  apply (intr_event [Request 0 0; Request 1 1; Request 2 2; Served 0; Served 1] _ _ 2); [|vm_compute; reflexivity..].
  apply (intr_event [Request 0 0; Request 1 1; Request 2 2; Served 0] _ _ 1); [|vm_compute; reflexivity..].
  apply (intr_event [Request 0 0; Request 1 1; Request 2 2] _ _ 0); [exact Hr|vm_compute; reflexivity..].
Qed.

(** The failed read is marked valid with the bytes the buffer had. *)
Example failed_read_valid : dbufs three_done = [mkbuf true false 0 7 true 1 (replicate BSIZE 5); mkbuf true false 0 7 true 1 (replicate BSIZE 5); mkbuf true false 0 13 true 1 (replicate BSIZE 9)].
Proof. vm_compute. reflexivity. Qed.

Lemma requests_complete_witness : ∃ s', ide_run 2 three_requests three_events three_done ∧ ∃ n, interrupts (polls := 2) n three_done = Ok (tt, s') ∧ idequeue s' = None.
Proof.
  destruct (requests_complete three_requests _ three_done three_requests_rest three_requests_run) as ((n & s' & _ & E & Hq & _) & _).
  exists s'. split; [exact three_requests_run|]. exists n. split; [exact E|exact Hq].
Defined.
