(* ===== verification/Log.v ===== *)
(** * xv6 write-ahead log

    Models [src/lab3/xv6-public/log.c] (the same file is in lab4) over the buffer
    cache, and [readsb] of [fs.c].  A system call that has to wait in [begin_op] is
    a result of that operation; the wakeups change no state of the log. *)
From stdpp Require Import base numbers list gmap sets strings.
From S2P Require Import Prelude Bytes Bio.
#[local] Open Scope Z_scope.

Definition MAXOPBLOCKS : Z := 10.
Definition LOGSIZE : Z := MAXOPBLOCKS * 3.

(** [lh_n] and [lh_block] are the in-memory header. *)
Record log : Type := mklog {
  start : Z; lsize : Z; outstanding : Z; committing : bool; ldev : Z; lh_n : Z; lh_block : list Z }.
Record lstate : Type := mkls { bc : bcache; lg : log }.

Definition on_bc {A} (m : M bcache A) : M lstate A := λ s,
  match m (bc s) with
  | Ok (a, c) => Ok (a, mkls c (lg s))
  | Fault f => Fault f
  end.
Definition set_lg (f : log → log) : M lstate unit := modify (λ s, mkls (bc s) (f (lg s))).
Definition set_n (n : Z) (l : log) : log :=
  mklog (start l) (lsize l) (outstanding l) (committing l) (ldev l) n (lh_block l).
Definition set_block (bs : list Z) (l : log) : log :=
  mklog (start l) (lsize l) (outstanding l) (committing l) (ldev l) (lh_n l) bs.
Definition set_ops (o : Z) (c : bool) (l : log) : log :=
  mklog (start l) (lsize l) o c (ldev l) (lh_n l) (lh_block l).

(** An array element; outside the array the access is undefined. *)
Definition nth_block (bs : list Z) (i : Z) : res Z :=
  if bool_decide (0 ≤ i) then of_option (bs !! Z.to_nat i) else Fault Undefined.
Definition upd_block (bs : list Z) (i v : Z) : res (list Z) :=
  if bool_decide (0 ≤ i < Z.of_nat (length bs)) then Ok (<[Z.to_nat i := v]> bs) else Fault Undefined.

Record superblock : Type := mksb {
  sb_size : Z; nblocks : Z; ninodes : Z; nlog : Z; logstart : Z; inodestart : Z; bmapstart : Z }.

Section log.
Context (havedisk1 : bool).

Definition readsb (dev : Z) : M bcache superblock :=
  bp ← bread havedisk1 dev 1;
  d ← read_data bp;
  v0 ← lift (load 4 d 0); v1 ← lift (load 4 d 4); v2 ← lift (load 4 d 8); v3 ← lift (load 4 d 12);
  v4 ← lift (load 4 d 16); v5 ← lift (load 4 d 20); v6 ← lift (load 4 d 24);
  brelse bp;;
  mret (mksb v0 v1 v2 v3 v4 v5 v6).

(** [for (tail = 0; tail < log.lh.n; tail++)] with the copying body. *)
Fixpoint install_loop (fuel : nat) (tail : Z) : M lstate unit :=
  match fuel with
  | O => fail OutOfFuel
  | S fuel =>
    l ← gets lg;
    if bool_decide (tail < lh_n l) then
      lbuf ← on_bc (bread havedisk1 (ldev l) (u32 (start l + tail + 1)));
      b ← lift (nth_block (lh_block l) tail);
      dbuf ← on_bc (bread havedisk1 (ldev l) (u32 b));
      d ← on_bc (read_data lbuf);
      on_bc (write_data dbuf d);;
      on_bc (bwrite havedisk1 dbuf);;
      on_bc (brelse lbuf);;
      on_bc (brelse dbuf);;
      install_loop fuel (tail + 1)
    else mret tt
  end.
Definition install_trans : M lstate unit :=
  l ← gets lg; install_loop (S (Z.to_nat (lh_n l))) 0.

(** The header's fields are at fixed offsets of its block. *)
Fixpoint read_loop (fuel : nat) (d : list Z) (i n : Z) (bs : list Z) : res (list Z) :=
  match fuel with
  | O => Fault OutOfFuel
  | S fuel =>
    if bool_decide (i < n) then
      v ← load_int d (4 + 4 * i);
      bs ← upd_block bs i v;
      read_loop fuel d (i + 1) n bs
    else mret bs
  end.
Definition read_head : M lstate unit :=
  l ← gets lg;
  buf ← on_bc (bread havedisk1 (ldev l) (u32 (start l)));
  d ← on_bc (read_data buf);
  n ← lift (load_int d 0);
  set_lg (set_n n);;
  bs ← lift (read_loop (S (Z.to_nat n)) d 0 n (lh_block l));
  set_lg (set_block bs);;
  on_bc (brelse buf).

Fixpoint write_loop (fuel : nat) (bs : list Z) (i n : Z) (d : list Z) : res (list Z) :=
  match fuel with
  | O => Fault OutOfFuel
  | S fuel =>
    if bool_decide (i < n) then
      v ← nth_block bs i;
      d ← store 4 d (4 + 4 * i) v;
      write_loop fuel bs (i + 1) n d
    else mret d
  end.
Definition write_head : M lstate unit :=
  l ← gets lg;
  buf ← on_bc (bread havedisk1 (ldev l) (u32 (start l)));
  d ← on_bc (read_data buf);
  d ← lift (store 4 d 0 (lh_n l));
  d ← lift (write_loop (S (Z.to_nat (lh_n l))) (lh_block l) 0 (lh_n l) d);
  on_bc (write_data buf d);;
  on_bc (bwrite havedisk1 buf);;
  on_bc (brelse buf).

Definition recover_from_log : M lstate unit :=
  read_head;; install_trans;; set_lg (set_n 0);; write_head.

(** [sizeof(struct logheader)] is 4 + 4 * LOGSIZE. *)
Definition initlog (dev : Z) : M lstate unit :=
  if bool_decide (Z.of_nat BSIZE ≤ 4 + 4 * LOGSIZE) then panic "initlog: too big logheader"
  else
    sb ← on_bc (readsb dev);
    set_lg (λ l, mklog (s32 (logstart sb)) (s32 (nlog sb)) (outstanding l) (committing l) dev (lh_n l) (lh_block l));;
    recover_from_log.

(** [false]: the caller sleeps and tries again. *)
Definition begin_op : M lstate bool :=
  l ← gets lg;
  if committing l then mret false
  else if bool_decide (lh_n l + (outstanding l + 1) * MAXOPBLOCKS > LOGSIZE) then mret false
  else set_lg (set_ops (outstanding l + 1) (committing l));; mret true.

Fixpoint write_log_loop (fuel : nat) (tail : Z) : M lstate unit :=
  match fuel with
  | O => fail OutOfFuel
  | S fuel =>
    l ← gets lg;
    if bool_decide (tail < lh_n l) then
      to ← on_bc (bread havedisk1 (ldev l) (u32 (start l + tail + 1)));
      b ← lift (nth_block (lh_block l) tail);
      from ← on_bc (bread havedisk1 (ldev l) (u32 b));
      d ← on_bc (read_data from);
      on_bc (write_data to d);;
      on_bc (bwrite havedisk1 to);;
      on_bc (brelse from);;
      on_bc (brelse to);;
      write_log_loop fuel (tail + 1)
    else mret tt
  end.
Definition write_log : M lstate unit :=
  l ← gets lg; write_log_loop (S (Z.to_nat (lh_n l))) 0.

Definition commit : M lstate unit :=
  l ← gets lg;
  if bool_decide (lh_n l > 0) then
    write_log;; write_head;; install_trans;; set_lg (set_n 0);; write_head
  else mret tt.

Definition end_op : M lstate unit :=
  l ← gets lg;
  let o := outstanding l - 1 in
  set_lg (set_ops o (committing l));;
  if committing l then panic "log.committing"
  else if bool_decide (o = 0) then
    set_lg (set_ops o true);;
    commit;;
    set_lg (λ l, set_ops (outstanding l) false l)
  else mret tt.

(** [for (i = 0; i < log.lh.n; i++) if (log.lh.block[i] == b->blockno) break;] *)
Fixpoint absorb (bs : list Z) (i n b : Z) : Z :=
  match bs with
  | [] => i
  | c :: bs =>
    if bool_decide (i < n) then
      if bool_decide (u32 c = b) then i else absorb bs (i + 1) n b
    else i
  end.

Definition log_write (i : nat) : M lstate unit :=
  l ← gets lg;
  if bool_decide (LOGSIZE ≤ lh_n l) || bool_decide (lsize l - 1 ≤ lh_n l) then panic "too big a transaction"
  else if bool_decide (outstanding l < 1) then panic "log_write outside of trans"
  else
    x ← on_bc (get_buf i);
    let k := absorb (lh_block l) 0 (lh_n l) (blockno x) in
    bs ← lift (upd_block (lh_block l) k (s32 (blockno x)));
    set_lg (set_block bs);;
    (if bool_decide (k = lh_n l) then set_lg (set_n (lh_n l + 1)) else mret tt);;
    on_bc (put_buf i (set_flags (valid x) true x)).
End log.
