(* ===== verification/LogFacts.v ===== *)
(** * The log's steps against the abstract buffer cache

    One lemma per loop iteration, the loops, and the header round trip. *)
From stdpp Require Import base numbers list gmap sets.
From S2P Require Import Prelude Bytes Bio Log.
#[local] Open Scope Z_scope.

Lemma on_bc_run {A} (m : M bcache A) s a c : m (bc s) = Ok (a, c) → on_bc m s = Ok (a, mkls c (lg s)).
Proof. unfold on_bc. by intros ->. Qed.

Lemma gets_lg s : gets lg s = Ok (lg s, s).
Proof. done. Qed.
Lemma lift_ok {A} (r : res A) a (s : lstate) : r = Ok a → lift r s = Ok (a, s).
Proof. by intros ->. Qed.

(** Runs the next cache operation with an equation about it. *)
Lemma bind_bc {A B} (m : M bcache A) (k : A → M lstate B) c l a c' :
  m c = Ok (a, c') → (on_bc m ≫= k) (mkls c l) = k a (mkls c' l).
Proof. intros Hm. by rewrite (bind_ok _ _ _ _ _ (on_bc_run m (mkls c l) a c' Hm)). Qed.
Ltac bstep Hm := rewrite (bind_bc _ _ _ _ _ _ Hm); cbv beta; cbn [bc lg].

Lemma nth_block_ok bs i v : 0 ≤ i → bs !! Z.to_nat i = Some v → nth_block bs i = Ok v.
Proof. intros Hi Hv. unfold nth_block. rewrite bool_decide_eq_true_2 by done. by rewrite Hv. Qed.

Lemma Forall2_impl_in {A B} (P Q : A → B → Prop) l k :
  Forall2 P l k → (∀ x y, x ∈ l → P x y → Q x y) → Forall2 Q l k.
Proof.
  induction 1 as [|x y l k HP HF IH]; intros HQ; constructor.
  - apply HQ; [by left|done].
  - apply IH. intros x' y' Hx. apply HQ. by right.
Qed.

(** Copies block [a] over block [b], both through the cache: the body of the two
    loops, in its two lock orders. *)
Section copy.
Context (c : bcache) (V : gmap Z (list Z)) (D : gset Z) (Hinv : binv c V D ∅).
Context (a b : Z) (d e : list Z) (Ha : V !! a = Some d) (Hb : V !! b = Some e) (Hab : a ≠ b).

Lemma install_copy : a ∉ D → (size D < NBUF)%nat → b ∈ D ∨ (size D < NBUF - 1)%nat →
  ∃ i j c1 c2 c3 c4 c5 c6,
    bread true ROOTDEV a c = Ok (i, c1) ∧ bread true ROOTDEV b c1 = Ok (j, c2) ∧ read_data i c2 = Ok (d, c2) ∧
    write_data j d c2 = Ok (tt, c3) ∧ bwrite true j c3 = Ok (tt, c4) ∧ brelse i c4 = Ok (tt, c5) ∧
    brelse j c5 = Ok (tt, c6) ∧ binv c6 (<[b := d]> V) (D ∖ {[b]}) ∅ ∧
    disk c6 = <[(ROOTDEV, b) := d]> (disk c) ∧ writes c6 = writes c ++ [((ROOTDEV, b), d)].
Proof using Hinv Ha Hb Hab.
  intros HaD Hcap Hcap2.
  assert (disk c !! (ROOTDEV, a) = Some d) as Hda by (by apply (bi_disk _ _ _ _ Hinv)).
  destruct (bread_ok _ _ _ _ Hinv a d Ha) as (i & c1 & R1 & I1 & h1 & D1 & W1 & _); [set_solver|right; by rewrite union_empty_r_L|].
  destruct (bread_ok _ _ _ _ I1 b e Hb) as (j & c2 & R2 & I2 & h2 & D2 & W2 & F2); [set_solver| |].
  { destruct Hcap2 as [|Hlt]; [by left|right]. rewrite union_empty_r_L, union_comm_L.
    rewrite size_union by set_solver. rewrite size_singleton. lia. }
  pose proof (buf_data_run _ _ _ _ (F2 _ _ _ h1)) as R3.
  destruct (write_data_ok _ _ _ _ I2 j b e Hb h2 d) as (c3 & R4 & I3 & h3 & D3 & W3 & F3).
  destruct (bwrite_ok _ _ _ _ I3 j b d (lookup_insert_eq _ _ _) h3) as (c4 & R5 & I4 & h4 & D4 & W4 & F4).
  assert (holds c4 i a d) as h1' by (apply F4; [done|]; apply F3; [done|]; by apply F2).
  destruct (brelse_ok _ _ _ _ I4 i a d) as (c5 & R6 & I5 & D5 & W5 & F5); [by rewrite lookup_insert_ne|done| |].
  { right. rewrite D4, lookup_insert_ne by naive_solver. by rewrite D3, D2, D1. }
  destruct (brelse_ok _ _ _ _ I5 j b d (lookup_insert_eq _ _ _) (F5 _ _ _ (not_eq_sym Hab) h4)) as (c6 & R7 & I6 & D6 & W6 & _).
  { right. rewrite D5, D4. apply lookup_insert_eq. }
  exists i, j, c1, c2, c3, c4, c5, c6. do 7 (split; [done|]). split; [|split].
  - replace (({[b]} ∪ ({[a]} ∪ ∅)) ∖ {[a]} ∖ {[b]}) with (∅ : gset Z) in I6 by set_solver. done.
  - by rewrite D6, D5, D4, D3, D2, D1.
  - by rewrite W6, W5, W4, W3, W2, W1.
Qed.

Lemma log_copy : b ∉ D → a ∈ D → (size D < NBUF)%nat →
  ∃ i j c1 c2 c3 c4 c5 c6,
    bread true ROOTDEV b c = Ok (i, c1) ∧ bread true ROOTDEV a c1 = Ok (j, c2) ∧ read_data j c2 = Ok (d, c2) ∧
    write_data i d c2 = Ok (tt, c3) ∧ bwrite true i c3 = Ok (tt, c4) ∧ brelse j c4 = Ok (tt, c5) ∧
    brelse i c5 = Ok (tt, c6) ∧ binv c6 (<[b := d]> V) D ∅ ∧
    disk c6 = <[(ROOTDEV, b) := d]> (disk c) ∧ writes c6 = writes c ++ [((ROOTDEV, b), d)].
Proof using Hinv Ha Hb Hab.
  intros HbD HaD Hcap.
  destruct (bread_ok _ _ _ _ Hinv b e Hb) as (i & c1 & R1 & I1 & h1 & D1 & W1 & _); [set_solver|right; by rewrite union_empty_r_L|].
  destruct (bread_ok _ _ _ _ I1 a d Ha) as (j & c2 & R2 & I2 & h2 & D2 & W2 & F2); [set_solver|by left|].
  pose proof (buf_data_run _ _ _ _ h2) as R3.
  destruct (write_data_ok _ _ _ _ I2 i b e Hb (F2 _ _ _ h1) d) as (c3 & R4 & I3 & h3 & D3 & W3 & F3).
  destruct (bwrite_ok _ _ _ _ I3 i b d (lookup_insert_eq _ _ _) h3) as (c4 & R5 & I4 & h4 & D4 & W4 & F4).
  assert (D ∖ {[b]} = D) as ED by set_solver. rewrite ED in I4. clear ED.
  assert (holds c4 j a d) as h2' by (apply F4; [done|]; by apply F3).
  destruct (brelse_ok _ _ _ _ I4 j a d) as (c5 & R6 & I5 & D5 & W5 & F5); [by rewrite lookup_insert_ne|done|by left|].
  destruct (brelse_ok _ _ _ _ I5 i b d (lookup_insert_eq _ _ _) (F5 _ _ _ (not_eq_sym Hab) h4)) as (c6 & R7 & I6 & D6 & W6 & _).
  { right. rewrite D5, D4. apply lookup_insert_eq. }
  exists i, j, c1, c2, c3, c4, c5, c6. do 7 (split; [done|]). split; [|split].
  - replace (({[a]} ∪ ({[b]} ∪ ∅)) ∖ {[a]} ∖ {[b]}) with (∅ : gset Z) in I6 by set_solver. done.
  - by rewrite D6, D5, D4, D3, D2, D1.
  - by rewrite W6, W5, W4, W3, W2, W1.
Qed.
End copy.

(** ** Sequences of writes *)
Definition apply_writes (dk : gmap (Z * Z) (list Z)) (ws : list (Z * Z * list Z)) : gmap (Z * Z) (list Z) :=
  foldl (λ m w, <[w.1 := w.2]> m) dk ws.
Definition apply_view (V : gmap Z (list Z)) (ws : list (Z * Z * list Z)) : gmap Z (list Z) :=
  foldl (λ m w, <[w.1.2 := w.2]> m) V ws.
(** The writes to the log area from block [a] on, and to the home locations. *)
Fixpoint log_writes (a : Z) (ds : list (list Z)) : list (Z * Z * list Z) :=
  match ds with [] => [] | d :: ds => ((ROOTDEV, a), d) :: log_writes (a + 1) ds end.
Definition home_writes (bl : list Z) (ds : list (list Z)) : list (Z * Z * list Z) :=
  zip_with (λ b d, ((ROOTDEV, b), d)) bl ds.

Lemma apply_writes_app dk ws1 ws2 : apply_writes dk (ws1 ++ ws2) = apply_writes (apply_writes dk ws1) ws2.
Proof. apply foldl_app. Qed.

(** ** The loops *)
Section loops.
Context (l : log) (Hdev : ldev l = ROOTDEV).

Lemma in_range c V D b d : binv c V D ∅ → V !! b = Some d → u32 b = b.
Proof. intros Hinv Hb. pose proof (bi_dom _ _ _ _ Hinv b (mk_is_Some _ _ Hb)) as Hd. unfold FSSIZE in Hd. apply u32_small. lia. Qed.

Lemma write_log_run D bl : ∀ ds k c V, Forall2 (λ b d, V !! b = Some d) bl ds → binv c V D ∅ →
  (∀ t b, bl !! t = Some b → lh_block l !! (k + t)%nat = Some b) → lh_n l = Z.of_nat (k + length bl) →
  (∀ t, (t < length bl)%nat → is_Some (V !! (start l + Z.of_nat (k + t) + 1))) →
  (∀ b, b ∈ bl → b ∈ D) → (∀ b, b ∈ D → ¬ start l ≤ b ≤ start l + lh_n l) → (size D < NBUF)%nat →
  ∃ c', write_log_loop true (S (length bl)) (Z.of_nat k) (mkls c l) = Ok (tt, mkls c' l) ∧
    let ws := log_writes (start l + Z.of_nat k + 1) ds in
    binv c' (apply_view V ws) D ∅ ∧ disk c' = apply_writes (disk c) ws ∧ writes c' = writes c ++ ws.
Proof using Hdev.
  induction bl as [|b bl IH]; intros ds k c V HF Hinv Hblk Hn Hreg HbD HD Hsz.
  { apply Forall2_nil_inv_l in HF as ->. exists c. cbn [length write_log_loop log_writes]. rewrite (bind_ok _ _ _ _ _ (gets_lg _)). cbn [bc lg].
    simpl in Hn. rewrite bool_decide_eq_false_2 by lia. split; [done|]. simpl. by rewrite app_nil_r. }
  apply Forall2_cons_inv_l in HF as (d & ds' & Hb & HF & ->). simpl in Hn.
  set (a := start l + Z.of_nat k + 1).
  assert (is_Some (V !! a)) as [e Ha] by (unfold a; specialize (Hreg 0%nat); rewrite Nat.add_0_r in Hreg; apply Hreg; simpl; lia).
  assert (b ∈ D) as HbD0 by (apply HbD; by left).
  assert (a ∉ D) as HaD by (intros Hin; apply HD in Hin; unfold a in *; lia).
  assert (b ≠ a) as Hab by (intros ->; done).
  destruct (log_copy c V D Hinv b a d e Hb Ha Hab HaD HbD0 Hsz) as (i & j & c1 & c2 & c3 & c4 & c5 & c6 & R1 & R2 & R3 & R4 & R5 & R6 & R7 & I6 & D6 & W6).
  cbn [length]. remember (S (length bl)) as fuel eqn:Hfuel. cbn [write_log_loop].
  rewrite (bind_ok _ _ _ _ _ (gets_lg _)). cbn [bc lg]. rewrite bool_decide_eq_true_2 by lia.
  rewrite Hdev. change (start l + Z.of_nat k + 1) with a. rewrite (in_range _ _ _ _ _ Hinv Ha).
  assert (nth_block (lh_block l) (Z.of_nat k) = Ok b) as Hnth.
  { apply nth_block_ok; [lia|]. rewrite Nat2Z.id. specialize (Hblk 0%nat b eq_refl). by rewrite Nat.add_0_r in Hblk. }
  bstep R1. rewrite (bind_ok _ _ _ _ _ (lift_ok _ _ _ Hnth)). rewrite (in_range _ _ _ _ _ Hinv Hb).
  bstep R2. bstep R3. bstep R4. bstep R5. bstep R6. bstep R7.
  replace (Z.of_nat k + 1) with (Z.of_nat (S k)) by lia.
  destruct (IH ds' (S k) c6 (<[a := d]> V)) as (c' & Rl & I' & D' & W'); [|done| | | | |done|done|].
  - eapply Forall2_impl_in; [exact HF|]. intros b' d' Hin Hb'. cbv beta. rewrite lookup_insert_ne; [done|]. intros <-. apply HaD, HbD. by right.
  - intros t b' Ht. specialize (Hblk (S t) b' Ht). by rewrite Nat.add_succ_r in Hblk.
  - rewrite Hn. lia.
  - intros t Ht. specialize (Hreg (S t)). rewrite Nat.add_succ_r in Hreg. simpl in Hreg.
    destruct (decide (a = start l + Z.of_nat (S k + t) + 1)) as [<-|]; [by rewrite lookup_insert_eq; eauto|].
    rewrite lookup_insert_ne by done. apply Hreg. lia.
  - intros b' Hb'. apply HbD. by right.
  - exists c'. rewrite Rl. split; [done|]. cbn [log_writes]. change (start l + Z.of_nat k + 1) with a.
    replace (a + 1) with (start l + Z.of_nat (S k) + 1) by (unfold a; lia).
    split; [done|]. split; [by rewrite D', D6|]. by rewrite W', W6, <- app_assoc.
Qed.

Lemma install_run bl : ∀ ds k c V D, Forall2 (λ b d, is_Some (V !! b)) bl ds → binv c V D ∅ → NoDup bl →
  (∀ t b, bl !! t = Some b → lh_block l !! (k + t)%nat = Some b) → lh_n l = Z.of_nat (k + length bl) →
  (∀ t d, ds !! t = Some d → V !! (start l + Z.of_nat (k + t) + 1) = Some d) →
  (∀ b, b ∈ bl ∨ b ∈ D → ¬ start l ≤ b ≤ start l + lh_n l) → (size D < NBUF)%nat →
  (∀ b, b ∈ bl → b ∈ D) ∨ (size D < NBUF - 1)%nat →
  ∃ c', install_loop true (S (length bl)) (Z.of_nat k) (mkls c l) = Ok (tt, mkls c' l) ∧
    let ws := home_writes bl ds in
    binv c' (apply_view V ws) (D ∖ list_to_set bl) ∅ ∧ disk c' = apply_writes (disk c) ws ∧ writes c' = writes c ++ ws.
Proof using Hdev.
  induction bl as [|b bl IH]; intros ds k c V D HF Hinv Hnd Hblk Hn Hreg HD Hsz Hcap.
  { apply Forall2_nil_inv_l in HF as ->. exists c. cbn [length install_loop]. rewrite (bind_ok _ _ _ _ _ (gets_lg _)). cbn [bc lg].
    simpl in Hn. rewrite bool_decide_eq_false_2 by lia. split; [done|]. simpl. by rewrite app_nil_r, difference_empty_L. }
  apply Forall2_cons_inv_l in HF as (d & ds' & [e Hb] & HF & ->). simpl in Hn.
  apply NoDup_cons in Hnd as [Hnin Hnd]. set (a := start l + Z.of_nat k + 1).
  assert (V !! a = Some d) as Ha by (unfold a; specialize (Hreg 0%nat d eq_refl); by rewrite Nat.add_0_r in Hreg).
  assert (a ∉ D) as HaD by (intros Hin; apply (HD a); [by right|]; unfold a in *; lia).
  assert (∀ b', b' ∈ b :: bl → a ≠ b') as Hab by (intros b' Hb' <-; apply (HD a); [by left|]; unfold a in *; lia).
  assert (b ∈ D ∨ (size D < NBUF - 1)%nat) as Hcap1 by (destruct Hcap as [Hin|]; [left; apply Hin; by left|by right]).
  destruct (install_copy c V D Hinv a b d e Ha Hb (Hab b ltac:(by left)) HaD Hsz Hcap1)
    as (i & j & c1 & c2 & c3 & c4 & c5 & c6 & R1 & R2 & R3 & R4 & R5 & R6 & R7 & I6 & D6 & W6).
  assert (nth_block (lh_block l) (Z.of_nat k) = Ok b) as Hnth.
  { apply nth_block_ok; [lia|]. rewrite Nat2Z.id. specialize (Hblk 0%nat b eq_refl). by rewrite Nat.add_0_r in Hblk. }
  cbn [length]. remember (S (length bl)) as fuel eqn:Hfuel. cbn [install_loop].
  rewrite (bind_ok _ _ _ _ _ (gets_lg _)). cbn [bc lg]. rewrite bool_decide_eq_true_2 by lia.
  rewrite Hdev. change (start l + Z.of_nat k + 1) with a. rewrite (in_range _ _ _ _ _ Hinv Ha).
  bstep R1. rewrite (bind_ok _ _ _ _ _ (lift_ok _ _ _ Hnth)). rewrite (in_range _ _ _ _ _ Hinv Hb).
  bstep R2. bstep R3. bstep R4. bstep R5. bstep R6. bstep R7.
  replace (Z.of_nat k + 1) with (Z.of_nat (S k)) by lia.
  assert (size (D ∖ {[b]}) ≤ size D)%nat as Hle by (apply subseteq_size; set_solver).
  destruct (IH ds' (S k) c6 (<[b := d]> V) (D ∖ {[b]})) as (c' & Rl & I' & D' & W'); [|done|done| | | | |lia| |].
  - eapply Forall2_impl_in; [exact HF|]. intros b' d' Hin Hb'. rewrite lookup_insert_ne; [done|]. by intros <-.
  - intros t b' Ht. specialize (Hblk (S t) b' Ht). by rewrite Nat.add_succ_r in Hblk.
  - rewrite Hn. lia.
  - intros t d' Ht. specialize (Hreg (S t) d' Ht). rewrite Nat.add_succ_r in Hreg. rewrite lookup_insert_ne; [done|].
    intros ->. apply lookup_lt_Some in Ht. apply Forall2_length in HF. eapply (HD (start l + Z.of_nat (S k + t) + 1)); [left; by left|]. lia.
  - intros b' Hb'. apply HD. set_solver.
  - destruct Hcap as [Hin|]; [left|right; lia]. intros b' Hb'. apply elem_of_difference. split; [apply Hin; by right|]. set_solver.
  - exists c'. rewrite Rl. split; [done|]. cbn [home_writes zip_with]. split; [|split].
    + replace (D ∖ list_to_set (b :: bl)) with (D ∖ {[b]} ∖ list_to_set bl : gset Z) by set_solver. done.
    + by rewrite D', D6.
    + by rewrite W', W6, <- app_assoc.
Qed.
End loops.

(** ** The header block *)
Record header (h : list Z) (bl : list Z) : Prop := {
  hd_len : length h = BSIZE ∧ Forall byte_ok h;
  hd_n : load_int h 0 = Ok (Z.of_nat (length bl));
  hd_block : ∀ t b, bl !! t = Some b → load_int h (4 + 4 * Z.of_nat t) = Ok b }.

Lemma load_int_same d off v d' : store 4 d off v = Ok d' → 0 ≤ v < 2^31 → load_int d' off = Ok v.
Proof.
  intros Hs Hv. unfold load_int. rewrite (load_store_same _ _ _ _ _ Hs). simpl.
  rewrite Z.mod_small by lia. unfold mret, res_ret. by rewrite s32_small by lia.
Qed.
Lemma load_int_other d off v d' off' : store 4 d off v = Ok d' → off' + 4 ≤ off ∨ off + 4 ≤ off' →
  load_int d' off' = load_int d off'.
Proof. intros Hs Ho. unfold load_int. by rewrite (load_store_other _ _ _ _ _ _ _ Hs) by (simpl; lia). Qed.
Lemma store_4 d off v : 0 ≤ off → off + 4 ≤ Z.of_nat (length d) →
  ∃ d', store 4 d off v = Ok d' ∧ length d' = length d ∧ (Forall byte_ok d → Forall byte_ok d').
Proof.
  intros H0 Hl. rewrite store_ok by (simpl; lia). eexists. split; [done|]. split.
  - rewrite length_splice; [done|]. rewrite length_le_bytes. lia.
  - intros Hd. by apply splice_forall, le_bytes_ok.
Qed.

Lemma write_loop_run bs : ∀ bl k d, (∀ t b, bl !! t = Some b → bs !! (k + t)%nat = Some b ∧ 0 ≤ b < 2^31) →
  4 + 4 * Z.of_nat (k + length bl) ≤ Z.of_nat (length d) →
  ∃ d', write_loop (S (length bl)) bs (Z.of_nat k) (Z.of_nat (k + length bl)) d = Ok d' ∧ length d' = length d ∧
    (∀ off, off + 4 ≤ 4 + 4 * Z.of_nat k → load_int d' off = load_int d off) ∧
    (∀ t b, bl !! t = Some b → load_int d' (4 + 4 * Z.of_nat (k + t)) = Ok b) ∧ (Forall byte_ok d → Forall byte_ok d').
Proof.
  induction bl as [|b bl IH]; intros k d Hbs Hlen.
  { exists d. cbn [write_loop length]. rewrite Nat.add_0_r, bool_decide_eq_false_2 by lia. done. }
  destruct (Hbs 0%nat b eq_refl) as [Hb Hr]. rewrite Nat.add_0_r in Hb.
  destruct (store_4 d (4 + 4 * Z.of_nat k) b) as (d1 & Hs & Hl1 & Hb1); [lia|simpl in Hlen; lia|].
  destruct (IH (S k) d1) as (d' & Hw & Hl' & Hlow & Hent & Hb').
  { intros t b' Ht. specialize (Hbs (S t) b' Ht). by rewrite Nat.add_succ_r in Hbs. }
  { rewrite Hl1. simpl in Hlen. lia. }
  exists d'. split; [|split; [congruence|split; [|split; [|auto]]]].
  - cbn [length]. remember (S (length bl)) as fuel eqn:Hfuel. cbn [write_loop]. rewrite bool_decide_eq_true_2 by lia.
    rewrite (nth_block_ok _ _ b) by (rewrite ?Nat2Z.id; done || lia). cbn [mbind res_bind]. rewrite Hs. cbn [mbind res_bind].
    replace (Z.of_nat k + 1) with (Z.of_nat (S k)) by lia. rewrite Hfuel, Nat.add_succ_r. rewrite <- Hfuel. exact Hw.
  - intros off Ho. rewrite Hlow by lia. by eapply load_int_other; [exact Hs|lia].
  - intros [|t] b' Ht.
    + injection Ht as <-. rewrite Nat.add_0_r, Hlow by lia. by eapply load_int_same.
    + rewrite Nat.add_succ_r. apply (Hent t b' Ht).
Qed.

Lemma head_loop_run h bs : ∀ bl k, (∀ t b, bl !! t = Some b → load_int h (4 + 4 * Z.of_nat (k + t)) = Ok b) →
  (k + length bl ≤ length bs)%nat →
  ∃ bs', read_loop (S (length bl)) h (Z.of_nat k) (Z.of_nat (k + length bl)) bs = Ok bs' ∧ length bs' = length bs ∧
    (∀ t, (t < k)%nat → bs' !! t = bs !! t) ∧ (∀ t b, bl !! t = Some b → bs' !! (k + t)%nat = Some b).
Proof.
  intros bl. revert bs. induction bl as [|b bl IH]; intros bs k Hh Hlen.
  { exists bs. cbn [read_loop length]. rewrite Nat.add_0_r, bool_decide_eq_false_2 by lia. done. }
  simpl in Hlen. destruct (IH (<[k := b]> bs) (S k)) as (bs' & Hr & Hl' & Hlow & Hent).
  { intros t b' Ht. specialize (Hh (S t) b' Ht). by rewrite Nat.add_succ_r in Hh. }
  { rewrite length_insert. lia. }
  rewrite length_insert in Hl'. exists bs'. split; [|split; [done|split]].
  - cbn [length]. remember (S (length bl)) as fuel eqn:Hfuel. cbn [read_loop]. rewrite bool_decide_eq_true_2 by lia.
    specialize (Hh 0%nat b eq_refl). rewrite Nat.add_0_r in Hh. rewrite Hh. cbn [mbind res_bind].
    unfold upd_block at 1. rewrite bool_decide_eq_true_2, Nat2Z.id by lia. cbn [mbind res_bind].
    replace (Z.of_nat k + 1) with (Z.of_nat (S k)) by lia. rewrite Hfuel, Nat.add_succ_r. rewrite <- Hfuel. exact Hr.
  - intros t Ht. rewrite Hlow by lia. apply list_lookup_insert_ne. lia.
  - intros [|t] b' Ht.
    + injection Ht as <-. rewrite Nat.add_0_r, Hlow by lia. apply list_lookup_insert_eq. lia.
    + rewrite Nat.add_succ_r. apply (Hent t b' Ht).
Qed.

Section head.
Context (l : log) (Hdev : ldev l = ROOTDEV) (c : bcache) (V : gmap Z (list Z)) (D : gset Z) (Hinv : binv c V D ∅).
Context (h : list Z) (Hh : V !! start l = Some h) (HstD : start l ∉ D) (Hsz : (size D < NBUF)%nat).

Lemma write_head_run bl : length h = BSIZE ∧ Forall byte_ok h → lh_n l = Z.of_nat (length bl) → (length bl ≤ 30)%nat →
  (∀ t b, bl !! t = Some b → lh_block l !! t = Some b ∧ 0 ≤ b < 2^31) →
  ∃ h' c', write_head true (mkls c l) = Ok (tt, mkls c' l) ∧ header h' bl ∧ binv c' (<[start l := h']> V) D ∅ ∧
    disk c' = <[(ROOTDEV, start l) := h']> (disk c) ∧ writes c' = writes c ++ [((ROOTDEV, start l), h')].
Proof using Hdev Hinv Hh HstD Hsz.
  intros [Hlen Hby] Hn Hle Hbl. unfold BSIZE in Hlen.
  destruct (store_4 h 0 (lh_n l)) as (h1 & Hs & Hl1 & Hb1); [lia|lia|].
  destruct (write_loop_run (lh_block l) bl 0 h1) as (h' & Hw & Hl' & Hlow & Hent & Hb'); [done|simpl; lia|].
  destruct (bread_ok _ _ _ _ Hinv _ _ Hh) as (i & c1 & R1 & I1 & h1' & D1 & W1 & _); [set_solver|right; by rewrite union_empty_r_L|].
  pose proof (buf_data_run _ _ _ _ h1') as R2.
  destruct (write_data_ok _ _ _ _ I1 i _ _ Hh h1' h') as (c3 & R3 & I3 & h3 & D3 & W3 & _).
  destruct (bwrite_ok _ _ _ _ I3 i _ _ (lookup_insert_eq _ _ _) h3) as (c4 & R4 & I4 & h4 & D4 & W4 & _).
  destruct (brelse_ok _ _ _ _ I4 i _ _ (lookup_insert_eq _ _ _) h4) as (c5 & R5 & I5 & D5 & W5 & _);
    [right; rewrite D4; apply lookup_insert_eq|].
  exists h', c5. split; [|split; [|split; [|split]]].
  - unfold write_head. rewrite (bind_ok _ _ _ _ _ (gets_lg _)). cbn [bc lg].
    rewrite Hdev, (in_range _ _ _ _ _ Hinv Hh). bstep R1. bstep R2.
    rewrite (bind_ok _ _ _ _ _ (lift_ok _ _ _ Hs)). rewrite Hn in *. rewrite Nat2Z.id. simpl (0 + _)%nat in Hw.
    rewrite (bind_ok _ _ _ _ _ (lift_ok _ _ _ Hw)). bstep R3. bstep R4. apply (on_bc_run _ (mkls c4 l)). exact R5.
  - split; [split; [unfold BSIZE; lia|auto]| |by apply Hent].
    rewrite Hlow by lia. eapply load_int_same; [rewrite <- Hn; exact Hs|lia].
  - replace (({[start l]} ∪ ∅) ∖ {[start l]}) with (∅ : gset Z) in I5 by set_solver.
    replace (D ∖ {[start l]}) with D in I5 by set_solver. done.
  - by rewrite D5, D4, D3, D1.
  - by rewrite W5, W4, W3, W1.
Qed.

Lemma read_head_run bl : header h bl → D = ∅ → (length bl ≤ length (lh_block l))%nat →
  ∃ bs c', read_head true (mkls c l) = Ok (tt, mkls c' (set_block bs (set_n (Z.of_nat (length bl)) l))) ∧
    length bs = length (lh_block l) ∧ (∀ t b, bl !! t = Some b → bs !! t = Some b) ∧
    binv c' V ∅ ∅ ∧ disk c' = disk c ∧ writes c' = writes c.
Proof using Hdev Hinv Hh HstD Hsz.
  intros Hhd -> Hle.
  destruct (bread_ok _ _ _ _ Hinv _ _ Hh) as (i & c1 & R1 & I1 & h1' & D1 & W1 & _); [set_solver|right; by rewrite union_empty_r_L|].
  pose proof (buf_data_run _ _ _ _ h1') as R2.
  destruct (head_loop_run h (lh_block l) bl 0) as (bs & Hr & Hl' & _ & Hent); [apply Hhd|done|].
  destruct (brelse_ok _ _ _ _ I1 i _ _ Hh h1') as (c5 & R5 & I5 & D5 & W5 & _).
  { right. rewrite D1. by apply (bi_disk _ _ _ _ Hinv). }
  exists bs, c5. split; [|split; [done|split; [done|split; [|split; congruence]]]].
  - unfold read_head. rewrite (bind_ok _ _ _ _ _ (gets_lg _)). cbn [bc lg].
    rewrite Hdev, (in_range _ _ _ _ _ Hinv Hh). bstep R1. bstep R2.
    rewrite (bind_ok _ _ _ _ _ (lift_ok _ _ _ (hd_n _ _ Hhd))). rewrite Nat2Z.id. simpl (0 + _)%nat in Hr.
    rewrite (bind_ok _ _ (mkls c1 l) tt (mkls c1 (set_n (Z.of_nat (length bl)) l)) eq_refl).
    rewrite (bind_ok _ _ _ _ _ (lift_ok _ _ _ Hr)).
    rewrite (bind_ok _ _ (mkls c1 _) tt (mkls c1 (set_block bs (set_n (Z.of_nat (length bl)) l))) eq_refl).
    apply (on_bc_run _ (mkls c1 _)). exact R5.
  - replace (({[start l]} ∪ ∅) ∖ {[start l]}) with (∅ : gset Z) in I5 by set_solver. done.
Qed.
End head.

(** ** Logging a block *)
Record logs (l : log) (bl : list Z) : Prop := {
  lo_n : lh_n l = Z.of_nat (length bl);
  lo_len : length (lh_block l) = 30%nat;
  lo_block : ∀ t b, bl !! t = Some b → lh_block l !! t = Some b ∧ 0 ≤ b < FSSIZE }.

Lemma absorb_run b : 0 ≤ b < FSSIZE → ∀ bl bs i n, n = i + Z.of_nat (length bl) → (length bl ≤ length bs)%nat →
  (∀ t x, bl !! t = Some x → bs !! t = Some x ∧ 0 ≤ x < FSSIZE) →
  absorb bs i n b = match list_find (λ x, x = b) bl with Some (t, _) => i + Z.of_nat t | None => n end.
Proof.
  intros Hb bl. induction bl as [|x bl IH]; intros bs i n Hn Hlen Hbs.
  - simpl in *. destruct bs; simpl; [lia|]. rewrite bool_decide_eq_false_2 by lia. lia.
  - destruct bs as [|y bs]; [simpl in Hlen; lia|]. destruct (Hbs 0%nat x eq_refl) as [[= ->] Hx]. simpl in Hn, Hlen.
    unfold FSSIZE in *. cbn [absorb list_find]. rewrite bool_decide_eq_true_2 by lia. rewrite u32_small by lia.
    destruct (decide (x = b)) as [->|Hne].
    + rewrite bool_decide_eq_true_2 by done. lia.
    + rewrite bool_decide_eq_false_2 by done.
      rewrite (IH bs (i + 1) n) by (lia || (intros t z Hz; exact (Hbs (S t) z Hz))).
      destruct (list_find _ bl) as [[t z]|]; simpl; lia.
Qed.

Definition log_add (b : Z) (bl : list Z) : list Z := if decide (b ∈ bl) then bl else bl ++ [b].

Lemma log_write_ok l c V D H bl i b d : binv c V D H → V !! b = Some d → holds c i b d → logs l bl →
  (length bl < 30)%nat → Z.of_nat (length bl) < lsize l - 1 → 1 ≤ outstanding l →
  ∃ c' l', log_write i (mkls c l) = Ok (tt, mkls c' l') ∧ logs l' (log_add b bl) ∧ binv c' V ({[b]} ∪ D) H ∧
    holds c' i b d ∧ disk c' = disk c ∧ writes c' = writes c ∧
    start l' = start l ∧ lsize l' = lsize l ∧ outstanding l' = outstanding l ∧ ldev l' = ldev l ∧ committing l' = committing l.
Proof.
  intros Hinv HV Hh [Hn Hlen Hbl] Hlt Hsz Ho. pose proof Hh as [dr Hx].
  pose proof (bi_dom _ _ _ _ Hinv b (mk_is_Some _ _ HV)) as Hb.
  assert (absorb (lh_block l) 0 (lh_n l) b =
    match list_find (λ x, x = b) bl with Some (t, _) => Z.of_nat t | None => lh_n l end) as Hab.
  { rewrite (absorb_run b Hb bl (lh_block l) 0 (lh_n l)) by (done || lia). by destruct (list_find _ bl) as [[t ?]|]. }
  set (k := absorb _ _ _ _) in Hab.
  assert (0 ≤ k < 30 ∧ (k = lh_n l ↔ b ∉ bl) ∧ (b ∈ bl → bl !! Z.to_nat k = Some b)) as (Hk & Hkn & Hkb).
  { rewrite Hab. destruct (list_find _ bl) as [[t x]|] eqn:Hf.
    - apply list_find_Some in Hf as (Ht & -> & _). pose proof (lookup_lt_Some _ _ _ Ht) as Htl. rewrite Nat2Z.id.
      assert (b ∈ bl) by (by eapply list_elem_of_lookup_2). split; [lia|]. split; [|done]. split; [lia|done].
    - apply list_find_None in Hf. rewrite Forall_forall in Hf.
      assert (b ∉ bl) by (intros Hin; by apply (Hf b Hin)). split; [lia|]. done. }
  assert (s32 b = b) as Hs by (apply s32_small; unfold FSSIZE in Hb; lia).
  exists (mkbc (<[i := mkbuf true true ROOTDEV b true 1 d]> (bufs c)) (lru c) (disk c) (writes c)).
  exists (mklog (start l) (lsize l) (outstanding l) (committing l) (ldev l) (if decide (b ∈ bl) then lh_n l else lh_n l + 1)
    (<[Z.to_nat k := b]> (lh_block l))).
  split; [|split; [|split; [|split; [|done]]]].
  - unfold log_write. rewrite (bind_ok _ _ _ _ _ (gets_lg _)). cbn [bc lg]. unfold LOGSIZE, MAXOPBLOCKS.
    rewrite !bool_decide_eq_false_2 by lia. cbn [orb].
    rewrite (bind_bc _ _ _ _ _ _ (get_buf_run _ _ _ Hx)). cbv beta. cbn [blockno valid set_flags bdev blocked refcnt data].
    fold k. unfold upd_block. rewrite (bool_decide_eq_true_2 (0 ≤ k < Z.of_nat (length (lh_block l)))) by lia.
    rewrite (bind_ok _ _ _ _ _ (lift_ok (Ok _) _ _ eq_refl)). rewrite Hs.
    rewrite (bind_ok _ _ (mkls c l) tt (mkls c (set_block (<[Z.to_nat k := b]> (lh_block l)) l)) eq_refl).
    destruct (decide (b ∈ bl)) as [Hin|Hin].
    + rewrite bool_decide_eq_false_2 by naive_solver. done.
    + rewrite bool_decide_eq_true_2 by naive_solver. done.
  - unfold log_add. split; cbn [lh_n lh_block].
    + destruct (decide (b ∈ bl)); [done|]. rewrite length_app. simpl. lia.
    + by rewrite length_insert.
    + intros t x Ht. destruct (decide (t = Z.to_nat k)) as [->|Hne].
      * rewrite list_lookup_insert_eq by lia.
        assert (x = b) as -> by (destruct (decide (b ∈ bl)) as [Hin|Hin]; [apply Hkb in Hin; congruence|];
          assert (k = lh_n l) as Ek by naive_solver; rewrite Ek, Hn, Nat2Z.id, list_lookup_middle in Ht by done; congruence).
        done.
      * rewrite list_lookup_insert_ne by done. destruct (decide (b ∈ bl)) as [Hin|Hin]; [by apply Hbl|].
        apply lookup_app_Some in Ht as [?|[Hge Ht]]; [by apply Hbl|]. apply list_lookup_singleton_Some in Ht as [Ht _].
        assert (k = lh_n l) as Ek by naive_solver. lia.
  - pose proof (held_inv c V D H i b dr d true true d (lru c) (disk c) (writes c) Hinv Hx (mk_is_Some _ _ HV)) as Hi.
    rewrite (insert_id V b d HV) in Hi. by apply Hi.
  - exists true. simpl. apply list_lookup_insert_eq. by eapply lookup_lt_Some.
Qed.

(** The buffer [log_write] changes, and how. *)
Lemma log_write_buf i s s' : log_write i s = Ok (tt, s') →
  ∃ x, bufs (bc s) !! i = Some x ∧ bc s' = with_buf (bc s) i (set_flags (valid x) true x).
Proof.
  unfold log_write. rewrite (bind_ok _ _ _ _ _ (gets_lg _)). destruct (_ || _); [done|]. case_bool_decide; [done|].
  intros R. apply bind_inv in R as (x & s1 & G1 & R). unfold on_bc, get_buf in G1.
  destruct (bufs (bc s) !! i) as [y|] eqn:Hy; [|done]. injection G1 as <- <-.
  apply bind_inv in R as (bs & s2 & G2 & R). unfold lift in G2. destruct (upd_block _ _ _); [|done]. injection G2 as _ <-.
  apply bind_inv in R as ([] & s3 & G3 & R). injection G3 as <-. apply bind_inv in R as ([] & s4 & G4 & R).
  exists y. split; [done|]. unfold on_bc in R. injection R as <-. case_bool_decide; by injection G4 as <-.
Qed.
