(* ===== verification/LogClaims.v ===== *)
(** * Crash safety of the xv6 log

    What a disk with a log on it means, that every write of a commit and of a
    recovery moves it between allowed meanings only, and the admission rule of
    [begin_op]. *)
From stdpp Require Import base numbers list gmap sets strings relations.
From S2P Require Import Prelude Bytes Bio Log LogFacts.
#[local] Open Scope Z_scope.

(** ** The meaning of a disk

    The log is the [nl] blocks from [st] on.  A home block named by the header has
    the content of its log block, any other its own. *)
Section meaning.
Context (st nl : Z).
Implicit Types (dk : gmap (Z * Z) (list Z)) (L V : gmap Z (list Z)).

Definition home (c : Z) : Prop := 0 ≤ c < FSSIZE ∧ ¬ (st ≤ c < st + nl).
Definition logical (bl : list Z) dk (c : Z) : option (list Z) :=
  match list_find (λ b, b = c) bl with
  | Some (t, _) => dk !! (ROOTDEV, st + 1 + Z.of_nat t)
  | None => dk !! (ROOTDEV, c)
  end.

Record durable_at dk (h bl : list Z) L : Prop := {
  du_h : dk !! (ROOTDEV, st) = Some h;
  du_header : header h bl;
  du_nodup : NoDup bl;
  du_len : Z.of_nat (length bl) < nl ∧ (length bl ≤ 30)%nat;
  du_home : ∀ b, b ∈ bl → home b;
  du_logical : ∀ c, home c → logical bl dk c = L !! c }.
Definition durable dk L : Prop := ∃ h bl, durable_at dk h bl L.

Lemma logical_in bl dk t b : NoDup bl → bl !! t = Some b → logical bl dk b = dk !! (ROOTDEV, st + 1 + Z.of_nat t).
Proof.
  intros Hnd Ht. unfold logical. destruct (list_find _ bl) as [[t' b']|] eqn:Hf.
  - apply list_find_Some in Hf as (Hb' & -> & _). by rewrite (NoDup_lookup _ _ _ _ Hnd Hb' Ht).
  - apply list_find_None in Hf. rewrite Forall_lookup in Hf. by destruct (Hf t b Ht).
Qed.
Lemma logical_out bl dk c : c ∉ bl → logical bl dk c = dk !! (ROOTDEV, c).
Proof.
  intros Hc. unfold logical. destruct (list_find _ bl) as [[t' b']|] eqn:Hf; [|done].
  apply list_find_Some in Hf as (Hb' & -> & _). destruct Hc. by eapply list_elem_of_lookup_2.
Qed.

(** *** Reading after writing *)
Lemma log_writes_out ds : ∀ a dk c, ¬ (a ≤ c < a + Z.of_nat (length ds)) →
  apply_writes dk (log_writes a ds) !! (ROOTDEV, c) = dk !! (ROOTDEV, c).
Proof.
  induction ds as [|d ds IH]; intros a dk c Hc; [done|]. cbn [log_writes apply_writes foldl]. simpl in Hc.
  fold (apply_writes (<[(ROOTDEV, a) := d]> dk) (log_writes (a + 1) ds)). rewrite IH by lia.
  apply lookup_insert_ne. intros [= ->]. lia.
Qed.
Lemma log_writes_in ds : ∀ a dk t d, ds !! t = Some d →
  apply_writes dk (log_writes a ds) !! (ROOTDEV, a + Z.of_nat t) = Some d.
Proof.
  induction ds as [|d0 ds IH]; intros a dk t d Ht; [done|]. cbn [log_writes apply_writes foldl].
  fold (apply_writes (<[(ROOTDEV, a) := d0]> dk) (log_writes (a + 1) ds)). destruct t as [|t].
  - injection Ht as ->. rewrite log_writes_out by lia. rewrite Z.add_0_r. apply lookup_insert_eq.
  - replace (a + Z.of_nat (S t)) with (a + 1 + Z.of_nat t) by lia. by apply IH.
Qed.
Lemma take_log_writes ds : ∀ a k, take k (log_writes a ds) = log_writes a (take k ds).
Proof. induction ds as [|d ds IH]; intros a [|k]; simpl; [done..|]. by rewrite IH. Qed.

Lemma home_writes_out bl : ∀ ds dk c, c ∉ bl → apply_writes dk (home_writes bl ds) !! (ROOTDEV, c) = dk !! (ROOTDEV, c).
Proof.
  induction bl as [|b bl IH]; intros [|d ds] dk c Hc; [done..|]. cbn [home_writes zip_with apply_writes foldl].
  fold (apply_writes (<[(ROOTDEV, b) := d]> dk) (home_writes bl ds)). rewrite IH by set_solver.
  apply lookup_insert_ne. set_solver.
Qed.
Lemma home_writes_in bl : ∀ ds dk t b d, NoDup bl → bl !! t = Some b → ds !! t = Some d →
  apply_writes dk (home_writes bl ds) !! (ROOTDEV, b) = Some d.
Proof.
  induction bl as [|b0 bl IH]; intros [|d0 ds] dk [|t] b d Hnd Hb Hd; simplify_eq/=;
    apply NoDup_cons in Hnd as [Hnin Hnd].
  - cbn [apply_writes foldl]. fold (apply_writes (<[(ROOTDEV, b) := d]> dk) (home_writes bl ds)).
    rewrite home_writes_out by done. apply lookup_insert_eq.
  - cbn [apply_writes foldl]. fold (apply_writes (<[(ROOTDEV, b0) := d0]> dk) (home_writes bl ds)). by eapply IH.
Qed.
Lemma take_home_writes bl ds k : take k (home_writes bl ds) = home_writes (take k bl) (take k ds).
Proof. apply zip_with_take. Qed.

(** *** Installing keeps the meaning *)
Section install.
Context (dk : gmap (Z * Z) (list Z)) (h bl : list Z) (L : gmap Z (list Z)) (Hd : durable_at dk h bl L).
Context (ds : list (list Z)) (Hlen : length ds = length bl).
Context (Hds : ∀ t d, ds !! t = Some d → dk !! (ROOTDEV, st + 1 + Z.of_nat t) = Some d).

Lemma not_home c t : home c → (t < length bl)%nat → c ≠ st ∧ c ≠ st + 1 + Z.of_nat t.
Proof using Hd. clear Hlen Hds. intros [_ Hc] Ht. pose proof (du_len _ _ _ _ Hd). lia. Qed.

Lemma log_area c t : (t < length bl)%nat → c ∈ bl → c ≠ st ∧ c ≠ st + 1 + Z.of_nat t.
Proof using Hd. intros Ht Hc. apply not_home; [|done]. by apply (du_home _ _ _ _ Hd). Qed.

Lemma st_not_in : st ∉ bl.
Proof using Hd.
  clear Hlen Hds. intros Hc. pose proof (du_home _ _ _ _ Hd _ Hc) as [_ Hn]. pose proof (du_len _ _ _ _ Hd). lia.
Qed.

Lemma install_durable k : durable_at (apply_writes dk (take k (home_writes bl ds))) h bl L.
Proof using Hd.
  clear Hlen Hds. rewrite take_home_writes. assert (∀ c, c ∉ bl → c ∉ take k bl) as Hsub by (intros c Hc (j & ? & _)%elem_of_take; apply Hc; by eapply list_elem_of_lookup_2).
  destruct Hd as [H1 H2 H3 H4 H5 H6]. split; try done.
  - rewrite home_writes_out; [done|]. apply Hsub, st_not_in.
  - intros c Hc. rewrite <- H6 by done. destruct (decide (c ∈ bl)) as [[t Ht]%list_elem_of_lookup|Hn].
    + rewrite !(logical_in _ _ _ _ H3 Ht). apply home_writes_out, Hsub. intros Hin.
      apply lookup_lt_Some in Ht. by destruct (log_area (st + 1 + Z.of_nat t) t Ht Hin).
    + rewrite !logical_out by done. apply home_writes_out. by apply Hsub.
Qed.

(** The disk once everything is installed. *)
Lemma installed c : home c → apply_writes dk (home_writes bl ds) !! (ROOTDEV, c) = L !! c.
Proof using Hd Hlen Hds.
  intros Hc. rewrite <- (du_logical _ _ _ _ Hd c Hc). destruct (decide (c ∈ bl)) as [[t Ht]%list_elem_of_lookup|Hn].
  - rewrite (logical_in _ _ _ _ (du_nodup _ _ _ _ Hd) Ht).
    assert (is_Some (ds !! t)) as [d Hdt] by (apply lookup_lt_is_Some; rewrite Hlen; by eapply lookup_lt_Some).
    rewrite (home_writes_in _ _ _ _ _ _ (du_nodup _ _ _ _ Hd) Ht Hdt). by rewrite (Hds _ _ Hdt).
  - rewrite logical_out, home_writes_out by done. done.
Qed.

Lemma erased h2 : header h2 [] → durable_at (<[(ROOTDEV, st) := h2]> (apply_writes dk (home_writes bl ds))) h2 [] L.
Proof using Hd Hlen Hds.
  intros Hh2. split; try done.
  - apply lookup_insert_eq.
  - constructor.
  - pose proof (du_len _ _ _ _ Hd). simpl. lia.
  - set_solver.
  - intros c Hc. rewrite logical_out by set_solver. rewrite lookup_insert_ne; [by apply installed|].
    intros [= <-]. destruct Hc as [_ Hc]. pose proof (du_len _ _ _ _ Hd). lia.
Qed.

Lemma install_erase_durable h2 k : header h2 [] →
  durable (apply_writes dk (take k (home_writes bl ds ++ [((ROOTDEV, st), h2)]))) L.
Proof using Hd Hlen Hds.
  intros Hh2. destruct (decide (k ≤ length (home_writes bl ds))%nat) as [Hk|Hk].
  - rewrite take_app_le by done. exists h, bl. apply install_durable.
  - rewrite take_ge by (rewrite length_app; simpl; lia). rewrite apply_writes_app. exists h2, []. by apply erased.
Qed.
End install.
End meaning.

(** ** Starting with an empty cache *)
Definition zero_buf : buf := mkbuf false false 0 0 false 0 [].
Definition disk_view (dk : gmap (Z * Z) (list Z)) : gmap Z (list Z) :=
  list_to_map (omap (λ b, (b,.) <$> dk !! (ROOTDEV, b)) (seqZ 0 FSSIZE)).

Lemma disk_view_Some dk b d : disk_view dk !! b = Some d ↔ 0 ≤ b < FSSIZE ∧ dk !! (ROOTDEV, b) = Some d.
Proof.
  unfold disk_view. rewrite <- elem_of_list_to_map.
  - rewrite list_elem_of_omap. split.
    + intros (x & Hx%elem_of_seqZ & Hd). destruct (dk !! (ROOTDEV, x)) eqn:E; simplify_eq/=. split; [lia|done].
    + intros [Hr Hd]. exists b. rewrite elem_of_seqZ, Hd. split; [lia|done].
  - assert (∀ l, NoDup l → NoDup (omap (λ b, (b,.) <$> dk !! (ROOTDEV, b)) l).*1) as Hnd.
    { intros l. induction 1 as [|x l Hx Hnd IH]; simpl; [constructor|]. destruct (dk !! (ROOTDEV, x)); simpl; [|done].
      constructor; [|done]. intros ([y e] & -> & Hin)%list_elem_of_fmap. apply list_elem_of_omap in Hin as (z & Hz & He).
      destruct (dk !! (ROOTDEV, z)); [|done]. injection He as <- <-. done. }
    apply Hnd, NoDup_seqZ.
Qed.

Lemma binit_inv dk : binv (binit (replicate NBUF zero_buf) dk) (disk_view dk) ∅ ∅.
Proof.
  assert (∀ i x, replicate NBUF zero_buf !! i = Some x → x = zero_buf) as Hz by (by intros i x [-> _]%lookup_replicate).
  assert (∀ b i x, ¬ for_block (binit (replicate NBUF zero_buf) dk) b i x) as Hno.
  { intros b i x (Hx & Hd & _). simpl in Hx. apply Hz in Hx as ->. done. }
  split.
  - done.
  - unfold binit. simpl. symmetry. apply Permutation_rev.
  - intros b i j x y Hx. by destruct (Hno b i x).
  - intros i x ->%Hz. by left.
  - intros i x ->%Hz. done.
  - intros i x ->%Hz [?|?]; done.
  - intros b. split; [set_solver|]. intros (i & x & Hx & _). by destruct (Hno b i x).
  - intros b. split; [set_solver|]. intros (i & x & Hx & _). by destruct (Hno b i x).
  - done.
  - intros b [d Hd]. by apply disk_view_Some in Hd as [? _].
  - intros b i x d _ Hx. by destruct (Hno b i x).
  - intros b d [_ Hd]%disk_view_Some _ _. done.
Qed.

(** A disk on which every block can be read. *)
Definition complete (dk : gmap (Z * Z) (list Z)) : Prop := ∀ b, 0 ≤ b < FSSIZE → is_Some (dk !! (ROOTDEV, b)).

Lemma contents_exist (V : gmap Z (list Z)) (bl : list Z) : (∀ b, b ∈ bl → is_Some (V !! b)) →
  ∃ ds, Forall2 (λ b d, V !! b = Some d) bl ds.
Proof.
  induction bl as [|b bl IH]; intros Hb; [by exists []|].
  destruct (Hb b) as [d Hd]; [by left|]. destruct IH as [ds Hds]; [intros; apply Hb; by right|]. exists (d :: ds). by constructor.
Qed.

Lemma view_home_out bl : ∀ ds V c, c ∉ bl → apply_view V (home_writes bl ds) !! c = V !! c.
Proof.
  induction bl as [|b bl IH]; intros [|d ds] V c Hc; [done..|]. cbn [home_writes zip_with apply_view foldl].
  fold (apply_view (<[b := d]> V) (home_writes bl ds)). rewrite IH by set_solver. apply lookup_insert_ne. set_solver.
Qed.
Lemma view_home_in bl : ∀ ds V t b d, NoDup bl → bl !! t = Some b → ds !! t = Some d →
  apply_view V (home_writes bl ds) !! b = Some d.
Proof.
  induction bl as [|b0 bl IH]; intros [|d0 ds] V [|t] b d Hnd Hb Hd; simplify_eq/=;
    apply NoDup_cons in Hnd as [Hnin Hnd]; cbn [apply_view foldl].
  - fold (apply_view (<[b := d]> V) (home_writes bl ds)). rewrite view_home_out by done. apply lookup_insert_eq.
  - fold (apply_view (<[b0 := d0]> V) (home_writes bl ds)). by eapply IH.
Qed.
Lemma view_log_out ds : ∀ a V c, ¬ (a ≤ c < a + Z.of_nat (length ds)) → apply_view V (log_writes a ds) !! c = V !! c.
Proof.
  induction ds as [|d ds IH]; intros a V c Hc; [done|]. cbn [log_writes apply_view foldl]. simpl in Hc.
  fold (apply_view (<[a := d]> V) (log_writes (a + 1) ds)). rewrite IH by lia. apply lookup_insert_ne. simpl. lia.
Qed.
Lemma view_log_in ds : ∀ a V t d, ds !! t = Some d → apply_view V (log_writes a ds) !! (a + Z.of_nat t) = Some d.
Proof.
  induction ds as [|d0 ds IH]; intros a V t d Ht; [done|]. cbn [log_writes apply_view foldl].
  fold (apply_view (<[a := d0]> V) (log_writes (a + 1) ds)). destruct t as [|t].
  - injection Ht as ->. rewrite view_log_out by lia. rewrite Z.add_0_r. apply lookup_insert_eq.
  - replace (a + Z.of_nat (S t)) with (a + 1 + Z.of_nat t) by lia. by apply IH.
Qed.

(** The contents of the first [n] log blocks. *)
Lemma log_contents (V : gmap Z (list Z)) a n : (∀ t, (t < n)%nat → is_Some (V !! (a + Z.of_nat t))) →
  ∃ ds, length ds = n ∧ ∀ t d, ds !! t = Some d → V !! (a + Z.of_nat t) = Some d.
Proof.
  intros HV. destruct (contents_exist V (map (λ t, a + Z.of_nat t) (seq 0 n))) as [ds Hds].
  { intros b (t & -> & Ht%elem_of_seq)%list_elem_of_fmap. apply HV. lia. }
  exists ds. split; [apply Forall2_length in Hds; by rewrite length_map, length_seq in Hds|].
  intros t d Ht. destruct (Forall2_lookup_r _ _ _ _ _ Hds Ht) as (b & Hb & Hbd).
  by apply list_lookup_fmap_Some in Hb as (t' & -> & [-> _]%lookup_seq).
Qed.

(** *** Installing and erasing, from any cache that holds the log's blocks *)
Lemma install_erase_run l c V D bl ds h : ldev l = ROOTDEV → lh_n l = Z.of_nat (length bl) →
  binv c V D ∅ → (size D < NBUF)%nat → (∀ b, b ∈ bl → b ∈ D) ∨ D = ∅ →
  (∀ b, b ∈ D → ¬ start l ≤ b ≤ start l + lh_n l) →
  V !! start l = Some h → length h = BSIZE ∧ Forall byte_ok h → NoDup bl → length ds = length bl →
  (∀ t b, bl !! t = Some b → lh_block l !! t = Some b ∧ is_Some (V !! b) ∧ ¬ start l ≤ b ≤ start l + lh_n l) →
  (∀ t d, ds !! t = Some d → V !! (start l + 1 + Z.of_nat t) = Some d) →
  ∃ h2 c', (install_trans true;; set_lg (set_n 0);; write_head true) (mkls c l) = Ok (tt, mkls c' (set_n 0 l)) ∧
    header h2 [] ∧ binv c' (<[start l := h2]> (apply_view V (home_writes bl ds))) (D ∖ list_to_set bl) ∅ ∧
    disk c' = <[(ROOTDEV, start l) := h2]> (apply_writes (disk c) (home_writes bl ds)) ∧
    writes c' = writes c ++ home_writes bl ds ++ [((ROOTDEV, start l), h2)].
Proof.
  intros Hdev Hn Hinv Hsz Hcap HD Hh Hhl Hnd Hlen Hbl Hds.
  assert (start l ∉ bl) as Hstb by (intros [t Ht]%list_elem_of_lookup; destruct (Hbl _ _ Ht) as (_ & _ & Hx); lia).
  assert (start l ∉ D) as HstD by (intros Hx; specialize (HD _ Hx); lia).
  destruct (install_run l Hdev bl ds 0 c V D) as (c2 & R2 & I2 & D2 & W2); try done.
  { apply Forall2_same_length_lookup_2; [done|]. intros t b d Hb _. by apply (Hbl t b). }
  { intros t b Hb. by apply (Hbl t b). }
  { intros t d Ht. simpl. replace (start l + Z.of_nat t + 1) with (start l + 1 + Z.of_nat t) by lia. by apply Hds. }
  { intros b [[t Hb]%list_elem_of_lookup|Hb]; [by apply (Hbl t b)|by apply HD]. }
  { destruct Hcap as [Hc1|Hc1]; [by left|right]. rewrite Hc1. rewrite size_empty. unfold NBUF. lia. }
  cbv zeta in I2, D2, W2.
  assert (size (D ∖ list_to_set bl : gset Z) < NBUF)%nat as Hsz2.
  { eapply Nat.le_lt_trans; [|exact Hsz]. apply subseteq_size. set_solver. }
  destruct (write_head_run (set_n 0 l) Hdev c2 _ _ I2 h) with (bl := @nil Z) as (h2 & c3 & R3 & Hh2 & I3 & D3 & W3); try done.
  { simpl. by rewrite view_home_out. } { simpl. set_solver. } { simpl. lia. }
  exists h2, c3. split; [|split; [done|split; [done|split]]].
  - unfold install_trans. rewrite bind_assoc, (bind_ok _ _ _ _ _ (gets_lg _)). cbn [bc lg]. rewrite Hn, Nat2Z.id.
    rewrite (bind_ok _ _ _ _ _ R2). by rewrite (bind_ok _ _ (mkls c2 l) tt (mkls c2 (set_n 0 l)) eq_refl).
  - by rewrite D3, D2.
  - by rewrite W3, W2, <- app_assoc.
Qed.

Section claims.
Context (st nl : Z) (Hst : 0 ≤ st) (Hnl : 0 < nl) (Hfit : st + nl ≤ FSSIZE).

(** C20: recovery restores what the disk means, and can itself be interrupted.
    On any disk that means [L], with a cold cache, [recover_from_log] succeeds and
    leaves every home block with its content in [L] and an empty log; and the disk
    after any number of its writes still means [L], so that recovering again after
    a crash during recovery gives the same result. *)
Theorem recovery_restores dk L bs0 n0 : complete dk → durable st nl dk L → length bs0 = 30%nat →
  ∃ s', recover_from_log true (mkls (binit (replicate NBUF zero_buf) dk) (mklog st nl 0 false ROOTDEV n0 bs0)) = Ok (tt, s') ∧
    (∀ c, home st nl c → disk (bc s') !! (ROOTDEV, c) = L !! c) ∧
    (∃ h, disk (bc s') !! (ROOTDEV, st) = Some h ∧ header h []) ∧
    ∀ k, durable st nl (apply_writes dk (take k (writes (bc s')))) L.
Proof using Hst Hnl Hfit.
  intros Hall (h & bl & Hd) Hbs. pose proof (binit_inv dk) as I0. set (V := disk_view dk) in *.
  pose proof (du_len _ _ _ _ _ _ Hd) as [Hl1 Hl2].
  assert (∀ b, 0 ≤ b < FSSIZE → is_Some (V !! b)) as HV.
  { intros b Hb. destruct (Hall b Hb) as [d Hdb]. exists d. by apply disk_view_Some. }
  assert (V !! st = Some h) as Hh by (apply disk_view_Some; split; [lia|apply Hd]).
  set (l0 := mklog st nl 0 false ROOTDEV n0 bs0).
  destruct (read_head_run l0 eq_refl _ V ∅ I0 h Hh ltac:(set_solver) ltac:(rewrite size_empty; unfold NBUF; lia) bl
    (du_header _ _ _ _ _ _ Hd) eq_refl) as (bs & c1 & R1 & Hbl & Hent & I1 & D1 & W1); [simpl; lia|].
  destruct (log_contents V (st + 1) (length bl)) as (ds & Hlen & Hds); [intros t Ht; apply HV; lia|].
  destruct (install_erase_run (set_block bs (set_n (Z.of_nat (length bl)) l0)) c1 V ∅ bl ds h) as (h2 & c2 & R2 & Hh2 & _ & D2 & W2);
    try done.
  { rewrite size_empty. unfold NBUF. lia. } { by right. } { apply (hd_len _ _ (du_header _ _ _ _ _ _ Hd)). }
  { apply Hd. }
  { intros t b Hb. destruct (du_home _ _ _ _ _ _ Hd b (list_elem_of_lookup_2 _ _ _ Hb)) as [Hr Hx].
    split; [by apply Hent|]. split; [by apply HV|]. simpl. lia. }
  simpl in D2, W2. rewrite D1 in D2. rewrite W1 in W2. simpl in D2, W2.
  assert (∀ t d, ds !! t = Some d → dk !! (ROOTDEV, st + 1 + Z.of_nat t) = Some d) as Hdsk.
  { intros t d Ht. by apply Hds, disk_view_Some in Ht as [_ ?]. }
  exists (mkls c2 (set_n 0 (set_block bs (set_n (Z.of_nat (length bl)) l0)))). cbn [bc]. split; [|split; [|split]].
  - unfold recover_from_log. rewrite (bind_ok _ _ _ _ _ R1). exact R2.
  - intros c Hc. rewrite D2, lookup_insert_ne; [by eapply installed|]. intros [= <-]. destruct Hc as [_ Hc]. lia.
  - exists h2. split; [rewrite D2; apply lookup_insert_eq|done].
  - intros k. rewrite W2. by eapply install_erase_durable.
Qed.

(** *** The two halves of a commit *)
Section commit.
Context (l : log) (c : bcache) (V : gmap Z (list Z)) (bl : list Z) (h : list Z).
Context (Hl : start l = st ∧ ldev l = ROOTDEV ∧ lh_n l = Z.of_nat (length bl)).
Context (Hinv : binv c V (list_to_set bl) ∅) (Hnd : NoDup bl) (Hlen : (length bl ≤ 29)%nat) (Hlog : Z.of_nat (length bl) < nl).
Context (Hbl : ∀ t b, bl !! t = Some b → lh_block l !! t = Some b ∧ home st nl b).
Context (Hall : ∀ b, 0 ≤ b < FSSIZE → is_Some (V !! b)) (Hh : V !! st = Some h) (Hhd : header h []).

Lemma logged_home b : b ∈ bl → home st nl b.
Proof using Hbl. intros [t Ht]%list_elem_of_lookup. by apply (Hbl t b). Qed.

Lemma pinned : (size (list_to_set bl : gset Z) < NBUF)%nat.
Proof using Hnd Hlen. rewrite size_list_to_set by done. unfold NBUF. lia. Qed.

Lemma commit_run : ∃ ds h1 h2 c', Forall2 (λ b d, V !! b = Some d) bl ds ∧ header h1 bl ∧ header h2 [] ∧
  (write_log true;; write_head true;; install_trans true;; set_lg (set_n 0);; write_head true) (mkls c l) =
    Ok (tt, mkls c' (set_n 0 l)) ∧
  binv c' (<[st := h2]> (apply_view (<[st := h1]> (apply_view V (log_writes (st + 1) ds))) (home_writes bl ds))) ∅ ∅ ∧
  let dk1 := <[(ROOTDEV, st) := h1]> (apply_writes (disk c) (log_writes (st + 1) ds)) in
  disk c' = <[(ROOTDEV, st) := h2]> (apply_writes dk1 (home_writes bl ds)) ∧
  writes c' = writes c ++ log_writes (st + 1) ds ++ [((ROOTDEV, st), h1)] ++ home_writes bl ds ++ [((ROOTDEV, st), h2)].
Proof using All.
  destruct Hl as (Hs & Hdev & Hn).
  destruct (contents_exist V bl) as [ds Hds]; [intros b Hb; apply Hall; by apply logged_home in Hb as [? _]|].
  pose proof (Forall2_length _ _ _ Hds) as Hld.
  assert (∀ b, b ∈ (list_to_set bl : gset Z) → ¬ start l ≤ b ≤ start l + lh_n l) as Hout.
  { intros b [_ Hb]%elem_of_list_to_set%logged_home. rewrite Hs, Hn. lia. }
  destruct (write_log_run l Hdev (list_to_set bl) bl ds 0 c V) as (c1 & R1 & I1 & D1 & W1); try done.
  { intros t b Hb. by apply (Hbl t b). }
  { intros t Ht. apply Hall. rewrite Hs. simpl. lia. } { intros b Hb. by apply elem_of_list_to_set. } { apply pinned. }
  cbv zeta in I1, D1, W1. rewrite Z.add_0_r, Hs in I1, D1, W1. set (V1 := apply_view V _) in I1.
  assert (st ∉ (list_to_set bl : gset Z)) as HstD by (intros Hx%Hout; lia).
  destruct (write_head_run l Hdev c1 V1 _ I1 h) with (bl := bl) as (h1 & c2 & R2 & Hh1 & I2 & D2 & W2); try done.
  { rewrite Hs. unfold V1. rewrite view_log_out by lia. done. } { by rewrite Hs. } { apply pinned. }
  { apply Hhd. } { lia. }
  { intros t b Hb. destruct (Hbl t b Hb) as [? [Hr _]]. unfold FSSIZE in Hr. split; [done|lia]. }
  rewrite Hs in I2, D2, W2. set (V2 := <[st := h1]> V1) in I2.
  assert (∀ b, home st nl b → V2 !! b = V !! b) as HV2.
  { intros b [_ Hb]. unfold V2, V1. rewrite lookup_insert_ne, view_log_out by lia. done. }
  destruct (install_erase_run l c2 V2 (list_to_set bl) bl ds h1) as (h2 & c3 & R3 & Hh2 & I3 & D3 & W3); try done.
  { apply pinned. } { left. intros b Hb. by apply elem_of_list_to_set. } { rewrite Hs. apply lookup_insert_eq. } { apply Hh1. }
  { intros t b Hb. destruct (Hbl t b Hb) as [? Hhb]. split; [done|]. rewrite HV2 by done. destruct Hhb as [Hr Hx].
    split; [by apply Hall|]. rewrite Hs, Hn. lia. }
  { intros t d Ht. rewrite Hs. unfold V2. rewrite lookup_insert_ne by lia. by apply view_log_in. }
  rewrite Hs in I3, D3, W3. exists ds, h1, h2, c3. split; [done|]. split; [done|]. split; [done|]. split; [|split; [|split]].
  - unfold write_log. rewrite bind_assoc, (bind_ok _ _ _ _ _ (gets_lg _)). cbn [bc lg]. rewrite Hn, Nat2Z.id.
    rewrite (bind_ok _ _ _ _ _ R1), (bind_ok _ _ _ _ _ R2). exact R3.
  - replace (list_to_set bl ∖ list_to_set bl : gset Z) with (∅ : gset Z) in I3 by set_solver. exact I3.
  - by rewrite D3, D2, D1.
  - by rewrite W3, W2, W1, <- !app_assoc.
Qed.

(** The log area may be written while the header is empty. *)
Lemma logging_durable ds L0 k : length ds = length bl → (∀ b, home st nl b → L0 !! b = disk c !! (ROOTDEV, b)) →
  durable st nl (apply_writes (disk c) (take k (log_writes (st + 1) ds))) L0.
Proof using All.
  intros Hlds HL0. rewrite take_log_writes.
  assert (length (take k ds) ≤ length bl)%nat as Hk by (rewrite length_take; lia).
  exists h, []. split; try done.
  - rewrite log_writes_out by lia. apply (bi_disk _ _ _ _ Hinv); [done| |set_solver].
    intros [_ Hx]%elem_of_list_to_set%logged_home. lia.
  - constructor.
  - simpl. lia.
  - set_solver.
  - intros b Hb. rewrite logical_out by set_solver. destruct (Hb) as [_ Hx]. rewrite log_writes_out by lia. by rewrite HL0.
Qed.

(** Once the header is there, the disk means the new contents. *)
Lemma committed_durable ds h1 : Forall2 (λ b d, V !! b = Some d) bl ds → header h1 bl →
  durable_at st nl (<[(ROOTDEV, st) := h1]> (apply_writes (disk c) (log_writes (st + 1) ds))) h1 bl V.
Proof using All.
  intros Hds Hh1. pose proof (Forall2_length _ _ _ Hds) as Hld. split; try done.
  - apply lookup_insert_eq.
  - lia.
  - apply logged_home.
  - intros b Hb. destruct (decide (b ∈ bl)) as [[t Ht]%list_elem_of_lookup|Hn].
    + rewrite (logical_in _ _ _ _ _ Hnd Ht). destruct (Forall2_lookup_l _ _ _ _ _ Hds Ht) as (d & Hd & HV).
      rewrite lookup_insert_ne by (intros [=]; lia). rewrite HV. by apply log_writes_in.
    + rewrite logical_out by done. pose proof Hb as [Hr Hx]. rewrite lookup_insert_ne by (intros [=]; lia).
      rewrite log_writes_out by lia. destruct (Hall b Hr) as [d Hd]. rewrite Hd.
      apply (bi_disk _ _ _ _ Hinv); [done|by rewrite elem_of_list_to_set|set_solver].
Qed.
End commit.

(** C21: a commit is atomic.  When the blocks [bl] have been logged and are
    modified in the cache, and the log on the disk is empty, [commit] succeeds with
    the at most 29 blocks pinned; before its header write the disk means the old
    contents of all home blocks after every write, from the header write on the
    contents the cache has, also after every write; and in the end the home blocks
    are on the disk.  With the recovery theorem, a crash at any point leaves all of
    the transaction's writes or none. *)
Theorem commit_is_atomic l c V bl h L0 :
  start l = st ∧ ldev l = ROOTDEV ∧ lh_n l = Z.of_nat (length bl) →
  binv c V (list_to_set bl) ∅ → NoDup bl → (0 < length bl ≤ 29)%nat → Z.of_nat (length bl) < nl →
  (∀ t b, bl !! t = Some b → lh_block l !! t = Some b ∧ home st nl b) →
  (∀ b, 0 ≤ b < FSSIZE → is_Some (V !! b)) → V !! st = Some h → header h [] →
  (∀ b, home st nl b → L0 !! b = disk c !! (ROOTDEV, b)) →
  ∃ c' ws1 ws2, commit true (mkls c l) = Ok (tt, mkls c' (set_n 0 l)) ∧ writes c' = writes c ++ ws1 ++ ws2 ∧
    (∀ k, durable st nl (apply_writes (disk c) (take k ws1)) L0) ∧
    (∀ k, (0 < k)%nat → durable st nl (apply_writes (disk c) (ws1 ++ take k ws2)) V) ∧
    (∀ b, home st nl b → disk c' !! (ROOTDEV, b) = V !! b) ∧
    ∃ V', binv c' V' ∅ ∅ ∧ ∀ b, home st nl b → V' !! b = V !! b.
Proof using Hst Hnl Hfit.
  intros Hl Hinv Hnd [Hpos Hlen] Hlog Hbl Hall Hh Hhd HL0.
  destruct (commit_run l c V bl h Hl Hinv Hnd Hlen Hlog Hbl Hall Hh Hhd) as (ds & h1 & h2 & c' & Hds & Hh1 & Hh2 & Hr & I' & D' & W').
  pose proof (Forall2_length _ _ _ Hds) as Hld.
  pose proof (committed_durable l c V bl h Hl Hinv Hnd Hlen Hlog Hbl Hall Hh Hhd ds h1 Hds Hh1) as Hdu.
  set (dk1 := <[(ROOTDEV, st) := h1]> _) in *.
  assert (∀ t d, ds !! t = Some d → dk1 !! (ROOTDEV, st + 1 + Z.of_nat t) = Some d) as Hdsk.
  { intros t d Ht. unfold dk1. rewrite lookup_insert_ne by (intros [=]; lia). by apply log_writes_in. }
  assert (∀ b, home st nl b → apply_writes dk1 (home_writes bl ds) !! (ROOTDEV, b) = V !! b) as Hins
    by (intros b Hb; by eapply installed).
  exists c', (log_writes (st + 1) ds), ([((ROOTDEV, st), h1)] ++ home_writes bl ds ++ [((ROOTDEV, st), h2)]).
  split; [|split; [done|split; [|split; [|split]]]].
  - unfold commit. rewrite (bind_ok _ _ _ _ _ (gets_lg _)). cbn [bc lg]. destruct Hl as (_ & _ & Hn).
    rewrite bool_decide_eq_true_2 by (rewrite Hn; lia). exact Hr.
  - intros k. by eapply logging_durable.
  - intros [|k] Hk; [lia|]. rewrite apply_writes_app. simpl (take _ (_ ++ _)).
    change (durable st nl (apply_writes dk1 (take k (home_writes bl ds ++ [((ROOTDEV, st), h2)]))) V).
    by eapply install_erase_durable.
  - intros b Hb. rewrite D', lookup_insert_ne; [by apply Hins|]. intros [= <-]. destruct Hb as [_ Hb]. lia.
  - eexists. split; [exact I'|]. intros b Hb. pose proof Hb as [Hr' Hx]. rewrite lookup_insert_ne by lia.
    destruct (decide (b ∈ bl)) as [[t Ht]%list_elem_of_lookup|Hn].
    + destruct (Forall2_lookup_l _ _ _ _ _ Hds Ht) as (d & Hd & HV). rewrite HV. by eapply view_home_in.
    + rewrite view_home_out, lookup_insert_ne, view_log_out by (done || lia). done.
Qed.
End claims.

(** *** Examples

    A disk whose log, in blocks 2 to 31, holds one committed block for block 50. *)
Module LogEx.
Definition flat (f : Z → list Z) : gmap (Z * Z) (list Z) := list_to_map (map (λ b, ((ROOTDEV, b), f b)) (seqZ 0 FSSIZE)).
Definition zeros : list Z := replicate BSIZE 0.
Definition sevens : list Z := replicate BSIZE 7.
Definition header50 : list Z := [1; 0; 0; 0; 50; 0; 0; 0] ++ replicate (BSIZE - 8) 0.
Definition crashed_block (b : Z) : list Z :=
  if bool_decide (b = 2) then header50 else if bool_decide (b = 3) then sevens else zeros.
Definition crashed : gmap (Z * Z) (list Z) := flat crashed_block.

Lemma flat_lookup f b : 0 ≤ b < FSSIZE → flat f !! (ROOTDEV, b) = Some (f b).
Proof.
  intros Hb. unfold flat. apply elem_of_list_to_map_1.
  - rewrite <- list_fmap_compose. apply NoDup_fmap_2; [|apply NoDup_seqZ]. by intros x y [= ->].
  - apply list_elem_of_fmap. exists b. split; [done|]. apply elem_of_seqZ. lia.
Qed.
Lemma flat_view f b : 0 ≤ b < FSSIZE → disk_view (flat f) !! b = Some (f b).
Proof. intros Hb. apply disk_view_Some. split; [exact Hb|by apply flat_lookup]. Qed.
Lemma flat_complete f : complete (flat f).
Proof. intros b Hb. rewrite flat_lookup by done. eauto. Qed.
Lemma header_zeros : header zeros [].
Proof. split; [split; [done|apply (bool_decide_unpack _); vm_compute; exact I]|vm_compute; done|done]. Qed.
Lemma header_header50 : header header50 [50].
Proof. split; [split; [done|apply (bool_decide_unpack _); vm_compute; exact I]|vm_compute; done|]. intros [|[|t]] b Hb; [|done..]. injection Hb as <-. vm_compute. done. Qed.

Lemma home50 : home 2 30 50.
Proof. split; [done|lia]. Qed.
Lemma crashed_durable : durable 2 30 crashed (<[50 := sevens]> (disk_view crashed)).
Proof.
  exists header50, [50]. split.
  - apply (flat_lookup crashed_block). done.
  - apply header_header50.
  - apply NoDup_singleton.
  - simpl. lia.
  - intros b ->%list_elem_of_singleton. exact home50.
  - intros c [Hr Hc]. destruct (decide (c = 50)) as [->|Hne].
    + rewrite lookup_insert_eq. rewrite (logical_in _ [50] _ 0 50 (NoDup_singleton _) eq_refl).
      apply (flat_lookup crashed_block). done.
    + rewrite lookup_insert_ne by done. rewrite logical_out by set_solver.
      unfold crashed. rewrite flat_lookup by exact Hr. symmetry. apply flat_view, Hr.
Qed.

Definition blank : gmap (Z * Z) (list Z) := flat (λ _, zeros).

(** A transaction of one block on a disk with an empty log: [bp = bread(50); memmove(bp->data, ...);
    log_write(bp); brelse(bp)]. *)
Definition one_block : M lstate unit :=
  i ← on_bc (bread true ROOTDEV 50); on_bc (write_data i sevens);; log_write i;; on_bc (brelse i).
Definition started (dk : gmap (Z * Z) (list Z)) : lstate :=
  mkls (binit (replicate NBUF zero_buf) dk) (mklog 2 30 1 false ROOTDEV 0 (replicate 30 0)).
Definition logged (dk : gmap (Z * Z) (list Z)) : lstate := match one_block (started dk) with Ok (_, s) => s | _ => started dk end.

Lemma logged_ok dk : dk !! (ROOTDEV, 50) = Some zeros →
  binv (bc (logged dk)) (<[50 := sevens]> (disk_view dk)) {[50]} ∅ ∧ logs (lg (logged dk)) [50] ∧
  start (lg (logged dk)) = 2 ∧ ldev (lg (logged dk)) = ROOTDEV ∧ disk (bc (logged dk)) = dk.
Proof.
  intros Hdk. set (V := disk_view _). pose proof (binit_inv dk) as I0. fold V in I0.
  assert (V !! 50 = Some zeros) as HV by (apply disk_view_Some; by split). clearbody V.
  destruct (bread_ok _ _ _ _ I0 50 zeros HV) as (i & c1 & R1 & I1 & Ho1 & D1 & _); [set_solver|right; vm_compute; lia|].
  destruct (write_data_ok c1 V ∅ _ I1 i 50 zeros HV Ho1 sevens) as (c2 & R2 & I2 & Ho2 & D2 & _).
  destruct (log_write_ok (lg (started dk)) c2 _ _ _ [] i 50 sevens I2 (lookup_insert_eq _ _ _) Ho2)
    as (c3 & l3 & R3 & Hl3 & I3 & Ho3 & D3 & _ & E1 & _ & _ & E2 & _); [split; done|simpl; lia|done|done|].
  destruct (brelse_ok c3 _ _ _ I3 i 50 sevens (lookup_insert_eq _ _ _) Ho3) as (c4 & R4 & I4 & D4 & _); [left; set_solver|].
  assert (one_block (started dk) = Ok (tt, mkls c4 l3)) as Hrun.
  { unfold one_block. erewrite bind_ok; [|unfold on_bc; cbn [started bc]; by rewrite R1].
    erewrite bind_ok; [|unfold on_bc; cbn [bc]; by rewrite R2].
    erewrite bind_ok; [|exact R3]. unfold on_bc. cbn [bc]. by rewrite R4. }
  unfold logged. rewrite Hrun. cbn [bc lg]. split; [|split; [done|split; [done|split; [done|]]]]; [|by rewrite D4, D3, D2, D1].
  replace ({[50]} ∪ ∅ : gset Z) with ({[50]} : gset Z) in I4 by set_solver.
  replace (({[50]} ∖ {[50]}) : gset Z) with (∅ : gset Z) in I4 by set_solver. exact I4.
Qed.
End LogEx.

Lemma recovery_restores_witness : ∃ s',
  recover_from_log true (mkls (binit (replicate NBUF zero_buf) LogEx.crashed) (mklog 2 30 0 false ROOTDEV 0 (replicate 30 0))) = Ok (tt, s') ∧
  disk (bc s') !! (ROOTDEV, 50) = Some LogEx.sevens.
Proof.
  destruct (recovery_restores 2 30 ltac:(lia) ltac:(lia) ltac:(unfold FSSIZE; lia) LogEx.crashed
    (<[50 := LogEx.sevens]> (disk_view LogEx.crashed)) (replicate 30 0) 0 (LogEx.flat_complete _) LogEx.crashed_durable eq_refl)
    as (s' & Hr & Hd & _).
  exists s'. split; [exact Hr|]. rewrite (Hd 50 LogEx.home50). apply lookup_insert_eq.
Defined.

Lemma commit_is_atomic_witness : ∃ c' l', commit true (LogEx.logged LogEx.blank) = Ok (tt, mkls c' l') ∧ disk c' !! (ROOTDEV, 50) = Some LogEx.sevens.
Proof.
  generalize (LogEx.logged_ok LogEx.blank (LogEx.flat_lookup (λ _, LogEx.zeros) 50 (proj1 LogEx.home50))).
  generalize (LogEx.logged LogEx.blank). intros s (I & [Hn Hlen Hbl] & E1 & E2 & E3).
  destruct (commit_is_atomic 2 30 ltac:(lia) ltac:(lia) ltac:(unfold FSSIZE; lia) (lg s) (bc s)
    (<[50 := LogEx.sevens]> (disk_view LogEx.blank)) [50] LogEx.zeros (disk_view LogEx.blank))
    as (c' & ws1 & ws2 & Hr & _ & _ & _ & Hd & _).
  - exact (conj E1 (conj E2 Hn)).
  - replace (list_to_set [50] : gset Z) with ({[50]} : gset Z) by set_solver. exact I.
  - apply NoDup_singleton.
  - simpl. lia.
  - simpl. lia.
  - intros t b Ht. split; [by apply Hbl|]. apply list_elem_of_lookup_2, list_elem_of_singleton in Ht as ->. exact LogEx.home50.
  - intros b Hb. destruct (decide (b = 50)) as [->|]; [rewrite lookup_insert_eq; eauto|]. rewrite lookup_insert_ne by done.
    exists LogEx.zeros. by apply (LogEx.flat_view (λ _, LogEx.zeros)).
  - rewrite lookup_insert_ne by done. by apply (LogEx.flat_view (λ _, LogEx.zeros)).
  - apply LogEx.header_zeros.
  - intros b [Hb _]. rewrite E3. unfold LogEx.blank at 2. rewrite LogEx.flat_lookup by done. by apply (LogEx.flat_view (λ _, LogEx.zeros)).
  - exists c', (set_n 0 (lg s)). split.
    + destruct s. exact Hr.
    + rewrite (Hd 50 LogEx.home50). apply lookup_insert_eq.
Defined.

(** ** Reserving log space

    Operations in progress, each with the number of blocks it may still add to
    the log: a step starts one, lets one log a block, ends one, or changes the
    buffer cache only. *)
Section reservation.
Implicit Types (s : lstate) (rs : list Z).

Inductive tstep : lstate * list Z → lstate * list Z → Prop :=
| ts_begin s s' rs : begin_op s = Ok (true, s') → tstep (s, rs) (s', MAXOPBLOCKS :: rs)
| ts_write s s' rs k r i : rs !! k = Some r → 0 < r → log_write i s = Ok (tt, s') → tstep (s, rs) (s', <[k := r - 1]> rs)
| ts_cache s c rs : tstep (s, rs) (mkls c (lg s), rs)
| ts_end s s' rs k r : rs !! k = Some r → end_op true s = Ok (tt, s') → tstep (s, rs) (s', delete k rs).

(** Cache operations leave the log structure alone. *)
Definition keeps_lg {A} (m : M lstate A) : Prop := ∀ s a s', m s = Ok (a, s') → lg s' = lg s.
Lemma keeps_lg_bind {A B} (m : M lstate A) (k : A → M lstate B) : keeps_lg m → (∀ a, keeps_lg (k a)) → keeps_lg (m ≫= k).
Proof. intros Hm Hk s b s' Hr. apply bind_inv in Hr as (a & s1 & H1 & H2). rewrite (Hk _ _ _ _ H2). by eapply Hm. Qed.
Lemma keeps_lg_bc {A} (m : M bcache A) : keeps_lg (on_bc m).
Proof. intros s a s' Hr. unfold on_bc in Hr. destruct (m (bc s)) as [[b c]|]; [|done]. by injection Hr as _ <-. Qed.
Lemma keeps_lg_lift {A} (r : res A) : keeps_lg (lift r).
Proof. intros s a s' Hr. unfold lift in Hr. destruct r; [|done]. by injection Hr as _ <-. Qed.
Lemma keeps_lg_gets {A} (f : lstate → A) : keeps_lg (gets f).
Proof. intros s a s' Hr. by injection Hr as _ <-. Qed.
Lemma keeps_lg_ret {A} (a : A) : keeps_lg (mret a).
Proof. intros s b s' Hr. by injection Hr as _ <-. Qed.

Ltac klg := repeat match goal with
  | |- keeps_lg (_ ≫= _) => apply keeps_lg_bind; [|intros ?]
  | |- keeps_lg (on_bc _) => apply keeps_lg_bc
  | |- keeps_lg (lift _) => apply keeps_lg_lift
  | |- keeps_lg (gets _) => apply keeps_lg_gets
  | |- keeps_lg (mret _) => apply keeps_lg_ret
  | |- keeps_lg (if bool_decide _ then _ else _) => case_bool_decide
  end.
Lemma write_log_lg fuel : ∀ tail, keeps_lg (write_log_loop true fuel tail).
Proof. induction fuel as [|fuel IH]; intros tail; [done|]. cbn [write_log_loop]. klg. apply IH. Qed.
Lemma install_lg fuel : ∀ tail, keeps_lg (install_loop true fuel tail).
Proof. induction fuel as [|fuel IH]; intros tail; [done|]. cbn [install_loop]. klg. apply IH. Qed.
Lemma write_head_lg : keeps_lg (write_head true).
Proof. unfold write_head. klg. Qed.

Lemma commit_lg s s' : commit true s = Ok (tt, s') → lg s' = if bool_decide (lh_n (lg s) > 0) then set_n 0 (lg s) else lg s.
Proof.
  unfold commit. rewrite (bind_ok _ _ _ _ _ (gets_lg _)). case_bool_decide; [|intros Hr; by injection Hr as <-].
  intros Hr. apply bind_inv in Hr as ([] & s1 & H1 & Hr). apply bind_inv in Hr as ([] & s2 & H2 & Hr).
  apply bind_inv in Hr as ([] & s3 & H3 & Hr). apply bind_inv in Hr as ([] & s4 & H4 & Hr). injection H4 as <-.
  unfold write_log in H1. rewrite (bind_ok _ _ _ _ _ (gets_lg _)) in H1. unfold install_trans in H3. rewrite (bind_ok _ _ _ _ _ (gets_lg _)) in H3.
  apply write_log_lg in H1. apply write_head_lg in H2, Hr. apply install_lg in H3. simpl in Hr. congruence.
Qed.

Record reserved (sr : lstate * list Z) : Prop := {
  re_ops : outstanding (lg sr.1) = Z.of_nat (length sr.2);
  re_each : ∀ r, r ∈ sr.2 → 0 ≤ r ≤ MAXOPBLOCKS;
  re_space : 0 ≤ lh_n (lg sr.1) ∧ lh_n (lg sr.1) + tally (λ r : Z, r) sr.2 ≤ LOGSIZE }.

Lemma tally_bound rs : (∀ r, r ∈ rs → 0 ≤ r ≤ MAXOPBLOCKS) → 0 ≤ tally (λ r : Z, r) rs ≤ MAXOPBLOCKS * Z.of_nat (length rs).
Proof.
  induction rs as [|r rs IH]; intros Hr; [simpl; lia|]. specialize (IH ltac:(intros; apply Hr; by right)).
  pose proof (Hr r ltac:(by left)). simpl. unfold MAXOPBLOCKS in *. lia.
Qed.

Lemma tally_delete rs k r : rs !! k = Some r → tally (λ r : Z, r) (delete k rs) = tally (λ r : Z, r) rs - r.
Proof.
  revert k. induction rs as [|x rs IH]; intros [|k] Hk; simplify_eq/=; [lia|].
  change (x + tally (λ r : Z, r) (delete k rs) = x + tally (λ r : Z, r) rs - r). rewrite (IH _ Hk). lia.
Qed.

Lemma log_write_lg i s s' : log_write i s = Ok (tt, s') →
  lh_n (lg s) ≤ lh_n (lg s') ≤ lh_n (lg s) + 1 ∧ outstanding (lg s') = outstanding (lg s) ∧ lsize (lg s') = lsize (lg s).
Proof.
  unfold log_write. rewrite (bind_ok _ _ _ _ _ (gets_lg _)). destruct (_ || _); [done|]. case_bool_decide; [done|].
  intros Hr. apply bind_inv in Hr as (x & s1 & H1%keeps_lg_bc & Hr). apply bind_inv in Hr as (bs & s2 & H2%keeps_lg_lift & Hr).
  apply bind_inv in Hr as ([] & s3 & H3 & Hr). injection H3 as <-. apply bind_inv in Hr as ([] & s4 & H4 & Hr%keeps_lg_bc).
  rewrite Hr. case_bool_decide; injection H4 as <-; simpl; rewrite H2, H1; simpl; lia.
Qed.

Lemma reserved_step sr sr' : reserved sr → tstep sr sr' → reserved sr' ∧ lsize (lg sr'.1) = lsize (lg sr.1).
Proof.
  intros [Ho He [Hn Hs]] Hst. pose proof (tally_bound _ He) as Ht. destruct Hst as [s s' rs Hr|s s' rs k r i Hk Hp Hr|s c rs|s s' rs k r Hk Hr]; simpl in *.
  - unfold begin_op in Hr. rewrite (bind_ok _ _ _ _ _ (gets_lg _)) in Hr. destruct (committing (lg s)); [done|].
    case_bool_decide as Hc; [done|]. injection Hr as <-. simpl. split; [|done]. split; simpl; [lia| |].
    + intros r [->|Hr]%elem_of_cons; [unfold MAXOPBLOCKS; lia|by apply He].
    + rewrite Ho in Hc. unfold MAXOPBLOCKS in *. lia.
  - destruct (log_write_lg _ _ _ Hr) as (H1 & H2 & H3). split; [|done].
    assert (0 ≤ r ≤ MAXOPBLOCKS) by (apply He; by eapply list_elem_of_lookup_2). split; simpl.
    + rewrite length_insert. lia.
    + intros r' [->|?]%elem_of_insert_inv; [lia|by apply He].
    + rewrite (tally_insert _ _ _ _ _ Hk). lia.
  - done.
  - assert (0 ≤ r ≤ MAXOPBLOCKS) by (apply He; by eapply list_elem_of_lookup_2).
    assert (length (delete k rs) = length rs - 1)%nat as Hl by (apply length_delete; eauto).
    assert (0 < length rs)%nat by (apply lookup_lt_Some in Hk; lia).
    assert (∀ r', r' ∈ delete k rs → 0 ≤ r' ≤ MAXOPBLOCKS) as He' 
      by (intros r' Hr'; apply He; eapply elem_of_submseteq; [exact Hr'|]; apply sublist_submseteq, sublist_delete).
    unfold end_op in Hr. rewrite (bind_ok _ _ _ _ _ (gets_lg _)) in Hr. apply bind_inv in Hr as ([] & s1 & H1 & Hr). injection H1 as <-.
    destruct (committing (lg s)); [done|]. case_bool_decide as Hz.
    + apply bind_inv in Hr as ([] & s2 & H2 & Hr). injection H2 as <-. apply bind_inv in Hr as ([] & s3 & H3%commit_lg & Hr).
      injection Hr as <-. simpl in *. case_bool_decide as Hpos; rewrite H3; simpl; (split; [|done]); split; simpl; try lia; try done.
      all: rewrite (tally_delete _ _ _ Hk); lia.
    + injection Hr as <-. simpl. split; [|done]. split; simpl; [lia|done|]. rewrite (tally_delete _ _ _ Hk). lia.
Qed.

Lemma reserved_reachable sr sr' : reserved sr → rtc tstep sr sr' → reserved sr' ∧ lsize (lg sr'.1) = lsize (lg sr.1).
Proof.
  intros Hr Hst. induction Hst as [|x y z Hxy _ IH]; [done|].
  destruct (reserved_step _ _ Hr Hxy) as [Hy Hl]. destruct (IH Hy). split; [done|congruence].
Qed.
End reservation.

(** *** A run that fills the log

    Three operations are admitted; they log the blocks 100 to 128 between them. *)
Module Full.
Definition s0 : lstate :=
  mkls (binit (replicate NBUF zero_buf) (list_to_map (map (λ b, ((ROOTDEV, b), [0])) (seqZ 100 30))))
    (mklog 2 LOGSIZE 0 false ROOTDEV 0 (replicate 30 0)).

(** [bp = bread(b); log_write(bp); brelse(bp)] by operation [k]. *)
Definition touch (k : nat) (b : Z) (sr : lstate * list Z) : option (lstate * list Z) :=
  match bread true ROOTDEV b (bc sr.1), sr.2 !! k with
  | Ok (i, c), Some r =>
    match log_write i (mkls c (lg sr.1)) with
    | Ok (_, s1) => match brelse i (bc s1) with
                    | Ok (_, c1) => if bool_decide (0 < r) then Some (mkls c1 (lg s1), <[k := r - 1]> sr.2) else None
                    | _ => None end
    | _ => None end
  | _, _ => None
  end.
Definition admit_op (sr : lstate * list Z) : option (lstate * list Z) :=
  match begin_op sr.1 with Ok (true, s) => Some (s, MAXOPBLOCKS :: sr.2) | _ => None end.

Definition admitted : option (lstate * list Z) := x ← admit_op (s0, []); y ← admit_op x; admit_op y.
Definition full : option (lstate * list Z) :=
  foldl (λ o j, o ≫= touch (Z.to_nat (2 - j / 10)) (100 + j)) admitted (seqZ 0 29).

Lemma touch_steps k b sr sr' : touch k b sr = Some sr' → rtc tstep sr sr'.
Proof.
  destruct sr as [s rs]. unfold touch. simpl. destruct (bread _ _ _ _) as [[i c]|]; [|done].
  destruct (rs !! k) as [r|] eqn:Hk; [|done]. destruct (log_write _ _) as [[[] s1]|] eqn:Hw; [|done].
  destruct (brelse _ _) as [[[] c1]|]; [|done]. case_bool_decide; [|done]. intros [= <-].
  eapply rtc_l; [apply (ts_cache s c)|]. eapply rtc_l; [eapply ts_write; [exact Hk|done|exact Hw]|].
  apply rtc_once. apply (ts_cache s1 c1).
Qed.
Lemma admit_steps sr sr' : admit_op sr = Some sr' → rtc tstep sr sr'.
Proof.
  destruct sr as [s rs]. unfold admit_op. simpl. destruct (begin_op s) as [[[] s1]|] eqn:Hb; [|done..]. intros [= <-].
  apply rtc_once. by apply ts_begin.
Qed.
Lemma admitted_steps sr : admitted = Some sr → rtc tstep (s0, []) sr.
Proof.
  unfold admitted. intros (sr1 & H1 & (sr2 & H2 & H3)%bind_Some)%bind_Some.
  etransitivity; [by apply admit_steps|]. etransitivity; by apply admit_steps.
Qed.
Lemma full_steps js : ∀ o sr0 sr, (∀ x, o = Some x → rtc tstep sr0 x) →
  foldl (λ o j, o ≫= touch (Z.to_nat (2 - j / 10)) (100 + j)) o js = Some sr → rtc tstep sr0 sr.
Proof.
  induction js as [|j js IH]; intros o sr0 sr Ho Hf; simpl in Hf; [by apply Ho|].
  eapply IH; [|exact Hf]. intros x (y & Hy & Hx)%bind_Some. etransitivity; [by apply Ho|by eapply touch_steps].
Qed.

(** The last operation has one block of its budget left. *)
Definition full_check : bool :=
  match full with
  | Some (s, r :: _) =>
    bool_decide (0 < r) && match log_write 0 s with Fault (Panic m) => bool_decide (m = "too big a transaction"%string) | _ => false end
  | _ => false
  end.
Lemma full_check_true : full_check = true.
Proof. vm_compute. reflexivity. Qed.
Lemma full_panics : ∃ s rs r, full = Some (s, rs) ∧ rs !! 0%nat = Some r ∧ 0 < r ∧ log_write 0 s = Fault (Panic "too big a transaction").
Proof.
  pose proof full_check_true as Hc. unfold full_check in Hc. destruct full as [[s [|r rs]]|]; [done| |done].
  apply andb_prop in Hc as [Hr%bool_decide_eq_true Hw]. exists s, (r :: rs), r. split; [done|]. split; [done|]. split; [done|].
  destruct (log_write 0 s) as [|[|m|]]; try done. apply bool_decide_eq_true in Hw. by rewrite Hw.
Qed.
End Full.

(** C22: the admission rule of [begin_op] reserves log space for operations that
    log at most [MAXOPBLOCKS] blocks each: if the log has more than [LOGSIZE]
    blocks, an operation with budget left never meets "too big a transaction".
    But a log block is the header, and a log of exactly [LOGSIZE] blocks, which is
    what mkfs makes, has room for one block less than is reserved: three admitted
    operations within their budgets can run into that panic. *)
Theorem log_reservation :
  (∀ s0 s rs k r i, lh_n (lg s0) = 0 → outstanding (lg s0) = 0 → LOGSIZE < lsize (lg s0) → rtc tstep (s0, []) (s, rs) →
    rs !! k = Some r → 0 < r → log_write i s ≠ Fault (Panic "too big a transaction")) ∧
  (∃ s rs k r i, lsize (lg Full.s0) = LOGSIZE ∧ rtc tstep (Full.s0, []) (s, rs) ∧
    rs !! k = Some r ∧ 0 < r ∧ log_write i s = Fault (Panic "too big a transaction")).
Proof.
  split.
  - intros s0 s rs k r i Hn Ho Hsz Hst Hk Hr.
    destruct (reserved_reachable (s0, []) (s, rs)) as [[Ho' He Hs] Hl]; [|done|].
    { split; simpl; [by rewrite Ho|set_solver|]. rewrite Hn. unfold LOGSIZE, MAXOPBLOCKS. lia. }
    simpl in *. pose proof (tally_one (λ r : Z, r) rs k r) as Hone. specialize (Hone ltac:(intros x Hx; apply He in Hx; lia) Hk).
    cbv beta in Hone. unfold log_write. rewrite (bind_ok _ _ _ _ _ (gets_lg _)).
    rewrite (bool_decide_eq_false_2 (LOGSIZE ≤ _)), (bool_decide_eq_false_2 (_ - 1 ≤ _)) by lia. cbn [orb].
    case_bool_decide; [done|]. unfold mbind, M_bind, on_bc, get_buf. destruct (bufs (bc s) !! i) as [x|]; [|done].
    unfold lift, upd_block. case_bool_decide; [|done]. simpl. by case_bool_decide.
  - destruct Full.full_panics as (s & rs & r & Hf & Hk & Hr & Hw).
    exists s, rs, 0%nat, r, 0%nat. split; [reflexivity|]. split; [|exact (conj Hk (conj Hr Hw))].
    eapply Full.full_steps; [apply Full.admitted_steps|exact Hf].
Qed.

(** Its first part, on a log of 31 blocks in which one operation has begun. *)
Lemma log_reservation_witness : ∃ s,
  begin_op (mkls (bc Full.s0) (mklog 2 31 0 false ROOTDEV 0 (replicate 30 0))) = Ok (true, s) ∧
  log_write 0 s ≠ Fault (Panic "too big a transaction").
Proof.
  eexists. split; [reflexivity|].
  eapply (proj1 log_reservation (mkls (bc Full.s0) (mklog 2 31 0 false ROOTDEV 0 (replicate 30 0))) _ [MAXOPBLOCKS] 0%nat MAXOPBLOCKS);
    [reflexivity|reflexivity|reflexivity| |reflexivity|reflexivity].
  apply rtc_once. apply ts_begin. reflexivity.
Defined.
