(* ===== verification/Fs.v ===== *)
(** * xv6 file system: blocks, inodes, directories and path names

    Models [src/lab3/xv6-public/fs.c] (the same file is in lab4) over the log and
    the buffer cache.  Inode pointers are indices into the inode cache; the code is
    followed for one process at a time, so that waiting for a sleep lock that is
    taken is waiting forever ([OutOfFuel]).  Buffers in the caller's memory are
    lists of bytes.  [devsw] is the table of device drivers. *)
From stdpp Require Import base numbers list gmap sets strings.
From S2P Require Import Prelude Bytes XString Bio Log.
#[local] Open Scope Z_scope.

(** ** Data *)
Definition ROOTINO : Z := 1.
Definition NDIRECT : nat := 12.
Definition NINDIRECT : Z := 128.
Definition MAXFILE : Z := Z.of_nat NDIRECT + NINDIRECT.
Definition IPB : Z := 8.
Definition BPB : Z := Z.of_nat BSIZE * 8.
Definition DIRSIZ : nat := 14.
Definition NINODE : nat := 50.
Definition NDEV : Z := 10.
Definition T_DIR : Z := 1.
Definition T_FILE : Z := 2.
Definition T_DEV : Z := 3.

Record inode : Type := mkinode {
  idev : Z; inum : Z; iref : Z;
  ilocked : bool;                       (** the sleep lock *)
  ivalid : bool;
  itype : Z; imajor : Z; iminor : Z; inlink : Z; isize : Z; iaddrs : list Z }.

Definition set_iref (n : Z) (x : inode) : inode :=
  mkinode (idev x) (inum x) n (ilocked x) (ivalid x) (itype x) (imajor x) (iminor x) (inlink x) (isize x) (iaddrs x).
Definition set_ilock (l : bool) (x : inode) : inode :=
  mkinode (idev x) (inum x) (iref x) l (ivalid x) (itype x) (imajor x) (iminor x) (inlink x) (isize x) (iaddrs x).
Definition set_ivalid (v : bool) (x : inode) : inode :=
  mkinode (idev x) (inum x) (iref x) (ilocked x) v (itype x) (imajor x) (iminor x) (inlink x) (isize x) (iaddrs x).
Definition set_itype (t : Z) (x : inode) : inode :=
  mkinode (idev x) (inum x) (iref x) (ilocked x) (ivalid x) t (imajor x) (iminor x) (inlink x) (isize x) (iaddrs x).
Definition set_isize (n : Z) (x : inode) : inode :=
  mkinode (idev x) (inum x) (iref x) (ilocked x) (ivalid x) (itype x) (imajor x) (iminor x) (inlink x) n (iaddrs x).
Definition set_iaddr (k : nat) (a : Z) (x : inode) : inode :=
  mkinode (idev x) (inum x) (iref x) (ilocked x) (ivalid x) (itype x) (imajor x) (iminor x) (inlink x) (isize x) (<[k := a]> (iaddrs x)).

Record fstate : Type := mkfs { fl : lstate; sb : superblock; icache : list inode }.

Definition on_log {A} (m : M lstate A) : M fstate A := λ s,
  match m (fl s) with
  | Ok (a, l) => Ok (a, mkfs l (sb s) (icache s))
  | Fault f => Fault f
  end.
Definition on_buf {A} (m : M bcache A) : M fstate A := on_log (on_bc m).
Definition get_inode (i : nat) : M fstate inode := λ s,
  match icache s !! i with Some x => Ok (x, s) | None => Fault Undefined end.
Definition put_inode (i : nat) (x : inode) : M fstate unit :=
  modify (λ s, mkfs (fl s) (sb s) (<[i := x]> (icache s))).
Definition upd_inode (i : nat) (f : inode → inode) : M fstate unit := x ← get_inode i; put_inode i (f x).
Definition set_sb (b : superblock) : M fstate unit := modify (λ s, mkfs (fl s) b (icache s)).

Definition s16 (z : Z) : Z := (z + 2^15) `mod` 2^16 - 2^15.
Definition load_short (d : list Z) (off : Z) : res Z := v ← load 2 d off; mret (s16 v).

Record stat : Type := mkstat { st_type : Z; st_dev : Z; st_ino : Z; st_nlink : Z; st_size : Z }.

Section fs.
Context (havedisk1 : bool).
(** [devsw[major].read(ip, dst, n)] returns a count and the bytes it stored;
    [None] is a null pointer. *)
Context (devread : Z → option (nat → Z → M fstate (Z * list Z))).
Context (devwrite : Z → option (nat → list Z → Z → M fstate Z)).

Definition fbread (dev b : Z) : M fstate nat := on_buf (bread havedisk1 dev b).
Definition fbrelse (i : nat) : M fstate unit := on_buf (brelse i).
Definition flog_write (i : nat) : M fstate unit := on_log (log_write i).
Definition fdata (i : nat) : M fstate (list Z) := on_buf (read_data i).
Definition fset_data (i : nat) (d : list Z) : M fstate unit := on_buf (write_data i d).

(** ** Blocks *)
Definition bzero (dev bno : Z) : M fstate unit :=
  bp ← fbread dev (u32 bno);
  fset_data bp (replicate BSIZE 0);;
  flog_write bp;;
  fbrelse bp.

Definition BBLOCK (b : Z) (v : superblock) : Z := u32 (b / BPB + bmapstart v).
Definition IBLOCK (i : Z) (v : superblock) : Z := u32 (i / IPB + inodestart v).

(** [for(bi = 0; bi < BPB && b + bi < sb.size; bi++)], up to the first clear bit. *)
Fixpoint scan_bits (fuel : nat) (d : list Z) (b bi size : Z) : res (option Z) :=
  match fuel with
  | O => Fault OutOfFuel
  | S fuel =>
    if bool_decide (bi < BPB ∧ b + bi < size) then
      x ← getb d (bi / 8);
      if bool_decide (Z.land x (Z.shiftl 1 (bi `mod` 8)) = 0) then mret (Some bi)
      else scan_bits fuel d b (bi + 1) size
    else mret None
  end.

Fixpoint balloc_loop (fuel : nat) (dev b : Z) : M fstate Z :=
  match fuel with
  | O => fail OutOfFuel
  | S fuel =>
    v ← gets sb;
    if bool_decide (b < sb_size v) then
      bp ← fbread dev (BBLOCK b v);
      d ← fdata bp;
      r ← lift (scan_bits (S (Z.to_nat BPB)) d b 0 (sb_size v));
      match r with
      | Some bi =>
        x ← lift (getb d (bi / 8));
        d ← lift (putb d (bi / 8) (Z.lor x (Z.shiftl 1 (bi `mod` 8))));
        fset_data bp d;;
        flog_write bp;;
        fbrelse bp;;
        bzero dev (b + bi);;
        mret (b + bi)
      | None =>
        fbrelse bp;;
        balloc_loop fuel dev (b + BPB)
      end
    else panic "balloc: out of blocks"
  end.
Definition balloc (dev : Z) : M fstate Z :=
  v ← gets sb; balloc_loop (Z.to_nat (sb_size v / BPB + 2)) dev 0.

Definition bfree (dev b : Z) : M fstate unit :=
  v ← on_buf (readsb havedisk1 dev);
  set_sb v;;
  bp ← fbread dev (BBLOCK b v);
  let bi := b `mod` BPB in
  let m := Z.shiftl 1 (bi `mod` 8) in
  d ← fdata bp;
  x ← lift (getb d (bi / 8));
  if bool_decide (Z.land x m = 0) then panic "freeing free block"
  else
    d ← lift (putb d (bi / 8) (Z.land x (Z.lnot m)));
    fset_data bp d;;
    flog_write bp;;
    fbrelse bp.

(** ** Inodes *)
Definition iinit (dev : Z) : M fstate unit :=
  modify (λ s, mkfs (fl s) (sb s) (map (set_ilock false) (icache s)));;
  v ← on_buf (readsb havedisk1 dev);
  set_sb v.

(** The on-disk inode [inum] is at this offset of its block. *)
Definition dinode_off (i : Z) : Z := 64 * (i `mod` IPB).

(** [iget]'s scan: the entry for the inode, or the first free one. *)
Fixpoint iget_scan (l : list inode) (k : nat) (dev num : Z) (empty : option nat) : nat + option nat :=
  match l with
  | [] => inr empty
  | x :: l =>
    if bool_decide (iref x > 0 ∧ idev x = dev ∧ inum x = num) then inl k
    else
      let empty := match empty with
                   | None => if bool_decide (iref x = 0) then Some k else None
                   | Some e => Some e end in
      iget_scan l (S k) dev num empty
  end.
Definition iget (dev num : Z) : M fstate nat :=
  l ← gets icache;
  match iget_scan l 0 dev num None with
  | inl i => upd_inode i (λ x, set_iref (iref x + 1) x);; mret i
  | inr None => panic "iget: no inodes"
  | inr (Some i) =>
    upd_inode i (λ x, mkinode dev num 1 (ilocked x) false (itype x) (imajor x) (iminor x) (inlink x) (isize x) (iaddrs x));;
    mret i
  end.

Fixpoint ialloc_loop (fuel : nat) (dev i type : Z) : M fstate nat :=
  match fuel with
  | O => fail OutOfFuel
  | S fuel =>
    v ← gets sb;
    if bool_decide (i < ninodes v) then
      bp ← fbread dev (IBLOCK i v);
      d ← fdata bp;
      t ← lift (load_short d (dinode_off i));
      if bool_decide (t = 0) then
        d ← lift (store_bytes d (dinode_off i) (replicate 64 0));
        d ← lift (store 2 d (dinode_off i) type);
        fset_data bp d;;
        flog_write bp;;
        fbrelse bp;;
        iget dev i
      else
        fbrelse bp;;
        ialloc_loop fuel dev (i + 1) type
    else panic "ialloc: no inodes"
  end.
Definition ialloc (dev type : Z) : M fstate nat :=
  v ← gets sb; ialloc_loop (S (Z.to_nat (ninodes v))) dev 1 type.

(** [memmove(dip->addrs, ip->addrs, sizeof(ip->addrs))] *)
Definition addr_bytes (a : list Z) : list Z := concat (map (le_bytes 4) a).
Definition store_dinode (d : list Z) (x : inode) : res (list Z) :=
  let o := dinode_off (inum x) in
  d ← store 2 d o (itype x);
  d ← store 2 d (o + 2) (imajor x);
  d ← store 2 d (o + 4) (iminor x);
  d ← store 2 d (o + 6) (inlink x);
  d ← store 4 d (o + 8) (isize x);
  store_bytes d (o + 12) (addr_bytes (iaddrs x)).
Definition iupdate (ip : nat) : M fstate unit :=
  x ← get_inode ip;
  v ← gets sb;
  bp ← fbread (idev x) (IBLOCK (inum x) v);
  d ← fdata bp;
  d ← lift (store_dinode d x);
  fset_data bp d;;
  flog_write bp;;
  fbrelse bp.

Definition idup (ip : nat) : M fstate nat := upd_inode ip (λ x, set_iref (iref x + 1) x);; mret ip.

(** [acquiresleep(&ip->lock)] *)
Definition lock_inode (ip : nat) : M fstate unit :=
  x ← get_inode ip;
  if ilocked x then fail OutOfFuel else put_inode ip (set_ilock true x).

(** The 13 block addresses of the on-disk inode. *)
Fixpoint load_addrs (n : nat) (d : list Z) (off : Z) : res (list Z) :=
  match n with
  | O => mret []
  | S n => a ← load 4 d off; l ← load_addrs n d (off + 4); mret (a :: l)
  end.
Definition load_dinode (d : list Z) (x : inode) : res inode :=
  let o := dinode_off (inum x) in
  t ← load_short d o;
  ma ← load_short d (o + 2);
  mi ← load_short d (o + 4);
  nl ← load_short d (o + 6);
  sz ← load 4 d (o + 8);
  a ← load_addrs (S NDIRECT) d (o + 12);
  mret (mkinode (idev x) (inum x) (iref x) (ilocked x) true t ma mi nl sz a).

Definition ilock (p : option nat) : M fstate unit :=
  match p with
  | None => panic "ilock"
  | Some ip =>
    x ← get_inode ip;
    if bool_decide (iref x < 1) then panic "ilock"
    else
      lock_inode ip;;
      x ← get_inode ip;
      if ivalid x then mret tt
      else
        v ← gets sb;
        bp ← fbread (idev x) (IBLOCK (inum x) v);
        d ← fdata bp;
        y ← lift (load_dinode d x);
        put_inode ip (set_ivalid false y);;
        fbrelse bp;;
        put_inode ip y;;
        if bool_decide (itype y = 0) then panic "ilock: no type" else mret tt
  end.

Definition iunlock (p : option nat) : M fstate unit :=
  match p with
  | None => panic "iunlock"
  | Some ip =>
    x ← get_inode ip;
    if negb (ilocked x) || bool_decide (iref x < 1) then panic "iunlock"
    else put_inode ip (set_ilock false x)
  end.

(** ** Inode content *)
Definition bmap (ip : nat) (bn : Z) : M fstate Z :=
  x ← get_inode ip;
  if bool_decide (bn < Z.of_nat NDIRECT) then
    a ← lift (getb (iaddrs x) bn);
    if bool_decide (a = 0) then
      a ← balloc (idev x);
      upd_inode ip (set_iaddr (Z.to_nat bn) a);;
      mret a
    else mret a
  else
    let bn := bn - Z.of_nat NDIRECT in
    if bool_decide (bn < NINDIRECT) then
      a ← lift (getb (iaddrs x) (Z.of_nat NDIRECT));
      a ← (if bool_decide (a = 0) then
             a ← balloc (idev x);
             upd_inode ip (set_iaddr NDIRECT a);;
             mret a
           else mret a);
      bp ← fbread (idev x) a;
      d ← fdata bp;
      a ← lift (load 4 d (4 * bn));
      if bool_decide (a = 0) then
        a ← balloc (idev x);
        d ← lift (store 4 d (4 * bn) a);
        fset_data bp d;;
        flog_write bp;;
        fbrelse bp;;
        mret a
      else
        fbrelse bp;;
        mret a
    else panic "bmap: out of range".

(** The direct blocks, from [i] on. *)
Fixpoint free_direct (n : nat) (ip i : nat) : M fstate unit :=
  match n with
  | O => mret tt
  | S n =>
    x ← get_inode ip;
    a ← lift (getb (iaddrs x) (Z.of_nat i));
    (if bool_decide (a = 0) then mret tt
     else bfree (idev x) a;; upd_inode ip (set_iaddr i 0));;
    free_direct n ip (S i)
  end.
(** The blocks of the indirect block's data [d], from [j] on. *)
Fixpoint free_indirect (n : nat) (dev : Z) (d : list Z) (j : Z) : M fstate unit :=
  match n with
  | O => mret tt
  | S n =>
    a ← lift (load 4 d (4 * j));
    (if bool_decide (a = 0) then mret tt else bfree dev a);;
    free_indirect n dev d (j + 1)
  end.
Definition itrunc (ip : nat) : M fstate unit :=
  free_direct NDIRECT ip 0;;
  x ← get_inode ip;
  a ← lift (getb (iaddrs x) (Z.of_nat NDIRECT));
  (if bool_decide (a = 0) then mret tt
   else
     bp ← fbread (idev x) a;
     d ← fdata bp;
     free_indirect (Z.to_nat NINDIRECT) (idev x) d 0;;
     fbrelse bp;;
     bfree (idev x) a;;
     upd_inode ip (set_iaddr NDIRECT 0));;
  upd_inode ip (set_isize 0);;
  iupdate ip.

Definition iput (ip : nat) : M fstate unit :=
  lock_inode ip;;
  x ← get_inode ip;
  (if ivalid x && bool_decide (inlink x = 0) then
     if bool_decide (iref x = 1) then
       itrunc ip;;
       upd_inode ip (set_itype 0);;
       iupdate ip;;
       upd_inode ip (set_ivalid false)
     else mret tt
   else mret tt);;
  upd_inode ip (set_ilock false);;
  upd_inode ip (λ x, set_iref (iref x - 1) x).

Definition iunlockput (ip : nat) : M fstate unit := iunlock (Some ip);; iput ip.

Definition stati (ip : nat) : M fstate stat :=
  x ← get_inode ip;
  mret (mkstat (itype x) (s32 (idev x)) (inum x) (inlink x) (isize x)).

(** The bytes copied to [dst] so far are [acc]. *)
Fixpoint readi_loop (fuel : nat) (ip : nat) (off tot n : Z) (acc : list Z) : M fstate (list Z) :=
  match fuel with
  | O => fail OutOfFuel
  | S fuel =>
    if bool_decide (tot < n) then
      x ← get_inode ip;
      b ← bmap ip (off / Z.of_nat BSIZE);
      bp ← fbread (idev x) b;
      let m := Z.min (n - tot) (Z.of_nat BSIZE - off `mod` Z.of_nat BSIZE) in
      d ← fdata bp;
      bs ← lift (load_bytes d (off `mod` Z.of_nat BSIZE) (Z.to_nat m));
      fbrelse bp;;
      readi_loop fuel ip (u32 (off + m)) (tot + m) n (acc ++ bs)
    else mret acc
  end.
(** Each turn ends at a block boundary or at the end. *)
Definition io_fuel (n : Z) : nat := Z.to_nat (n / Z.of_nat BSIZE + 3).

Definition readi (ip : nat) (off n : Z) : M fstate (Z * list Z) :=
  x ← get_inode ip;
  if bool_decide (itype x = T_DEV) then
    if bool_decide (imajor x < 0 ∨ NDEV ≤ imajor x) then mret (-1, [])
    else match devread (imajor x) with
         | None => mret (-1, [])
         | Some f => f ip n
         end
  else if bool_decide (isize x < off ∨ u32 (off + n) < off) then mret (-1, [])
  else
    let n := if bool_decide (isize x < u32 (off + n)) then isize x - off else n in
    bs ← readi_loop (io_fuel n) ip off 0 n [];
    mret (n, bs).

(** The final [off] is returned for the size update. *)
Fixpoint writei_loop (fuel : nat) (ip : nat) (src : list Z) (off tot n : Z) : M fstate Z :=
  match fuel with
  | O => fail OutOfFuel
  | S fuel =>
    if bool_decide (tot < n) then
      x ← get_inode ip;
      b ← bmap ip (off / Z.of_nat BSIZE);
      bp ← fbread (idev x) b;
      let m := Z.min (n - tot) (Z.of_nat BSIZE - off `mod` Z.of_nat BSIZE) in
      d ← fdata bp;
      bs ← lift (load_bytes src tot (Z.to_nat m));
      d ← lift (store_bytes d (off `mod` Z.of_nat BSIZE) bs);
      fset_data bp d;;
      flog_write bp;;
      fbrelse bp;;
      writei_loop fuel ip src (u32 (off + m)) (tot + m) n
    else mret off
  end.

Definition writei (ip : nat) (src : list Z) (off n : Z) : M fstate Z :=
  x ← get_inode ip;
  if bool_decide (itype x = T_DEV) then
    if bool_decide (imajor x < 0 ∨ NDEV ≤ imajor x) then mret (-1)
    else match devwrite (imajor x) with
         | None => mret (-1)
         | Some f => f ip src n
         end
  else if bool_decide (isize x < off ∨ u32 (off + n) < off) then mret (-1)
  else if bool_decide (MAXFILE * Z.of_nat BSIZE < u32 (off + n)) then mret (-1)
  else
    off ← writei_loop (io_fuel n) ip src off 0 n;
    x ← get_inode ip;
    (if bool_decide (0 < n ∧ isize x < off) then upd_inode ip (set_isize off);; iupdate ip else mret tt);;
    mret n.

(** ** Directories *)
Definition DE : Z := 16.                (** [sizeof(struct dirent)] *)

(** [name] is a string with its NUL or an array of [DIRSIZ] bytes; the two
    arguments lie side by side in memory. *)
Definition namecmp (s t : list Z) : res Z := strncmp DIRSIZ (s ++ t) 0 (Z.of_nat (length s)).

(** The entry's inode and its offset. *)
Fixpoint dirlookup_loop (fuel : nat) (dp : nat) (name : list Z) (off : Z) : M fstate (option (nat * Z)) :=
  match fuel with
  | O => fail OutOfFuel
  | S fuel =>
    x ← get_inode dp;
    if bool_decide (off < isize x) then
      '(r, de) ← readi dp off DE;
      if bool_decide (r ≠ DE) then panic "dirlookup read"
      else
        num ← lift (load 2 de 0);
        if bool_decide (num = 0) then dirlookup_loop fuel dp name (u32 (off + DE))
        else
          c ← lift (namecmp name (drop 2 de));
          if bool_decide (c = 0) then ip ← iget (idev x) num; mret (Some (ip, off))
          else dirlookup_loop fuel dp name (u32 (off + DE))
    else mret None
  end.
Definition dir_fuel (size : Z) : nat := Z.to_nat (size / DE + 2).
Definition dirlookup (dp : nat) (name : list Z) : M fstate (option (nat * Z)) :=
  x ← get_inode dp;
  if bool_decide (itype x ≠ T_DIR) then panic "dirlookup not DIR"
  else dirlookup_loop (dir_fuel (isize x)) dp name 0.

(** The offset of the first free entry, and the entry read last ([de]). *)
Fixpoint free_dirent (fuel : nat) (dp : nat) (off : Z) (de : list Z) : M fstate (Z * list Z) :=
  match fuel with
  | O => fail OutOfFuel
  | S fuel =>
    x ← get_inode dp;
    if bool_decide (off < isize x) then
      '(r, de) ← readi dp off DE;
      if bool_decide (r ≠ DE) then panic "dirlink read"
      else
        num ← lift (load 2 de 0);
        if bool_decide (num = 0) then mret (off, de)
        else free_dirent fuel dp (off + DE) de
    else mret (off, de)
  end.
(** [junk] is the uninitialised [struct dirent]. *)
Definition dirlink (dp : nat) (name : list Z) (num : Z) (junk : list Z) : M fstate Z :=
  r ← dirlookup dp name;
  match r with
  | Some (ip, _) => iput ip;; mret (-1)
  | None =>
    x ← get_inode dp;
    '(off, de) ← free_dirent (dir_fuel (isize x)) dp 0 junk;
    m ← lift (strncpy (drop 2 de ++ name) 0 (Z.of_nat DIRSIZ) (Z.of_nat DIRSIZ));
    de ← lift (store 2 (take 2 de ++ take DIRSIZ m) 0 num);
    r ← writei dp de off DE;
    if bool_decide (r ≠ DE) then panic "dirlink" else mret 0
  end.

(** ** Paths

    A path is the list of its bytes before the NUL. *)
Definition slash : Z := 47.
Fixpoint skip_slashes (p : list Z) : list Z :=
  match p with
  | [] => []
  | c :: p' => if bool_decide (c = slash) then skip_slashes p' else p
  end.
(** The bytes up to the next slash or the end, and what follows. *)
Fixpoint span_elem (p : list Z) : list Z * list Z :=
  match p with
  | [] => ([], [])
  | c :: p' => if bool_decide (c = slash) then ([], p) else let '(s, r) := span_elem p' in (c :: s, r)
  end.
(** The rest of the path and the new content of [name]. *)
Definition skipelem (path name : list Z) : res (option (list Z * list Z)) :=
  match skip_slashes path with
  | [] => mret None
  | p =>
    let '(s, r) := span_elem p in
    name ← (if bool_decide (DIRSIZ ≤ length s)%nat then store_bytes name 0 (take DIRSIZ s)
            else n ← store_bytes name 0 s; store_bytes n (Z.of_nat (length s)) [0]);
    mret (Some (skip_slashes r, name))
  end.

(** [parent] is the argument [nameiparent].  Every turn uses up a part of the path. *)
Fixpoint namex_loop (fuel : nat) (ip : nat) (path : list Z) (parent : bool) (name : list Z) : M fstate (option nat * list Z) :=
  match fuel with
  | O => fail OutOfFuel
  | S fuel =>
    r ← lift (skipelem path name);
    match r with
    | None => if parent then iput ip;; mret (None, name) else mret (Some ip, name)
    | Some (path, name) =>
      ilock (Some ip);;
      x ← get_inode ip;
      if bool_decide (itype x ≠ T_DIR) then iunlockput ip;; mret (None, name)
      else if parent && bool_decide (path = []) then iunlock (Some ip);; mret (Some ip, name)
      else
        r ← dirlookup ip name;
        match r with
        | None => iunlockput ip;; mret (None, name)
        | Some (next, _) => iunlockput ip;; namex_loop fuel next path parent name
        end
    end
  end.
(** [cwd] is [myproc()->cwd]. *)
Definition namex (cwd : nat) (path : list Z) (parent : bool) (name : list Z) : M fstate (option nat * list Z) :=
  ip ← (if bool_decide (head path = Some slash) then iget ROOTDEV ROOTINO else idup cwd);
  namex_loop (S (length path)) ip path parent name.
(** [junk] is the uninitialised [name] array. *)
Definition namei (cwd : nat) (path junk : list Z) : M fstate (option nat) :=
  r ← namex cwd path false junk; mret r.1.
Definition nameiparent (cwd : nat) (path name : list Z) : M fstate (option nat * list Z) := namex cwd path true name.
End fs.
