(* ===== verification/File.v ===== *)
(** * xv6 file table

    Models [src/lab3/xv6-public/file.c] (the same file is in lab4) over the file
    system and the pipes, and [pipealloc] of [pipe.c].  File and pipe pointers are indices; a pipe whose page has
    been freed is no longer in the table of pipes.  A transaction that has to wait
    in [begin_op] waits for other processes, and the model follows one process
    ([OutOfFuel]); a pipe operation that goes to sleep is a result. *)
From stdpp Require Import base numbers list gmap sets strings.
From S2P Require Import Prelude Bytes Bio Log Fs Pipe.
#[local] Open Scope Z_scope.

Definition NFILE : nat := 100.

Inductive ftype := FD_NONE | FD_PIPE | FD_INODE.
#[export] Instance ftype_eq : EqDecision ftype.
Proof. solve_decision. Defined.

Record file : Type := mkfile {
  f_type : ftype; f_ref : Z; f_readable : bool; f_writable : bool; f_pipe : Z; f_ip : nat; f_off : Z }.
Definition set_fref (n : Z) (f : file) : file :=
  mkfile (f_type f) n (f_readable f) (f_writable f) (f_pipe f) (f_ip f) (f_off f).
Definition set_ftype (t : ftype) (f : file) : file :=
  mkfile t (f_ref f) (f_readable f) (f_writable f) (f_pipe f) (f_ip f) (f_off f).
Definition set_foff (o : Z) (f : file) : file :=
  mkfile (f_type f) (f_ref f) (f_readable f) (f_writable f) (f_pipe f) (f_ip f) o.

Record ustate : Type := mkus { fsys : fstate; ftable : list file; pipes : gmap Z pipe }.

Definition on_fs {A} (m : M fstate A) : M ustate A := λ s,
  match m (fsys s) with
  | Ok (a, t) => Ok (a, mkus t (ftable s) (pipes s))
  | Fault e => Fault e
  end.
Definition get_file (f : nat) : M ustate file := λ s,
  match ftable s !! f with Some x => Ok (x, s) | None => Fault Undefined end.
Definition put_file (f : nat) (x : file) : M ustate unit :=
  modify (λ s, mkus (fsys s) (<[f := x]> (ftable s)) (pipes s)).
Definition get_pipe (p : Z) : M ustate pipe := λ s,
  match pipes s !! p with Some x => Ok (x, s) | None => Fault Undefined end.
Definition put_pipe (p : Z) (x : pipe) : M ustate unit :=
  modify (λ s, mkus (fsys s) (ftable s) (<[p := x]> (pipes s))).
Definition free_pipe (p : Z) : M ustate unit :=
  modify (λ s, mkus (fsys s) (ftable s) (delete p (pipes s))).

(** The first entry that is not referenced. *)
Definition free_file (l : list file) : option nat :=
  match list_find (λ f, f_ref f = 0) l with Some (i, _) => Some i | None => None end.
Definition filealloc : M ustate (option nat) :=
  l ← gets ftable;
  match free_file l with
  | Some i => x ← get_file i; put_file i (set_fref 1 x);; mret (Some i)
  | None => mret None
  end.

Definition filedup (f : nat) : M ustate nat :=
  x ← get_file f;
  if bool_decide (f_ref x < 1) then panic "filedup"
  else put_file f (set_fref (f_ref x + 1) x);; mret f.

(** A read or write either returns a count, with the bytes read, or sleeps. *)
Inductive ioresult := IORet (r : Z) (bs : list Z) | IOSleep.

Section file.
Context (havedisk1 : bool).
Context (devread : Z → option (nat → Z → M fstate (Z * list Z))).
Context (devwrite : Z → option (nat → list Z → Z → M fstate Z)).

Definition fbegin_op : M ustate unit :=
  b ← on_fs (on_log begin_op); if (b : bool) then mret tt else fail OutOfFuel.
Definition fend_op : M ustate unit := on_fs (on_log (end_op havedisk1)).

Definition fileclose (f : nat) : M ustate unit :=
  x ← get_file f;
  if bool_decide (f_ref x < 1) then panic "fileclose"
  else if bool_decide (0 < f_ref x - 1) then put_file f (set_fref (f_ref x - 1) x)
  else
    put_file f (set_ftype FD_NONE (set_fref 0 x));;
    match f_type x with
    | FD_PIPE =>
      p ← get_pipe (f_pipe x);
      let '(p, freed) := pipeclose p (f_writable x) in
      if (freed : bool) then free_pipe (f_pipe x) else put_pipe (f_pipe x) p
    | FD_INODE =>
      fbegin_op;;
      on_fs (iput havedisk1 (f_ip x));;
      fend_op
    | FD_NONE => mret tt
    end.

(** [pipealloc] of [pipe.c].  [page] is what [kalloc] returns, with the bytes that
    the page has at the place of [data]; the page is freed only if it was allocated,
    and then there is nothing to undo. *)
Definition pipealloc_bad (f0 f1 : option nat) : M ustate (option (nat * nat)) :=
  match f0 with Some f => fileclose f | None => mret tt end;;
  match f1 with Some f => fileclose f | None => mret tt end;;
  mret None.
Definition pipealloc (page : option (Z * list Z)) : M ustate (option (nat * nat)) :=
  f0 ← filealloc;
  match f0 with
  | None => pipealloc_bad None None
  | Some a =>
    f1 ← filealloc;
    match f1 with
    | None => pipealloc_bad (Some a) None
    | Some b =>
      match page with
      | None => pipealloc_bad (Some a) (Some b)
      | Some (p, junk) =>
        put_pipe p (pipe_init junk);;
        x ← get_file a;
        put_file a (mkfile FD_PIPE (f_ref x) true false p (f_ip x) (f_off x));;
        y ← get_file b;
        put_file b (mkfile FD_PIPE (f_ref y) false true p (f_ip y) (f_off y));;
        mret (Some (a, b))
      end
    end
  end.

Definition filestat (f : nat) : M ustate (option stat) :=
  x ← get_file f;
  match f_type x with
  | FD_INODE =>
    on_fs (ilock havedisk1 (Some (f_ip x)));;
    st ← on_fs (stati (f_ip x));
    on_fs (iunlock (Some (f_ip x)));;
    mret (Some st)
  | _ => mret None
  end.

(** [killed] is [myproc()->killed]. *)
Definition fileread (f : nat) (n : Z) (killed : bool) : M ustate ioresult :=
  x ← get_file f;
  if negb (f_readable x) then mret (IORet (-1) [])
  else match f_type x with
  | FD_PIPE =>
    p ← get_pipe (f_pipe x);
    let '(p, r) := piperead p n killed in
    put_pipe (f_pipe x) p;;
    mret (match r with RBytes bs => IORet (Z.of_nat (length bs)) bs | RError => IORet (-1) [] | RSleep => IOSleep end)
  | FD_INODE =>
    on_fs (ilock havedisk1 (Some (f_ip x)));;
    '(r, bs) ← on_fs (readi havedisk1 devread (f_ip x) (f_off x) (u32 n));
    let r := s32 r in
    (if bool_decide (0 < r) then put_file f (set_foff (u32 (f_off x + r)) x) else mret tt);;
    on_fs (iunlock (Some (f_ip x)));;
    mret (IORet r bs)
  | FD_NONE => panic "fileread"
  end.

(** [((MAXOPBLOCKS-1-1-2) / 2) * 512] *)
Definition maxwrite : Z := Z.quot (MAXOPBLOCKS - 1 - 1 - 2) 2 * 512.

(** [while(i < n)]: the value of [i] at the end. *)
Fixpoint filewrite_loop (fuel : nat) (f : nat) (addr : list Z) (i n : Z) : M ustate Z :=
  match fuel with
  | O => fail OutOfFuel
  | S fuel =>
    if bool_decide (i < n) then
      let n1 := if bool_decide (n - i > maxwrite) then maxwrite else n - i in
      fbegin_op;;
      x ← get_file f;
      on_fs (ilock havedisk1 (Some (f_ip x)));;
      r ← on_fs (writei havedisk1 devwrite (f_ip x) (drop (Z.to_nat i) addr) (f_off x) n1);
      let r := s32 r in
      (if bool_decide (0 < r) then put_file f (set_foff (u32 (f_off x + r)) x) else mret tt);;
      on_fs (iunlock (Some (f_ip x)));;
      fend_op;;
      if bool_decide (r < 0) then mret i
      else if bool_decide (r ≠ n1) then panic "short filewrite"
      else filewrite_loop fuel f addr (i + r) n
    else mret i
  end.

Definition filewrite (f : nat) (addr : list Z) (n : Z) (killed : bool) : M ustate ioresult :=
  x ← get_file f;
  if negb (f_writable x) then mret (IORet (-1) [])
  else match f_type x with
  | FD_PIPE =>
    p ← get_pipe (f_pipe x);
    bs ← lift (load_bytes addr 0 (Z.to_nat n));
    let '(p, r) := pipewrite p bs killed in
    put_pipe (f_pipe x) p;;
    mret (match r with WDone => IORet n [] | WError => IORet (-1) [] | WSleep _ => IOSleep end)
  | FD_INODE =>
    i ← filewrite_loop (S (Z.to_nat (n / maxwrite + 1))) f addr 0 n;
    mret (IORet (if bool_decide (i = n) then n else -1) [])
  | FD_NONE => panic "filewrite"
  end.
End file.
