(* ===== verification/FsFacts.v ===== *)
(** * Running file-system code in a transaction

    Rules for total correctness of sequences, and what block operations do to the
    abstract contents of the blocks while a transaction is open. *)
From stdpp Require Import base numbers list gmap sets strings.
From S2P Require Import Prelude Bytes XString Bio Log LogFacts Fs.
#[local] Open Scope Z_scope.

(** ** Total correctness *)
Definition runs {S A} (m : M S A) (s : S) (Q : A → S → Prop) : Prop := ∃ a s', m s = Ok (a, s') ∧ Q a s'.

Section runs.
Context {S : Type}.
Implicit Types s : S.

Lemma runs_ret {A} (a : A) s (Q : A → S → Prop) : Q a s → runs (mret a) s Q.
Proof. intros HQ. by exists a, s. Qed.
Lemma runs_bind {A B} (m : M S A) (k : A → M S B) s Q : runs m s (λ a s', runs (k a) s' Q) → runs (m ≫= k) s Q.
Proof. intros (a & s' & Hm & b & s'' & Hk & HQ). exists b, s''. by rewrite (bind_ok _ _ _ _ _ Hm). Qed.
Lemma runs_mono {A} (m : M S A) s (P Q : A → S → Prop) : runs m s P → (∀ a s', P a s' → Q a s') → runs m s Q.
Proof. intros (a & s' & Hm & HP) HPQ. exists a, s'. auto. Qed.
Lemma runs_then {A B} (m : M S A) (k : A → M S B) s P Q : runs m s P → (∀ a s', P a s' → runs (k a) s' Q) → runs (m ≫= k) s Q.
Proof. intros Hm Hk. apply runs_bind. by eapply runs_mono. Qed.
Lemma runs_gets {A} (f : S → A) s (Q : A → S → Prop) : Q (f s) s → runs (gets f) s Q.
Proof. intros HQ. by exists (f s), s. Qed.
Lemma runs_modify (f : S → S) s (Q : unit → S → Prop) : Q tt (f s) → runs (modify f) s Q.
Proof. intros HQ. by exists tt, (f s). Qed.
Lemma runs_lift {A} (r : res A) (a : A) s (Q : A → S → Prop) : r = Ok a → Q a s → runs (lift r) s Q.
Proof. intros -> HQ. by exists a, s. Qed.
End runs.

Lemma runs_on_bc {A} (m : M bcache A) (s : lstate) (Q : A → lstate → Prop) :
  runs m (bc s) (λ a c, Q a (mkls c (lg s))) → runs (on_bc m) s Q.
Proof. intros (a & c & Hm & HQ). exists a, (mkls c (lg s)). unfold on_bc. by rewrite Hm. Qed.
Lemma runs_on_log {A} (m : M lstate A) (s : fstate) (Q : A → fstate → Prop) :
  runs m (fl s) (λ a l, Q a (mkfs l (sb s) (icache s))) → runs (on_log m) s Q.
Proof. intros (a & l & Hm & HQ). eexists a, _. unfold on_log. by rewrite Hm. Qed.
Lemma runs_on_buf {A} (m : M bcache A) (s : fstate) (Q : A → fstate → Prop) :
  runs m (bc (fl s)) (λ a c, Q a (mkfs (mkls c (lg (fl s))) (sb s) (icache s))) → runs (on_buf m) s Q.
Proof. intros Hr. apply runs_on_log, runs_on_bc. exact Hr. Qed.

Lemma runs_buf_bind {A B} (m : M bcache A) (k : A → M bcache B) (s : fstate) Q :
  runs (a ← on_buf m; on_buf (k a)) s Q → runs (on_buf (m ≫= k)) s Q.
Proof.
  intros (b & s' & Hr & HQ). exists b, s'. split; [|done]. rewrite <- Hr. unfold on_buf, on_log, on_bc, mbind, M_bind.
  destruct (m (bc (fl s))) as [[a c]|]; [|done]. cbn. by destruct (k a c) as [[? ?]|].
Qed.
Lemma runs_buf_lift {A} (r : res A) a (s : fstate) Q : r = Ok a → Q a s → runs (on_buf (lift r)) s Q.
Proof. intros -> HQ. exists a, s. split; [|done]. by destruct s as [[? ?] ? ?]. Qed.
Lemma runs_buf_ret {A} (a : A) (s : fstate) (Q : A → fstate → Prop) : Q a s → runs (on_buf (mret a)) s Q.
Proof. intros HQ. exists a, s. split; [|done]. by destruct s as [[? ?] ? ?]. Qed.

(** ** A transaction

    [V] is the content of every block, [F] a set of at most 28 blocks that the
    transaction may write, [H] the blocks it holds buffers of. *)
Record txn (s : fstate) (V : gmap Z (list Z)) (F H : gset Z) : Prop := {
  tx_logged : ∃ bl, binv (bc (fl s)) V (list_to_set bl) H ∧ logs (lg (fl s)) bl ∧ NoDup bl ∧ list_to_set bl ⊆ F ∧
    ∀ b, b ∈ H → b ∈ bl ∨ disk (bc (fl s)) !! (ROOTDEV, b) = V !! b;
  tx_size : (size F ≤ 28)%nat;
  tx_lsize : lsize (lg (fl s)) = LOGSIZE;
  tx_ops : 1 ≤ outstanding (lg (fl s)) }.

Definition held (s : fstate) (i : nat) (b : Z) (d : list Z) : Prop := holds (bc (fl s)) i b d.
(** What an operation on buffers for block [b] leaves alone. *)
Record frame (b : Z) (s s' : fstate) : Prop := {
  fr_sb : sb s' = sb s;
  fr_icache : icache s' = icache s;
  fr_held : ∀ j c e, c ≠ b → held s j c e → held s' j c e }.

Lemma frame_trans b s s1 s2 : frame b s s1 → frame b s1 s2 → frame b s s2.
Proof. intros [A1 B1 C1] [A2 B2 C2]. split; [congruence..|]. auto. Qed.

(** What an operation that gives back the buffers it takes leaves alone. *)
Record stable (s s' : fstate) : Prop := {
  sta_sb : sb s' = sb s;
  sta_icache : icache s' = icache s;
  sta_held : ∀ j c e, held s j c e → held s' j c e }.
#[export] Instance stable_preorder : PreOrder stable.
Proof. split; [done|]. intros s s1 s2 [A1 B1 C1] [A2 B2 C2]. split; [congruence..|auto]. Qed.

Lemma held_block s V F H i b d : txn s V F H → held s i b d → b ∈ H.
Proof.
  intros [(bl & Hi & _) _ _ _] [dr Hb]. apply (bi_H _ _ _ _ Hi). exists i. eexists. by split.
Qed.
Lemma frame_stable s s' V F H b : txn s V F H → b ∉ H → frame b s s' → stable s s'.
Proof.
  intros Htx Hb [A B C]. split; [done..|]. intros j c e Hj. apply C; [|done]. intros ->. by destruct Hb; eapply held_block.
Qed.

Lemma txn_grow s V F F' H : txn s V F H → F ⊆ F' → (size F' ≤ 28)%nat → txn s V F' H.
Proof. intros [(bl & Hi & Hl & Hn & Hs & Hc) _ H3 H4] HF Hsz. split; try done. exists bl. split_and!; try done. by etransitivity. Qed.

(** The transaction does not depend on the in-memory inodes or the superblock. *)
Lemma txn_frame s s' V F H : fl s' = fl s → txn s V F H → txn s' V F H.
Proof. intros E [H1 H2 H3 H4]. split; rewrite ?E; done. Qed.

Section block_ops.
Context (s : fstate) (V : gmap Z (list Z)) (F H : gset Z) (Htx : txn s V F H).

Lemma fbread_ok b d : V !! b = Some d → b ∉ H → (size H ≤ 1)%nat →
  runs (fbread true ROOTDEV b) s (λ i s', txn s' V F ({[b]} ∪ H) ∧ held s' i b d ∧ frame b s s').
Proof using Htx.
  intros Hb HH Hsz. destruct Htx as [(bl & Hi & Hl & Hn & Hs & Hc) H2 H3 H4].
  destruct (bread_ok _ _ _ _ Hi b d Hb HH) as (i & c & Hr & Hi' & Hh & Hd & _ & Hfr).
  { right. pose proof (subseteq_size (list_to_set bl : gset Z) F Hs). pose proof (size_union_alt (list_to_set bl : gset Z) H) as Hu.
    pose proof (subseteq_size (H ∖ list_to_set bl) H ltac:(set_solver)). unfold NBUF. lia. }
  apply runs_on_buf. exists i, c. split; [done|]. split; [|split; [done|split; [done..|]]].
  - split; [|done..]. exists bl. split_and!; try done. intros b' Hb'. simpl. rewrite Hd.
    destruct (decide (b' ∈ bl)) as [|Hnd]; [by left|right]. destruct (decide (b' ∈ H)) as [Hh'|Hnh].
    + by destruct (Hc b' Hh').
    + assert (b' = b) as -> by set_solver. rewrite Hb. apply (bi_disk _ _ _ _ Hi); [done|by rewrite elem_of_list_to_set|done].
  - intros j e d' _ Hj. by apply Hfr.
Qed.

Section held.
Context (i : nat) (b : Z) (d : list Z) (HV : V !! b = Some d) (Hh : held s i b d).

Lemma fdata_ok : runs (fdata i) s (λ d' s', d' = d ∧ s' = s).
Proof using Hh.
  apply runs_on_buf. exists d, (bc (fl s)). split; [exact (buf_data_run _ _ _ _ Hh)|]. clear. by destruct s as [[? ?] ? ?].
Qed.

Lemma fset_data_ok e : b ∈ F →
  runs (fset_data i e;; flog_write i) s (λ _ s', txn s' (<[b := e]> V) F H ∧ held s' i b e ∧ frame b s s').
Proof using Htx HV Hh.
  intros HbF. destruct Htx as [(bl & Hi & Hl & Hn & Hs & Hc) H2 H3 H4].
  destruct (write_data_ok _ _ _ _ Hi i b d HV Hh e) as (c1 & R1 & I1 & Ho1 & D1 & _ & F1).
  pose proof (subseteq_size (list_to_set bl : gset Z) F Hs) as Hsz. rewrite size_list_to_set in Hsz by done.
  destruct (log_write_ok (lg (fl s)) c1 _ _ _ bl i b e I1 (lookup_insert_eq _ _ _) Ho1 Hl) as (c2 & l2 & R2 & L2 & I2 & Ho2 & E);
    [lia|rewrite H3; unfold LOGSIZE, MAXOPBLOCKS; lia|done|].
  destruct E as (E1 & E2 & E3 & E4 & E5 & E6 & E7).
  apply runs_bind, runs_on_buf. exists tt, c1. split; [done|]. apply runs_on_log. cbn [fl bc lg sb icache].
  exists tt, (mkls c2 l2). split; [done|]. split; [|split; [exact Ho2|split; [done..|]]].
  - split; [|done|simpl; congruence|simpl; congruence]. exists (log_add b bl). split; [|split; [done|]].
    + replace (list_to_set (log_add b bl) : gset Z) with ({[b]} ∪ list_to_set bl : gset Z); [done|].
      unfold log_add. case_decide; set_solver.
    + assert (∀ b', b' ∈ log_add b bl ↔ b' = b ∨ b' ∈ bl) as Hadd by (unfold log_add; case_decide; set_solver).
      split; [|split; [set_solver|]].
      * unfold log_add. case_decide; [done|]. apply NoDup_app. split; [done|]. split; [set_solver|apply NoDup_singleton].
      * intros b' Hb'. rewrite Hadd. destruct (decide (b' = b)) as [|Hne]; [by left; left|].
        destruct (Hc b' Hb'); [by left; right|right]. simpl. by rewrite lookup_insert_ne, E1, D1.
  - intros j c' e' Hcb Hj. apply (F1 j c' e' Hcb) in Hj.
    destruct (log_write_buf _ _ _ R2) as (x & _ & Hx). cbn [bc] in Hx. unfold held. cbn [fl bc]. rewrite Hx.
    apply holds_with; [|done]. intros ->. destruct Hj as [dr Hj], Ho1 as [dr1 Hb1]. congruence.
Qed.

Lemma fbrelse_ok : b ∈ H → runs (fbrelse i) s (λ _ s', txn s' V F (H ∖ {[b]}) ∧ frame b s s').
Proof using Htx HV Hh.
  intros HbH. destruct Htx as [(bl & Hi & Hl & Hn & Hs & Hc) H2 H3 H4].
  destruct (brelse_ok _ _ _ _ Hi i b d HV Hh) as (c & R & I & D & _ & Fr).
  { rewrite elem_of_list_to_set, <- HV. by apply Hc. }
  apply runs_on_buf. exists tt, c. split; [done|]. split; [|split; [done..|exact Fr]].
  split; [|done..]. exists bl. split_and!; try done. intros b' [Hb' _]%elem_of_difference. simpl. rewrite D. by apply Hc.
Qed.
End held.
End block_ops.

(** ** Rules for blocks

    [open_block] is [bp = bread(b)] and a look at [bp->data], [close_block] is
    [brelse(bp)], [save_block] is a change of [bp->data] with [log_write] and
    [brelse]; the rest of the code is [k]. *)
Section block_rules.
Context (s : fstate) (V : gmap Z (list Z)) (F H : gset Z) (Htx : txn s V F H).
Context {A : Type} (Q : A → fstate → Prop).

Lemma open_block b d (k : nat → list Z → M fstate A) : V !! b = Some d → b ∉ H → (size H ≤ 1)%nat →
  (∀ i s', txn s' V F ({[b]} ∪ H) → held s' i b d → frame b s s' → runs (k i d) s' Q) →
  runs (bp ← fbread true ROOTDEV b; d ← fdata bp; k bp d) s Q.
Proof using Htx.
  intros HV HH Hsz Hk. eapply runs_then; [by apply fbread_ok|]. intros i s1 (T1 & H1 & F1).
  eapply runs_then; [by eapply fdata_ok|]. intros d' s1' [-> ->]. by apply Hk.
Qed.

Section held.
Context (i : nat) (b : Z) (d : list Z) (HV : V !! b = Some d) (Hh : held s i b d).

Lemma close_block (k : M fstate A) :
  (∀ s', txn s' V F (H ∖ {[b]}) → frame b s s' → runs k s' Q) → runs (fbrelse i;; k) s Q.
Proof using Htx HV Hh.
  intros Hk. eapply runs_then; [eapply fbrelse_ok; [done..|by eapply held_block]|]. intros [] s1 [T1 F1]. by apply Hk.
Qed.

Lemma save_ok e : b ∈ F → runs (fset_data i e;; flog_write i;; fbrelse i) s
  (λ _ s', txn s' (<[b := e]> V) F (H ∖ {[b]}) ∧ frame b s s').
Proof using Htx HV Hh.
  intros HF. destruct (fset_data_ok s V F H Htx i b d HV Hh e HF) as ([] & s2 & R & T2 & H2 & F2).
  apply bind_inv in R as ([] & s1 & Ra & Rb).
  destruct (fbrelse_ok _ _ _ _ T2 i b e (lookup_insert_eq _ _ _) H2) as ([] & s3 & Rc & T3 & F3); [by eapply held_block|].
  exists tt, s3. rewrite (bind_ok _ _ _ _ _ Ra), (bind_ok _ _ _ _ _ Rb). split; [done|]. split; [done|by eapply frame_trans].
Qed.

Lemma save_block e (k : M fstate A) : b ∈ F →
  (∀ s', txn s' (<[b := e]> V) F (H ∖ {[b]}) → frame b s s' → runs k s' Q) →
  runs (fset_data i e;; flog_write i;; fbrelse i;; k) s Q.
Proof using Htx HV Hh.
  intros HF Hk. destruct (save_ok e HF) as ([] & s3 & R & T3 & F3).
  apply bind_inv in R as ([] & s1 & Ra & R). apply bind_inv in R as ([] & s2 & Rb & Rc).
  destruct (Hk s3 T3 F3) as (a & s4 & Rd & HQ). exists a, s4.
  by rewrite (bind_ok _ _ _ _ _ Ra), (bind_ok _ _ _ _ _ Rb), (bind_ok _ _ _ _ _ Rc).
Qed.
End held.
End block_rules.

(** Giving a block back ends up with the buffers held before. *)
Lemma back_out (b : Z) (H : gset Z) : b ∉ H → ({[b]} ∪ H) ∖ {[b]} = H.
Proof. set_solver. Qed.

Lemma size_add (b : Z) (G : gset Z) : (size ({[b]} ∪ G) ≤ S (size G))%nat.
Proof.
  rewrite size_union_alt, size_singleton. pose proof (subseteq_size (G ∖ {[b]}) G ltac:(set_solver)). lia.
Qed.
Lemma size_one (b : Z) : (size ({[b]} ∪ ∅ : gset Z) ≤ 1)%nat.
Proof. pose proof (size_add b ∅). rewrite size_empty in *. lia. Qed.

(** ** The free map *)
Definition bit (d : list Z) (b : Z) : bool := Z.testbit (d !!! Z.to_nat (b / 8)) (b `mod` 8).
Definition set_bit (d : list Z) (b : Z) : list Z :=
  <[Z.to_nat (b / 8) := Z.lor (d !!! Z.to_nat (b / 8)) (Z.shiftl 1 (b `mod` 8))]> d.
Definition clear_bit (d : list Z) (b : Z) : list Z :=
  <[Z.to_nat (b / 8) := Z.land (d !!! Z.to_nat (b / 8)) (Z.lnot (Z.shiftl 1 (b `mod` 8)))]> d.
(** A block's worth of bytes. *)
Definition block_ok (d : list Z) : Prop := length d = BSIZE ∧ Forall byte_ok d.

Lemma testbit_shiftl_1 k j : 0 ≤ k → Z.testbit (Z.shiftl 1 k) j = bool_decide (j = k).
Proof.
  intros Hk. rewrite Z.shiftl_1_l, Z.pow2_bits_eqb by done. destruct (Z.eqb_spec k j); case_bool_decide; congruence.
Qed.
Lemma land_bit x k : 0 ≤ k → Z.land x (Z.shiftl 1 k) = 0 ↔ Z.testbit x k = false.
Proof.
  intros Hk. split.
  - intros H. pose proof (Z.land_spec x (Z.shiftl 1 k) k) as E. rewrite H, Z.bits_0, testbit_shiftl_1, bool_decide_eq_true_2, andb_true_r in E by done.
    done.
  - intros H. apply Z.bits_inj'. intros j _. rewrite Z.land_spec, Z.bits_0, testbit_shiftl_1 by done.
    case_bool_decide; subst; [by rewrite H|by rewrite andb_false_r].
Qed.
Lemma byte_bits x : byte_ok x ↔ (0 ≤ x ∧ ∀ j, 8 ≤ j → Z.testbit x j = false).
Proof.
  unfold byte_ok. split.
  - intros Hx. split; [lia|]. intros j Hj. rewrite Z.testbit_false, Z.div_small; [done| |lia].
    split; [lia|]. eapply Z.lt_le_trans with (2^8); [simpl; lia|]. by apply Z.pow_le_mono_r.
  - intros [H0 Hb]. split; [done|]. replace x with (x `mod` 2^8); [by apply Z.mod_pos_bound|].
    apply Z.bits_inj'. intros j Hj. destruct (decide (j < 8)).
    + by rewrite Z.mod_pow2_bits_low.
    + rewrite Z.mod_pow2_bits_high by lia. by rewrite Hb by lia.
Qed.
Lemma byte_lor x y : byte_ok x → byte_ok y → byte_ok (Z.lor x y).
Proof.
  rewrite !byte_bits. intros [? Hx] [? Hy]. split; [by apply Z.lor_nonneg|]. intros j Hj. by rewrite Z.lor_spec, Hx, Hy.
Qed.
Lemma byte_land x y : byte_ok x → byte_ok (Z.land x y).
Proof.
  rewrite !byte_bits. intros [? Hx]. split; [apply Z.land_nonneg; by left|]. intros j Hj. by rewrite Z.land_spec, Hx.
Qed.
Lemma byte_mask b : byte_ok (Z.shiftl 1 (b `mod` 8)).
Proof.
  apply byte_bits. pose proof (Z.mod_pos_bound b 8). split; [apply Z.shiftl_nonneg; lia|].
  intros j Hj. rewrite testbit_shiftl_1 by lia. case_bool_decide; [lia|done].
Qed.

Section bits.
Context (d : list Z) (Hd : block_ok d).

Lemma bit_byte b : 0 ≤ b < BPB → ∃ x, d !! Z.to_nat (b / 8) = Some x ∧ d !!! Z.to_nat (b / 8) = x ∧ byte_ok x ∧
  (Z.to_nat (b / 8) < length d)%nat ∧ getb d (b / 8) = Ok x.
Proof using Hd.
  intros Hb. destruct Hd as [Hl Hf]. unfold BPB, BSIZE in *.
  assert (0 ≤ b / 8 < 512) by dlia. destruct (lookup_lt_is_Some_2 d (Z.to_nat (b / 8))) as [x Hx]; [lia|].
  exists x. split; [done|]. split; [by apply list_lookup_total_correct|]. split; [by eapply Forall_lookup_1|]. split; [lia|].
  apply getb_ok; [lia|done].
Qed.

Lemma pos_inj b c : 0 ≤ b → 0 ≤ c → Z.to_nat (b / 8) = Z.to_nat (c / 8) → b `mod` 8 = c `mod` 8 → b = c.
Proof using. intros. assert (b / 8 = c / 8) by dlia. dlia. Qed.

Lemma bit_set b c : 0 ≤ b < BPB → 0 ≤ c → bit (set_bit d b) c = if decide (c = b) then true else bit d c.
Proof using Hd.
  intros Hb Hc. destruct (bit_byte b Hb) as (x & Hx & Ht & _ & Hl & _). unfold bit, set_bit. rewrite Ht.
  pose proof (Z.mod_pos_bound b 8). pose proof (Z.mod_pos_bound c 8). case_decide as Hcb.
  - subst c. rewrite list_lookup_total_insert_eq by done. rewrite Z.lor_spec, testbit_shiftl_1 by lia.
    rewrite bool_decide_eq_true_2 by done. apply orb_true_r.
  - destruct (decide (Z.to_nat (c / 8) = Z.to_nat (b / 8))) as [E|E].
    + rewrite E, list_lookup_total_insert_eq by done. rewrite Z.lor_spec, testbit_shiftl_1 by lia.
      rewrite bool_decide_eq_false_2, orb_false_r by (intros ?; destruct Hcb; apply pos_inj; (done || lia)). by rewrite Ht.
    + by rewrite list_lookup_total_insert_ne by done.
Qed.
Lemma bit_clear b c : 0 ≤ b < BPB → 0 ≤ c → bit (clear_bit d b) c = if decide (c = b) then false else bit d c.
Proof using Hd.
  intros Hb Hc. destruct (bit_byte b Hb) as (x & Hx & Ht & _ & Hl & _). unfold bit, clear_bit. rewrite Ht.
  pose proof (Z.mod_pos_bound b 8). pose proof (Z.mod_pos_bound c 8). case_decide as Hcb.
  - subst c. rewrite list_lookup_total_insert_eq by done. rewrite Z.land_spec, Z.lnot_spec, testbit_shiftl_1 by lia.
    rewrite bool_decide_eq_true_2 by done. apply andb_false_r.
  - destruct (decide (Z.to_nat (c / 8) = Z.to_nat (b / 8))) as [E|E].
    + rewrite E, list_lookup_total_insert_eq by done. rewrite Z.land_spec, Z.lnot_spec, testbit_shiftl_1 by lia.
      rewrite bool_decide_eq_false_2, andb_true_r by (intros ?; destruct Hcb; apply pos_inj; (done || lia)). by rewrite Ht.
    + by rewrite list_lookup_total_insert_ne by done.
Qed.
Lemma set_bit_ok b : 0 ≤ b < BPB → block_ok (set_bit d b).
Proof using Hd.
  intros Hb. destruct (bit_byte b Hb) as (x & Hx & Ht & Hy & Hl & _). destruct Hd as [H1 H2]. split.
  - unfold set_bit. by rewrite length_insert.
  - apply Forall_insert; [done|]. rewrite Ht. apply byte_lor; [done|apply byte_mask].
Qed.
Lemma clear_bit_ok b : 0 ≤ b < BPB → block_ok (clear_bit d b).
Proof using Hd.
  intros Hb. destruct (bit_byte b Hb) as (x & Hx & Ht & Hy & Hl & _). destruct Hd as [H1 H2]. split.
  - unfold clear_bit. by rewrite length_insert.
  - apply Forall_insert; [done|]. rewrite Ht. by apply byte_land.
Qed.

(** The scan of [balloc] stops at the first clear bit. *)
Definition first_free (size b : Z) : Prop := 0 ≤ b < size ∧ bit d b = false ∧ ∀ c, 0 ≤ c < b → bit d c = true.

Lemma scan_bits_run size : size ≤ BPB → ∀ fuel bi, 0 ≤ bi → (Z.to_nat (size - bi) < fuel)%nat → (∀ c, 0 ≤ c < bi → bit d c = true) →
  (∃ b, scan_bits fuel d 0 bi size = Ok (Some b) ∧ first_free size b) ∨
  (scan_bits fuel d 0 bi size = Ok None ∧ ∀ c, 0 ≤ c < size → bit d c = true).
Proof using Hd.
  intros Hs. induction fuel as [|fuel IH]; intros bi Hbi Hf Hall.
  - lia.
  - cbn [scan_bits]. case_bool_decide as Hc.
    + destruct (bit_byte bi ltac:(lia)) as (x & Hx & Ht & _ & _ & Hg). rewrite Hg. cbn [mbind res_bind].
      pose proof (Z.mod_pos_bound bi 8 ltac:(lia)) as Hm.
      assert (Z.testbit x (bi `mod` 8) = bit d bi) as Hb by (unfold bit; by rewrite Ht).
      case_bool_decide as Hz.
      * left. exists bi. apply land_bit in Hz; [|lia]. split; [done|]. split; [lia|]. by rewrite <- Hb.
      * apply IH; [lia|lia|]. intros c Hcc. destruct (decide (c = bi)) as [->|]; [|apply Hall; lia].
        rewrite <- Hb. destruct (Z.testbit x _) eqn:E; [done|]. destruct Hz. apply land_bit; [lia|done].
    + right. split; [done|]. intros c Hcc. apply Hall. lia.
Qed.
End bits.
