(* ===== verification/FsBlocks.v ===== *)
(** * The block allocator of the file system

    What [bzero], [balloc] and [bfree] do to the contents of the blocks. *)
From stdpp Require Import base numbers list gmap sets strings.
From S2P Require Import Prelude Bytes XString Bio Log LogFacts Fs FsFacts.
#[local] Open Scope Z_scope.

(** A file system of at most [FSSIZE] blocks has one block of free map; the inode
    blocks lie before it. *)
Record sb_ok (v : superblock) : Prop := {
  so_size : sb_size v ≤ FSSIZE;
  so_bmap : 1 < bmapstart v < sb_size v;
  so_inodes : 1 < inodestart v ∧ 0 ≤ ninodes v ∧ inodestart v + ninodes v / IPB < bmapstart v }.

Definition vol (V : gmap Z (list Z)) : Prop := ∀ b, 0 ≤ b < FSSIZE → ∃ d, V !! b = Some d ∧ block_ok d.
Definition zeros : list Z := replicate BSIZE 0.
(** The free map, and whether a block is in use. *)
Definition fmap_of (v : superblock) (V : gmap Z (list Z)) : list Z := V !!! bmapstart v.
Definition used (v : superblock) (V : gmap Z (list Z)) (b : Z) : Prop := bit (fmap_of v V) b = true.

Lemma zeros_ok : block_ok zeros.
Proof. split; [done|]. by apply Forall_replicate. Qed.
Lemma vol_insert V b d : vol V → block_ok d → vol (<[b := d]> V).
Proof.
  intros HV Hd c Hc. destruct (decide (c = b)) as [->|]; [rewrite lookup_insert_eq; eauto|].
  rewrite lookup_insert_ne by done. by apply HV.
Qed.
Lemma vol_total V b : vol V → 0 ≤ b < FSSIZE → V !! b = Some (V !!! b) ∧ block_ok (V !!! b).
Proof. intros HV Hb. destruct (HV b Hb) as (d & Hd & Hok). by rewrite (lookup_total_correct _ _ _ Hd). Qed.

Section blocks.
Context (v : superblock) (Hv : sb_ok v).

Lemma bmap_range : 0 ≤ bmapstart v < FSSIZE.
Proof using Hv. destruct Hv. lia. Qed.
Lemma BBLOCK_ok b : 0 ≤ b < FSSIZE → BBLOCK b v = bmapstart v.
Proof using Hv.
  intros Hb. pose proof bmap_range. unfold BBLOCK, BPB, BSIZE, FSSIZE in *.
  rewrite Z.div_small by lia. rewrite u32_small; lia.
Qed.

Lemma bzero_ok s V F H b : txn s V F H → vol V → 0 ≤ b < FSSIZE → b ∉ H → (size H ≤ 1)%nat → b ∈ F →
  runs (bzero true ROOTDEV b) s (λ _ s', txn s' (<[b := zeros]> V) F H ∧ stable s s').
Proof using.
  intros Htx HV Hb HH Hsz HF. destruct (vol_total V b HV Hb) as [Hd _]. unfold bzero.
  rewrite u32_small by (unfold FSSIZE in *; lia). eapply runs_then; [by eapply fbread_ok|]. intros i s1 (T1 & H1 & F1).
  eapply runs_mono; [eapply save_ok; done|]. intros [] s2 [T2 F2]. rewrite back_out in T2 by done.
  split; [done|]. by eapply frame_stable, frame_trans.
Qed.

Section alloc.
Context (s : fstate) (V : gmap Z (list Z)) (F H : gset Z) (Htx : txn s V F H) (Hs : sb s = v) (HV : vol V).
Context (HbmF : bmapstart v ∈ F) (HbmH : bmapstart v ∉ H) (HszH : (size H ≤ 1)%nat).

Lemma scan_map : (∃ b, scan_bits (S (Z.to_nat BPB)) (fmap_of v V) 0 0 (sb_size v) = Ok (Some b) ∧ first_free (fmap_of v V) (sb_size v) b) ∨
  (scan_bits (S (Z.to_nat BPB)) (fmap_of v V) 0 0 (sb_size v) = Ok None ∧ ∀ c, 0 ≤ c < sb_size v → used v V c).
Proof using Hv HV.
  destruct (vol_total V _ HV bmap_range) as [_ Hok]. pose proof (so_size _ Hv). unfold FSSIZE in *.
  clear HszH. apply scan_bits_run; [done|unfold BPB, BSIZE; lia|lia|unfold BPB, BSIZE; lia|lia].
Qed.

Definition alloc_view (b : Z) : gmap Z (list Z) := <[b := zeros]> (<[bmapstart v := set_bit (fmap_of v V) b]> V).

Lemma balloc_ok b : first_free (fmap_of v V) (sb_size v) b → b ∉ H → (size ({[b]} ∪ F) ≤ 28)%nat →
  runs (balloc true ROOTDEV) s (λ a s', a = b ∧ txn s' (alloc_view b) ({[b]} ∪ F) H ∧ stable s s').
Proof using Hv Htx Hs HV HbmF HbmH HszH.
  intros Hfree HbH HbF. destruct (vol_total V _ HV bmap_range) as [Hd Hok]. fold (fmap_of v V) in Hd, Hok.
  pose proof (so_size _ Hv) as Hsz. pose proof (so_bmap _ Hv) as Hbm. pose proof Hfree as (Hb & Hbit & Hall).
  assert (0 ≤ b < BPB) as HbB by (unfold BPB, BSIZE, FSSIZE in *; lia).
  unfold balloc. eapply runs_bind, runs_gets. rewrite Hs.
  replace (Z.to_nat (sb_size v / BPB + 2)) with (S (Z.to_nat (sb_size v / BPB + 1))).
  2:{ assert (0 ≤ sb_size v / BPB) by (apply Z.div_pos; unfold BPB, BSIZE; lia). lia. }
  cbn [balloc_loop]. eapply runs_bind, runs_gets. rewrite Hs, bool_decide_eq_true_2 by lia.
  rewrite BBLOCK_ok by (unfold FSSIZE; lia).
  assert (scan_bits (S (Z.to_nat BPB)) (fmap_of v V) 0 0 (sb_size v) = Ok (Some b)) as Hscan.
  { destruct scan_map as [(b' & Hsc & Hb' & Hbit' & Hall')|[_ Hfull]]; [|unfold used in Hfull; rewrite Hfull in Hbit by done; done].
    rewrite Hsc. do 2 f_equal. destruct (Z.lt_trichotomy b b') as [Hlt|[->|Hlt]]; [|done|].
    - rewrite Hall' in Hbit by lia. done.
    - rewrite Hall in Hbit' by lia. done. }
  destruct (bit_byte _ Hok b HbB) as (x & Hx & Ht & Hxb & Hl & Hg).
  assert (putb (fmap_of v V) (b / 8) (Z.lor x (Z.shiftl 1 (b `mod` 8))) = Ok (set_bit (fmap_of v V) b)) as Hput.
  { assert (0 ≤ b / 8) by (apply Z.div_pos; lia). rewrite putb_ok by lia.
    unfold set_bit. rewrite Ht, u8_small; [done|]. apply byte_lor; [done|apply byte_mask]. }
  assert (txn s V ({[b]} ∪ F) H) as Htx' by (eapply txn_grow; [exact Htx|apply union_subseteq_r|done]).
  eapply open_block; [exact Htx'|exact Hd|done|done|]. intros i s1 T1 H1 F1.
  eapply runs_bind, runs_lift; [exact Hscan|]. cbv beta iota.
  eapply runs_bind, runs_lift; [exact Hg|]. eapply runs_bind, runs_lift; [exact Hput|].
  eapply save_block; [exact T1|exact Hd|exact H1|apply elem_of_union_r; exact HbmF|]. intros s2 T2 F2. rewrite back_out in T2 by done.
  rewrite Z.add_0_l. eapply runs_then; [eapply bzero_ok; [exact T2|..]|].
  - apply vol_insert; [done|]. by apply set_bit_ok.
  - lia.
  - done.
  - done.
  - apply elem_of_union_l, elem_of_singleton. done.
  - intros [] s3 [T3 F3]. apply runs_ret. split; [done|]. split; [exact T3|]. etransitivity; [|exact F3].
    eapply frame_stable, frame_trans; [exact Htx|exact HbmH|exact F1|exact F2].
Qed.

(** With no free block [balloc] stops the machine. *)
Lemma balloc_full : (∀ c, 0 ≤ c < sb_size v → used v V c) → balloc true ROOTDEV s = Fault (Panic "balloc: out of blocks").
Proof using Hv Htx Hs HV HbmF HbmH HszH.
  intros Hfull. destruct (vol_total V _ HV bmap_range) as [Hd Hok]. fold (fmap_of v V) in Hd, Hok.
  pose proof (so_size _ Hv) as Hsz. pose proof (so_bmap _ Hv) as Hbm.
  assert (scan_bits (S (Z.to_nat BPB)) (fmap_of v V) 0 0 (sb_size v) = Ok None) as Hscan.
  { destruct scan_map as [(b & _ & Hb & Hbit & _)|[Hsc _]]; [|done]. unfold used in Hfull. by rewrite Hfull in Hbit. }
  unfold balloc. rewrite (bind_ok _ _ s (sb s) s eq_refl), Hs.
  assert (sb_size v / BPB = 0) as -> by (apply Z.div_small; unfold BPB, BSIZE, FSSIZE in *; lia). change (Z.to_nat (0 + 2)) with 2%nat.
  cbn [balloc_loop]. rewrite (bind_ok _ _ s (sb s) s eq_refl), Hs, bool_decide_eq_true_2 by lia.
  rewrite BBLOCK_ok by (unfold FSSIZE; lia).
  destruct (fbread_ok _ _ _ _ Htx _ _ Hd HbmH HszH) as (i & s1 & R1 & T1 & H1 & F1). rewrite (bind_ok _ _ _ _ _ R1).
  destruct (fdata_ok s1 i _ _ H1) as (? & ? & R2 & -> & ->). rewrite (bind_ok _ _ _ _ _ R2).
  erewrite bind_ok; [|unfold lift; by rewrite Hscan].
  destruct (fbrelse_ok _ _ _ _ T1 i _ _ Hd H1) as ([] & s2 & R3 & T2 & F2); [by apply elem_of_union_l, elem_of_singleton|].
  rewrite (bind_ok _ _ _ _ _ R3). rewrite (bind_ok _ _ s2 (sb s2) s2 eq_refl).
  rewrite (fr_sb _ _ _ F2), (fr_sb _ _ _ F1), Hs. rewrite bool_decide_eq_false_2; [done|]. unfold BPB, BSIZE, FSSIZE in *. lia.
Qed.


(** The superblock on the disk. *)
Definition sb_at (d : list Z) : Prop :=
  load 4 d 0 = Ok (sb_size v) ∧ load 4 d 4 = Ok (nblocks v) ∧ load 4 d 8 = Ok (ninodes v) ∧ load 4 d 12 = Ok (nlog v) ∧
  load 4 d 16 = Ok (logstart v) ∧ load 4 d 20 = Ok (inodestart v) ∧ load 4 d 24 = Ok (bmapstart v).

Lemma readsb_ok d : V !! 1 = Some d → sb_at d → 1 ∉ H →
  runs (on_buf (readsb true ROOTDEV)) s (λ v' s', v' = v ∧ txn s' V F H ∧ stable s s').
Proof using Hv Htx Hs HV HbmF HbmH HszH.
  intros H1 (L0 & L1 & L2 & L3 & L4 & L5 & L6) HH. unfold readsb. apply runs_buf_bind.
  eapply runs_then; [by eapply fbread_ok|]. intros i s1 (T1 & Ho1 & F1). apply runs_buf_bind.
  eapply runs_then; [by eapply fdata_ok|]. intros d' s1' [-> ->].
  do 7 (apply runs_buf_bind; eapply runs_bind, runs_buf_lift; [done|]). apply runs_buf_bind.
  eapply runs_then; [eapply (fbrelse_ok s1); [done..|set_solver]|]. intros [] s2 [T2 F2]. rewrite back_out in T2 by done.
  apply runs_buf_ret. split; [by destruct v|]. split; [done|]. by eapply frame_stable, frame_trans.
Qed.

Lemma bfree_ok d b : V !! 1 = Some d → sb_at d → 1 ∉ H → 0 ≤ b < FSSIZE → used v V b →
  runs (bfree true ROOTDEV b) s (λ _ s', txn s' (<[bmapstart v := clear_bit (fmap_of v V) b]> V) F H ∧ stable s s').
Proof using Hv Htx Hs HV HbmF HbmH HszH.
  intros H1 Hd H1H Hb Hu. destruct (vol_total V _ HV bmap_range) as [Hm Hok]. fold (fmap_of v V) in Hm, Hok.
  assert (0 ≤ b < BPB) as HbB by (unfold BPB, BSIZE, FSSIZE in *; lia).
  destruct (bit_byte _ Hok b HbB) as (x & Hx & Ht & Hxb & Hl & Hg). unfold used, bit in Hu. rewrite Ht in Hu.
  unfold bfree. eapply runs_then; [by eapply readsb_ok|]. intros v' s1 (-> & T1 & S1).
  eapply runs_bind, runs_modify. rewrite BBLOCK_ok by done.
  cbv beta. set (s1' := mkfs (fl s1) _ _). assert (txn s1' V F H) as T1' by (apply (txn_frame s1); [reflexivity|exact T1]).
  eapply open_block; [exact T1'|exact Hm|done|done|]. intros i s2 T2 Ho2 F2. rewrite (Z.mod_small b BPB) by done.
  eapply runs_bind, runs_lift; [exact Hg|]. rewrite bool_decide_eq_false_2.
  2:{ rewrite land_bit by (apply Z.mod_pos_bound; lia). by rewrite Hu. }
  eapply runs_bind, runs_lift.
  { assert (0 ≤ b / 8) by (apply Z.div_pos; lia). apply putb_ok. lia. }
  rewrite u8_small by (by apply byte_land). rewrite <- Ht. fold (clear_bit (fmap_of v V) b).
  eapply runs_mono; [eapply save_ok; [exact T2|exact Hm|exact Ho2|exact HbmF]|]. intros [] s3 [T3 F3]. rewrite back_out in T3 by done.
  split; [done|]. etransitivity; [exact S1|]. assert (stable s1' s3) as S3 by (eapply frame_stable; [exact T1'|exact HbmH|eapply frame_trans; [exact F2|exact F3]]).
  destruct S3 as [A B C]. split; [|done|exact C]. rewrite A. simpl. by rewrite (sta_sb _ _ S1).
Qed.

(** Freeing a free block stops the machine. *)
Lemma bfree_free d b : V !! 1 = Some d → sb_at d → 1 ∉ H → 0 ≤ b < FSSIZE → bit (fmap_of v V) b = false →
  bfree true ROOTDEV b s = Fault (Panic "freeing free block").
Proof using Hv Htx Hs HV HbmF HbmH HszH.
  intros H1 Hd H1H Hb Hu. destruct (vol_total V _ HV bmap_range) as [Hm Hok]. fold (fmap_of v V) in Hm, Hok.
  assert (0 ≤ b < BPB) as HbB by (unfold BPB, BSIZE, FSSIZE in *; lia).
  destruct (bit_byte _ Hok b HbB) as (x & Hx & Ht & Hxb & Hl & Hg). unfold bit in Hu. rewrite Ht in Hu. unfold bfree.
  destruct (readsb_ok d H1 Hd H1H) as (? & s1 & R1 & -> & T1 & S1). rewrite (bind_ok _ _ _ _ _ R1).
  rewrite (bind_ok _ _ _ tt _ eq_refl), BBLOCK_ok by done.
  apply (txn_frame s1 (mkfs (fl s1) v (icache s1)) _ _ _ eq_refl) in T1.
  destruct (fbread_ok _ _ _ _ T1 _ _ Hm HbmH HszH) as (i & s2 & R2 & T2 & H2 & F2). rewrite (bind_ok _ _ _ _ _ R2). cbv zeta.
  destruct (fdata_ok s2 i _ _ H2) as (? & ? & R3 & -> & ->). rewrite (bind_ok _ _ _ _ _ R3).
  rewrite (Z.mod_small b BPB) by done. erewrite bind_ok; [|unfold lift; by rewrite Hg].
  rewrite bool_decide_eq_true_2; [done|]. apply land_bit; [apply Z.mod_pos_bound; lia|done].
Qed.
End alloc.
End blocks.
