(* ===== verification/FsInode.v ===== *)
(** * Files as sequences of blocks

    Which disk blocks a file has, what it means for them to be its own, and how
    [bmap] extends a file by a fresh block. *)
From stdpp Require Import base numbers list gmap sets strings.
From S2P Require Import Prelude Bytes XString Bio Log LogFacts Fs FsFacts FsBlocks.
#[local] Open Scope Z_scope.

(** ** The volume *)
Record fs_ok (v : superblock) (V : gmap Z (list Z)) : Prop := {
  fs_vol : vol V;
  fs_meta : ∀ c, 0 ≤ c ≤ bmapstart v → used v V c;
  fs_sb : ∃ d, V !! 1 = Some d ∧ sb_at v d }.

(** The number of free blocks. *)
Definition nfree (v : superblock) (V : gmap Z (list Z)) : Z :=
  tally (λ c, if bit (fmap_of v V) c then 0 else 1) (seqZ 0 (sb_size v)).

(** ** The blocks of a file *)
Definition ind (x : inode) : Z := iaddrs x !!! NDIRECT.
Definition entry (d : list Z) (j : Z) : Z := le_val (slice d (Z.to_nat (4 * j)) 4).
Definition blk (x : inode) (V : gmap Z (list Z)) (k : Z) : Z :=
  if bool_decide (k < Z.of_nat NDIRECT) then iaddrs x !!! Z.to_nat k
  else if bool_decide (ind x = 0) then 0 else entry (V !!! ind x) (k - Z.of_nat NDIRECT).

Record file_ok (v : superblock) (x : inode) (V : gmap Z (list Z)) : Prop := {
  fo_dev : idev x = ROOTDEV;
  fo_len : length (iaddrs x) = S NDIRECT;
  fo_size : 0 ≤ isize x ≤ MAXFILE * Z.of_nat BSIZE;
  fo_data : ∀ k, 0 ≤ k < MAXFILE → blk x V k ≠ 0 → bmapstart v < blk x V k < sb_size v ∧ used v V (blk x V k);
  fo_ind : ind x ≠ 0 → bmapstart v < ind x < sb_size v ∧ used v V (ind x);
  fo_inj : ∀ j k, 0 ≤ j < MAXFILE → 0 ≤ k < MAXFILE → blk x V j ≠ 0 → blk x V j = blk x V k → j = k;
  fo_apart : ∀ k, 0 ≤ k < MAXFILE → blk x V k ≠ 0 → blk x V k ≠ ind x;
  fo_alloc : ∀ k, 0 ≤ k → k * Z.of_nat BSIZE < isize x → blk x V k ≠ 0 }.

(** [x'], [V'] is [x], [V] with block [k] allocated if it was not, and possibly an
    indirect block. *)
Record grows (v : superblock) (k : Z) (x : inode) (V : gmap Z (list Z)) (x' : inode) (V' : gmap Z (list Z)) : Prop := {
  gr_same : ∃ a, x' = mkinode (idev x) (inum x) (iref x) (ilocked x) (ivalid x) (itype x) (imajor x) (iminor x) (inlink x) (isize x) a;
  gr_file : file_ok v x' V';
  gr_fs : fs_ok v V';
  gr_blk : ∀ j, 0 ≤ j < MAXFILE → j ≠ k → blk x' V' j = blk x V j;
  gr_old : blk x V k ≠ 0 → blk x' V' k = blk x V k;
  gr_new : blk x V k = 0 → blk x' V' k ≠ 0 → V' !! blk x' V' k = Some zeros ∧ ¬ used v V (blk x' V' k);
  gr_ind : ind x' = ind x ∨ (ind x = 0 ∧ ¬ used v V (ind x'));
  gr_id : blk x V k ≠ 0 → x' = x ∧ V' = V;
  gr_frame : ∀ b, 0 ≤ b → used v V b → b ≠ bmapstart v → b ≠ ind x → V' !! b = V !! b;
  gr_used : ∀ b, 0 ≤ b → used v V b → used v V' b }.

Section alloc.
Context (v : superblock) (Hv : sb_ok v).

Section fresh.
Context (V : gmap Z (list Z)) (HV : fs_ok v V) (b : Z) (Hb : first_free (fmap_of v V) (sb_size v) b).

Lemma fmap_ok : block_ok (fmap_of v V).
Proof using Hv HV. apply (vol_total V); [apply HV|by apply bmap_range]. Qed.
Lemma fresh_range : bmapstart v < b < sb_size v ∧ 0 ≤ b < BPB.
Proof using Hv HV Hb.
  destruct Hb as (H1 & H2 & _). pose proof (so_size _ Hv). assert (¬ b ≤ bmapstart v).
  { intros Hle. pose proof (fs_meta _ _ HV b ltac:(lia)) as Hu. unfold used in Hu. congruence. }
  unfold BPB, BSIZE, FSSIZE in *. lia.
Qed.
Lemma fresh_unused c : used v V c → c ≠ b.
Proof using Hb. intros Hu ->. destruct Hb as (_ & H2 & _). unfold used in Hu. congruence. Qed.

Lemma alloc_lookup c : c ≠ bmapstart v → c ≠ b → alloc_view v V b !! c = V !! c.
Proof using. intros H1 H2. unfold alloc_view. by rewrite !lookup_insert_ne. Qed.
Lemma alloc_new : alloc_view v V b !! b = Some zeros.
Proof using. apply lookup_insert_eq. Qed.
Lemma alloc_fmap : fmap_of v (alloc_view v V b) = set_bit (fmap_of v V) b.
Proof using Hv HV Hb.
  pose proof fresh_range. unfold fmap_of at 1, alloc_view. rewrite lookup_total_insert_ne by lia. by rewrite lookup_total_insert_eq.
Qed.
Lemma alloc_used c : 0 ≤ c → used v (alloc_view v V b) c ↔ c = b ∨ used v V c.
Proof using Hv HV Hb.
  intros Hc. unfold used. rewrite alloc_fmap, (bit_set _ fmap_ok) by (done || apply fresh_range). case_decide; naive_solver.
Qed.
Lemma alloc_fs : fs_ok v (alloc_view v V b).
Proof using Hv HV Hb.
  pose proof fresh_range as [Hr HB]. destruct HV as [H1 H2 (d & H3 & H4)]. split.
  - apply vol_insert; [|apply zeros_ok]. apply vol_insert; [done|]. apply set_bit_ok; [apply fmap_ok|done].
  - intros c Hc. apply alloc_used; [lia|]. right. by apply H2.
  - exists d. split; [|done]. rewrite alloc_lookup; [done| |]; pose proof (so_bmap _ Hv); lia.
Qed.
Lemma alloc_total c : used v V c → c ≠ bmapstart v → alloc_view v V b !!! c = V !!! c.
Proof using Hb. intros Hu Hc. unfold lookup_total, map_lookup_total. by rewrite alloc_lookup by (done || by apply fresh_unused). Qed.

(** A file's blocks stay where they are. *)
Lemma alloc_blk x k : file_ok v x V → blk x (alloc_view v V b) k = blk x V k.
Proof using Hb.
  intros Hx. unfold blk. case_bool_decide; [done|]. case_bool_decide as Hi; [done|]. f_equal.
  destruct (fo_ind _ _ _ Hx Hi) as [Hr Hu]. apply alloc_total; [done|lia].
Qed.
End fresh.

(** Extending a file by a fresh block [b] at position [k]. *)
Lemma file_ok_extend x V x' V' k b : file_ok v x V → 0 ≤ k < MAXFILE →
  idev x' = idev x → length (iaddrs x') = length (iaddrs x) → isize x' = isize x → ind x' = ind x →
  bmapstart v < b < sb_size v → used v V' b → ¬ used v V b → (∀ c, 0 ≤ c → used v V c → used v V' c) →
  (∀ j, 0 ≤ j < MAXFILE → blk x' V' j = if decide (j = k) then b else blk x V j) → file_ok v x' V'.
Proof using Hv.
  intros Hx Hk E1 E2 E3 E4 Hb Hub Hnb Hmono Hblk. pose proof (so_bmap _ Hv) as Hbm. destruct Hx as [H1 H2 H3 H4 H5 H6 H7 H8].
  split; rewrite ?E1, ?E2, ?E3, ?E4; try done.
  - intros j Hj. rewrite Hblk by done. case_decide; [done|]. intros Hnz. destruct (H4 j Hj Hnz). split; [done|]. apply Hmono; [lia|done].
  - intros Hnz. destruct (H5 Hnz). split; [done|]. apply Hmono; [lia|done].
  - intros i j Hi Hj. rewrite !Hblk by done. repeat case_decide; subst; try done.
    + intros _ E. destruct Hnb. destruct (decide (blk x V j = 0)) as [Ez|Hnz]; [lia|]. rewrite E. by apply H4.
    + intros Hnz E. destruct Hnb. rewrite <- E. by apply H4.
    + by apply H6.
  - intros j Hj. rewrite Hblk by done. case_decide; [|by apply H7]. intros Hnz Eb. destruct Hnb. rewrite Eb. apply H5. congruence.
  - intros j Hj Hlt. rewrite Hblk by (unfold BSIZE, MAXFILE in *; lia). case_decide; [lia|]. by apply H8.
Qed.

Section fresh_ok.
Context (x : inode) (V : gmap Z (list Z)) (HV : fs_ok v V) (Hx : file_ok v x V).
Context (b : Z) (Hb : first_free (fmap_of v V) (sb_size v) b).

Lemma fresh_not_in_use : ¬ used v V b.
Proof using Hb. unfold used. destruct Hb as (_ & -> & _). done. Qed.
Lemma alloc_mono c : 0 ≤ c → used v V c → used v (alloc_view v V b) c.
Proof using Hv HV Hb. intros Hc Hu. apply alloc_used; [done..|]. by right. Qed.

(** A direct block. *)
Lemma direct_grows k : 0 ≤ k < Z.of_nat NDIRECT → blk x V k = 0 →
  grows v k x V (set_iaddr (Z.to_nat k) b x) (alloc_view v V b) ∧ blk (set_iaddr (Z.to_nat k) b x) (alloc_view v V b) k = b.
Proof using Hv HV Hx Hb.
  intros Hk Hz. pose proof (fresh_range V HV b Hb) as [Hr HB]. pose proof (fo_len _ _ _ Hx) as Hlen. pose proof (so_bmap _ Hv) as Hbm.
  assert (ind (set_iaddr (Z.to_nat k) b x) = ind x) as Hind.
  { unfold ind. simpl. apply list_lookup_total_insert_ne. unfold NDIRECT in *. lia. }
  assert (∀ j, 0 ≤ j < MAXFILE → blk (set_iaddr (Z.to_nat k) b x) (alloc_view v V b) j = if decide (j = k) then b else blk x V j) as Hblk.
  { intros j Hj. case_decide as E.
    - subst j. unfold blk. rewrite bool_decide_eq_true_2 by lia. simpl. apply list_lookup_total_insert_eq. unfold NDIRECT in *. lia.
    - rewrite <- (alloc_blk V b Hb x j Hx). unfold blk. rewrite Hind. case_bool_decide; [|done]. simpl.
      apply list_lookup_total_insert_ne. lia. }
  assert (0 ≤ k < MAXFILE) as Hk' by (unfold MAXFILE, NINDIRECT, NDIRECT in *; lia).
  split; [|by rewrite Hblk, decide_True].
  assert (used v (alloc_view v V b) b) as Hub by (apply alloc_used; [done..|lia|by left]).
  split.
  - by eexists.
  - eapply file_ok_extend; [exact Hx|exact Hk'|done|simpl; by rewrite length_insert|done|done|done|done|apply fresh_not_in_use|apply alloc_mono|exact Hblk].
  - by apply alloc_fs.
  - intros j Hj Hne. by rewrite Hblk, decide_False.
  - done.
  - intros _ _. rewrite Hblk, decide_True by done. split; [apply alloc_new|apply fresh_not_in_use].
  - by left.
  - done.
  - intros c _ Hu Hc _. apply alloc_lookup; [done|]. by eapply fresh_unused.
  - apply alloc_mono.
Qed.

Lemma entry_zeros j : 0 ≤ j < NINDIRECT → entry zeros j = 0.
Proof using.
  intros Hj. unfold entry, slice, zeros. rewrite drop_replicate, take_replicate. apply le_val_replicate_0.
Qed.

(** The indirect block itself. *)
Lemma indirect_grows k : 0 ≤ k < MAXFILE → ind x = 0 → blk x V k = 0 →
  grows v k x V (set_iaddr NDIRECT b x) (alloc_view v V b) ∧ ind (set_iaddr NDIRECT b x) = b ∧
  ∀ j, 0 ≤ j < MAXFILE → blk (set_iaddr NDIRECT b x) (alloc_view v V b) j = blk x V j.
Proof using Hv HV Hx Hb.
  intros Hk Hi Hz. pose proof (fresh_range V HV b Hb) as [Hr HB]. pose proof (fo_len _ _ _ Hx) as Hlen. pose proof (so_bmap _ Hv) as Hbm.
  assert (ind (set_iaddr NDIRECT b x) = b) as Hind.
  { unfold ind. simpl. apply list_lookup_total_insert_eq. unfold NDIRECT in *. lia. }
  assert (used v (alloc_view v V b) b) as Hub by (apply alloc_used; [done..|lia|by left]).
  assert (∀ j, 0 ≤ j < MAXFILE → blk (set_iaddr NDIRECT b x) (alloc_view v V b) j = blk x V j) as Hblk.
  { intros j Hj. unfold blk. rewrite Hind, Hi. case_bool_decide as Hd.
    - simpl. apply list_lookup_total_insert_ne. unfold NDIRECT in *. lia.
    - rewrite bool_decide_eq_false_2 by lia. rewrite (bool_decide_eq_true_2 (0 = 0)) by done.
      rewrite (lookup_total_correct _ _ _ (alloc_new V b)). apply entry_zeros. unfold MAXFILE in *. lia. }
  split; [|done]. pose proof Hx as [H1 H2 H3 H4 H5 H6 H7 H8]. split.
  - by eexists.
  - split; try done.
    + simpl. by rewrite length_insert.
    + intros j Hj. rewrite Hblk by done. intros Hnz. destruct (H4 j Hj Hnz). split; [done|]. apply alloc_mono; [lia|done].
    + rewrite Hind. intros _. done.
    + intros i j Hi' Hj. rewrite !Hblk by done. by apply H6.
    + intros j Hj. rewrite Hblk, Hind by done. intros Hnz Eb. apply fresh_not_in_use. rewrite <- Eb. by apply H4.
    + intros j Hj Hlt. simpl in Hlt. rewrite Hblk by (unfold BSIZE, MAXFILE in *; lia). by apply H8.
  - by apply alloc_fs.
  - intros j Hj _. by apply Hblk.
  - done.
  - intros _. by rewrite Hblk.
  - right. split; [done|]. rewrite Hind. apply fresh_not_in_use.
  - done.
  - intros c _ Hu Hc _. apply alloc_lookup; [done|]. by eapply fresh_unused.
  - apply alloc_mono.
Qed.

(** An entry of the indirect block. *)
Definition entry_view (k : Z) : gmap Z (list Z) :=
  <[ind x := splice (V !!! ind x) (Z.to_nat (4 * (k - Z.of_nat NDIRECT))) (le_bytes 4 b)]> (alloc_view v V b).

Lemma entry_splice d j i a : length d = BSIZE → 0 ≤ j < NINDIRECT → 0 ≤ i < NINDIRECT → 0 ≤ a < 2^32 →
  entry (splice d (Z.to_nat (4 * j)) (le_bytes 4 a)) i = if decide (i = j) then a else entry d i.
Proof using.
  intros Hl Hj Hi Ha. unfold NINDIRECT, BSIZE in *. unfold entry. case_decide as E.
  - subst i. rewrite <- (length_le_bytes 4 a) at 2. rewrite slice_splice_same by (rewrite length_le_bytes; lia).
    rewrite le_val_bytes. by rewrite Z.mod_small by lia.
  - f_equal. apply slice_splice_other; rewrite length_le_bytes; lia.
Qed.

Lemma entry_grows k : Z.of_nat NDIRECT ≤ k < MAXFILE → ind x ≠ 0 → blk x V k = 0 →
  grows v k x V x (entry_view k) ∧ blk x (entry_view k) k = b.
Proof using Hv HV Hx Hb.
  intros Hk Hi Hz. pose proof (fresh_range V HV b Hb) as [Hr HB]. pose proof (so_bmap _ Hv) as Hbm. pose proof (so_size _ Hv) as Hsz.
  destruct (fo_ind _ _ _ Hx Hi) as [Hir Hiu]. destruct (vol_total V (ind x) (fs_vol _ _ HV)) as [_ [Hdl Hdf]]; [unfold FSSIZE in *; lia|].
  assert (0 ≤ b < 2^32) as Hb32 by (unfold FSSIZE in *; lia).
  assert (ind x ≠ b) as Hib by (by apply (fresh_unused V b Hb)).
  assert (fmap_of v (entry_view k) = fmap_of v (alloc_view v V b)) as Hfm by (unfold fmap_of, entry_view; rewrite lookup_total_insert_ne by lia; done).
  assert (∀ j, 0 ≤ j < MAXFILE → blk x (entry_view k) j = if decide (j = k) then b else blk x V j) as Hblk.
  { intros j Hj. unfold blk. case_bool_decide as Hd; [rewrite decide_False by lia; done|].
    rewrite (bool_decide_eq_false_2 (ind x = 0)) by done. unfold entry_view. rewrite lookup_total_insert_eq.
    unfold MAXFILE in *. rewrite entry_splice by (done || lia). by repeat case_decide; try lia. }
  assert (∀ c, 0 ≤ c → used v (entry_view k) c ↔ c = b ∨ used v V c) as Hused by (intros c Hc; unfold used; rewrite Hfm; by apply alloc_used).
  assert (0 ≤ k < MAXFILE) as Hk' by lia. split; [|by rewrite Hblk, decide_True].
  split.
  - exists (iaddrs x). by destruct x.
  - apply (file_ok_extend x V x (entry_view k) k b); [exact Hx|exact Hk'|done..| |apply fresh_not_in_use| |exact Hblk].
    + apply Hused; [lia|by left].
    + intros c Hc Hu. apply Hused; [done|by right].
  - pose proof (alloc_fs V HV b Hb) as [A1 A2 (d & A3 & A4)]. split.
    + apply vol_insert; [done|]. split; [rewrite length_splice; [done|]|apply splice_forall; [done|apply le_bytes_ok]].
      rewrite length_le_bytes, Hdl. unfold BSIZE, MAXFILE, NINDIRECT in *. lia.
    + intros c Hc. apply Hused; [lia|]. right. by apply HV.
    + exists d. split; [|done]. unfold entry_view. rewrite lookup_insert_ne by lia. done.
  - intros j Hj Hne. by rewrite Hblk, decide_False.
  - done.
  - intros _ _. rewrite Hblk, decide_True by done. split; [|apply fresh_not_in_use].
    unfold entry_view. rewrite lookup_insert_ne by done. apply alloc_new.
  - by left.
  - done.
  - intros c _ Hu Hc Hci. unfold entry_view. rewrite lookup_insert_ne by done. apply alloc_lookup; [done|]. by apply (fresh_unused V b Hb).
  - intros c Hc Hu. apply Hused; [done|by right].
Qed.
End fresh_ok.

(** ** Free blocks *)
Lemma nfree_first V : fs_ok v V → 0 < nfree v V → ∃ b, first_free (fmap_of v V) (sb_size v) b.
Proof using Hv.
  intros HV Hpos. destruct (scan_map v Hv V (fs_vol _ _ HV)) as [(b & _ & Hb)|[_ Hall]]; [by exists b|].
  exfalso. unfold nfree in Hpos. rewrite tally_zero in Hpos; [lia|]. intros c Hc%elem_of_seqZ. unfold used in Hall.
  by rewrite Hall by lia.
Qed.
Lemma nfree_alloc V b : fs_ok v V → first_free (fmap_of v V) (sb_size v) b → nfree v (alloc_view v V b) = nfree v V - 1.
Proof using Hv.
  intros HV Hb. pose proof (fresh_range V HV b Hb) as [Hr HB]. pose proof Hb as (Hb1 & Hb2 & _). unfold nfree.
  rewrite (alloc_fmap V HV b Hb). rewrite (tally_change (λ c, if bit (fmap_of v V) c then 0 else 1) _ _ b).
  - rewrite Hb2, (bit_set _ (fmap_ok V HV)), decide_True by (done || lia). lia.
  - apply NoDup_seqZ.
  - apply elem_of_seqZ. lia.
  - intros c Hc%elem_of_seqZ Hne. by rewrite (bit_set _ (fmap_ok V HV)), decide_False by (done || lia).
Qed.

Lemma grows_refl k x V : file_ok v x V → fs_ok v V → 0 ≤ k < MAXFILE → blk x V k ≠ 0 → grows v k x V x V.
Proof using. intros Hx HV Hk Hz. split; try done; [exists (iaddrs x); by destruct x|by left]. Qed.

(** The indirect block first, then the entry. *)
Lemma grows_trans k x V x1 V1 x2 V2 : 0 ≤ k < MAXFILE → grows v k x V x1 V1 → blk x1 V1 k = 0 → ind x = 0 → ind x1 ≠ 0 →
  ¬ used v V (ind x1) → grows v k x1 V1 x2 V2 → grows v k x V x2 V2.
Proof using Hv.
  intros Hk [A1 A2 A3 A4 A5 A6 A7 AI A8 A9] Hz Hi Hi1 Hfr [B1 B2 B3 B4 B5 B6 B7 BI B8 B9]. split; try done.
  - destruct A1 as [a ->], B1 as [a2 ->]. by exists a2.
  - intros j Hj Hne. by rewrite B4, A4.
  - intros Hnz. destruct Hnz. rewrite <- Hz. destruct (decide (blk x V k = 0)) as [E|E]; [by rewrite Hz|]. by rewrite A5.
  - intros E Hnz. destruct (B6 Hz Hnz) as [C1 C2]. split; [done|]. intros Hu. apply C2. apply A9; [|done].
    destruct (fo_data _ _ _ B2 k Hk Hnz) as [? _]. pose proof (so_bmap _ Hv). lia.
  - right. split; [done|]. destruct B7 as [->|[? _]]; done.
  - intros Hnz. destruct (AI Hnz) as [-> ->]. done.
  - intros b Hb0 Hu Hb Hbi. rewrite B8; [by apply A8|done|by apply A9|done|]. intros ->. done.
  - intros b Hb Hu. apply B9; [done|]. by apply A9.
Qed.

(** ** Running [bmap] *)
Section bmap.
Context (ip : nat) (x : inode) (V : gmap Z (list Z)) (F : gset Z) (HV : fs_ok v V) (Hx : file_ok v x V).

Lemma get_inode_ok s y (Q : inode → fstate → Prop) : icache s !! ip = Some y → Q y s → runs (get_inode ip) s Q.
Proof using. intros Hy HQ. exists y, s. split; [|done]. unfold get_inode. by rewrite Hy. Qed.
Lemma upd_inode_ok s y f (Q : unit → fstate → Prop) : icache s !! ip = Some y →
  Q tt (mkfs (fl s) (sb s) (<[ip := f y]> (icache s))) → runs (upd_inode ip f) s Q.
Proof using. intros Hy HQ. unfold upd_inode. eapply runs_bind, get_inode_ok; [done|]. by apply runs_modify. Qed.

Lemma addr_get k : 0 ≤ k < Z.of_nat (S NDIRECT) → getb (iaddrs x) k = Ok (iaddrs x !!! Z.to_nat k).
Proof using Hx.
  intros Hk. apply getb_ok; [lia|]. apply list_lookup_lookup_total_lt. rewrite (fo_len _ _ _ Hx). lia.
Qed.
Lemma entry_load d j : length d = BSIZE → 0 ≤ j < NINDIRECT → load 4 d (4 * j) = Ok (entry d j).
Proof using. intros Hd Hj. unfold entry. apply load_ok; unfold BSIZE, NINDIRECT in *; lia. Qed.

(** A block that is there already. *)
Lemma bmap_mapped s k : txn s V F ∅ → icache s !! ip = Some x → 0 ≤ k < MAXFILE → blk x V k ≠ 0 →
  runs (bmap true ip k) s (λ a s', a = blk x V k ∧ txn s' V F ∅ ∧ stable s s').
Proof using Hv HV Hx.
  intros Htx Hic Hk Hz. pose proof (so_size _ Hv) as Hsz. pose proof (so_bmap _ Hv) as Hbm. unfold bmap.
  eapply runs_bind, get_inode_ok; [done|]. unfold blk in *. case_bool_decide as Hd.
  - eapply runs_bind, runs_lift; [apply addr_get; lia|]. rewrite bool_decide_eq_false_2 by done. by apply runs_ret.
  - case_bool_decide as Hi; [done|]. destruct (fo_ind _ _ _ Hx Hi) as [Hr _].
    destruct (vol_total V (ind x) (fs_vol _ _ HV)) as [Hib [Hil _]]; [unfold FSSIZE in *; lia|].
    cbv zeta. rewrite bool_decide_eq_true_2 by (unfold MAXFILE in *; lia).
    eapply runs_bind, runs_lift; [apply addr_get; lia|]. rewrite Nat2Z.id. fold (ind x). rewrite bool_decide_eq_false_2 by done.
    eapply runs_bind, runs_ret. rewrite (fo_dev _ _ _ Hx).
    eapply open_block; [exact Htx|exact Hib|set_solver|by rewrite size_empty; lia|]. intros i s1 T1 H1 F1.
    eapply runs_bind, runs_lift; [apply entry_load; [done|unfold MAXFILE in *; lia]|]. rewrite bool_decide_eq_false_2 by done.
    eapply close_block; [exact T1|exact Hib|exact H1|]. intros s2 T2 F2. rewrite back_out in T2 by set_solver.
    apply runs_ret. split; [done|]. split; [done|]. eapply frame_stable; [exact Htx| |by eapply frame_trans]. set_solver.
Qed.

(** What is needed for an indirect block. *)
Definition spare (y : inode) : Z := if bool_decide (ind y = 0) then 1 else 0.

(** The blocks that a transaction may come to write besides [F] are data blocks. *)
Definition wider (F F' : gset Z) : Prop := F ⊆ F' ∧ ∀ b, b ∈ F' → b ∈ F ∨ bmapstart v < b.
Lemma wider_refl (G : gset Z) : wider G G.
Proof using. split; [done|]. by left. Qed.
Lemma wider_add (G : gset Z) b : bmapstart v < b → wider G ({[b]} ∪ G).
Proof using. clear. intros Hb. split; [set_solver|]. intros c [->%elem_of_singleton|Hc]%elem_of_union; [by right|by left]. Qed.
Lemma wider_trans (G1 G2 G3 : gset Z) : wider G1 G2 → wider G2 G3 → wider G1 G3.
Proof using. intros [A1 B1] [A2 B2]. split; [by etransitivity|]. intros b [Hb|Hb]%B2; [by apply B1|by right]. Qed.

(** The effect of [bmap] on block [k], which may have to be allocated. *)
Definition bmap_post (k : Z) (s : fstate) (a : Z) (s' : fstate) : Prop := ∃ x' V' F',
  a = blk x' V' k ∧ a ≠ 0 ∧ grows v k x V x' V' ∧ txn s' V' F' ∅ ∧ sb s' = v ∧ icache s' = <[ip := x']> (icache s) ∧
  wider F F' ∧ a ∈ F' ∧ (ind x' ≠ 0 → ind x' ∈ F') ∧
  Z.of_nat (size F') + spare x' ≤ Z.of_nat (size F) + 1 + spare x ∧
  nfree v V - 1 - spare x ≤ nfree v V' - spare x'.

Lemma bmap_direct s k : txn s V F ∅ → sb s = v → icache s !! ip = Some x → 0 ≤ k < Z.of_nat NDIRECT → blk x V k = 0 →
  bmapstart v ∈ F → (ind x ≠ 0 → ind x ∈ F) → (size F < 28)%nat → 0 < nfree v V →
  runs (bmap true ip k) s (bmap_post k s).
Proof using Hv HV Hx.
  intros Htx Hs Hic Hk Hz HbmF HiF HsF Hfr. destruct (nfree_first V HV Hfr) as [b Hb]. pose proof (size_add b F) as Hsz.
  pose proof (fresh_range V HV b Hb) as [Hr _]. pose proof (so_bmap _ Hv) as Hbm.
  destruct (direct_grows x V HV Hx b Hb k Hk Hz) as [Hg Hgb]. unfold bmap. eapply runs_bind, get_inode_ok; [done|].
  rewrite bool_decide_eq_true_2 by lia. eapply runs_bind, runs_lift; [apply addr_get; unfold NDIRECT in *; lia|].
  rewrite bool_decide_eq_true_2 by (unfold blk in Hz; by rewrite bool_decide_eq_true_2 in Hz by lia). rewrite (fo_dev _ _ _ Hx).
  eapply runs_then; [apply (balloc_ok v Hv s V F ∅ Htx Hs (fs_vol _ _ HV) HbmF)|].
  { set_solver. } { by rewrite size_empty; lia. } { exact Hb. } { set_solver. } { lia. }
  intros a s1 (-> & T1 & S1). eapply runs_bind, upd_inode_ok; [by rewrite (sta_icache _ _ S1)|]. apply runs_ret.
  set (x' := set_iaddr _ _ _) in *. assert (ind x' = ind x) as Hi.
  { unfold ind, x'. simpl. apply list_lookup_total_insert_ne. unfold NDIRECT in *. lia. }
  exists x', (alloc_view v V b), ({[b]} ∪ F). split; [done|]. split; [lia|]. split; [done|]. split; [by eapply txn_frame; [|exact T1]|].
  simpl. rewrite (sta_sb _ _ S1), (sta_icache _ _ S1). split; [done|]. split; [done|]. split; [apply wider_add; lia|]. split; [set_solver|].
  unfold spare. rewrite Hi. split; [set_solver|]. rewrite (nfree_alloc V b HV Hb). split; lia.
Qed.

(** The end of [bmap] for a block of the indirect block, which is there. *)
Definition bmap_tail (k : Z) : M fstate Z :=
  let bn := k - Z.of_nat NDIRECT in
  bp ← fbread true ROOTDEV (ind x);
  d ← fdata bp;
  a ← lift (load 4 d (4 * bn));
  if bool_decide (a = 0) then
    a ← balloc true ROOTDEV;
    d ← lift (store 4 d (4 * bn) a);
    fset_data bp d;;
    flog_write bp;;
    fbrelse bp;;
    mret a
  else
    fbrelse bp;;
    mret a.

Lemma bmap_tail_ok s k : txn s V F ∅ → sb s = v → icache s !! ip = Some x → Z.of_nat NDIRECT ≤ k < MAXFILE →
  ind x ≠ 0 → blk x V k = 0 → bmapstart v ∈ F → ind x ∈ F → (size F < 28)%nat → 0 < nfree v V →
  runs (bmap_tail k) s (bmap_post k s).
Proof using Hv HV Hx.
  intros Htx Hs Hic Hk Hi Hz HbmF HiF HsF Hfr. destruct (nfree_first V HV Hfr) as [b Hb]. pose proof (size_add b F) as Hsz.
  pose proof (fresh_range V HV b Hb) as [Hr _]. pose proof (so_bmap _ Hv) as Hbm. pose proof (so_size _ Hv) as Hsize.
  destruct (entry_grows x V HV Hx b Hb k Hk Hi Hz) as [Hg Hgb]. destruct (fo_ind _ _ _ Hx Hi) as [Hir Hiu].
  destruct (vol_total V (ind x) (fs_vol _ _ HV)) as [Hib [Hil _]]; [unfold FSSIZE in *; lia|].
  assert (ind x ≠ b) as Hib' by (by apply (fresh_unused V b Hb)).
  assert (0 ≤ k - Z.of_nat NDIRECT < NINDIRECT) as Hbn by (unfold MAXFILE in *; lia).
  unfold bmap_tail. cbv zeta. eapply open_block; [exact Htx|exact Hib|set_solver|by rewrite size_empty; lia|]. intros i s1 T1 H1 F1.
  eapply runs_bind, runs_lift; [by apply entry_load|]. rewrite bool_decide_eq_true_2.
  2:{ unfold blk in Hz. rewrite bool_decide_eq_false_2 in Hz by lia. by rewrite bool_decide_eq_false_2 in Hz. }
  eapply runs_then; [apply (balloc_ok v Hv s1 V F ({[ind x]} ∪ ∅) T1)|].
  { by rewrite (fr_sb _ _ _ F1). } { apply HV. } { done. } { set_solver by lia. } { apply size_one. } { exact Hb. } { set_solver. } { lia. }
  intros a s2 (-> & T2 & S2).
  assert (alloc_view v V b !! ind x = Some (V !!! ind x)) as Hib2 by (rewrite alloc_lookup by (done || lia); done).
  eapply runs_bind, runs_lift; [apply store_ok; unfold BSIZE, NINDIRECT in *; lia|].
  eapply save_block; [exact T2|exact Hib2|by apply (sta_held _ _ S2)|set_solver|]. intros s3 T3 F3.
  rewrite back_out in T3 by set_solver. apply runs_ret. fold (entry_view x V b k) in T3.
  assert (nfree v (entry_view x V b k) = nfree v (alloc_view v V b)) as Hnf.
  { unfold nfree, fmap_of, entry_view. by rewrite lookup_total_insert_ne by lia. }
  exists x, (entry_view x V b k), ({[b]} ∪ F). split; [done|]. split; [lia|]. split; [done|]. split; [done|].
  rewrite (fr_sb _ _ _ F3), (sta_sb _ _ S2), (fr_sb _ _ _ F1). split; [done|].
  rewrite (fr_icache _ _ _ F3), (sta_icache _ _ S2), (fr_icache _ _ _ F1). split; [by rewrite list_insert_id|].
  split; [apply wider_add; lia|]. split; [set_solver|]. split; [set_solver|]. rewrite Hnf, (nfree_alloc V b HV Hb). unfold spare.
  rewrite bool_decide_eq_false_2 by done. split; lia.
Qed.
End bmap.

(** [bmap] on a block that may have to be allocated. *)
Section bmap_ok.
Context (ip : nat) (s : fstate) (x : inode) (V : gmap Z (list Z)) (F : gset Z) (k : Z).
Context (HV : fs_ok v V) (Hx : file_ok v x V) (Htx : txn s V F ∅) (Hs : sb s = v) (Hic : icache s !! ip = Some x).
Context (HbmF : bmapstart v ∈ F) (HiF : ind x ≠ 0 → ind x ∈ F).

Lemma bmap_mapped_post : 0 ≤ k < MAXFILE → blk x V k ≠ 0 → (size F < 28)%nat → runs (bmap true ip k) s (bmap_post ip x V F k s).
Proof using Hv HV Hx Htx Hs Hic HbmF HiF.
  intros Hk Hz HsF. eapply runs_mono; [by apply (bmap_mapped ip x V F HV Hx)|]. intros a s' (-> & T & S). pose proof (size_add (blk x V k) F).
  exists x, V, ({[blk x V k]} ∪ F). split; [done|]. split; [done|]. split; [by apply grows_refl|].
  split; [eapply txn_grow; [exact T|set_solver|lia]|]. rewrite (sta_sb _ _ S), (sta_icache _ _ S). split; [done|].
  split; [by rewrite list_insert_id|]. split; [by apply wider_add, (fo_data _ _ _ Hx)|]. split; [set_solver|]. split; [set_solver|]. split; lia.
Qed.

(** A fresh indirect block, then a fresh block in it. *)
Lemma bmap_new_indirect : Z.of_nat NDIRECT ≤ k < MAXFILE → ind x = 0 → (size F + 2 ≤ 28)%nat → 2 ≤ nfree v V →
  runs (bmap true ip k) s (bmap_post ip x V F k s).
Proof using Hv HV Hx Htx Hs Hic HbmF HiF.
  intros Hk Hi HsF Hfr. destruct (nfree_first V HV ltac:(lia)) as [b Hb]. pose proof (size_add b F) as Hsz.
  pose proof (fresh_range V HV b Hb) as [Hr _]. pose proof (so_bmap _ Hv) as Hbm.
  assert (blk x V k = 0) as Hz by (unfold blk; rewrite bool_decide_eq_false_2, bool_decide_eq_true_2 by (done || lia); done).
  assert (0 ≤ k < MAXFILE) as Hk' by lia.
  destruct (indirect_grows x V HV Hx b Hb k Hk' Hi Hz) as (Hg & Hi' & Hblk). set (x1 := set_iaddr NDIRECT b x) in *.
  assert (idev x1 = ROOTDEV) as Hdev by (apply (fo_dev _ _ _ Hx)).
  unfold bmap. eapply runs_bind, get_inode_ok; [done|]. rewrite bool_decide_eq_false_2 by lia. cbv zeta.
  rewrite bool_decide_eq_true_2 by (unfold MAXFILE in *; lia). eapply runs_bind, runs_lift; [eapply addr_get; [exact Hx|lia]|].
  rewrite Nat2Z.id. fold (ind x). rewrite bool_decide_eq_true_2 by done. rewrite (fo_dev _ _ _ Hx).
  eapply runs_bind, runs_then; [apply (balloc_ok v Hv s V F ∅ Htx Hs (fs_vol _ _ HV) HbmF)|].
  { set_solver. } { by rewrite size_empty; lia. } { exact Hb. } { set_solver. } { lia. }
  intros a s1 (-> & T1 & S1). eapply runs_bind, upd_inode_ok; [by rewrite (sta_icache _ _ S1)|]. apply runs_ret.
  set (s2 := mkfs _ _ _). assert (txn s2 (alloc_view v V b) ({[b]} ∪ F) ∅) as T2 by (by eapply txn_frame; [|exact T1]).
  assert (icache s2 = <[ip := x1]> (icache s)) as Hic2 by (simpl; by rewrite (sta_icache _ _ S1)).
  rewrite <- Hi'. eapply runs_mono.
  { apply (bmap_tail_ok ip x1 (alloc_view v V b) ({[b]} ∪ F) (gr_fs _ _ _ _ _ _ Hg) (gr_file _ _ _ _ _ _ Hg) s2 k T2); try done.
    - simpl. by rewrite (sta_sb _ _ S1).
    - rewrite Hic2. apply list_lookup_insert_eq. by eapply lookup_lt_Some.
    - rewrite Hi'. lia.
    - by rewrite Hblk.
    - set_solver.
    - rewrite Hi'. set_solver.
    - lia.
    - rewrite (nfree_alloc V b HV Hb). lia. }
  intros a s3 (x' & V' & F' & Ha & Hnz & Hg' & T' & Hs' & Hc' & HF & HaF & HiF' & Hsz' & Hnf'). exists x', V', F'.
  split; [done|]. split; [done|]. split.
  { eapply grows_trans; [exact Hk'|exact Hg|by rewrite Hblk|done|rewrite Hi'; lia| |exact Hg']. rewrite Hi'. by apply (fresh_not_in_use V b Hb). }
  split; [done|]. split; [done|]. split; [by rewrite Hc', Hic2, list_insert_insert_eq|]. split; [eapply wider_trans; [apply (wider_add F b), Hr|exact HF]|]. split; [done|]. split; [done|].
  rewrite (nfree_alloc V b HV Hb) in Hnf'. unfold spare in *. rewrite Hi' in *. rewrite (bool_decide_eq_true_2 (ind x = 0)) by done.
  rewrite (bool_decide_eq_false_2 (b = 0)) in * by lia. split; lia.
Qed.

Lemma bmap_ok : 0 ≤ k < MAXFILE → Z.of_nat (size F) + 1 + spare x ≤ 28 → 1 + spare x ≤ nfree v V →
  runs (bmap true ip k) s (bmap_post ip x V F k s).
Proof using Hv HV Hx Htx Hs Hic HbmF HiF.
  intros Hk HsF Hfr. assert (0 ≤ spare x) as Hsp by (unfold spare; case_bool_decide; lia).
  destruct (decide (blk x V k = 0)) as [Hz|Hz]; [|apply bmap_mapped_post; [done|done|lia]].
  destruct (decide (k < Z.of_nat NDIRECT)) as [Hd|Hd]; [apply bmap_direct; (done || lia)|].
  destruct (decide (ind x = 0)) as [Hi|Hi].
  { unfold spare in *. rewrite bool_decide_eq_true_2 in * by done. apply bmap_new_indirect; (done || lia). }
  unfold bmap. eapply runs_bind, get_inode_ok; [done|]. rewrite bool_decide_eq_false_2 by lia. cbv zeta.
  rewrite bool_decide_eq_true_2 by (unfold MAXFILE in *; lia). eapply runs_bind, runs_lift; [eapply addr_get; [exact Hx|lia]|].
  rewrite Nat2Z.id. fold (ind x). rewrite bool_decide_eq_false_2 by done. eapply runs_bind, runs_ret. rewrite (fo_dev _ _ _ Hx).
  apply bmap_tail_ok; (done || lia || by apply HiF).
Qed.
End bmap_ok.
End alloc.
