(* ===== verification/FsIO.v ===== *)
(** * Reading and writing files

    The content of a file as a list of bytes; [readi] reads a part of it and
    [writei] replaces a part of it. *)
From stdpp Require Import base numbers list gmap sets strings.
From S2P Require Import Prelude Bytes XString Bio Log LogFacts Fs FsFacts FsBlocks FsInode.
#[local] Open Scope Z_scope.

Definition byte_at (x : inode) (V : gmap Z (list Z)) (o : Z) : Z :=
  (V !!! blk x V (o / Z.of_nat BSIZE)) !!! Z.to_nat (o `mod` Z.of_nat BSIZE).
Definition content (x : inode) (V : gmap Z (list Z)) : list Z := byte_at x V <$> seqZ 0 (isize x).

(** How many blocks the bytes from [off] to [off + n] lie in. *)
Definition nblks (off n : Z) : Z :=
  if bool_decide (n ≤ 0) then 0 else (off + n - 1) / Z.of_nat BSIZE - off / Z.of_nat BSIZE + 1.

Lemma nblks_step off n m : 0 ≤ off → 0 < n → m = Z.min n (Z.of_nat BSIZE - off `mod` Z.of_nat BSIZE) →
  nblks (off + m) (n - m) = nblks off n - 1 ∧ 0 < m ≤ n ∧ off `mod` Z.of_nat BSIZE + m ≤ Z.of_nat BSIZE.
Proof.
  intros Ho Hn ->. unfold nblks, BSIZE. change (Z.of_nat 512) with 512. pose proof (Z.mod_pos_bound off 512 ltac:(lia)).
  destruct (Z.le_ge_cases n (512 - off `mod` 512)) as [Hle|Hle].
  - rewrite Z.min_l by done. rewrite (bool_decide_eq_true_2 (n - n ≤ 0)), (bool_decide_eq_false_2 (n ≤ 0)) by lia. split; [dlia|lia].
  - rewrite Z.min_r by done. rewrite (bool_decide_eq_false_2 (n ≤ 0)) by lia. split; [|lia]. case_bool_decide; dlia.
Qed.
Lemma nblks_nonneg off n : 0 ≤ off → 0 ≤ nblks off n.
Proof. intros Ho. unfold nblks, BSIZE. case_bool_decide; [done|]. change (Z.of_nat 512) with 512. dlia. Qed.
Lemma nblks_fuel off n : 0 ≤ off → 0 ≤ n → nblks off n < n / Z.of_nat BSIZE + 3.
Proof. intros Ho Hn. unfold nblks, BSIZE. change (Z.of_nat 512) with 512. case_bool_decide; dlia. Qed.

(** The part of a file that lies in one block. *)
Lemma block_bytes x V off m : 0 ≤ off → 0 ≤ m → off `mod` Z.of_nat BSIZE + m ≤ Z.of_nat BSIZE →
  length (V !!! blk x V (off / Z.of_nat BSIZE)) = BSIZE →
  byte_at x V <$> seqZ off m = slice (V !!! blk x V (off / Z.of_nat BSIZE)) (Z.to_nat (off `mod` Z.of_nat BSIZE)) (Z.to_nat m).
Proof.
  intros Ho Hm Hfit Hl. pose proof (Z.mod_pos_bound off (Z.of_nat BSIZE) ltac:(unfold BSIZE; lia)) as Hmod. apply list_eq. intros i.
  rewrite list_lookup_fmap. destruct (decide (Z.of_nat i < m)) as [Hi|Hi].
  - rewrite (lookup_seqZ_lt off m i) by lia. rewrite lookup_slice by lia. simpl. unfold byte_at.
    assert ((off + Z.of_nat i) / Z.of_nat BSIZE = off / Z.of_nat BSIZE) as -> by (unfold BSIZE in *; change (Z.of_nat 512) with 512 in *; dlia).
    assert ((off + Z.of_nat i) `mod` Z.of_nat BSIZE = off `mod` Z.of_nat BSIZE + Z.of_nat i) as -> by (unfold BSIZE in *; change (Z.of_nat 512) with 512 in *; dlia).
    symmetry. replace (Z.to_nat (off `mod` Z.of_nat BSIZE) + i)%nat with (Z.to_nat (off `mod` Z.of_nat BSIZE + Z.of_nat i)) by lia.
    apply list_lookup_lookup_total_lt. rewrite Hl. unfold BSIZE in *. lia.
  - rewrite lookup_seqZ_ge by lia. simpl. symmetry. apply lookup_ge_None_2. unfold slice. rewrite length_take. lia.
Qed.

Section io.
Context (v : superblock) (Hv : sb_ok v).

(** ** Reading *)
Section read.
Context (ip : nat) (x : inode) (V : gmap Z (list Z)) (F : gset Z) (HV : fs_ok v V) (Hx : file_ok v x V).

Lemma file_block k : 0 ≤ k < MAXFILE → blk x V k ≠ 0 →
  0 ≤ blk x V k < FSSIZE ∧ V !! blk x V k = Some (V !!! blk x V k) ∧ block_ok (V !!! blk x V k).
Proof using Hv HV Hx.
  intros Hk Hz. destruct (fo_data _ _ _ Hx k Hk Hz) as [Hr _]. pose proof (so_size _ Hv). pose proof (so_bmap _ Hv).
  assert (0 ≤ blk x V k < FSSIZE) by (unfold FSSIZE in *; lia). split; [done|]. apply vol_total; [apply HV|done].
Qed.

Lemma readi_loop_ok n : n ≤ MAXFILE * Z.of_nat BSIZE → ∀ fuel s off tot acc, txn s V F ∅ → icache s !! ip = Some x →
  0 ≤ off → 0 ≤ tot ≤ n → off + (n - tot) ≤ isize x → (Z.to_nat (nblks off (n - tot)) < fuel)%nat →
  runs (readi_loop true fuel ip off tot n acc) s
    (λ bs s', bs = acc ++ (byte_at x V <$> seqZ off (n - tot)) ∧ txn s' V F ∅ ∧ stable s s').
Proof using Hv HV Hx.
  intros Hn fuel. induction fuel as [|fuel IH]; intros s off tot acc Htx Hic Ho Ht Hsz Hf; [lia|]. cbn [readi_loop].
  case_bool_decide as Hlt.
  - pose proof (fo_size _ _ _ Hx) as Hfs. set (k := off / Z.of_nat BSIZE).
    set (m := Z.min (n - tot) (Z.of_nat BSIZE - off `mod` Z.of_nat BSIZE)).
    destruct (nblks_step off (n - tot) m Ho ltac:(lia) eq_refl) as (Hnb & Hm & Hfit). pose proof (nblks_nonneg (off + m) (n - tot - m) ltac:(lia)).
    assert (0 ≤ k ∧ k * Z.of_nat BSIZE ≤ off) as [Hk0 Hk1] by (unfold k, BSIZE in *; change (Z.of_nat 512) with 512 in *; dlia).
    assert (0 ≤ k < MAXFILE) as Hk by (unfold BSIZE, MAXFILE, NDIRECT, NINDIRECT in *; lia).
    assert (blk x V k ≠ 0) as Hz by (apply (fo_alloc _ _ _ Hx); [done|lia]).
    destruct (file_block k Hk Hz) as (Hr & Hd & Hlen & _).
    eapply runs_bind, get_inode_ok; [done|]. eapply runs_then; [by apply (bmap_mapped v Hv ip x V F HV Hx)|]. intros a s1 (-> & T1 & S1).
    rewrite (fo_dev _ _ _ Hx). eapply open_block; [exact T1|exact Hd|set_solver|by rewrite size_empty; lia|]. intros i s2 T2 H2 F2.
    cbv zeta. fold m. eapply runs_bind, runs_lift.
    { apply load_bytes_ok; [apply Z.mod_pos_bound; unfold BSIZE; lia|]. rewrite Hlen. lia. }
    eapply close_block; [exact T2|exact Hd|exact H2|]. intros s3 T3 F3. rewrite back_out in T3 by set_solver.
    assert (stable s s3) as S3.
    { etransitivity; [exact S1|]. eapply (frame_stable s1 s3 V F ∅ (blk x V k)); [exact T1|set_solver|by eapply frame_trans]. }
    rewrite u32_small by (unfold BSIZE, MAXFILE, NDIRECT, NINDIRECT in *; lia). eapply runs_mono.
    { apply IH; [exact T3|by rewrite (sta_icache _ _ S3)|lia|lia|lia|]. replace (n - (tot + m)) with (n - tot - m) by lia. lia. }
    intros bs s4 (-> & T4 & S4). split; [|split; [done|by etransitivity]]. rewrite <- app_assoc. f_equal.
    replace (n - tot) with (m + (n - (tot + m))) at 1 by lia. rewrite seqZ_app by lia. rewrite fmap_app. f_equal.
    symmetry. apply block_bytes; [done|lia|done|exact Hlen].
  - apply runs_ret. replace (n - tot) with 0 by lia. simpl. rewrite app_nil_r. by split_and!.
Qed.

Lemma content_slice off n : 0 ≤ off → 0 ≤ n → off + n ≤ isize x → byte_at x V <$> seqZ off n = slice (content x V) (Z.to_nat off) (Z.to_nat n).
Proof using.
  intros Ho Hn Hle. apply list_eq. intros i. rewrite list_lookup_fmap. destruct (decide (Z.of_nat i < n)) as [Hi|Hi].
  - rewrite lookup_slice by lia. unfold content. rewrite list_lookup_fmap, !lookup_seqZ_lt by lia. simpl. do 2 f_equal. lia.
  - rewrite lookup_seqZ_ge by lia. simpl. symmetry. apply lookup_ge_None_2. unfold slice. rewrite length_take. lia.
Qed.

Lemma readi_ok devread s off n : txn s V F ∅ → icache s !! ip = Some x → itype x ≠ T_DEV →
  0 ≤ off ≤ isize x → 0 ≤ n → off + n < 2^32 →
  let r := Z.min n (isize x - off) in
  runs (readi true devread ip off n) s (λ p s', p = (r, slice (content x V) (Z.to_nat off) (Z.to_nat r)) ∧ txn s' V F ∅ ∧ stable s s').
Proof using Hv HV Hx.
  intros Htx Hic Hty Ho Hn Hov r. pose proof (fo_size _ _ _ Hx) as Hfs. unfold readi. eapply runs_bind, get_inode_ok; [done|].
  rewrite bool_decide_eq_false_2 by done. rewrite u32_small by lia. rewrite bool_decide_eq_false_2 by lia. cbv zeta.
  replace (if bool_decide (isize x < off + n) then isize x - off else n) with r by (unfold r; case_bool_decide; lia).
  eapply runs_then.
  - apply readi_loop_ok with (fuel := io_fuel r); [unfold r; lia|done|done|lia|lia|lia|].
    pose proof (nblks_fuel off r ltac:(lia) ltac:(lia)). pose proof (nblks_nonneg off r ltac:(lia)). rewrite Z.sub_0_r. unfold io_fuel. lia.
  - intros bs s' (-> & T & S). apply runs_ret. split; [|done]. rewrite Z.sub_0_r, app_nil_l. rewrite content_slice by lia. done.
Qed.
End read.

(** ** Writing

    [x'], [V'] is [x], [V] with the bytes [bs] written at [off]; the size is not
    changed yet. *)
Record wrote (off : Z) (bs : list Z) (x : inode) (V : gmap Z (list Z)) (x' : inode) (V' : gmap Z (list Z)) : Prop := {
  wr_same : ∃ a, x' = mkinode (idev x) (inum x) (iref x) (ilocked x) (ivalid x) (itype x) (imajor x) (iminor x) (inlink x) (isize x) a;
  wr_file : file_ok v x' V';
  wr_fs : fs_ok v V';
  wr_mapped : ∀ k, 0 ≤ k < MAXFILE → blk x V k ≠ 0 → blk x' V' k = blk x V k;
  wr_range : ∀ o, off ≤ o < off + Z.of_nat (length bs) → blk x' V' (o / Z.of_nat BSIZE) ≠ 0;
  wr_fresh : ∀ k, 0 ≤ k < MAXFILE → blk x' V' k ≠ 0 → blk x V k ≠ 0 ∨ ¬ used v V (blk x' V' k);
  wr_ind : ind x' = ind x ∨ (ind x = 0 ∧ ¬ used v V (ind x'));
  wr_in : ∀ i c, bs !! i = Some c → byte_at x' V' (off + Z.of_nat i) = c;
  wr_out : ∀ o, 0 ≤ o < MAXFILE * Z.of_nat BSIZE → blk x V (o / Z.of_nat BSIZE) ≠ 0 →
    ¬ (off ≤ o < off + Z.of_nat (length bs)) → byte_at x' V' o = byte_at x V o;
  wr_frame : ∀ b, 0 ≤ b → used v V b → b ≠ bmapstart v → b ≠ ind x → (∀ k, 0 ≤ k < MAXFILE → blk x V k ≠ b) → V' !! b = V !! b;
  wr_used : ∀ b, 0 ≤ b → used v V b → used v V' b;
  wr_inplace : (∀ o, off ≤ o < off + Z.of_nat (length bs) → blk x V (o / Z.of_nat BSIZE) ≠ 0) → x' = x }.

Lemma byte_index o : 0 ≤ o < MAXFILE * Z.of_nat BSIZE → 0 ≤ o / Z.of_nat BSIZE < MAXFILE.
Proof using. unfold MAXFILE, NINDIRECT, NDIRECT, BSIZE. change (Z.of_nat 512) with 512. dlia. Qed.

Lemma wrote_nil off x V : file_ok v x V → fs_ok v V → wrote off [] x V x V.
Proof using.
  intros Hx HV. split; try done.
  - exists (iaddrs x). by destruct x.
  - intros o Ho. simpl in Ho. lia.
  - intros k _ Hz. by left.
  - by left.
Qed.

Lemma wrote_app off bs bs' x V x1 V1 x2 V2 : 0 ≤ off → off + Z.of_nat (length bs) + Z.of_nat (length bs') ≤ MAXFILE * Z.of_nat BSIZE →
  wrote off bs x V x1 V1 → wrote (off + Z.of_nat (length bs)) bs' x1 V1 x2 V2 → wrote off (bs ++ bs') x V x2 V2.
Proof using Hv.
  intros Ho Hmax [A1 A2 A3 A4 A5 A6 A7 A8 A9 A10 A11 A12] [B1 B2 B3 B4 B5 B6 B7 B8 B9 B10 B11 B12].
  pose proof (so_bmap _ Hv) as Hbm. split; try done.
  - destruct A1 as [a ->], B1 as [a2 ->]. by exists a2.
  - intros k Hk Hz. rewrite B4; [by apply A4|done|by rewrite A4].
  - rewrite length_app. intros o Hr. destruct (decide (o < off + Z.of_nat (length bs))) as [Hlt|Hge]; [|apply B5; lia].
    rewrite B4; [apply A5; lia|apply byte_index; lia|apply A5; lia].
  - intros k Hk Hz. destruct (decide (blk x1 V1 k = 0)) as [E|E].
    + right. intros Hu. destruct (B6 k Hk Hz) as [?|Hn]; [done|]. apply Hn, A11; [|done].
      pose proof (fo_data _ _ _ B2 k Hk Hz). lia.
    + rewrite B4 by done. by apply A6.
  - destruct B7 as [->|[E Hn]]; [exact A7|]. right. destruct A7 as [E'|[E' _]]; (split; [congruence|]); intros Hu; apply Hn; apply A11; try done.
    all: destruct (decide (ind x2 = 0)) as [->|Hz]; [lia|]; pose proof (fo_ind _ _ _ B2 Hz); lia.
  - intros i c Hi. destruct (decide (i < length bs)%nat) as [Hlt|Hge].
    + rewrite lookup_app_l in Hi by done. rewrite B9; [by apply A8|lia|apply A5; lia|lia].
    + rewrite lookup_app_r in Hi by lia. rewrite <- (B8 _ _ Hi). f_equal. lia.
  - rewrite length_app. intros o Hr Hz Hout. rewrite B9; [apply A9; (done || lia)|done|rewrite A4; [done|by apply byte_index|done]|lia].
  - intros b Hb Hu Hbb Hbi Hk. rewrite B10; [by apply A10|done|by apply A11|done| |].
    + destruct A7 as [->|[_ Hn]]; [done|]. by intros ->.
    + intros k Hk' E. destruct (decide (blk x V k = 0)) as [E0|E0]; [|apply (Hk k Hk'); by rewrite <- A4].
      destruct (decide (b = 0)) as [->|Hb0]; [by apply (Hk k Hk')|]. destruct (A6 k Hk') as [?|Hn]; [congruence|done|]. by rewrite E in Hn.
  - intros b Hb Hu. apply B11; [done|]. by apply A11.
  - rewrite length_app. intros Hall. assert (x1 = x) as -> by (apply A12; intros o Hr; apply Hall; lia).
    apply B12. intros o Hr. rewrite A4; [apply Hall; lia|apply byte_index; lia|apply Hall; lia].
Qed.

(** Storing into one data block of a file. *)
Section store.
Context (x : inode) (V : gmap Z (list Z)) (HV : fs_ok v V) (Hx : file_ok v x V).
Context (k : Z) (Hk : 0 ≤ k < MAXFILE) (Hz : blk x V k ≠ 0) (d : list Z) (Hd : block_ok d).
#[local] Abbreviation V' := (<[blk x V k := d]> V).

Lemma data_blk j : blk x V' j = blk x V j.
Proof using Hx Hk Hz.
  unfold blk at 1 3. case_bool_decide; [done|]. case_bool_decide as Hi; [done|].
  rewrite lookup_total_insert_ne; [done|]. by apply (fo_apart _ _ _ Hx).
Qed.
Lemma data_used b : used v V' b ↔ used v V b.
Proof using Hx Hk Hz.
  unfold used, fmap_of. destruct (fo_data _ _ _ Hx k Hk Hz) as [Hr _]. by rewrite lookup_total_insert_ne by lia.
Qed.
Lemma data_fs : fs_ok v V'.
Proof using Hv HV Hx Hk Hz Hd.
  destruct (fo_data _ _ _ Hx k Hk Hz) as [Hr _]. pose proof (so_bmap _ Hv). destruct HV as [H1 H2 (e & H3 & H4)]. split.
  - by apply vol_insert.
  - intros c Hc. apply data_used. by apply H2.
  - exists e. split; [|done]. by rewrite lookup_insert_ne by lia.
Qed.
Lemma data_of_file : file_ok v x V'.
Proof using Hx Hk Hz.
  destruct Hx as [H1 H2 H3 H4 H5 H6 H7 H8]. split; try done.
  - intros j Hj. rewrite data_blk, data_used. by apply H4.
  - intros Hi. rewrite data_used. by apply H5.
  - intros i j Hi Hj. rewrite !data_blk. by apply H6.
  - intros j Hj. rewrite data_blk. by apply H7.
  - intros j Hj. rewrite data_blk. by apply H8.
Qed.
Lemma data_nfree : nfree v V' = nfree v V.
Proof using Hx Hk Hz.
  unfold nfree, fmap_of. destruct (fo_data _ _ _ Hx k Hk Hz) as [Hr _]. by rewrite lookup_total_insert_ne by lia.
Qed.
End store.

Lemma write_step x V x1 V1 off bs : file_ok v x V → 0 ≤ off < MAXFILE * Z.of_nat BSIZE → (0 < length bs)%nat → Forall byte_ok bs →
  off `mod` Z.of_nat BSIZE + Z.of_nat (length bs) ≤ Z.of_nat BSIZE →
  let k := off / Z.of_nat BSIZE in
  grows v k x V x1 V1 → blk x1 V1 k ≠ 0 →
  wrote off bs x V x1 (<[blk x1 V1 k := splice (V1 !!! blk x1 V1 k) (Z.to_nat (off `mod` Z.of_nat BSIZE)) bs]> V1).
Proof using Hv.
  intros Hx Hoff Hlen Hbs Hfit k Hg Hz. pose proof (byte_index off Hoff) as Hk. fold k in Hk.
  destruct Hg as [G1 G2 G3 G4 G5 G6 G7 GI G8 G9]. set (a := blk x1 V1 k) in *. set (d := splice _ _ _).
  destruct (file_block x1 V1 G3 G2 k Hk Hz) as (Har & Had & Hal & Haf). fold a in Har, Had, Hal, Haf.
  pose proof (Z.mod_pos_bound off (Z.of_nat BSIZE) ltac:(unfold BSIZE; lia)) as Hmod.
  assert (block_ok d) as Hd.
  { split; [unfold d; rewrite length_splice; [done|lia]|by apply splice_forall]. }
  assert (∀ j, blk x1 (<[a := d]> V1) j = blk x1 V1 j) as Hblk by (intros j; by apply data_blk).
  assert (∀ o, o / Z.of_nat BSIZE ≠ k → 0 ≤ o / Z.of_nat BSIZE < MAXFILE → blk x1 V1 (o / Z.of_nat BSIZE) ≠ 0 →
    byte_at x1 (<[a := d]> V1) o = byte_at x1 V1 o) as Hother.
  { intros o Ho Hr Hnz. unfold byte_at. rewrite Hblk. f_equal. apply lookup_total_insert_ne. intros E. apply Ho. symmetry.
    by apply (fo_inj _ _ _ G2). }
  assert (∀ o, o / Z.of_nat BSIZE = k → byte_at x1 (<[a := d]> V1) o = d !!! Z.to_nat (o `mod` Z.of_nat BSIZE)) as Hsame.
  { intros o Ho. unfold byte_at. rewrite Hblk, Ho. by rewrite lookup_total_insert_eq. }
  assert (∀ o, off ≤ o < off + Z.of_nat (length bs) → o / Z.of_nat BSIZE = k ∧ o `mod` Z.of_nat BSIZE = off `mod` Z.of_nat BSIZE + (o - off)) as Hin.
  { intros o Ho. unfold k, BSIZE in *. change (Z.of_nat 512) with 512 in *. split; dlia. }
  split.
  - done.
  - by apply data_of_file.
  - by apply data_fs.
  - intros j Hj Hnz. rewrite Hblk. destruct (decide (j = k)) as [->|]; [by apply G5|by apply G4].
  - intros o Ho. rewrite Hblk. by rewrite (proj1 (Hin o Ho)).
  - intros j Hj. rewrite Hblk. intros Hnz. destruct (decide (blk x V j = 0)) as [E|]; [right|by left].
    destruct (decide (j = k)) as [->|Hne]; [by apply G6|]. by rewrite G4 in Hnz.
  - done.
  - intros i c Hi. pose proof (lookup_lt_Some _ _ _ Hi) as Hil. destruct (Hin (off + Z.of_nat i) ltac:(lia)) as [E1 E2].
    rewrite Hsame, E2 by done. apply list_lookup_total_correct. unfold d. rewrite lookup_splice_new by lia. rewrite <- Hi. f_equal. lia.
  - intros o Ho Hnz Hout. pose proof (byte_index o Ho) as Hok. destruct (decide (o / Z.of_nat BSIZE = k)) as [E|E].
    + rewrite Hsame by done. rewrite E in Hnz. destruct (GI Hnz) as [-> ->]. unfold byte_at. rewrite E. fold a.
      unfold d. rewrite !list_lookup_total_alt, lookup_splice_old; [done|lia|].
      unfold k, BSIZE in *. change (Z.of_nat 512) with 512 in *. dlia.
    + rewrite Hother; [|done|done|by rewrite G4]. unfold byte_at. rewrite G4 by done. f_equal.
      destruct (fo_data _ _ _ Hx _ Hok Hnz) as [Hr Hu]. pose proof (so_bmap _ Hv).
      rewrite !lookup_total_alt, G8; [done|lia|done|lia|by apply (fo_apart _ _ _ Hx)].
  - intros b Hb Hu Hbm Hbi Hnk. rewrite lookup_insert_ne; [by apply G8|]. intros ->.
    destruct (decide (blk x V k = 0)) as [E|E]; [by apply G6 in E as [_ E]|]. apply (Hnk k Hk). symmetry. by apply G5.
  - intros b Hb Hu. apply data_used; [done..|]. by apply G9.
  - intros Hall. apply GI. rewrite <- (proj1 (Hin off ltac:(lia))). apply Hall. lia.
Qed.

Lemma spare_nonneg y : 0 ≤ spare y.
Proof using. unfold spare. case_bool_decide; lia. Qed.

Lemma slice_split (l : list Z) (t m r : nat) : (t + (m + r) ≤ length l)%nat → slice l t (m + r) = slice l t m ++ slice l (t + m) r.
Proof using.
  intros Hl. apply list_eq. intros i. destruct (decide (i < m)%nat) as [Hi|Hi].
  - rewrite lookup_app_l by (rewrite length_slice; lia). by rewrite !lookup_slice by lia.
  - rewrite lookup_app_r by (rewrite length_slice; lia). rewrite length_slice by lia. destruct (decide (i < m + r)%nat).
    + rewrite !lookup_slice by lia. f_equal. lia.
    + rewrite !lookup_ge_None_2; [done|rewrite length_slice; lia..].
Qed.

Section write.
Context (ip : nat) (src : list Z) (n : Z) (Hn : 0 ≤ n ≤ Z.of_nat (length src)) (Hsrc : Forall byte_ok src).

Definition loop_post (off tot : Z) (s : fstate) (x : inode) (V : gmap Z (list Z)) (F : gset Z) (off' : Z) (s' : fstate) : Prop :=
  off' = off + (n - tot) ∧ ∃ x' V' F', wrote off (slice src (Z.to_nat tot) (Z.to_nat (n - tot))) x V x' V' ∧
    txn s' V' F' ∅ ∧ sb s' = v ∧ icache s' = <[ip := x']> (icache s) ∧ wider v F F' ∧
    Z.of_nat (size F') + spare x' ≤ Z.of_nat (size F) + nblks off (n - tot) + spare x ∧
    nfree v V - nblks off (n - tot) - spare x ≤ nfree v V' - spare x'.

Lemma writei_loop_ok fuel : ∀ s x V F off tot, fs_ok v V → file_ok v x V → txn s V F ∅ → sb s = v → icache s !! ip = Some x →
  bmapstart v ∈ F → (ind x ≠ 0 → ind x ∈ F) → 0 ≤ off → 0 ≤ tot ≤ n → off + (n - tot) ≤ MAXFILE * Z.of_nat BSIZE →
  Z.of_nat (size F) + nblks off (n - tot) + spare x ≤ 28 → nblks off (n - tot) + spare x ≤ nfree v V →
  (Z.to_nat (nblks off (n - tot)) < fuel)%nat →
  runs (writei_loop true fuel ip src off tot n) s (loop_post off tot s x V F).
Proof using Hv Hn Hsrc.
  induction fuel as [|fuel IH]; intros s x V F off tot HV Hx Htx Hs Hic HbmF HiF Ho Ht Hmax HsF Hfr Hf; [lia|]. cbn [writei_loop].
  case_bool_decide as Hlt.
  - set (k := off / Z.of_nat BSIZE). set (m := Z.min (n - tot) (Z.of_nat BSIZE - off `mod` Z.of_nat BSIZE)).
    destruct (nblks_step off (n - tot) m Ho ltac:(lia) eq_refl) as (Hnb & Hm & Hfit).
    pose proof (nblks_nonneg (off + m) (n - tot - m) ltac:(lia)) as Hnn. pose proof (byte_index off ltac:(lia)) as Hk. fold k in Hk.
    pose proof (Z.mod_pos_bound off (Z.of_nat BSIZE) ltac:(unfold BSIZE; lia)) as Hmod.
    eapply runs_bind, get_inode_ok; [done|]. eapply runs_then.
    { apply (bmap_ok v Hv ip s x V F k HV Hx Htx Hs Hic HbmF HiF Hk); lia. }
    intros a s1 (x1 & V1 & F1 & -> & Hz & Hg & T1 & Hs1 & Hc1 & HW1 & HaF & HiF1 & Hsz1 & Hnf1). pose proof HW1 as [HF1 _].
    destruct (file_block x1 V1 (gr_fs _ _ _ _ _ _ Hg) (gr_file _ _ _ _ _ _ Hg) k Hk Hz) as (Hr & Hd & Hlen & Hby).
    rewrite (fo_dev _ _ _ Hx). eapply open_block; [exact T1|exact Hd|set_solver|by rewrite size_empty; lia|]. intros i s2 T2 H2 F2.
    cbv zeta. fold m. eapply runs_bind, runs_lift; [apply load_bytes_ok; lia|]. set (bs := slice src _ _).
    assert (length bs = Z.to_nat m) as Hbl by (apply length_slice; lia).
    assert (Forall byte_ok bs) as Hbb by (by apply slice_forall).
    eapply runs_bind, runs_lift; [apply store_bytes_ok; lia|].
    eapply save_block; [exact T2|exact Hd|exact H2|exact HaF|]. intros s3 T3 F3. rewrite back_out in T3 by set_solver.
    rewrite u32_small by (unfold MAXFILE, NINDIRECT, NDIRECT, BSIZE in *; lia).
    pose proof (write_step x V x1 V1 off bs Hx ltac:(lia) ltac:(lia) Hbb ltac:(lia) Hg Hz) as Hw. fold k in Hw.
    set (V2 := <[_ := _]> V1) in *. eapply runs_mono.
    { apply (IH s3 x1 V2 F1 (off + m) (tot + m)); try done.
      - apply Hw.
      - apply Hw.
      - by rewrite (fr_sb _ _ _ F3), (fr_sb _ _ _ F2).
      - rewrite (fr_icache _ _ _ F3), (fr_icache _ _ _ F2), Hc1. apply list_lookup_insert_eq. by eapply lookup_lt_Some.
      - set_solver.
      - lia.
      - lia.
      - lia.
      - replace (n - (tot + m)) with (n - tot - m) by lia. lia.
      - replace (n - (tot + m)) with (n - tot - m) by lia. unfold V2. rewrite data_nfree; [lia|apply Hg|done..].
      - replace (n - (tot + m)) with (n - tot - m) by lia. lia. }
    intros off' s4 (-> & x' & V' & F' & Hw' & T4 & Hs4 & Hc4 & HF4 & Hsz4 & Hnf4). split; [lia|]. exists x', V', F'. split.
    { replace (Z.to_nat (n - tot)) with (Z.to_nat m + Z.to_nat (n - (tot + m)))%nat by lia. rewrite slice_split by lia.
      replace (Z.to_nat tot + Z.to_nat m)%nat with (Z.to_nat (tot + m)) by lia. fold bs.
      eapply wrote_app; [done| |exact Hw|]; rewrite Hbl.
      - rewrite length_slice by lia. lia.
      - by replace (off + Z.of_nat (Z.to_nat m)) with (off + m) by lia. }
    split; [done|]. split; [done|].
    split; [by rewrite Hc4, (fr_icache _ _ _ F3), (fr_icache _ _ _ F2), Hc1, list_insert_insert_eq|]. split; [by eapply wider_trans|].
    replace (n - (tot + m)) with (n - tot - m) in Hsz4, Hnf4 by lia. unfold V2 in Hnf4. rewrite data_nfree in Hnf4; [split; lia|apply Hg|done..].
  - apply runs_ret. unfold loop_post. replace (n - tot) with 0 by lia. split; [lia|]. exists x, V, F.
    split; [by apply wrote_nil|].
    split; [done|]. split; [done|]. split; [by rewrite list_insert_id|]. split; [apply wider_refl|]. unfold nblks. simpl. split; lia.
Qed.
End write.
End io.
