(* ===== verification/FsDinode.v ===== *)
(** * On-disk inodes

    The 64 bytes of an on-disk inode hold what [iupdate] stored and are independent
    of the other inodes of their block; [ilock] reads them back. *)
From stdpp Require Import base numbers list gmap sets strings.
From S2P Require Import Prelude Bytes XString Bio Log LogFacts Fs FsFacts FsBlocks FsInode FsIO.
#[local] Open Scope Z_scope.

Definition short_ok (z : Z) : Prop := - 2^15 ≤ z < 2^15.
Record dinode_ok (x : inode) : Prop := {
  di_type : short_ok (itype x); di_major : short_ok (imajor x); di_minor : short_ok (iminor x); di_nlink : short_ok (inlink x);
  di_size : 0 ≤ isize x < 2^32;
  di_len : length (iaddrs x) = S NDIRECT;
  di_addrs : Forall (λ a, 0 ≤ a < 2^32) (iaddrs x) }.

(** ** The bytes *)
Definition dinode_bytes (x : inode) : list Z :=
  le_bytes 2 (itype x) ++ le_bytes 2 (imajor x) ++ le_bytes 2 (iminor x) ++ le_bytes 2 (inlink x) ++ le_bytes 4 (isize x) ++
  addr_bytes (iaddrs x).
Definition field (bs : list Z) (i n : nat) : Z := le_val (slice bs i n).
Definition decode (bs : list Z) (y : inode) : inode :=
  mkinode (idev y) (inum y) (iref y) (ilocked y) true (s16 (field bs 0 2)) (s16 (field bs 2 2)) (s16 (field bs 4 2)) (s16 (field bs 6 2))
    (field bs 8 4) (map (λ i, field bs (12 + 4 * i) 4) (seq 0 (S NDIRECT))).

Lemma length_addr_bytes a : length (addr_bytes a) = (4 * length a)%nat.
Proof. unfold addr_bytes. induction a as [|z a IH]; [done|]. cbn [map concat]. rewrite length_app, length_le_bytes, IH. simpl. lia. Qed.
Lemma length_dinode_bytes x : length (iaddrs x) = S NDIRECT → length (dinode_bytes x) = 64%nat.
Proof. intros Hl. unfold dinode_bytes. rewrite !length_app, !length_le_bytes, length_addr_bytes, Hl. done. Qed.
Lemma dinode_bytes_ok x : Forall byte_ok (dinode_bytes x).
Proof.
  unfold dinode_bytes. rewrite !Forall_app. split_and!; try apply le_bytes_ok.
  unfold addr_bytes. induction (iaddrs x); cbn [map concat]; [done|]. apply Forall_app. split; [apply le_bytes_ok|done].
Qed.

Lemma splice_splice_next d o a b : (o + length a + length b ≤ length d)%nat →
  splice (splice d o a) (o + length a) b = splice d o (a ++ b).
Proof.
  intros Hl. apply list_eq. intros i. destruct (decide (o + length a ≤ i < o + length a + length b)%nat) as [H1|H1].
  - rewrite lookup_splice_new by (rewrite ?length_splice; lia). rewrite lookup_splice_new by (rewrite length_app; lia).
    rewrite lookup_app_r by lia. f_equal. lia.
  - rewrite lookup_splice_old by (rewrite ?length_splice; lia). destruct (decide (o ≤ i < o + length a)%nat) as [H2|H2].
    + rewrite !lookup_splice_new by (rewrite ?length_app; lia). by rewrite lookup_app_l by lia.
    + by rewrite !lookup_splice_old by (rewrite ?length_app; lia).
Qed.

Lemma dinode_off_ok i : 0 ≤ dinode_off i ∧ dinode_off i + 64 ≤ 512.
Proof. unfold dinode_off, IPB. dlia. Qed.

Lemma store_next d o a n z i : length d = BSIZE → 0 ≤ o → i = Z.of_nat (length a) → o + i + Z.of_nat n ≤ Z.of_nat BSIZE →
  store n (splice d (Z.to_nat o) a) (o + i) z = Ok (splice d (Z.to_nat o) (a ++ le_bytes n z)).
Proof.
  intros Hd Ho -> Hfit. pose proof (length_le_bytes n z) as Hn. rewrite store_ok.
  - replace (Z.to_nat (o + Z.of_nat (length a))) with (Z.to_nat o + length a)%nat by lia. rewrite splice_splice_next by lia. done.
  - lia.
  - rewrite length_splice by lia. lia.
Qed.

Lemma store_dinode_ok d x : length d = BSIZE → length (iaddrs x) = S NDIRECT →
  store_dinode d x = Ok (splice d (Z.to_nat (dinode_off (inum x))) (dinode_bytes x)).
Proof.
  intros Hd Hl. pose proof (dinode_off_ok (inum x)) as [Ho Hfit]. unfold store_dinode. cbv zeta. set (o := dinode_off (inum x)) in *.
  rewrite store_ok by (rewrite ?Hd; unfold BSIZE; lia). cbn [mbind res_bind].
  do 4 (rewrite store_next by (done || (rewrite ?length_app, ?length_le_bytes; unfold BSIZE; simpl; lia)); cbn [mbind res_bind]).
  assert (length (addr_bytes (iaddrs x)) = 52%nat) as Ha by (rewrite length_addr_bytes, Hl; done).
  rewrite store_bytes_ok; [|lia|rewrite length_splice; rewrite ?length_app, ?length_le_bytes, ?Ha, ?Hd; unfold BSIZE; simpl; lia].
  unfold dinode_bytes. f_equal. rewrite <- !app_assoc.
  replace (Z.to_nat (o + 12)) with (Z.to_nat o + 12)%nat by lia.
  set (p := le_bytes 2 (itype x) ++ le_bytes 2 (imajor x) ++ le_bytes 2 (iminor x) ++ le_bytes 2 (inlink x) ++ le_bytes 4 (isize x)).
  assert (length p = 12%nat) as Hp by (unfold p; by rewrite !length_app, !length_le_bytes).
  rewrite <- Hp. rewrite splice_splice_next by (unfold BSIZE in *; lia). unfold p. by rewrite <- !app_assoc.
Qed.

(** ** Reading back *)
Lemma load_field n d o i : length d = BSIZE → 0 ≤ o → 0 ≤ i → o + 64 ≤ 512 → i + Z.of_nat n ≤ 64 →
  load n d (o + i) = Ok (field (slice d (Z.to_nat o) 64) (Z.to_nat i) n).
Proof.
  intros Hd Ho Hi H1 H2. unfold BSIZE in *. rewrite load_ok by lia. unfold field. do 2 f_equal. apply list_eq. intros j.
  destruct (decide (j < n)%nat) as [Hj|Hj].
  - rewrite !lookup_slice by lia. f_equal. lia.
  - unfold slice. by rewrite !lookup_take_ge by lia.
Qed.
Lemma load_addrs_ok n d o : length d = BSIZE → 0 ≤ o → o + 64 ≤ 512 → ∀ j, (12 + 4 * (j + n) ≤ 64)%nat →
  load_addrs n d (o + 12 + 4 * Z.of_nat j) = Ok (map (λ i, field (slice d (Z.to_nat o) 64) (12 + 4 * i) 4) (seq j n)).
Proof.
  intros Hd Ho H1. induction n as [|n IH]; intros j Hj; [done|]. cbn [load_addrs seq map].
  replace (o + 12 + 4 * Z.of_nat j) with (o + (12 + 4 * Z.of_nat j)) by lia. rewrite load_field by (done || lia). cbn [mbind res_bind].
  replace (o + (12 + 4 * Z.of_nat j) + 4) with (o + 12 + 4 * Z.of_nat (S j)) by lia. rewrite IH by lia. cbn [mbind res_bind].
  by replace (Z.to_nat (12 + 4 * Z.of_nat j)) with (12 + 4 * j)%nat by lia.
Qed.
Lemma load_dinode_ok d y : length d = BSIZE → load_dinode d y = Ok (decode (slice d (Z.to_nat (dinode_off (inum y))) 64) y).
Proof.
  intros Hd. pose proof (dinode_off_ok (inum y)) as [Ho Hfit]. unfold load_dinode, load_short. cbv zeta. set (o := dinode_off (inum y)) in *.
  replace o with (o + 0) at 1 by lia. do 5 (rewrite load_field by (done || lia); cbn [mbind res_bind mret res_ret]).
  replace (o + 12) with (o + 12 + 4 * Z.of_nat 0) by lia. rewrite load_addrs_ok by (done || (unfold NDIRECT; lia)). done.
Qed.

Lemma s16_u16 z : short_ok z → s16 (z `mod` 2 ^ (8 * Z.of_nat 2)) = z.
Proof. unfold short_ok, s16. change (2 ^ (8 * Z.of_nat 2)) with 65536. intros Hz. change (2^15) with 32768 in *. change (2^16) with 65536. dlia. Qed.
Lemma field_app_l a b i n : (i + n ≤ length a)%nat → field (a ++ b) i n = field a i n.
Proof. intros Hi. unfold field, slice. rewrite drop_app_le by lia. by rewrite take_app_le by (rewrite length_drop; lia). Qed.
Lemma field_app_r a b i n : field (a ++ b) (length a + i) n = field b i n.
Proof. unfold field, slice. by rewrite drop_app_add. Qed.
Lemma field_le n z : field (le_bytes n z) 0 n = z `mod` 2 ^ (8 * Z.of_nat n).
Proof. unfold field, slice. rewrite drop_0, take_ge by (by rewrite length_le_bytes). apply le_val_bytes. Qed.
Lemma field_addr a k z : a !! k = Some z → field (addr_bytes a) (4 * k) 4 = z `mod` 2^32.
Proof.
  revert k. induction a as [|y a IH]; intros [|k] Hk; [done..| |].
  - injection Hk as ->. unfold addr_bytes. cbn [map concat]. rewrite field_app_l by (by rewrite length_le_bytes). apply field_le.
  - unfold addr_bytes. cbn [map concat]. replace (4 * S k)%nat with (length (le_bytes 4 y) + 4 * k)%nat by (rewrite length_le_bytes; lia).
    rewrite field_app_r. by apply IH.
Qed.

Lemma field_mid a b c i n : i = length a → n = length b → field (a ++ b ++ c) i n = le_val b.
Proof. intros -> ->. replace (length a) with (length a + 0)%nat by lia. rewrite field_app_r, field_app_l by lia. unfold field, slice. by rewrite drop_0, firstn_all. Qed.

Lemma decode_bytes x y : dinode_ok x → decode (dinode_bytes x) y =
  mkinode (idev y) (inum y) (iref y) (ilocked y) true (itype x) (imajor x) (iminor x) (inlink x) (isize x) (iaddrs x).
Proof.
  intros [H1 H2 H3 H4 H5 H6 H7]. unfold decode, dinode_bytes.
  set (b1 := le_bytes 2 (itype x)). set (b2 := le_bytes 2 (imajor x)). set (b3 := le_bytes 2 (iminor x)). set (b4 := le_bytes 2 (inlink x)).
  set (b5 := le_bytes 4 (isize x)). set (b6 := addr_bytes (iaddrs x)).
  assert (length b1 = 2 ∧ length b2 = 2 ∧ length b3 = 2 ∧ length b4 = 2 ∧ length b5 = 4)%nat as (L1 & L2 & L3 & L4 & L5)
    by (unfold b1, b2, b3, b4, b5; by rewrite !length_le_bytes).
  f_equal.
  - rewrite field_app_l by lia. unfold b1. rewrite field_le. by apply s16_u16.
  - rewrite (field_mid b1 b2) by done. unfold b2. rewrite le_val_bytes. by apply s16_u16.
  - rewrite (app_assoc b1 b2), (field_mid (b1 ++ b2) b3) by (rewrite ?length_app; lia). unfold b3. rewrite le_val_bytes. by apply s16_u16.
  - rewrite (app_assoc b1 b2), (app_assoc (b1 ++ b2) b3), (field_mid ((b1 ++ b2) ++ b3) b4) by (rewrite ?length_app; lia).
    unfold b4. rewrite le_val_bytes. by apply s16_u16.
  - rewrite (app_assoc b1 b2), (app_assoc (b1 ++ b2) b3), (app_assoc _ b4), (field_mid (((b1 ++ b2) ++ b3) ++ b4) b5) by (rewrite ?length_app; lia).
    unfold b5. rewrite le_val_bytes. apply Z.mod_small. done.
  - rewrite (app_assoc b1 b2), (app_assoc (b1 ++ b2) b3), (app_assoc _ b4), (app_assoc _ b5).
    set (p := (((b1 ++ b2) ++ b3) ++ b4) ++ b5). assert (length p = 12%nat) as Hp by (unfold p; rewrite !length_app; lia).
    apply list_eq. intros k. destruct (iaddrs x !! k) as [z|] eqn:Hk.
    + pose proof (lookup_lt_Some _ _ _ Hk) as Hlt. rewrite list_lookup_fmap, lookup_seq_lt by lia.
      change (Some (field (p ++ b6) (12 + 4 * k) 4) = Some z). f_equal. rewrite <- Hp, field_app_r. unfold b6. rewrite (field_addr _ _ _ Hk). apply Z.mod_small.
      by eapply Forall_lookup_1 in H7.
    + apply lookup_ge_None in Hk. apply lookup_ge_None. rewrite length_map, length_seq. lia.
Qed.

(** What is stored for one inode is read back for it, and the others do not change. *)
Lemma dinode_roundtrip d x y : length d = BSIZE → dinode_ok x → inum y = inum x →
  load_dinode (splice d (Z.to_nat (dinode_off (inum x))) (dinode_bytes x)) y =
  Ok (mkinode (idev y) (inum y) (iref y) (ilocked y) true (itype x) (imajor x) (iminor x) (inlink x) (isize x) (iaddrs x)).
Proof.
  intros Hd Hx Hn. pose proof (dinode_off_ok (inum x)) as [Ho Hfit]. pose proof (length_dinode_bytes x (di_len _ Hx)) as Hl.
  rewrite load_dinode_ok by (rewrite length_splice; [done|unfold BSIZE in *; lia]). rewrite Hn.
  rewrite <- Hl, slice_splice_same by (unfold BSIZE in *; lia). rewrite decode_bytes by done. by rewrite Hn.
Qed.
Lemma dinode_other d x y : length d = BSIZE → dinode_ok x → inum y `mod` IPB ≠ inum x `mod` IPB →
  load_dinode (splice d (Z.to_nat (dinode_off (inum x))) (dinode_bytes x)) y = load_dinode d y.
Proof.
  intros Hd Hx Hn. pose proof (dinode_off_ok (inum x)) as [Ho Hfit]. pose proof (dinode_off_ok (inum y)) as [Ho' Hfit'].
  pose proof (length_dinode_bytes x (di_len _ Hx)) as Hl.
  rewrite (load_dinode_ok d) by done. rewrite load_dinode_ok by (rewrite length_splice; [done|unfold BSIZE in *; lia]). do 2 f_equal. apply slice_splice_other.
  - unfold BSIZE in *; lia.
  - unfold dinode_off, IPB in *. lia.
Qed.
