(* ===== verification/FsUpdate.v ===== *)
(** * Writing back inodes, and the whole of [writei] *)
From stdpp Require Import base numbers list gmap sets strings.
From S2P Require Import Prelude Bytes XString Bio Log LogFacts Fs FsFacts FsBlocks FsInode FsIO FsDinode.
#[local] Open Scope Z_scope.

Section update.
Context (v : superblock) (Hv : sb_ok v).

(** The on-disk inode is the one in memory. *)
Definition synced (x : inode) (V : gmap Z (list Z)) : Prop :=
  load_dinode (V !!! IBLOCK (inum x) v) x = Ok (set_ivalid true x).

Lemma IBLOCK_ok i : 0 ≤ i < ninodes v → 1 < IBLOCK i v < bmapstart v ∧ IBLOCK i v = i / IPB + inodestart v.
Proof using Hv.
  intros Hi. pose proof (so_inodes _ Hv) as (H1 & H2 & H3). pose proof (so_bmap _ Hv). pose proof (so_size _ Hv).
  unfold IBLOCK, IPB, FSSIZE in *. assert (0 ≤ i / 8 ≤ ninodes v / 8) by (split; [apply Z.div_pos; lia|apply Z.div_le_mono; lia]).
  rewrite u32_small by lia. lia.
Qed.

(** Blocks that a file's structure does not depend on. *)
Section elsewhere.
Context (x : inode) (V V' : gmap Z (list Z)) (Hbm : V' !!! bmapstart v = V !!! bmapstart v).
Context (Hind : ind x ≠ 0 → V' !!! ind x = V !!! ind x).

Lemma elsewhere_blk k : blk x V' k = blk x V k.
Proof using Hind. unfold blk. case_bool_decide; [done|]. case_bool_decide as Hi; [done|]. by rewrite Hind. Qed.
Lemma elsewhere_used b : used v V' b ↔ used v V b.
Proof using Hbm. unfold used, fmap_of. by rewrite Hbm. Qed.
Lemma elsewhere_file : file_ok v x V → file_ok v x V'.
Proof using Hbm Hind.
  intros [H1 H2 H3 H4 H5 H6 H7 H8]. split; try done.
  - intros j Hj. rewrite elsewhere_blk, elsewhere_used. by apply H4.
  - intros Hi. rewrite elsewhere_used. by apply H5.
  - intros i j Hi Hj. rewrite !elsewhere_blk. by apply H6.
  - intros j Hj. rewrite elsewhere_blk. by apply H7.
  - intros j Hj. rewrite elsewhere_blk. by apply H8.
Qed.
End elsewhere.

(** ** [iupdate] *)
Definition dinode_view (x : inode) (V : gmap Z (list Z)) : gmap Z (list Z) :=
  <[IBLOCK (inum x) v := splice (V !!! IBLOCK (inum x) v) (Z.to_nat (dinode_off (inum x))) (dinode_bytes x)]> V.

Lemma iupdate_ok ip s x V F : fs_ok v V → txn s V F ∅ → sb s = v → icache s !! ip = Some x →
  idev x = ROOTDEV → 0 ≤ inum x < ninodes v → length (iaddrs x) = S NDIRECT → IBLOCK (inum x) v ∈ F →
  runs (iupdate true ip) s (λ _ s', txn s' (dinode_view x V) F ∅ ∧ stable s s').
Proof using Hv.
  intros HV Htx Hs Hic Hdev Hn Hl HF. pose proof (so_bmap _ Hv). pose proof (so_size _ Hv). destruct (IBLOCK_ok _ Hn) as [Hr _].
  destruct (vol_total V (IBLOCK (inum x) v) (fs_vol _ _ HV)) as [Hd [Hdl _]]; [unfold FSSIZE in *; lia|].
  unfold iupdate. eapply runs_bind, get_inode_ok; [done|]. eapply runs_bind, runs_gets. rewrite Hs, Hdev.
  eapply open_block; [exact Htx|exact Hd|set_solver|by rewrite size_empty; lia|]. intros i s1 T1 H1 F1.
  eapply runs_bind, runs_lift; [by apply store_dinode_ok|].
  eapply runs_mono; [eapply save_ok; [exact T1|exact Hd|exact H1|exact HF]|]. intros [] s2 [T2 F2]. rewrite back_out in T2 by set_solver.
  split; [done|]. eapply (frame_stable s s2 V F ∅ (IBLOCK (inum x) v)); [exact Htx|set_solver|by eapply frame_trans].
Qed.

Section view.
Context (x : inode) (V : gmap Z (list Z)) (HV : fs_ok v V) (Hn : 0 ≤ inum x < ninodes v) (Hd : dinode_ok x).

Lemma inode_block : V !! IBLOCK (inum x) v = Some (V !!! IBLOCK (inum x) v) ∧ block_ok (V !!! IBLOCK (inum x) v).
Proof using Hv HV Hn.
  destruct (IBLOCK_ok _ Hn) as [Hr _]. pose proof (so_bmap _ Hv). pose proof (so_size _ Hv).
  apply vol_total; [apply HV|unfold FSSIZE in *; lia].
Qed.
Lemma view_other b : b ≠ IBLOCK (inum x) v → dinode_view x V !! b = V !! b.
Proof using. intros Hb. by apply lookup_insert_ne. Qed.
Lemma view_total b : b ≠ IBLOCK (inum x) v → dinode_view x V !!! b = V !!! b.
Proof using. intros Hb. by rewrite !lookup_total_alt, view_other. Qed.
Lemma view_bm : dinode_view x V !!! bmapstart v = V !!! bmapstart v.
Proof using Hv Hn. apply view_total. destruct (IBLOCK_ok _ Hn). lia. Qed.
Lemma view_fs : fs_ok v (dinode_view x V).
Proof using Hv HV Hn Hd.
  destruct (IBLOCK_ok _ Hn) as [Hr _]. destruct inode_block as [_ [Hl Hf]]. destruct HV as [H1 H2 (e & H3 & H4)]. split.
  - apply vol_insert; [done|]. split; [|apply splice_forall; [done|apply dinode_bytes_ok]]. rewrite length_splice; [done|].
    rewrite (length_dinode_bytes _ (di_len _ Hd)). pose proof (dinode_off_ok (inum x)). unfold BSIZE in *. lia.
  - intros c Hc. apply (elsewhere_used V (dinode_view x V) view_bm). by apply H2.
  - exists e. split; [|done]. rewrite view_other by lia. done.
Qed.
Lemma view_file y : file_ok v y V → file_ok v y (dinode_view x V) ∧ ∀ k, blk y (dinode_view x V) k = blk y V k.
Proof using Hv Hn.
  intros Hy. destruct (IBLOCK_ok _ Hn) as [Hr _]. assert (ind y ≠ 0 → dinode_view x V !!! ind y = V !!! ind y) as Hi.
  { intros Hi. destruct (fo_ind _ _ _ Hy Hi). apply view_total. lia. }
  split; [|intros k; by apply elsewhere_blk]. apply (elsewhere_file y V); [apply view_bm|done|done].
Qed.
Lemma view_bytes y o : file_ok v y V → 0 ≤ o / Z.of_nat BSIZE < MAXFILE → blk y V (o / Z.of_nat BSIZE) ≠ 0 →
  byte_at y (dinode_view x V) o = byte_at y V o.
Proof using Hv Hn.
  intros Hy Ho Hz. destruct (IBLOCK_ok _ Hn) as [Hr _]. destruct (view_file y Hy) as [_ Hb]. unfold byte_at. rewrite Hb.
  destruct (fo_data _ _ _ Hy _ Ho Hz). by rewrite view_total by lia.
Qed.
Lemma view_synced : synced x (dinode_view x V).
Proof using Hv HV Hn Hd.
  unfold synced, dinode_view. rewrite lookup_total_insert_eq. destruct inode_block as [_ [Hl _]].
  rewrite dinode_roundtrip by done. by destruct x.
Qed.
(** The other inodes stay as they are. *)
Lemma view_inodes y : 0 ≤ inum y < ninodes v → inum y ≠ inum x →
  load_dinode (dinode_view x V !!! IBLOCK (inum y) v) y = load_dinode (V !!! IBLOCK (inum y) v) y.
Proof using Hv HV Hn Hd.
  intros Hy Hne. destruct (IBLOCK_ok _ Hn) as [_ E1]. destruct (IBLOCK_ok _ Hy) as [_ E2]. destruct inode_block as [_ [Hl _]].
  destruct (decide (IBLOCK (inum y) v = IBLOCK (inum x) v)) as [E|E]; [|by rewrite view_total].
  rewrite E. unfold dinode_view. rewrite lookup_total_insert_eq. apply dinode_other; [done..|].
  intros Em. apply Hne. assert (inum y / IPB = inum x / IPB) by lia. unfold IPB in *. dlia.
Qed.
End view.

(** ** After the loop of [writei] *)
Section finish.
Context (off n : Z) (bs : list Z) (x : inode) (V : gmap Z (list Z)) (x1 : inode) (V1 : gmap Z (list Z)).
Context (Hw : wrote v off bs x V x1 V1) (Hx : file_ok v x V) (HV : fs_ok v V) (Hlen : Z.of_nat (length bs) = n).
Context (Hoff : 0 ≤ off ≤ isize x) (Hmax : off + n ≤ MAXFILE * Z.of_nat BSIZE).

Lemma wrote_size : isize x1 = isize x ∧ inum x1 = inum x ∧ idev x1 = idev x ∧ itype x1 = itype x ∧ imajor x1 = imajor x ∧
  iminor x1 = iminor x ∧ inlink x1 = inlink x.
Proof using Hw. by destruct (wr_same _ _ _ _ _ _ _ Hw) as [a ->]. Qed.

(** The size that [writei] leaves. *)
Definition new_size : Z := Z.max (isize x) (off + n).
Definition grown : inode := set_isize new_size x1.

Lemma mapped_before o : 0 ≤ o < isize x → blk x V (o / Z.of_nat BSIZE) ≠ 0.
Proof using Hx.
  intros Ho. clear - Hx Ho. apply (fo_alloc _ _ _ Hx); unfold BSIZE; change (Z.of_nat 512) with 512; dlia.
Qed.
Lemma mapped_after o : 0 ≤ o < new_size → blk x1 V1 (o / Z.of_nat BSIZE) ≠ 0.
Proof using Hw Hx Hlen Hoff Hmax.
  intros Ho. pose proof (fo_size _ _ _ Hx) as Hs. unfold new_size in Ho. destruct (decide (o < isize x)) as [Hlt|Hge].
  - rewrite (wr_mapped _ _ _ _ _ _ _ Hw); [apply mapped_before; lia|apply byte_index; lia|apply mapped_before; lia].
  - apply (wr_range _ _ _ _ _ _ _ Hw). lia.
Qed.
Lemma grown_file : file_ok v grown V1.
Proof using Hw Hx Hlen Hoff Hmax.
  pose proof (fo_size _ _ _ Hx) as Hs. destruct (wr_file _ _ _ _ _ _ _ Hw) as [H1 H2 H3 H4 H5 H6 H7 H8].
  assert (∀ k, blk grown V1 k = blk x1 V1 k) as Hb by done. split; try done.
  - unfold grown, new_size. simpl. lia.
  - intros k Hk Hlt. rewrite Hb. unfold grown in Hlt. simpl in Hlt.
    replace k with (k * Z.of_nat BSIZE / Z.of_nat BSIZE) by (apply Z.div_mul; unfold BSIZE; lia). apply mapped_after. unfold BSIZE in *. lia.
Qed.

Lemma grown_content : content grown V1 = splice (content x V) (Z.to_nat off) bs.
Proof using Hw Hx Hlen Hoff Hmax.
  pose proof (fo_size _ _ _ Hx) as Hs. assert (length (content x V) = Z.to_nat (isize x)) as Hcl by (unfold content; by rewrite length_fmap, length_seqZ).
  apply list_eq. intros i. unfold content at 1. rewrite list_lookup_fmap. unfold grown at 2. cbn [isize set_isize].
  destruct (decide (Z.of_nat i < new_size)) as [Hi|Hi].
  - rewrite lookup_seqZ_lt by lia. rewrite Z.add_0_l. cbn [fmap option_fmap option_map].
    change (byte_at grown V1 (Z.of_nat i)) with (byte_at x1 V1 (Z.of_nat i)). unfold new_size in Hi. unfold splice.
    destruct (decide (Z.of_nat i < off)) as [H1|H1]; [|destruct (decide (Z.of_nat i < off + n)) as [H2|H2]].
    + rewrite lookup_app_l by (rewrite length_take; lia). rewrite lookup_take_lt by lia.
      rewrite (wr_out _ _ _ _ _ _ _ Hw) by (lia || (apply mapped_before; lia)).
      unfold content. by rewrite list_lookup_fmap, lookup_seqZ_lt by lia.
    + rewrite lookup_app_r by (rewrite length_take; lia). rewrite length_take, lookup_app_l by lia.
      destruct (lookup_lt_is_Some_2 bs (i - Z.to_nat off)) as [c Hc]; [lia|].
      replace (i - Z.to_nat off `min` length (content x V))%nat with (i - Z.to_nat off)%nat by lia. rewrite Hc.
      rewrite <- (wr_in _ _ _ _ _ _ _ Hw _ _ Hc). do 2 f_equal. lia.
    + rewrite lookup_app_r by (rewrite length_take; lia). rewrite length_take, lookup_app_r by lia. rewrite lookup_drop.
      rewrite (wr_out _ _ _ _ _ _ _ Hw) by (lia || (apply mapped_before; lia)).
      rewrite Hcl. replace (_ + _ + _)%nat with i by lia. unfold content. by rewrite list_lookup_fmap, lookup_seqZ_lt by lia.
  - rewrite lookup_seqZ_ge by lia. simpl. symmetry. apply lookup_ge_None_2. unfold splice, new_size in *.
    rewrite !length_app, length_take, length_drop. lia.
Qed.

Lemma addrs_ok y W : file_ok v y W → Forall (λ a, 0 ≤ a < 2^32) (iaddrs y).
Proof using Hv.
  intros Hy. clear - Hv Hy. pose proof (so_bmap _ Hv). pose proof (so_size _ Hv). unfold FSSIZE in *. apply Forall_lookup. intros i a Ha.
  pose proof (lookup_lt_Some _ _ _ Ha) as Hl. rewrite (fo_len _ _ _ Hy) in Hl.
  destruct (decide (a = 0)) as [->|Hz]; [lia|]. apply list_lookup_total_correct in Ha. destruct (decide (i = NDIRECT)) as [->|Hne].
  - fold (ind y) in Ha. destruct (fo_ind _ _ _ Hy) as [Hr _]; [congruence|]. lia.
  - assert (blk y W (Z.of_nat i) = a) as E by (unfold blk; rewrite bool_decide_eq_true_2, Nat2Z.id by lia; done).
    destruct (fo_data _ _ _ Hy (Z.of_nat i)) as [Hr _]; [unfold MAXFILE, NINDIRECT, NDIRECT in *; lia|congruence|lia].
Qed.
Lemma grown_dinode : dinode_ok x → dinode_ok grown.
Proof using Hv Hw Hx Hlen Hoff Hmax.
  intros [D1 D2 D3 D4 D5 D6 D7]. destruct wrote_size as (E1 & E2 & E3 & E4 & E5 & E6 & E7). pose proof (fo_size _ _ _ Hx) as Hs.
  split; unfold grown; cbn [itype imajor iminor inlink isize iaddrs set_isize]; rewrite ?E4, ?E5, ?E6, ?E7; try done.
  - unfold new_size, MAXFILE, NINDIRECT, NDIRECT, BSIZE in *. lia.
  - apply (fo_len _ _ _ (wr_file _ _ _ _ _ _ _ Hw)).
  - eapply addrs_ok. apply (wr_file _ _ _ _ _ _ _ Hw).
Qed.

(** Without growth the inode is the same. *)
Lemma same_inode : off + n ≤ isize x → x1 = x.
Proof using Hw Hx Hlen Hoff Hmax.
  intros Hle. apply (wr_inplace _ _ _ _ _ _ _ Hw). intros o Ho. apply mapped_before. lia.
Qed.

(** The inode blocks are not touched by the loop. *)
Lemma inode_block_same i : 0 ≤ i < ninodes v → V1 !!! IBLOCK i v = V !!! IBLOCK i v.
Proof using Hv Hw Hx HV Hlen Hoff Hmax.
  intros Hi. destruct (IBLOCK_ok _ Hi) as [Hr _]. rewrite !lookup_total_alt. rewrite (wr_frame _ _ _ _ _ _ _ Hw); [done|lia| |lia| |].
  - apply (fs_meta _ _ HV). lia.
  - intros E. destruct (fo_ind _ _ _ Hx); lia.
  - intros k Hk E. destruct (fo_data _ _ _ Hx k Hk); lia.
Qed.
End finish.

(** ** [writei] *)
Section writei.
Context (devwrite : Z → option (nat → list Z → Z → M fstate Z)).
Context (ip : nat) (src : list Z) (off n : Z) (s : fstate) (x : inode) (V : gmap Z (list Z)) (F : gset Z).
Context (HV : fs_ok v V) (Hx : file_ok v x V) (Htx : txn s V F ∅) (Hs : sb s = v) (Hic : icache s !! ip = Some x).
Context (Hin : 0 ≤ inum x < ninodes v) (Hdi : dinode_ok x) (Hty : itype x ≠ T_DEV).
Context (Hoff : 0 ≤ off ≤ isize x) (Hn : 0 ≤ n ≤ Z.of_nat (length src)) (Hmax : off + n ≤ MAXFILE * Z.of_nat BSIZE) (Hsrc : Forall byte_ok src).
Context (HbmF : bmapstart v ∈ F) (HibF : IBLOCK (inum x) v ∈ F) (HiF : ind x ≠ 0 → ind x ∈ F).
Context (HsF : Z.of_nat (size F) + nblks off n + spare x ≤ 28) (Hfree : nblks off n + spare x ≤ nfree v V).

(** What [writei] does to the file, to the other files and to the log. *)
Record written (s' : fstate) (x' : inode) (V' : gmap Z (list Z)) (F' : gset Z) : Prop := {
  wn_txn : txn s' V' F' ∅;
  wn_sb : sb s' = v;
  wn_icache : icache s' = <[ip := x']> (icache s);
  wn_file : file_ok v x' V';
  wn_fs : fs_ok v V';
  wn_dinode : dinode_ok x';
  wn_same : inum x' = inum x ∧ itype x' = itype x ∧ inlink x' = inlink x ∧ ilocked x' = ilocked x ∧ iref x' = iref x ∧ ivalid x' = ivalid x;
  wn_size : isize x' = Z.max (isize x) (off + n);
  wn_content : content x' V' = splice (content x V) (Z.to_nat off) (take (Z.to_nat n) src);
  wn_synced : synced x V → synced x' V';
  wn_frame : ∀ b, 0 ≤ b → used v V b → b ≠ bmapstart v → b ≠ IBLOCK (inum x) v → b ≠ ind x →
    (∀ k, 0 ≤ k < MAXFILE → blk x V k ≠ b) → V' !! b = V !! b;
  wn_inodes : ∀ y, 0 ≤ inum y < ninodes v → inum y ≠ inum x →
    load_dinode (V' !!! IBLOCK (inum y) v) y = load_dinode (V !!! IBLOCK (inum y) v) y;
  wn_log : Z.of_nat (size F') ≤ Z.of_nat (size F) + nblks off n + spare x;
  wn_wider : wider v F F';
  wn_free : nfree v V - nblks off n - spare x ≤ nfree v V' - spare x' }.

Lemma writei_small s1 x1 V1 F1 bs : wrote v off bs x V x1 V1 → bs = take (Z.to_nat n) src → txn s1 V1 F1 ∅ → sb s1 = v →
  icache s1 = <[ip := x1]> (icache s) → Z.of_nat (size F1) ≤ Z.of_nat (size F) + nblks off n + spare x → wider v F F1 → nfree v V - nblks off n - spare x ≤ nfree v V1 - spare x1 →
  off + n ≤ isize x → written s1 x1 V1 F1.
Proof using All.
  intros Hw Hbs T1 Hs1 Hc1 Hsz1 Hwd Hnf1 Hle. assert (Z.of_nat (length bs) = n) as Hlen by (rewrite Hbs, length_take; lia).
  pose proof (fo_size _ _ _ Hx) as Hfs. assert (x1 = x) as -> by (eapply (same_inode off n bs x V); [exact Hw|done..]). split; try done.
  - apply (wr_file _ _ _ _ _ _ _ Hw).
  - apply (wr_fs _ _ _ _ _ _ _ Hw).
  - lia.
  - rewrite <- Hbs, <- (grown_content off n bs x V x V1 Hw Hx Hlen Hoff Hmax). unfold grown, new_size. rewrite Z.max_l by lia. by destruct x.
  - unfold synced. by rewrite (inode_block_same off n bs x V x V1 Hw Hx HV Hlen Hoff Hmax).
  - intros b Hb Hu H1 H2 H3 H4. by apply (wr_frame _ _ _ _ _ _ _ Hw).
  - intros y Hy _. by rewrite (inode_block_same off n bs x V x V1 Hw Hx HV Hlen Hoff Hmax).
Qed.

Lemma writei_ok : runs (writei true devwrite ip src off n) s (λ r s', r = n ∧ ∃ x' V' F', written s' x' V' F').
Proof using All.
  pose proof (fo_size _ _ _ Hx) as Hfs. unfold writei. eapply runs_bind, get_inode_ok; [done|].
  rewrite bool_decide_eq_false_2 by done. rewrite u32_small by (unfold MAXFILE, NINDIRECT, NDIRECT, BSIZE in *; lia).
  rewrite bool_decide_eq_false_2 by lia. rewrite bool_decide_eq_false_2 by lia. eapply runs_then.
  { apply (writei_loop_ok v Hv ip src n Hn Hsrc (io_fuel n) s x V F off 0); rewrite ?Z.sub_0_r; try done; try lia.
    pose proof (nblks_fuel off n ltac:(lia) ltac:(lia)). pose proof (nblks_nonneg off n ltac:(lia)). unfold io_fuel. lia. }
  intros off' s1 (-> & x1 & V1 & F1 & Hw & T1 & Hs1 & Hc1 & HW1 & Hsz1 & Hnf1). pose proof HW1 as [HF1 _]. rewrite Z.sub_0_r in *.
  change (slice src (Z.to_nat 0) (Z.to_nat n)) with (take (Z.to_nat n) src) in Hw. set (bs := take (Z.to_nat n) src) in *.
  assert (Z.of_nat (length bs) = n) as Hlen by (unfold bs; rewrite length_take; lia). pose proof (spare_nonneg x1).
  destruct (wrote_size off bs x V x1 V1 Hw) as (E1 & E2 & E3 & E4 & _).
  assert (icache s1 !! ip = Some x1) as Hi1 by (rewrite Hc1; apply list_lookup_insert_eq; by eapply lookup_lt_Some).
  eapply runs_bind, get_inode_ok; [exact Hi1|]. rewrite E1. case_bool_decide as Hg.
  2:{ eapply runs_bind, runs_ret, runs_ret. split; [done|]. exists x1, V1, F1.
      destruct (decide (off + n ≤ isize x)); [by eapply writei_small; try done; lia|].
      apply (writei_small s1 x1 V1 F1 bs); try done; lia. }
  destruct Hg as [Hpos Hgt]. set (x2 := grown off n x x1).
  assert (file_ok v x2 V1) as Hx2 by (by eapply grown_file).
  assert (dinode_ok x2) as Hd2 by (by eapply grown_dinode).
  assert (isize x2 = off + n ∧ inum x2 = inum x) as [Es En] by (unfold x2, grown, new_size; simpl; split; [lia|done]).
  assert (set_isize (off + n) x1 = x2) as Ex2 by (unfold x2, grown, new_size; by rewrite Z.max_r by lia).
  eapply runs_bind, runs_bind, upd_inode_ok; [exact Hi1|]. rewrite Ex2, Hc1, list_insert_insert_eq.
  set (s2 := mkfs _ _ _). assert (txn s2 V1 F1 ∅) as T2 by (by apply (txn_frame s1)).
  eapply runs_mono.
  { apply (iupdate_ok ip s2 x2 V1 F1); [apply Hw|exact T2|exact Hs1| | | | |].
    - simpl. apply list_lookup_insert_eq. by eapply lookup_lt_Some.
    - apply Hx2.
    - by rewrite En.
    - apply Hx2.
    - rewrite En. set_solver. }
  intros [] s3 [T3 S3]. apply runs_ret. split; [done|]. exists x2, (dinode_view x2 V1), F1.
  assert (0 ≤ inum x2 < ninodes v) as Hin2 by (by rewrite En).
  destruct (wr_same _ _ _ _ _ _ _ Hw) as [a Ha]. split; try done.
  - by rewrite (sta_sb _ _ S3).
  - by rewrite (sta_icache _ _ S3).
  - by apply view_file.
  - apply view_fs; [apply Hw|done|done].
  - unfold x2, grown. rewrite Ha. done.
  - fold bs. rewrite <- (grown_content off n bs x V x1 V1 Hw Hx Hlen Hoff Hmax). fold x2. unfold content. apply list_fmap_ext.
    intros i o Ho%list_elem_of_lookup_2%elem_of_seqZ. rewrite Es in Ho.
    apply view_bytes; [done|done|apply byte_index; lia|]. apply (mapped_after off n bs x V x1 V1 Hw Hx Hlen Hoff Hmax). unfold new_size. lia.
  - intros _. apply view_synced; [apply Hw|done|done].
  - intros b Hb Hu H1 H2 H3 H4. rewrite view_other by (by rewrite En). by apply (wr_frame _ _ _ _ _ _ _ Hw).
  - intros y Hy Hne. rewrite view_inodes; [|apply Hw|done..|by rewrite En].
    by rewrite (inode_block_same off n bs x V x1 V1 Hw Hx HV Hlen Hoff Hmax).
  - lia.
  - unfold nfree, fmap_of in *. rewrite view_bm by done. exact Hnf1.
Qed.
End writei.
End update.
