(* ===== verification/FsDir.v ===== *)
(** * Directories and path names

    The entries of a directory as a list; [dirlookup] finds the first entry with a
    name, [dirlink] adds one; [skipelem] takes a path apart. *)
From stdpp Require Import base numbers list gmap sets strings.
From S2P Require Import Prelude Bytes XString Bio Log LogFacts Fs FsFacts FsBlocks FsInode FsIO FsDinode FsUpdate.
#[local] Open Scope Z_scope.

(** ** Names

    The name in an array of at most [n] bytes: what comes before the first NUL. *)
Fixpoint cname (n : nat) (s : list Z) : list Z :=
  match n, s with
  | S n, c :: s => if bool_decide (c = 0) then [] else c :: cname n s
  | _, _ => []
  end.
(** The array has [n] bytes or a NUL. *)
Fixpoint named (n : nat) (s : list Z) : Prop :=
  match n, s with
  | O, _ => True
  | S n, c :: s => c = 0 ∨ named n s
  | S _, [] => False
  end.

Lemma strncmp_names n : ∀ m p q s t, at_addr m p s → at_addr m q t → named n s → named n t →
  ∃ c, strncmp n m p q = Ok c ∧ (c = 0 ↔ cname n s = cname n t).
Proof.
  induction n as [|n IH]; intros m p q s t Hs Ht Hns Hnt; [by exists 0|].
  destruct s as [|a s]; [done|]. destruct t as [|b t]; [done|]. cbn [strncmp cname].
  pose proof Hs as [Hp _]. pose proof Ht as [Hq _]. apply at_addr_cons in Hs as [Ha Hs]. apply at_addr_cons in Ht as [Hb Ht].
  rewrite (getb_ok _ _ _ Hp Ha), (getb_ok _ _ _ Hq Hb). cbn [mbind res_bind]. case_bool_decide as Ha0.
  - exists (a - b). split; [done|]. subst a. split.
    + intros E. by rewrite bool_decide_eq_true_2 by lia.
    + case_bool_decide; [lia|done].
  - case_bool_decide as Hab.
    + subst b. rewrite bool_decide_eq_false_2 by done. destruct Hns as [|Hns]; [done|]. destruct Hnt as [|Hnt]; [done|].
      destruct (IH m (p + 1) (q + 1) s t Hs Ht Hns Hnt) as (c & Hc & Hiff). exists c. split; [done|]. rewrite Hiff. split; [by intros ->|by intros [=]].
    + exists (a - b). split; [done|]. split; [lia|]. case_bool_decide; [done|]. by intros [= E].
Qed.

Lemma at_addr_app_l s t : at_addr (s ++ t) 0 s.
Proof. split; [lia|]. intros i b Hi. rewrite lookup_app_l; [by rewrite <- Hi; f_equal; lia|]. apply lookup_lt_Some in Hi. lia. Qed.
Lemma at_addr_app_r s t : at_addr (s ++ t) (Z.of_nat (length s)) t.
Proof. split; [lia|]. intros i b Hi. rewrite lookup_app_r by lia. rewrite <- Hi. f_equal. lia. Qed.

Lemma namecmp_ok s t : named DIRSIZ s → named DIRSIZ t → ∃ c, namecmp s t = Ok c ∧ (c = 0 ↔ cname DIRSIZ s = cname DIRSIZ t).
Proof. intros Hs Ht. apply (strncmp_names DIRSIZ (s ++ t) 0 _ s t); [apply at_addr_app_l|apply at_addr_app_r|done|done]. Qed.

Lemma named_length n s : length s = n → named n s.
Proof. revert s. induction n as [|n IH]; intros [|c s] Hl; simplify_eq/=; [done|]. right. by apply IH. Qed.

(** ** Entries *)
Definition dirent (l : list Z) (j : nat) : list Z := slice l (16 * j) 16.
Definition dirents (l : list Z) : list (list Z) := dirent l <$> seq 0 (length l / 16).
Definition de_num (e : list Z) : Z := le_val (take 2 e).
Definition de_name (e : list Z) : list Z := cname DIRSIZ (drop 2 e).
(** An entry in use with this name. *)
Definition de_is (nm : list Z) (e : list Z) : Prop := de_num e ≠ 0 ∧ de_name e = nm.
#[export] Instance de_is_dec nm e : Decision (de_is nm e).
Proof. unfold de_is. apply _. Defined.

Lemma lookup_dirents l j : (16 * S j ≤ length l)%nat → dirents l !! j = Some (dirent l j).
Proof.
  intros Hj. unfold dirents. rewrite list_lookup_fmap, lookup_seq_lt; [done|]. apply Nat.div_le_lower_bound; lia.
Qed.
Lemma length_dirents l : length (dirents l) = (length l / 16)%nat.
Proof. unfold dirents. by rewrite length_fmap, length_seq. Qed.

(** ** [iget] *)
Definition fresh_entry (dev num : Z) (x : inode) : inode :=
  mkinode dev num 1 (ilocked x) false (itype x) (imajor x) (iminor x) (inlink x) (isize x) (iaddrs x).
Definition is_for (dev num : Z) (x : inode) : Prop := iref x > 0 ∧ idev x = dev ∧ inum x = num.
#[export] Instance is_for_dec dev num x : Decision (is_for dev num x).
Proof. unfold is_for. apply _. Defined.

Lemma iget_scan_ok dev num l : ∀ k e,
  iget_scan l k dev num e =
  match list_find (is_for dev num) l with
  | Some (i, _) => inl (k + i)%nat
  | None => inr (match e with Some e => Some e | None =>
      match list_find (λ x, iref x = 0) l with Some (i, _) => Some (k + i)%nat | None => None end end)
  end.
Proof.
  induction l as [|x l IH]; intros k e; [by destruct e|]. cbn [iget_scan list_find].
  destruct (decide (is_for dev num x)) as [Hx|Hx].
  - rewrite bool_decide_eq_true_2 by done. by rewrite Nat.add_0_r.
  - rewrite bool_decide_eq_false_2 by done. rewrite IH. destruct (list_find (is_for dev num) l) as [[i ?]|]; simpl; [f_equal; lia|].
    f_equal. destruct e; [done|]. destruct (decide (iref x = 0)).
    + rewrite bool_decide_eq_true_2 by done. f_equal. lia.
    + rewrite bool_decide_eq_false_2 by done. destruct (list_find (λ x, iref x = 0) l) as [[i ?]|]; simpl; [f_equal; lia|done].
Qed.

(** What [iget] does to the cache: an entry more, or one reference more. *)
Inductive iget_spec (dev num : Z) (l : list inode) : nat → list inode → Prop :=
| iget_hit i x : list_find (is_for dev num) l = Some (i, x) → iget_spec dev num l i (<[i := set_iref (iref x + 1) x]> l)
| iget_miss i x : list_find (is_for dev num) l = None → list_find (λ x, iref x = 0) l = Some (i, x) →
    iget_spec dev num l i (<[i := fresh_entry dev num x]> l).

Lemma iget_run dev num s :
  (∃ i l, iget_spec dev num (icache s) i l ∧ iget dev num s = Ok (i, mkfs (fl s) (sb s) l)) ∨
  (list_find (is_for dev num) (icache s) = None ∧ list_find (λ x, iref x = 0) (icache s) = None ∧
   iget dev num s = Fault (Panic "iget: no inodes")).
Proof.
  unfold iget. rewrite (bind_ok _ _ s (icache s) s eq_refl), iget_scan_ok. simpl Nat.add.
  assert (∀ i x f, icache s !! i = Some x → upd_inode i f s = Ok (tt, mkfs (fl s) (sb s) (<[i := f x]> (icache s)))) as Hupd.
  { intros i x f Hx. unfold upd_inode, mbind, M_bind, get_inode. by rewrite Hx. }
  destruct (list_find (is_for dev num) (icache s)) as [[i x]|] eqn:Hf.
  - left. exists i, (<[i := set_iref (iref x + 1) x]> (icache s)). split; [by apply iget_hit|].
    apply list_find_Some in Hf as (Hx & _). by rewrite (bind_ok _ _ _ _ _ (Hupd _ _ _ Hx)).
  - destruct (list_find (λ x, iref x = 0) (icache s)) as [[i x]|] eqn:Hg; [left|by right].
    exists i, (<[i := fresh_entry dev num x]> (icache s)). split; [by apply iget_miss|].
    apply list_find_Some in Hg as (Hx & _). by rewrite (bind_ok _ _ _ _ _ (Hupd _ _ _ Hx)).
Qed.

(** ** [dirlookup] *)
Section dir.
Context (v : superblock) (Hv : sb_ok v).
Context (devread : Z → option (nat → Z → M fstate (Z * list Z))).
Context (dp : nat) (x : inode) (V : gmap Z (list Z)) (F : gset Z) (HV : fs_ok v V) (Hx : file_ok v x V).
Context (Hdir : itype x = T_DIR) (H16 : isize x `mod` DE = 0).

Lemma length_content : length (content x V) = Z.to_nat (isize x).
Proof using. unfold content. by rewrite length_fmap, length_seqZ. Qed.
Lemma dir_size : isize x = 16 * Z.of_nat (length (dirents (content x V))) ∧ isize x < 2^32 - 16.
Proof using Hx H16.
  clear - Hx H16. pose proof (fo_size _ _ _ Hx) as Hs. rewrite length_dirents, length_content. unfold DE, MAXFILE, NINDIRECT, NDIRECT, BSIZE in *.
  split; [|lia]. rewrite Nat2Z.inj_div, Z2Nat.id by lia. change (Z.of_nat 16) with 16. dlia.
Qed.

(** One entry through [readi]. *)
Lemma read_dirent s j e : txn s V F ∅ → icache s !! dp = Some x → dirents (content x V) !! j = Some e →
  ∃ s', readi true devread dp (16 * Z.of_nat j) DE s = Ok ((DE, e), s') ∧ txn s' V F ∅ ∧ stable s s' ∧ length e = 16%nat ∧
    Forall byte_ok e.
Proof using Hv HV Hx Hdir H16.
  intros Htx Hic Hj. destruct dir_size as [Hsz Hlt]. pose proof (lookup_lt_Some _ _ _ Hj) as Hjl. unfold DE in *.
  destruct (readi_ok v Hv dp x V F HV Hx devread s (16 * Z.of_nat j) 16 Htx Hic) as (p & s' & R & -> & T & S);
    [unfold T_DIR, T_DEV in *; lia|lia|lia|lia|].
  rewrite Z.min_l in R by lia. exists s'. assert (e = slice (content x V) (Z.to_nat (16 * Z.of_nat j)) 16) as ->.
  { rewrite lookup_dirents in Hj by (rewrite length_content; lia). injection Hj as <-. unfold dirent. f_equal. lia. }
  split; [done|]. split; [done|]. split; [done|]. split; [apply length_slice; rewrite length_content; lia|].
  apply slice_forall. unfold content. apply Forall_fmap, Forall_forall. intros o Ho%elem_of_seqZ. simpl. unfold byte_at.
  pose proof (fo_size _ _ _ Hx). destruct (file_block v Hv x V HV Hx (o / Z.of_nat BSIZE)) as (_ & _ & Hl & Hf).
  - apply byte_index. lia.
  - by eapply mapped_before.
  - rewrite list_lookup_total_alt. destruct ((V !!! _) !! _) eqn:E; simpl; [by eapply Forall_lookup_1|done].
Qed.

Definition lookup_result (s : fstate) (r : option (nat * list Z)) : res (option (nat * Z) * fstate) :=
  match r with
  | Some (j, e) => (ip ← iget ROOTDEV (de_num e); mret (Some (ip, 16 * Z.of_nat j))) s
  | None => Ok (None, s)
  end.

Lemma de_load e : length e = 16%nat → load 2 e 0 = Ok (de_num e).
Proof using. intros Hl. rewrite load_ok by lia. done. Qed.

Lemma dirlookup_loop_ok nm n fuel : ∀ s j, txn s V F ∅ → icache s !! dp = Some x → named DIRSIZ nm →
  (length (dirents (content x V)) - j < fuel)%nat → (j ≤ length (dirents (content x V)))%nat → n = cname DIRSIZ nm →
  ∃ s', dirlookup_loop true devread fuel dp nm (16 * Z.of_nat j) s =
      lookup_result s' (prod_map (Nat.add j) id <$> list_find (de_is n) (drop j (dirents (content x V)))) ∧
    txn s' V F ∅ ∧ stable s s'.
Proof using Hv HV Hx Hdir H16.
  destruct dir_size as [Hsz Hlt]. set (ents := dirents (content x V)) in *.
  induction fuel as [|fuel IH]; intros s j Htx Hic Hnm Hf Hj Hn; [lia|]. cbn [dirlookup_loop].
  assert (get_inode dp s = Ok (x, s)) as Hg by (unfold get_inode; by rewrite Hic). rewrite (bind_ok _ _ _ _ _ Hg).
  destruct (ents !! j) as [e|] eqn:He.
  - pose proof (lookup_lt_Some _ _ _ He) as Hjl. rewrite bool_decide_eq_true_2 by lia.
    destruct (read_dirent s j e Htx Hic He) as (s1 & R & T1 & S1 & Hel & Hby). rewrite (bind_ok _ _ _ _ _ R).
    rewrite bool_decide_eq_false_2 by (by intros []). rewrite (bind_ok _ _ s1 (de_num e) s1) by (unfold lift; by rewrite de_load).
    destruct (namecmp_ok nm (drop 2 e) Hnm) as (c & Hc & Hiff); [apply named_length; rewrite length_drop, Hel; done|].
    rewrite (drop_S _ _ _ He). cbn [list_find].
    assert (∃ s', dirlookup_loop true devread fuel dp nm (16 * Z.of_nat (S j)) s1 =
      lookup_result s' (prod_map (Nat.add (S j)) id <$> list_find (de_is n) (drop (S j) ents)) ∧ txn s' V F ∅ ∧ stable s1 s') as (s2 & R2 & T2 & S2)
      by (apply IH; [done|by rewrite (sta_icache _ _ S1)|done|lia|lia|done]).
    assert (u32 (16 * Z.of_nat j + DE) = 16 * Z.of_nat (S j)) as Hoff by (unfold DE; rewrite u32_small; lia).
    destruct (decide (de_num e = 0)) as [H0|H0].
    + rewrite bool_decide_eq_true_2 by done. rewrite decide_False by (by intros [? _]). rewrite Hoff, R2.
      exists s2. split; [|split; [done|by etransitivity]]. f_equal. destruct (list_find _ (drop (S j) ents)) as [[i y]|]; simpl; [|done]. do 2 f_equal. lia.
    + rewrite bool_decide_eq_false_2 by done. rewrite (bind_ok _ _ s1 c s1) by (unfold lift; by rewrite Hc).
      destruct (decide (c = 0)) as [Hc0|Hc0].
      * rewrite bool_decide_eq_true_2 by done. rewrite decide_True by (split; [done|]; rewrite Hn; symmetry; by apply Hiff).
        exists s1. split; [|done]. simpl. rewrite Nat.add_0_r. by rewrite (fo_dev _ _ _ Hx).
      * rewrite bool_decide_eq_false_2 by done. rewrite decide_False by (intros [_ E]; apply Hc0, Hiff; by rewrite <- Hn, <- E).
        rewrite Hoff, R2. exists s2. split; [|split; [done|by etransitivity]].
        f_equal. destruct (list_find _ (drop (S j) ents)) as [[i y]|]; simpl; [|done]. do 2 f_equal. lia.
  - apply lookup_ge_None in He. rewrite bool_decide_eq_false_2 by lia. rewrite drop_ge by lia. by exists s.
Qed.

Lemma dirlookup_ok nm s : txn s V F ∅ → icache s !! dp = Some x → named DIRSIZ nm →
  ∃ s', dirlookup true devread dp nm s = lookup_result s' (list_find (de_is (cname DIRSIZ nm)) (dirents (content x V))) ∧
    txn s' V F ∅ ∧ stable s s'.
Proof using Hv HV Hx Hdir H16.
  intros Htx Hic Hnm. destruct dir_size as [Hsz Hlt]. unfold dirlookup.
  assert (get_inode dp s = Ok (x, s)) as Hg by (unfold get_inode; by rewrite Hic). rewrite (bind_ok _ _ _ _ _ Hg).
  rewrite bool_decide_eq_false_2 by (rewrite Hdir; by intros []).
  destruct (dirlookup_loop_ok nm (cname DIRSIZ nm) (dir_fuel (isize x)) s 0 Htx Hic Hnm) as (s' & R & T & S); [|lia|done|].
  { unfold dir_fuel, DE. rewrite Hsz. rewrite Z.mul_comm, Z.div_mul by lia. lia. }
  exists s'. split; [|done]. change (16 * Z.of_nat 0) with 0 in R. rewrite R, drop_0. f_equal.
  destruct (list_find _ _) as [[i y]|]; done.
Qed.
End dir.
