(* ===== verification/FsDirlink.v ===== *)
(** * Adding a directory entry *)
From stdpp Require Import base numbers list gmap sets strings.
From S2P Require Import Prelude Bytes XString Bio Log LogFacts Fs FsFacts FsBlocks FsInode FsIO FsDinode FsUpdate FsDir.
#[local] Open Scope Z_scope.

(** The sixteen bytes of an entry: the name is cut to [DIRSIZ] bytes or padded. *)
Definition new_entry (num : Z) (nm : list Z) : list Z :=
  le_bytes 2 num ++ take DIRSIZ (cname DIRSIZ nm ++ replicate DIRSIZ 0).

Lemma cname_prefix n s : named n s →
  ∃ r, s = cname n s ++ r ∧ ((length (cname n s) < n)%nat → ∃ r', r = 0 :: r').
Proof.
  revert s. induction n as [|n IH]; intros s Hs; [exists s; split; [done|simpl; lia]|]. destruct s as [|c s]; [done|]. cbn [cname].
  case_bool_decide as Hc; [subst; exists (0 :: s); eauto|]. destruct Hs as [|Hs]; [done|]. destruct (IH s Hs) as (r & E & Hr).
  exists r. split; [simpl; by rewrite <- E|]. simpl. intros Hl. apply Hr. lia.
Qed.
Lemma cname_length n s : (length (cname n s) ≤ n)%nat.
Proof. revert s. induction n as [|n IH]; intros [|c s]; simpl; try lia. case_bool_decide; simpl; [lia|]. pose proof (IH s). lia. Qed.
Lemma cname_cstr n s : Forall byte_ok s → cstr_ok (cname n s).
Proof.
  revert s. induction n as [|n IH]; intros [|c s] Hs; simpl; try constructor. apply Forall_cons in Hs as [Hc Hs].
  case_bool_decide; constructor; [unfold byte_ok in *; lia|by apply IH].
Qed.
(** Padding does not change a name. *)
Lemma cname_padded n k s : cstr_ok s → (length s ≤ n)%nat → cname n (take n (s ++ replicate k 0)) = s.
Proof.
  intros Hs. revert n. induction Hs as [|c s Hc _ IH]; intros n Hl.
  - destruct n as [|n], k as [|k]; done.
  - destruct n as [|n]; [simpl in Hl; lia|]. simpl. rewrite bool_decide_eq_false_2 by lia. f_equal. apply IH. simpl in Hl. lia.
Qed.

Lemma length_new_entry num nm : length (new_entry num nm) = 16%nat.
Proof.
  unfold new_entry. rewrite length_app, length_le_bytes, length_take, length_app, length_replicate. unfold DIRSIZ. lia.
Qed.
Lemma new_entry_bytes num nm : Forall byte_ok nm → Forall byte_ok (new_entry num nm).
Proof.
  intros Hn. apply Forall_app. split; [apply le_bytes_ok|]. apply Forall_take, Forall_app. split; [|by apply Forall_replicate].
  eapply Forall_impl; [by apply (cname_cstr DIRSIZ)|]. unfold byte_ok. intros; lia.
Qed.
Lemma new_entry_is num nm : Forall byte_ok nm → 0 < num < 2^16 → de_num (new_entry num nm) = num ∧ de_is (cname DIRSIZ nm) (new_entry num nm).
Proof.
  intros Hb Hn. assert (de_num (new_entry num nm) = num) as E.
  { unfold de_num, new_entry. rewrite take_app_length' by (by rewrite length_le_bytes). rewrite le_val_bytes. apply Z.mod_small. change (2 ^ (8 * Z.of_nat 2)) with (2^16). lia. }
  split; [done|]. split; [lia|]. unfold de_name, new_entry. rewrite drop_app_length' by (by rewrite length_le_bytes).
  apply cname_padded; [by apply cname_cstr|apply cname_length].
Qed.

(** What the code builds in [de]. *)
Lemma build_entry de nm num : length de = 16%nat → named DIRSIZ nm → Forall byte_ok nm →
  ∃ m, strncpy (drop 2 de ++ nm) 0 (Z.of_nat DIRSIZ) (Z.of_nat DIRSIZ) = Ok m ∧ store 2 (take 2 de ++ take DIRSIZ m) 0 num = Ok (new_entry num nm).
Proof.
  intros Hde Hnm Hby. destruct (cname_prefix DIRSIZ nm Hnm) as (r & E & Hr).
  assert (length (drop 2 de) = DIRSIZ) as Hd by (rewrite length_drop, Hde; done).
  assert (at_addr (drop 2 de ++ nm) (Z.of_nat DIRSIZ) nm) as Hat by (rewrite <- Hd; apply at_addr_app_r).
  eexists. split.
  - apply (strncpy_run _ _ _ _ (cname DIRSIZ nm)); [by apply cname_cstr| | |lia|lia| |right; lia].
    + rewrite E in Hat at 2. by eapply at_addr_prefix.
    + intros Hlt. destruct Hr as [r' ->]; [lia|]. rewrite E in Hat at 2. rewrite (app_assoc _ [0] r') in Hat. by eapply at_addr_prefix.
    + rewrite length_app, Hd. lia.
  - rewrite Nat2Z.id. set (t := take DIRSIZ (cname DIRSIZ nm ++ replicate DIRSIZ 0)).
    assert (length t = DIRSIZ) as Ht by (unfold t; rewrite length_take, length_app, length_replicate; lia).
    assert (take DIRSIZ (splice (drop 2 de ++ nm) (Z.to_nat 0) t) = t) as ->.
    { unfold splice. rewrite take_0, app_nil_l. rewrite take_app_length' by done. done. }
    rewrite store_ok; [|lia|rewrite length_app, Ht, length_take, Hde; unfold DIRSIZ; lia].
    unfold splice. simpl Z.to_nat. rewrite take_0, app_nil_l, length_le_bytes, Nat.add_0_l.
    rewrite drop_app_length' by (rewrite length_take; lia). done.
Qed.

(** The entries after a write of one of them. *)
Lemma dirents_splice l j e : (length l `mod` 16 = 0)%nat → (16 * j ≤ length l)%nat → length e = 16%nat →
  dirents (splice l (16 * j) e) = if decide (j < length (dirents l))%nat then <[j := e]> (dirents l) else dirents l ++ [e].
Proof.
  intros Hl Hj He. rewrite length_dirents.
  assert (length l = 16 * (length l / 16))%nat as Hl' by (pose proof (Nat.div_mod_eq (length l) 16); lia). set (n := (length l / 16)%nat) in *.
  assert (length (dirents l) = n) as Hdl by (by rewrite length_dirents).
  case_decide as Hjn.
  - assert (length (splice l (16 * j) e) = length l) as Hsl by (apply length_splice; lia).
    apply list_eq. intros i. destruct (decide (i < n)%nat) as [Hi|Hi].
    + rewrite lookup_dirents by lia. destruct (decide (i = j)) as [->|Hne].
      * rewrite list_lookup_insert_eq by lia. pose proof (slice_splice_same l (16 * j) e ltac:(lia)) as Hss. rewrite He in Hss.
        unfold dirent. by rewrite Hss.
      * rewrite list_lookup_insert_ne, lookup_dirents by lia. unfold dirent. rewrite slice_splice_other by lia. done.
    + rewrite !lookup_ge_None_2; [done|rewrite length_insert; lia|]. rewrite length_dirents, Hsl. fold n. lia.
  - assert (j = n) as -> by lia. assert (splice l (16 * n) e = l ++ e) as ->.
    { unfold splice. rewrite take_ge, drop_ge by lia. by rewrite app_nil_r. }
    assert (length (dirents (l ++ e)) = S n) as Hs.
    { rewrite length_dirents, length_app, He, Hl'. replace (16 * n + 16)%nat with (S n * 16)%nat by lia. by rewrite Nat.div_mul. }
    apply list_eq. intros i. destruct (decide (i < S n)%nat) as [Hi|Hi].
    + rewrite lookup_dirents by (rewrite length_app; lia). destruct (decide (i = n)) as [->|Hne].
      * rewrite lookup_app_r, Hdl, Nat.sub_diag by lia. unfold dirent, slice. rewrite drop_app_length' by lia. rewrite take_ge by lia. done.
      * rewrite lookup_app_l, lookup_dirents by lia. unfold dirent, slice. rewrite drop_app_le by lia. by rewrite take_app_le by (rewrite length_drop; lia).
    + rewrite !lookup_ge_None_2; [done|rewrite length_app, Hdl; simpl; lia|lia].
Qed.

(** ** [dirlink] *)
Section dirlink.
Context (v : superblock) (Hv : sb_ok v).
Context (devread : Z → option (nat → Z → M fstate (Z * list Z))) (devwrite : Z → option (nat → list Z → Z → M fstate Z)).
Context (dp : nat) (x : inode) (V : gmap Z (list Z)) (F : gset Z) (HV : fs_ok v V) (Hx : file_ok v x V).
Context (Hdir : itype x = T_DIR) (H16 : isize x `mod` DE = 0).
#[local] Abbreviation ents := (dirents (content x V)).

(** The first free entry, or the end. *)
Definition free_slot : nat :=
  match list_find (λ e, de_num e = 0) ents with Some (j, _) => j | None => length ents end.

Lemma free_dirent_ok fuel : ∀ s j de, txn s V F ∅ → icache s !! dp = Some x → length de = 16%nat →
  (length ents - j < fuel)%nat → (j ≤ length ents)%nat →
  ∃ s' de', free_dirent true devread fuel dp (16 * Z.of_nat j) de s =
      Ok ((16 * Z.of_nat (match list_find (λ e, de_num e = 0) (drop j ents) with Some (i, _) => (j + i)%nat | None => length ents end), de'), s') ∧
    txn s' V F ∅ ∧ stable s s' ∧ length de' = 16%nat.
Proof using Hv HV Hx Hdir H16.
  destruct (dir_size v x V Hx H16) as [Hsz Hlt].
  induction fuel as [|fuel IH]; intros s j de Htx Hic Hde Hf Hj; [lia|]. cbn [free_dirent].
  assert (get_inode dp s = Ok (x, s)) as Hg by (unfold get_inode; by rewrite Hic). rewrite (bind_ok _ _ _ _ _ Hg).
  destruct (ents !! j) as [e|] eqn:He.
  - pose proof (lookup_lt_Some _ _ _ He) as Hjl. rewrite bool_decide_eq_true_2 by lia.
    destruct (read_dirent v Hv devread dp x V F HV Hx Hdir H16 s j e Htx Hic He) as (s1 & R & T1 & S1 & Hel & Hby). rewrite (bind_ok _ _ _ _ _ R).
    rewrite bool_decide_eq_false_2 by (by intros []). rewrite (bind_ok _ _ s1 (de_num e) s1) by (unfold lift; by rewrite de_load).
    rewrite (drop_S _ _ _ He). cbn [list_find]. case_bool_decide as H0.
    + rewrite decide_True by done. exists s1, e. rewrite Nat.add_0_r. done.
    + rewrite decide_False by done. destruct (IH s1 (S j) e) as (s2 & de2 & R2 & T2 & S2 & L2); [done|by rewrite (sta_icache _ _ S1)|done|lia|lia|].
      exists s2, de2. replace (16 * Z.of_nat j + DE) with (16 * Z.of_nat (S j)) by (unfold DE; lia). rewrite R2.
      split; [|split; [done|split; [by etransitivity|done]]].
      destruct (list_find _ (drop (S j) ents)) as [[i y]|]; simpl; [|done]. do 4 f_equal. lia.
  - apply lookup_ge_None in He. rewrite bool_decide_eq_false_2 by lia. rewrite drop_ge by lia. simpl.
    exists s, de. assert (j = length ents) as -> by lia. done.
Qed.

Context (Hin : 0 ≤ inum x < ninodes v) (Hdi : dinode_ok x) (Hfull : isize x < MAXFILE * Z.of_nat BSIZE).
Context (HbmF : bmapstart v ∈ F) (HibF : IBLOCK (inum x) v ∈ F) (HiF : ind x ≠ 0 → ind x ∈ F).
Context (HsF : Z.of_nat (size F) + 1 + spare x ≤ 28) (Hfree : 1 + spare x ≤ nfree v V).

Lemma slot_bound : (free_slot ≤ length ents)%nat ∧ 16 * Z.of_nat free_slot + 16 ≤ MAXFILE * Z.of_nat BSIZE ∧
  nblks (16 * Z.of_nat free_slot) 16 = 1.
Proof using Hx H16 Hfull.
  clear - Hx H16 Hfull. destruct (dir_size v x V Hx H16) as [Hsz Hlt]. assert (free_slot ≤ length ents)%nat as Hle.
  { unfold free_slot. destruct (list_find _ ents) as [[j e]|] eqn:E; [|done]. apply list_find_Some in E as (Hl & _).
    apply lookup_lt_Some in Hl. lia. }
  unfold nblks, MAXFILE, NINDIRECT, NDIRECT, BSIZE in *. change (Z.of_nat 512) with 512. split; [done|]. split; [lia|].
  rewrite bool_decide_eq_false_2 by lia. dlia.
Qed.

Lemma dirlink_ok nm num junk s : txn s V F ∅ → sb s = v → icache s !! dp = Some x → named DIRSIZ nm → Forall byte_ok nm → length junk = 16%nat →
  list_find (de_is (cname DIRSIZ nm)) ents = None →
  ∃ s' x' V' F', dirlink true devread devwrite dp nm num junk s = Ok (0, s') ∧
    written v dp (new_entry num nm) (16 * Z.of_nat free_slot) 16 s x V F s' x' V' F' ∧
    dirents (content x' V') = if decide (free_slot < length ents)%nat then <[free_slot := new_entry num nm]> ents else ents ++ [new_entry num nm].
Proof using All.
  intros Htx Hs Hic Hnm Hby Hj Hnone. destruct (dir_size v x V Hx H16) as [Hsz Hlt]. destruct slot_bound as (Hb1 & Hb2 & Hb3).
  unfold dirlink. destruct (dirlookup_ok v Hv devread dp x V F HV Hx Hdir H16 nm s Htx Hic Hnm) as (s1 & R1 & T1 & S1).
  rewrite Hnone in R1. rewrite (bind_ok _ _ _ _ _ R1).
  assert (icache s1 !! dp = Some x) as Hic1 by (by rewrite (sta_icache _ _ S1)).
  assert (get_inode dp s1 = Ok (x, s1)) as Hg by (unfold get_inode; by rewrite Hic1). rewrite (bind_ok _ _ _ _ _ Hg).
  destruct (free_dirent_ok (dir_fuel (isize x)) s1 0 junk T1 Hic1 Hj) as (s2 & de & R2 & T2 & S2 & Hde); [|lia|].
  { unfold dir_fuel, DE. rewrite Hsz. rewrite Z.mul_comm, Z.div_mul by lia. lia. }
  rewrite drop_0 in R2. change (16 * Z.of_nat 0) with 0 in R2. simpl Nat.add in R2.
  assert ((match list_find (λ e, de_num e = 0) ents with Some (i, _) => i | None => length ents end) = free_slot) as Ef by done. rewrite Ef in R2.
  rewrite (bind_ok _ _ _ _ _ R2). destruct (build_entry de nm num Hde Hnm Hby) as (m & Hm & Hst).
  rewrite (bind_ok _ _ s2 m s2) by (unfold lift; by rewrite Hm). rewrite (bind_ok _ _ s2 (new_entry num nm) s2) by (unfold lift; by rewrite Hst).
  assert (stable s s2) as S by (by etransitivity).
  destruct (writei_ok v Hv devwrite dp (new_entry num nm) (16 * Z.of_nat free_slot) 16 s2 x V F) as (r & s3 & R3 & -> & x' & V' & F' & W); try done.
  - by rewrite (sta_sb _ _ S).
  - by rewrite (sta_icache _ _ S).
  - rewrite Hdir. done.
  - lia.
  - rewrite length_new_entry. lia.
  - by apply new_entry_bytes.
  - lia.
  - lia.
  - exists s3, x', V', F'. split; [by rewrite (bind_ok _ _ _ _ _ R3)|]. split.
    + destruct W as [W1 W2 W3 W4 W5 W6 W7 W8 W9 W10 W11 W12 W13 W14 W15]. split; try done. by rewrite W3, (sta_icache _ _ S).
    + rewrite (wn_content _ _ _ _ _ _ _ _ _ _ _ _ _ W). rewrite take_ge by (rewrite length_new_entry; lia).
      replace (Z.to_nat (16 * Z.of_nat free_slot)) with (16 * free_slot)%nat by lia.
      apply dirents_splice; [|rewrite length_content; lia|apply length_new_entry].
      rewrite length_content. apply Nat2Z.inj. rewrite Nat2Z.inj_mod, Z2Nat.id by lia. exact H16.
Qed.
End dirlink.
