(* ===== verification/FsClaims.v ===== *)
(** * The file system: what the operations do

    The statements about blocks, file contents and directories, with an example
    volume on which they apply. *)
From stdpp Require Import base numbers list gmap sets strings.
From S2P Require Import Prelude Bytes XString Bio Log LogFacts LogClaims Fs FsFacts FsBlocks FsInode FsIO FsDinode FsUpdate FsDir FsDirlink.
#[local] Open Scope Z_scope.

(** ** An example volume

    The layout mkfs makes: 1000 blocks, the log in 2 to 31, 200 inodes from block
    32 on, the free map in block 58; inode 1 is an empty directory. *)
Module Vol.
Definition sbv : superblock := mksb 1000 941 200 30 2 32 58.
Definition root : inode := mkinode ROOTDEV 1 1 false true T_DIR 0 0 1 0 (replicate 13 0).
Definition sb_block : list Z := concat (map (le_bytes 4) [1000; 941; 200; 30; 2; 32; 58]) ++ replicate (BSIZE - 28) 0.
Definition map_block : list Z := replicate 7 255 ++ [7] ++ replicate (BSIZE - 8) 0.
Definition inode_blk : list Z := splice zeros 64 (dinode_bytes root).
Definition block (b : Z) : list Z :=
  if bool_decide (b = 1) then sb_block else if bool_decide (b = 32) then inode_blk
  else if bool_decide (b = 58) then map_block else zeros.
Definition disk0 : gmap (Z * Z) (list Z) := LogEx.flat block.
Definition V0 : gmap Z (list Z) := disk_view disk0.
Definition log0 : log := mklog 2 30 1 false ROOTDEV 0 (replicate 30 0).
Definition start0 : fstate := mkfs (mkls (binit (replicate NBUF zero_buf) disk0) log0) sbv (root :: replicate 49 (set_iref 0 root)).
Definition F0 : gset Z := {[58; 32]}.

Lemma sbv_ok : sb_ok sbv.
Proof. split; simpl; [done|lia|]. unfold IPB. change (200 / 8) with 25. lia. Qed.
Lemma V0_lookup b : 0 ≤ b < FSSIZE → V0 !! b = Some (block b).
Proof. apply LogEx.flat_view. Qed.
Lemma V0_total b : 0 ≤ b < FSSIZE → V0 !!! b = block b.
Proof. intros Hb. apply lookup_total_correct, V0_lookup, Hb. Qed.
Lemma block_all_ok b : block_ok (block b).
Proof.
  unfold block. repeat case_bool_decide; [| | |apply zeros_ok].
  all: split; [vm_compute; reflexivity|]; apply (bool_decide_unpack _); vm_compute; exact I.
Qed.
Lemma fmap0 : fmap_of sbv V0 = map_block.
Proof. unfold fmap_of. rewrite V0_total by (simpl; unfold FSSIZE; lia). reflexivity. Qed.
Lemma meta0 c : 0 ≤ c ≤ 58 → used sbv V0 c.
Proof.
  intros Hc. unfold used. rewrite fmap0. assert (Forall (λ c, bit map_block c = true) (seqZ 0 59)) as Hall
    by (apply (bool_decide_unpack _); vm_compute; exact I).
  rewrite Forall_forall in Hall. apply Hall, elem_of_seqZ. lia.
Qed.
Lemma V0_ok : fs_ok sbv V0.
Proof.
  split.
  - intros b Hb. exists (block b). split; [by apply V0_lookup|apply block_all_ok].
  - exact meta0.
  - exists sb_block. split; [by apply (V0_lookup 1)|]. repeat split; vm_compute; reflexivity.
Qed.
Lemma vol_free : nfree sbv V0 = 941.
Proof. unfold nfree. rewrite fmap0. vm_compute. reflexivity. Qed.

Lemma blk0 k : blk root V0 k = 0.
Proof.
  unfold blk. case_bool_decide as Hk; [|by rewrite bool_decide_eq_true_2]. unfold root. cbn [iaddrs]. unfold NDIRECT in Hk.
  apply list_lookup_total_correct, lookup_replicate_2. lia.
Qed.
Lemma root_ok : file_ok sbv root V0.
Proof.
  split.
  - done.
  - done.
  - simpl. unfold MAXFILE, NINDIRECT, NDIRECT, BSIZE. lia.
  - intros k _ Hz. destruct Hz. apply blk0.
  - intros Hz. by destruct Hz.
  - intros i j _ _ Hz. destruct Hz. apply blk0.
  - intros k _ Hz. destruct Hz. apply blk0.
  - intros k Hk Hlt. simpl in Hlt. lia.
Qed.
Lemma root_dinode : dinode_ok root.
Proof. split; try (unfold short_ok; simpl; unfold T_DIR; lia); [done|]. by apply Forall_replicate. Qed.
Lemma root_synced : synced sbv root V0.
Proof. unfold synced. rewrite V0_total by (vm_compute; split; congruence). vm_compute. reflexivity. Qed.

Lemma start_txn : txn start0 V0 F0 ∅.
Proof.
  split; [|apply (bool_decide_unpack _); vm_compute; exact I|done|done]. exists []. split_and!.
  - apply binit_inv.
  - split; done.
  - constructor.
  - apply empty_subseteq.
  - intros b Hb. destruct (not_elem_of_empty b Hb).
Qed.
End Vol.

(** ** Blocks *)
Section claims.
Context (v : superblock) (Hv : sb_ok v).

(** Setting and clearing a bit gives the free map back. *)
Lemma clear_set d b : block_ok d → 0 ≤ b < BPB → bit d b = false → clear_bit (set_bit d b) b = d.
Proof using.
  intros Hd Hb Hz. destruct (bit_byte d Hd b Hb) as (y & Hy & Ht & Hyb & Hl & _). pose proof (Z.mod_pos_bound b 8 ltac:(lia)) as Hm.
  unfold bit in Hz. rewrite Ht in Hz. unfold clear_bit, set_bit. rewrite list_lookup_total_insert_eq, list_insert_insert_eq, Ht by done.
  apply list_insert_id. rewrite Hy. f_equal. apply Z.bits_inj'. intros j Hj.
  rewrite Z.land_spec, Z.lnot_spec, Z.lor_spec, testbit_shiftl_1 by lia. case_bool_decide; [by subst; rewrite Hz|]. by rewrite orb_false_r, andb_true_r.
Qed.

(** The block allocator.  On a well-formed volume inside a transaction, [balloc]
    returns the lowest block whose bit in the free map is clear, sets that bit and
    no other, zeroes the block and changes no other block; giving the block back
    with [bfree] restores the free map.  With every bit set [balloc] stops the
    machine, and so does [bfree] of a block that is free. *)
Theorem block_allocator s V F : fs_ok v V → txn s V F ∅ → sb s = v → bmapstart v ∈ F → (size F < 28)%nat →
  (∀ b, first_free (fmap_of v V) (sb_size v) b →
    runs (balloc true ROOTDEV) s (λ a s', a = b ∧ bmapstart v < b < sb_size v ∧ ∃ V', txn s' V' ({[b]} ∪ F) ∅ ∧ fs_ok v V' ∧
      V' !! b = Some zeros ∧ (∀ c, c ≠ b → c ≠ bmapstart v → V' !! c = V !! c) ∧ (∀ c, 0 ≤ c → used v V' c ↔ c = b ∨ used v V c) ∧
      runs (bfree true ROOTDEV b) s' (λ _ s2, ∃ V2, txn s2 V2 ({[b]} ∪ F) ∅ ∧ fmap_of v V2 = fmap_of v V))) ∧
  ((∀ c, 0 ≤ c < sb_size v → used v V c) → balloc true ROOTDEV s = Fault (Panic "balloc: out of blocks")) ∧
  (∀ b, 0 ≤ b < FSSIZE → ¬ used v V b → bfree true ROOTDEV b s = Fault (Panic "freeing free block")).
Proof using Hv.
  intros HV Htx Hs HbmF HsF. pose proof (fs_sb _ _ HV) as (d & Hd1 & Hd2).
  assert (bmapstart v ∉ (∅ : gset Z)) as HbmH by set_solver. assert (size (∅ : gset Z) ≤ 1)%nat as HszH by (rewrite size_empty; lia).
  assert (1 ∉ (∅ : gset Z)) as H1H by set_solver. split_and!.
  - intros b Hb. pose proof (fresh_range v Hv V HV b Hb) as [Hr HB]. pose proof (size_add b F) as Hsz. pose proof Hb as (_ & Hbit & _).
    eapply runs_mono; [apply (balloc_ok v Hv s V F ∅ Htx Hs (fs_vol _ _ HV) HbmF HbmH HszH b Hb); [set_solver|lia]|].
    intros a s' (-> & T & S). split; [done|]. split; [done|]. pose proof (alloc_fs v Hv V HV b Hb) as HV'. exists (alloc_view v V b).
    split; [done|]. split; [done|]. split; [apply alloc_new|]. split; [intros c H1 H2; by apply alloc_lookup|].
    split; [intros c Hc; by apply (alloc_used v Hv V HV b Hb)|].
    destruct (fs_sb _ _ HV') as (d' & Hd1' & Hd2'). eapply runs_mono.
    + apply (bfree_ok v Hv s' _ ({[b]} ∪ F) ∅ T) with (d := d'); [by rewrite (sta_sb _ _ S)|apply HV'|set_solver|done|done|done|done|done| |].
      * pose proof (so_size _ Hv). unfold FSSIZE in *. pose proof (so_bmap _ Hv). lia.
      * apply (alloc_used v Hv V HV b Hb); [lia|by left].
    + intros [] s2 [T2 S2]. eexists. split; [exact T2|]. unfold fmap_of at 1. rewrite lookup_total_insert_eq.
      rewrite (alloc_fmap v Hv V HV b Hb). apply clear_set; [apply (fmap_ok v Hv V HV)|done|done].
  - intros Hall. by apply (balloc_full v Hv s V F ∅ Htx Hs (fs_vol _ _ HV) HbmF HbmH HszH).
  - intros b Hb Hu. apply (bfree_free v Hv s V F ∅ Htx Hs (fs_vol _ _ HV) HbmF HbmH HszH d b Hd1 Hd2 H1H Hb).
    unfold used in Hu. by destruct (bit _ _).
Qed.

(** ** File contents *)

(** C24: [writei] writes.  For an inode whose blocks are its own, [n] bytes written at
    an offset inside the file (at most [MAXFILE] blocks in all) are accepted whole
    when the blocks they need are free and fit in the transaction: with a set of
    blocks that has what is logged so far, the bitmap's block, the inode's block and
    the indirect block if there is one, and with one more block for each block of the
    range and one for an indirect block still to be allocated, at most 28.  The content
    becomes the old one with the bytes in place, the size the larger of the old one
    and the end of the write, the inode's blocks stay its own, the copy of the
    inode on the disk stays up to date, and no block or inode of any other file
    changes; and what is logged afterwards is in that set widened by at most those
    blocks. *)
Theorem writei_refines devwrite ip src off n s x V F :
  fs_ok v V → file_ok v x V → txn s V F ∅ → sb s = v → icache s !! ip = Some x →
  0 ≤ inum x < ninodes v → dinode_ok x → itype x ≠ T_DEV →
  0 ≤ off ≤ isize x → 0 ≤ n ≤ Z.of_nat (length src) → off + n ≤ MAXFILE * Z.of_nat BSIZE → Forall byte_ok src →
  bmapstart v ∈ F → IBLOCK (inum x) v ∈ F → (ind x ≠ 0 → ind x ∈ F) →
  Z.of_nat (size F) + nblks off n + spare x ≤ 28 → nblks off n + spare x ≤ nfree v V →
  ∃ s' x' V' F', writei true devwrite ip src off n s = Ok (n, s') ∧ written v ip src off n s x V F s' x' V' F'.
Proof using Hv.
  intros. destruct (writei_ok v Hv devwrite ip src off n s x V F) as (r & s' & Hr & -> & x' & V' & F' & Hw); try done. by exists s', x', V', F'.
Qed.

(** C25: [readi] reads.  It delivers exactly the bytes of the file from an offset
    inside it on, as many as asked for or as there are up to the end, and changes
    neither the blocks nor the inode; an offset past the end gives -1.  And what
    [writei] wrote is what [readi] then reads: from every state in which the
    conditions of a whole write hold (those of [writei]'s claim), the write succeeds
    and a read at any offset of the new file and of any length delivers the old
    content with the written bytes in place.  Offset and length of a read are
    together below 2^32. *)
Theorem readi_exact devread ip s x V F off n :
  fs_ok v V → file_ok v x V → txn s V F ∅ → icache s !! ip = Some x → itype x ≠ T_DEV →
  0 ≤ off → 0 ≤ n → off + n < 2^32 →
  (off ≤ isize x → ∃ s1, readi true devread ip off n s =
    Ok ((Z.min n (isize x - off), slice (content x V) (Z.to_nat off) (Z.to_nat (Z.min n (isize x - off)))), s1) ∧ txn s1 V F ∅ ∧ stable s s1) ∧
  (isize x < off → readi true devread ip off n s = Ok ((-1, []), s)) ∧
  (∀ devwrite src off' n', sb s = v → 0 ≤ inum x < ninodes v → dinode_ok x →
    0 ≤ off' ≤ isize x → 0 ≤ n' ≤ Z.of_nat (length src) → off' + n' ≤ MAXFILE * Z.of_nat BSIZE → Forall byte_ok src →
    bmapstart v ∈ F → IBLOCK (inum x) v ∈ F → (ind x ≠ 0 → ind x ∈ F) →
    Z.of_nat (size F) + nblks off' n' + spare x ≤ 28 → nblks off' n' + spare x ≤ nfree v V →
    let size' := Z.max (isize x) (off' + n') in
    ∃ s', writei true devwrite ip src off' n' s = Ok (n', s') ∧
      (off ≤ size' → ∃ s1, readi true devread ip off n s' =
        Ok ((Z.min n (size' - off),
             slice (splice (content x V) (Z.to_nat off') (take (Z.to_nat n') src)) (Z.to_nat off) (Z.to_nat (Z.min n (size' - off)))), s1))).
Proof using Hv.
  intros HV Hx Htx Hic Hty Ho Hn Hov. split_and!.
  - intros Hle. destruct (readi_ok v Hv ip x V F HV Hx devread s off n Htx Hic Hty) as (p & s1 & R & -> & T & S); [lia..|]. by exists s1.
  - intros Hle. unfold readi. rewrite (bind_ok _ _ _ x s) by (unfold get_inode; by rewrite Hic).
    rewrite (bool_decide_eq_false_2 (itype x = T_DEV)) by done. by rewrite bool_decide_eq_true_2 by lia.
  - intros devwrite src off' n' Hsb Hin Hd Ho' Hn' Hmax Hb F1 F2 F3 Hsp Hfr size'.
    destruct (writei_ok v Hv devwrite ip src off' n' s x V F) as (r & s' & Hr & -> & x' & V' & F' & [W1 W2 W3 W4 W5 W6 (_ & Wt & _) W8 W9 W10 W11 W12 W13 W14 W15]); try done.
    exists s'. split; [done|]. unfold size'. rewrite <- W8. intros Hle.
    destruct (readi_ok v Hv ip x' V' F' W5 W4 devread s' off n W1) as (p & s1 & R & -> & _); [|by rewrite Wt|lia..|].
    + rewrite W3. apply list_lookup_insert_eq. by eapply lookup_lt_Some.
    + exists s1. by rewrite W9 in R.
Qed.
End claims.

Module VolEx.
Import Vol.
Lemma first0 : first_free (fmap_of sbv V0) (sb_size sbv) 59.
Proof.
  rewrite fmap0. split; [simpl; lia|]. split; [vm_compute; reflexivity|]. intros c Hc. pose proof (meta0 c ltac:(lia)) as Hu.
  unfold used in Hu. by rewrite fmap0 in Hu.
Qed.
Lemma F0_small : (size F0 < 28)%nat.
Proof. apply (bool_decide_unpack _). vm_compute. exact I. Qed.
Lemma F0_bm : bmapstart sbv ∈ F0.
Proof. apply (bool_decide_unpack _). vm_compute. exact I. Qed.
Lemma F0_ib : IBLOCK (inum root) sbv ∈ F0.
Proof. apply (bool_decide_unpack _). vm_compute. exact I. Qed.
Definition no_read : Z → option (nat → Z → M fstate (Z * list Z)) := λ _, None.
Definition no_write : Z → option (nat → list Z → Z → M fstate Z) := λ _, None.
Definition abc : list Z := [97; 98; 99].
Lemma abc_bytes : Forall byte_ok abc.
Proof. repeat constructor; lia. Qed.
Lemma space0 n : 0 < n ≤ 16 → Z.of_nat (size F0) + nblks 0 n + spare root ≤ 28 ∧ nblks 0 n + spare root ≤ nfree sbv V0.
Proof.
  intros Hn. rewrite vol_free. assert (nblks 0 n = 1) as ->.
  { unfold nblks, BSIZE. rewrite bool_decide_eq_false_2 by lia. change (Z.of_nat 512) with 512. change (0 / 512) with 0. rewrite Z.div_small by lia. lia. }
  change (spare root) with 1. change (size F0) with 2%nat. lia.
Qed.
End VolEx.

Lemma block_allocator_witness : ∃ s', balloc true ROOTDEV Vol.start0 = Ok (59, s').
Proof.
  destruct (block_allocator Vol.sbv Vol.sbv_ok Vol.start0 Vol.V0 Vol.F0 Vol.V0_ok Vol.start_txn eq_refl VolEx.F0_bm VolEx.F0_small) as [Ha _].
  destruct (Ha 59 VolEx.first0) as (a & s' & Hr & -> & _). exists s'. exact Hr.
Defined.

Lemma writei_refines_witness : ∃ s' x' V', writei true VolEx.no_write 0 VolEx.abc 0 3 Vol.start0 = Ok (3, s') ∧ content x' V' = VolEx.abc.
Proof.
  destruct (VolEx.space0 3 ltac:(lia)) as [Hs Hf].
  destruct (writei_refines Vol.sbv Vol.sbv_ok VolEx.no_write 0 VolEx.abc 0 3 Vol.start0 Vol.root Vol.V0 Vol.F0 Vol.V0_ok Vol.root_ok Vol.start_txn
    eq_refl eq_refl ltac:(simpl; lia) Vol.root_dinode ltac:(discriminate) ltac:(simpl; lia) ltac:(simpl; lia)
    ltac:(unfold MAXFILE, NINDIRECT, NDIRECT, BSIZE; lia) VolEx.abc_bytes VolEx.F0_bm VolEx.F0_ib ltac:(intros Hz; destruct Hz; reflexivity) Hs Hf)
    as (s' & x' & V' & F' & Hr & Hw).
  exists s', x', V'. split; [exact Hr|]. rewrite (wn_content _ _ _ _ _ _ _ _ _ _ _ _ _ Hw). reflexivity.
Defined.

Lemma readi_exact_witness : ∃ s' s1, writei true VolEx.no_write 0 VolEx.abc 0 3 Vol.start0 = Ok (3, s') ∧
  readi true VolEx.no_read 0 1 10 s' = Ok ((2, [98; 99]), s1).
Proof.
  destruct (VolEx.space0 3 ltac:(lia)) as [Hs Hf].
  destruct (readi_exact Vol.sbv Vol.sbv_ok VolEx.no_read 0 Vol.start0 Vol.root Vol.V0 Vol.F0 1 10
    Vol.V0_ok Vol.root_ok Vol.start_txn eq_refl ltac:(discriminate) ltac:(lia) ltac:(lia) ltac:(lia)) as (_ & _ & H3).
  destruct (H3 VolEx.no_write VolEx.abc 0 3 eq_refl ltac:(simpl; lia) Vol.root_dinode ltac:(simpl; lia) ltac:(simpl; lia)
    ltac:(unfold MAXFILE, NINDIRECT, NDIRECT, BSIZE; lia) VolEx.abc_bytes VolEx.F0_bm VolEx.F0_ib ltac:(intros Hz; destruct Hz; reflexivity) Hs Hf)
    as (s' & Hr & H2).
  destruct (H2 ltac:(simpl; lia)) as (s1 & Hr1). exists s', s1. split; [exact Hr|]. exact Hr1.
Defined.

(** What [readi] and [writei] refuse, without touching anything: an offset past
    the end, an offset and length whose sum wraps around 32 bits, a write that
    would end past [MAXFILE] blocks, and a device without a driver. *)
Theorem io_refused devread devwrite ip src off n s x : icache s !! ip = Some x → 0 ≤ off < 2^32 → 0 ≤ n < 2^32 →
  let bad_dev := itype x = T_DEV ∧ ¬ (0 ≤ imajor x < NDEV) in
  let bad_range := itype x ≠ T_DEV ∧ (isize x < off ∨ 2^32 ≤ off + n) in
  (bad_dev ∨ (itype x = T_DEV ∧ devread (imajor x) = None) ∨ bad_range → readi true devread ip off n s = Ok ((-1, []), s)) ∧
  (bad_dev ∨ (itype x = T_DEV ∧ devwrite (imajor x) = None) ∨ bad_range ∨
    (itype x ≠ T_DEV ∧ off + n < 2^32 ∧ MAXFILE * Z.of_nat BSIZE < off + n) → writei true devwrite ip src off n s = Ok (-1, s)).
Proof.
  intros Hic Ho Hn. cbv zeta. assert (get_inode ip s = Ok (x, s)) as Hg by (unfold get_inode; by rewrite Hic).
  assert (2^32 ≤ off + n → u32 (off + n) < off) as Hwrap.
  { intros Hw. unfold u32. change (2^32) with 4294967296 in *. dlia. }
  unfold readi, writei. rewrite !(bind_ok _ _ _ _ _ Hg). split.
  - intros [[Ht Hm]|[[Ht Hm]|[Ht Hr]]].
    + rewrite bool_decide_eq_true_2, bool_decide_eq_true_2 by (done || lia). done.
    + rewrite bool_decide_eq_true_2, Hm by done. by case_bool_decide.
    + rewrite bool_decide_eq_false_2, bool_decide_eq_true_2 by (done || (destruct Hr; [by left|right; by apply Hwrap])). done.
  - intros [[Ht Hm]|[[Ht Hm]|[[Ht Hr]|(Ht & Hw & Hr)]]].
    + rewrite bool_decide_eq_true_2, bool_decide_eq_true_2 by (done || lia). done.
    + rewrite bool_decide_eq_true_2, Hm by done. by case_bool_decide.
    + rewrite bool_decide_eq_false_2, bool_decide_eq_true_2 by (done || (destruct Hr; [by left|right; by apply Hwrap])). done.
    + rewrite bool_decide_eq_false_2 by done. case_bool_decide; [done|]. rewrite u32_small by lia. by rewrite bool_decide_eq_true_2.
Qed.
Lemma io_refused_witness : readi true VolEx.no_read 0 1 10 Vol.start0 = Ok ((-1, []), Vol.start0) ∧
  writei true VolEx.no_write 0 [] 0 71681 Vol.start0 = Ok (-1, Vol.start0).
Proof.
  split.
  - apply (io_refused VolEx.no_read VolEx.no_write 0 [] 1 10 Vol.start0 Vol.root eq_refl ltac:(lia) ltac:(lia)).
    right. right. split; [discriminate|left; simpl; lia].
  - apply (io_refused VolEx.no_read VolEx.no_write 0 [] 0 71681 Vol.start0 Vol.root eq_refl ltac:(lia) ltac:(lia)).
    right. right. right. split; [discriminate|]. split; [lia|]. unfold MAXFILE, NINDIRECT, NDIRECT, BSIZE. lia.
Defined.

(** ** Directories *)
Lemma list_find_insert {X} (P : X → Prop) `{∀ x, Decision (P x)} (l : list X) j e : list_find P l = None → P e → (j < length l)%nat →
  list_find P (<[j := e]> l) = Some (j, e).
Proof.
  intros Hn He. revert j. apply list_find_None in Hn. induction Hn as [|y l Hy _ IH]; intros [|j] Hj; simpl in *; try lia.
  - by rewrite decide_True.
  - rewrite decide_False by done. rewrite IH by lia. done.
Qed.
Lemma list_find_snoc {X} (P : X → Prop) `{∀ x, Decision (P x)} (l : list X) e : list_find P l = None → P e →
  list_find P (l ++ [e]) = Some (length l, e).
Proof.
  intros Hn He. apply list_find_None in Hn. induction Hn as [|y l Hy _ IH]; simpl.
  - by rewrite decide_True.
  - rewrite decide_False by done. by rewrite IH.
Qed.

Section dirs.
Context (v : superblock) (Hv : sb_ok v).

(** C27: a name linked into a directory is found there.  In a directory without the
    name, with room and a transaction to write it in, [dirlink] puts the entry into
    the first free slot, or at the end, and changes no other entry; [dirlookup] of
    the name, cut to [DIRSIZ] bytes on both sides, then returns the inode that was
    linked and the offset of that slot. *)
Theorem dirlink_then_lookup devread devwrite dp nm num junk s x V F :
  fs_ok v V → file_ok v x V → txn s V F ∅ → sb s = v → icache s !! dp = Some x → itype x = T_DIR → isize x `mod` DE = 0 →
  0 ≤ inum x < ninodes v → dinode_ok x → isize x < MAXFILE * Z.of_nat BSIZE →
  bmapstart v ∈ F → IBLOCK (inum x) v ∈ F → (ind x ≠ 0 → ind x ∈ F) →
  Z.of_nat (size F) + 1 + spare x ≤ 28 → 1 + spare x ≤ nfree v V →
  named DIRSIZ nm → Forall byte_ok nm → 0 < num < 2^16 → length junk = 16%nat →
  list_find (de_is (cname DIRSIZ nm)) (dirents (content x V)) = None →
  let j := free_slot x V in
  ∃ s' s2 x' V' F', dirlink true devread devwrite dp nm num junk s = Ok (0, s') ∧
    written v dp (new_entry num nm) (16 * Z.of_nat j) 16 s x V F s' x' V' F' ∧
    (∀ i, i ≠ j → dirents (content x' V') !! i = dirents (content x V) !! i) ∧
    dirlookup true devread dp nm s' = (ip ← iget ROOTDEV num; mret (Some (ip, 16 * Z.of_nat j))) s2 ∧ stable s' s2.
Proof using Hv.
  intros HV Hx Htx Hs Hic Hdir H16 Hin Hdi Hfull H1 H2 H3 H4 H5 Hnm Hby Hnum Hj Hnone j.
  destruct (new_entry_is num nm Hby Hnum) as [En Eis].
  destruct (dirlink_ok v Hv devread devwrite dp x V F HV Hx Hdir H16 Hin Hdi Hfull H1 H2 H3 H4 H5 nm num junk s Htx Hs Hic Hnm Hby Hj Hnone)
    as (s' & x' & V' & F' & Hr & Hw & He). fold j in Hw, He.
  destruct (slot_bound v x V Hx H16 Hfull) as (Hle & Hb2 & _). fold j in Hle, Hb2. pose proof Hw as [W1 W2 W3 W4 W5 W6 (_ & Wt & _) W8 W9 W10 W11 W12 W13 W14 W15].
  destruct (dir_size v x V Hx H16) as [Hsz _].
  assert (isize x' `mod` DE = 0) as H16'.
  { rewrite W8. destruct (Z.max_spec (isize x) (16 * Z.of_nat j + 16)) as [[_ ->]|[_ ->]]; [|done].
    replace (16 * Z.of_nat j + 16) with ((Z.of_nat j + 1) * DE) by (unfold DE; lia). by apply Z.mod_mul. }
  destruct (dirlookup_ok v Hv devread dp x' V' F' W5 W4 ltac:(congruence) H16' nm s' W1) as (s2 & R2 & T2 & S2); [|done|].
  { rewrite W3. apply list_lookup_insert_eq. by eapply lookup_lt_Some. }
  exists s', s2, x', V', F'. split; [done|]. split; [done|]. rewrite He in *. case_decide as Hlt.
  - split; [intros i Hi; by apply list_lookup_insert_ne|]. split; [|done].
    rewrite R2, (list_find_insert _ _ j (new_entry num nm)) by done. simpl. by rewrite En.
  - assert (j = length (dirents (content x V))) as Ej by lia. split; [|split; [|done]].
    + intros i Hi. destruct (decide (i < j)%nat); [by rewrite lookup_app_l by lia|].
      rewrite !lookup_ge_None_2; [done|lia|rewrite length_app; simpl; lia].
    + rewrite R2, (list_find_snoc _ _ (new_entry num nm)) by done. simpl. by rewrite En, <- Ej.
Qed.
End dirs.

Lemma dirlink_then_lookup_witness : ∃ s', dirlink true VolEx.no_read VolEx.no_write 0 (VolEx.abc ++ [0]) 5 (replicate 16 0) Vol.start0 = Ok (0, s').
Proof.
  destruct (VolEx.space0 16 ltac:(lia)) as [Hs Hf]. change (nblks 0 16) with 1 in Hs, Hf.
  destruct (dirlink_then_lookup Vol.sbv Vol.sbv_ok VolEx.no_read VolEx.no_write 0 (VolEx.abc ++ [0]) 5 (replicate 16 0) Vol.start0 Vol.root Vol.V0 Vol.F0
    Vol.V0_ok Vol.root_ok Vol.start_txn eq_refl eq_refl eq_refl eq_refl ltac:(simpl; lia) Vol.root_dinode
    ltac:(simpl; unfold MAXFILE, NINDIRECT, NDIRECT, BSIZE; lia) VolEx.F0_bm VolEx.F0_ib ltac:(intros Hz; destruct Hz; reflexivity) Hs Hf)
    as (s' & _ & _ & _ & _ & Hr & _).
  - right. right. right. left. reflexivity.
  - apply Forall_app. split; [apply VolEx.abc_bytes|repeat constructor; lia].
  - lia.
  - reflexivity.
  - reflexivity.
  - exists s'. exact Hr.
Defined.
