(* ===== verification/FsNames.v ===== *)
(** * Path names and the inode cache

    [skipelem] against the list of a path's elements, the reference counts of the
    inode cache, and the locking of inodes. *)
From stdpp Require Import base numbers list gmap sets strings.
From S2P Require Import Prelude Bytes XString Bio Log LogFacts Fs FsFacts FsBlocks FsInode FsIO FsDinode FsUpdate FsDir FsDirlink.
#[local] Open Scope Z_scope.

(** ** The elements of a path

    The path is split at every slash; empty parts do not count. *)
Fixpoint parts (p : list Z) : list (list Z) :=
  match p with
  | [] => [[]]
  | c :: p => if bool_decide (c = slash) then [] :: parts p
              else match parts p with [] => [[c]] | e :: es => (c :: e) :: es end
  end.
Definition elems (p : list Z) : list (list Z) := filter (λ e, e ≠ []) (parts p).

Lemma parts_cons p : ∃ e es, parts p = e :: es.
Proof. destruct p as [|c p]; simpl; [eauto|]. case_bool_decide; [eauto|]. destruct (parts p); eauto. Qed.
Lemma elems_skip p : elems (skip_slashes p) = elems p.
Proof.
  induction p as [|c p IH]; [done|]. simpl. case_bool_decide as Hc; [|done]. rewrite IH. unfold elems. simpl. by rewrite bool_decide_eq_true_2.
Qed.
Lemma skip_head p c r : skip_slashes p = c :: r → c ≠ slash.
Proof. induction p as [|d p IH]; [done|]. simpl. case_bool_decide; [done|]. by intros [= -> ->]. Qed.
Lemma skip_suffix p : ∃ q, p = q ++ skip_slashes p.
Proof.
  induction p as [|c p [q IH]]; [by exists []|]. simpl. case_bool_decide; [|by exists []]. exists (c :: q). simpl. by rewrite <- IH.
Qed.
Lemma skip_nil p : skip_slashes p = [] ↔ elems p = [].
Proof.
  rewrite <- elems_skip. split; [by intros ->|]. intros He. destruct (skip_slashes p) as [|c r] eqn:E; [done|]. exfalso.
  apply skip_head in E. unfold elems in He. simpl in He. rewrite bool_decide_eq_false_2 in He by done. by destruct (parts r).
Qed.
Lemma span_parts p : ∀ s r, span_elem p = (s, r) → parts p = s :: match r with [] => [] | _ :: r => parts r end ∧
  (r = [] ∨ ∃ r', r = slash :: r') ∧ (length r ≤ length p)%nat ∧ p = s ++ r.
Proof.
  induction p as [|c p IH]; intros s r Hs; simpl in Hs; [simplify_eq; simpl; eauto|]. case_bool_decide as Hc.
  - injection Hs as <- <-. simpl. rewrite bool_decide_eq_true_2 by done. subst. eauto 6.
  - destruct (span_elem p) as [s' r'] eqn:E. injection Hs as <- <-. destruct (IH s' r' eq_refl) as (H1 & H2 & H3 & H4).
    simpl. rewrite bool_decide_eq_false_2 by done. rewrite H1. subst p. split; [done|]. split; [done|]. split; [lia|done].
Qed.

(** The [name] array after an element was copied into it. *)
Definition store_name (name e : list Z) : list Z :=
  if bool_decide (DIRSIZ ≤ length e)%nat then take DIRSIZ e else e ++ [0] ++ drop (S (length e)) name.

Lemma skipelem_ok path name : length name = DIRSIZ →
  (elems path = [] ∧ skipelem path name = Ok None) ∨
  (∃ e rest, elems path = e :: elems rest ∧ skipelem path name = Ok (Some (rest, store_name name e)) ∧
    (rest = [] ↔ elems rest = []) ∧ (length rest < length path)%nat ∧ e ≠ [] ∧ (∀ c, c ∈ e → c ∈ path) ∧ (∀ c, c ∈ rest → c ∈ path)).
Proof.
  intros Hn. unfold skipelem. destruct (skip_slashes path) as [|c p] eqn:E; [left; split; [by apply skip_nil|done]|right].
  pose proof (skip_head _ _ _ E) as Hc. destruct (span_elem (c :: p)) as [s r] eqn:Hs. destruct (span_parts _ _ _ Hs) as (H1 & H2 & H3 & H4).
  destruct (skip_suffix path) as [q Hq]. destruct (skip_suffix r) as [q' Hq']. rewrite E in Hq.
  assert (s ≠ []) as Hsn. { intros ->. destruct H2 as [->|[r' ->]]; by simplify_eq/=. }
  exists s, (skip_slashes r). split_and!.
  - rewrite <- (elems_skip path), E, elems_skip. unfold elems. rewrite H1. rewrite filter_cons_True by done. f_equal.
    destruct r as [|d r]; [done|]. destruct H2 as [|[r' [= -> ->]]]; [done|]. cbn [parts]. rewrite bool_decide_eq_true_2 by done.
    by rewrite filter_cons_False by auto.
  - unfold store_name. case_bool_decide as Hlen.
    + rewrite store_bytes_ok by (rewrite ?length_take; lia). cbn [mbind res_bind]. unfold splice. rewrite take_0, app_nil_l.
      rewrite drop_ge by (rewrite length_take; lia). by rewrite app_nil_r.
    + rewrite store_bytes_ok by lia. cbn [mbind res_bind]. rewrite store_bytes_ok; [|lia|rewrite length_splice by lia; simpl; lia].
      cbn [mbind res_bind]. unfold splice at 2. simpl Z.to_nat. rewrite take_0, app_nil_l, Nat2Z.id, Nat.add_0_l.
      unfold splice. rewrite take_app_length. rewrite (drop_app_add' s) by done. rewrite drop_drop.
      replace (length s + length [0%Z])%nat with (S (length s)) by (simpl; lia). done.
  - rewrite elems_skip. apply skip_nil.
  - rewrite Hq, H4. apply (f_equal length) in Hq'. rewrite length_app in Hq'. rewrite !length_app. destruct s; [done|]. simpl. lia.
  - done.
  - intros d Hd. rewrite Hq, H4. set_solver.
  - intros d Hd. rewrite Hq, H4, Hq'. set_solver.
Qed.

Lemma store_name_ok name e : length name = DIRSIZ → cstr_ok e → length (store_name name e) = DIRSIZ ∧
  cname DIRSIZ (store_name name e) = take DIRSIZ e ∧ (Forall byte_ok name → Forall byte_ok (store_name name e)).
Proof.
  intros Hn He. assert (Forall byte_ok e) as Hb by (eapply Forall_impl; [exact He|]; unfold byte_ok; simpl; lia).
  unfold store_name. case_bool_decide as Hl.
  - split; [rewrite length_take; lia|]. split; [|intros _; by apply Forall_take].
    pose proof (cname_padded DIRSIZ 0 (take DIRSIZ e)) as Hp. simpl replicate in Hp. rewrite app_nil_r, take_take, Nat.min_id in Hp.
    apply Hp; [by apply Forall_take|rewrite length_take; lia].
  - split; [rewrite !length_app, length_drop; simpl; lia|]. split.
    + rewrite take_ge by lia. clear Hb Hn. assert (length e ≤ DIRSIZ)%nat as Hl' by lia. clear Hl. revert Hl'. generalize DIRSIZ as n.
      generalize (drop (S (length e)) name) as r. induction He as [|c e Hc _ IH]; intros r n Hl; [by destruct n|].
      destruct n as [|n]; [simpl in Hl; lia|]. simpl. rewrite bool_decide_eq_false_2 by lia. f_equal. apply IH. simpl in Hl. lia.
    + intros Hnb. apply Forall_app. split; [done|]. apply Forall_app. split; [by repeat constructor|by apply Forall_drop].
Qed.
