(* ===== verification/FsCache.v ===== *)
(** * The inode cache

    Reference counts per inode number, free entries, and what [ilock], [iunlockput]
    and [iget] do to them. *)
From stdpp Require Import base numbers list gmap sets strings.
From S2P Require Import Prelude Bytes XString Bio Log LogFacts Fs FsFacts FsBlocks FsInode FsIO FsDinode FsUpdate FsDir FsDirlink.
#[local] Open Scope Z_scope.

Definition refs (num : Z) (x : inode) : Z := if decide (is_for ROOTDEV num x) then iref x else 0.
(** How many references there are to inode [num]. *)
Definition count (l : list inode) (num : Z) : Z := tally (refs num) l.
Definition vacant (x : inode) : Z := if decide (iref x = 0) then 1 else 0.
Definition nvacant (l : list inode) : Z := tally vacant l.
Definition one (num num' : Z) : Z := if decide (num = num') then 1 else 0.

Section cache.
Context (v : superblock) (V : gmap Z (list Z)).

(** The inode as it is on the disk, in the cache entry [x]. *)
Definition on_disk (x : inode) : inode := decode (slice (V !!! IBLOCK (inum x) v) (Z.to_nat (dinode_off (inum x))) 64) x.
Definition dnode (num : Z) : inode := on_disk (mkinode ROOTDEV num 0 false false 0 0 0 0 0 []).

Context (live : Z → Prop).

Record cache_ok (l : list inode) : Prop := {
  ck_ref : ∀ i x, l !! i = Some x → 0 ≤ iref x;
  ck_uniq : ∀ i j x y, l !! i = Some x → l !! j = Some y → iref x > 0 → iref y > 0 → inum x = inum y → i = j;
  ck_live : ∀ i x, l !! i = Some x → iref x > 0 → idev x = ROOTDEV ∧ live (inum x) ∧ (ivalid x = true → on_disk x = x) }.

Lemma on_disk_ref x n : on_disk x = x → on_disk (set_iref n x) = set_iref n x.
Proof using. unfold on_disk, decode. destruct x; simpl. by intros [=<- <- <- <- <- <- <-]. Qed.

Lemma refs_same num x y : iref y = iref x → idev y = idev x → inum y = inum x → refs num y = refs num x.
Proof using.
  intros E1 E2 E3. unfold refs. destruct (decide (is_for ROOTDEV num y)) as [Hy|Hy], (decide (is_for ROOTDEV num x)) as [Hx|Hx]; unfold is_for in *;
    rewrite ?E1, ?E2, ?E3 in *; done.
Qed.

(** Changing an entry in place. *)
Lemma cache_same l i x y : cache_ok l → l !! i = Some x → iref y = iref x → idev y = idev x → inum y = inum x →
  (ivalid y = true → iref x > 0 → on_disk y = y) →
  cache_ok (<[i := y]> l) ∧ (∀ num, count (<[i := y]> l) num = count l num) ∧ nvacant (<[i := y]> l) = nvacant l.
Proof using.
  intros [H1 H2 H3] Hi E1 E2 E3 Hd. split; [|split].
  - split.
    + intros j z [(<- & <- & _)|[_ Hj]]%list_lookup_insert_Some; [rewrite E1|]; by eapply H1.
    + intros j k z z' [(<- & <- & _)|[_ Hz]]%list_lookup_insert_Some [(<- & <- & _)|[_ Hz']]%list_lookup_insert_Some; rewrite ?E1, ?E3; [done|..]; by eapply H2.
    + intros j z [(<- & <- & _)|[_ Hj]]%list_lookup_insert_Some Hz; [|by eapply H3]. rewrite E1 in Hz. destruct (H3 _ _ Hi Hz) as (A & B & _).
      rewrite E2, E3. auto.
  - intros num. unfold count. rewrite (tally_insert _ _ _ _ _ Hi), (refs_same num x y) by done. lia.
  - unfold nvacant. rewrite (tally_insert _ _ _ _ _ Hi). unfold vacant. repeat case_decide; lia.
Qed.

(** Dropping a reference. *)
Lemma cache_drop l i x : cache_ok l → l !! i = Some x → iref x > 0 →
  let l' := <[i := set_iref (iref x - 1) x]> l in
  cache_ok l' ∧ (∀ num, count l' num = count l num - one num (inum x)) ∧ nvacant l' = nvacant l + (if decide (iref x = 1) then 1 else 0).
Proof using.
  intros [H1 H2 H3] Hi Hp. destruct (H3 _ _ Hi Hp) as (A & B & C). split; [|split].
  - split.
    + intros j z [(<- & <- & _)|[_ Hj]]%list_lookup_insert_Some; [simpl; lia|by eapply H1].
    + intros j k z z' [(<- & <- & _)|[_ Hz]]%list_lookup_insert_Some [(<- & <- & _)|[_ Hz']]%list_lookup_insert_Some; simpl; intros P1 P2 E; [done|..].
      * by eapply (H2 i k x z').
      * by eapply (H2 j i z x).
      * by eapply H2.
    + intros j z [(<- & <- & _)|[_ Hj]]%list_lookup_insert_Some Hz; [|by eapply H3]. simpl. split; [done|]. split; [done|].
      intros Hvl. by apply on_disk_ref, C.
  - intros num. unfold count. rewrite (tally_insert _ _ _ _ _ Hi). unfold refs, one. simpl. repeat case_decide; unfold is_for in *; naive_solver lia.
  - unfold nvacant. rewrite (tally_insert _ _ _ _ _ Hi). unfold vacant. simpl. repeat case_decide; lia.
Qed.

(** Taking a reference through [iget]. *)
Record got (l : list inode) (num : Z) (i : nat) (l' : list inode) : Prop := {
  go_ok : cache_ok l';
  go_count : ∀ n, count l' n = count l n + one n num;
  go_other : ∀ j, j ≠ i → l' !! j = l !! j;
  go_entry : ∃ w z, l !! i = Some w ∧ l' !! i = Some z ∧ inum z = num ∧ idev z = ROOTDEV ∧ iref z > 0 ∧ ilocked z = ilocked w ∧
    ((iref w > 0 ∧ z = set_iref (iref w + 1) w ∧ nvacant l' = nvacant l) ∨ (iref w = 0 ∧ iref z = 1 ∧ nvacant l' = nvacant l - 1)) }.

Lemma cache_iget l num i l' : cache_ok l → live num → iget_spec ROOTDEV num l i l' → got l num i l'.
Proof using.
  intros [H1 H2 H3] Hlive [j x Hf|j x Hn Hf].
  - apply list_find_Some in Hf as (Hj & (Hp & Hdev & Hnum) & _). pose proof (lookup_lt_Some _ _ _ Hj) as Hlt.
    destruct (H3 _ _ Hj Hp) as (A & B & C). split.
    + split.
      * intros k y [(<- & <- & _)|[_ Hk]]%list_lookup_insert_Some; [simpl; lia|by eapply H1].
      * intros k k' y y' [(<- & <- & _)|[_ Hy]]%list_lookup_insert_Some [(<- & <- & _)|[_ Hy']]%list_lookup_insert_Some; simpl; intros P1 P2 E; [done|..].
        -- by eapply (H2 j k' x y').
        -- by eapply (H2 k j y x).
        -- by eapply H2.
      * intros k y [(<- & <- & _)|[_ Hk]]%list_lookup_insert_Some Hy; [|by eapply H3]. simpl. split; [done|]. split; [done|].
        intros Hvl. by apply on_disk_ref, C.
    + intros n. unfold count. rewrite (tally_insert _ _ _ _ _ Hj). unfold refs, one. simpl. repeat case_decide; unfold is_for in *; naive_solver lia.
    + intros k Hk. by apply list_lookup_insert_ne.
    + exists x, (set_iref (iref x + 1) x). split; [done|]. split; [by apply list_lookup_insert_eq|]. split; [done|]. split; [done|].
      split; [simpl; lia|]. split; [done|]. left. split; [done|]. split; [done|].
      unfold nvacant. rewrite (tally_insert _ _ _ _ _ Hj). unfold vacant. simpl. repeat case_decide; lia.
  - apply list_find_Some in Hf as (Hj & Hz & _). pose proof (lookup_lt_Some _ _ _ Hj) as Hlt. apply list_find_None in Hn. rewrite Forall_forall in Hn.
    assert (∀ k y, l !! k = Some y → iref y > 0 → inum y = num → False) as Hnone.
    { intros k y Hk Hp E. apply (Hn y); [by eapply list_elem_of_lookup_2|]. split; [done|]. split; [|done]. by eapply H3. }
    split.
    + split.
      * intros k y [(<- & <- & _)|[_ Hk]]%list_lookup_insert_Some; [simpl; lia|by eapply H1].
      * intros k k' y y' [(<- & <- & _)|[_ Hy]]%list_lookup_insert_Some [(<- & <- & _)|[_ Hy']]%list_lookup_insert_Some; simpl; intros P1 P2 E; [done|..].
        -- by destruct (Hnone _ _ Hy' P2).
        -- by destruct (Hnone _ _ Hy P1).
        -- by eapply H2.
      * intros k y [(<- & <- & _)|[_ Hk]]%list_lookup_insert_Some Hy; [done|by eapply H3].
    + intros n. unfold count. rewrite (tally_insert _ _ _ _ _ Hj). unfold refs, one. simpl. repeat case_decide; unfold is_for in *; simpl in *; naive_solver lia.
    + intros k Hk. by apply list_lookup_insert_ne.
    + exists x, (fresh_entry ROOTDEV num x). split; [done|]. split; [by apply list_lookup_insert_eq|]. split; [done|]. split; [done|].
      split; [simpl; lia|]. split; [done|]. right. split; [done|]. split; [done|].
      unfold nvacant. rewrite (tally_insert _ _ _ _ _ Hj). unfold vacant. simpl. repeat case_decide; lia.
Qed.
End cache.
