(* ===== verification/FsNamex.v ===== *)
(** * Looking up path names

    [namex] follows a path through the directories on the disk and leaves one
    reference, to the inode it returns. *)
From stdpp Require Import base numbers list gmap sets strings.
From S2P Require Import Prelude Bytes XString Bio Log LogFacts Fs FsFacts FsBlocks FsInode FsIO FsDinode FsUpdate FsDir FsDirlink FsNames FsCache.
#[local] Open Scope Z_scope.

Definition unlocked (l : list inode) : Prop := ∀ i x, l !! i = Some x → ilocked x = false.

Section namex.
Context (v : superblock) (Hv : sb_ok v) (V : gmap Z (list Z)) (HV : fs_ok v V) (F : gset Z).
Context (devread : Z → option (nat → Z → M fstate (Z * list Z))).
(** A set of inodes in use, closed under directory entries. *)
Record node_ok (live : Z → Prop) (num : Z) : Prop := {
  no_range : 0 ≤ num < ninodes v;
  no_file : file_ok v (dnode v V num) V;
  no_type : itype (dnode v V num) ≠ 0;
  no_link : inlink (dnode v V num) ≠ 0;
  no_dir : itype (dnode v V num) = T_DIR → isize (dnode v V num) `mod` DE = 0 ∧
    ∀ e, e ∈ dirents (content (dnode v V num) V) → de_num e ≠ 0 → live (de_num e) }.
Context (live : Z → Prop) (Hlive : ∀ num, live num → node_ok live num).

(** ** The path on the disk

    With [parent] the walk stops at the directory of the last element. *)
Fixpoint resolve (parent : bool) (num : Z) (es : list (list Z)) : option Z :=
  match es with
  | [] => if parent then None else Some num
  | e :: es =>
    if bool_decide (itype (dnode v V num) = T_DIR) then
      if parent && bool_decide (es = []) then Some num
      else match list_find (de_is (take DIRSIZ e)) (dirents (content (dnode v V num) V)) with
           | Some (_, d) => resolve parent (de_num d) es
           | None => None
           end
    else None
  end.

(** ** Locking *)
Lemma file_ok_ext x y : idev y = idev x → iaddrs y = iaddrs x → isize y = isize x → file_ok v x V → file_ok v y V.
Proof using.
  intros E1 E2 E3. assert (ind y = ind x) as Ei by (unfold ind; by rewrite E2).
  assert (∀ k, blk y V k = blk x V k) as Eb by (intros k; unfold blk; by rewrite Ei, E2).
  intros [H1 H2 H3 H4 H5 H6 H7 H8]. split; rewrite ?E1, ?E2, ?E3, ?Ei; try done.
  - intros k. rewrite Eb. apply H4.
  - intros j k. rewrite !Eb. apply H6.
  - intros k. rewrite Eb. apply H7.
  - intros k. rewrite Eb. apply H8.
Qed.
Lemma content_ext x y : iaddrs y = iaddrs x → isize y = isize x → content y V = content x V.
Proof using.
  intros E2 E3. assert (ind y = ind x) as Ei by (unfold ind; by rewrite E2).
  unfold content, byte_at. rewrite E3. apply list_fmap_ext. intros i o _. unfold blk. by rewrite Ei, E2.
Qed.

Lemma ilock_ok s ip x : txn s V F ∅ → sb s = v → cache_ok v V live (icache s) → icache s !! ip = Some x → iref x > 0 → ilocked x = false →
  runs (ilock true (Some ip)) s (λ _ s', txn s' V F ∅ ∧ sb s' = v ∧ icache s' = <[ip := set_ilock true (on_disk v V x)]> (icache s)).
Proof using Hv HV Hlive.
  intros Htx Hs Hc Hx Hp Hl. destruct (ck_live _ _ _ _ Hc _ _ Hx Hp) as (Hdev & Hlv & Hvalid). destruct (Hlive _ Hlv) as [Hr Hf Ht _ _].
  pose proof (lookup_lt_Some _ _ _ Hx) as Hlt. unfold ilock. eapply runs_bind, get_inode_ok; [done|]. rewrite bool_decide_eq_false_2 by lia.
  unfold lock_inode. eapply runs_bind, runs_bind, get_inode_ok; [done|]. rewrite Hl. apply runs_modify. cbv beta.
  set (s1 := mkfs _ _ _). assert (icache s1 !! ip = Some (set_ilock true x)) as Hx1 by (by apply list_lookup_insert_eq).
  eapply runs_bind, get_inode_ok; [exact Hx1|]. cbn [ivalid set_ilock]. assert (txn s1 V F ∅) as T1 by (by apply (txn_frame s)).
  destruct (ivalid x) eqn:Ev.
  - apply runs_ret. split; [done|]. split; [done|]. simpl. by rewrite (Hvalid eq_refl).
  - eapply runs_bind, runs_gets. replace (sb s1) with v by done. cbn [idev inum set_ilock]. rewrite Hdev.
    destruct (inode_block v Hv x V HV Hr) as [Hb [Hbl _]].
    eapply open_block; [exact T1|exact Hb|set_solver|by rewrite size_empty; lia|]. intros i s2 T2 Ho2 F2.
    eapply runs_bind, runs_lift; [by apply load_dinode_ok|].
    assert (decode (slice (V !!! IBLOCK (inum x) v) (Z.to_nat (dinode_off (inum (set_ilock true x)))) 64) (set_ilock true x) = set_ilock true (on_disk v V x)) as Ed by done.
    rewrite Ed. eapply runs_bind, runs_modify. cbv beta. rewrite (fr_icache _ _ _ F2).
    set (s3 := mkfs _ _ _). eapply (close_block s3 V F ({[IBLOCK (inum x) v]} ∪ ∅)); [by apply (txn_frame s2)|exact Hb|exact Ho2|].
    intros s4 T4 F4. rewrite back_out in T4 by set_solver. eapply runs_bind, runs_modify. cbv beta.
    rewrite bool_decide_eq_false_2; [|by apply Ht]. apply runs_ret. split; [by apply (txn_frame s4)|]. simpl.
    rewrite (fr_sb _ _ _ F4), (fr_icache _ _ _ F4). simpl. rewrite (fr_sb _ _ _ F2). split; [done|]. by rewrite !list_insert_insert_eq.
Qed.

Lemma iput_kept s ip y : icache s !! ip = Some y → ilocked y = false → (ivalid y = true → inlink y = 0 → iref y ≠ 1) →
  iput true ip s = Ok (tt, mkfs (fl s) (sb s) (<[ip := set_iref (iref y - 1) (set_ilock false y)]> (icache s))).
Proof using.
  intros Hy Hl Hn. pose proof (lookup_lt_Some _ _ _ Hy) as Hlt. unfold iput, lock_inode, upd_inode, mbind, M_bind, get_inode, put_inode, modify.
  rewrite Hy, Hl. cbn [icache fl sb]. rewrite list_lookup_insert_eq by done. cbn [ivalid inlink iref set_ilock].
  assert (∀ a : M fstate unit, (if ivalid y && bool_decide (inlink y = 0) then if bool_decide (iref y = 1) then a else mret tt else mret tt) = mret tt) as ->.
  { intros a. destruct (ivalid y); [|done]. cbn [andb]. destruct (decide (inlink y = 0)) as [H0|H0]; [|by rewrite (bool_decide_eq_false_2 _ H0)].
    rewrite (bool_decide_eq_true_2 _ H0), bool_decide_eq_false_2; [done|by apply Hn]. }
  cbn [mret M_ret icache fl sb]. rewrite list_lookup_insert_eq by done. cbn [icache fl sb]. rewrite list_insert_insert_eq, list_lookup_insert_eq by done.
  rewrite ?list_insert_insert_eq. cbn. rewrite ?list_insert_insert_eq. done.
Qed.
Lemma iput_ok s ip y : icache s !! ip = Some y → ilocked y = false → (ivalid y = true → inlink y ≠ 0) →
  iput true ip s = Ok (tt, mkfs (fl s) (sb s) (<[ip := set_iref (iref y - 1) (set_ilock false y)]> (icache s))).
Proof using. intros Hy Hl Hn. apply iput_kept; [done..|]. intros Hva H0. by apply Hn in Hva. Qed.
Lemma iunlockput_ok s ip y : icache s !! ip = Some y → ilocked y = true → iref y > 0 → inlink y ≠ 0 →
  iunlockput true ip s = Ok (tt, mkfs (fl s) (sb s) (<[ip := set_iref (iref y - 1) (set_ilock false y)]> (icache s))).
Proof using.
  intros Hy Hl Hp Hn. pose proof (lookup_lt_Some _ _ _ Hy) as Hlt. unfold iunlockput.
  rewrite (bind_ok _ _ _ tt (mkfs (fl s) (sb s) (<[ip := set_ilock false y]> (icache s)))).
  - rewrite (iput_ok _ ip (set_ilock false y)); [|by apply list_lookup_insert_eq|done|done]. simpl. by rewrite list_insert_insert_eq.
  - unfold iunlock, mbind, M_bind, get_inode. rewrite Hy, Hl, bool_decide_eq_false_2 by lia. done.
Qed.

(** ** The loop of [namex] *)
Definition resolved (l : list inode) (held : Z) (target : option Z) (r : option nat) (s' : fstate) : Prop :=
  txn s' V F ∅ ∧ sb s' = v ∧ cache_ok v V live (icache s') ∧ unlocked (icache s') ∧
  match target with
  | Some t => ∃ ip y, r = Some ip ∧ icache s' !! ip = Some y ∧ inum y = t ∧ iref y > 0
  | None => r = None
  end ∧
  ∀ n, count (icache s') n = count l n - one n held + (match target with Some t => one n t | None => 0 end).

(** What the code has in the cache while inode [ip] is locked. *)
Section locked.
Context (l : list inode) (ip : nat) (x : inode) (Hc : cache_ok v V live l) (Hu : unlocked l) (Hx : l !! ip = Some x) (Hp : iref x > 0).
#[local] Abbreviation Y := (set_ilock true (on_disk v V x)).

Lemma locked_disk : on_disk v V Y = Y ∧ set_ilock false Y = on_disk v V x ∧ on_disk v V (on_disk v V x) = on_disk v V x.
Proof using Hc Hu Hx Hp.
  assert (ilocked x = false) as Hl by (by eapply Hu). split; [done|]. split; [|done].
  unfold on_disk, decode. simpl. by rewrite Hl.
Qed.
Lemma locked_cache : cache_ok v V live (<[ip := Y]> l) ∧ (∀ n, count (<[ip := Y]> l) n = count l n) ∧ nvacant (<[ip := Y]> l) = nvacant l.
Proof using Hc Hu Hx Hp. by apply (cache_same v V live l ip x). Qed.
Lemma unlocked_cache : cache_ok v V live (<[ip := on_disk v V x]> l) ∧ (∀ n, count (<[ip := on_disk v V x]> l) n = count l n) ∧
  nvacant (<[ip := on_disk v V x]> l) = nvacant l ∧ unlocked (<[ip := on_disk v V x]> l).
Proof using Hc Hu Hx Hp.
  destruct (cache_same v V live l ip x (on_disk v V x) Hc Hx) as (A & B & C); [done..|]. split; [done|]. split; [done|]. split; [done|].
  intros i y [(<- & <- & _)|[_ Hy]]%list_lookup_insert_Some; [by apply (Hu ip x)|by eapply Hu].
Qed.

Lemma node : node_ok live (inum x) ∧ idev x = ROOTDEV.
Proof using Hlive Hc Hx Hp. destruct (ck_live _ _ _ _ Hc _ _ Hx Hp) as (A & B & _). split; [by apply Hlive|done]. Qed.

(** Dropping the reference after the lock. *)
Lemma drop_locked s : icache s = <[ip := Y]> l → txn s V F ∅ → sb s = v →
  ∃ s', iunlockput true ip s = Ok (tt, s') ∧ txn s' V F ∅ ∧ sb s' = v ∧ cache_ok v V live (icache s') ∧ unlocked (icache s') ∧
    ∀ n, count (icache s') n = count l n - one n (inum x).
Proof using Hlive Hc Hu Hx Hp.
  intros Hic Htx Hs. pose proof (lookup_lt_Some _ _ _ Hx) as Hlt. destruct node as [[_ _ _ Hlink _] _]. destruct locked_disk as (_ & El & _).
  assert (icache s !! ip = Some Y) as Hy by (rewrite Hic; by apply list_lookup_insert_eq).
  pose proof (iunlockput_ok s ip Y Hy eq_refl Hp Hlink) as Hr. rewrite El in Hr. rewrite Hic, list_insert_insert_eq in Hr.
  eexists. split; [exact Hr|]. split; [by apply (txn_frame s)|]. split; [done|]. cbn [icache].
  destruct unlocked_cache as (A & B & _ & D). assert (<[ip := on_disk v V x]> l !! ip = Some (on_disk v V x)) as Hy' by (by apply list_lookup_insert_eq).
  destruct (cache_drop v V live _ ip _ A Hy' Hp) as (A' & B' & _). cbv zeta in A', B'. rewrite list_insert_insert_eq in A', B'.
  split; [exact A'|]. split; [|intros n; rewrite B', B; done].
  intros i y [(<- & <- & _)|[_ Hi]]%list_lookup_insert_Some; [by apply (Hu ip x)|by eapply Hu].
Qed.

(** What of the free entries is ours: an entry of which we have the only reference. *)
Definition ours (y : inode) : Z := if decide (iref y = 1) then 1 else 0.

(** Taking the next inode and dropping the locked one. *)
Lemma step_locked s num j l2 : icache s = l2 → txn s V F ∅ → sb s = v → got v V live (<[ip := Y]> l) num j l2 →
  ∃ s' z, iunlockput true ip s = Ok (tt, s') ∧ txn s' V F ∅ ∧ sb s' = v ∧ cache_ok v V live (icache s') ∧ unlocked (icache s') ∧
    icache s' !! j = Some z ∧ inum z = num ∧ iref z > 0 ∧ nvacant (icache s') + ours z = nvacant l + ours x ∧
    ∀ n, count (icache s') n = count l n - one n (inum x) + one n num.
Proof using Hlive Hc Hu Hx Hp.
  intros Hic Htx Hs [G1 G2 G3 (w & z & Hw & Hz & Gn & Gd & Gp & Gl & Gc)]. pose proof (lookup_lt_Some _ _ _ Hx) as Hlt.
  destruct node as [[_ _ _ Hlink _] _]. destruct locked_cache as (_ & LB & LC).
  assert (∃ y, l2 !! ip = Some y ∧ y = (if decide (j = ip) then set_iref (iref x + 1) Y else Y) ∧ on_disk v V y = y) as (y & Hy & Ey & Edy).
  { destruct (decide (j = ip)) as [->|Hne].
    - rewrite list_lookup_insert_eq in Hw by done. injection Hw as <-. exists z. split; [done|].
      destruct Gc as [(_ & -> & _)|(H0 & _)]; [done|]. change (iref x = 0) in H0. lia.
    - exists Y. split; [|done]. rewrite G3 by done. by apply list_lookup_insert_eq. }
  assert (iref y > 0 ∧ ilocked y = true ∧ inum y = inum x ∧ inlink y ≠ 0) as (Yp & Yl & Yn & Yk).
  { rewrite Ey. destruct (decide (j = ip)); simpl; (split; [lia|]); (split; [done|]); (split; [done|exact Hlink]). }
  assert (icache s !! ip = Some y) as Hy' by (by rewrite Hic).
  pose proof (iunlockput_ok s ip y Hy' Yl Yp Yk) as Hr. rewrite Hic in Hr.
  (* the cache as the unlock and the drop leave it *)
  destruct (cache_same v V live l2 ip y (set_ilock false y) G1 Hy) as (A1 & B1 & C1); [done..| |].
  { intros Hvy _. unfold on_disk, decode in *. destruct y; simpl in *. by injection Edy as <- <- <- <- <- <- <-. }
  assert (<[ip := set_ilock false y]> l2 !! ip = Some (set_ilock false y)) as Hl3 by (apply list_lookup_insert_eq; by eapply lookup_lt_Some).
  destruct (cache_drop v V live _ ip _ A1 Hl3 Yp) as (A2 & B2 & C2). cbv zeta in A2, B2, C2. rewrite list_insert_insert_eq in A2, B2, C2.
  cbn [iref inum set_ilock] in A2, B2, C2. set (y3 := set_iref (iref y - 1) (set_ilock false y)) in *.
  eexists _, (if decide (j = ip) then y3 else z). split; [exact Hr|]. split; [by apply (txn_frame s)|]. split; [done|]. cbn [icache].
  split; [exact A2|]. split.
  { intros i y' [(<- & <- & _)|[Hne Hi]]%list_lookup_insert_Some; [done|]. destruct (decide (i = j)) as [->|Hij].
    - rewrite Hz in Hi. injection Hi as <-. rewrite Gl. rewrite list_lookup_insert_ne in Hw by done. by eapply Hu.
    - rewrite G3 in Hi by done. rewrite list_lookup_insert_ne in Hi by done. by eapply Hu. }
  assert (∀ n, one n (inum y) = one n (inum x)) as Eo by (intros n; by rewrite Yn).
  assert (∀ n, count (<[ip := y3]> l2) n = count l n - one n (inum x) + one n num) as Hcount by (intros n; rewrite B2, B1, G2, LB, Eo; lia).
  destruct (decide (j = ip)) as [->|Hne].
  - rewrite list_lookup_insert_eq by (by eapply lookup_lt_Some). rewrite list_lookup_insert_eq in Hw by done. injection Hw as <-.
    split; [done|]. assert (z = y) as Ezy by congruence. split; [change (inum y = num); rewrite <- Ezy; exact Gn|].
    assert (iref y = iref x + 1) as Eyr by (by rewrite Ey). assert (iref y3 = iref x) as E3 by (change (iref y - 1 = iref x); lia). split; [lia|]. split; [|exact Hcount].
    unfold ours. rewrite E3, C2, C1. destruct Gc as [(_ & _ & ->)|(H0 & _)]; [|change (iref x = 0) in H0; lia]. rewrite LC.
    rewrite Eyr. repeat case_decide; lia.
  - rewrite list_lookup_insert_ne by done. rewrite list_lookup_insert_ne in Hw by done. split; [done|]. split; [done|]. split; [done|]. split; [|exact Hcount].
    rewrite C2, C1. assert (iref y = iref x) as -> by (by rewrite Ey). unfold ours. pose proof (ck_ref _ _ _ _ Hc _ _ Hw).
    destruct Gc as [(Hwp & -> & ->)|(Hw0 & -> & ->)]; rewrite LC; simpl; repeat case_decide; lia.
Qed.
(** [nameiparent] stops at the locked directory. *)
Lemma stop_locked s : icache s = <[ip := Y]> l → txn s V F ∅ → sb s = v →
  ∃ s', iunlock (Some ip) s = Ok (tt, s') ∧ resolved l (inum x) (Some (inum x)) (Some ip) s'.
Proof using Hc Hu Hx Hp.
  intros I1 T1 S1. pose proof (lookup_lt_Some _ _ _ Hx) as Hlt. assert (icache s !! ip = Some Y) as HY by (rewrite I1; by apply list_lookup_insert_eq).
  exists (mkfs (fl s) (sb s) (<[ip := on_disk v V x]> l)). split.
  - unfold iunlock. rewrite (bind_ok _ _ s Y s) by (unfold get_inode; by rewrite HY).
    rewrite bool_decide_eq_false_2 by (change (iref Y) with (iref x); lia). change (ilocked Y) with true. cbn [negb orb]. unfold put_inode, modify.
    destruct locked_disk as (_ & El & _). rewrite El, I1, list_insert_insert_eq. done.
  - destruct unlocked_cache as (A & B & _ & D). split; [by apply (txn_frame s)|]. split; [done|]. split; [done|]. split; [done|]. split.
    + exists ip, (on_disk v V x). split; [done|]. split; [by apply list_lookup_insert_eq|done].
    + intros n. simpl. rewrite B. lia.
Qed.
(** The lookup in the locked directory: nothing, or a reference to what is there. *)
Lemma lookup_locked s nm : icache s = <[ip := Y]> l → txn s V F ∅ → sb s = v → itype (dnode v V (inum x)) = T_DIR → length nm = DIRSIZ → 2 ≤ nvacant l + ours x →
  match list_find (de_is (cname DIRSIZ nm)) (dirents (content (dnode v V (inum x)) V)) with
  | Some (_, d) => ∃ r j s', dirlookup true devread ip nm s = Ok (Some (j, r), s') ∧ txn s' V F ∅ ∧ sb s' = v ∧ got v V live (<[ip := Y]> l) (de_num d) j (icache s')
  | None => ∃ s', dirlookup true devread ip nm s = Ok (None, s') ∧ txn s' V F ∅ ∧ sb s' = v ∧ icache s' = <[ip := Y]> l
  end.
Proof using Hv HV Hlive Hc Hu Hx Hp.
  intros I1 T1 S1 HtD Hnl Hfree. destruct node as [[Nr Nf Nt Nl Nd] Hdev]. destruct (Nd HtD) as [N16 Nent]. pose proof (lookup_lt_Some _ _ _ Hx) as Hlt.
  assert (icache s !! ip = Some Y) as HY by (rewrite I1; by apply list_lookup_insert_eq).
  assert (file_ok v Y V) as HfY by (eapply file_ok_ext; [..|exact Nf]; done).
  assert (content Y V = content (dnode v V (inum x)) V) as HcY by (by apply content_ext).
  destruct (dirlookup_ok v Hv devread ip Y V F HV HfY HtD N16 nm s T1 HY ltac:(by apply named_length)) as (s2 & R2 & T2 & St2).
  assert (icache s2 = <[ip := Y]> l) as I2 by (by rewrite (sta_icache _ _ St2)). assert (sb s2 = v) as S2 by (by rewrite (sta_sb _ _ St2)).
  rewrite HcY in R2. destruct (list_find _ _) as [[k d]|] eqn:Hfind; cbn [lookup_result] in R2; [|by exists s2].
  apply list_find_Some in Hfind as (Hk & [Hd0 _] & _). pose proof (Nent d ltac:(by eapply list_elem_of_lookup_2) Hd0) as Hlive'.
  destruct locked_cache as (LA & LB & LC). destruct (iget_run ROOTDEV (de_num d) s2) as [(j & l2 & Hsp & Hg)|(_ & Hno & _)].
  - rewrite (bind_ok _ _ _ _ _ Hg) in R2. rewrite I2 in Hsp. pose proof (cache_iget v V live _ _ _ _ LA Hlive' Hsp) as Hgot.
    eexists _, j, _. split; [exact R2|]. split; [by apply (txn_frame s2)|]. done.
  - exfalso. rewrite I2 in Hno. apply list_find_None in Hno. rewrite Forall_forall in Hno. assert (nvacant (<[ip := Y]> l) = 0) as H0.
    { apply tally_zero. intros y Hy. unfold vacant. rewrite decide_False; [done|]. by apply Hno. }
    rewrite LC in H0. unfold ours in Hfree. case_decide; lia.
Qed.
End locked.

(** No more elements. *)
Lemma loop_end s ip x (parent : bool) (name : list Z) : txn s V F ∅ → sb s = v → cache_ok v V live (icache s) → unlocked (icache s) →
  icache s !! ip = Some x → iref x > 0 →
  ∃ r s', ((if parent then iput true ip;; mret (None, name) else mret (Some ip, name)) : M fstate (option nat * list Z)) s = Ok ((r, name), s') ∧
    resolved (icache s) (inum x) (if parent then None else Some (inum x)) r s'.
Proof using Hlive.
  intros Htx Hs Hc Hu Hx Hp. destruct (node (icache s) ip x Hc Hx Hp) as [[_ _ _ Hlink _] _]. destruct parent.
  - rewrite (bind_ok _ _ _ _ _ (iput_ok s ip x Hx (Hu _ _ Hx) ltac:(intros Hvx; destruct (ck_live _ _ _ _ Hc _ _ Hx Hp) as (_ & _ & Ed); rewrite <- (Ed Hvx); exact Hlink))).
    assert (set_ilock false x = x) as El by (pose proof (Hu _ _ Hx) as El0; clear - El0; destruct x; unfold set_ilock; simpl in *; by rewrite El0).
    destruct (cache_drop v V live (icache s) ip x Hc Hx Hp) as (A & B & _). cbv zeta in A, B. rewrite El. eexists None, _.
    split; [done|]. split; [by apply (txn_frame s)|]. split; [done|]. split; [exact A|]. cbn [icache]. split.
    + intros i y [(<- & <- & _)|[_ Hi]]%list_lookup_insert_Some; [by apply (Hu ip x)|by eapply Hu].
    + split; [done|]. intros n. rewrite B. lia.
  - exists (Some ip), s. split; [done|]. split; [done|]. split; [done|]. split; [done|]. split; [done|]. split; [by exists ip, x|]. intros n. lia.
Qed.

Lemma resolved_trans l held l1 held1 t r s' : (∀ n, count l1 n - one n held1 = count l n - one n held) → resolved l1 held1 t r s' → resolved l held t r s'.
Proof using. intros E (A & B & C & D & G & H). split_and!; try done. intros n. rewrite H. by rewrite E. Qed.

Lemma namex_loop_ok parent fuel : ∀ s ip x path name, txn s V F ∅ → sb s = v → cache_ok v V live (icache s) → unlocked (icache s) →
  icache s !! ip = Some x → iref x > 0 → 2 ≤ nvacant (icache s) + ours x → length name = DIRSIZ → cstr_ok path → (length path < fuel)%nat →
  ∃ r nm s', namex_loop true devread fuel ip path parent name s = Ok ((r, nm), s') ∧
    resolved (icache s) (inum x) (resolve parent (inum x) (elems path)) r s' ∧
    (parent = true → r ≠ None → ∃ e, last (elems path) = Some e ∧ cname DIRSIZ nm = take DIRSIZ e).
Proof using Hv HV Hlive.
  induction fuel as [|fuel IH]; intros s ip x path name Htx Hs Hc Hu Hx Hp Hfree Hname Hpath Hf; [lia|]. cbn [namex_loop].
  destruct (skipelem_ok path name Hname) as [[He Hsk]|(e & rest & He & Hsk & Hrest & Hlen & Hene & Hein & Hrin)];
    (rewrite (bind_ok _ _ s _ s (f_equal (λ r, match r with Ok a => Ok (a, s) | Fault f => Fault f end) Hsk))).
  { destruct (loop_end s ip x parent name Htx Hs Hc Hu Hx Hp) as (r & s' & Hr & Hres). exists r, name, s'. rewrite He. cbn [resolve].
    split; [done|]. split; [done|]. intros -> Hn. destruct Hres as (_ & _ & _ & _ & ? & _). done. }
  assert (cstr_ok e) as Hce by (apply Forall_forall; intros c Hcc; unfold cstr_ok in Hpath; rewrite Forall_forall in Hpath; by apply Hpath, Hein).
  destruct (store_name_ok name e Hname Hce) as (Hnl & Hnc & _). set (nm := store_name name e) in *.
  destruct (node (icache s) ip x Hc Hx Hp) as [[Nr Nf Nt Nl Nd] Hdev].
  destruct (ilock_ok s ip x Htx Hs Hc Hx Hp (Hu _ _ Hx)) as ([] & s1 & R1 & T1 & S1 & I1). rewrite (bind_ok _ _ _ _ _ R1).
  set (Y := set_ilock true (on_disk v V x)) in *. pose proof (lookup_lt_Some _ _ _ Hx) as Hlt.
  assert (icache s1 !! ip = Some Y) as HY by (rewrite I1; by apply list_lookup_insert_eq).
  rewrite (bind_ok _ _ s1 Y s1) by (unfold get_inode; by rewrite HY). rewrite He. cbn [resolve].
  change (itype Y) with (itype (dnode v V (inum x))). destruct (decide (itype (dnode v V (inum x)) = T_DIR)) as [HtD|Hty].
  2:{ rewrite (bool_decide_eq_true_2 (_ ≠ T_DIR)), (bool_decide_eq_false_2 (_ = T_DIR)) by done. destruct (drop_locked (icache s) ip x Hc Hu Hx Hp s1 I1 T1 S1) as (s2 & R2 & T2 & S2 & C2 & U2 & N2).
    rewrite (bind_ok _ _ _ _ _ R2). exists None, nm, s2. split; [done|]. split; [|done].
    split_and!; try done. intros n. rewrite N2. lia. }
  rewrite (bool_decide_eq_false_2 (_ ≠ T_DIR)), (bool_decide_eq_true_2 (_ = T_DIR)) by auto.
  rewrite (bool_decide_ext (rest = []) (elems rest = []) Hrest). destruct (parent && bool_decide (elems rest = [])) eqn:Hlast.
  { apply andb_prop in Hlast as [-> Hl0%bool_decide_eq_true]. destruct (stop_locked (icache s) ip x Hc Hu Hx Hp s1 I1 T1 S1) as (s2 & R2 & Hres).
    rewrite (bind_ok _ _ _ _ _ R2). exists (Some ip), nm, s2. split; [done|]. split; [done|]. intros _ _. exists e. by rewrite Hl0. }
  pose proof (lookup_locked (icache s) ip x Hc Hu Hx Hp s1 nm I1 T1 S1 HtD Hnl Hfree) as Hlook. rewrite Hnc in Hlook.
  destruct (list_find _ _) as [[k d]|] eqn:Hfind.
  - destruct Hlook as (off & j & s2 & R2 & T2 & S2 & Hgot). rewrite (bind_ok _ _ _ _ _ R2).
    destruct (step_locked (icache s) ip x Hc Hu Hx Hp s2 (de_num d) j _ eq_refl T2 S2 Hgot)
      as (s3 & z & R3 & T3 & S3 & C3 & U3 & Hz & Zn & Zp & Zf & Zc).
    rewrite (bind_ok _ _ _ _ _ R3).
    destruct (IH s3 j z rest nm T3 S3 C3 U3 Hz Zp ltac:(lia) Hnl) as (r & nm' & s4 & R4 & Hres & Hpar); [|lia|].
    { apply Forall_forall. intros c Hcc. unfold cstr_ok in Hpath. rewrite Forall_forall in Hpath. by apply Hpath, Hrin. }
    exists r, nm', s4. split; [done|]. rewrite Zn in Hres. split.
    + eapply resolved_trans; [|exact Hres]. intros n. rewrite Zc. lia.
    + intros Hpt Hr. destruct (Hpar Hpt Hr) as (e' & He' & Hn'). exists e'. split; [|done].
      destruct (elems rest); [done|]. done.
  - destruct Hlook as (s2 & R2 & T2 & S2 & I2). rewrite (bind_ok _ _ _ _ _ R2).
    destruct (drop_locked (icache s) ip x Hc Hu Hx Hp s2 I2 T2 S2) as (s3 & R3 & T3 & S3 & C3 & U3 & N3).
    rewrite (bind_ok _ _ _ _ _ R3). exists None, nm, s3. split; [done|]. split; [|done]. split_and!; try done. intros n. rewrite N3. lia.
Qed.
End namex.
