(* ===== verification/FsNameClaims.v ===== *)
(** * The inode cache and path names: what the operations do *)
From stdpp Require Import base numbers list gmap sets strings.
From S2P Require Import Prelude Bytes XString Bio Log LogFacts LogClaims Fs FsFacts FsBlocks FsInode FsIO FsDinode FsUpdate FsDir FsDirlink FsNames FsCache FsNamex FsClaims.
#[local] Open Scope Z_scope.

(** With one entry per inode the scan of [iget] finds exactly that entry. *)
Lemma find_entry v V live l i x : cache_ok v V live l → l !! i = Some x → iref x > 0 → list_find (is_for ROOTDEV (inum x)) l = Some (i, x).
Proof.
  intros Hc Hx Hp. destruct (ck_live _ _ _ _ Hc _ _ Hx Hp) as (Hd & _). apply list_find_Some. split; [done|]. split; [done|].
  intros j y Hj Hlt (Hyp & _ & Hyn). assert (j = i) by (by eapply (ck_uniq _ _ _ _ Hc j i y x)). lia.
Qed.
Lemma idup_ok v V live s ip x : cache_ok v V live (icache s) → icache s !! ip = Some x → iref x > 0 →
  ∃ l, idup ip s = Ok (ip, mkfs (fl s) (sb s) l) ∧ got v V live (icache s) (inum x) ip l.
Proof.
  intros Hc Hx Hp. exists (<[ip := set_iref (iref x + 1) x]> (icache s)). split.
  - unfold idup, upd_inode, mbind, M_bind, get_inode. by rewrite Hx.
  - apply cache_iget; [done|by eapply ck_live|]. apply iget_hit. by eapply find_entry.
Qed.

(** Taking a reference leaves the free entries, not counting one that is only ours. *)
Lemma got_start v V live l num i l' : got v V live l num i l' → unlocked l →
  ∃ z, l' !! i = Some z ∧ inum z = num ∧ iref z > 0 ∧ nvacant l' + ours z = nvacant l ∧ unlocked l'.
Proof.
  intros [G1 G2 G3 (w & z & Hw & Hz & Gn & _ & Gp & Gl & Gc)] Hu. exists z. split; [done|]. split; [done|]. split; [done|]. split.
  - unfold ours. destruct Gc as [(Hp & -> & ->)|(H0 & -> & ->)]; cbn [iref set_iref]; repeat case_decide; lia.
  - intros j y Hj. destruct (decide (j = i)) as [->|Hne]; [|rewrite G3 in Hj by done; by eapply Hu].
    rewrite Hz in Hj. injection Hj as <-. rewrite Gl. by eapply Hu.
Qed.

Section claims.
Context (v : superblock) (Hv : sb_ok v).

(** C28: the inode cache counts references.  In a cache with one entry per inode,
    [iget] of an inode returns its entry, or a free entry it has made its own and
    whose content is to be read, with one reference more to that inode and the same
    number to every other; it fails, with the machine stopped, only if the inode is
    not cached and no entry is free.  [idup] adds one reference, and [iput] of an
    unlocked inode takes one away and does nothing else, unless the inode has no
    links and this is its last reference. *)
Theorem inode_cache_references V live s : cache_ok v V live (icache s) →
  (∀ num, live num →
    (∃ i l z, iget ROOTDEV num s = Ok (i, mkfs (fl s) (sb s) l) ∧ cache_ok v V live l ∧ l !! i = Some z ∧ inum z = num ∧ iref z > 0 ∧
      (count (icache s) num = 0 → ivalid z = false ∧ iref z = 1) ∧ ∀ n, count l n = count (icache s) n + one n num) ∨
    (iget ROOTDEV num s = Fault (Panic "iget: no inodes") ∧ count (icache s) num = 0 ∧ nvacant (icache s) = 0)) ∧
  (∀ ip x, icache s !! ip = Some x → iref x > 0 →
    (∃ l, idup ip s = Ok (ip, mkfs (fl s) (sb s) l) ∧ cache_ok v V live l ∧ ∀ n, count l n = count (icache s) n + one n (inum x)) ∧
    (ilocked x = false → (ivalid x = true → inlink x = 0 → iref x > 1) →
      ∃ l, iput true ip s = Ok (tt, mkfs (fl s) (sb s) l) ∧ cache_ok v V live l ∧ ∀ n, count l n = count (icache s) n - one n (inum x))).
Proof using.
  intros Hc. assert (∀ num, list_find (is_for ROOTDEV num) (icache s) = None → count (icache s) num = 0) as Hcount.
  { intros num Hn. apply list_find_None in Hn. rewrite Forall_forall in Hn. apply tally_zero. intros y Hy. unfold refs. rewrite decide_False; [done|]. by apply Hn. }
  split.
  - intros num Hlive. destruct (iget_run ROOTDEV num s) as [(i & l & Hsp & Hr)|(Hn & Hno & Hr)].
    + left. pose proof (cache_iget v V live _ _ _ _ Hc Hlive Hsp) as [G1 G2 G3 (w & z & Hw & Hz & Gn & Gd & Gp & Gl & Gc)].
      exists i, l, z. split_and!; try done. intros H0. inversion Hsp as [j y Hf Hj|j y Hn Hf Hj]; subst.
      * exfalso. apply list_find_Some in Hf as (Hj & (Hp & Hd & Ey) & _). unfold count in H0. rewrite <- Ey in H0.
        assert (refs (inum y) y ≤ tally (refs (inum y)) (icache s)) as Hle.
        { apply (tally_one _ _ i); [|done]. intros a [k Ha]%list_elem_of_lookup. unfold refs. case_decide; [by eapply (ck_ref _ _ _ _ Hc k a)|done]. }
        unfold refs at 1 in Hle. rewrite decide_True in Hle by done. lia.
      * apply list_find_Some in Hf as (Hj & _). rewrite list_lookup_insert_eq in Hz by (by eapply lookup_lt_Some). by injection Hz as <-.
    + right. split; [done|]. split; [by apply Hcount|]. apply list_find_None in Hno. rewrite Forall_forall in Hno.
      apply tally_zero. intros y Hy. unfold vacant. rewrite decide_False; [done|]. by apply Hno.
  - intros ip x Hx Hp. split.
    + destruct (idup_ok v V live s ip x Hc Hx Hp) as (l & Hr & Hg). exists l. split; [done|]. split; apply Hg.
    + intros Hl Hk. assert (set_ilock false x = x) as El by (clear - Hl; destruct x; unfold set_ilock; simpl in *; by rewrite Hl).
      destruct (cache_drop v V live (icache s) ip x Hc Hx Hp) as (A & B & _). cbv zeta in A, B.
      eexists. split; [apply iput_kept; [done..|]; intros Hva H0; specialize (Hk Hva H0); lia|]. rewrite El. by split.
Qed.

(** The inode a lookup starts from. *)
Lemma namex_start V live cwd xc path s : cache_ok v V live (icache s) → 2 ≤ nvacant (icache s) → live ROOTINO → icache s !! cwd = Some xc → iref xc > 0 →
  ∃ i l, (if bool_decide (head path = Some slash) then iget ROOTDEV ROOTINO else idup cwd) s = Ok (i, mkfs (fl s) (sb s) l) ∧
    got v V live (icache s) (if bool_decide (head path = Some slash) then ROOTINO else inum xc) i l.
Proof using Hv.
  intros Hc Hfree Hroot Hcwd Hcp.
  case_bool_decide; [|by destruct (idup_ok v V live s cwd xc Hc Hcwd Hcp) as (l & Hr & Hg); exists cwd, l].
  destruct (iget_run ROOTDEV ROOTINO s) as [(i & l & Hsp & Hr)|(_ & Hno & _)]; [exists i, l; split; [done|by apply cache_iget]|].
  exfalso. apply list_find_None in Hno. rewrite Forall_forall in Hno.
  assert (nvacant (icache s) = 0) as H0; [|lia]. apply tally_zero. intros y Hy. unfold vacant. rewrite decide_False; [done|]. by apply Hno.
Qed.

(** C26: path lookup.  On a volume whose inodes in use are closed under directory
    entries, with nothing locked and two free cache entries, [namex] of any path
    returns: the inode that the elements of the path, cut to [DIRSIZ] bytes, lead
    to from the root or the current directory, or its directory and the last
    element for [nameiparent]; or nothing, if an element is missing or is looked up
    in something that is no directory.  Nothing is left locked and no block is
    changed, and every reference it took is given back except one to the inode it
    returns. *)
Theorem namex_resolves V F devread live cwd xc path (parent : bool) name s :
  fs_ok v V → (∀ num, live num → node_ok v V live num) → txn s V F ∅ → sb s = v →
  cache_ok v V live (icache s) → unlocked (icache s) → 2 ≤ nvacant (icache s) → length name = DIRSIZ → cstr_ok path →
  live ROOTINO → icache s !! cwd = Some xc → iref xc > 0 →
  let start := if bool_decide (head path = Some slash) then ROOTINO else inum xc in
  let target := resolve v V parent start (elems path) in
  ∃ r nm s', namex true devread cwd path parent name s = Ok ((r, nm), s') ∧
    txn s' V F ∅ ∧ unlocked (icache s') ∧ cache_ok v V live (icache s') ∧
    match target with Some t => ∃ ip y, r = Some ip ∧ icache s' !! ip = Some y ∧ inum y = t ∧ iref y > 0 | None => r = None end ∧
    (parent = true → r ≠ None → ∃ e, last (elems path) = Some e ∧ cname DIRSIZ nm = take DIRSIZ e) ∧
    ∀ n, count (icache s') n = count (icache s) n + (match target with Some t => one n t | None => 0 end).
Proof using Hv.
  intros HV Hlive Htx Hs Hc Hu Hfree Hname Hpath Hroot Hcwd Hcp start target. unfold namex.
  destruct (namex_start V live cwd xc path s Hc Hfree Hroot Hcwd Hcp) as (i & l & Hr & Hg). fold start in Hg.
  rewrite (bind_ok _ _ _ _ _ Hr). destruct (got_start _ _ _ _ _ _ _ Hg Hu) as (z & Hz & Zn & Zp & Zf & Zu).
  destruct (namex_loop_ok v Hv V HV F devread live Hlive parent (S (length path)) (mkfs (fl s) (sb s) l) i z path name)
    as (r & nm & s' & R & (A & B & C & D & G & H) & Hpar); try done.
  - by apply (txn_frame s).
  - apply Hg.
  - simpl. lia.
  - lia.
  - rewrite Zn in *. exists r, nm, s'. split_and!; try done. intros n. rewrite H. simpl. rewrite (go_count _ _ _ _ _ _ _ Hg). fold target. lia.
Qed.
End claims.

Module NameEx.
Import Vol.
Definition live (num : Z) : Prop := num = ROOTINO.
Lemma entries i x : icache start0 !! i = Some x → (i = 0%nat ∧ x = root) ∨ x = set_iref 0 root.
Proof.
  unfold start0. cbn [icache]. destruct i as [|i]; cbn [lookup list_lookup]; [intros [=<-]; by left|].
  intros H. apply lookup_replicate in H as [-> _]. by right.
Qed.
Lemma root_disk : dnode sbv V0 ROOTINO = set_ilock false (set_iref 0 root).
Proof. unfold dnode, on_disk. rewrite V0_total by (vm_compute; split; congruence). vm_compute. reflexivity. Qed.
Lemma root_loaded : on_disk sbv V0 root = root.
Proof. unfold on_disk. rewrite V0_total by (vm_compute; split; congruence). vm_compute. reflexivity. Qed.
Lemma cache0 : cache_ok sbv V0 live (icache start0).
Proof.
  split.
  - intros i x [[_ ->]| ->]%entries; simpl; lia.
  - intros i j x y [[-> ->]| ->]%entries [[-> ->]| ->]%entries Hx Hy; [done|simpl in *; lia..].
  - intros i x [[_ ->]| ->]%entries Hx; [|simpl in Hx; lia]. split; [done|]. split; [done|]. intros _. exact root_loaded.
Qed.
Lemma unlocked0 : unlocked (icache start0).
Proof. intros i x [[_ ->]| ->]%entries; done. Qed.
Lemma free_entries : nvacant (icache start0) = 49.
Proof. vm_compute. reflexivity. Qed.
Lemma root_node : node_ok sbv V0 live ROOTINO.
Proof.
  split.
  - simpl. unfold ROOTINO. lia.
  - eapply file_ok_ext; [..|exact root_ok]; by rewrite root_disk.
  - by rewrite root_disk.
  - by rewrite root_disk.
  - intros _. rewrite root_disk. split; [done|]. intros e He. exfalso. by apply elem_of_nil in He.
Qed.
Lemma nodes num : live num → node_ok sbv V0 live num.
Proof. intros ->. exact root_node. Qed.
Lemma abc_path : cstr_ok (slash :: VolEx.abc).
Proof. repeat constructor; lia. Qed.
Lemma no_abc : resolve sbv V0 false ROOTINO (elems (slash :: VolEx.abc)) = None.
Proof. change (elems (slash :: VolEx.abc)) with [VolEx.abc]. cbn [resolve]. rewrite root_disk. vm_compute. reflexivity. Qed.
End NameEx.

Lemma inode_cache_references_witness :
  (∃ i s', iget ROOTDEV ROOTINO Vol.start0 = Ok (i, s')) ∧ (∃ s', idup 0 Vol.start0 = Ok (0%nat, s')) ∧ ∃ s', iput true 0 Vol.start0 = Ok (tt, s').
Proof.
  destruct (inode_cache_references Vol.sbv Vol.V0 NameEx.live Vol.start0 NameEx.cache0) as [H1 H2]. split.
  - destruct (H1 ROOTINO eq_refl) as [(i & l & z & Hr & _)|(_ & _ & Hn)]; [by eexists i, _|]. rewrite NameEx.free_entries in Hn. discriminate.
  - destruct (H2 0%nat Vol.root eq_refl ltac:(simpl; lia)) as [(l & Hd & _) Hp]. split; [by eexists|].
    destruct (Hp eq_refl ltac:(intros _; discriminate)) as (l' & Hp' & _). by eexists.
Defined.

Lemma namex_resolves_witness : (∃ ip nm s', namex true VolEx.no_read 0 [slash] false (replicate 14 0) Vol.start0 = Ok ((Some ip, nm), s')) ∧
  ∃ nm s', namex true VolEx.no_read 0 (slash :: VolEx.abc) false (replicate 14 0) Vol.start0 = Ok ((None, nm), s').
Proof.
  assert (2 ≤ nvacant (icache Vol.start0)) as Hfree by (rewrite NameEx.free_entries; lia). split.
  - destruct (namex_resolves Vol.sbv Vol.sbv_ok Vol.V0 Vol.F0 VolEx.no_read NameEx.live 0 Vol.root [slash] false (replicate 14 0) Vol.start0
      Vol.V0_ok NameEx.nodes Vol.start_txn eq_refl NameEx.cache0 NameEx.unlocked0 Hfree eq_refl ltac:(repeat constructor; lia) eq_refl eq_refl ltac:(simpl; lia))
      as (r & nm & s' & Hr & _ & _ & _ & (ip & y & Er & _) & _). exists ip, nm, s'. rewrite <- Er. exact Hr.
  - destruct (namex_resolves Vol.sbv Vol.sbv_ok Vol.V0 Vol.F0 VolEx.no_read NameEx.live 0 Vol.root (slash :: VolEx.abc) false (replicate 14 0) Vol.start0
      Vol.V0_ok NameEx.nodes Vol.start_txn eq_refl NameEx.cache0 NameEx.unlocked0 Hfree eq_refl NameEx.abc_path eq_refl eq_refl ltac:(simpl; lia))
      as (r & nm & s' & Hr & _ & _ & _ & Ht & _).
    change (if bool_decide (head (slash :: VolEx.abc) = Some slash) then ROOTINO else inum Vol.root) with ROOTINO in Ht.
    rewrite NameEx.no_abc in Ht. exists nm, s'. rewrite <- Ht. exact Hr.
Defined.
