(* ===== verification/FsTxn.v ===== *)
(** * Whole transactions

    From a disk at rest, [begin_op], file-system code and [end_op] lead to a disk at
    rest again, with everything the code wrote installed at its place. *)
From stdpp Require Import base numbers list gmap sets strings.
From S2P Require Import Prelude Bytes XString Bio Log LogFacts LogClaims Fs FsFacts FsBlocks FsInode FsIO FsDinode FsUpdate.
#[local] Open Scope Z_scope.

(** ** What block operations leave alone in the log *)
Definition conf (l : log) : Z * Z * Z * Z * bool := (start l, lsize l, ldev l, outstanding l, committing l).
Definition keeps_conf {A} (m : M fstate A) : Prop := ∀ s a s', m s = Ok (a, s') → conf (lg (fl s')) = conf (lg (fl s)).

Section keeps.
Lemma kc_bind {A B} (m : M fstate A) (k : A → M fstate B) : keeps_conf m → (∀ a, keeps_conf (k a)) → keeps_conf (m ≫= k).
Proof. intros Hm Hk s b s' Hr. apply bind_inv in Hr as (a & s1 & H1 & H2). rewrite (Hk _ _ _ _ H2). by eapply Hm. Qed.
Lemma kc_ret {A} (a : A) : keeps_conf (mret a).
Proof. intros s b s' Hr. by injection Hr as _ <-. Qed.
Lemma kc_fail {A} e : keeps_conf (@fail fstate A e).
Proof. by intros s b s' Hr. Qed.
Lemma kc_panic {A} e : keeps_conf (@panic fstate A e).
Proof. by intros s b s' Hr. Qed.
Lemma kc_lift {A} (r : res A) : keeps_conf (lift r).
Proof. intros s b s' Hr. unfold lift in Hr. destruct r; [|done]. by injection Hr as _ <-. Qed.
Lemma kc_gets {A} (f : fstate → A) : keeps_conf (gets f).
Proof. intros s b s' Hr. by injection Hr as _ <-. Qed.
Lemma kc_buf {A} (m : M bcache A) : keeps_conf (on_buf m).
Proof.
  intros s a s' Hr. unfold on_buf, on_log, on_bc in Hr. destruct (m (bc (fl s))) as [[b c]|]; [|done]. by injection Hr as _ <-.
Qed.
Lemma kc_bread dev b : keeps_conf (fbread true dev b).
Proof. apply kc_buf. Qed.
Lemma kc_brelse i : keeps_conf (fbrelse i).
Proof. apply kc_buf. Qed.
Lemma kc_data i : keeps_conf (fdata i).
Proof. apply kc_buf. Qed.
Lemma kc_set_data i d : keeps_conf (fset_data i d).
Proof. apply kc_buf. Qed.
Lemma kc_get i : keeps_conf (get_inode i).
Proof. intros s a s' Hr. unfold get_inode in Hr. destruct (icache s !! i); [|done]. by injection Hr as _ <-. Qed.
Lemma kc_put i x : keeps_conf (put_inode i x).
Proof. intros s a s' Hr. by injection Hr as _ <-. Qed.
Lemma kc_log i : keeps_conf (flog_write i).
Proof.
  intros s a s' Hr. unfold flog_write, on_log in Hr. destruct (log_write i (fl s)) as [[[] l]|] eqn:Hw; [|done]. injection Hr as _ <-. simpl.
  unfold log_write in Hw. rewrite (bind_ok _ _ _ _ _ (gets_lg _)) in Hw. destruct (_ || _); [done|]. case_bool_decide; [done|].
  apply bind_inv in Hw as (x & s1 & H1%keeps_lg_bc & Hw). apply bind_inv in Hw as (bs & s2 & H2%keeps_lg_lift & Hw).
  apply bind_inv in Hw as ([] & s3 & H3 & Hw). injection H3 as <-. apply bind_inv in Hw as ([] & s4 & H4 & Hw%keeps_lg_bc).
  rewrite Hw. case_bool_decide; injection H4 as <-; simpl; by rewrite H2, H1.
Qed.
End keeps.
Create HintDb keeps.
#[export] Hint Resolve kc_ret kc_fail kc_panic kc_lift kc_gets kc_buf kc_bread kc_brelse kc_data kc_set_data kc_get kc_put kc_log : keeps.
Ltac keeps := repeat match goal with
  | |- keeps_conf (_ ≫= _) => apply kc_bind; [|intros ?]
  | |- keeps_conf (upd_inode _ _) => unfold upd_inode
  | |- keeps_conf (if ?b then _ else _) => destruct b
  | |- keeps_conf (match ?o with _ => _ end) => destruct o
  | |- _ => solve [auto with keeps]
  end.

Lemma balloc_keeps dev : keeps_conf (balloc true dev).
Proof.
  unfold balloc. apply kc_bind; [auto with keeps|]. intros v. generalize (Z.to_nat (sb_size v / BPB + 2)) as fuel, 0 as b.
  induction fuel as [|fuel IH]; intros b; cbn [balloc_loop]; unfold bzero; keeps.
Qed.
#[export] Hint Resolve balloc_keeps : keeps.
Lemma bmap_keeps ip k : keeps_conf (bmap true ip k).
Proof. unfold bmap. keeps. Qed.
#[export] Hint Resolve bmap_keeps : keeps.
Lemma iupdate_keeps ip : keeps_conf (iupdate true ip).
Proof. unfold iupdate. keeps. Qed.
#[export] Hint Resolve iupdate_keeps : keeps.
Lemma writei_loop_keeps fuel ip src : ∀ off tot n, keeps_conf (writei_loop true fuel ip src off tot n).
Proof. induction fuel as [|fuel IH]; intros off tot n; cbn [writei_loop]; keeps. Qed.
#[export] Hint Resolve writei_loop_keeps : keeps.
Lemma writei_keeps devwrite ip src off n s x a s' : icache s !! ip = Some x → itype x ≠ T_DEV →
  writei true devwrite ip src off n s = Ok (a, s') → conf (lg (fl s')) = conf (lg (fl s)).
Proof.
  intros Hx Hty. unfold writei. rewrite (bind_ok _ _ s x s) by (unfold get_inode; by rewrite Hx).
  rewrite bool_decide_eq_false_2 by done. intros Hr. match type of Hr with ?m s = _ => assert (keeps_conf m) as Hk by keeps end.
  by eapply Hk.
Qed.

(** ** A disk at rest *)
Section txns.
Context (v : superblock) (Hv : sb_ok v).
(** The log that mkfs makes lies between the superblock and the inodes. *)
Definition log_ok : Prop := 1 < logstart v ∧ nlog v = LOGSIZE ∧ logstart v + nlog v ≤ inodestart v.
Context (Hlog : log_ok).
#[local] Abbreviation home := (home (logstart v) (nlog v)).

Definition configured (l : log) (ops : Z) : Prop := conf l = (logstart v, LOGSIZE, ROOTDEV, ops, false).

Record idle (s : fstate) (V : gmap Z (list Z)) : Prop := {
  idl_inv : binv (bc (fl s)) V ∅ ∅;
  idl_conf : configured (lg (fl s)) 0;
  idl_logs : logs (lg (fl s)) [];
  idl_head : ∃ h, V !! logstart v = Some h ∧ header h [] }.

(** Everything outside the log area. *)
Definition agree (V V' : gmap Z (list Z)) : Prop := ∀ b, home b → V' !! b = V !! b.

Lemma layout b : b = 1 ∨ inodestart v ≤ b → 0 ≤ b < FSSIZE → home b.
Proof using Hlog. destruct Hlog as (H1 & H2 & H3). intros Hb Hr. split; [done|]. lia. Qed.

(** At rest the disk has everything. *)
Lemma idle_disk s V b d : idle s V → V !! b = Some d → disk (bc (fl s)) !! (ROOTDEV, b) = Some d.
Proof using. intros Hi Hb. apply (bi_disk _ _ _ _ (idl_inv _ _ Hi)); [done|apply not_elem_of_empty..]. Qed.

Lemma begin_op_ok s V F : idle s V → (size F ≤ 28)%nat →
  runs (on_log begin_op) s (λ b s', b = true ∧ txn s' V F ∅ ∧ configured (lg (fl s')) 1 ∧ sb s' = sb s ∧ icache s' = icache s).
Proof using.
  intros [Hi Hc Hl _] HF. unfold configured, conf in *. injection Hc as C1 C2 C3 C4 C5. apply runs_on_log. unfold begin_op.
  eapply runs_bind, runs_gets. rewrite C5. pose proof (lo_n _ _ Hl) as Hn. simpl in Hn.
  rewrite bool_decide_eq_false_2 by (rewrite Hn, C4; unfold LOGSIZE, MAXOPBLOCKS; lia).
  eapply runs_bind, runs_modify, runs_ret. split; [done|]. simpl. split.
  - split; simpl; [|done|done|lia]. exists []. split; [done|]. split; [destruct Hl as [L1 L2 L3]; by split|].
    split; [constructor|]. split; [apply empty_subseteq|]. intros b Hb. by destruct (not_elem_of_empty b Hb).
  - by rewrite C1, C2, C3, C4, ?C5.
Qed.

Lemma apply_view_some ws : ∀ V b, is_Some (V !! b) → is_Some (apply_view V ws !! b).
Proof using.
  induction ws as [|w ws IH]; intros V b Hb; [done|]. apply IH. destruct (decide (w.1.2 = b)) as [->|Hne].
  - rewrite lookup_insert_eq. eauto.
  - by rewrite lookup_insert_ne.
Qed.
Lemma apply_view_vol ws : ∀ V, vol V → Forall (λ w : Z * Z * list Z, block_ok w.2) ws → vol (apply_view V ws).
Proof using.
  induction ws as [|w ws IH]; intros V HV Hws; [done|]. apply Forall_cons in Hws as [Hw Hws]. apply IH; [|done]. by apply vol_insert.
Qed.

Lemma end_op_ok s V F : txn s V F ∅ → configured (lg (fl s)) 1 → vol V → (∃ h, V !! logstart v = Some h ∧ header h []) →
  (∀ b, b ∈ F → inodestart v ≤ b) →
  runs (on_log (end_op true)) s (λ _ s', ∃ V', idle s' V' ∧ vol V' ∧ agree V V' ∧ sb s' = sb s ∧ icache s' = icache s).
Proof using Hv Hlog.
  intros [(bl & Hi & Hl & Hnd & HF & _) Hsz _ _] Hc HV (h & Hh & Hhd) Hhome. pose proof Hc as Hc'. unfold configured, conf in Hc. injection Hc as C1 C2 C3 C4 C5.
  destruct Hlog as (G1 & G2 & G3). change LOGSIZE with 30 in G2. pose proof (lo_n _ _ Hl) as Hn.
  assert (length bl ≤ 28)%nat as Hlen.
  { pose proof (subseteq_size (list_to_set bl : gset Z) F HF) as Hs. rewrite size_list_to_set in Hs by done. lia. }
  pose proof (so_size _ Hv). pose proof (so_bmap _ Hv). pose proof (so_inodes _ Hv) as (_ & I1 & I2). assert (0 ≤ ninodes v / IPB) by (apply Z.div_pos; [done|unfold IPB; lia]).
  apply runs_on_log. unfold end_op. eapply runs_bind, runs_gets. cbv zeta. rewrite C4. eapply runs_bind, runs_modify. rewrite C5.
  rewrite bool_decide_eq_true_2 by done. eapply runs_bind, runs_modify. cbn [bc lg]. set (l1 := set_ops _ _ (set_ops _ _ _)).
  unfold commit. eapply runs_bind, runs_bind, runs_gets. change (lh_n (lg (mkls (bc (fl s)) l1))) with (lh_n (lg (fl s))). case_bool_decide as Hp.
  - destruct (commit_run (logstart v) (nlog v)) with (l := l1) (c := bc (fl s)) (V := V) (bl := bl) (h := h)
      as (ds & h1 & h2 & c' & Hds & Hh1 & Hh2 & Hr & I' & _); try done; try (unfold LOGSIZE, MAXOPBLOCKS, FSSIZE in *; lia).
    { intros t b Hb. split; [by apply (lo_block _ _ Hl)|].
      apply layout; [right|by eapply (lo_block _ _ Hl)]. apply Hhome, HF. apply elem_of_list_to_set. by eapply list_elem_of_lookup_2. }
    { intros b Hb. destruct (HV b Hb) as (d & -> & _). eauto. }
    eexists tt, _. split; [exact Hr|]. apply runs_modify. eexists. split; [|split; [|split; [|done]]].
    + split; cbn [fl bc lg sb icache].
      * exact I'.
      * unfold configured, conf. simpl. by rewrite C1, C2, C3.
      * split; simpl; [done|apply (lo_len _ _ Hl)|done].
      * exists h2. split; [apply lookup_insert_eq|done].
    + assert (Forall block_ok ds) as Hok.
      { apply Forall_forall. intros d [t Ht]%list_elem_of_lookup. destruct (Forall2_lookup_r _ _ _ _ _ Hds Ht) as (b & _ & Hb).
        destruct (HV b) as (d' & Hd' & Hok); [by apply (bi_dom _ _ _ _ Hi)|]. rewrite Hb in Hd'. by injection Hd' as <-. }
      apply vol_insert; [|apply Hh2]. apply apply_view_vol; [apply vol_insert; [|apply Hh1]; apply apply_view_vol; [done|]|].
      * clear - Hok. generalize (logstart v + 1) as a. induction Hok as [|d ds Hd _ IH]; intros a; simpl; constructor; auto.
      * clear - Hok. revert bl. induction Hok as [|d ds Hd _ IH]; intros [|b bl]; simpl; constructor; auto.
    + intros b Hb. pose proof Hb as [Hr' Hx]. rewrite lookup_insert_ne by lia. pose proof (Forall2_length _ _ _ Hds) as Hld.
      destruct (decide (b ∈ bl)) as [[t Ht]%list_elem_of_lookup|Hnb].
      * destruct (Forall2_lookup_l _ _ _ _ _ Hds Ht) as (d & Hd & HVd). rewrite HVd. by eapply view_home_in.
      * rewrite view_home_out by done. rewrite lookup_insert_ne by lia. rewrite view_log_out; [done|]. unfold LOGSIZE, MAXOPBLOCKS in *. lia.
  - assert (bl = []) as -> by (destruct bl; [done|simpl in Hn; lia]). apply runs_ret, runs_modify. exists V.
    split; [|split; [done|split; [done|done]]]. split; cbn [fl bc lg sb icache].
    + exact Hi.
    + unfold configured, conf. simpl. by rewrite C1, C2, C3.
    + split; simpl; [done|apply (lo_len _ _ Hl)|done].
    + by exists h.
Qed.

(** ** What does not depend on the log area *)
Section agree.
Context (V V' : gmap Z (list Z)) (HV : fs_ok v V) (HV' : vol V') (Ha : agree V V').

Lemma agree_total b : b = 1 ∨ inodestart v ≤ b → 0 ≤ b < FSSIZE → V' !!! b = V !!! b.
Proof using Hlog Ha. intros Hb Hr. rewrite !lookup_total_alt. rewrite (Ha b); [done|]. exact (layout b Hb Hr). Qed.
Lemma agree_meta b : 1 < b → inodestart v ≤ b < sb_size v → V' !!! b = V !!! b.
Proof using Hv Hlog Ha. intros H1 H2. pose proof (so_size _ Hv). apply agree_total; [right; lia|lia]. Qed.
Lemma agree_bm : V' !!! bmapstart v = V !!! bmapstart v.
Proof using Hv Hlog Ha.
  pose proof (so_bmap _ Hv). pose proof (so_inodes _ Hv) as (_ & I1 & I2).
  assert (0 ≤ ninodes v / IPB) by (apply Z.div_pos; [done|unfold IPB; lia]). apply agree_meta; lia.
Qed.
Lemma agree_fs : fs_ok v V'.
Proof using Hv Hlog HV HV' Ha.
  pose proof (so_size _ Hv). pose proof (so_bmap _ Hv). destruct HV as [H1 H2 (d & H3 & H4)]. split; [done| |].
  - intros c Hc. unfold used, fmap_of. rewrite agree_bm. by apply H2.
  - exists d. split; [|done]. rewrite Ha; [done|]. apply layout; [by left|unfold FSSIZE in *; lia].
Qed.
Lemma agree_free : nfree v V' = nfree v V.
Proof using Hv Hlog Ha. unfold nfree, fmap_of. by rewrite agree_bm. Qed.
Lemma agree_inode num : 0 ≤ num < ninodes v → V' !!! IBLOCK num v = V !!! IBLOCK num v.
Proof using Hv Hlog Ha.
  intros Hn. destruct (IBLOCK_ok v Hv _ Hn) as [Hr E]. pose proof (so_bmap _ Hv). apply agree_meta; [lia|].
  assert (0 ≤ num / IPB) by (apply Z.div_pos; unfold IPB; lia). lia.
Qed.
Section file.
Context (x : inode) (Hx : file_ok v x V).
Lemma agree_block b : bmapstart v < b < sb_size v → V' !!! b = V !!! b.
Proof using Hv Hlog Ha.
  clear Hx. intros Hb. pose proof (so_bmap _ Hv). pose proof (so_inodes _ Hv) as (_ & I1 & I2).
  assert (0 ≤ ninodes v / IPB) by (apply Z.div_pos; [done|unfold IPB; lia]). apply agree_meta; lia.
Qed.
Lemma agree_ind : ind x ≠ 0 → V' !!! ind x = V !!! ind x.
Proof using Hv Hlog Ha Hx. intros Hi. by apply agree_block, (fo_ind _ _ _ Hx). Qed.
Lemma agree_file : file_ok v x V'.
Proof using Hv Hlog Ha Hx. apply (elsewhere_file v x V V'); [apply agree_bm|apply agree_ind|done]. Qed.
Lemma agree_content : content x V' = content x V.
Proof using Hv Hlog Ha Hx.
  unfold content. apply list_fmap_ext. intros i o Ho%list_elem_of_lookup_2%elem_of_seqZ. unfold byte_at.
  rewrite (elsewhere_blk x V V' agree_ind). pose proof (fo_size _ _ _ Hx).
  assert (0 ≤ o / Z.of_nat BSIZE < MAXFILE) as Hk by (split; [apply Z.div_pos; unfold BSIZE; lia|apply Z.div_lt_upper_bound; unfold BSIZE in *; lia]).
  rewrite agree_block; [done|]. apply (fo_data _ _ _ Hx); [done|]. apply (fo_alloc _ _ _ Hx); [lia|].
  pose proof (Z.mul_div_le o (Z.of_nat BSIZE) ltac:(unfold BSIZE; lia)). lia.
Qed.
Lemma agree_synced : 0 ≤ inum x < ninodes v → synced v x V → synced v x V'.
Proof using Hv Hlog Ha. clear Hx. intros Hn. unfold synced. by rewrite agree_inode. Qed.
End file.
End agree.

(** At rest the blocks are those of the disk. *)
Lemma at_rest_view s V : idle s V → vol V → V = disk_view (disk (bc (fl s))).
Proof using.
  intros Hi HV. apply map_eq. intros b. destruct (decide (0 ≤ b < FSSIZE)) as [Hb|Hb].
  - destruct (HV b Hb) as (d & Hd & _). rewrite Hd. symmetry. apply disk_view_Some. split; [done|]. by apply (idle_disk s V).
  - rewrite (proj2 (eq_None_not_Some (V !! b))); [|by intros Hs%(bi_dom _ _ _ _ (idl_inv _ _ Hi))]. symmetry.
    apply eq_None_not_Some. by intros [d [? _]%disk_view_Some].
Qed.
End txns.
