(* ===== verification/Mkfs.v ===== *)
(** * mkfs: making a file system

    Models [src/lab3/xv6-public/mkfs.c] (the same file is in lab4), the program
    that writes the disk image the kernel starts from.  The image file is a map
    from block numbers to blocks, all that the program ever reads or writes of it.
    A call of [exit(1)] and a failed assertion are a [Panic] with the failing call.
    The files to copy are given by what reading them returns, call by call. *)
From stdpp Require Import base numbers list gmap sets strings.
From S2P Require Import Prelude Bytes XString Bio Log Fs.
#[local] Open Scope Z_scope.

Definition NINODES : Z := 200.

(** [xint] and [xshort] store the bytes of a number, lowest first; the value is
    what a little-endian host reads back. *)
Definition xshort (x : Z) : Z := le_val [u8 x; u8 (Z.shiftr x 8)].
Definition xint (x : Z) : Z := le_val [u8 x; u8 (Z.shiftr x 8); u8 (Z.shiftr x 16); u8 (Z.shiftr x 24)].

Definition nbitmap : Z := FSSIZE / (Z.of_nat BSIZE * 8) + 1.
Definition ninodeblocks : Z := NINODES / IPB + 1.
Definition nlog : Z := LOGSIZE.
Definition nmeta : Z := 2 + nlog + ninodeblocks + nbitmap.
Definition nblocks : Z := FSSIZE - nmeta.
Definition sb : superblock :=
  mksb (xint FSSIZE) (xint nblocks) (xint NINODES) (xint nlog) (xint 2) (xint (2 + nlog)) (xint (2 + nlog + ninodeblocks)).

(** [struct dinode] *)
Record dinode : Type := mkdinode { dtype : Z; dmajor : Z; dminor : Z; dnlink : Z; dsize : Z; daddrs : list Z }.
Definition set_dsize (n : Z) (d : dinode) : dinode := mkdinode (dtype d) (dmajor d) (dminor d) (dnlink d) n (daddrs d).
Definition set_daddr (k : nat) (a : Z) (d : dinode) : dinode :=
  mkdinode (dtype d) (dmajor d) (dminor d) (dnlink d) (dsize d) (<[k := a]> (daddrs d)).
(** The same as an inode of the kernel's cache that nobody uses. *)
Definition in_core (num : Z) (d : dinode) : inode :=
  mkinode ROOTDEV num 0 false true (dtype d) (dmajor d) (dminor d) (dnlink d) (dsize d) (daddrs d).

Record image : Type := mkimage { img : gmap Z (list Z); freeinode : Z; freeblock : Z }.

(** ** Blocks *)

(** The block at the offset [sec * BSIZE], an unsigned product. *)
Definition at_sector (sec : Z) : Z := u32 (sec * Z.of_nat BSIZE) / Z.of_nat BSIZE.
Definition wsect (sec : Z) (buf : list Z) : M image unit :=
  modify (λ s, mkimage (<[at_sector sec := buf]> (img s)) (freeinode s) (freeblock s)).
Definition rsect (sec : Z) : M image (list Z) := λ s,
  match img s !! at_sector sec with Some d => Ok (d, s) | None => Fault (Panic "read") end.
(** [freeblock++] *)
Definition next_block : M image Z := λ s, Ok (freeblock s, mkimage (img s) (freeinode s) (u32 (freeblock s + 1))).

Fixpoint mark_bits (n : nat) (i : Z) (buf : list Z) : res (list Z) :=
  match n with
  | O => mret buf
  | S n =>
    x ← getb buf (i / 8);
    buf ← putb buf (i / 8) (Z.lor x (Z.shiftl 1 (i `mod` 8)));
    mark_bits n (i + 1) buf
  end.
Definition balloc (used : Z) : M image unit :=
  if bool_decide (used < Z.of_nat BSIZE * 8) then
    buf ← lift (mark_bits (Z.to_nat used) 0 (replicate BSIZE 0));
    wsect (bmapstart sb) buf
  else panic "assert".

(** ** Inodes *)
Definition winode (inum : Z) (ip : dinode) : M image unit :=
  let bn := IBLOCK inum sb in
  buf ← rsect bn;
  buf ← lift (store_dinode buf (in_core inum ip));
  wsect bn buf.
Definition rinode (inum : Z) : M image dinode :=
  let bn := IBLOCK inum sb in
  buf ← rsect bn;
  x ← lift (load_dinode buf (in_core inum (mkdinode 0 0 0 0 0 [])));
  mret (mkdinode (itype x) (imajor x) (iminor x) (inlink x) (isize x) (iaddrs x)).
Definition ialloc (type : Z) : M image Z :=
  inum ← (λ s, Ok (freeinode s, mkimage (img s) (u32 (freeinode s + 1)) (freeblock s)));
  winode inum (mkdinode (s16 (xshort type)) 0 0 (s16 (xshort 1)) (xint 0) (replicate (S NDIRECT) 0));;
  mret inum.

(** ** File contents *)

(** The block of the file at index [fbn], allocated if there is none. *)
Definition direct_block (din : dinode) (fbn : Z) : M image (dinode * Z) :=
  a ← lift (of_option (daddrs din !! Z.to_nat fbn));
  if bool_decide (xint a = 0) then
    fb ← next_block;
    mret (set_daddr (Z.to_nat fbn) (xint fb) din, xint (xint fb))
  else mret (din, xint a).
Definition indirect_entry (din : dinode) (fbn : Z) : M image (dinode * Z) :=
  a ← lift (of_option (daddrs din !! NDIRECT));
  indirect ← rsect (xint a);
  let j := fbn - Z.of_nat NDIRECT in
  e ← lift (load 4 indirect (4 * j));
  if bool_decide (e = 0) then
    fb ← next_block;
    indirect ← lift (store 4 indirect (4 * j) (xint fb));
    wsect (xint a) indirect;;
    mret (din, xint (xint fb))
  else mret (din, xint e).
Definition indirect_block (din : dinode) (fbn : Z) : M image (dinode * Z) :=
  a ← lift (of_option (daddrs din !! NDIRECT));
  din ← (if bool_decide (xint a = 0) then fb ← next_block; mret (set_daddr NDIRECT (xint fb) din) else mret din);
  indirect_entry din fbn.

Fixpoint iappend_loop (fuel : nat) (din : dinode) (off : Z) (p : list Z) (n : Z) : M image (dinode * Z) :=
  match fuel with
  | O => fail OutOfFuel
  | S fuel =>
    if bool_decide (0 < n) then
      let fbn := off / Z.of_nat BSIZE in
      if bool_decide (fbn < MAXFILE) then
        '(din, x) ← (if bool_decide (fbn < Z.of_nat NDIRECT) then direct_block din fbn else indirect_block din fbn);
        let n1 := Z.min n (u32 ((fbn + 1) * Z.of_nat BSIZE - off)) in
        buf ← rsect x;
        bs ← lift (load_bytes p 0 (Z.to_nat n1));
        buf ← lift (store_bytes buf (off - fbn * Z.of_nat BSIZE) bs);
        wsect x buf;;
        iappend_loop fuel din (u32 (off + n1)) (drop (Z.to_nat n1) p) (n - n1)
      else panic "assert"
    else mret (din, off)
  end.
Definition iappend (inum : Z) (xp : list Z) (n : Z) : M image unit :=
  din ← rinode inum;
  let off := xint (dsize din) in
  '(din, off) ← iappend_loop (Z.to_nat n + 1) din off xp n;
  winode inum (set_dsize (xint off) din).

(** ** The program *)

(** A directory entry; [strncpy] fills the array, [strcpy] of the two short names
    leaves the zeros of [bzero] behind the name. *)
Definition strncpy (s : list Z) (n : nat) : list Z := take n s ++ replicate (n - length s) 0.
Definition new_entry (inum : Z) (name : list Z) : res (list Z) :=
  de ← store 2 (replicate 16 0) 0 (xshort inum);
  store_bytes de 2 name.

(** An argument: its name and the results of reading the file, [None] if it cannot
    be opened. *)
Record arg : Type := mkarg { a_name : list Z; a_reads : option (list (list Z)) }.
Definition slash : Z := 47.
Definition underscore : Z := 95.

(** [while((cc = read(fd, buf, sizeof(buf))) > 0) iappend(inum, buf, cc);] *)
Fixpoint copy_in (inum : Z) (reads : list (list Z)) : M image unit :=
  match reads with
  | [] => mret tt
  | buf :: reads =>
    if bool_decide (0 < length buf)%nat then iappend inum buf (Z.of_nat (length buf));; copy_in inum reads
    else mret tt
  end.
(** The name under which a file is stored. *)
Definition stored_name (name : list Z) : list Z :=
  match name with c :: rest => if bool_decide (c = underscore) then rest else name | [] => name end.
Definition add_file (rootino : Z) (a : arg) : M image unit :=
  if bool_decide (slash ∈ a_name a) then panic "assert"
  else
    match a_reads a with
    | None => panic "open"
    | Some reads =>
      inum ← ialloc T_FILE;
      de ← lift (new_entry inum (strncpy (stored_name (a_name a)) DIRSIZ));
      iappend rootino de 16;;
      copy_in inum reads
    end.
Fixpoint add_files (rootino : Z) (args : list arg) : M image unit :=
  match args with
  | [] => mret tt
  | a :: args => add_file rootino a;; add_files rootino args
  end.

Fixpoint zero_blocks (n : nat) (i : Z) : M image unit :=
  match n with O => mret tt | S n => wsect i (replicate BSIZE 0);; zero_blocks n (i + 1) end.

(** The bytes of [sb], and zeros. *)
Definition sb_block : list Z :=
  let b := concat (map (le_bytes 4)
    [sb_size sb; Log.nblocks sb; ninodes sb; Log.nlog sb; logstart sb; inodestart sb; bmapstart sb]) in
  b ++ replicate (BSIZE - length b) 0.

(** The size of the root directory becomes a whole number of blocks. *)
Definition fix_root (rootino : Z) : M image unit :=
  din ← rinode rootino;
  let off := xint (dsize din) in
  let off := u32 ((off / Z.of_nat BSIZE + 1) * Z.of_nat BSIZE) in
  winode rootino (set_dsize (xint off) din).

Definition mkfs (args : list arg) : M image unit :=
  zero_blocks (Z.to_nat FSSIZE) 0;;
  wsect 1 sb_block;;
  rootino ← ialloc T_DIR;
  if bool_decide (rootino = ROOTINO) then
    de ← lift (new_entry rootino [46; 0]);
    iappend rootino de 16;;
    de ← lift (new_entry rootino [46; 46; 0]);
    iappend rootino de 16;;
    add_files rootino args;;
    fix_root rootino;;
    used ← gets freeblock;
    balloc used
  else panic "assert".
(** The state of a fresh process, with the image file just truncated. *)
Definition main (args : list arg) : res (gmap Z (list Z)) :=
  match mkfs args (mkimage ∅ 1 nmeta) with
  | Ok (_, s) => Ok (img s)
  | Fault f => Fault f
  end.
