(* ===== verification/MkfsFacts.v ===== *)
(** * Images in the making

    While [mkfs] runs, the free map is not yet in the image, but the blocks below
    [freeblock] are the ones in use.  With that map put in its place the image is a
    volume of the kernel's file system throughout, and appending to a file is what
    [writei] does there: the facts about growing files carry over. *)
From stdpp Require Import base numbers list gmap sets strings.
From S2P Require Import Prelude Bytes XString Bio Log LogFacts Fs FsFacts FsBlocks FsInode FsIO FsDinode FsUpdate FsTxn FsDir FsDirlink FsNames FsCache FsNamex Mkfs.
#[local] Open Scope Z_scope.

#[local] Abbreviation v := Mkfs.sb.

(** ** The layout *)
Lemma xint_id z : 0 ≤ z < 2^32 → xint z = z.
Proof.
  intros Hz. transitivity (le_val (le_bytes 4 z)); [|rewrite le_val_bytes; by apply Z.mod_small].
  unfold xint, u8. cbn [le_bytes]. rewrite !Z.shiftr_div_pow2 by lia. change (2^8) with 256. change (2^16) with (256 * 256). change (2^24) with (256 * 256 * 256).
  by rewrite <- !Z.div_div by lia.
Qed.
Lemma xshort_id z : 0 ≤ z < 2^16 → xshort z = z.
Proof.
  intros Hz. transitivity (le_val (le_bytes 2 z)); [|rewrite le_val_bytes; by apply Z.mod_small].
  unfold xshort, u8. cbn [le_bytes]. by rewrite !Z.shiftr_div_pow2 by lia.
Qed.
Lemma mk_sb : v = mksb 1000 941 200 30 2 32 58.
Proof. reflexivity. Qed.
Lemma bm58 : bmapstart v = 58.
Proof. reflexivity. Qed.
Lemma log2 : logstart v = 2.
Proof. reflexivity. Qed.
Lemma mk_sb_ok : sb_ok v.
Proof. rewrite mk_sb. split; unfold FSSIZE, IPB; simpl; [lia|lia|]. split_and!; [lia|lia|done]. Qed.
Lemma mk_log_ok : log_ok v.
Proof. rewrite mk_sb. unfold log_ok, LOGSIZE, MAXOPBLOCKS. simpl. lia. Qed.

(** ** The free map *)
Definition bits (n : Z) : list Z := foldl set_bit zeros (seqZ 0 n).

Lemma mark_bits_ok n : ∀ i d, block_ok d → 0 ≤ i → i + Z.of_nat n ≤ BPB →
  mark_bits n i d = Ok (foldl set_bit d (seqZ i (Z.of_nat n))) ∧ block_ok (foldl set_bit d (seqZ i (Z.of_nat n))).
Proof.
  induction n as [|n IH]; intros i d Hd Hi Hn; [done|]. rewrite seqZ_cons by lia. cbn [mark_bits foldl].
  destruct (bit_byte _ Hd i ltac:(lia)) as (x & Hx & Ht & Hxb & Hl & Hg). rewrite Hg. cbn [mbind res_bind].
  assert (0 ≤ i / 8) by (apply Z.div_pos; lia). assert (i / 8 < 512) by (apply Z.div_lt_upper_bound; unfold BPB, BSIZE in *; lia).
  rewrite putb_ok by (rewrite (proj1 Hd); unfold BSIZE; lia). cbn [mbind res_bind].
  rewrite u8_small by (apply byte_lor; [done|apply byte_mask]). replace (Z.pred (Z.of_nat (S n))) with (Z.of_nat n) by lia.
  replace (<[Z.to_nat (i / 8):=Z.lor x (Z.shiftl 1 (i `mod` 8))]> d) with (set_bit d i) by (unfold set_bit; by rewrite Ht).
  apply IH; [apply set_bit_ok; [done|lia]|lia|lia].
Qed.
Lemma bits_marked n : 0 ≤ n ≤ BPB → mark_bits (Z.to_nat n) 0 zeros = Ok (bits n) ∧ block_ok (bits n).
Proof.
  intros Hn. unfold bits. rewrite <- (Z2Nat.id n) at 2 3 by lia. apply mark_bits_ok; [apply zeros_ok|lia|lia].
Qed.
Lemma bits_succ n : 0 ≤ n → set_bit (bits n) n = bits (n + 1).
Proof. intros Hn. unfold bits. rewrite seqZ_app, foldl_app by lia. by rewrite Z.add_0_l. Qed.
Lemma bit_bits n c : 0 ≤ n ≤ BPB → 0 ≤ c < BPB → bit (bits n) c = bool_decide (c < n).
Proof.
  intros [H0 Hn] Hc. revert n H0 Hn. refine (natlike_ind (λ n, n ≤ BPB → bit (bits n) c = bool_decide (c < n)) _ _).
  - intros _. rewrite bool_decide_eq_false_2 by lia. unfold bit, bits, zeros. change (seqZ 0 0) with (@nil Z). cbn [foldl].
    assert (c / 8 < 512) by (apply Z.div_lt_upper_bound; unfold BPB, BSIZE in *; lia).
    rewrite lookup_total_replicate_2 by (unfold BSIZE; lia). apply Z.testbit_0_l.
  - intros m Hm IH HB. rewrite <- Z.add_1_r in *. rewrite <- bits_succ, (bit_set _ (proj2 (bits_marked m ltac:(lia)))) by lia.
    destruct (decide (c = m)) as [->|E]; [by rewrite bool_decide_eq_true_2 by lia|]. rewrite IH by lia. apply bool_decide_ext. lia.
Qed.

(** ** The image as a volume *)
Definition world (s : image) : gmap Z (list Z) := <[bmapstart v := bits (freeblock s)]> (img s).
Record good (s : image) : Prop := {
  g_fb : nmeta ≤ freeblock s ≤ FSSIZE;
  g_fs : fs_ok v (world s);
  g_zero : ∀ b, freeblock s ≤ b < FSSIZE → img s !! b = Some zeros;
  g_log : img s !! logstart v = Some zeros }.

Definition put (b : Z) (d : list Z) (s : image) : image := mkimage (<[b := d]> (img s)) (freeinode s) (freeblock s).
Definition bump (s : image) : image := mkimage (img s) (freeinode s) (freeblock s + 1).

Lemma FSSIZE_BPB : FSSIZE ≤ BPB.
Proof. unfold FSSIZE, BPB, BSIZE. lia. Qed.
Lemma world_fmap s : fmap_of v (world s) = bits (freeblock s).
Proof. unfold fmap_of, world. by rewrite lookup_total_insert_eq. Qed.
Lemma world_used s b : good s → 0 ≤ b < BPB → used v (world s) b ↔ b < freeblock s.
Proof.
  intros Hg Hb. pose proof (g_fb _ Hg). pose proof FSSIZE_BPB. change nmeta with 59 in *. unfold used. rewrite world_fmap, bit_bits by lia.
  by rewrite bool_decide_eq_true.
Qed.
Lemma world_free s : good s → freeblock s < FSSIZE → first_free (fmap_of v (world s)) (sb_size v) (freeblock s).
Proof.
  intros Hg Hb. pose proof (g_fb _ Hg). pose proof FSSIZE_BPB. change nmeta with 59 in *. rewrite world_fmap. split; [rewrite mk_sb; simpl; unfold FSSIZE in *; lia|].
  split; [rewrite bit_bits by lia; by apply bool_decide_eq_false_2; lia|]. intros c Hc. rewrite bit_bits by lia. apply bool_decide_eq_true_2. lia.
Qed.
Lemma world_other s b : b ≠ bmapstart v → world s !! b = img s !! b.
Proof. intros Hb. unfold world. by rewrite lookup_insert_ne. Qed.
Lemma world_put s b d : b ≠ bmapstart v → world (put b d s) = <[b := d]> (world s).
Proof. intros Hb. unfold world. cbn [img freeblock put]. by rewrite insert_insert_ne. Qed.
Lemma world_bump s : good s → freeblock s < FSSIZE → world (bump s) = alloc_view v (world s) (freeblock s).
Proof.
  intros Hg Hb. pose proof (g_fb _ Hg) as Hfb. change nmeta with 59 in Hfb. unfold alloc_view. rewrite world_fmap, bits_succ by lia. unfold world. cbn [img freeblock bump].
  rewrite insert_insert_eq. apply map_eq. intros c. destruct (decide (c = freeblock s)) as [->|Hc].
  - rewrite lookup_insert_eq, lookup_insert_ne by (rewrite mk_sb; simpl; lia). apply (g_zero _ Hg). lia.
  - by rewrite (lookup_insert_ne _ (freeblock s)).
Qed.

Lemma good_bump s : good s → freeblock s < FSSIZE → good (bump s).
Proof.
  intros Hg Hb. pose proof (g_fb _ Hg). split.
  - cbn [freeblock bump]. lia.
  - rewrite world_bump by done. apply alloc_fs; [apply mk_sb_ok|apply Hg|by apply world_free].
  - intros b. cbn [freeblock bump img]. intros Hc. apply (g_zero _ Hg). lia.
  - apply (g_log _ Hg).
Qed.
(** Blocks in use other than those of the layout may be written. *)
Lemma good_put s b d : good s → logstart v < b < freeblock s → b ≠ bmapstart v → block_ok d → good (put b d s).
Proof.
  intros Hg Hb Hbm Hd. rewrite mk_sb in Hb. simpl in Hb. assert (fmap_of v (world (put b d s)) = fmap_of v (world s)) as Ef by (by rewrite !world_fmap). split.
  - apply Hg.
  - destruct (g_fs _ Hg) as [G1 G2 (e & G3 & G4)]. rewrite world_put in * by done. split; [by apply vol_insert| |].
    + intros c Hc. unfold used. rewrite Ef. by apply G2.
    + exists e. split; [|done]. by rewrite lookup_insert_ne by lia.
  - intros c Hc. cbn [img freeblock put] in *. rewrite lookup_insert_ne by lia. by apply (g_zero _ Hg).
  - cbn [img put]. rewrite lookup_insert_ne; [apply (g_log _ Hg)|]. rewrite mk_sb. simpl. lia.
Qed.

(** ** Running the block operations *)
Lemma at_sector_ok b : 0 ≤ b < FSSIZE → at_sector b = b.
Proof. intros Hb. unfold FSSIZE in Hb. unfold at_sector, BSIZE. rewrite u32_small by lia. apply Z.div_mul. lia. Qed.
Lemma rsect_ok s b d : 0 ≤ b < FSSIZE → b ≠ bmapstart v → world s !! b = Some d → rsect b s = Ok (d, s).
Proof. intros Hb Hbm Hd. unfold rsect. rewrite at_sector_ok, <- world_other by done. by rewrite Hd. Qed.
Lemma wsect_ok s b d : 0 ≤ b < FSSIZE → wsect b d s = Ok (tt, put b d s).
Proof. intros Hb. unfold wsect, modify. by rewrite at_sector_ok. Qed.
Lemma next_block_ok s : good s → next_block s = Ok (freeblock s, bump s).
Proof. intros Hg. pose proof (g_fb _ Hg) as Hfb. change nmeta with 59 in Hfb. unfold FSSIZE in Hfb. unfold next_block, bump. by rewrite u32_small by lia. Qed.

(** ** The block of a file at an index *)
Record got (num : Z) (s : image) (din : dinode) (k : Z) (s' : image) (din' : dinode) (a : Z) : Prop := {
  gt_good : good s';
  gt_inode : freeinode s' = freeinode s;
  gt_grows : grows v k (in_core num din) (world s) (in_core num din') (world s');
  gt_blk : a = blk (in_core num din') (world s') k;
  gt_nz : a ≠ 0;
  gt_cost : freeblock s' + spare (in_core num din') ≤
    freeblock s + spare (in_core num din) + (if decide (blk (in_core num din) (world s) k = 0) then 1 else 0);
  gt_ind : ind (in_core num din') ≠ 0 → ind (in_core num din) ≠ 0 ∨ Z.of_nat NDIRECT ≤ k }.

Lemma data_range x W k : file_ok v x W → 0 ≤ k < MAXFILE → blk x W k ≠ 0 → bmapstart v < blk x W k < FSSIZE.
Proof. intros Hx Hk Hz. destruct (fo_data _ _ _ Hx k Hk Hz) as [Hr _]. rewrite mk_sb in *. simpl in *. unfold FSSIZE. lia. Qed.
Lemma ind_range x W : file_ok v x W → ind x ≠ 0 → bmapstart v < ind x < FSSIZE.
Proof. intros Hx Hz. destruct (fo_ind _ _ _ Hx Hz) as [Hr _]. rewrite mk_sb in *. simpl in *. unfold FSSIZE. lia. Qed.
Lemma xint_block b : bmapstart v < b < FSSIZE → xint b = b.
Proof. intros Hb. rewrite mk_sb in Hb. simpl in Hb. unfold FSSIZE in Hb. apply xint_id. lia. Qed.
Lemma fresh_block s : good s → freeblock s < FSSIZE → bmapstart v < freeblock s < FSSIZE.
Proof. intros Hg Hb. pose proof (g_fb _ Hg). rewrite mk_sb. simpl. change nmeta with 59 in *. lia. Qed.

Section block.
Context (num : Z) (s : image) (din : dinode) (Hg : good s) (Hx : file_ok v (in_core num din) (world s)).
#[local] Abbreviation x := (in_core num din).

Lemma got_mapped k : 0 ≤ k < MAXFILE → blk x (world s) k ≠ 0 → got num s din k s din (blk x (world s) k).
Proof using Hg Hx.
  intros Hk Hz. split; try done; [by apply grows_refl; [|apply Hg|..]|by rewrite decide_False by done; lia|by left].
Qed.
Lemma spare_addr k a y : (k < NDIRECT)%nat → spare (in_core num (set_daddr k a y)) = spare (in_core num y).
Proof using. intros Hk. unfold spare, ind. cbn [iaddrs in_core set_daddr daddrs]. rewrite list_lookup_total_insert_ne by lia. done. Qed.
Lemma addr_at k : (k ≤ NDIRECT)%nat → daddrs din !! k = Some (iaddrs x !!! k).
Proof using Hx. intros Hk. apply (list_lookup_lookup_total_lt (daddrs din)). pose proof (fo_len _ _ _ Hx) as Hl. cbn [iaddrs in_core] in Hl. lia. Qed.

Lemma direct_ok k : 0 ≤ k < Z.of_nat NDIRECT → (blk x (world s) k = 0 → freeblock s < FSSIZE) →
  ∃ din' a s', direct_block din k s = Ok ((din', a), s') ∧ got num s din k s' din' a.
Proof using Hg Hx.
  intros Hk Hroom. assert (0 ≤ k < MAXFILE) as Hk' by (unfold MAXFILE, NINDIRECT in *; lia).
  assert (blk x (world s) k = iaddrs x !!! Z.to_nat k) as Eb by (unfold blk; by rewrite bool_decide_eq_true_2 by lia).
  unfold direct_block. rewrite addr_at by lia. cbn [of_option lift]. rewrite <- Eb. unfold mbind at 1, M_bind at 1.
  cbn [lift]. destruct (decide (blk x (world s) k = 0)) as [Ez|Hz].
  - rewrite Ez. rewrite bool_decide_eq_true_2 by done. pose proof (fresh_block s Hg (Hroom Ez)) as Hfb. rewrite (bind_ok _ _ _ _ _ (next_block_ok s Hg)), !xint_block by (rewrite ?xint_block; done).
    eexists _, _, _. split; [done|]. destruct (direct_grows v mk_sb_ok x (world s) (g_fs _ Hg) Hx (freeblock s) (world_free s Hg (Hroom Ez)) k Hk Ez) as [Hgr Hbl].
    split; [apply good_bump; auto|done|by rewrite world_bump by auto|by rewrite world_bump by auto|rewrite mk_sb in Hfb; simpl in Hfb; lia| |].
    + rewrite decide_True, spare_addr by (done || lia). cbn [freeblock bump]. lia.
    + intros Hi'. left. intros Hi. apply Hi'. unfold ind in *. cbn [iaddrs in_core set_daddr daddrs] in *. by rewrite list_lookup_total_insert_ne by lia.
  - rewrite xint_block, bool_decide_eq_false_2 by (by apply data_range || done). eexists _, _, _. split; [done|]. by apply got_mapped.
Qed.

Lemma entry_ok k : Z.of_nat NDIRECT ≤ k < MAXFILE → ind x ≠ 0 → (blk x (world s) k = 0 → freeblock s < FSSIZE) →
  ∃ din' a s', indirect_entry din k s = Ok ((din', a), s') ∧ got num s din k s' din' a.
Proof using Hg Hx.
  intros Hk Hi Hroom. assert (0 ≤ k < MAXFILE) as Hk' by lia. pose proof (ind_range _ _ Hx Hi) as Hir.
  assert (0 ≤ k - Z.of_nat NDIRECT < NINDIRECT) as Hj by (unfold MAXFILE in *; lia).
  destruct (vol_total (world s) (ind x) (fs_vol _ _ (g_fs _ Hg))) as [Hd Hdo]; [rewrite mk_sb in Hir; simpl in Hir; lia|].
  assert (blk x (world s) k = entry (world s !!! ind x) (k - Z.of_nat NDIRECT)) as Eb by (unfold blk; by rewrite !bool_decide_eq_false_2 by (done || lia)).
  unfold indirect_entry. rewrite addr_at by done. rewrite (bind_ok _ _ s (ind x) s) by done. rewrite xint_block by done.
  rewrite (bind_ok _ _ s _ s (rsect_ok s (ind x) _ ltac:(rewrite mk_sb in Hir; simpl in Hir; lia) ltac:(lia) Hd)). cbv zeta.
  rewrite entry_load by (done || apply Hdo). rewrite <- Eb. rewrite (bind_ok _ _ s (blk x (world s) k) s) by done.
  destruct (decide (blk x (world s) k = 0)) as [Ez|Hz].
  - rewrite bool_decide_eq_true_2 by done. pose proof (Hroom Ez) as Hlt. pose proof (fresh_block s Hg Hlt) as Hfb. rewrite (bind_ok _ _ _ _ _ (next_block_ok s Hg)).
    rewrite !xint_block by (rewrite ?xint_block; done). pose proof Hdo as [Hdl Hdb]. unfold NINDIRECT in Hj.
    rewrite store_ok by (rewrite ?Hdl; unfold BSIZE; simpl; lia). set (d := splice _ _ _).
    rewrite (bind_ok _ _ _ d (bump s)) by done. rewrite (bind_ok _ _ _ _ _ (wsect_ok (bump s) (ind x) d ltac:(rewrite mk_sb in Hir; simpl in Hir; lia))).
    eexists _, _, _. split; [done|].
    destruct (entry_grows v mk_sb_ok x (world s) (g_fs _ Hg) Hx (freeblock s) (world_free s Hg Hlt) k Hk Hi Ez) as [Hgr Hbl].
    assert (world (put (ind x) d (bump s)) = entry_view v x (world s) (freeblock s) k) as Ew by (rewrite world_put, world_bump by (done || lia); done).
    assert (ind x < freeblock s) as Hil.
    { apply (world_used s); [done| |apply (fo_ind _ _ _ Hx Hi)]. pose proof FSSIZE_BPB. rewrite mk_sb in Hir. simpl in Hir. lia. }
    split; [apply good_put; [by apply good_bump| | |]|done|by rewrite Ew|by rewrite Ew|rewrite mk_sb in Hfb; simpl in Hfb; lia| |by left].
    + cbn [freeblock bump]. rewrite mk_sb in *. simpl in *. lia.
    + lia.
    + split; [unfold d; rewrite length_splice; [done|rewrite length_le_bytes, Hdl; unfold BSIZE; lia]|apply splice_forall; [done|apply le_bytes_ok]].
    + rewrite decide_True by done. cbn [freeblock bump put]. lia.
  - rewrite bool_decide_eq_false_2, xint_block by (by apply data_range || done). eexists _, _, _. split; [done|]. by apply got_mapped.
Qed.
End block.

Lemma indirect_ok num s din k : good s → file_ok v (in_core num din) (world s) → Z.of_nat NDIRECT ≤ k < MAXFILE →
  freeblock s + spare (in_core num din) + (if decide (blk (in_core num din) (world s) k = 0) then 1 else 0) ≤ FSSIZE →
  ∃ din' a s', indirect_block din k s = Ok ((din', a), s') ∧ got num s din k s' din' a.
Proof.
  intros Hg Hx Hk Hroom. set (x := in_core num din) in *. assert (0 ≤ k < MAXFILE) as Hk' by lia.
  unfold indirect_block. rewrite (addr_at num s din Hx) by done. rewrite (bind_ok _ _ s (ind x) s) by done.
  destruct (decide (ind x = 0)) as [Ei|Hi].
  - assert (blk x (world s) k = 0) as Ez by (unfold blk; rewrite bool_decide_eq_false_2 by lia; by rewrite bool_decide_eq_true_2 by done).
    assert (spare x = 1) as Hsp by (unfold spare; by rewrite bool_decide_eq_true_2). rewrite Hsp, decide_True in Hroom by done. assert (freeblock s < FSSIZE) as Hlt by lia.
    pose proof (fresh_block s Hg Hlt) as Hfb. rewrite Ei, bool_decide_eq_true_2 by done. set (din1 := set_daddr NDIRECT (freeblock s) din).
    rewrite (bind_ok _ _ s din1 (bump s)) by (rewrite (bind_ok _ _ _ _ _ (next_block_ok s Hg)), xint_block by done; done).
    destruct (indirect_grows v mk_sb_ok x (world s) (g_fs _ Hg) Hx (freeblock s) (world_free s Hg Hlt) k Hk' Ei Ez) as (Hgr & Hind & Hbl).
    rewrite <- (world_bump s Hg Hlt) in Hgr, Hbl. change (set_iaddr NDIRECT (freeblock s) x) with (in_core num din1) in *.
    assert (ind (in_core num din1) ≠ 0) as Hi1 by (rewrite Hind; rewrite mk_sb in Hfb; simpl in Hfb; lia).
    destruct (entry_ok num (bump s) din1 (good_bump s Hg Hlt) (gr_file _ _ _ _ _ _ Hgr) k Hk Hi1) as (din' & a & s' & E & [G1 G2 G3 G4 G5 G6 G7]); [cbn [freeblock bump]; lia|].
    exists din', a, s'. split; [done|]. split; try done.
    + eapply (grows_trans v mk_sb_ok k x (world s) (in_core num din1) (world (bump s))); try done.
      * by rewrite Hbl.
      * rewrite Hind. apply (fresh_not_in_use v (world s)). by apply world_free.
    + rewrite decide_True by done. rewrite Hbl, decide_True in G6 by done. assert (spare (in_core num din1) = 0) as Es by (unfold spare; by rewrite bool_decide_eq_false_2).
      fold x. rewrite Hsp. cbn [freeblock bump] in G6. lia.
    + intros _. right. lia.
  - rewrite xint_block, bool_decide_eq_false_2 by (done || by eapply ind_range). rewrite (bind_ok _ _ s din s) by done.
    apply entry_ok; try done. intros Ez. rewrite decide_True in Hroom by done. pose proof (spare_nonneg x). lia.
Qed.

(** ** Appending *)
Definition nb (o : Z) : Z := (o + 511) / 512.
(** Past offset [off] the blocks of the file hold zeros. *)
Definition tail_zero (x : inode) (W : gmap Z (list Z)) (off : Z) : Prop :=
  ∀ o, off ≤ o < MAXFILE * Z.of_nat BSIZE → blk x W (o / Z.of_nat BSIZE) ≠ 0 → byte_at x W o = 0.

Lemma nb_step off n m : 0 ≤ off → 0 < n → m = Z.min n (512 - off `mod` 512) →
  nb (off + m) = nb off + (if decide (off `mod` 512 = 0) then 1 else 0) ∧ nb (off + m) ≤ nb (off + n) ∧
  ((off + m) `mod` 512 ≠ 0 → (off + m) / 512 = off / 512).
Proof. intros Ho Hn ->. unfold nb. case_decide; dlia. Qed.

Lemma step_tail x W x1 W1 off bs : file_ok v x W → 0 ≤ off < MAXFILE * Z.of_nat BSIZE → (0 < length bs)%nat → Forall byte_ok bs →
  off `mod` Z.of_nat BSIZE + Z.of_nat (length bs) ≤ Z.of_nat BSIZE →
  let k := off / Z.of_nat BSIZE in
  grows v k x W x1 W1 → blk x1 W1 k ≠ 0 → tail_zero x W off →
  tail_zero x1 (<[blk x1 W1 k := splice (W1 !!! blk x1 W1 k) (Z.to_nat (off `mod` Z.of_nat BSIZE)) bs]> W1) (off + Z.of_nat (length bs)).
Proof.
  intros Hx Ho Hl Hb Hfit k Hgr Hz Ht o Hoo Hnz. pose proof (write_step v mk_sb_ok x W x1 W1 off bs Hx Ho Hl Hb Hfit Hgr Hz) as Hw. cbv zeta in Hw. fold k in Hw.
  pose proof (byte_index o ltac:(lia)) as Hj. pose proof (byte_index off Ho) as Hk. fold k in Hk.
  assert (∀ d j, blk x1 (<[blk x1 W1 k := d]> W1) j = blk x1 W1 j) as Hdb by (intros d j; by apply (data_blk v x1 W1 (gr_file _ _ _ _ _ _ Hgr) k Hk Hz)).
  destruct (decide (blk x W (o / Z.of_nat BSIZE) = 0)) as [E|E].
  - rewrite Hdb in Hnz.
    destruct (decide (o / Z.of_nat BSIZE = k)) as [Ek|Hne]; [|by rewrite (gr_blk _ _ _ _ _ _ Hgr) in Hnz].
    rewrite Ek in *. destruct (gr_new _ _ _ _ _ _ Hgr E Hz) as [Hn _]. unfold byte_at.
    rewrite Hdb, Ek, lookup_total_insert_eq, (lookup_total_correct _ _ _ Hn).
    unfold k, BSIZE in *. change (Z.of_nat 512) with 512 in *. pose proof (Z.mod_pos_bound off 512 ltac:(lia)). rewrite list_lookup_total_alt, lookup_splice_old; [|unfold zeros; rewrite length_replicate; unfold BSIZE; lia|right; dlia].
    rewrite <- list_lookup_total_alt. unfold zeros. apply lookup_total_replicate_2. unfold BSIZE. pose proof (Z.mod_pos_bound o 512). lia.
  - rewrite (wr_out _ _ _ _ _ _ _ Hw) by (done || lia). apply Ht; [lia|done].
Qed.

(** What appending [n] bytes of [p] at [off] does to the file, without its size. *)
Record appended (num : Z) (s : image) (din : dinode) (off : Z) (bs : list Z) (s' : image) (din' : dinode) : Prop := {
  ap_good : good s';
  ap_inode : freeinode s' = freeinode s;
  ap_wrote : wrote v off bs (in_core num din) (world s) (in_core num din') (world s');
  ap_tail : tail_zero (in_core num din') (world s') (off + Z.of_nat (length bs));
  ap_cost : freeblock s' + spare (in_core num din') ≤ freeblock s + spare (in_core num din) + nb (off + Z.of_nat (length bs)) - nb off;
  ap_ind : ind (in_core num din') ≠ 0 → ind (in_core num din) ≠ 0 ∨ 6144 < off + Z.of_nat (length bs) }.

(** The blocks that are needed for [n] more bytes are there. *)
Definition room (num : Z) (s : image) (din : dinode) (off n : Z) : Prop :=
  freeblock s + (nb (off + n) - nb off) + (if decide (6144 < off + n) then spare (in_core num din) else 0) ≤ FSSIZE.

Lemma got_block num s din off n : good s → file_ok v (in_core num din) (world s) → 0 ≤ off → 0 < n → off + n ≤ MAXFILE * Z.of_nat BSIZE →
  (off `mod` 512 ≠ 0 → blk (in_core num din) (world s) (off / 512) ≠ 0) → room num s din off n →
  ∃ din' a s', (if bool_decide (off / 512 < Z.of_nat NDIRECT) then direct_block din (off / 512) else indirect_block din (off / 512)) s = Ok ((din', a), s') ∧
    got num s din (off / 512) s' din' a.
Proof.
  intros Hg Hx Ho Hn Hmax Hmap Hroom. unfold room, MAXFILE, NINDIRECT, NDIRECT, BSIZE in *. change (Z.of_nat 512) with 512 in *. change (Z.of_nat 12) with 12 in *.
  assert (blk (in_core num din) (world s) (off / 512) = 0 → off `mod` 512 = 0 ∧ nb off + 1 ≤ nb (off + n)) as Hz.
  { intros Ez. assert (off `mod` 512 = 0) as Em by (destruct (decide (off `mod` 512 = 0)); [done|]; by apply Hmap in Ez). split; [done|]. clear - Em Hn Ho. unfold nb. dlia. }
  pose proof (spare_nonneg (in_core num din)). assert (nb off ≤ nb (off + n)) by (clear - Hn Ho; unfold nb; dlia).
  case_bool_decide as Hk.
  - apply direct_ok; [done..|unfold NDIRECT; split; [apply Z.div_pos; lia|lia]|]. intros Ez. apply Hz in Ez as [_ ?]. case_decide; lia.
  - apply indirect_ok; [done..|unfold MAXFILE, NINDIRECT, NDIRECT; split; [lia|apply Z.div_lt_upper_bound; lia]|].
    assert (6144 < off + n) by (clear - Hk Hn Ho; dlia). rewrite decide_True in Hroom by done. case_decide as Ez; [apply Hz in Ez as [_ ?]|]; lia.
Qed.

Lemma append_one num s din off n p : good s → file_ok v (in_core num din) (world s) → 0 ≤ off → 0 < n → off + n ≤ MAXFILE * Z.of_nat BSIZE →
  n ≤ Z.of_nat (length p) → Forall byte_ok p → tail_zero (in_core num din) (world s) off →
  (off `mod` 512 ≠ 0 → blk (in_core num din) (world s) (off / 512) ≠ 0) → room num s din off n →
  let m := Z.min n (512 - off `mod` 512) in let bs := take (Z.to_nat m) p in
  ∃ din' s', (∀ fuel, iappend_loop (S fuel) din off p n s = iappend_loop fuel din' (off + m) (drop (Z.to_nat m) p) (n - m) s') ∧
    appended num s din off bs s' din' ∧ blk (in_core num din') (world s') (off / 512) ≠ 0 ∧ room num s' din' (off + m) (n - m).
Proof.
  intros Hg Hx Ho Hn Hmax Hlen Hby Ht Hmap Hroom m bs. destruct (got_block num s din off n) as (din' & a & s1 & E & [G1 G2 G3 G4 G5 G6 G7]); [done..|].
  pose proof (Z.mod_pos_bound off 512 ltac:(lia)) as Hmod. assert (0 < m ≤ n) as Hm by (unfold m; lia). assert (m ≤ 512 - off `mod` 512) as Hm' by (unfold m; lia).
  assert (Z.of_nat (length bs) = m) as Hbl by (unfold bs; rewrite length_take; lia). assert (0 ≤ off < MAXFILE * Z.of_nat BSIZE) as Hoff by lia.
  pose proof (byte_index off Hoff) as Hk. change (Z.of_nat BSIZE) with 512 in *. set (k := off / 512) in *.
  set (x := in_core num din) in *. set (x1 := in_core num din') in *. pose proof (gr_file _ _ _ _ _ _ G3) as Hx1. subst a.
  pose proof (data_range _ _ k Hx1 Hk G5) as Hbr. set (a := blk x1 (world s1) k) in *. assert (0 ≤ a < FSSIZE) as Har by (rewrite mk_sb in Hbr; simpl in Hbr; lia).
  destruct (vol_total (world s1) a (fs_vol _ _ (g_fs _ G1)) Har) as [Hd [Hdl Hdb]]. set (d := world s1 !!! a) in *.
  set (d' := splice d (Z.to_nat (off `mod` 512)) bs). assert (world (put a d' s1) = <[a := d']> (world s1)) as Ew by (apply world_put; lia).
  assert (Forall byte_ok bs) as Hbb by (by apply Forall_take).
  pose proof (write_step v mk_sb_ok x (world s) x1 (world s1) off bs Hx Hoff ltac:(lia) Hbb ltac:(change (Z.of_nat BSIZE) with 512; lia) G3 G5) as Hw.
  pose proof (step_tail x (world s) x1 (world s1) off bs Hx Hoff ltac:(lia) Hbb ltac:(change (Z.of_nat BSIZE) with 512; lia) G3 G5 Ht) as Htz.
  cbv zeta in Hw. change (Z.of_nat BSIZE) with 512 in Hw, Htz. fold k a d d' in Hw, Htz. rewrite <- Ew in Hw, Htz.
  assert (a < freeblock s1) as Hal.
  { apply (world_used s1); [done| |by apply (fo_data _ _ _ Hx1 k Hk G5)]. pose proof FSSIZE_BPB. lia. }
  destruct (nb_step off n m Ho Hn eq_refl) as (N1 & N2 & _).
  assert ((if decide (blk x (world s) k = 0) then 1 else 0) ≤ nb (off + m) - nb off) as Hnew.
  { rewrite N1. repeat case_decide; try lia. }
  exists din', (put a d' s1). split_and!.
  - intros fuel. cbn [iappend_loop]. rewrite bool_decide_eq_true_2 by done. change (Z.of_nat BSIZE) with 512. fold k. cbv zeta. rewrite (bool_decide_eq_true_2 (k < MAXFILE)) by lia.
    rewrite (bind_ok _ _ _ _ _ E). cbv beta iota.
    assert ((k + 1) * 512 - off = 512 - off `mod` 512) as Ek by (unfold k; dlia). rewrite Ek, (u32_small (512 - off `mod` 512)) by lia. fold m.
    rewrite (bind_ok _ _ _ _ _ (rsect_ok s1 a d Har ltac:(lia) Hd)). rewrite load_bytes_ok by lia.
    rewrite (bind_ok _ _ s1 bs s1) by done. replace (off - k * 512) with (off `mod` 512) by (unfold k; dlia).
    rewrite store_bytes_ok by (rewrite ?Hdl; unfold BSIZE; lia). rewrite (bind_ok _ _ s1 d' s1) by done. rewrite (bind_ok _ _ _ _ _ (wsect_ok s1 a d' Har)).
    rewrite u32_small by (unfold MAXFILE, NINDIRECT, NDIRECT in Hmax; lia). done.
  - split; try done.
    + apply good_put; [done|rewrite mk_sb in *; simpl in *; lia|lia|]. split; [unfold d'; rewrite length_splice; [done|rewrite Hdl; unfold BSIZE; lia]|by apply splice_forall].
    + cbn [freeblock put]. rewrite Hbl. fold x x1. lia.
    + intros Hi. destruct (G7 Hi) as [?|Hk12]; [by left|right]. rewrite Hbl. unfold k, NDIRECT in Hk12. clear - Hk12 Hm. dlia.
  - apply (wr_range _ _ _ _ _ _ _ Hw off). change (Z.of_nat BSIZE) with 512. lia.
  - unfold room in *. cbn [freeblock put]. replace (off + m + (n - m)) with (off + n) by lia. fold x x1 in Hroom |- *. destruct (decide (6144 < off + n)) as [H6|H6]; [lia|].
    assert (spare x ≤ spare x1); [|lia]. unfold spare. repeat case_bool_decide; try lia. exfalso. destruct G7 as [?|Hk12]; [done..|]. unfold k, NDIRECT in Hk12. clear - Hk12 Hn H6. dlia.
Qed.

Lemma appended_nil num s din off : good s → file_ok v (in_core num din) (world s) → tail_zero (in_core num din) (world s) off → appended num s din off [] s din.
Proof.
  intros Hg Hx Ht. split; rewrite ?Z.add_0_r; try done; [by apply wrote_nil; [|apply Hg]|lia|by left].
Qed.
Lemma appended_app num s din off bs s1 din1 bs' s2 din2 : 0 ≤ off → off + Z.of_nat (length bs) + Z.of_nat (length bs') ≤ MAXFILE * Z.of_nat BSIZE →
  appended num s din off bs s1 din1 → appended num s1 din1 (off + Z.of_nat (length bs)) bs' s2 din2 → appended num s din off (bs ++ bs') s2 din2.
Proof.
  intros Ho Hmax [A1 A2 A3 A4 A5 A6] [B1 B2 B3 B4 B5 B6].
  assert (off + Z.of_nat (length (bs ++ bs')) = off + Z.of_nat (length bs) + Z.of_nat (length bs')) as E by (rewrite length_app; lia).
  split; rewrite ?E; try done; [congruence|by eapply wrote_app; [apply mk_sb_ok|..]|lia|]. intros Hi. destruct (B6 Hi) as [Hi'|?]; [|by right].
  destruct (A6 Hi'); [by left|right; lia].
Qed.

Lemma loop_ok num fuel : ∀ s din off p n, good s → file_ok v (in_core num din) (world s) → 0 ≤ off → 0 ≤ n → off + n ≤ MAXFILE * Z.of_nat BSIZE →
  n ≤ Z.of_nat (length p) → Forall byte_ok p → tail_zero (in_core num din) (world s) off →
  (off `mod` 512 ≠ 0 → blk (in_core num din) (world s) (off / 512) ≠ 0) → room num s din off n → (Z.to_nat n < fuel)%nat →
  ∃ din' s', iappend_loop fuel din off p n s = Ok ((din', off + n), s') ∧ appended num s din off (take (Z.to_nat n) p) s' din'.
Proof.
  induction fuel as [|fuel IH]; intros s din off p n Hg Hx Ho Hn Hmax Hlen Hby Ht Hmap Hroom Hf; [lia|]. destruct (decide (n = 0)) as [->|Hnz].
  { exists din, s. cbn [iappend_loop]. rewrite bool_decide_eq_false_2 by lia. rewrite Z.add_0_r. split; [done|]. by apply appended_nil. }
  assert (0 < n) as Hpos by lia. destruct (append_one num s din off n p Hg Hx Ho Hpos Hmax Hlen Hby Ht Hmap Hroom) as (din1 & s1 & E & Ha & Hb & Hr).
  set (m := Z.min n (512 - off `mod` 512)) in *. pose proof (Z.mod_pos_bound off 512 ltac:(lia)) as Hmod. assert (0 < m ≤ n) as Hm by (unfold m; lia).
  destruct (nb_step off n m Ho Hpos eq_refl) as (_ & _ & Hsame). assert (Z.of_nat (length (take (Z.to_nat m) p)) = m) as Hl by (rewrite length_take; lia).
  destruct (IH s1 din1 (off + m) (drop (Z.to_nat m) p) (n - m)) as (din' & s' & E' & Ha').
  - apply Ha.
  - apply (wr_file _ _ _ _ _ _ _ (ap_wrote _ _ _ _ _ _ _ Ha)).
  - lia.
  - lia.
  - lia.
  - rewrite length_drop. lia.
  - by apply Forall_drop.
  - pose proof (ap_tail _ _ _ _ _ _ _ Ha) as Hz. by rewrite Hl in Hz.
  - intros Hne. by rewrite Hsame.
  - done.
  - lia.
  - exists din', s'. rewrite E, E'. split; [do 3 f_equal; lia|].
    replace (take (Z.to_nat n) p) with (take (Z.to_nat m) p ++ take (Z.to_nat (n - m)) (drop (Z.to_nat m) p)).
    + eapply appended_app; [done| |exact Ha|by rewrite Hl]. rewrite Hl, length_take, length_drop. lia.
    + replace (Z.to_nat n) with (Z.to_nat m + Z.to_nat (n - m))%nat by lia. by rewrite take_take_drop.
Qed.

(** ** Inodes *)
Lemma inode_block_range num : 0 ≤ num < NINODES → 31 < IBLOCK num v < 58.
Proof. intros Hn. unfold NINODES in Hn. unfold IBLOCK, IPB. rewrite mk_sb. cbn [inodestart]. rewrite u32_small; dlia. Qed.

Lemma winode_ok s num din : good s → 0 ≤ num < NINODES → dinode_ok (in_core num din) →
  ∃ s', winode num din s = Ok (tt, s') ∧ good s' ∧ world s' = dinode_view v (in_core num din) (world s) ∧
    freeinode s' = freeinode s ∧ freeblock s' = freeblock s.
Proof.
  intros Hg Hn Hd. pose proof (inode_block_range num Hn) as Hr. pose proof (g_fb _ Hg) as Hfb. change nmeta with 59 in Hfb. unfold FSSIZE in Hfb.
  destruct (inode_block v mk_sb_ok (in_core num din) (world s) (g_fs _ Hg) ltac:(rewrite mk_sb; exact Hn)) as [Hb [Hl Hby]]. cbn [inum in_core] in *.
  unfold winode. cbv zeta. rewrite (bind_ok _ _ _ _ _ (rsect_ok s (IBLOCK num v) _ ltac:(unfold FSSIZE; lia) ltac:(rewrite bm58; lia) Hb)).
  rewrite store_dinode_ok by (done || apply Hd). set (d := splice _ _ _). rewrite (bind_ok _ _ s d s) by done. rewrite wsect_ok by (unfold FSSIZE; lia).
  eexists. split; [done|]. split; [|split; [apply world_put; rewrite bm58; lia|done]].
  apply good_put; [done|rewrite log2; lia|rewrite bm58; lia|]. split; [|apply splice_forall; [done|apply dinode_bytes_ok]].
  unfold d. rewrite length_splice; [done|]. rewrite length_dinode_bytes by apply Hd. pose proof (dinode_off_ok num). cbn [inum in_core]. rewrite Hl. unfold BSIZE. lia.
Qed.
(** The fields of an inode, as [rinode] returns them. *)
Definition fields (x : inode) : dinode := mkdinode (itype x) (imajor x) (iminor x) (inlink x) (isize x) (iaddrs x).
Lemma rinode_ok s num : good s → 0 ≤ num < NINODES → rinode num s = Ok (fields (dnode v (world s) num), s) ∧
  in_core num (fields (dnode v (world s) num)) = dnode v (world s) num.
Proof.
  intros Hg Hn. pose proof (inode_block_range num Hn) as Hr. split; [|done].
  destruct (inode_block v mk_sb_ok (in_core num (mkdinode 0 0 0 0 0 [])) (world s) (g_fs _ Hg) ltac:(rewrite mk_sb; exact Hn)) as [Hb [Hl Hby]]. cbn [inum in_core] in *.
  unfold rinode. cbv zeta. rewrite (bind_ok _ _ _ _ _ (rsect_ok s (IBLOCK num v) _ ltac:(unfold FSSIZE; lia) ltac:(rewrite bm58; lia) Hb)).
  rewrite load_dinode_ok by done. done.
Qed.
Lemma dnode_synced x W : synced v x W → idev x = ROOTDEV → iref x = 0 → ilocked x = false → ivalid x = true → length (W !!! IBLOCK (inum x) v) = BSIZE → dnode v W (inum x) = x.
Proof.
  intros Hs E1 E2 E3 E4 Hl. assert (set_ivalid true x = x) as Ev by (destruct x; simpl in *; by subst). unfold synced in Hs. rewrite Ev in Hs. rewrite load_dinode_ok in Hs by done.
  assert (∀ a b : inode, Ok a = Ok b → a = b) as Hinj by (by intros a b [= ->]). apply Hinj in Hs. transitivity (decode (slice (W !!! IBLOCK (inum x) v) (Z.to_nat (dinode_off (inum x))) 64) x); [|exact Hs]. unfold dnode, on_disk, decode. cbn [idev inum iref ilocked]. by rewrite E1, E2, E3.
Qed.
