(* ===== verification/MkfsClaims.v ===== *)
(** * What mkfs makes

    The files in an image under construction, each with its type and contents; the
    operations of [mkfs] on them, and the image it leaves. *)
From stdpp Require Import base numbers list gmap sets strings.
From S2P Require Import Prelude Bytes XString Bio Log LogFacts Fs FsFacts FsBlocks FsInode FsIO FsDinode FsUpdate FsTxn FsDir FsDirlink FsNames FsCache FsNamex Mkfs MkfsFacts.
#[local] Open Scope Z_scope.

#[local] Abbreviation v := Mkfs.sb.

(** ** Files *)
Definition owns (x : inode) (W : gmap Z (list Z)) (b : Z) : Prop :=
  b ≠ 0 ∧ (b = ind x ∨ ∃ k, 0 ≤ k < MAXFILE ∧ b = blk x W k).

Record node (W : gmap Z (list Z)) (num t : Z) (c : list Z) : Prop := {
  nd_file : file_ok v (dnode v W num) W;
  nd_dinode : dinode_ok (dnode v W num);
  nd_type : itype (dnode v W num) = t;
  nd_link : inlink (dnode v W num) = 1;
  nd_content : content (dnode v W num) W = c;
  nd_tail : tail_zero (dnode v W num) W (isize (dnode v W num));
  nd_ind : ind (dnode v W num) ≠ 0 → 6144 < isize (dnode v W num) }.

Lemma node_size W num t c : node W num t c → isize (dnode v W num) = Z.of_nat (length c).
Proof. intros Hn. rewrite <- (nd_content _ _ _ _ Hn). rewrite length_content. pose proof (di_size _ (nd_dinode _ _ _ _ Hn)). lia. Qed.

Section frame.
Context (y : inode) (W W' : gmap Z (list Z)) (Hy : file_ok v y W).
Context (Hsame : ∀ b, owns y W b → W' !!! b = W !!! b) (Hused : ∀ b, 0 ≤ b → used v W b → used v W' b).

Lemma frame_blk k : blk y W' k = blk y W k.
Proof using Hsame.
  unfold blk. case_bool_decide; [done|]. case_bool_decide as Hi; [done|]. rewrite Hsame; [done|]. split; [done|by left].
Qed.
Lemma frame_owns b : owns y W' b ↔ owns y W b.
Proof using Hsame. unfold owns. by setoid_rewrite frame_blk. Qed.
Lemma frame_file : file_ok v y W'.
Proof using All.
  destruct Hy as [H1 H2 H3 H4 H5 H6 H7 H8]. split; try done.
  - intros k Hk. rewrite frame_blk. intros Hz. destruct (H4 k Hk Hz) as [Hr Hu]. split; [done|]. apply Hused; [rewrite bm58 in Hr; lia|done].
  - intros Hi. destruct (H5 Hi) as [Hr Hu]. split; [done|]. apply Hused; [rewrite bm58 in Hr; lia|done].
  - intros j k Hj Hk. rewrite !frame_blk. by apply H6.
  - intros k Hk. rewrite frame_blk. by apply H7.
  - intros k Hk. rewrite frame_blk. by apply H8.
Qed.
Lemma frame_byte o : 0 ≤ o < MAXFILE * Z.of_nat BSIZE → blk y W (o / Z.of_nat BSIZE) ≠ 0 → byte_at y W' o = byte_at y W o.
Proof using Hsame.
  intros Ho Hz. unfold byte_at. rewrite frame_blk, Hsame; [done|]. split; [done|]. right. eexists. split; [|done]. by apply byte_index.
Qed.
Lemma frame_content : content y W' = content y W.
Proof using Hy Hsame.
  unfold content. apply list_fmap_ext. intros i o Ho%list_elem_of_lookup_2%elem_of_seqZ. pose proof (fo_size _ _ _ Hy) as Hs.
  apply frame_byte; [lia|]. apply (fo_alloc _ _ _ Hy); unfold BSIZE; change (Z.of_nat 512) with 512; dlia.
Qed.
Lemma frame_tail off : 0 ≤ off → tail_zero y W off → tail_zero y W' off.
Proof using Hsame.
  intros Ho Ht o Hoo. rewrite frame_blk. intros Hz. rewrite frame_byte by (done || lia). by apply Ht.
Qed.
End frame.

Lemma node_frame W W' num t c : node W num t c → dnode v W' num = dnode v W num → (∀ b, owns (dnode v W num) W b → W' !!! b = W !!! b) →
  (∀ b, 0 ≤ b → used v W b → used v W' b) → node W' num t c.
Proof.
  intros [N1 N2 N3 N4 N5 N6 N7] E Hs Hu. split; rewrite ?E; try done; [by eapply frame_file|by rewrite (frame_content _ W W')|].
  apply (frame_tail _ W); [done| |done]. pose proof (di_size _ N2). lia.
Qed.
Lemma dnode_ext W W' num : length (W !!! IBLOCK num v) = BSIZE → length (W' !!! IBLOCK num v) = BSIZE →
  (∀ y, inum y = num → load_dinode (W' !!! IBLOCK num v) y = load_dinode (W !!! IBLOCK num v) y) → dnode v W' num = dnode v W num.
Proof.
  intros H1 H2 Hl. specialize (Hl (mkinode ROOTDEV num 0 false false 0 0 0 0 0 []) eq_refl). rewrite !load_dinode_ok in Hl by done.
  assert (∀ a b : inode, Ok a = Ok b → a = b) as Hinj by (by intros a b [= ->]). by apply Hinj in Hl.
Qed.

(** ** All files *)
Definition cost (c : list Z) : Z := nb (Z.of_nat (length c)) + (if decide (6144 < Z.of_nat (length c)) then 1 else 0).
Definition total (ns : list (Z * list Z)) : Z := tally (λ p, cost p.2) ns.
Lemma total_cons t c ns : total ((t, c) :: ns) = cost c + total ns.
Proof. done. Qed.
Lemma total_app ns ns' : total (ns ++ ns') = total ns + total ns'.
Proof. apply tally_app. Qed.
Lemma total_one t c : total [(t, c)] = cost c.
Proof. unfold total. simpl. lia. Qed.
Lemma total_insert ns i t c t' c' : ns !! i = Some (t, c) → total (<[i := (t', c')]> ns) = total ns - cost c + cost c'.
Proof. intros Hi. unfold total. by rewrite (tally_insert _ _ _ _ _ Hi). Qed.
Record minv (s : image) (ns : list (Z * list Z)) : Prop := {
  mi_good : good s;
  mi_fi : freeinode s = Z.of_nat (length ns) + 1 ∧ freeinode s ≤ NINODES;
  mi_fb : freeblock s ≤ nmeta + total ns;
  mi_node : ∀ i t c, ns !! i = Some (t, c) → node (world s) (Z.of_nat i + 1) t c;
  mi_apart : ∀ i j b, (i < length ns)%nat → (j < length ns)%nat → owns (dnode v (world s) (Z.of_nat i + 1)) (world s) b →
    owns (dnode v (world s) (Z.of_nat j + 1)) (world s) b → i = j;
  mi_free : ∀ num, freeinode s ≤ num < NINODES → itype (dnode v (world s) num) = 0 }.

Lemma cost_nonneg c : 0 ≤ cost c.
Proof. unfold cost, nb. case_decide; dlia. Qed.

(** Writing the inode [dg] of file [i], after its blocks were written. *)
Section update.
Context (s : image) (ns : list (Z * list Z)) (Hi : minv s ns) (i : nat) (s1 : image) (dg : dinode) (ns' : list (Z * list Z)).
#[local] Abbreviation num := (Z.of_nat i + 1).
#[local] Abbreviation g := (in_core num dg).
Context (Hg : good s1) (Hfi : freeinode s ≤ freeinode s1 ∧ freeinode s1 = Z.of_nat (length ns') + 1 ∧ freeinode s1 ≤ NINODES).
Context (Hfb : freeblock s1 ≤ nmeta + total ns').
Context (Hother : ∀ j, j ≠ i → ns' !! j = ns !! j) (Hself : ns' !! i = Some (dtype dg, content g (world s1))).
Context (Hused : ∀ b, 0 ≤ b → used v (world s) b → used v (world s1) b).
Context (Hblocks : ∀ n, 0 ≤ n < NINODES → world s1 !!! IBLOCK n v = world s !!! IBLOCK n v).
Context (Hsame : ∀ j b, j ≠ i → (j < length ns)%nat → owns (dnode v (world s) (Z.of_nat j + 1)) (world s) b → world s1 !!! b = world s !!! b).
Context (Hfresh : ∀ b, owns g (world s1) b → (i < length ns)%nat ∧ owns (dnode v (world s) num) (world s) b ∨ ¬ used v (world s) b).
Context (Hgf : file_ok v g (world s1)) (Hgd : dinode_ok g) (Hgl : dnlink dg = 1).
Context (Hgt : tail_zero g (world s1) (dsize dg)) (Hgi : ind g ≠ 0 → 6144 < dsize dg).

Lemma num_range : 0 ≤ num < NINODES.
Proof using Hfi Hself. apply lookup_lt_Some in Hself. lia. Qed.
Lemma inode_len W n : fs_ok v W → 0 ≤ n < NINODES → length (W !!! IBLOCK n v) = BSIZE.
Proof using. intros HW Hn. by apply (inode_block v mk_sb_ok (in_core n (mkdinode 0 0 0 0 0 [])) W HW). Qed.
Lemma owned_used j b : (j < length ns)%nat → owns (dnode v (world s) (Z.of_nat j + 1)) (world s) b → used v (world s) b ∧ bmapstart v < b.
Proof using Hi.
  intros [[t c] Hj]%lookup_lt_is_Some_2 [Hz Ho]. pose proof (nd_file _ _ _ _ (mi_node _ _ Hi j t c Hj)) as Hf.
  destruct Ho as [->|(k & Hk & ->)]; [destruct (fo_ind _ _ _ Hf Hz) as [Hr Hu]|destruct (fo_data _ _ _ Hf k Hk Hz) as [Hr Hu]]; (split; [exact Hu|apply Hr]).
Qed.

#[local] Abbreviation W2 := (dinode_view v g (world s1)).
Lemma view_block b : bmapstart v < b → W2 !!! b = world s1 !!! b.
Proof using Hfi Hself. intros Hb. apply view_total. pose proof (inode_block_range num num_range) as Hr. cbn [inum in_core]. rewrite bm58 in Hb. clear - Hb Hr. lia. Qed.
Lemma view_used b : used v W2 b ↔ used v (world s1) b.
Proof using Hfi Hself. unfold used, fmap_of. rewrite (view_bm v mk_sb_ok g); [done|]. apply num_range. Qed.
Lemma other_dnode n : 0 ≤ n < NINODES → n ≠ num → dnode v W2 n = dnode v (world s) n.
Proof using All.
  intros Hn Hne. pose proof (view_fs v mk_sb_ok g (world s1) (g_fs _ Hg) num_range Hgd) as Hf2.
  apply dnode_ext; [by apply inode_len; [apply Hi|]|by apply inode_len|]. intros y <-.
  rewrite (view_inodes v mk_sb_ok g (world s1) (g_fs _ Hg) num_range Hgd y Hn Hne). by rewrite Hblocks.
Qed.
Lemma self_dnode : dnode v W2 num = g.
Proof using All.
  apply (dnode_synced g W2); try done; [by apply (view_synced v mk_sb_ok g (world s1) (g_fs _ Hg) num_range Hgd)|].
  apply inode_len; [|apply num_range]. apply (view_fs v mk_sb_ok g (world s1) (g_fs _ Hg) num_range Hgd).
Qed.
(** The blocks of the new file are not written with its inode. *)
Lemma self_same b : owns g (world s1) b → W2 !!! b = world s1 !!! b.
Proof using Hfi Hself Hgf. intros [Hz Ho]. apply view_block. destruct Ho as [->|(k & Hk & ->)]; [apply (fo_ind _ _ _ Hgf Hz)|apply (fo_data _ _ _ Hgf k Hk Hz)]. Qed.
Lemma other_same j b : j ≠ i → (j < length ns)%nat → owns (dnode v (world s) (Z.of_nat j + 1)) (world s) b → W2 !!! b = world s !!! b.
Proof using Hi Hfi Hself Hsame. intros Hj Hl Ho. destruct (owned_used j b Hl Ho) as [_ Hb]. rewrite view_block by done. by eapply Hsame. Qed.
Lemma new_used b : 0 ≤ b → used v (world s) b → used v W2 b.
Proof using Hfi Hself Hused. intros Hb Hu. apply view_used. auto. Qed.

Lemma new_node j t c : ns' !! j = Some (t, c) → node W2 (Z.of_nat j + 1) t c.
Proof using All.
  intros Hj. destruct (decide (j = i)) as [->|Hne].
  - rewrite Hself in Hj. injection Hj as <- <-. assert (∀ b, 0 ≤ b → used v (world s1) b → used v W2 b) as Hu by (intros b _ Hb; by apply view_used).
    split; rewrite ?self_dnode; try done; [by eapply frame_file; [..|apply self_same|]|by apply (frame_content g (world s1)); [|apply self_same]|].
    apply (frame_tail g (world s1)); [apply self_same| |done]. apply (fo_size _ _ _ Hgf).
  - rewrite Hother in Hj by done. pose proof (lookup_lt_Some _ _ _ Hj) as Hl. destruct (mi_fi _ _ Hi) as [Hf1 Hf2].
    apply (node_frame (world s)); [by apply (mi_node _ _ Hi)|apply other_dnode; lia|intros b; by apply other_same|apply new_used].
Qed.
Lemma others_owns j b : j ≠ i → (j < length ns)%nat → owns (dnode v W2 (Z.of_nat j + 1)) W2 b ↔ owns (dnode v (world s) (Z.of_nat j + 1)) (world s) b.
Proof using All.
  intros Hj Hl. destruct (mi_fi _ _ Hi) as [Hf1 Hf2]. rewrite other_dnode by lia. apply frame_owns. intros c. by apply other_same.
Qed.
Lemma self_owns b : owns (dnode v W2 num) W2 b ↔ owns g (world s1) b.
Proof using All. rewrite self_dnode. apply frame_owns. apply self_same. Qed.

Lemma new_apart j b : j ≠ i → (j < length ns)%nat → owns (dnode v W2 (Z.of_nat j + 1)) W2 b → owns (dnode v W2 num) W2 b → False.
Proof using All.
  intros Hj Hl Ho Hs. apply (others_owns j b Hj Hl) in Ho. apply (self_owns b) in Hs.
  destruct (Hfresh b Hs) as [[Hli Hoi]|Hnu]; [|apply Hnu; exact (proj1 (owned_used j b Hl Ho))].
  apply Hj. exact (mi_apart _ _ Hi j i b Hl Hli Ho Hoi).
Qed.

Lemma winode_inv : ∃ s2, winode num dg s1 = Ok (tt, s2) ∧ minv s2 ns'.
Proof using All.
  destruct (winode_ok s1 num dg Hg num_range Hgd) as (s2 & E & Hg2 & Hw & Hfi2 & Hfb2). exists s2. split; [done|].
  assert (∀ j, (j < length ns')%nat → j ≠ i → (j < length ns)%nat) as Hlen.
  { intros j Hj Hne. apply lookup_lt_is_Some. rewrite <- Hother by done. by apply lookup_lt_is_Some. }
  split.
  - exact Hg2.
  - rewrite Hfi2. split; apply Hfi.
  - rewrite Hfb2. exact Hfb.
  - rewrite Hw. exact new_node.
  - rewrite Hw. intros j k b Hj Hk Ho1 Ho2. destruct (decide (j = i)) as [->|Hji], (decide (k = i)) as [->|Hki]; [done| | |].
    + exfalso. exact (new_apart k b Hki (Hlen k Hk Hki) Ho2 Ho1).
    + exfalso. exact (new_apart j b Hji (Hlen j Hj Hji) Ho1 Ho2).
    + apply (others_owns j b Hji (Hlen j Hj Hji)) in Ho1. apply (others_owns k b Hki (Hlen k Hk Hki)) in Ho2.
      exact (mi_apart _ _ Hi j k b (Hlen j Hj Hji) (Hlen k Hk Hki) Ho1 Ho2).
  - rewrite Hw, Hfi2. intros n Hn. pose proof (lookup_lt_Some _ _ _ Hself) as Hl. rewrite other_dnode by lia. apply (mi_free _ _ Hi). lia.
Qed.
End update.

(** ** Appending to a file *)
Section append.
Context (s : image) (ns : list (Z * list Z)) (Hi : minv s ns) (i : nat) (t : Z) (c bs : list Z) (Hc : ns !! i = Some (t, c)).
Context (Hbs : Forall byte_ok bs) (Hmax : Z.of_nat (length c) + Z.of_nat (length bs) ≤ MAXFILE * Z.of_nat BSIZE).
Context (Hroom : nmeta + total (<[i := (t, c ++ bs)]> ns) ≤ FSSIZE).
#[local] Abbreviation num := (Z.of_nat i + 1).
#[local] Abbreviation x := (dnode v (world s) num).
#[local] Abbreviation off := (Z.of_nat (length c)).
#[local] Abbreviation n := (Z.of_nat (length bs)).

Lemma append_node : node (world s) num t c ∧ isize x = off ∧ 0 ≤ num < NINODES.
Proof using All.
  pose proof (mi_node _ _ Hi i t c Hc) as Hn. split; [done|]. split; [by apply (node_size _ _ t)|].
  apply lookup_lt_Some in Hc. destruct (mi_fi _ _ Hi). lia.
Qed.
(** There is an indirect block just when the file needs one. *)
Lemma spare_exact : spare x = if decide (6144 < off) then 0 else 1.
Proof using All.
  destruct append_node as ([N1 _ _ _ _ _ N7] & Hs & _). rewrite Hs in N7. unfold spare. case_decide as Hd.
  - rewrite bool_decide_eq_false_2; [done|]. intros Hz. apply (fo_alloc _ _ _ N1 (Z.of_nat NDIRECT)); [unfold NDIRECT; lia|rewrite Hs; unfold NDIRECT, BSIZE; lia|].
    unfold blk. rewrite bool_decide_eq_false_2 by lia. by rewrite bool_decide_eq_true_2.
  - rewrite bool_decide_eq_true_2; [done|]. destruct (decide (ind x = 0)) as [|Hz]; [done|]. by apply N7 in Hz.
Qed.
Lemma cost_step : total (<[i := (t, c ++ bs)]> ns) =
  total ns + (nb (off + n) - nb off) + (if decide (6144 < off + n) then 1 else 0) - (if decide (6144 < off) then 1 else 0).
Proof using All.
  rewrite (total_insert _ _ _ _ _ _ Hc). unfold cost. rewrite length_app, Nat2Z.inj_add. lia.
Qed.
Lemma append_room : room num s (fields x) off n.
Proof using All.
  unfold room. change (in_core num (fields x)) with x. rewrite spare_exact. pose proof (mi_fb _ _ Hi) as Hfb. rewrite cost_step in Hroom.
  destruct (decide (6144 < off + n)), (decide (6144 < off)); lia.
Qed.

Section written.
Context (s1 : image) (din : dinode) (Ha : appended num s (fields x) off bs s1 din).
#[local] Abbreviation x1 := (in_core num din).
#[local] Abbreviation dg := (set_dsize (off + n) din).

Lemma append_wrote : wrote v off bs x (world s) x1 (world s1).
Proof using All. exact (ap_wrote _ _ _ _ _ _ _ Ha). Qed.
Lemma append_grown : in_core num dg = grown off n x x1.
Proof using All.
  destruct append_node as (_ & Hs & _). unfold grown, new_size. rewrite Hs, Z.max_r by lia. done.
Qed.
Lemma append_bounds : 0 ≤ off ≤ isize x ∧ off + n ≤ MAXFILE * Z.of_nat BSIZE.
Proof using All. destruct append_node as (_ & Hs & _). rewrite Hs. lia. Qed.
Lemma append_file : file_ok v (in_core num dg) (world s1) ∧ dinode_ok (in_core num dg) ∧ content (in_core num dg) (world s1) = c ++ bs.
Proof using All.
  destruct append_node as (Hn & Hs & _). destruct append_bounds as [B1 B2]. rewrite append_grown. split_and!.
  - eapply grown_file; [apply append_wrote|apply Hn|done..].
  - eapply grown_dinode; [apply mk_sb_ok|apply append_wrote|apply Hn|done..|apply Hn].
  - rewrite (grown_content v off n bs x (world s) x1 (world s1) append_wrote (nd_file _ _ _ _ Hn) eq_refl B1 B2), (nd_content _ _ _ _ Hn), Nat2Z.id.
    unfold splice. rewrite take_ge, drop_ge by lia. by rewrite app_nil_r.
Qed.
Lemma append_same j b : j ≠ i → (j < length ns)%nat → owns (dnode v (world s) (Z.of_nat j + 1)) (world s) b → world s1 !!! b = world s !!! b.
Proof using All.
  intros Hj Hl Ho. destruct (owned_used s ns Hi j b Hl Ho) as [Hu Hb]. rewrite bm58 in Hb. pose proof (lookup_lt_Some _ _ _ Hc) as Hli.
  assert (¬ owns x (world s) b) as Hno by (intros Ho'; apply Hj; exact (mi_apart _ _ Hi j i b Hl Hli Ho Ho')). destruct Ho as [Hz _].
  rewrite !lookup_total_alt, (wr_frame _ _ _ _ _ _ _ append_wrote); [done|lia|done|rewrite bm58; lia| |].
  - intros E. apply Hno. split; [done|by left].
  - intros k Hk E. apply Hno. split; [done|]. right. by exists k.
Qed.
Lemma append_fresh b : owns (in_core num dg) (world s1) b → (i < length ns)%nat ∧ owns x (world s) b ∨ ¬ used v (world s) b.
Proof using All.
  pose proof (lookup_lt_Some _ _ _ Hc) as Hli. intros [Hz [E|(k & Hk & E)]].
  - change (b = ind x1) in E. destruct (wr_ind _ _ _ _ _ _ _ append_wrote) as [Ei|[_ Hn]]; [left|right; by rewrite E].
    split; [done|]. split; [done|]. left. congruence.
  - change (b = blk x1 (world s1) k) in E. destruct (wr_fresh _ _ _ _ _ _ _ append_wrote k Hk) as [Hm|Hn]; [congruence|left|right; by rewrite E].
    split; [done|]. split; [done|]. right. exists k. split; [done|]. by rewrite <- (wr_mapped _ _ _ _ _ _ _ append_wrote k Hk Hm).
Qed.
Lemma append_fb : freeblock s1 ≤ nmeta + total (<[i := (t, c ++ bs)]> ns).
Proof using All.
  rewrite cost_step. pose proof (mi_fb _ _ Hi) as Hfb. pose proof (ap_cost _ _ _ _ _ _ _ Ha) as Hcost. pose proof (ap_ind _ _ _ _ _ _ _ Ha) as Hind.
  change (in_core num (fields x)) with x in *. rewrite spare_exact in Hcost. destruct append_node as (Hn & Hs & _). pose proof (nd_ind _ _ _ _ Hn) as Hx. rewrite Hs in Hx.
  assert (spare x1 = 0 → 6144 < off + n) as Hx1.
  { unfold spare. case_bool_decide as Hz; [done|]. intros _. destruct (Hind Hz) as [Hz'|]; [|done]. apply Hx in Hz'. lia. }
  pose proof (spare_nonneg x1). destruct (decide (spare x1 = 0)) as [E|E].
  - specialize (Hx1 E). rewrite (decide_True _ _ Hx1). destruct (decide (6144 < off)); lia.
  - destruct (decide (6144 < off + n)), (decide (6144 < off)); lia.
Qed.

Lemma append_winode : ∃ s2, winode num dg s1 = Ok (tt, s2) ∧ minv s2 (<[i := (t, c ++ bs)]> ns).
Proof using All.
  destruct append_node as (Hn & Hs & Hr). destruct append_file as (F1 & F2 & F3). destruct append_bounds as [B1 B2]. pose proof (lookup_lt_Some _ _ _ Hc) as Hli.
  destruct (wrote_size v off bs x (world s) x1 (world s1) append_wrote) as (E1 & E2 & E3 & E4 & E5 & E6 & E7).
  apply (winode_inv s ns Hi i s1 dg); try done.
  - apply Ha.
  - rewrite (ap_inode _ _ _ _ _ _ _ Ha), length_insert. split; [lia|]. apply (mi_fi _ _ Hi).
  - apply append_fb.
  - intros j Hj. by rewrite list_lookup_insert_ne.
  - rewrite list_lookup_insert_eq by done. do 2 f_equal; [|by rewrite F3]. change (itype x1) with (dtype dg) in E4. rewrite E4. symmetry. apply (nd_type _ _ _ _ Hn).
  - apply (wr_used _ _ _ _ _ _ _ append_wrote).
  - intros m Hm. by apply (inode_block_same v mk_sb_ok off n bs x (world s) x1 (world s1) append_wrote (nd_file _ _ _ _ Hn) (g_fs _ (mi_good _ _ Hi)) eq_refl B1 B2).
  - apply append_same.
  - apply append_fresh.
  - change (inlink x1 = 1). rewrite E7. apply (nd_link _ _ _ _ Hn).
  - apply (ap_tail _ _ _ _ _ _ _ Ha).
  - intros Hz. change (ind x1 ≠ 0) in Hz. cbn [dsize set_dsize]. destruct (ap_ind _ _ _ _ _ _ _ Ha Hz) as [Hz'|]; [|done].
    change (ind x ≠ 0) in Hz'. apply (nd_ind _ _ _ _ Hn) in Hz'. rewrite Hs in Hz'. lia.
Qed.
End written.

Lemma iappend_ok : ∃ s', iappend num bs n s = Ok (tt, s') ∧ minv s' (<[i := (t, c ++ bs)]> ns).
Proof using All.
  destruct append_node as (Hn & Hs & Hr). destruct (rinode_ok s num (mi_good _ _ Hi) Hr) as [Er _].
  unfold MAXFILE, NINDIRECT, NDIRECT, BSIZE in Hmax. unfold iappend. rewrite (bind_ok _ _ _ _ _ Er). cbv zeta. cbn [dsize fields]. rewrite Hs, xint_id by lia.
  destruct (loop_ok num (Z.to_nat n + 1) s (fields x) off bs n) as (din & s1 & E & Ha); try done.
  - apply Hi.
  - apply Hn.
  - lia.
  - lia.
  - intros o Ho. apply (nd_tail _ _ _ _ Hn). by rewrite Hs.
  - intros Hne. apply (fo_alloc _ _ _ (nd_file _ _ _ _ Hn)); [apply Z.div_pos; lia|]. rewrite Hs. unfold BSIZE. change (Z.of_nat 512) with 512. clear - Hne. dlia.
  - apply append_room.
  - lia.
  - rewrite (bind_ok _ _ _ _ _ E). cbv beta iota. rewrite xint_id by lia. rewrite Nat2Z.id, firstn_all in Ha. by apply append_winode.
Qed.
End append.

(** ** A new file *)
Lemma empty_blk num d W k : daddrs d = replicate (S NDIRECT) 0 → 0 ≤ k < MAXFILE → blk (in_core num d) W k = 0.
Proof.
  intros E Hk. assert (∀ j, (j ≤ NDIRECT)%nat → iaddrs (in_core num d) !!! j = 0) as H0.
  { intros j Hj. cbn [iaddrs in_core]. rewrite E. apply lookup_total_replicate_2. lia. }
  unfold blk, ind. rewrite (H0 NDIRECT) by done. case_bool_decide; [apply H0; lia|]. by rewrite bool_decide_eq_true_2.
Qed.
Lemma ialloc_ok s ns t : minv s ns → freeinode s < NINODES → t = T_DIR ∨ t = T_FILE →
  ∃ s', ialloc t s = Ok (freeinode s, s') ∧ minv s' (ns ++ [(t, [])]).
Proof.
  intros Hi Hf Ht. destruct (mi_fi _ _ Hi) as [Ef _]. pose proof (mi_good _ _ Hi) as Hg. unfold NINODES in Hf.
  set (s1 := mkimage (img s) (freeinode s + 1) (freeblock s)). set (dg := mkdinode t 0 0 1 0 (replicate (S NDIRECT) 0)).
  assert (∀ W k, 0 ≤ k < MAXFILE → blk (in_core (freeinode s) dg) W k = 0) as Hb by (intros W k; by apply empty_blk).
  assert (ind (in_core (freeinode s) dg) = 0) as Hind by done.
  assert (Z.of_nat (length ns) + 1 = freeinode s) as Enum by lia.
  destruct (winode_inv s ns Hi (length ns) s1 dg (ns ++ [(t, [])])) as (s2 & E & Hi2); rewrite ?Enum.
  - destruct Hg as [G1 G2 G3 G4]. by split.
  - rewrite length_app. cbn [freeinode s1 length]. unfold NINODES. lia.
  - rewrite total_app, total_one. cbn [freeblock s1]. pose proof (mi_fb _ _ Hi). pose proof (cost_nonneg []). lia.
  - intros j Hj. destruct (decide (j < length ns)%nat); [by rewrite lookup_app_l|]. rewrite !lookup_ge_None_2; [done|lia|rewrite length_app; simpl; lia].
  - by rewrite list_lookup_middle.
  - done.
  - done.
  - done.
  - intros b [Hz [->|(k & Hk & ->)]]; [done|]. by rewrite Hb in Hz.
  - split; try done.
    + intros k Hk. by rewrite Hb.
    + intros j k Hj _. by rewrite Hb.
    + intros k Hk. cbn [isize in_core dsize dg]. unfold BSIZE. lia.
  - assert (short_ok t) by (destruct Ht as [-> | ->]; done). split; try done. by apply Forall_replicate.
  - done.
  - intros o Ho. rewrite Hb; [done|]. apply byte_index. cbn [dsize dg] in Ho. lia.
  - done.
  - exists s2. split; [|done]. unfold ialloc. rewrite (bind_ok _ _ s (freeinode s) s1) by (rewrite u32_small by lia; done).
    assert (s16 (xshort t) = t) as Et by (destruct Ht as [-> | ->]; done). rewrite Et. change (s16 (xshort 1)) with 1. change (xint 0) with 0. fold dg.
    rewrite Enum in E. by rewrite (bind_ok _ _ _ _ _ E).
Qed.

(** ** The empty image *)
Lemma zero_blocks_ok n : ∀ i s, 0 ≤ i → i + Z.of_nat n ≤ FSSIZE → ∃ m, zero_blocks n i s = Ok (tt, mkimage m (freeinode s) (freeblock s)) ∧
  ∀ b, m !! b = if decide (i ≤ b < i + Z.of_nat n) then Some zeros else img s !! b.
Proof.
  induction n as [|n IH]; intros i s Hi Hn.
  { exists (img s). split; [by destruct s|]. intros b. rewrite decide_False by lia. done. }
  cbn [zero_blocks]. rewrite (bind_ok _ _ _ _ _ (wsect_ok s i (replicate BSIZE 0) ltac:(lia))).
  destruct (IH (i + 1) (put i (replicate BSIZE 0) s)) as (m & E & Hm); [lia..|]. exists m. split; [exact E|]. intros b. rewrite Hm. cbn [img put].
  destruct (decide (b = i)) as [->|Hb].
  - rewrite decide_False, decide_True, lookup_insert_eq by lia. done.
  - rewrite lookup_insert_ne by done. apply decide_ext. lia.
Qed.
Lemma sb_block_ok : block_ok sb_block ∧ sb_at v sb_block.
Proof. split; [split; [reflexivity|]|]. - apply (bool_decide_unpack (Forall byte_ok sb_block)). vm_compute. exact I. - by repeat split. Qed.

Lemma empty_image : ∃ s, (zero_blocks (Z.to_nat FSSIZE) 0;; wsect 1 sb_block) (mkimage ∅ 1 nmeta) = Ok (tt, s) ∧ minv s [].
Proof.
  destruct (zero_blocks_ok (Z.to_nat FSSIZE) 0 (mkimage ∅ 1 nmeta)) as (m & E & Hm); [unfold FSSIZE; lia..|]. rewrite (bind_ok _ _ _ _ _ E). cbn [freeinode freeblock].
  rewrite wsect_ok by (unfold FSSIZE; lia). set (s := put _ _ _). exists s. split; [done|].
  assert (∀ b, 0 ≤ b < FSSIZE → b ≠ 1 → img s !! b = Some zeros) as Hz.
  { intros b Hb H1. cbn [img s put]. rewrite lookup_insert_ne, Hm by done. rewrite decide_True; [done|]. unfold FSSIZE in *. lia. }
  assert (∀ b, 0 ≤ b < FSSIZE → b ≠ 1 → b ≠ 58 → world s !! b = Some zeros) as Hwz by (intros b Hb H1 H2; rewrite world_other by (by rewrite bm58); by apply Hz).
  destruct sb_block_ok as [S1 S2]. destruct (bits_marked nmeta) as [_ Hbits]; [change nmeta with 59; unfold BPB, BSIZE; lia|].
  assert (world s !! 1 = Some sb_block) as H1 by (rewrite world_other by (by rewrite bm58); apply lookup_insert_eq).
  split.
  - split; cbn [freeblock s put].
    + change nmeta with 59. unfold FSSIZE. lia.
    + split; [|intros c Hc; unfold used; rewrite world_fmap; cbn [freeblock s put]; rewrite bit_bits; [|change nmeta with 59; unfold BPB, BSIZE; lia|rewrite bm58 in Hc; unfold BPB, BSIZE; lia]; rewrite bm58 in Hc; change nmeta with 59; apply bool_decide_eq_true_2; lia|by exists sb_block].
      intros b Hb. destruct (decide (b = 1)) as [->|]; [by exists sb_block|]. destruct (decide (b = 58)) as [->|]; [|exists zeros; split; [by apply Hwz|apply zeros_ok]].
      exists (bits nmeta). split; [apply lookup_insert_eq|done].
    + intros b Hb. change nmeta with 59 in Hb. apply Hz; unfold FSSIZE in *; lia.
    + rewrite log2. apply Hz; [unfold FSSIZE; lia|done].
  - cbn [freeinode s put length]. unfold NINODES. lia.
  - change (total []) with 0. cbn [freeblock s put]. lia.
  - done.
  - intros i j b Hl. simpl in Hl. lia.
  - intros n Hn. cbn [freeinode s put] in Hn. pose proof (inode_block_range n ltac:(lia)) as Hr. unfold dnode, on_disk, decode. cbn [itype inum].
    rewrite (lookup_total_correct _ _ _ (Hwz (IBLOCK n v) ltac:(unfold FSSIZE; lia) ltac:(lia) ltac:(lia))).
    unfold field, slice, zeros. rewrite drop_replicate, take_replicate, drop_replicate, take_replicate. by rewrite le_val_replicate_0.
Qed.

(** ** Directory entries *)
Definition entry_bytes (num : Z) (name : list Z) : list Z := le_bytes 2 num ++ strncpy name DIRSIZ.

Lemma length_strncpy name n : length (strncpy name n) = n.
Proof. unfold strncpy. rewrite length_app, length_take, length_replicate. lia. Qed.
Lemma length_entry num name : length (entry_bytes num name) = 16%nat.
Proof. unfold entry_bytes. by rewrite length_app, length_le_bytes, length_strncpy. Qed.
Lemma new_entry_ok num name : 0 ≤ num < 2^16 → new_entry num (strncpy name DIRSIZ) = Ok (entry_bytes num name).
Proof.
  intros Hn. unfold new_entry. rewrite xshort_id by done. pose proof (length_strncpy name DIRSIZ) as Hl. change DIRSIZ with 14%nat in *.
  rewrite store_ok by (simpl; lia). cbn [mbind res_bind].
  rewrite store_bytes_ok; [|lia|rewrite length_splice; rewrite ?length_replicate, ?length_le_bytes; lia]. f_equal.
  change (Z.to_nat 2) with (Z.to_nat 0 + length (le_bytes 2 num))%nat. rewrite splice_splice_next by (rewrite length_replicate, length_le_bytes; simpl; lia).
  unfold splice. rewrite take_0, drop_ge by (rewrite length_replicate, length_app, length_le_bytes; simpl; lia). by rewrite app_nil_r.
Qed.
Lemma entry_bytes_ok num name : Forall byte_ok name → Forall byte_ok (entry_bytes num name).
Proof.
  intros Hn. unfold entry_bytes, strncpy. rewrite !Forall_app. split_and!; [apply le_bytes_ok|by apply Forall_take|]. apply Forall_replicate. unfold byte_ok. lia.
Qed.
Lemma entry_num num name : 0 ≤ num < 2^16 → de_num (entry_bytes num name) = num.
Proof.
  intros Hn. unfold de_num, entry_bytes. rewrite take_app_length' by (by rewrite length_le_bytes). rewrite le_val_bytes. by apply Z.mod_small.
Qed.
Lemma cname_pad n : ∀ name, cstr_ok name → cname n (strncpy name n) = take n name.
Proof.
  induction n as [|n IH]; intros name Hs; [done|]. destruct name as [|ch name]; [done|]. apply Forall_cons in Hs as [Hc Hs].
  change (strncpy (ch :: name) (S n)) with (ch :: strncpy name n). cbn [cname take]. rewrite bool_decide_eq_false_2 by lia. by rewrite IH.
Qed.
Lemma entry_name num name : cstr_ok name → de_name (entry_bytes num name) = take DIRSIZ name.
Proof. intros Hs. unfold de_name, entry_bytes. rewrite drop_app_length' by (by rewrite length_le_bytes). by apply cname_pad. Qed.

(** ** Copying files *)

(** The bytes that reading until the end returns. *)
Fixpoint contents (reads : list (list Z)) : list Z :=
  match reads with
  | [] => []
  | buf :: reads => if bool_decide (0 < length buf)%nat then buf ++ contents reads else []
  end.

Lemma cost_mono a b : cost a ≤ cost (a ++ b).
Proof. unfold cost, nb. rewrite length_app. repeat case_decide; dlia. Qed.
Lemma tally_mono i t a b ns : (i < length ns)%nat → total (<[i := (t, a)]> ns) ≤ total (<[i := (t, a ++ b)]> ns).
Proof. intros [[t0 c0] Hp]%lookup_lt_is_Some_2. rewrite !(total_insert _ _ _ _ _ _ Hp). pose proof (cost_mono a b). lia. Qed.

Lemma copy_in_ok i t reads : ∀ s ns c, minv s ns → ns !! i = Some (t, c) → Forall (Forall byte_ok) reads →
  Z.of_nat (length c) + Z.of_nat (length (contents reads)) ≤ MAXFILE * Z.of_nat BSIZE →
  nmeta + total (<[i := (t, c ++ contents reads)]> ns) ≤ FSSIZE →
  ∃ s', copy_in (Z.of_nat i + 1) reads s = Ok (tt, s') ∧ minv s' (<[i := (t, c ++ contents reads)]> ns).
Proof.
  induction reads as [|buf reads IH]; intros s ns c Hi Hc Hb Hm Hr; cbn [copy_in contents] in *.
  { exists s. split; [done|]. by rewrite app_nil_r, list_insert_id. }
  apply Forall_cons in Hb as [Hb1 Hb2]. case_bool_decide as Hl; [|exists s; split; [done|by rewrite app_nil_r, list_insert_id]].
  rewrite length_app in Hm. pose proof (lookup_lt_Some _ _ _ Hc) as Hli. destruct (iappend_ok s ns Hi i t c buf Hc Hb1) as (s1 & E & Hi1); [lia| |].
  { rewrite app_assoc in Hr. pose proof (tally_mono i t (c ++ buf) (contents reads) ns Hli). lia. }
  rewrite (bind_ok _ _ _ _ _ E). destruct (IH s1 _ (c ++ buf) Hi1) as (s2 & E2 & Hi2); [by apply list_lookup_insert_eq|done|rewrite length_app; lia|by rewrite list_insert_insert_eq, <- app_assoc|].
  exists s2. split; [done|]. by rewrite list_insert_insert_eq, <- app_assoc in Hi2.
Qed.

Record arg_ok (a : arg) : Prop := {
  ao_name : (slash ∉ a_name a) ∧ cstr_ok (a_name a);
  ao_reads : ∃ reads, a_reads a = Some reads ∧ Forall (Forall byte_ok) reads ∧ Z.of_nat (length (contents reads)) ≤ MAXFILE * Z.of_nat BSIZE }.
Definition file_of (a : arg) : Z * list Z := (T_FILE, contents (default [] (a_reads a))).
Fixpoint listing (k : Z) (args : list arg) : list Z :=
  match args with [] => [] | a :: args => entry_bytes k (stored_name (a_name a)) ++ listing (k + 1) args end.

Lemma stored_ok name : cstr_ok name → cstr_ok (stored_name name).
Proof. intros Hn. destruct name as [|ch name]; [done|]. apply Forall_cons in Hn as [? ?]. unfold stored_name. case_bool_decide; [done|by constructor]. Qed.
Lemma stored_bytes name : cstr_ok name → Forall byte_ok (stored_name name).
Proof. intros Hn%stored_ok. eapply Forall_impl; [exact Hn|]. unfold byte_ok. simpl. lia. Qed.

Lemma add_file_ok s r fs a : minv s ((T_DIR, r) :: fs) → arg_ok a → Z.of_nat (length fs) + 2 < NINODES →
  Z.of_nat (length r) + 16 ≤ MAXFILE * Z.of_nat BSIZE →
  let r' := r ++ entry_bytes (Z.of_nat (length fs) + 2) (stored_name (a_name a)) in
  nmeta + total ((T_DIR, r') :: fs ++ [file_of a]) ≤ FSSIZE →
  ∃ s', add_file ROOTINO a s = Ok (tt, s') ∧ minv s' ((T_DIR, r') :: fs ++ [file_of a]).
Proof.
  intros Hi [[Hsl Hnb] (reads & Hrd & Hrb & Hrm)] Hn Hm r' Hroom. unfold file_of in *. rewrite Hrd in *. change (default [] (Some reads)) with reads in *.
  destruct (mi_fi _ _ Hi) as [Ef _]. cbn [length] in Ef. unfold add_file. rewrite bool_decide_eq_false_2, Hrd by done.
  destruct (ialloc_ok s _ T_FILE Hi ltac:(lia) ltac:(by right)) as (s1 & E1 & Hi1). rewrite (bind_ok _ _ _ _ _ E1).
  assert (freeinode s = Z.of_nat (length fs) + 2) as Efi by lia. rewrite Efi. rewrite new_entry_ok by (unfold NINODES in Hn; lia).
  set (e := entry_bytes _ _) in *. rewrite (bind_ok _ _ s1 e s1) by done. pose proof (length_entry (Z.of_nat (length fs) + 2) (stored_name (a_name a))) as Hle. fold e in Hle.
  assert (0 ≤ cost (contents reads)) as Hc0 by apply cost_nonneg. rewrite total_cons, total_app, total_one in Hroom.
  destruct (iappend_ok s1 _ Hi1 0%nat T_DIR r e) as (s2 & E2 & Hi2); [done|by apply entry_bytes_ok, stored_bytes|lia| |].
  { cbn [app insert list_insert]. fold r'. rewrite total_cons, total_app, total_one. change (cost []) with 0.  lia. }
  rewrite Hle in E2. rewrite (bind_ok _ _ _ _ _ E2). cbn [app insert list_insert] in Hi2. fold r' in Hi2.
  assert (((T_DIR, r') :: fs ++ [(T_FILE, [])]) !! S (length fs) = Some (T_FILE, [])) as Hlk by (simpl; by rewrite list_lookup_middle).
  assert (<[S (length fs) := (T_FILE, [] ++ contents reads)]> ((T_DIR, r') :: fs ++ [(T_FILE, [])]) = (T_DIR, r') :: fs ++ [(T_FILE, contents reads)]) as Eins.
  { transitivity ((T_DIR, r') :: <[length fs := (T_FILE, contents reads)]> (fs ++ [(T_FILE, [])])); [done|]. f_equal. rewrite insert_app_r_alt by lia. by rewrite Nat.sub_diag. }
  destruct (copy_in_ok (S (length fs)) T_FILE reads s2 _ [] Hi2 Hlk Hrb) as (s3 & E3 & Hi3); [simpl; lia| |].
  { rewrite Eins, total_cons, total_app, total_one. lia. }
  rewrite Eins in Hi3. exists s3. split; [|done]. rewrite <- E3. f_equal. lia.
Qed.

Lemma length_listing args : ∀ k, length (listing k args) = (16 * length args)%nat.
Proof. induction args as [|a args IH]; intros k; [done|]. cbn [listing length]. rewrite length_app, length_entry, IH. lia. Qed.

Lemma total_nonneg ns : 0 ≤ total ns.
Proof. apply tally_nonneg. intros p _. apply cost_nonneg. Qed.

Lemma add_files_ok args : ∀ s r fs, minv s ((T_DIR, r) :: fs) → Forall arg_ok args → Z.of_nat (length fs + length args) + 1 < NINODES →
  Z.of_nat (length r + 16 * length args) ≤ MAXFILE * Z.of_nat BSIZE →
  let r' := r ++ listing (Z.of_nat (length fs) + 2) args in
  nmeta + total ((T_DIR, r') :: fs ++ (file_of <$> args)) ≤ FSSIZE →
  ∃ s', add_files ROOTINO args s = Ok (tt, s') ∧ minv s' ((T_DIR, r') :: fs ++ (file_of <$> args)).
Proof.
  induction args as [|a args IH]; intros s r fs Hi Ha Hn Hm r' Hroom.
  { exists s. unfold r'. cbn [listing fmap list_fmap]. by rewrite !app_nil_r. }
  apply Forall_cons in Ha as [Ha1 Ha2]. cbn [length] in Hn, Hm. set (e := entry_bytes (Z.of_nat (length fs) + 2) (stored_name (a_name a))) in *.
  assert (r' = (r ++ e) ++ listing (Z.of_nat (length fs) + 3) args) as Er.
  { unfold r'. cbn [listing]. fold e. rewrite app_assoc. do 2 f_equal. lia. }
  assert ((fs ++ (file_of <$> a :: args)) = (fs ++ [file_of a]) ++ (file_of <$> args)) as Efs by (by rewrite <- app_assoc).
  destruct (add_file_ok s r fs a Hi Ha1) as (s1 & E & Hi1); [lia|lia| |].
  { fold e. rewrite Efs, Er in Hroom. rewrite !total_cons, !total_app in *. pose proof (cost_mono (r ++ e) (listing (Z.of_nat (length fs) + 3) args)).
    pose proof (total_nonneg (file_of <$> args)). lia. }
  fold e in Hi1. cbn [add_files]. rewrite (bind_ok _ _ _ _ _ E). assert (Z.of_nat (length (fs ++ [file_of a])) + 2 = Z.of_nat (length fs) + 3) as El by (rewrite length_app; simpl; lia).
  destruct (IH s1 (r ++ e) (fs ++ [file_of a]) Hi1 Ha2) as (s2 & E2 & Hi2).
  - rewrite length_app. simpl. lia.
  - unfold e. rewrite length_app, length_entry. lia.
  - rewrite El, <- Er, <- Efs. done.
  - exists s2. split; [done|]. by rewrite El, <- Er, <- Efs in Hi2.
Qed.

(** ** Finishing *)
Section finish.
Context (s : image) (r : list Z) (fs : list (Z * list Z)) (Hi : minv s ((T_DIR, r) :: fs)) (Hpart : Z.of_nat (length r) `mod` 512 ≠ 0).
#[local] Abbreviation x := (dnode v (world s) ROOTINO).
#[local] Abbreviation off := (Z.of_nat (length r)).
#[local] Abbreviation size := ((off / 512 + 1) * 512).
#[local] Abbreviation dg := (set_dsize size (fields x)).
#[local] Abbreviation g := (in_core ROOTINO dg).

Lemma root_is : node (world s) ROOTINO T_DIR r ∧ isize x = off ∧ off < MAXFILE * Z.of_nat BSIZE.
Proof using Hi Hpart.
  pose proof (mi_node _ _ Hi 0%nat T_DIR r eq_refl) as Hn. split; [done|]. pose proof (node_size _ _ _ _ Hn) as Hs. split; [done|].
  pose proof (fo_size _ _ _ (nd_file _ _ _ _ Hn)) as Hf. change (Z.of_nat 0 + 1) with ROOTINO in *. rewrite Hs in Hf.
  unfold MAXFILE, NINDIRECT, NDIRECT, BSIZE in *. clear - Hf Hpart. dlia.
Qed.
Lemma root_bounds : off < size ≤ MAXFILE * Z.of_nat BSIZE ∧ size = Z.of_nat (length r + Z.to_nat (size - off)).
Proof using Hi Hpart. destruct root_is as (_ & _ & Hm). unfold MAXFILE, NINDIRECT, NDIRECT, BSIZE in *. clear - Hm Hpart. dlia. Qed.
Lemma root_file : file_ok v g (world s).
Proof using Hi Hpart.
  destruct root_is as (Hn & Hs & Hm). pose proof root_bounds as [Hb _]. destruct (nd_file _ _ _ _ Hn) as [H1 H2 H3 H4 H5 H6 H7 H8]. split; try done.
  - cbn [isize in_core dsize set_dsize]. lia.
  - intros k Hk. cbn [isize in_core dsize set_dsize]. intros Hlt. apply (H8 k Hk). rewrite Hs. unfold BSIZE in *. change (Z.of_nat 512) with 512 in *. clear - Hlt Hpart. dlia.
Qed.
Lemma root_content : content g (world s) = r ++ replicate (Z.to_nat (size - off)) 0.
Proof using Hi Hpart.
  destruct root_is as (Hn & Hs & Hm). pose proof root_bounds as [Hb Hl]. apply list_eq. intros i. unfold content at 1. cbn [isize in_core dsize set_dsize].
  rewrite list_lookup_fmap. destruct (decide (i < length r)%nat) as [Hlt|Hge].
  - rewrite lookup_app_l, lookup_seqZ_lt by lia. rewrite <- (nd_content _ _ _ _ Hn). unfold content. rewrite list_lookup_fmap, lookup_seqZ_lt by (rewrite Hs; lia). done.
  - rewrite lookup_app_r by lia. destruct (decide (Z.of_nat i < size)) as [Hi'|Hi'].
    + rewrite lookup_seqZ_lt, lookup_replicate_2 by lia. cbn [fmap option_fmap option_map]. f_equal. apply (nd_tail _ _ _ _ Hn); [rewrite Hs; lia|].
      apply (fo_alloc _ _ _ (nd_file _ _ _ _ Hn)); [apply Z.div_pos; unfold BSIZE; lia|]. rewrite Hs. unfold BSIZE. change (Z.of_nat 512) with 512. clear - Hi' Hpart. dlia.
    + rewrite lookup_seqZ_ge by lia. symmetry. apply lookup_ge_None_2. rewrite length_replicate. lia.
Qed.
Lemma root_cost : cost (r ++ replicate (Z.to_nat (size - off)) 0) = cost r.
Proof using Hi Hpart.
  pose proof root_bounds as [Hb Hl]. unfold cost. rewrite length_app, length_replicate, <- Hl. unfold nb. clear - Hpart. repeat case_decide; dlia.
Qed.

Lemma fix_root_ok : ∃ s', fix_root ROOTINO s = Ok (tt, s') ∧ minv s' ((T_DIR, r ++ replicate (Z.to_nat (size - off)) 0) :: fs).
Proof using Hi Hpart.
  destruct root_is as (Hn & Hs & Hm). pose proof root_bounds as [Hb Hl]. destruct (rinode_ok s ROOTINO (mi_good _ _ Hi)) as [Er _]; [unfold ROOTINO, NINODES; lia|].
  unfold MAXFILE, NINDIRECT, NDIRECT, BSIZE in Hb, Hm. unfold fix_root. rewrite (bind_ok _ _ _ _ _ Er). cbv zeta. cbn [dsize fields]. rewrite Hs, (xint_id off) by lia.
  change (Z.of_nat BSIZE) with 512. rewrite u32_small, xint_id by lia.
  apply (winode_inv s _ Hi 0%nat s dg); try done.
  - apply Hi.
  - split; [lia|]. apply (mi_fi _ _ Hi).
  - rewrite total_cons, root_cost. apply (mi_fb _ _ Hi).
  - by intros [|j].
  - cbn. do 2 f_equal; [symmetry; apply (nd_type _ _ _ _ Hn)|]. symmetry. apply root_content.
  - intros b Ho. left. split; [simpl; lia|]. exact Ho.
  - apply root_file.
  - destruct (nd_dinode _ _ _ _ Hn). split; try done. cbn [isize in_core dsize set_dsize]. lia.
  - apply (nd_link _ _ _ _ Hn).
  - intros o Ho. cbn [dsize set_dsize] in Ho. apply (nd_tail _ _ _ _ Hn). rewrite Hs. lia.
  - intros Hz. apply (nd_ind _ _ _ _ Hn) in Hz. rewrite Hs in Hz. cbn [dsize set_dsize]. lia.
Qed.
End finish.

Lemma free_map_written s : good s → ∃ s', balloc (freeblock s) s = Ok (tt, s') ∧ img s' = world s.
Proof.
  intros Hg. pose proof (g_fb _ Hg) as Hfb. change nmeta with 59 in Hfb. unfold FSSIZE in Hfb. unfold balloc. rewrite bool_decide_eq_true_2 by (unfold BSIZE; lia).
  change (replicate BSIZE 0) with zeros. destruct (bits_marked (freeblock s)) as [-> _]; [unfold BPB, BSIZE; lia|].
  rewrite (bind_ok _ _ s (bits (freeblock s)) s) by done. rewrite wsect_ok by (rewrite bm58; unfold FSSIZE; lia). eexists. split; [done|]. done.
Qed.

(** ** The root directory *)
Definition root_entries (args : list arg) : list (list Z) :=
  entry_bytes ROOTINO [46] :: entry_bytes ROOTINO [46; 46] :: imap (λ k a, entry_bytes (Z.of_nat k + 2) (stored_name (a_name a))) args.

Lemma listing_concat args : ∀ n, listing (Z.of_nat n + 2) args = concat (imap (λ k a, entry_bytes (Z.of_nat (n + k) + 2) (stored_name (a_name a))) args).
Proof.
  induction args as [|a args IH]; intros n; [done|]. rewrite imap_cons. cbn [listing concat]. rewrite Nat.add_0_r. f_equal.
  replace (Z.of_nat n + 2 + 1) with (Z.of_nat (S n) + 2) by lia. rewrite IH. f_equal. apply imap_ext. intros k a' _. simpl. do 2 f_equal. lia.
Qed.
Lemma root_bytes args : concat (root_entries args) = entry_bytes ROOTINO [46] ++ entry_bytes ROOTINO [46; 46] ++ listing 2 args.
Proof. change 2 with (Z.of_nat 0 + 2). rewrite listing_concat. done. Qed.
Lemma length_root args : length (concat (root_entries args)) = (32 + 16 * length args)%nat.
Proof. rewrite root_bytes, !length_app, !length_entry, length_listing. lia. Qed.

Lemma dirents_cons e l : length e = 16%nat → dirents (e ++ l) = e :: dirents l.
Proof.
  intros He. unfold dirents. rewrite length_app, He. replace ((16 + length l) / 16)%nat with (S (length l / 16)).
  2:{ replace (16 + length l)%nat with (length l + 1 * 16)%nat by lia. rewrite Nat.div_add by lia. lia. }
  cbn [seq fmap list_fmap]. f_equal.
  - unfold dirent, slice. rewrite drop_0. by apply take_app_length'.
  - rewrite <- fmap_S_seq, <- list_fmap_compose. apply list_fmap_ext. intros _ j _. unfold compose, dirent, slice.
    replace (16 * S j)%nat with (length e + 16 * j)%nat by lia. by rewrite drop_app_add.
Qed.
Lemma dirents_concat es : Forall (λ e, length e = 16%nat) es → dirents (concat es) = es.
Proof. induction 1 as [|e es He _ IH]; [done|]. cbn [concat]. by rewrite dirents_cons, IH. Qed.
Lemma concat_zeros k : replicate (16 * k) 0 = concat (replicate k (replicate 16 0)).
Proof. induction k as [|k IH]; [done|]. replace (16 * S k)%nat with (16 + 16 * k)%nat by lia. rewrite replicate_add, IH. done. Qed.
Lemma root_lengths args : Forall (λ e, length e = 16%nat) (root_entries args).
Proof.
  constructor; [done|]. constructor; [done|]. apply Forall_lookup. intros k e. rewrite list_lookup_imap. intros (a & _ & ->)%fmap_Some. apply length_entry.
Qed.

(** The image is finished: the file system it holds. *)
Lemma mkfs_ok args : Forall arg_ok args → Z.of_nat (length args) ≤ 198 → (2 + Z.of_nat (length args)) `mod` 32 ≠ 0 →
  nmeta + total ((T_DIR, concat (root_entries args)) :: (file_of <$> args)) ≤ FSSIZE →
  ∃ V s k, main args = Ok V ∧ V = world s ∧ minv s ((T_DIR, concat (root_entries args ++ replicate k (replicate 16 0))) :: (file_of <$> args)).
Proof.
  intros Ha Hn Hp Hroom. destruct empty_image as (s0 & E0 & I0). destruct (ialloc_ok s0 [] T_DIR I0) as (s1 & E1 & I1); [rewrite (proj1 (mi_fi _ _ I0)); done|by left|].
  assert (freeinode s0 = ROOTINO) as Ef by apply (mi_fi _ _ I0). rewrite Ef in E1.
  set (e1 := entry_bytes ROOTINO [46]). set (e2 := entry_bytes ROOTINO [46; 46]). rewrite root_bytes in Hroom. fold e1 e2 in Hroom.
  pose proof (total_nonneg (file_of <$> args)) as Ht. rewrite total_cons in Hroom.
  destruct (iappend_ok s1 _ I1 0%nat T_DIR [] e1) as (s2 & E2 & I2); [done|by apply entry_bytes_ok; repeat constructor|done| |].
  { cbn [app insert list_insert]. rewrite total_one. pose proof (cost_mono e1 (e2 ++ listing 2 args)). lia. }
  destruct (iappend_ok s2 _ I2 0%nat T_DIR e1 e2) as (s3 & E3 & I3); [done|by apply entry_bytes_ok; repeat constructor|done| |].
  { cbn [app insert list_insert]. rewrite total_one. pose proof (cost_mono (e1 ++ e2) (listing 2 args)) as Hc. rewrite <- app_assoc in Hc. lia. }
  destruct (add_files_ok args s3 (e1 ++ e2) [] I3 Ha) as (s4 & E4 & I4).
  - unfold NINODES. simpl. lia.
  - unfold e1, e2, MAXFILE, NINDIRECT, NDIRECT, BSIZE. rewrite length_app, !length_entry. lia.
  - cbn [app length]. rewrite total_cons, <- app_assoc. exact Hroom.
  - cbn [app length] in I4. change (Z.of_nat 0 + 2) with 2 in I4. rewrite <- app_assoc in I4. unfold e1, e2 in I4. rewrite <- root_bytes in I4.
    set (r := concat (root_entries args)) in *. assert (length r = 32 + 16 * length args)%nat as Hl by apply length_root.
    destruct (fix_root_ok s4 r _ I4) as (s5 & E5 & I5); [rewrite Hl; clear - Hp; dlia|]. destruct (free_map_written s5 (mi_good _ _ I5)) as (s6 & E6 & E7).
    set (q := Z.of_nat (length r) / 512) in *. exists (world s5), s5, (Z.to_nat ((q + 1) * 32 - 2 - Z.of_nat (length args))). split_and!; [|done|].
    + unfold main. assert (mkfs args (mkimage ∅ 1 nmeta) = Ok (tt, s6)) as ->; [|by rewrite E7].
      unfold mkfs. rewrite <- (bind_assoc (zero_blocks _ 0) (λ _, wsect 1 sb_block)), (bind_ok _ _ _ _ _ E0), (bind_ok _ _ _ _ _ E1), bool_decide_eq_true_2 by done.
      rewrite (bind_ok _ _ s1 e1 s1) by done. rewrite (bind_ok _ _ _ _ _ E2), (bind_ok _ _ s2 e2 s2) by done.
      by rewrite (bind_ok _ _ _ _ _ E3), (bind_ok _ _ _ _ _ E4), (bind_ok _ _ _ _ _ E5), (bind_ok _ _ s5 (freeblock s5) s5).
    + rewrite concat_app, <- concat_zeros. fold r.
      replace (16 * Z.to_nat ((q + 1) * 32 - 2 - Z.of_nat (length args)))%nat with (Z.to_nat ((q + 1) * 512 - Z.of_nat (length r))); [exact I5|].
      assert (q * 512 ≤ Z.of_nat (length r) < (q + 1) * 512) by (unfold q; dlia). lia.
Qed.

Lemma empty_header : header zeros [].
Proof. split; [apply zeros_ok|done|by intros t b]. Qed.
Lemma root_num args e : (length args < 1000)%nat → e ∈ root_entries args → 1 ≤ de_num e ≤ Z.of_nat (length args) + 1.
Proof.
  intros Hl [->|[->|[k Hk]%list_elem_of_lookup]%elem_of_cons]%elem_of_cons; [rewrite entry_num by done; unfold ROOTINO; lia..|].
  rewrite list_lookup_imap in Hk. apply fmap_Some in Hk as (a & Ha & ->). apply lookup_lt_Some in Ha. rewrite entry_num by lia. lia.
Qed.

(** The inodes in use. *)
Definition made (args : list arg) (num : Z) : Prop := 1 ≤ num ≤ Z.of_nat (length args) + 1.

Section image.
Context (args : list arg) (s : image) (k : nat) (Hn : Z.of_nat (length args) ≤ 198).
Context (Hi : minv s ((T_DIR, concat (root_entries args ++ replicate k (replicate 16 0))) :: (file_of <$> args))).
#[local] Abbreviation V := (world s).

Lemma made_root : node V ROOTINO T_DIR (concat (root_entries args ++ replicate k (replicate 16 0))).
Proof using Hi. exact (mi_node _ _ Hi 0%nat _ _ eq_refl). Qed.
Lemma made_file i a : args !! i = Some a → node V (Z.of_nat i + 2) T_FILE (contents (default [] (a_reads a))).
Proof using Hi.
  intros Ha. pose proof (mi_node _ _ Hi (S i) T_FILE (contents (default [] (a_reads a)))) as Hnd.
  replace (Z.of_nat i + 2) with (Z.of_nat (S i) + 1) by (clear; lia). apply Hnd.
  change ((file_of <$> args) !! i = Some (T_FILE, contents (default [] (a_reads a)))). by rewrite list_lookup_fmap, Ha.
Qed.
Lemma made_entries : dirents (content (dnode v V ROOTINO) V) = root_entries args ++ replicate k (replicate 16 0).
Proof using Hi.
  rewrite (nd_content _ _ _ _ made_root). apply dirents_concat, Forall_app. split; [apply root_lengths|]. by apply Forall_replicate.
Qed.
Lemma made_cases num : made args num → num = ROOTINO ∨ ∃ i a, num = Z.of_nat i + 2 ∧ args !! i = Some a.
Proof using.
  intros Hm. unfold made, ROOTINO in *. destruct (decide (num = 1)) as [|Hne]; [by left|right]. destruct (lookup_lt_is_Some_2 args (Z.to_nat (num - 2))) as [a Ha]; [lia|].
  exists (Z.to_nat (num - 2)), a. split; [lia|done].
Qed.
Lemma made_node num : made args num → node_ok v V (made args) num.
Proof using Hn Hi.
  intros Hm. assert (0 ≤ num < ninodes v) as Hr by (unfold made in Hm; change (ninodes v) with 200; lia).
  destruct (made_cases num Hm) as [->|(i & a & -> & Ha)].
  - pose proof made_root as Hnd. split; [done|apply Hnd|rewrite (nd_type _ _ _ _ Hnd); done|rewrite (nd_link _ _ _ _ Hnd); done|]. intros _. split.
    + rewrite (node_size _ _ _ _ Hnd), concat_app, length_app, length_root, <- concat_zeros, length_replicate. change DE with 16. clear. dlia.
    + intros e. rewrite made_entries. intros [He|[-> _]%elem_of_replicate]%elem_of_app Hz; [|done]. apply root_num; [lia|done].
  - pose proof (made_file i a Ha) as Hnd. split; [done|apply Hnd|rewrite (nd_type _ _ _ _ Hnd); done|rewrite (nd_link _ _ _ _ Hnd); done|].
    rewrite (nd_type _ _ _ _ Hnd). done.
Qed.
(** A name leads to its file, if no earlier file has the same. *)
Lemma made_lookup i a : args !! i = Some a → Forall arg_ok args → (∀ j b, args !! j = Some b → take DIRSIZ (stored_name (a_name b)) = take DIRSIZ (stored_name (a_name a)) → (i ≤ j)%nat) →
  take DIRSIZ (stored_name (a_name a)) ≠ [46] → take DIRSIZ (stored_name (a_name a)) ≠ [46; 46] →
  resolve v V false ROOTINO [stored_name (a_name a)] = Some (Z.of_nat i + 2).
Proof using Hn Hi.
  intros Ha Hok Hfirst H1 H2. assert (∀ j b, args !! j = Some b → cstr_ok (stored_name (a_name b))) as Hcs.
  { intros j b Hb. rewrite Forall_lookup in Hok. by apply stored_ok, (ao_name _ (Hok _ _ Hb)). }
  pose proof (lookup_lt_Some _ _ _ Ha) as Hl. set (e := entry_bytes (Z.of_nat i + 2) (stored_name (a_name a))).
  cbn [resolve]. rewrite bool_decide_eq_true_2 by (apply (nd_type _ _ _ _ made_root)). cbn [andb]. rewrite made_entries.
  assert (list_find (de_is (take DIRSIZ (stored_name (a_name a)))) (root_entries args ++ replicate k (replicate 16 0)) = Some ((2 + i)%nat, e)) as ->.
  - apply list_find_Some. split_and!.
    + rewrite lookup_app_l by (simpl; rewrite length_imap; lia). change (imap (λ k a, entry_bytes (Z.of_nat k + 2) (stored_name (a_name a))) args !! i = Some e). by rewrite list_lookup_imap, Ha.
    + split; [unfold e; rewrite entry_num by lia; lia|]. unfold e. apply entry_name. by eapply Hcs.
    + intros j y Hj Hlt [_ Hnm]. rewrite lookup_app_l in Hj by (simpl; rewrite length_imap; lia). destruct j as [|[|j]].
      * injection Hj as <-. rewrite entry_name in Hnm by (by repeat constructor). by rewrite <- Hnm in H1.
      * injection Hj as <-. rewrite entry_name in Hnm by (by repeat constructor). by rewrite <- Hnm in H2.
      * change (imap (λ k a, entry_bytes (Z.of_nat k + 2) (stored_name (a_name a))) args !! j = Some y) in Hj. rewrite list_lookup_imap in Hj. apply fmap_Some in Hj as (b & Hb & ->).
        rewrite entry_name in Hnm by (by eapply Hcs). specialize (Hfirst j b Hb Hnm). lia.
  - unfold e. by rewrite entry_num by lia.
Qed.
End image.

(** C29: [mkfs], given at most 198 files that can be opened, have at most 140 blocks, names without a
    slash and fit on the disk together with the root directory, and whose number
    plus two is no multiple of 32 (with 30 files, for example, the root's entries
    fill its blocks and [mkfs] makes a root with a hole, see [full_root_has_hole]),
    makes an image that is a file system the kernel can start from: the superblock
    and the layout are what the kernel expects, the log is empty, the free map marks
    what is in use, the inodes are closed under directory entries and share no
    blocks, the root directory has [.], [..] and the files' names (without a leading
    underscore, cut to 14 bytes) and then unused entries, every file has one link and
    the bytes that were read for it, and the other inodes are free.  The name of a
    file leads to its inode if no earlier file has the same name after the cut and
    the name is neither [.] nor [..]. *)
Theorem mkfs_makes_file_system args : Forall arg_ok args → Z.of_nat (length args) ≤ 198 → (2 + Z.of_nat (length args)) `mod` 32 ≠ 0 →
  nmeta + total ((T_DIR, concat (root_entries args)) :: (file_of <$> args)) ≤ FSSIZE →
  ∃ V k fb, main args = Ok V ∧ sb_ok v ∧ log_ok v ∧ fs_ok v V ∧ (∃ h, V !! logstart v = Some h ∧ header h []) ∧
    (∀ b, 0 ≤ b < FSSIZE → used v V b ↔ b < fb) ∧
    (∀ num, made args num → node_ok v V (made args) num) ∧
    (∀ m n b, made args m → made args n → owns (dnode v V m) V b → owns (dnode v V n) V b → m = n) ∧
    (∀ num, made args num ∨ num ≤ 0 ∨ NINODES ≤ num ∨ itype (dnode v V num) = 0) ∧
    itype (dnode v V ROOTINO) = T_DIR ∧ dirents (content (dnode v V ROOTINO) V) = root_entries args ++ replicate k (replicate 16 0) ∧
    ∀ i a, args !! i = Some a → let x := dnode v V (Z.of_nat i + 2) in
      itype x = T_FILE ∧ inlink x = 1 ∧ content x V = contents (default [] (a_reads a)) ∧
      ((∀ j b, args !! j = Some b → take DIRSIZ (stored_name (a_name b)) = take DIRSIZ (stored_name (a_name a)) → (i ≤ j)%nat) →
       take DIRSIZ (stored_name (a_name a)) ≠ [46] → take DIRSIZ (stored_name (a_name a)) ≠ [46; 46] →
       resolve v V false ROOTINO [stored_name (a_name a)] = Some (Z.of_nat i + 2)).
Proof.
  intros Ha Hn Hp Hroom. destruct (mkfs_ok args Ha Hn Hp Hroom) as (V & s & k & E & -> & Hi). exists (world s), k, (freeblock s).
  pose proof (mi_good _ _ Hi) as Hg. destruct (mi_fi _ _ Hi) as [Ef _]. cbn [length] in Ef. rewrite length_fmap in Ef. split_and!.
  - exact E.
  - exact mk_sb_ok.
  - exact mk_log_ok.
  - apply Hg.
  - exists zeros. split; [rewrite world_other by done; apply (g_log _ Hg)|exact empty_header].
  - intros b Hb. apply world_used; [done|]. pose proof FSSIZE_BPB. lia.
  - intros num Hm. by apply (made_node args s k Hn Hi).
  - intros m n b Hm Hn' Ho1 Ho2. unfold made in *.
    replace m with (Z.of_nat (Z.to_nat (m - 1)) + 1) in Ho1 by lia. replace n with (Z.of_nat (Z.to_nat (n - 1)) + 1) in Ho2 by lia.
    assert (∀ j, 1 ≤ j ≤ Z.of_nat (length args) + 1 → (Z.to_nat (j - 1) < length ((T_DIR, concat (root_entries args ++ replicate k (replicate 16 0%Z))) :: (file_of <$> args)))%nat) as Hlt.
    { intros j Hj. rewrite length_cons, length_fmap. lia. }
    pose proof (mi_apart _ _ Hi _ _ b (Hlt m Hm) (Hlt n Hn') Ho1 Ho2). lia.
  - intros num. unfold made. destruct (decide (1 ≤ num ≤ Z.of_nat (length args) + 1)); [by left|]. destruct (decide (num ≤ 0)); [auto|]. destruct (decide (NINODES ≤ num)); [auto|].
    do 3 right. apply (mi_free _ _ Hi). lia.
  - apply (nd_type _ _ _ _ (made_root args s k Hi)).
  - apply (made_entries args s k Hi).
  - intros i a Hia x. pose proof (made_file args s k Hi i a Hia) as Hnd. split_and!; [apply (nd_type _ _ _ _ Hnd)|apply (nd_link _ _ _ _ Hnd)|apply (nd_content _ _ _ _ Hnd)|].
    intros. by apply (made_lookup args s k Hn Hi i a).
Qed.

(** Two files, [_ab] of 612 bytes in two reads and [c]. *)
Definition two_files : list arg :=
  [mkarg [95; 97; 98] (Some [replicate 512 7; replicate 100 8]); mkarg [99] (Some [[1; 2; 3]])].
Lemma two_files_ok : Forall arg_ok two_files.
Proof.
  repeat constructor; cbn [a_name a_reads].
  - set_solver by lia.
  - eexists. split; [done|]. split; [|vm_compute; discriminate]. by apply Forall_cons; split; [apply Forall_replicate|apply Forall_cons; split; [apply Forall_replicate|]].
  - set_solver by lia.
  - eexists. split; [done|]. split; [|vm_compute; discriminate]. by repeat constructor.
Qed.
Lemma mkfs_makes_file_system_witness : ∃ V, main two_files = Ok V ∧ fs_ok v V ∧ inlink (dnode v V 2) = 1 ∧ content (dnode v V 2) V = replicate 512 7 ++ replicate 100 8.
Proof.
  destruct (mkfs_makes_file_system two_files two_files_ok) as (V & k & fb & E & _ & _ & Hf & _ & _ & _ & _ & _ & _ & _ & Hfile); [vm_compute; discriminate|vm_compute; discriminate|vm_compute; discriminate|].
  exists V. split; [exact E|]. split; [exact Hf|]. destruct (Hfile 0%nat _ eq_refl) as (_ & Hl & Hc & _). split; [exact Hl|exact Hc].
Defined.

(** With 30 files the entries of the root directory fill its block.  Rounding its
    size up then adds a whole block that is not allocated. *)
Definition thirty_files : list arg := replicate 30 (mkarg [97] (Some [])).
Theorem full_root_has_hole : ∃ V, main thirty_files = Ok V ∧ isize (dnode v V ROOTINO) = 1024 ∧ blk (dnode v V ROOTINO) V 1 = 0.
Proof.
  assert (match main thirty_files with Ok V => bool_decide (isize (dnode v V ROOTINO) = 1024) && bool_decide (blk (dnode v V ROOTINO) V 1 = 0) | Fault _ => false end = true) as Hb by (vm_compute; reflexivity).
  destruct (main thirty_files) as [V|]; [|done]. exists V. split; [done|]. apply andb_true_iff in Hb as [H1%bool_decide_eq_true H2%bool_decide_eq_true]. done.
Qed.
