(* ===== verification/FileFacts.v ===== *)
(** * Writing open files

    One turn of [filewrite]'s loop is a whole transaction. *)
From stdpp Require Import base numbers list gmap sets strings.
From S2P Require Import Prelude Bytes XString Bio Log LogFacts LogClaims Fs Pipe File FsFacts FsBlocks FsInode FsIO FsDinode FsUpdate FsTxn FsDir FsDirlink FsNames FsCache FsNamex.
#[local] Open Scope Z_scope.

Lemma runs_on_fs {A} (m : M fstate A) (s : ustate) (Q : A → ustate → Prop) :
  runs m (fsys s) (λ a t, Q a (mkus t (ftable s) (pipes s))) → runs (on_fs m) s Q.
Proof. intros (a & t & Hm & HQ). eexists a, _. unfold on_fs. by rewrite Hm. Qed.
Lemma get_file_ok f s x (Q : file → ustate → Prop) : ftable s !! f = Some x → Q x s → runs (get_file f) s Q.
Proof. intros Hf HQ. exists x, s. unfold get_file. by rewrite Hf. Qed.
Lemma put_file_ok f s x (Q : unit → ustate → Prop) : Q tt (mkus (fsys s) (<[f := x]> (ftable s)) (pipes s)) → runs (put_file f x) s Q.
Proof. intros HQ. by eexists tt, _. Qed.

Lemma ilock_valid s ip x : icache s !! ip = Some x → iref x > 0 → ilocked x = false → ivalid x = true →
  ilock true (Some ip) s = Ok (tt, mkfs (fl s) (sb s) (<[ip := set_ilock true x]> (icache s))).
Proof.
  intros Hx Hr Hl Hvl. pose proof (lookup_lt_Some _ _ _ Hx). unfold ilock, lock_inode, mbind, M_bind, get_inode, put_inode, modify.
  rewrite Hx, bool_decide_eq_false_2, Hx, Hl by lia. cbn [icache]. rewrite list_lookup_insert_eq by done. cbn [ivalid set_ilock]. by rewrite Hvl.
Qed.
Lemma iunlock_ok s ip x : icache s !! ip = Some x → iref x > 0 → ilocked x = true →
  iunlock (Some ip) s = Ok (tt, mkfs (fl s) (sb s) (<[ip := set_ilock false x]> (icache s))).
Proof.
  intros Hx Hr Hl. unfold iunlock, mbind, M_bind, get_inode. rewrite Hx, Hl, bool_decide_eq_false_2 by lia. done.
Qed.
Lemma lock_dinode l x : dinode_ok x → dinode_ok (set_ilock l x).
Proof. intros [H1 H2 H3 H4 H5 H6 H7]. by split. Qed.
Lemma lock_synced v l x V : length (V !!! IBLOCK (inum x) v) = BSIZE → synced v x V → synced v (set_ilock l x) V.
Proof.
  intros Hl. unfold synced. cbn [inum set_ilock]. rewrite !load_dinode_ok by done. intros E.
  apply (f_equal (λ r, match r with Ok y => Ok (set_ilock l y) | Fault e => Fault e end)) in E. exact E.
Qed.

(** Writing on, also past the end. *)
Lemma splice_on (d : list Z) o a b : (o ≤ length d)%nat → splice (splice d o a) (o + length a) b = splice d o (a ++ b).
Proof.
  intros Hl. unfold splice. assert (length (take o d) = o) as Et by (rewrite length_take; lia).
  assert (length (take o d ++ a) = o + length a)%nat as El by (rewrite length_app; lia).
  rewrite (app_assoc (take o d) a), <- El, take_app_length, El, drop_app_ge, El, drop_drop by lia.
  rewrite length_app, <- !app_assoc. do 3 f_equal. f_equal. lia.
Qed.

(** ** The size of a turn *)
Lemma nblks_split off m n : 0 ≤ off → 0 < m < n → nblks off m + nblks (off + m) (n - m) ≤ nblks off n + 1.
Proof. intros Ho Hm. unfold nblks, BSIZE. change (Z.of_nat 512) with 512. rewrite !bool_decide_eq_false_2 by lia. replace (off + m + (n - m) - 1) with (off + n - 1) by lia. dlia. Qed.
Lemma nblks_chunk off n : 0 ≤ off → n ≤ maxwrite → nblks off n ≤ 4.
Proof. intros Ho Hn. change maxwrite with 1536 in Hn. unfold nblks, BSIZE. change (Z.of_nat 512) with 512. case_bool_decide; dlia. Qed.
Lemma nblks_mono off m n : 0 ≤ off → m ≤ n → nblks off m ≤ nblks off n.
Proof. intros Ho Hm. unfold nblks, BSIZE. change (Z.of_nat 512) with 512. repeat case_bool_decide; dlia. Qed.

Section files.
Context (v : superblock) (Hv : sb_ok v) (Hlog : log_ok v).

(** The blocks a write to [x] may touch besides those of the data. *)
Definition metas (x : inode) : gset Z :=
  {[bmapstart v]} ∪ ({[IBLOCK (inum x) v]} ∪ (if decide (ind x = 0) then ∅ else {[ind x]})).
Lemma metas_size x : (size (metas x) ≤ 3)%nat.
Proof using.
  unfold metas. pose proof (size_add (bmapstart v) ({[IBLOCK (inum x) v]} ∪ (if decide (ind x = 0) then ∅ else {[ind x]}))) as H1.
  set (T := if decide (ind x = 0) then ∅ else {[ind x]}) in *. pose proof (size_add (IBLOCK (inum x) v) T) as H2.
  assert (size T ≤ 1)%nat by (unfold T; case_decide; [rewrite size_empty; lia|by rewrite size_singleton]). lia.
Qed.
Lemma metas_home x V : file_ok v x V → 0 ≤ inum x < ninodes v → ∀ b, b ∈ metas x → inodestart v ≤ b < sb_size v.
Proof using Hv.
  intros Hx Hn b Hb. pose proof (so_bmap _ Hv). pose proof (so_inodes _ Hv) as (_ & I1 & I2).
  assert (0 ≤ ninodes v / IPB) by (apply Z.div_pos; [done|unfold IPB; lia]).
  destruct (IBLOCK_ok v Hv _ Hn) as [Hr E]. assert (0 ≤ inum x / IPB) by (apply Z.div_pos; unfold IPB; lia).
  unfold metas in Hb. apply elem_of_union in Hb as [->%elem_of_singleton|[->%elem_of_singleton|Hb]%elem_of_union]; [lia..|].
  case_decide as Hi; [by apply not_elem_of_empty in Hb|]. apply elem_of_singleton in Hb as ->. pose proof (fo_ind _ _ _ Hx Hi) as [? _]. lia.
Qed.

(** An open file on inode [x], with the disk at rest. *)
Record opened (s : ustate) (f : nat) (fx : file) (x : inode) (V : gmap Z (list Z)) : Prop := {
  op_idle : idle v (fsys s) V;
  op_sb : sb (fsys s) = v;
  op_fs : fs_ok v V;
  op_file : ftable s !! f = Some fx ∧ f_type fx = FD_INODE;
  op_inode : icache (fsys s) !! f_ip fx = Some x;
  op_state : ilocked x = false ∧ ivalid x = true ∧ iref x > 0;
  op_type : itype x ≠ T_DEV;
  op_ok : file_ok v x V;
  op_dinode : dinode_ok x ∧ 0 ≤ inum x < ninodes v;
  op_synced : synced v x V;
  op_off : 0 ≤ f_off fx ≤ isize x }.

(** What a write of the bytes [bs] does to the file. *)
Record moved (s : ustate) (f : nat) (fx : file) (x : inode) (V : gmap Z (list Z)) (bs : list Z)
    (s' : ustate) (x' : inode) (V' : gmap Z (list Z)) : Prop := {
  mv_open : opened s' f (set_foff (f_off fx + Z.of_nat (length bs)) fx) x' V';
  mv_content : content x' V' = splice (content x V) (Z.to_nat (f_off fx)) bs;
  mv_size : isize x' = Z.max (isize x) (f_off fx + Z.of_nat (length bs));
  mv_same : inum x' = inum x ∧ itype x' = itype x ∧ inlink x' = inlink x ∧ iref x' = iref x;
  mv_icache : icache (fsys s') = <[f_ip fx := x']> (icache (fsys s));
  mv_ftable : ftable s' = <[f := set_foff (f_off fx + Z.of_nat (length bs)) fx]> (ftable s);
  mv_pipes : pipes s' = pipes s }.

Section chunk.
Context (devwrite : Z → option (nat → list Z → Z → M fstate Z)).

(** A write stays clear of the log. *)
Lemma written_off_log ip x src off n s V s' x' V' F' : fs_ok v V → file_ok v x V → 0 ≤ inum x < ninodes v →
  written v ip src off n s x V (metas x) s' x' V' F' →
  (∀ b, b ∈ F' → inodestart v ≤ b) ∧ V' !! logstart v = V !! logstart v.
Proof using Hv Hlog.
  intros HV Hx Hin Hw. pose proof (so_bmap _ Hv) as Hbm. pose proof (so_inodes _ Hv) as (Hi0 & I1 & I2).
  destruct Hlog as (G1 & G2 & G3). change LOGSIZE with 30 in G2.
  assert (0 ≤ ninodes v / IPB) as I3 by (apply Z.div_pos; [done|unfold IPB; lia]). split.
  { intros b [Hb%(metas_home x V Hx Hin)|Hb]%(wn_wider _ _ _ _ _ _ _ _ _ _ _ _ _ Hw); lia. }
  apply (wn_frame _ _ _ _ _ _ _ _ _ _ _ _ _ Hw); [lia|apply (fs_meta _ _ HV); lia|lia| | |].
  - intros E. destruct (IBLOCK_ok v Hv _ Hin) as [_ E']. assert (0 ≤ inum x / IPB) by (apply Z.div_pos; unfold IPB; lia). lia.
  - intros E. pose proof (fo_ind _ _ _ Hx ltac:(lia)). lia.
  - intros j Hj E. pose proof (fo_data _ _ _ Hx j Hj ltac:(lia)). lia.
Qed.

(** The file after the write of [n] bytes of [src] to its locked inode, the inode's release and the commit. *)
Lemma turn_moved s f fx x V src n s2 s3 x' V' F' t V5 : opened s f fx x V → 0 ≤ n ≤ Z.of_nat (length src) →
  let xl := set_ilock true x in let bs := take (Z.to_nat n) src in
  written v (f_ip fx) src (f_off fx) n s2 xl V (metas x) s3 x' V' F' →
  idle v t V5 → vol V5 → agree v V' V5 → sb t = v → icache t = <[f_ip fx := set_ilock false x']> (icache (fsys s)) →
  moved s f fx x V bs (mkus t (<[f := set_foff (f_off fx + n) fx]> (ftable s)) (pipes s)) (set_ilock false x') V5.
Proof using Hv Hlog.
  intros [Hidle Hsb HV [Hf Hft] Hic (Hul & Hvl & Hrf) Hty Hx [Hdi Hin] Hsy Hoff] Hlen xl bs Hw Id5 Vol5 Ag Sb5 Ic5.
  destruct Hw as [W1 W2 W3 W4 W5 W6 (Wn & Wt & Wl & Wk & Wr & Wv) W8 W9 W10 _ _ _ _ _]. set (x3 := set_ilock false x') in *.
  assert (file_ok v x3 V') as Hx3 by (by eapply file_ok_ext; [..|exact W4]).
  assert (0 ≤ inum x3 < ninodes v) as Hn3 by (change (0 ≤ inum x' < ninodes v); by rewrite Wn).
  assert (Z.of_nat (length bs) = n) as Etk by (unfold bs; rewrite length_take; lia).
  split; cbn [fsys ftable pipes]; rewrite ?Etk; try done.
  - split; cbn [fsys ftable pipes]; try done.
    + by eapply agree_fs.
    + split; [|done]. apply list_lookup_insert_eq. by eapply lookup_lt_Some.
    + rewrite Ic5. apply list_lookup_insert_eq. by eapply lookup_lt_Some.
    + split; [done|]. split; [change (ivalid x' = true); by rewrite Wv|change (iref x' > 0); by rewrite Wr].
    + change (itype x' ≠ T_DEV). by rewrite Wt.
    + by eapply agree_file.
    + split; [by apply lock_dinode|done].
    + eapply agree_synced; [done..|]. apply lock_synced; [|apply W10, lock_synced; [|exact Hsy]].
      * rewrite Wn. by apply (inode_block v Hv xl V' W5).
      * by apply (inode_block v Hv x V HV).
    + cbn [f_off set_foff]. change (isize x3) with (isize x'). rewrite W8. change (isize xl) with (isize x). lia.
  - rewrite (agree_content v Hv Hlog V' V5 Ag x3 Hx3), (content_ext V' x' x3), W9 by done. done.
Qed.

(** One turn: [begin_op]; [ilock]; [writei]; [iunlock]; [end_op]. *)
Lemma turn_ok {B} s f fx x V addr n1 (k : Z → M ustate B) Q : opened s f fx x V →
  0 < n1 ≤ maxwrite → n1 ≤ Z.of_nat (length addr) → f_off fx + n1 ≤ MAXFILE * Z.of_nat BSIZE → Forall byte_ok addr →
  nblks (f_off fx) n1 + spare x ≤ nfree v V →
  (∀ s' x' V', moved s f fx x V (take (Z.to_nat n1) addr) s' x' V' →
    nfree v V - nblks (f_off fx) n1 - spare x ≤ nfree v V' - spare x' → runs (k n1) s' Q) →
  runs (fbegin_op;; x ← get_file f; on_fs (ilock true (Some (f_ip x)));;
    r ← on_fs (writei true devwrite (f_ip x) addr (f_off x) n1);
    (if bool_decide (0 < s32 r) then put_file f (set_foff (u32 (f_off x + s32 r)) x) else mret tt);;
    on_fs (iunlock (Some (f_ip x)));; fend_op true;; k (s32 r)) s Q.
Proof using Hv Hlog.
  intros Hop. pose proof Hop as [Hidle Hsb HV [Hf Hft] Hic (Hul & Hvl & Hrf) Hty Hx [Hdi Hin] Hsy Hoff]. intros Hn1 Hlen Hmax Hby Hfree Hk.
  pose proof (metas_size x) as Hms. pose proof (nblks_chunk (f_off fx) n1 ltac:(lia) ltac:(lia)) as Hnb.
  assert (0 ≤ spare x ≤ 1) as Hsp by (unfold spare; case_bool_decide; lia).
  unfold fbegin_op. eapply runs_bind, runs_bind, runs_on_fs, runs_mono; [by apply (begin_op_ok v (fsys s) V (metas x)); [done|lia]|].
  intros b s1 (-> & T1 & C1 & Sb1 & Ic1). apply runs_ret. eapply runs_bind, get_file_ok; [exact Hf|].
  set (ip := f_ip fx) in *. set (xl := set_ilock true x). assert (icache s1 !! ip = Some x) as Hic1 by (by rewrite Ic1). pose proof (lookup_lt_Some _ _ _ Hic) as Hlt.
  eapply runs_bind, runs_on_fs. eexists tt, _. split; [by apply ilock_valid|]. cbn [fsys ftable pipes]. rewrite Ic1, Sb1, Hsb.
  set (s2 := mkfs (fl s1) v (<[ip := xl]> (icache (fsys s)))). assert (txn s2 V (metas x) ∅) as T2 by (by apply (txn_frame s1)).
  assert (icache s2 !! ip = Some xl) as Hic2 by (by apply list_lookup_insert_eq).
  assert (file_ok v xl V) as Hxl by (by eapply file_ok_ext; [..|exact Hx]).
  eapply runs_bind, runs_on_fs. destruct (writei_ok v Hv devwrite ip addr (f_off fx) n1 s2 xl V (metas x)) as (r & s3 & Hr & -> & x' & V' & F' & Hw); try done.
  { by apply lock_dinode. } { lia. } { unfold metas. set_solver. } { unfold metas. set_solver. } { intros Hi. change (ind x ≠ 0) in Hi. change (ind x ∈ metas x). unfold metas. rewrite decide_False by done. set_solver. }
  { change (spare xl) with (spare x). lia. }
  pose proof (writei_keeps devwrite ip addr (f_off fx) n1 s2 xl n1 s3 Hic2 Hty Hr) as Hkeep.
  exists n1, s3. split; [exact Hr|]. pose proof (wn_same _ _ _ _ _ _ _ _ _ _ _ _ _ Hw) as (_ & _ & _ & Wk & Wr & _).
  pose proof (wn_icache _ _ _ _ _ _ _ _ _ _ _ _ _ Hw) as W3. pose proof (wn_sb _ _ _ _ _ _ _ _ _ _ _ _ _ Hw) as W2.
  destruct (written_off_log _ _ _ _ _ _ _ _ _ _ _ HV Hxl Hin Hw) as [HF' Ehead].
  assert (s32 n1 = n1) as E32 by (apply s32_small; change maxwrite with 1536 in Hn1; lia).
  assert (u32 (f_off fx + n1) = f_off fx + n1) as Eu by (apply u32_small; unfold MAXFILE, NINDIRECT, NDIRECT, BSIZE in Hmax; lia).
  rewrite E32, bool_decide_eq_true_2, Eu by lia. eapply runs_bind, put_file_ok. cbn [fsys ftable pipes].
  assert (icache s3 !! ip = Some x') as Hic3 by (rewrite W3; apply list_lookup_insert_eq; by eapply lookup_lt_Some).
  eapply runs_bind, runs_on_fs. eexists tt, _. split; [apply iunlock_ok; [exact Hic3|rewrite Wr; exact Hrf|by rewrite Wk]|]. cbn [fsys ftable pipes].
  rewrite W3, W2. cbn [icache s2]. rewrite !list_insert_insert_eq. set (x3 := set_ilock false x').
  set (s4 := mkfs (fl s3) v _).
  eapply runs_bind, runs_on_fs, runs_mono.
  { apply (end_op_ok v Hv Hlog s4 V' F'); [apply (txn_frame s3); [done|apply (wn_txn _ _ _ _ _ _ _ _ _ _ _ _ _ Hw)]| |apply (wn_fs _ _ _ _ _ _ _ _ _ _ _ _ _ Hw)| |done].
    - unfold configured. cbn [fl s4]. rewrite Hkeep. exact C1.
    - rewrite Ehead. apply Hidle. }
  intros [] s5 (V5 & Id5 & Vol5 & Ag & Sb5 & Ic5). cbn [fsys ftable pipes]. apply (Hk _ x3 V5).
  - eapply turn_moved; [done|lia|exact Hw|done..].
  - rewrite (agree_free v Hv Hlog V' V5 Ag). apply (wn_free _ _ _ _ _ _ _ _ _ _ _ _ _ Hw).
Qed.

Lemma moved_nil s f fx x V : opened s f fx x V → moved s f fx x V [] s x V.
Proof using.
  intros Ho. pose proof Ho as [_ _ _ [Hf _] Hic _ _ _ _ _ Hoff].
  assert (set_foff (f_off fx + Z.of_nat (length (@nil Z))) fx = fx) as E by (destruct fx; unfold set_foff; simpl; by rewrite Z.add_0_r).
  split; rewrite ?E; try done; simpl.
  - by rewrite splice_nil.
  - lia.
  - by rewrite list_insert_id.
  - by rewrite list_insert_id.
Qed.
Lemma moved_app s f fx x V bs1 s1 x1 V1 bs2 s2 x2 V2 : 0 ≤ f_off fx ≤ isize x → 0 ≤ isize x →
  moved s f fx x V bs1 s1 x1 V1 → moved s1 f (set_foff (f_off fx + Z.of_nat (length bs1)) fx) x1 V1 bs2 s2 x2 V2 →
  moved s f fx x V (bs1 ++ bs2) s2 x2 V2.
Proof using.
  intros Hoff Hsz [A1 A2 A3 A4 A5 A6 A7] [B1 B2 B3 B4 B5 B6 B7]. cbn [f_off f_ip set_foff] in *.
  assert (f_off fx + Z.of_nat (length (bs1 ++ bs2)) = f_off fx + Z.of_nat (length bs1) + Z.of_nat (length bs2)) as E by (rewrite length_app; lia).
  split; rewrite ?E; try done.
  - rewrite B2, A2, <- splice_on by (rewrite length_content; lia). f_equal. lia.
  - rewrite B3, A3. lia.
  - naive_solver congruence.
  - by rewrite B5, A5, list_insert_insert_eq.
  - by rewrite B6, A6, list_insert_insert_eq.
  - congruence.
Qed.
End chunk.
End files.
