(* ===== verification/FileClaims.v ===== *)
(** * The file table: what the operations do *)
From stdpp Require Import base numbers list gmap sets strings.
From S2P Require Import Prelude Bytes XString Bio Log LogFacts LogClaims Fs Pipe File FsFacts FsBlocks FsInode FsIO FsDinode FsUpdate FsTxn FsClaims FileFacts.
#[local] Open Scope Z_scope.

Section write.
Context (v : superblock) (Hv : sb_ok v) (Hlog : log_ok v).
Context (devwrite : Z → option (nat → list Z → Z → M fstate Z)).

Lemma filewrite_loop_ok f addr n fuel : n ≤ Z.of_nat (length addr) → Forall byte_ok addr → ∀ s fx x V i,
  opened v s f fx x V → 0 ≤ i ≤ n → f_off fx + (n - i) ≤ MAXFILE * Z.of_nat BSIZE →
  nblks (f_off fx) (n - i) + (n - i) / maxwrite + spare x ≤ nfree v V → (n - i + maxwrite - 1) / maxwrite < Z.of_nat fuel →
  runs (filewrite_loop true devwrite fuel f addr i n) s (λ r s', r = n ∧ ∃ x' V', moved v s f fx x V (slice addr (Z.to_nat i) (Z.to_nat (n - i))) s' x' V').
Proof using Hv Hlog.
  intros Hn Hby. induction fuel as [|fuel IH]; intros s fx x V i Ho Hi Hmax Hfree Hf.
  { change maxwrite with 1536 in Hf. pose proof (Z.div_pos (n - i + 1536 - 1) 1536 ltac:(lia) ltac:(lia)). lia. }
  cbn [filewrite_loop]. case_bool_decide as Hlt.
  2:{ apply runs_ret. split; [lia|]. exists x, V. replace (n - i) with 0 by lia. by apply moved_nil. }
  cbv zeta. set (n1 := if bool_decide _ then _ else _). change maxwrite with 1536 in *.
  assert (0 < n1 ≤ 1536 ∧ n1 ≤ n - i ∧ (n1 = 1536 ∨ n1 = n - i)) as (H1 & H2 & H3) by (unfold n1; case_bool_decide; lia). clearbody n1.
  pose proof (op_off _ _ _ _ _ _ Ho) as Hoff. pose proof (nblks_mono (f_off fx) n1 (n - i) ltac:(lia) ltac:(lia)) as Hmono.
  pose proof (Z.div_pos (n - i) 1536 ltac:(lia) ltac:(lia)) as Hdiv. pose proof (fo_size _ _ _ (op_ok _ _ _ _ _ _ Ho)) as Hsize.
  pose (k := λ r : Z, if bool_decide (r < 0) then mret i else if bool_decide (r ≠ n1) then panic "short filewrite"
          else filewrite_loop true devwrite fuel f addr (i + r) n).
  eapply (turn_ok v Hv Hlog devwrite s f fx x V (drop (Z.to_nat i) addr) n1 k); try done.
  { rewrite length_drop. lia. } { lia. } { by apply Forall_drop. } { lia. }
  intros s1 x1 V1 Hm Hnf. set (bs := take (Z.to_nat n1) (drop (Z.to_nat i) addr)) in *.
  assert (Z.of_nat (length bs) = n1) as Hlen by (unfold bs; rewrite length_take, length_drop; lia).
  unfold k. rewrite bool_decide_eq_false_2 by lia. rewrite bool_decide_eq_false_2 by lia. pose proof (mv_open _ _ _ _ _ _ _ _ _ _ Hm) as Ho1. rewrite Hlen in Ho1.
  eapply runs_mono; [apply (IH s1 _ x1 V1 (i + n1) Ho1); cbn [f_off set_foff]; [lia|lia| |]|].
  - replace (n - (i + n1)) with (n - i - n1) by lia. destruct (decide (n1 = n - i)) as [->|Hne].
    + rewrite Z.sub_diag. unfold nblks at 1. rewrite bool_decide_eq_true_2 by lia. change (0 / 1536) with 0. pose proof (nblks_nonneg (f_off fx) (n - i) ltac:(lia)). lia.
    + assert (n1 = 1536) as E by lia. pose proof (nblks_split (f_off fx) n1 (n - i) ltac:(lia) ltac:(lia)).
      rewrite E in *. assert ((n - i - 1536) / 1536 = (n - i) / 1536 - 1) as -> by dlia. lia.
  - replace (n - (i + n1) + 1536 - 1) with (n - i - n1 + 1535) by lia. replace (n - i + 1536 - 1) with (n - i + 1535) in Hf by lia.
    clear - H1 H2 H3 Hf. dlia.
  - intros r s2 (-> & x2 & V2 & Hm2). split; [done|]. exists x2, V2. replace (Z.to_nat (n - i)) with (Z.to_nat n1 + Z.to_nat (n - (i + n1)))%nat by lia.
    rewrite slice_split by lia. replace (Z.to_nat i + Z.to_nat n1)%nat with (Z.to_nat (i + n1)) by lia.
    eapply (moved_app v s f fx x V bs s1 x1 V1); [lia|lia|exact Hm|]. by rewrite Hlen.
Qed.

(** The blocks of the disk. *)
Definition dview (s : ustate) : gmap Z (list Z) := disk_view (disk (bc (fl (fsys s)))).

(** C23: [filewrite] to a file is complete and durable.  When no transaction is open,
    the file's inode is loaded, the bytes fit into a file of [MAXFILE] blocks and
    enough blocks are free, [filewrite] writes all [n] bytes, in transactions that
    the log can hold, advances the offset by [n] and returns [n]; afterwards no
    transaction is open and everything is in place on the disk itself: the file read
    from the disk's blocks is the old one with the bytes at the old offset, the
    inode on the disk is the one in memory, and the blocks of the file are its own. *)
Theorem filewrite_durable f fx x addr n killed s : opened v s f fx x (dview s) → f_writable fx = true →
  0 ≤ n ≤ Z.of_nat (length addr) → f_off fx + n ≤ MAXFILE * Z.of_nat BSIZE → Forall byte_ok addr →
  nblks (f_off fx) n + n / maxwrite + spare x ≤ nfree v (dview s) →
  ∃ s' x', filewrite true devwrite f addr n killed s = Ok (IORet n [], s') ∧
    moved v s f fx x (dview s) (take (Z.to_nat n) addr) s' x' (dview s').
Proof using Hv Hlog.
  intros Ho Hw Hn Hmax Hby Hfree. pose proof (op_file _ _ _ _ _ _ Ho) as [Hf Ht].
  destruct (filewrite_loop_ok f addr n (S (Z.to_nat (n / maxwrite + 1))) ltac:(lia) Hby s fx x (dview s) 0 Ho) as (r & s' & Hr & -> & x' & V' & Hm).
  - lia.
  - by rewrite Z.sub_0_r.
  - by rewrite Z.sub_0_r.
  - rewrite Z.sub_0_r. change maxwrite with 1536. clear - Hn. dlia.
  - rewrite Z.sub_0_r in Hm. change (slice addr (Z.to_nat 0) (Z.to_nat n)) with (take (Z.to_nat n) addr) in Hm.
    pose proof (mv_open _ _ _ _ _ _ _ _ _ _ Hm) as Ho'.
    rewrite (at_rest_view v (fsys s') V' (op_idle _ _ _ _ _ _ Ho') (fs_vol _ _ (op_fs _ _ _ _ _ _ Ho'))) in Hm.
    exists s', x'. split; [|exact Hm]. unfold filewrite. rewrite (bind_ok _ _ s fx s) by (unfold get_file; by rewrite Hf).
    rewrite Hw, Ht. cbn [negb]. rewrite (bind_ok _ _ _ _ _ Hr). by rewrite bool_decide_eq_true_2.
Qed.
End write.

Module FileEx.
Import Vol.
Definition open0 : file := mkfile FD_INODE 1 true true 0 0 0.
Definition rest0 : ustate :=
  mkus (mkfs (mkls (binit (replicate NBUF zero_buf) disk0) (mklog 2 30 0 false ROOTDEV 0 (replicate 30 0))) sbv (icache start0)) [open0] ∅.
Lemma log0_ok : log_ok sbv.
Proof. split; [done|]. split; [done|]. simpl. lia. Qed.
Lemma rest_idle : idle sbv (fsys rest0) V0.
Proof.
  split.
  - apply binit_inv.
  - done.
  - by split.
  - exists zeros. split; [|exact LogEx.header_zeros]. apply (V0_lookup 2). split; [done|]. unfold FSSIZE. lia.
Qed.
Lemma dview0 : dview rest0 = V0.
Proof. unfold dview, rest0, V0. cbn [fsys fl bc]. unfold binit. cbn [disk]. reflexivity. Qed.
Lemma rest_open : opened sbv rest0 0 open0 root V0.
Proof.
  split.
  - exact rest_idle.
  - reflexivity.
  - exact V0_ok.
  - split; reflexivity.
  - reflexivity.
  - split; [reflexivity|]. split; [reflexivity|]. simpl. lia.
  - discriminate.
  - exact root_ok.
  - split; [exact root_dinode|]. simpl. lia.
  - exact root_synced.
  - simpl. lia.
Qed.
End FileEx.
Lemma filewrite_durable_witness : ∃ s' x', filewrite true VolEx.no_write 0 VolEx.abc 3 false FileEx.rest0 = Ok (IORet 3 [], s') ∧
  content x' (dview s') = VolEx.abc.
Proof.
  destruct (VolEx.space0 3 ltac:(lia)) as [_ Hf]. pose proof FileEx.rest_open as Ho. rewrite <- FileEx.dview0 in Ho, Hf.
  destruct (filewrite_durable Vol.sbv Vol.sbv_ok FileEx.log0_ok VolEx.no_write 0 FileEx.open0 Vol.root VolEx.abc 3 false FileEx.rest0
    Ho eq_refl ltac:(simpl; lia) ltac:(unfold MAXFILE, NINDIRECT, NDIRECT, BSIZE; simpl; lia) VolEx.abc_bytes) as (s' & x' & Hr & Hm).
  - change (3 / maxwrite) with 0. change (f_off FileEx.open0) with 0. rewrite Z.add_0_r. exact Hf.
  - exists s', x'. split; [exact Hr|]. rewrite (mv_content _ _ _ _ _ _ _ _ _ _ Hm). reflexivity.
Defined.
