(* ===== verification/Exec.v ===== *)
(** * xv6 exec

    Models [src/lab3/xv6-public/exec.c] (the same file is in lab4) with
    [loaduvm] of [vm.c], over the file system ([Fs]), the physical memory with its
    page tables ([Kalloc], [Vm]) and the entry of the calling process ([Proc]).
    [path] and the strings of [argv] are the bytes before their NULs; they lie in
    the old address space, which [exec] does not touch before it commits.  A
    [goto bad] in a loop is the result [None] of the loop.  Of [switchuvm] the
    checks are modelled; the message of a failed lookup is not. *)
From stdpp Require Import base numbers list gmap strings.
From S2P Require Import Prelude Bytes XString Kalloc Vm Bio Log Fs Proc.
#[local] Open Scope Z_scope.

(** ** Constants (elf.h, param.h) *)
Definition ELF_MAGIC : Z := 1179403647.       (* 0x464C457F *)
Definition ELF_PROG_LOAD : Z := 1.
Definition elfhdr_size : Z := 52.
Definition proghdr_size : Z := 32.
Definition EXEC_MAXARG : nat := 32.

(** [struct elfhdr] and [struct proghdr], the fields that [exec] uses. *)
Record elfhdr : Type := mkelf { magic : Z; entry : Z; phoff : Z; phnum : Z }.
Record proghdr : Type := mkph { ph_type : Z; ph_off : Z; ph_vaddr : Z; ph_filesz : Z; ph_memsz : Z }.
Definition load_elfhdr (b : list Z) : res elfhdr :=
  m ← load 4 b 0; e ← load 4 b 24; o ← load 4 b 28; n ← load 2 b 44; mret (mkelf m e o n).
Definition load_proghdr (b : list Z) : res proghdr :=
  t ← load 4 b 0; o ← load 4 b 4; v ← load 4 b 8; f ← load 4 b 16; m ← load 4 b 20; mret (mkph t o v f m).

(** ** State *)
Record xstate : Type := mkxs { xfs : fstate; xmem : kmem; xproc : proc }.
Definition on_fsys {A} (m : M fstate A) : M xstate A := λ s,
  match m (xfs s) with Ok (a, t) => Ok (a, mkxs t (xmem s) (xproc s)) | Fault e => Fault e end.
Definition on_mem {A} (m : M kmem A) : M xstate A := λ s,
  match m (xmem s) with Ok (a, t) => Ok (a, mkxs (xfs s) t (xproc s)) | Fault e => Fault e end.
Definition upd_cur (f : proc → proc) : M xstate unit := modify (λ s, mkxs (xfs s) (xmem s) (f (xproc s))).

(** ** The user stack *)
Section stack.
(** [end] comes from the linker. *)
Context (kend : Z).

(** [for(argc = 0; argv[argc]; argc++)]: the stack pointer and [ustack + 3]. *)
Fixpoint push_args (argv : list (list Z)) (pgdir : Z) (argc : nat) (sp : Z) (ustack : list Z) : M kmem (option (Z * list Z)) :=
  match argv with
  | [] => mret (Some (sp, ustack))
  | arg :: argv =>
    if bool_decide (EXEC_MAXARG ≤ argc)%nat then mret None
    else
      let sp := Z.land (u32 (sp - (Z.of_nat (length arg) + 1))) (u32 (Z.lnot 3)) in
      r ← copyout pgdir sp (arg ++ [0]);
      if bool_decide (r < 0) then mret None
      else push_args argv pgdir (S argc) sp (ustack ++ [sp])
  end.

Definition words_bytes (ws : list Z) : list Z := concat (map (le_bytes 4) ws).

(** The strings, then [ustack]: [sz] and [sp]. *)
Definition push_frame (argv : list (list Z)) (pgdir sz : Z) : M kmem (option (Z * Z)) :=
  r ← push_args argv pgdir 0 sz [];
  match r with
  | None => mret None
  | Some (sp, ptrs) =>
    let argc := Z.of_nat (length ptrs) in
    let ustack := [4294967295; argc; u32 (sp - (argc + 1) * 4)] ++ ptrs ++ [0] in
    let sp := u32 (sp - (3 + argc + 1) * 4) in
    r ← copyout pgdir sp (words_bytes ustack);
    if bool_decide (r < 0) then mret None else mret (Some (sz, sp))
  end.
(** From [sz = PGROUNDUP(sz)] to the copy of [ustack]. *)
Definition build_stack (argv : list (list Z)) (pgdir sz : Z) : M kmem (option (Z * Z)) :=
  let sz := PGROUNDUP sz in
  sz ← allocuvm kend pgdir sz (u32 (sz + 2 * PGSIZE));
  if bool_decide (sz = 0) then mret None
  else clearpteu pgdir (u32 (sz - 2 * PGSIZE));; push_frame argv pgdir sz.
End stack.

(** ** The program *)
Section exec.
Context (kend kdata : Z) (havedisk1 : bool).
Context (devread : Z → option (nat → Z → M fstate (Z * list Z))).

Definition xreadi (ip : nat) (off n : Z) : M xstate (Z * list Z) := on_fsys (readi havedisk1 devread ip off n).

(** [for(i = 0; i < sz; i += PGSIZE)]; [readi] writes into the page. *)
Fixpoint loaduvm_loop (fuel : nat) (pgdir addr : Z) (ip : nat) (offset sz i : Z) : M xstate Z :=
  match fuel with
  | O => fail OutOfFuel
  | S fuel =>
    if bool_decide (i < sz) then
      pte ← on_mem (walkpgdir pgdir (u32 (addr + i)) false);
      match pte with
      | None => panic "loaduvm: address should exist"
      | Some (t, j) =>
        v ← on_mem (read_word t j);
        let pa := PTE_ADDR v in
        let n := if bool_decide (u32 (sz - i) < PGSIZE) then u32 (sz - i) else PGSIZE in
        '(r, bytes) ← xreadi ip (u32 (offset + i)) n;
        page ← on_mem (get_page (P2V pa));
        page ← lift (store_bytes page 0 bytes);
        on_mem (put_page (P2V pa) page);;
        if bool_decide (r ≠ n) then mret (-1)
        else loaduvm_loop fuel pgdir addr ip offset sz (u32 (i + PGSIZE))
      end
    else mret 0
  end.
Definition loaduvm (pgdir addr : Z) (ip : nat) (offset sz : Z) : M xstate Z :=
  if bool_decide (addr `mod` PGSIZE ≠ 0) then panic "loaduvm: addr must be page aligned"
  else loaduvm_loop (S (S (Z.to_nat (sz / PGSIZE)))) pgdir addr ip offset sz 0.

(** The body of the loop for a segment to load: the new size. *)
Definition load_segment (ph : proghdr) (pgdir : Z) (ip : nat) (sz : Z) : M xstate (option Z) :=
  if bool_decide (ph_memsz ph < ph_filesz ph) then mret None
  else if bool_decide (u32 (ph_vaddr ph + ph_memsz ph) < ph_vaddr ph) then mret None
  else
    sz ← on_mem (allocuvm kend pgdir sz (u32 (ph_vaddr ph + ph_memsz ph)));
    if bool_decide (sz = 0) then mret None
    else if bool_decide (ph_vaddr ph `mod` PGSIZE ≠ 0) then mret None
    else
      r ← loaduvm pgdir (ph_vaddr ph) ip (ph_off ph) (ph_filesz ph);
      if bool_decide (r < 0) then mret None else mret (Some sz).
(** [for(i=0, off=elf.phoff; i<elf.phnum; i++, off+=sizeof(ph))], [n] turns
    left: the new size. *)
Fixpoint load_segments (n : nat) (pgdir : Z) (ip : nat) (off sz : Z) : M xstate (option Z) :=
  match n with
  | O => mret (Some sz)
  | S n =>
    '(r, b) ← xreadi ip (u32 off) proghdr_size;
    if bool_decide (r ≠ proghdr_size) then mret None
    else
      ph ← lift (load_proghdr b);
      if bool_decide (ph_type ph ≠ ELF_PROG_LOAD) then load_segments n pgdir ip (off + proghdr_size) sz
      else
        r ← load_segment ph pgdir ip sz;
        match r with None => mret None | Some sz => load_segments n pgdir ip (off + proghdr_size) sz end
  end.

(** [bad:], with [pgdir] 0 or [ip] absent where the code has null. *)
Definition xbegin_op : M xstate unit := b ← on_fsys (on_log begin_op); if (b : bool) then mret tt else fail OutOfFuel.
Definition xend_op : M xstate unit := on_fsys (on_log (end_op havedisk1)).
Definition exec_bad (pgdir : Z) (ip : option nat) : M xstate Z :=
  (if bool_decide (pgdir ≠ 0) then on_mem (freevm kend pgdir) else mret tt);;
  (match ip with Some ip => on_fsys (iunlockput havedisk1 ip);; xend_op | None => mret tt end);;
  mret (-1).

(** The loop that leaves [last] behind the last slash of [path]. *)
Fixpoint last_elem (s last : list Z) : list Z :=
  match s with
  | [] => last
  | c :: s => last_elem s (if bool_decide (c = slash) then s else last)
  end.
(** [safestrcpy(curproc->name, last, sizeof(curproc->name))]; the 16 bytes of
    [name] lie before those of [last]. *)
Definition exec_name (path : list Z) : res string :=
  let last := last_elem path path in
  m ← safestrcpy (replicate 16 0 ++ last ++ [0]) 0 16 16;
  n ← cstring m;
  mret (String.string_of_list_ascii (map (λ c, Ascii.ascii_of_N (Z.to_N c)) n)).

(** The commit; [tf->eip] and [tf->esp] are words 14 and 17 of the frame. *)
Definition exec_commit (path : list Z) (pgdir sz entry sp : Z) : M xstate Z :=
  nm ← lift (exec_name path);
  c ← gets xproc;
  let oldpgdir := Proc.pgdir c in
  upd_cur (λ p, mkproc sz pgdir (kstack p) (state p) (pid p) (parent p) (<[17%nat := sp]> (<[14%nat := entry]> (tf p)))
    (chan p) (killed p) (ofile p) (cwd p) nm (priority p));;
  c ← gets xproc;
  (if bool_decide (kstack c = 0) then panic "switchuvm: no kstack"
   else if bool_decide (Proc.pgdir c = 0) then panic "switchuvm: no pgdir"
   else mret tt);;
  on_mem (freevm kend oldpgdir);;
  mret 0.

(** From the check of the ELF header on, with the program's inode locked. *)
Definition exec_file (path : list Z) (argv : list (list Z)) (ip : nat) : M xstate Z :=
  '(r, b) ← xreadi ip 0 elfhdr_size;
  if bool_decide (r ≠ elfhdr_size) then exec_bad 0 (Some ip)
  else
    elf ← lift (load_elfhdr b);
    if bool_decide (magic elf ≠ ELF_MAGIC) then exec_bad 0 (Some ip)
    else
      pgdir ← on_mem (setupkvm kend kdata);
      if bool_decide (pgdir = 0) then exec_bad 0 (Some ip)
      else
        r ← load_segments (Z.to_nat (phnum elf)) pgdir ip (phoff elf) 0;
        match r with
        | None => exec_bad pgdir (Some ip)
        | Some sz =>
          on_fsys (iunlockput havedisk1 ip);;
          xend_op;;
          r ← on_mem (build_stack kend argv pgdir sz);
          match r with
          | None => exec_bad pgdir None
          | Some (sz, sp) => exec_commit path pgdir sz (entry elf) sp
          end
        end.

(** [junk] is what [namei]'s name buffer holds before the call. *)
Definition exec (path : list Z) (argv : list (list Z)) (junk : list Z) : M xstate Z :=
  xbegin_op;;
  c ← gets xproc;
  ip ← on_fsys (namei havedisk1 devread (Z.to_nat (cwd c)) path junk);
  match ip with
  | None => xend_op;; mret (-1)
  | Some ip => on_fsys (ilock havedisk1 (Some ip));; exec_file path argv ip
  end.
End exec.
