(* ===== verification/ExecStack.v ===== *)
(** * What exec puts on the new stack

    The stack page that [exec] builds, seen through the page tables the way the
    program will: [main_argv] reads [argc] and [argv] as the C library's caller of
    [main] does. *)
From stdpp Require Import base numbers list gmap strings.
From S2P Require Import Prelude Bytes Kalloc Vm VmFacts VmClaims VmSpace Exec.
#[local] Open Scope Z_scope.

(** ** The memory of a program *)

(** The kernel's address of the page a user access to [va] reaches. *)
Definition user_frame (pg : gmap Z (list Z)) (pgdir va : Z) : option Z :=
  let pte := pte_at pg pgdir va in
  if present pte && negb (bool_decide (Z.land pte PTE_U = 0)) then Some (P2V (PTE_ADDR pte)) else None.
Definition user_byte (pg : gmap Z (list Z)) (pgdir va : Z) : option Z :=
  f ← user_frame pg pgdir va; b ← pg !! f; b !! Z.to_nat (va `mod` PGSIZE).
Definition user_bytes (pg : gmap Z (list Z)) (pgdir va : Z) (n : nat) : option (list Z) :=
  mapM (λ i, user_byte pg pgdir (va + Z.of_nat i)) (seq 0 n).
Definition user_word (pg : gmap Z (list Z)) (pgdir va : Z) : option Z := le_val <$> user_bytes pg pgdir va 4.
(** The string at [va], of less than [n] bytes. *)
Fixpoint user_string (n : nat) (pg : gmap Z (list Z)) (pgdir va : Z) : option (list Z) :=
  match n with
  | O => None
  | S n => c ← user_byte pg pgdir va; if bool_decide (c = 0) then Some [] else (c ::.) <$> user_string n pg pgdir (va + 1)
  end.
(** [argv[0]] to [argv[argc-1]], with the null pointer after them, for a program
    that starts with the stack pointer [esp]. *)
Definition main_argv (pg : gmap Z (list Z)) (pgdir esp : Z) : option (list (list Z)) :=
  argc ← user_word pg pgdir (esp + 4);
  argv ← user_word pg pgdir (esp + 8);
  null ← user_word pg pgdir (argv + 4 * argc);
  if bool_decide (null ≠ 0) then None
  else mapM (λ i, p ← user_word pg pgdir (argv + 4 * Z.of_nat i); user_string 4096 pg pgdir p) (seq 0 (Z.to_nat argc)).

(** ** Where things go *)
Definition arg_sp (sp : Z) (arg : list Z) : Z := 4 * ((sp - (Z.of_nat (length arg) + 1)) / 4).
Definition args_sp (sp : Z) (argv : list (list Z)) : Z := foldl arg_sp sp argv.

Lemma clear_low2 x : 0 ≤ x < 2^32 → Z.land x (u32 (Z.lnot 3)) = 4 * (x / 4).
Proof.
  intros Hx. change (u32 (Z.lnot 3)) with (Z.ldiff (Z.ones 32) (Z.ones 2)).
  rewrite Z.ldiff_land, Z.land_assoc, Z.land_ones by lia. rewrite Z.mod_small by lia.
  rewrite <- Z.ldiff_land, Z.ldiff_ones_r by lia.
  rewrite Z.shiftl_mul_pow2, Z.shiftr_div_pow2 by lia. change (2^2) with 4. lia.
Qed.
Lemma arg_sp_range sp arg : arg_sp sp arg + Z.of_nat (length arg) + 1 ≤ sp ∧ sp - 4 ≤ arg_sp sp arg + Z.of_nat (length arg).
Proof. unfold arg_sp. split; dlia. Qed.
Lemma args_sp_le sp argv : args_sp sp argv ≤ sp.
Proof.
  revert sp. induction argv as [|arg argv IH]; intros sp; [done|]. change (args_sp sp (arg :: argv)) with (args_sp (arg_sp sp arg) argv).
  pose proof (IH (arg_sp sp arg)). pose proof (arg_sp_range sp arg). lia.
Qed.

Lemma args_sp_aligned sp argv : sp `mod` 4 = 0 → args_sp sp argv `mod` 4 = 0.
Proof.
  revert sp. induction argv as [|arg argv IH]; intros sp H; [done|]. apply (IH (arg_sp sp arg)).
  unfold arg_sp. rewrite Z.mul_comm. apply Z.mod_mul. lia.
Qed.

(** ** Copying into a page of the user *)
Section stack.
Context (kend : Z).

Lemma walk_mapped s fl pgdir va : pt_wf kend s fl pgdir → 0 ≤ va → present (pte_at (pages s) pgdir va) = true →
  present (pde_at (pages s) pgdir (PDX va)) = true.
Proof. intros _ _. unfold pte_at. by destruct (present (pde_at _ _ _)). Qed.

Lemma uva2ka_run s fl pgdir va : pt_wf kend s fl pgdir → 0 ≤ va < 2^32 → present (pte_at (pages s) pgdir va) = true →
  uva2ka pgdir va s = Ok (default 0 (user_frame (pages s) pgdir va), s).
Proof.
  intros Hwf Hva Hp. pose proof (walk_mapped s fl pgdir va Hwf ltac:(lia) Hp) as Hd.
  unfold uva2ka. rewrite (bind_ok _ _ _ _ _ (walk_present kend s fl pgdir va false Hwf ltac:(lia) Hd)). cbv beta iota.
  destruct (pte_write kend s fl pgdir va 0 Hwf Hva ltac:(lia) Hd) as (b & Hb & Hg & Hw & _).
  erewrite bind_ok by (eapply read_word_run; [exact Hb|done|apply PTX_range; lia]). cbv beta.
  rewrite Hw. unfold user_frame. rewrite Hp. cbn [negb andb]. by destruct (bool_decide (Z.land _ _ = 0)).
Qed.

(** The page at [base] of the address space is the page [mem], which holds [b]. *)
Record stack_page (s : kmem) (fl : list Z) (pgdir base mem : Z) (b : list Z) : Prop := {
  sp_wf : pt_wf kend s fl pgdir;
  sp_base : 0 ≤ base ∧ base + PGSIZE < 2^32 ∧ base `mod` PGSIZE = 0;
  sp_pte : ∀ va, base ≤ va < base + PGSIZE → pte_at (pages s) pgdir va = V2P mem + 7;
  sp_ok : page_ok kend mem;
  sp_mem : pages s !! mem = Some b;
  sp_good : page_good b;
  sp_free : mem ∉ fl;
  sp_foreign : ¬ owns (pages s) pgdir mem }.

Lemma user_pte_frame pg pgdir va mem : page_ok kend mem → pte_at pg pgdir va = V2P mem + 7 → user_frame pg pgdir va = Some mem.
Proof.
  intros Hok E. unfold user_frame. rewrite E. destruct (pde_for_val kend mem Hok) as (Ev & _ & Hp & Hb).
  rewrite <- Ev, Hp, Hb. rewrite bool_decide_eq_false_2; [done|]. unfold pde_for.
  rewrite Z.land_lor_distr_l. intros [_ H]%Z.lor_eq_0_iff. by vm_compute in H.
Qed.
Lemma stack_frame s fl pgdir base mem b va : stack_page s fl pgdir base mem b → base ≤ va < base + PGSIZE →
  user_frame (pages s) pgdir va = Some mem.
Proof. intros H Hva. apply user_pte_frame; [apply H|]. by apply (sp_pte _ _ _ _ _ _ H). Qed.

Lemma stack_set s fl pgdir base mem b b' : stack_page s fl pgdir base mem b → page_good b' →
  stack_page (set_page mem b' s) fl pgdir base mem b'.
Proof.
  intros [Hwf Hb Hp Hok Hm Hg Hf Ho] Hg'. destruct (pt_set_foreign kend s fl pgdir mem b' Hwf Hg' Hf Ho) as [Hwf' Hpte].
  split; try done; cbn [pages set_page].
  - intros va Hva. rewrite Hpte by lia. by apply Hp.
  - apply lookup_insert_eq.
  - intros H. apply owns_set_table in H; [done|]. intros ->. apply Ho. by left.
Qed.

Lemma copyout_page s fl pgdir base mem b va buf : stack_page s fl pgdir base mem b → base ≤ va →
  va + Z.of_nat (length buf) ≤ base + PGSIZE → (0 < length buf)%nat →
  copyout pgdir va buf s = Ok (0, set_page mem (splice b (Z.to_nat (va - base)) buf) s).
Proof.
  intros H Hva Hend Hlen. destruct (sp_base _ _ _ _ _ _ H) as (Hb0 & Hb1 & Hbm).
  assert (PGROUNDDOWN va = base) as E.
  { rewrite PGROUNDDOWN_val by (unfold PGSIZE in *; lia). unfold PGSIZE in *. dlia. }
  unfold copyout. remember (S (S (length buf / 4096))) as k eqn:Ek. cbn [copyout_loop]. rewrite bool_decide_eq_true_2 by lia. rewrite E.
  assert (base ≤ base < base + PGSIZE) as Hbase by (unfold PGSIZE; lia).
  pose proof (stack_frame s fl pgdir base mem b base H Hbase) as Hfr.
  pose proof (page_ok_range kend mem (sp_ok _ _ _ _ _ _ H)) as Hmr.
  erewrite bind_ok; [|apply (uva2ka_run s fl); [apply H|lia|]].
  2:{ rewrite (sp_pte _ _ _ _ _ _ H) by done. destruct (pde_for_val kend mem (sp_ok _ _ _ _ _ _ H)) as (Ev & _ & Hp & _). by rewrite <- Ev. }
  cbv beta. rewrite Hfr. change (default 0 (Some mem)) with mem. rewrite bool_decide_eq_false_2 by lia.
  replace (Z.min (PGSIZE - (va - base)) (Z.of_nat (length buf))) with (Z.of_nat (length buf)) by lia. rewrite Nat2Z.id.
  erewrite bind_ok; [|unfold get_page; by rewrite (sp_mem _ _ _ _ _ _ H)]. cbv beta.
  erewrite bind_ok by (eapply put_page_run, (sp_mem _ _ _ _ _ _ H)). cbv beta.
  rewrite drop_all, take_ge by lia. subst k. cbn [copyout_loop]. by rewrite bool_decide_eq_false_2 by (simpl; lia).
Qed.

(** Nothing is copied to a page that is not the user's. *)
Lemma copyout_guard s fl pgdir va buf : pt_wf kend s fl pgdir → 0 ≤ va < 2^32 → (0 < length buf)%nat →
  present (pte_at (pages s) pgdir (PGROUNDDOWN va)) = true → user_frame (pages s) pgdir (PGROUNDDOWN va) = None →
  copyout pgdir va buf s = Ok (-1, s).
Proof.
  intros Hwf Hva Hlen Hp Hn. unfold copyout. cbn [copyout_loop]. rewrite bool_decide_eq_true_2 by lia.
  erewrite bind_ok; [|apply (uva2ka_run s fl); [done| |done]].
  2:{ rewrite PGROUNDDOWN_val by lia. unfold PGSIZE. dlia. }
  cbv beta. by rewrite Hn.
Qed.

(** ** The arguments *)

(** The page below the stack is there, and not the user's. *)
Definition guarded (s : kmem) (pgdir base : Z) : Prop :=
  PGSIZE ≤ base ∧ ∀ va, base - PGSIZE ≤ va < base →
    present (pte_at (pages s) pgdir va) = true ∧ user_frame (pages s) pgdir va = None.
Lemma guarded_set s fl pgdir base mem b b' : stack_page s fl pgdir base mem b → page_good b' → guarded s pgdir base →
  guarded (set_page mem b' s) pgdir base.
Proof.
  intros H Hg [Hle Hgu]. split; [done|]. intros va Hva.
  destruct (pt_set_foreign kend s fl pgdir mem b' (sp_wf _ _ _ _ _ _ H) Hg (sp_free _ _ _ _ _ _ H) (sp_foreign _ _ _ _ _ _ H)) as [_ Hpte].
  destruct (Hgu va Hva) as [H1 H2]. cbn [pages set_page]. unfold user_frame in *. rewrite Hpte by lia. done.
Qed.
Lemma copyout_below s fl pgdir base mem b va buf : stack_page s fl pgdir base mem b → guarded s pgdir base →
  base - PGSIZE ≤ va < base → (0 < length buf)%nat → copyout pgdir va buf s = Ok (-1, s).
Proof.
  intros H [Hle Hgu] Hva Hlen. destruct (sp_base _ _ _ _ _ _ H) as (Hb0 & Hb1 & Hbm).
  assert (base - PGSIZE ≤ PGROUNDDOWN va < base) as Hd.
  { rewrite PGROUNDDOWN_val by (unfold PGSIZE in *; lia). unfold PGSIZE in *. dlia. }
  destruct (Hgu _ Hd) as [H1 H2]. apply (copyout_guard s fl); [apply H|unfold PGSIZE in *; lia|done..].
Qed.

Lemma set_page_id s mem b : pages s !! mem = Some b → set_page mem b s = s.
Proof. intros H. unfold set_page. destruct s as [u f pg]. cbn in *. by rewrite insert_id. Qed.
Lemma set_page_twice s mem b b' : set_page mem b' (set_page mem b s) = set_page mem b' s.
Proof. unfold set_page. cbn [use_lock freelist pages]. by rewrite insert_insert_eq. Qed.

(** The string [arg] lies at [p], between [lo] and [hi]. *)
Definition placed (base : Z) (b : list Z) (lo hi p : Z) (arg : list Z) : Prop :=
  lo ≤ p ∧ p + Z.of_nat (length arg) + 1 ≤ hi ∧ slice b (Z.to_nat (p - base)) (S (length arg)) = arg ++ [0].

Lemma string_good arg : cstr_ok arg → Forall byte_ok (arg ++ [0]).
Proof.
  intros H. apply Forall_app. split; [|by repeat constructor]. eapply Forall_impl; [exact H|]. unfold byte_ok. lia.
Qed.
Lemma splice_good b off bs : page_good b → Forall byte_ok bs → (off + length bs ≤ 4096)%nat → page_good (splice b off bs).
Proof. intros [Hl Hb] Hbs Ho. split; [rewrite length_splice; lia|by apply splice_forall]. Qed.

(** One argument that fits. *)
Lemma push_one s fl pgdir base mem b sp arg : stack_page s fl pgdir base mem b → cstr_ok arg →
  sp ≤ base + PGSIZE → base ≤ arg_sp sp arg →
  let b1 := splice b (Z.to_nat (arg_sp sp arg - base)) (arg ++ [0]) in
  copyout pgdir (arg_sp sp arg) (arg ++ [0]) s = Ok (0, set_page mem b1 s) ∧ page_good b1 ∧
  placed base b1 (arg_sp sp arg) sp (arg_sp sp arg) arg ∧
  (∀ off n, sp - base ≤ Z.of_nat off → slice b1 off n = slice b off n).
Proof.
  intros H Ha Hsp Hb b1. pose proof (arg_sp_range sp arg) as [Hr _]. destruct (sp_good _ _ _ _ _ _ H) as [Hl _].
  assert (length (arg ++ [0]) = S (length arg)) as El by (rewrite length_app; simpl; lia).
  assert (Z.to_nat (arg_sp sp arg - base) + length (arg ++ [0%Z]) ≤ 4096)%nat as Hin by (unfold PGSIZE in *; lia).
  split_and!.
  - apply (copyout_page s fl pgdir base mem b); [done|lia|lia|lia].
  - apply splice_good; [apply H|by apply string_good|done].
  - split_and!; [lia|lia|]. rewrite <- El. apply slice_splice_same. lia.
  - intros off n Ho. apply slice_splice_other; [lia|]. right. lia.
Qed.

Lemma arg_sp_code sp arg : 0 ≤ sp - (Z.of_nat (length arg) + 1) → sp < 2^32 →
  Z.land (u32 (sp - (Z.of_nat (length arg) + 1))) (u32 (Z.lnot 3)) = arg_sp sp arg.
Proof. intros H0 H1. rewrite u32_small by lia. rewrite clear_low2 by lia. done. Qed.

Lemma push_args_fits argv s fl pgdir base mem b argc sp acc :
  stack_page s fl pgdir base mem b → Forall cstr_ok argv → (argc + length argv ≤ EXEC_MAXARG)%nat →
  sp ≤ base + PGSIZE → base ≤ args_sp sp argv →
  ∃ b' ptrs, push_args argv pgdir argc sp acc s = Ok (Some (args_sp sp argv, acc ++ ptrs), set_page mem b' s) ∧
    page_good b' ∧ Forall2 (placed base b' (args_sp sp argv) sp) ptrs argv ∧
    (∀ off n, sp - base ≤ Z.of_nat off → slice b' off n = slice b off n).
Proof.
  revert s b argc sp acc. induction argv as [|arg argv IH]; intros s b argc sp acc H Hall Hn Hsp Hb.
  - exists b, []. rewrite app_nil_r, (set_page_id s) by apply H. split_and!; try done. apply H.
  - apply Forall_cons in Hall as [Ha Hall]. change (args_sp sp (arg :: argv)) with (args_sp (arg_sp sp arg) argv) in *.
    pose proof (args_sp_le (arg_sp sp arg) argv) as Hle. pose proof (arg_sp_range sp arg) as [Hr _].
    destruct (sp_base _ _ _ _ _ _ H) as (Hb0 & Hb1 & Hbm).
    destruct (push_one s fl pgdir base mem b sp arg H Ha Hsp ltac:(lia)) as (Hc & Hg & Hp & Hk).
    cbn [push_args]. simpl in Hn. rewrite bool_decide_eq_false_2 by lia. rewrite arg_sp_code by lia.
    mstep Hc. rewrite bool_decide_eq_false_2 by lia.
    destruct (IH _ _ (S argc) (arg_sp sp arg) (acc ++ [arg_sp sp arg]) (stack_set s fl pgdir base mem b _ H Hg) Hall ltac:(lia) ltac:(lia) Hb)
      as (b' & ptrs & Hrun & Hg' & Hf & Hk').
    exists b', (arg_sp sp arg :: ptrs). rewrite Hrun, set_page_twice, <- app_assoc. split_and!; [done|done| |].
    + destruct Hp as (P1 & P2 & P3). constructor.
      * split_and!; [lia|done|]. rewrite Hk' by lia. done.
      * eapply Forall2_impl; [exact Hf|]. intros p x (Q1 & Q2 & Q3). split_and!; [lia|lia|done].
    + intros off n Ho. rewrite Hk' by lia. by apply Hk.
Qed.

Lemma push_args_overflow argv s fl pgdir base mem b argc sp acc :
  stack_page s fl pgdir base mem b → guarded s pgdir base → Forall (λ a, cstr_ok a ∧ Z.of_nat (length a) < PGSIZE) argv →
  base ≤ sp ≤ base + PGSIZE → sp `mod` 4 = 0 → (argc ≤ EXEC_MAXARG)%nat →
  (EXEC_MAXARG < argc + length argv)%nat ∨ args_sp sp argv < base →
  ∃ b', push_args argv pgdir argc sp acc s = Ok (None, set_page mem b' s) ∧ page_good b'.
Proof.
  revert s b argc sp acc. induction argv as [|arg argv IH]; intros s b argc sp acc H Hgu Hall Hsp Hal Hargc Hbad.
  - change (args_sp sp []) with sp in *. cbn [length] in Hbad. lia.
  - apply Forall_cons in Hall as [[Ha Hlen] Hall]. change (args_sp sp (arg :: argv)) with (args_sp (arg_sp sp arg) argv) in *.
    pose proof (arg_sp_range sp arg) as [Hr _]. destruct (sp_base _ _ _ _ _ _ H) as (Hb0 & Hb1 & Hbm). pose proof (proj1 Hgu) as Hpg.
    cbn [push_args]. destruct (decide (EXEC_MAXARG ≤ argc)%nat) as [Hm|Hm]; [|].
    { rewrite bool_decide_eq_true_2 by done. exists b. rewrite (set_page_id s) by apply H. split; [done|apply H]. }
    rewrite bool_decide_eq_false_2 by done. rewrite arg_sp_code by lia. destruct (decide (base ≤ arg_sp sp arg)) as [Hin|Hout].
    + destruct (push_one s fl pgdir base mem b sp arg H Ha ltac:(lia) Hin) as (Hc & Hg & _).
      mstep Hc. rewrite bool_decide_eq_false_2 by lia. simpl in Hbad.
      assert (arg_sp sp arg `mod` 4 = 0) as Hal' by (unfold arg_sp; rewrite Z.mul_comm; apply Z.mod_mul; lia).
      destruct (IH _ _ (S argc) (arg_sp sp arg) (acc ++ [arg_sp sp arg]) (stack_set s fl pgdir base mem b _ H Hg)) as (b' & Hrun & Hg');
        [by eapply guarded_set|done|lia|done|lia|lia|]. exists b'. by rewrite Hrun, set_page_twice.
    + erewrite bind_ok; [|apply (copyout_below s fl pgdir base mem b); [done|done| |rewrite length_app; simpl; lia]].
      * cbv beta. rewrite bool_decide_eq_true_2 by lia. exists b. rewrite (set_page_id s) by apply H. split; [done|apply H].
      * unfold arg_sp, PGSIZE in *. dlia.
Qed.

(** ** Reading the page back *)
Lemma user_byte_at s fl pgdir base mem b va : stack_page s fl pgdir base mem b → base ≤ va < base + PGSIZE →
  user_byte (pages s) pgdir va = b !! Z.to_nat (va - base).
Proof.
  intros H Hva. destruct (sp_base _ _ _ _ _ _ H) as (Hb0 & Hb1 & Hbm). unfold user_byte.
  rewrite (stack_frame s fl pgdir base mem b va H Hva). cbn. rewrite (sp_mem _ _ _ _ _ _ H). cbn. f_equal. f_equal.
  unfold PGSIZE in *. dlia.
Qed.
Lemma user_bytes_at s fl pgdir base mem b va n : stack_page s fl pgdir base mem b → base ≤ va → va + Z.of_nat n ≤ base + PGSIZE →
  user_bytes (pages s) pgdir va n = Some (slice b (Z.to_nat (va - base)) n).
Proof.
  intros H Hva Hn. destruct (sp_good _ _ _ _ _ _ H) as [Hl _]. unfold user_bytes. apply mapM_Some.
  assert (length (slice b (Z.to_nat (va - base)) n) = n) as Hs by (apply length_slice; unfold PGSIZE in *; lia).
  apply Forall2_same_length_lookup_2; [by rewrite length_seq, Hs|]. intros i j y Hi Hy.
  apply lookup_seq in Hi as [-> Hi]. rewrite lookup_slice in Hy by done.
  rewrite (user_byte_at s fl pgdir base mem b) by (try done; lia). rewrite <- Hy. f_equal. lia.
Qed.
Lemma user_string_at pg pgdir arg va n : cstr_ok arg → (length arg < n)%nat →
  (∀ i c, (arg ++ [0]) !! i = Some c → user_byte pg pgdir (va + Z.of_nat i) = Some c) → user_string n pg pgdir va = Some arg.
Proof.
  revert va n. induction arg as [|c arg IH]; intros va [|n] Hok Hn Hb; try (simpl in Hn; lia); cbn [user_string].
  - pose proof (Hb 0%nat 0 eq_refl) as H0. rewrite Z.add_0_r in H0. by rewrite H0.
  - apply Forall_cons in Hok as [Hc Hok]. pose proof (Hb 0%nat c eq_refl) as H0. rewrite Z.add_0_r in H0. rewrite H0. cbn [mbind option_bind].
    rewrite bool_decide_eq_false_2 by lia. rewrite (IH (va + 1)); [done|done|simpl in Hn; lia|].
    intros i d Hi. replace (va + 1 + Z.of_nat i) with (va + Z.of_nat (S i)) by lia. by apply (Hb (S i)).
Qed.
Lemma placed_string s fl pgdir base mem b lo hi p arg : stack_page s fl pgdir base mem b → cstr_ok arg →
  base ≤ lo → hi ≤ base + PGSIZE → placed base b lo hi p arg → user_string 4096 (pages s) pgdir p = Some arg.
Proof.
  intros H Hok Hlo Hhi (P1 & P2 & P3). apply user_string_at; [done|unfold PGSIZE in *; lia|]. intros i c Hi.
  pose proof (lookup_lt_Some _ _ _ Hi) as Hlt. rewrite length_app in Hlt. simpl in Hlt.
  rewrite (user_byte_at s fl pgdir base mem b) by (try done; lia). rewrite <- P3 in Hi. rewrite lookup_slice in Hi by lia.
  rewrite <- Hi. f_equal. lia.
Qed.

Lemma length_words ws : length (words_bytes ws) = (4 * length ws)%nat.
Proof. unfold words_bytes. induction ws as [|w ws IH]; [done|]. cbn [map concat]. rewrite length_app, IH, length_le_bytes. simpl. lia. Qed.
Lemma words_good ws : Forall byte_ok (words_bytes ws).
Proof. unfold words_bytes. induction ws as [|w ws IH]; [constructor|]. cbn [map concat]. apply Forall_app. split; [apply le_bytes_ok|done]. Qed.
Lemma words_slice ws i w : ws !! i = Some w → slice (words_bytes ws) (4 * i) 4 = le_bytes 4 w.
Proof.
  revert i. induction ws as [|v ws IH]; intros [|i] Hi; [done|done| |].
  - injection Hi as ->. unfold slice, words_bytes. cbn [map concat]. rewrite drop_0. by rewrite take_app_length' by (by rewrite length_le_bytes).
  - unfold slice, words_bytes. cbn [map concat]. replace (4 * S i)%nat with (length (le_bytes 4 v) + 4 * i)%nat by (rewrite length_le_bytes; lia).
    rewrite drop_app_add. by apply IH.
Qed.
(** The words copied to [va] are read back. *)
Lemma user_word_at s fl pgdir base mem b va ws i w : stack_page s fl pgdir base mem (splice b (Z.to_nat (va - base)) (words_bytes ws)) →
  page_good b → base ≤ va → va + 4 * Z.of_nat (length ws) ≤ base + PGSIZE → ws !! i = Some w → 0 ≤ w < 2^32 →
  user_word (pages s) pgdir (va + 4 * Z.of_nat i) = Some w.
Proof.
  intros H [Hl _] Hva Hend Hi Hw. pose proof (lookup_lt_Some _ _ _ Hi) as Hlt. unfold user_word. pose proof (length_words ws) as Hwl.
  rewrite (user_bytes_at s fl pgdir base mem _ _ _ H) by lia. cbn [fmap option_fmap option_map]. f_equal.
  replace (Z.to_nat (va + 4 * Z.of_nat i - base)) with (Z.to_nat (va - base) + 4 * i)%nat by lia.
  transitivity (le_val (slice (words_bytes ws) (4 * i) 4)).
  - f_equal. apply list_eq. intros j. destruct (decide (j < 4)%nat); [|unfold slice; by rewrite !lookup_take_ge by lia].
    rewrite !lookup_slice by done. rewrite lookup_splice_new by (unfold PGSIZE in *; lia). f_equal. lia.
  - rewrite (words_slice ws i w Hi), le_val_bytes. by apply Z.mod_small.
Qed.

(** ** The two new pages *)
Lemma guard_pte g : page_ok kend g → Z.land (V2P g + 7) (u32 (Z.lnot PTE_U)) = V2P g + 3 ∧ present (V2P g + 3) = true ∧
  Z.land (V2P g + 3) PTE_U = 0 ∧ 0 ≤ V2P g + 3 < 2^32.
Proof.
  intros Hok. destruct (frame_val kend g Hok) as (k & -> & Hk & _). rewrite <- !(lor_aligned k) by lia.
  assert (∀ m, 0 ≤ m < 4096 → Z.land (4096 * k) m = 0) as Hz by (intros m Hm; by apply land_aligned).
  split_and!; try (rewrite lor_aligned by lia; lia).
  - rewrite !Z.land_lor_distr_l. change (Z.land 7 (u32 (Z.lnot PTE_U))) with 3. f_equal.
    change (u32 (Z.lnot PTE_U)) with (Z.ldiff (Z.ones 32) 4). rewrite Z.ldiff_land, Z.land_assoc, Z.land_ones, Z.mod_small by lia.
    rewrite <- Z.ldiff_land. apply Z.bits_inj'. intros n Hn. rewrite Z.ldiff_spec.
    pose proof (f_equal (λ z, Z.testbit z n) (Hz 4 ltac:(lia))) as E. cbv beta in E. rewrite Z.land_spec, Z.bits_0 in E.
    destruct (Z.testbit (4096 * k) n), (Z.testbit 4 n); done.
  - rewrite lor_aligned by lia. by rewrite present_frame.
  - rewrite Z.land_lor_distr_l. unfold PTE_U. by rewrite Hz by lia.
Qed.

Lemma clearpteu_run s fl pgdir uva g : pt_wf kend s fl pgdir → 0 ≤ uva < 2^32 → page_ok kend g → pte_at (pages s) pgdir uva = V2P g + 7 →
  ∃ t b, clearpteu pgdir uva s = Ok (tt, set_page t b s) ∧ owns (pages s) pgdir t ∧ t ≠ pgdir ∧ pt_wf kend (set_page t b s) fl pgdir ∧
    ∀ va, 0 ≤ va < 2^32 → pte_at (<[t := b]> (pages s)) pgdir va = if bool_decide (page_of va = page_of uva) then V2P g + 3 else pte_at (pages s) pgdir va.
Proof.
  intros Hwf Hva Hok Hpte. destruct (guard_pte g Hok) as (Hland & _ & _ & Hr). destruct (pde_for_val kend g Hok) as (Ev & _ & Hp & _).
  assert (present (pde_at (pages s) pgdir (PDX uva)) = true) as Hd by (apply (walk_mapped s fl pgdir uva Hwf); [lia|]; by rewrite Hpte, <- Ev).
  destruct (pte_write kend s fl pgdir uva (V2P g + 3) Hwf Hva Hr Hd) as (b & Hb & Hg & Hw & Hwf' & Hpte').
  pose proof (PTX_range uva ltac:(lia)) as HPT. pose proof (PDX_range uva ltac:(lia)) as HPD.
  eexists _, _. split_and!; [|right; by exists (PDX uva)|by apply (pt_tab _ _ _ _ Hwf)|exact Hwf'|exact Hpte'].
  unfold clearpteu. rewrite (bind_ok _ _ _ _ _ (walk_present kend s fl pgdir uva false Hwf ltac:(lia) Hd)). cbv beta iota.
  erewrite bind_ok by (eapply read_word_run; [exact Hb|done|done]). cbv beta. rewrite Hw, Hpte, Hland.
  by apply write_word_run.
Qed.

(** What changes outside the stack: nothing. *)
Record stack_frames (s : kmem) (fl : list Z) (pgdir top : Z) (s' : kmem) (fl' : list Z) : Prop := {
  sf_fl : ∃ used, fl = used ++ fl';
  sf_pte : ∀ va, 0 ≤ va < 2^32 → (va < top - 2 * PGSIZE ∨ top ≤ va) → pte_at (pages s') pgdir va = pte_at (pages s) pgdir va;
  sf_pages : ∀ q, ¬ owns (pages s) pgdir q → q ∉ fl → pages s' !! q = pages s !! q }.

(** The entry of the guard page lost its user bit; nothing else changed. *)
Record reflagged (s1 : kmem) (pgdir a t : Z) (b : list Z) : Prop := {
  rf_owns : owns (pages s1) pgdir t;
  rf_tab : t ≠ pgdir;
  rf_pte : ∃ g, page_ok kend g ∧ pte_at (pages s1) pgdir a = V2P g + 7 ∧ ∀ va, 0 ≤ va < 2^32 →
    pte_at (<[t := b]> (pages s1)) pgdir va = if bool_decide (page_of va = page_of a) then V2P g + 3 else pte_at (pages s1) pgdir va }.

Lemma stack_of_grown s fl pgdir top s1 fl' : Forall (page_ok kend) fl → top `mod` PGSIZE = 0 → 2 * PGSIZE ≤ top < KERNBASE →
  grown kend s fl pgdir (top - 2 * PGSIZE) 2 s1 fl' →
  ∃ t b mem, clearpteu pgdir (u32 (top - 2 * PGSIZE)) s1 = Ok (tt, set_page t b s1) ∧ reflagged s1 pgdir (top - 2 * PGSIZE) t b ∧
    stack_page (set_page t b s1) fl' pgdir (top - PGSIZE) mem (replicate 4096 0) ∧ guarded (set_page t b s1) pgdir (top - PGSIZE) ∧
    stack_frames s fl pgdir top (set_page t b s1) fl' ∧ mem ∈ fl.
Proof.
  intros Hokf Htm Htop [W1 [used L1] O1 (mems & N1 & Len1 & M1 & _) F1 V1]. rewrite Forall_forall in Hokf. set (a := top - 2 * PGSIZE) in *.
  assert (a `mod` PGSIZE = 0) as Hal by (clear -Htm; unfold a, PGSIZE in *; dlia). destruct mems as [|g [|mem [|]]]; try done.
  pose proof (page_of_aligned_0 a) as P0. pose proof (page_of_aligned a 1) as P1.
  assert (0 ≤ a < 2^32 ∧ top < 2^32) as [Ha32 Ht32] by (unfold a, KERNBASE, PGSIZE in *; lia).
  assert (∀ va, a + PGSIZE ≤ va < top → fresh_at (pages s1) pgdir fl fl' va mem) as Hst.
  { intros va Hva. apply (M1 1%nat mem eq_refl). apply P1; [done|]. unfold a, PGSIZE in *. lia. }
  destruct (M1 0%nat g eq_refl a) as (Hpg & _ & Hg & _); [lia|]. destruct (Hst (a + PGSIZE)) as (_ & Hz & Hm & Hmf & Hmo); [unfold a, PGSIZE in *; lia|].
  destruct (clearpteu_run s1 fl' pgdir a g W1 Ha32 (Hokf g Hg) Hpg) as (t & b & Hr2 & Ht & Htd & W2 & Hpte2).
  assert (t ≠ mem) as Htm' by (intros ->; done).
  exists t, b, mem. rewrite u32_small by done. split_and!; [done| | | | |done].
  - split; [done|done|]. exists g. by split_and!; [apply Hokf| |].
  - split; cbn [pages set_page]; try done.
    + unfold a, PGSIZE in *. split_and!; [lia|lia|]. clear -Htm. dlia.
    + intros va Hva. rewrite Hpte2 by (unfold a, PGSIZE in *; lia). rewrite bool_decide_eq_false_2 by (rewrite P0 by done; unfold a, PGSIZE in *; lia).
      by apply Hst; unfold a, PGSIZE in *; lia.
    + by apply Hokf.
    + rewrite lookup_insert_ne by done. exact Hz.
    + apply zero_page_good.
    + intros H. by apply owns_set_table in H.
  - split; [unfold a, PGSIZE in *; lia|]. intros va Hva. cbn [pages set_page].
    assert (pte_at (<[t := b]> (pages s1)) pgdir va = V2P g + 3) as E.
    { rewrite Hpte2 by (unfold a, PGSIZE in *; lia). rewrite bool_decide_eq_true_2; [done|]. apply P0; [done|]. unfold a, PGSIZE in *. lia. }
    destruct (guard_pte g (Hokf g Hg)) as (_ & Hp & Hu & _). unfold user_frame. rewrite E, Hp, Hu. by rewrite bool_decide_eq_true_2.
  - split; [by exists used| |].
    + intros va Hva Ho. cbn [pages set_page]. rewrite Hpte2 by done. rewrite bool_decide_eq_false_2.
      * apply O1; [done|]. unfold a, PGSIZE in *. lia.
      * rewrite P0 by done. unfold a, PGSIZE in *. lia.
    + intros q Hq Hqf. cbn [pages set_page]. rewrite lookup_insert_ne; [by apply F1|]. intros ->. destruct (V1 q Ht); done.
Qed.

(** ** What main sees *)
Lemma main_argv_at s fl pgdir base mem b lo argv ptrs : page_good b → Forall cstr_ok argv → base ≤ lo →
  Forall2 (placed base b (lo + 4 * (4 + Z.of_nat (length argv))) (base + PGSIZE)) ptrs argv →
  lo + 4 * (4 + Z.of_nat (length argv)) ≤ base + PGSIZE → (length argv ≤ EXEC_MAXARG)%nat →
  stack_page s fl pgdir base mem (splice b (Z.to_nat (lo - base))
    (words_bytes ([4294967295; Z.of_nat (length argv); lo + 12] ++ ptrs ++ [0]))) →
  main_argv (pages s) pgdir lo = Some argv ∧ user_word (pages s) pgdir lo = Some 4294967295.
Proof.
  intros Hg Hok Hlo Hf Hhi Hmax H. pose proof (Forall2_length _ _ _ Hf) as Hlen. rewrite <- Hlen in H. set (ws := [4294967295; Z.of_nat (length ptrs); lo + 12] ++ ptrs ++ [0]) in *.
  destruct (sp_base _ _ _ _ _ _ H) as (Hb0 & Hb1 & Hbm).
  assert (length ws = 4 + length argv)%nat as Hws by (unfold ws; rewrite !length_app; simpl; lia).
  assert (∀ i w, ws !! i = Some w → 0 ≤ w < 2^32 → user_word (pages s) pgdir (lo + 4 * Z.of_nat i) = Some w) as Hword.
  { intros i w Hi Hw. eapply user_word_at; [exact H|done|done|lia|done|done]. }
  assert (∀ i p, ptrs !! i = Some p → ws !! (3 + i)%nat = Some p) as Hptr.
  { intros i p Hi. unfold ws. rewrite lookup_app_r by (simpl; lia). replace (3 + i - length _)%nat with i by (simpl; lia). by apply lookup_app_l_Some. }
  assert (Z.of_nat (length ptrs) < 2^32) by (unfold EXEC_MAXARG in Hmax; lia).
  split; [|by rewrite <- (Hword 0%nat 4294967295), Z.add_0_r by (try done; lia)].
  unfold main_argv. replace (lo + 4) with (lo + 4 * Z.of_nat 1) by lia. rewrite (Hword 1%nat (Z.of_nat (length ptrs))) by (try done; lia).
  cbn [mbind option_bind]. replace (lo + 8) with (lo + 4 * Z.of_nat 2) by lia. rewrite (Hword 2%nat (lo + 12)) by (try done; unfold PGSIZE in *; lia).
  cbn [mbind option_bind]. replace (lo + 12 + 4 * Z.of_nat (length ptrs)) with (lo + 4 * Z.of_nat (3 + length ptrs)) by lia.
  rewrite (Hword (3 + length ptrs)%nat 0) by (try lia; unfold ws; rewrite lookup_app_r by (simpl; lia); rewrite lookup_app_r by (simpl; lia);
    replace (3 + length ptrs - _ - _)%nat with 0%nat by (simpl; lia); done).
  cbn [mbind option_bind]. rewrite bool_decide_eq_false_2 by (by intros ?). rewrite Nat2Z.id. apply mapM_Some.
  apply Forall2_same_length_lookup_2; [by rewrite length_seq|]. intros i j arg Hi Harg. apply lookup_seq in Hi as [-> Hi].
  destruct (lookup_lt_is_Some_2 ptrs i Hi) as [p Hp]. pose proof (Forall2_lookup_lr _ _ _ _ _ _ Hf Hp Harg) as (P1 & P2 & P3).
  replace (lo + 12 + 4 * Z.of_nat (0 + i)) with (lo + 4 * Z.of_nat (3 + i)) by lia.
  rewrite (Hword (3 + i)%nat p) by (try (by apply Hptr); unfold PGSIZE in *; lia). cbn [mbind option_bind].
  eapply (placed_string s fl pgdir base mem); [exact H|by eapply Forall_lookup_1|..|split_and!; [exact P1|exact P2|]]; [lia|lia|].
  pose proof (proj1 Hg) as Hgl. rewrite slice_splice_other; [done|..]; rewrite length_words, Hws; unfold PGSIZE in *; lia.
Qed.

Lemma stack_frames_set s fl pgdir top s' fl' base mem b b' : stack_frames s fl pgdir top s' fl' →
  stack_page s' fl' pgdir base mem b → page_good b' → mem ∈ fl → stack_frames s fl pgdir top (set_page mem b' s') fl'.
Proof.
  intros [F1 F2 F3] H Hg Hm.
  destruct (pt_set_foreign kend s' fl' pgdir mem b' (sp_wf _ _ _ _ _ _ H) Hg (sp_free _ _ _ _ _ _ H) (sp_foreign _ _ _ _ _ _ H)) as [_ Hpte].
  split; [done| |]; cbn [pages set_page].
  - intros va Hva Ho. rewrite Hpte by lia. by apply F2.
  - intros q Hq Hqf. rewrite lookup_insert_ne by (intros ->; done). by apply F3.
Qed.
End stack.

(** ** The whole frame *)
Section frame.
Context (kend : Z) (s : kmem) (fl : list Z) (pgdir top mem : Z) (argv : list (list Z)).
Let sp : Z := args_sp top argv - 4 * (4 + Z.of_nat (length argv)).
Context (H : stack_page kend s fl pgdir (top - PGSIZE) mem (replicate 4096 0)) (Hgu : guarded s pgdir (top - PGSIZE)) (Htop : top < KERNBASE).
Context (Hok : Forall cstr_ok argv).

Lemma push_frame_fits : (length argv ≤ EXEC_MAXARG)%nat → top - PGSIZE ≤ sp → ∃ b', page_good b' ∧
  push_frame argv pgdir top s = Ok (Some (top, sp), set_page mem b' s) ∧
  ∀ s2 fl2, stack_page kend s2 fl2 pgdir (top - PGSIZE) mem b' →
    main_argv (pages s2) pgdir sp = Some argv ∧ user_word (pages s2) pgdir sp = Some 4294967295.
Proof using All.
  intros Hmax Hfit. pose proof (proj1 Hgu) as Htop0. unfold push_frame.
  destruct (push_args_fits kend argv s fl pgdir (top - PGSIZE) mem _ 0 top [] H Hok Hmax ltac:(lia) ltac:(lia)) as (b' & ptrs & Hr3 & Hg' & Hf & _).
  rewrite app_nil_l in Hr3. mstep Hr3. cbv beta iota zeta. pose proof (Forall2_length _ _ _ Hf) as Hlen.
  pose proof (args_sp_le top argv) as Hle. rewrite Hlen.
  replace (args_sp top argv - (Z.of_nat (length argv) + 1) * 4) with (sp + 12) by (unfold sp; lia).
  replace (args_sp top argv - (3 + Z.of_nat (length argv) + 1) * 4) with sp by (unfold sp; lia).
  rewrite !u32_small by (unfold sp, PGSIZE, KERNBASE in *; lia).
  set (ws := [4294967295; Z.of_nat (length argv); sp + 12] ++ ptrs ++ [0]).
  assert (length (words_bytes ws) = 4 * (4 + length argv))%nat as Hws by (rewrite length_words; unfold ws; rewrite !length_app; simpl; lia).
  pose proof (stack_set kend s fl pgdir _ mem _ b' H Hg') as H'.
  assert (page_good (splice b' (Z.to_nat (sp - (top - PGSIZE))) (words_bytes ws))) as Hg2 by (apply splice_good; [done|apply words_good|unfold sp, PGSIZE in *; lia]).
  eexists. split; [exact Hg2|]. split.
  - erewrite bind_ok; [|eapply (copyout_page kend); [exact H'|lia|unfold sp in *; lia|lia]]. cbv beta. rewrite bool_decide_eq_false_2 by lia. by rewrite set_page_twice.
  - intros s2 fl2 H2. eapply (main_argv_at kend s2 fl2 pgdir (top - PGSIZE) mem b' sp argv ptrs Hg' Hok ltac:(lia)); [|unfold sp; lia|done|exact H2].
    replace (sp + 4 * (4 + Z.of_nat (length argv))) with (args_sp top argv) by (unfold sp; lia). by replace (top - PGSIZE + PGSIZE) with top by lia.
Qed.

Lemma push_frame_overflow : Forall (λ a, Z.of_nat (length a) < PGSIZE) argv → ¬ ((length argv ≤ EXEC_MAXARG)%nat ∧ top - PGSIZE ≤ sp) →
  ∃ b', page_good b' ∧ push_frame argv pgdir top s = Ok (None, set_page mem b' s).
Proof using All.
  intros Hshort Hno. pose proof (proj1 Hgu) as Htop0. destruct (sp_base _ _ _ _ _ _ _ H) as (_ & _ & Hbm). unfold push_frame.
  destruct (decide ((length argv ≤ EXEC_MAXARG)%nat ∧ top - PGSIZE ≤ args_sp top argv)) as [[Hmax Hin]|Hout].
  - destruct (push_args_fits kend argv s fl pgdir (top - PGSIZE) mem _ 0 top [] H Hok Hmax ltac:(lia) Hin) as (b' & ptrs & Hr3 & Hg' & Hf & _).
    rewrite app_nil_l in Hr3. mstep Hr3. cbv beta iota zeta. pose proof (Forall2_length _ _ _ Hf) as Hlen.
    pose proof (args_sp_le top argv) as Hle. rewrite Hlen. assert (¬ top - PGSIZE ≤ sp) as Hlow by tauto. unfold EXEC_MAXARG in Hmax.
    exists b'. split; [done|].
    erewrite bind_ok; [|eapply (copyout_below kend); [exact (stack_set kend s fl pgdir _ mem _ b' H Hg')|by eapply guarded_set|rewrite u32_small; unfold sp, PGSIZE, KERNBASE in *; lia|]].
    + cbv beta. by rewrite bool_decide_eq_true_2 by lia.
    + rewrite length_words. simpl. lia.
  - destruct (push_args_overflow kend argv s fl pgdir (top - PGSIZE) mem _ 0 top [] H Hgu) as (b' & Hr3 & Hg');
      [by apply Forall_and|unfold PGSIZE; lia|unfold PGSIZE in *; dlia|lia|lia|]. exists b'. split; [done|]. by mstep Hr3.
Qed.
End frame.

(** The size rounded up, with the two pages of the stack. *)
Lemma top_range sz : 0 ≤ sz → let top := PGSIZE * ((sz + PGSIZE - 1) / PGSIZE) + 2 * PGSIZE in
  2 * PGSIZE ≤ top ∧ top `mod` PGSIZE = 0 ∧ (top < 2^32 → PGROUNDUP sz = top - 2 * PGSIZE) ∧
  (top < 2^32 → u32 (top - 2 * PGSIZE + 2 * PGSIZE) = top) ∧
  Z.max 0 ((top - (top - 2 * PGSIZE) + PGSIZE - 1) / PGSIZE) = 2 ∧ PGSIZE * ((top - 2 * PGSIZE + PGSIZE - 1) / PGSIZE) = top - 2 * PGSIZE.
Proof.
  intros Hsz top. assert (2 * PGSIZE ≤ top ∧ top `mod` PGSIZE = 0) as [H1 H2] by (unfold top, PGSIZE; dlia). split_and!; try done.
  - intros Ht. rewrite PGROUNDUP_val by (unfold top, PGSIZE in *; dlia). unfold top. lia.
  - intros Ht. rewrite u32_small; unfold PGSIZE in *; lia.
  - replace (top - (top - 2 * PGSIZE) + PGSIZE - 1) with 12287 by (unfold PGSIZE; lia). done.
  - clear -H2. unfold PGSIZE in *. dlia.
Qed.

(** ** The claim *)

(** C12: [exec] passes its arguments.  Into an address space with two unmapped
    pages above the program and four free pages, [exec] builds a stack of one page
    above an inaccessible one.  If there are at most [MAXARG] arguments and they
    fit with the pointers to them into the page, the program starts with the
    stack pointer below them, word-aligned, and reads [argc] and [argv] through
    its page table as exactly the strings that were passed, followed by a null
    pointer, under the fake return address; no translation outside the two
    pages and no page but those taken from the free list and the page tables
    changes.  If they do not fit, each shorter than a page, [exec] fails, and then too
    no translation outside the two pages and no page but those taken from the free
    list and the page tables has changed: what is below the stack keeps its bytes. *)
Theorem exec_passes_arguments kend s fl pgdir sz argv :
  pt_wf kend s fl pgdir → 0 ≤ sz →
  let top := PGSIZE * ((sz + PGSIZE - 1) / PGSIZE) + 2 * PGSIZE in
  top < KERNBASE → (4 ≤ length fl)%nat → (∀ va, top - 2 * PGSIZE ≤ va < top → mapped (pages s) pgdir va = None) →
  Forall (λ a, cstr_ok a ∧ Z.of_nat (length a) < PGSIZE) argv →
  let sp := args_sp top argv - 4 * (4 + Z.of_nat (length argv)) in
  ((length argv ≤ EXEC_MAXARG)%nat ∧ top - PGSIZE ≤ sp →
     ∃ s' fl', build_stack kend argv pgdir sz s = Ok (Some (top, sp), s') ∧ pt_wf kend s' fl' pgdir ∧
       main_argv (pages s') pgdir sp = Some argv ∧ user_word (pages s') pgdir sp = Some 4294967295 ∧ sp `mod` 4 = 0 ∧
       (∀ va, top - 2 * PGSIZE ≤ va < top - PGSIZE → user_byte (pages s') pgdir va = None) ∧
       stack_frames s fl pgdir top s' fl') ∧
  (¬ ((length argv ≤ EXEC_MAXARG)%nat ∧ top - PGSIZE ≤ sp) →
     ∃ s' fl', build_stack kend argv pgdir sz s = Ok (None, s') ∧ pt_wf kend s' fl' pgdir ∧
       (∀ va, top - 2 * PGSIZE ≤ va < top - PGSIZE → user_byte (pages s') pgdir va = None) ∧
       stack_frames s fl pgdir top s' fl').
Proof.
  intros Hwf Hsz top Htop Hfl Hun [Hok Hshort]%Forall_and sp. destruct (top_range sz Hsz) as (Htop0 & Htopm & Eup & Etop & En & Ea). fold top in Htop0, Htopm, Eup, Etop, En, Ea.
  destruct (allocuvm_more kend s fl pgdir (top - 2 * PGSIZE) top Hwf) as (s1 & fl' & Hr1 & G); rewrite ?Ea, ?En;
    [lia|unfold PGSIZE; lia|lia|intros va Hva; apply Hun; unfold PGSIZE in *; lia|]. rewrite Ea, En in G.
  destruct (stack_of_grown kend s fl pgdir top s1 fl' (fr_ok _ _ _ (pt_free _ _ _ _ Hwf)) Htopm (conj Htop0 Htop) G) as (t & b & mem & Hr2 & _ & H & Hgu & Hfr & Hm).
  assert (top < 2^32) as Ht32 by (unfold KERNBASE in *; lia). unfold build_stack. cbv zeta. rewrite (Eup Ht32), (Etop Ht32). mstep Hr1. rewrite bool_decide_eq_false_2 by (unfold PGSIZE in *; lia). mstep Hr2.
  assert (∀ b', page_good b' → ∀ va, top - 2 * PGSIZE ≤ va < top - PGSIZE → user_byte (pages (set_page mem b' (set_page t b s1))) pgdir va = None) as Hguard.
  { intros b' Hg' va Hva. destruct (guarded_set kend _ _ _ _ _ _ _ H Hg' Hgu) as [_ Hn]. unfold user_byte. by rewrite (proj2 (Hn va ltac:(lia))). }
  split.
  - intros [Hmax Hfit]. destruct (push_frame_fits kend _ fl' pgdir top mem argv H Hgu Htop Hok Hmax Hfit) as (b' & Hg' & Hr3 & Hsee).
    destruct (Hsee _ fl' (stack_set kend _ fl' pgdir _ mem _ b' H Hg')) as [Hargv Hpc].
    exists (set_page mem b' (set_page t b s1)), fl'. split_and!; [done|by eapply sp_wf, stack_set|done|done| | |by eapply stack_frames_set].
    + unfold sp. pose proof (args_sp_aligned top argv ltac:(unfold PGSIZE in *; dlia)). dlia.
    + by apply Hguard.
  - intros Hno. destruct (push_frame_overflow kend _ fl' pgdir top mem argv H Hgu Htop Hok Hshort Hno) as (b' & Hg' & Hr3).
    exists (set_page mem b' (set_page t b s1)), fl'. split_and!; [done|by eapply sp_wf, stack_set|by apply Hguard|by eapply stack_frames_set].
Qed.

(** The stack pointer is not checked before it is used.  An argument longer than
    the new program makes it wrap around, and where the directory has no table at
    that address [uva2ka] uses the null pointer of [walkpgdir] as an entry. *)
Lemma long_argument_faults kend s fl d top arg argv : pt_wf kend s fl d →
  let sp := Z.land (u32 (top - (Z.of_nat (length arg) + 1))) (u32 (Z.lnot 3)) in
  0 ≤ PGROUNDDOWN sp → present (pde_at (pages s) d (PDX (PGROUNDDOWN sp))) = false → push_args (arg :: argv) d 0 top [] s = Fault Undefined.
Proof.
  intros W sp H0 Hp. cbn [push_args]. rewrite bool_decide_eq_false_2 by (unfold EXEC_MAXARG; lia). cbv zeta. fold sp. unfold copyout. cbn [copyout_loop].
  rewrite bool_decide_eq_true_2 by (rewrite length_app; simpl; lia). unfold uva2ka. unfold mbind, M_bind. by rewrite (walk_absent kend s fl).
Qed.

Module ExStack.
(** Two more free pages than in [ExVm]. *)
Definition free_at (v : Z) (s : kmem) : kmem := mkkmem (use_lock s) v (<[v := freed_page (freelist s)]> (pages s)).
Definition s4 : kmem := free_at (KERNBASE + 20480) (free_at (KERNBASE + 16384) ExVm.s0).
Definition fl4 : list Z := KERNBASE + 20480 :: KERNBASE + 16384 :: ExVm.fl.

Lemma free_at_wf kend s fl pgdir v : pt_wf kend s fl pgdir → page_ok kend v → v ∉ fl → ¬ owns (pages s) pgdir v →
  pt_wf kend (free_at v s) (v :: fl) pgdir ∧
  ∀ va, 0 ≤ va → pte_at (pages (free_at v s)) pgdir va = pte_at (pages s) pgdir va.
Proof.
  intros Hwf Hok Hn Ho. destruct (pt_set_foreign kend s fl pgdir v _ Hwf zero_page_good Hn Ho) as [Hwf1 Hp1].
  assert (pages (set_page v (replicate 4096 0) s) !! v = Some (replicate 4096 0)) as Hv by (cbn [pages set_page]; apply lookup_insert_eq).
  destruct (pt_kfree kend _ fl pgdir v Hwf1 Hok) as (s' & Hk & Hwf' & Hp').
  - eexists. split; [exact Hv|apply zero_page_good].
  - done.
  - cbn [pages set_page]. intros H. apply owns_set_table in H; [done|]. intros ->. apply Ho. by left.
  - rewrite (kfree_run kend v _ _ Hok Hv) in Hk by (apply (free_head_range kend _ fl), Hwf1).
    injection Hk as <-. cbn [use_lock freelist pages set_page] in *. rewrite insert_insert_eq in *. split; [exact Hwf'|].
    intros va Hva. rewrite <- Hp1 by done. exact (Hp' va Hva).
Qed.
Lemma not_owned v : v ≠ ExVm.dir → ¬ owns (pages ExVm.s0) ExVm.dir v.
Proof. intros Hv [?|(i & Hi & Hp & _)]; [done|]. by rewrite ExVm.pde_zero in Hp. Qed.
Lemma wf4 : pt_wf KERNBASE s4 fl4 ExVm.dir ∧ ∀ va, 0 ≤ va → pte_at (pages s4) ExVm.dir va = pte_at (pages ExVm.s0) ExVm.dir va.
Proof.
  destruct (free_at_wf KERNBASE ExVm.s0 ExVm.fl ExVm.dir (KERNBASE + 16384) ExVm.wf) as [W1 P1];
    [done|unfold ExVm.fl; apply (bool_decide_unpack _); by vm_compute|by apply not_owned|].
  destruct (free_at_wf KERNBASE _ _ ExVm.dir (KERNBASE + 20480) W1) as [W2 P2]; [done|unfold ExVm.fl; apply (bool_decide_unpack _); by vm_compute| |].
  - intros H. cbn [free_at pages] in H. apply owns_set_table in H; [|done]. by apply not_owned in H.
  - split; [exact W2|]. intros va Hva. unfold s4. by rewrite P2, P1.
Qed.
End ExStack.

Lemma exec_passes_arguments_witness : ∃ s',
  build_stack KERNBASE [[101; 99; 104; 111]; [104; 105]] ExVm.dir 5000 ExStack.s4 = Ok (Some (16384, 16348), s') ∧
  main_argv (pages s') ExVm.dir 16348 = Some [[101; 99; 104; 111]; [104; 105]].
Proof.
  destruct (exec_passes_arguments KERNBASE ExStack.s4 ExStack.fl4 ExVm.dir 5000 [[101; 99; 104; 111]; [104; 105]]
    (proj1 ExStack.wf4) ltac:(lia)) as [Hfits _].
  - by vm_compute.
  - simpl. lia.
  - intros va [Hva _]. assert (0 ≤ va) as H0 by (refine (Z.le_trans _ _ _ _ Hva); by vm_compute).
    unfold mapped. rewrite (proj2 ExStack.wf4) by done. by apply ExVm.unmapped.
  - repeat constructor; lia.
  - destruct Hfits as (s' & _ & H1 & _ & H2 & _); [split; [simpl; unfold EXEC_MAXARG; lia|by vm_compute]|]. exists s'. split; [exact H1|exact H2].
Defined.
