(* ===== verification/ExecLoad.v ===== *)
(** * Loading a program

    What [load_segments] makes of the program headers of a file, over any reader
    of the file: either the memory image the headers describe, or a failure that
    keeps the address space whole.  No file makes it panic. *)
From stdpp Require Import base numbers list gmap strings.
From S2P Require Import Prelude Bytes Kalloc Vm VmFacts VmClaims VmSpace VmSetup Bio Log Fs Proc Exec ExecStack.
#[local] Open Scope Z_scope.

(** ** The image a file describes *)

(** What [readi] returns for a file with the content [data]. *)
Definition read_at (data : list Z) (off n : Z) : Z * list Z :=
  let size := Z.of_nat (length data) in
  if bool_decide (size < off ∨ u32 (off + n) < off) then (-1, [])
  else let m := Z.min n (size - off) in (m, slice data (Z.to_nat off) (Z.to_nat m)).

(** A segment put over an image. *)
Definition put_segment (data : list Z) (ph : proghdr) (img : Z → Z) : Z → Z := λ va,
  if bool_decide (ph_vaddr ph ≤ va < ph_vaddr ph + ph_filesz ph) then data !!! Z.to_nat (ph_off ph + (va - ph_vaddr ph)) else img va.
Definition segment_ok (data : list Z) (ph : proghdr) : Prop :=
  ph_filesz ph ≤ ph_memsz ph ∧ ph_vaddr ph + ph_memsz ph < KERNBASE ∧ ph_vaddr ph `mod` PGSIZE = 0 ∧
  (0 < ph_filesz ph → ph_off ph + ph_filesz ph ≤ Z.of_nat (length data)).
#[export] Instance segment_ok_dec data ph : Decision (segment_ok data ph).
Proof. unfold segment_ok. apply _. Defined.
(** The image and the size after [n] headers from [off] on; [None] if one is
    missing or cannot be loaded. *)
Fixpoint elf_image (n : nat) (data : list Z) (off sz : Z) (img : Z → Z) : option (Z * (Z → Z)) :=
  match n with
  | O => Some (sz, img)
  | S n =>
    let '(r, b) := read_at data (u32 off) proghdr_size in
    match load_proghdr b with
    | Fault _ => None
    | Ok ph =>
      if bool_decide (r ≠ proghdr_size) then None
      else if bool_decide (ph_type ph ≠ ELF_PROG_LOAD) then elf_image n data (off + proghdr_size) sz img
      else
        let sz := Z.max sz (ph_vaddr ph + ph_memsz ph) in
        if bool_decide (segment_ok data ph ∧ sz ≠ 0) then elf_image n data (off + proghdr_size) sz (put_segment data ph img) else None
    end
  end.

(** ** Lifting *)
Lemma on_mem_ok {A} (m : M kmem A) xs a t : m (xmem xs) = Ok (a, t) → on_mem m xs = Ok (a, mkxs (xfs xs) t (xproc xs)).
Proof. intros E. unfold on_mem. by rewrite E. Qed.
Lemma on_fsys_ok {A} (m : M fstate A) xs a t : m (xfs xs) = Ok (a, t) → on_fsys m xs = Ok (a, mkxs t (xmem xs) (xproc xs)).
Proof. intros E. unfold on_fsys. by rewrite E. Qed.

Definition up (sz : Z) : Z := PGSIZE * ((sz + PGSIZE - 1) / PGSIZE).
Lemma up_le a b : a ≤ b → up a / PGSIZE ≤ up b / PGSIZE.
Proof. intros H. unfold up. rewrite !(Z.mul_comm PGSIZE), !Z.div_mul by done. apply Z.div_le_mono; [done|lia]. Qed.
Lemma up_range sz : sz ≤ up sz < sz + PGSIZE ∧ up sz `mod` PGSIZE = 0.
Proof. unfold up, PGSIZE. dlia. Qed.

Section load.
Context (kend : Z) (Hkend : KERNBASE < kend).

(** The address space holds the image up to [sz], and nothing above. *)
Record loaded (s : kmem) (fl : list Z) (d sz : Z) (img : Z → Z) : Prop := {
  ld_space : space kend s fl d;
  ld_sz : 0 ≤ sz < KERNBASE;
  ld_img : ∀ va, 0 ≤ va < up sz → user_byte (pages s) d va = Some (img va);
  ld_top : ∀ va, up sz ≤ va < KERNBASE → mapped (pages s) d va = None ∧ img va = 0 }.

(** ** User bytes *)
Lemma user_byte_frame pg d va c : user_byte pg d va = Some c → present (pte_at pg d va) = true ∧ user_frame pg d va = Some (frame pg d va) ∧
  ∃ b, pg !! frame pg d va = Some b ∧ b !! Z.to_nat (va `mod` PGSIZE) = Some c.
Proof.
  unfold user_byte, user_frame, frame. destruct (present (pte_at pg d va)) eqn:Hp; [|done]. destruct (bool_decide (Z.land _ _ = 0)); [done|].
  cbn. intros H. split_and!; [done|done|]. destruct (pg !! _) as [b|] eqn:E; [|done]. by exists b.
Qed.
(** The same entry and the same frame give the same byte. *)
Lemma user_byte_ext pg pg' d va : pte_at pg' d va = pte_at pg d va → pg' !! frame pg d va = pg !! frame pg d va → user_byte pg' d va = user_byte pg d va.
Proof.
  intros E1 E2. unfold user_byte, user_frame. rewrite E1. destruct (present _ && _); [|done]. cbn. unfold frame in E2. by rewrite E2.
Qed.

(** A page of the program is written. *)
Lemma loaded_write s fl d sz img va0 bs : loaded s fl d sz img → 0 ≤ va0 < up sz → va0 `mod` PGSIZE = 0 → (length bs ≤ 4096)%nat → Forall byte_ok bs →
  let f := frame (pages s) d va0 in
  ∃ b, pages s !! f = Some b ∧ length b = 4096%nat ∧ (∀ q, space_page (set_page f (splice b 0 bs) s) d q ↔ space_page s d q) ∧ space_page s d f ∧
    loaded (set_page f (splice b 0 bs) s) fl d sz (λ va, if bool_decide (va0 ≤ va < va0 + Z.of_nat (length bs)) then bs !!! Z.to_nat (va - va0) else img va).
Proof.
  intros [H Hsz Himg Htop] Hva Hal Hlen Hbs f. pose proof (up_range sz) as [Hup Hum].
  assert (up sz ≤ KERNBASE) as Hupk by (unfold KERNBASE, PGSIZE in *; dlia).
  destruct (user_byte_frame _ _ _ _ (Himg va0 Hva)) as (Hp & _ & _). assert (user_at (pages s) d va0) as Hu by (split; [lia|done]).
  destruct (as_user _ _ _ _ H va0 Hu) as (Hok & (b & Hb & Hg) & Hnf & Hno). fold f in Hok, Hb, Hnf, Hno. exists b.
  assert (page_good (splice b 0 bs)) as Hg' by (by apply splice_good). pose proof (proj1 Hg) as Hbl.
  destruct (space_set kend s fl d f _ H Hg' Hnf Hno) as (H' & Hpte & _).
  split_and!; [done|done|by eapply space_page_set|right; by exists va0|]. split; [done|done| |].
  - intros va Hv. assert (va < 2^32 ∧ va0 < 2^32) as [Hv32 Hv032] by (unfold KERNBASE in *; lia). cbn [pages set_page].
    destruct (user_byte_frame _ _ _ _ (Himg va Hv)) as (Hpv & Hfv & bv & Hbv & Hcv).
    destruct (decide (page_of va = page_of va0)) as [E|E].
    + assert (frame (pages s) d va = f) as Ef by (unfold f, frame; rewrite (pte_same_page _ _ va va0); [done|lia|lia|done]). rewrite Ef, Hb in Hbv. injection Hbv as <-.
      unfold user_byte, user_frame. rewrite Hpte by lia. unfold user_frame in Hfv. rewrite Hfv. cbn. rewrite Ef, lookup_insert_eq. cbn.
      assert (va0 ≤ va < va0 + PGSIZE) as Hin by (by apply page_of_aligned_0). assert (va `mod` PGSIZE = va - va0) as Em by (clear -Hin Hal; unfold PGSIZE in *; dlia).
      rewrite Em in *. clear Hfv. case_bool_decide as Hc.
      * rewrite lookup_splice_new by lia. rewrite Nat.sub_0_r. apply list_lookup_lookup_total_lt. lia.
      * rewrite lookup_splice_old by lia. done.
    + rewrite (user_byte_ext (pages s)); [|apply Hpte; lia|].
      * rewrite bool_decide_eq_false_2; [by apply Himg|]. intros Hc. apply E. apply page_of_aligned_0; [done|]. unfold PGSIZE. lia.
      * rewrite lookup_insert_ne; [done|]. intros Ef. apply E. symmetry. apply (as_inj _ _ _ _ H); [done|split; [lia|done]|done].
  - intros va Hv. destruct (Htop va Hv) as [Hm Hi]. unfold mapped. cbn [pages set_page]. rewrite Hpte by lia. split; [done|].
    rewrite bool_decide_eq_false_2; [done|]. clear -Hv Hva Hal Hum Hlen. unfold PGSIZE in *. dlia.
Qed.

Lemma loaded_ext s fl d sz img img' : (∀ va, 0 ≤ va < KERNBASE → img' va = img va) → loaded s fl d sz img → loaded s fl d sz img'.
Proof.
  intros E [H Hsz Himg Htop]. pose proof (up_range sz) as [Hup Hum]. assert (up sz ≤ KERNBASE) by (unfold KERNBASE, PGSIZE in *; dlia).
  split; [done|done| |].
  - intros va Hva. rewrite E by lia. by apply Himg.
  - intros va Hva. rewrite E by lia. by apply Htop.
Qed.

(** The pages of the address space are few: the directory and its tables, and the
    pages of the image. *)
Lemma loaded_count s fl d sz img L : loaded s fl d sz img → NoDup L → (∀ q, q ∈ L → q ∈ fl ∨ space_page s d q) →
  Z.of_nat (length L) ≤ Z.of_nat (length fl) + 1025 + up sz / PGSIZE.
Proof.
  intros [H Hsz Himg Htop] Hnd Hin. destruct (up_range sz) as [Hup Hum]. set (n := up sz / PGSIZE).
  assert (up sz = PGSIZE * n ∧ 0 ≤ n) as [En Hn] by (clear -Hup Hum Hsz; unfold n, PGSIZE in *; split; dlia).
  assert (length L ≤ length (fl ++ owned (pages s) d ++ map (λ i, frame (pages s) d (PGSIZE * i)) (seqZ 0 n)))%nat as Hle.
  { apply submseteq_length, NoDup_submseteq; [done|]. intros q Hq. rewrite !elem_of_app. destruct (Hin q Hq) as [?|[Ho|(va & Hu & ->)]]; [by left|right; left; by apply owned_all|].
    right. right. destruct Hu as [Hva Hp]. assert (va < up sz) as Hlt.
    { destruct (Z.lt_ge_cases va (up sz)) as [|Hge]; [done|]. destruct (Htop va ltac:(lia)) as [Hm _]. unfold mapped in Hm. by rewrite Hp in Hm. }
    apply list_elem_of_fmap. exists (va / PGSIZE). split.
    - unfold frame. rewrite (pte_same_page _ _ va (PGSIZE * (va / PGSIZE))); [done|unfold KERNBASE in *; lia|unfold KERNBASE, PGSIZE in *; dlia|unfold page_of, PGSIZE; dlia].
    - apply elem_of_seqZ. clear -Hlt En Hva. unfold PGSIZE in *. dlia. }
  rewrite !length_app, length_owned, length_map, length_seqZ in Hle. lia.
Qed.

(** ** Growing *)
Lemma loaded_grow s fl d sz newsz img s' fl' : loaded s fl d sz img → sz ≤ newsz < KERNBASE →
  grown kend s fl d (up sz) (Z.max 0 ((newsz - up sz + PGSIZE - 1) / PGSIZE)) s' fl' → loaded s' fl' d newsz img ∧ moved s fl d s' fl'.
Proof using Hkend.
  intros L Hnew G. pose proof L as [H Hsz Himg Htop]. destruct (up_range sz) as [Hup Hum]. destruct (up_range newsz) as [Hup' Hum'].
  set (n := Z.max 0 ((newsz - up sz + PGSIZE - 1) / PGSIZE)) in *.
  assert (up sz + PGSIZE * n = up newsz ∧ 0 ≤ n ∧ up newsz ≤ KERNBASE) as (En & Hn & Hnk).
  { clear -Hup Hum Hup' Hum' Hsz Hnew. unfold n, KERNBASE, PGSIZE in *. split_and!; [dlia|lia|dlia]. }
  assert (∀ va, up sz ≤ va < up sz + PGSIZE * n → mapped (pages s) d va = None) as Hun by (intros va Hva; apply Htop; lia).
  assert (0 ≤ up sz) as Hu0 by lia. assert (up sz + PGSIZE * n ≤ KERNBASE) as Hk by lia.
  split; [|by eapply (grown_moved kend Hkend s fl d (up sz) n)]. split; [by eapply (grown_space kend Hkend s fl d (up sz) n)|lia| |].
  - intros va Hva. destruct (decide (va < up sz)) as [Hlt|Hge].
    + rewrite <- Himg by lia. destruct (user_byte_frame _ _ _ _ (Himg va ltac:(lia))) as (Hp & _).
      destruct (as_user _ _ _ _ H va) as (_ & _ & Hnf & Hno); [split; [lia|done]|].
      apply user_byte_ext; [apply (gr_old _ _ _ _ _ _ _ _ G); unfold KERNBASE in *; lia|by apply (gr_frame _ _ _ _ _ _ _ _ G)].
    + rewrite (proj2 (Htop va ltac:(lia))).
      destruct (gr_new _ _ _ _ _ _ _ _ G) as (mems & _ & Len & M & _). destruct (lookup_lt_is_Some_2 mems (Z.to_nat (page_of va - page_of (up sz)))) as [mem Hm].
      { clear -Len Hva Hge En Hum. unfold page_of, PGSIZE in *. dlia. }
      destruct (M _ _ Hm va) as (E & Hz & Hin & _); [clear -Hge Hum; unfold page_of, PGSIZE in *; dlia|].
      pose proof (fr_ok _ _ _ (pt_free _ _ _ _ (as_pt _ _ _ _ H))) as Hok. rewrite Forall_forall in Hok.
      unfold user_byte. rewrite (user_pte_frame kend _ _ _ mem (Hok _ Hin) E). cbn [mbind option_bind]. rewrite Hz. cbn [mbind option_bind]. apply lookup_replicate_2. unfold PGSIZE. dlia.
  - assert (up sz ≤ up newsz) as Hmono by (unfold PGSIZE in *; lia). intros va Hva. split; [|apply Htop; lia]. unfold mapped. rewrite (gr_old _ _ _ _ _ _ _ _ G) by (unfold KERNBASE in *; lia). apply Htop. lia.
Qed.

Lemma alloc_step s fl d sz img newsz : loaded s fl d sz img → 0 ≤ newsz →
  ∃ r s' fl', allocuvm kend d sz newsz s = Ok (r, s') ∧ moved s fl d s' fl' ∧ space kend s' fl' d ∧
    (r ≠ 0 → newsz < KERNBASE ∧ r = Z.max sz newsz ∧ loaded s' fl' d r img) ∧
    (r = 0 → KERNBASE ≤ newsz ∨ Z.max sz newsz = 0 ∨ Z.of_nat (length fl) ≤ 1025 + (up newsz / PGSIZE - up sz / PGSIZE)).
Proof using Hkend.
  intros L Hnew. pose proof (ld_space _ _ _ _ _ L) as H. pose proof (ld_sz _ _ _ _ _ L) as Hsz.
  destruct (decide (KERNBASE ≤ newsz)) as [Hbig|Hsmall].
  { exists 0, s, fl. unfold allocuvm. rewrite bool_decide_eq_true_2 by done. split_and!; [done|apply moved_refl|done|done|by left]. }
  destruct (decide (newsz < sz)) as [Hlt|Hge].
  { exists sz, s, fl. unfold allocuvm. rewrite bool_decide_eq_false_2 by lia. rewrite bool_decide_eq_true_2 by done.
    split_and!; [done|apply moved_refl|done| |lia]. intros _. split_and!; [lia|lia|done]. }
  destruct (allocuvm_total kend Hkend s fl d sz newsz H ltac:(lia) ltac:(lia)) as [(s' & fl' & Hr & G)|(s' & fl' & Hr & U & Hlen)].
  - intros va Hva. apply (ld_top _ _ _ _ _ L). fold (up sz) in Hva. destruct (up_range sz) as [A1 A2]. split; [lia|].
    clear -Hva A1 A2 Hsmall Hsz. unfold KERNBASE, PGSIZE in *. dlia.
  - fold (up sz) in G. destruct (loaded_grow s fl d sz newsz img s' fl' L ltac:(lia) G) as [L' M]. exists newsz, s', fl'.
    split_and!; [done|done|apply L'| |lia]. intros _. split_and!; [lia|lia|done].
  - exists 0, s', fl'. split_and!; [done|apply U|apply U|done|]. intros _. right. right. fold (up sz) in Hlen.
    replace (up newsz / PGSIZE - up sz / PGSIZE) with (Z.max 0 ((newsz - up sz + PGSIZE - 1) / PGSIZE)); [done|]. clear -Hge Hsz. unfold up, PGSIZE in *. dlia.
Qed.

(** ** Reading the file *)

(** What [exec] needs of the file system between [ilock] and [iunlockput]: as long
    as [FS] holds, [readi] delivers the bytes of the file. *)
Class FileReader (havedisk1 : bool) (devread : Z → option (nat → Z → M fstate (Z * list Z))) (ip : nat) (data : list Z) (FS : fstate → Prop) : Prop := {
  rd_bytes : Forall byte_ok data;
  rd_size : Z.of_nat (length data) < 2^31;
  rd_readi : ∀ fs off n, FS fs → 0 ≤ off < 2^32 → 0 ≤ n < 2^31 →
    ∃ fs', readi havedisk1 devread ip off n fs = Ok (read_at data off n, fs') ∧ FS fs' }.

Section reader.
Context (havedisk1 : bool) (devread : Z → option (nat → Z → M fstate (Z * list Z))) (ip : nat) (data : list Z) (FS : fstate → Prop).
Context {Hfr : FileReader havedisk1 devread ip data FS}.

Lemma read_at_bytes off n : 0 ≤ off → 0 ≤ n → Forall byte_ok (read_at data off n).2 ∧ Z.of_nat (length (read_at data off n).2) ≤ n.
Proof using Hfr.
  intros Ho Hn. unfold read_at. cbv zeta. case_bool_decide; cbn [snd]; [split; [constructor|simpl; lia]|]. split; [apply slice_forall, Hfr|].
  unfold slice. rewrite length_take, length_drop. lia.
Qed.
Lemma read_at_whole off n : 0 ≤ off < 2^32 → 0 < n < 2^31 → (read_at data off n).1 = n →
  off + n ≤ Z.of_nat (length data) ∧ read_at data off n = (n, slice data (Z.to_nat off) (Z.to_nat n)).
Proof using Hfr.
  intros Ho Hn. unfold read_at. cbv zeta. case_bool_decide; cbn [fst]; [lia|]. intros E. rewrite E. split; [lia|done].
Qed.

Lemma read_at_short off n : 0 ≤ off < 2^32 → 0 ≤ n → (read_at data off n).1 ≠ n → Z.of_nat (length data) < off + n.
Proof using Hfr.
  intros Ho Hn. pose proof (rd_size (FileReader := Hfr)) as Hs. unfold read_at. cbv zeta. case_bool_decide as Hc; cbn [fst]; [|lia]. intros _.
  destruct (Z.lt_ge_cases (off + n) (2^32)); [|lia]. rewrite (u32_small (off + n)) in Hc by lia. lia.
Qed.

(** [loaduvm] reads the file into the pages of the range, which are there. *)
Section loaduvm.
Context (fl : list Z) (d sz addr off fsz : Z) (p : proc).
Context (Haddr : 0 ≤ addr) (Hal : addr `mod` PGSIZE = 0) (Hoff : 0 ≤ off < 2^32) (Hfs : 0 ≤ fsz) (Hin : addr + fsz ≤ sz).

Definition from_file (i : Z) (img : Z → Z) : Z → Z := λ va,
  if bool_decide (addr + i ≤ va < addr + fsz) then data !!! Z.to_nat (off + (va - addr)) else img va.

Definition chunk (i : Z) : Z := if bool_decide (fsz - i < PGSIZE) then fsz - i else PGSIZE.
Lemma chunk_range i : i < fsz → 0 < chunk i ≤ PGSIZE ∧ chunk i ≤ fsz - i ∧ (chunk i < PGSIZE → chunk i = fsz - i).
Proof using. intros Hi. unfold chunk. case_bool_decide; unfold PGSIZE in *; lia. Qed.

(** One turn of the loop. *)
Lemma loaduvm_turn i img fs s : FS fs → loaded s fl d sz img → 0 ≤ i < fsz → i `mod` PGSIZE = 0 → off + i < 2^32 →
  ∃ fs1 s1, FS fs1 ∧ space kend s1 fl d ∧ moved s fl d s1 fl ∧
    (Z.of_nat (length data) < off + fsz ∧ (∀ fuel, loaduvm_loop havedisk1 devread (S fuel) d addr ip off fsz i (mkxs fs s p) = Ok (-1, mkxs fs1 s1 p)) ∨
     off + i + chunk i ≤ Z.of_nat (length data) ∧
     loaded s1 fl d sz (λ va, if bool_decide (addr + i ≤ va < addr + i + chunk i) then data !!! Z.to_nat (off + (va - addr)) else img va) ∧
     ∀ fuel, loaduvm_loop havedisk1 devread (S fuel) d addr ip off fsz i (mkxs fs s p) =
       loaduvm_loop havedisk1 devread fuel d addr ip off fsz (i + PGSIZE) (mkxs fs1 s1 p)).
Proof using All.
  intros HFS L Hi Him Hoi. pose proof (ld_space _ _ _ _ _ L) as H. pose proof (ld_sz _ _ _ _ _ L) as Hsz. destruct (up_range sz) as [Hup Hum].
  destruct (chunk_range i ltac:(lia)) as (Hn & Hn1 & _). set (n := chunk i) in *.
  assert ((addr + i) `mod` PGSIZE = 0) as Hal' by (clear -Hal Him; unfold PGSIZE in *; dlia). assert (0 ≤ addr + i < up sz) as Hva by lia.
  destruct (user_byte_frame _ _ _ _ (ld_img _ _ _ _ _ L (addr + i) Hva)) as (Hp & _).
  pose proof (pde_of_pte _ _ _ Hp) as Hd. assert (0 ≤ addr + i < 2^32) as Hva32 by (unfold KERNBASE in *; lia).
  pose proof (walk_present kend s fl d (addr + i) false (as_pt _ _ _ _ H) ltac:(lia) Hd) as Hw.
  destruct (pte_write kend s fl d (addr + i) 0 (as_pt _ _ _ _ H) Hva32 ltac:(lia) Hd) as (b0 & Hb0 & Hg0 & Hw0 & _).
  pose proof (read_word_run s _ _ _ Hb0 Hg0 (PTX_range (addr + i) ltac:(lia))) as Hrw. rewrite Hw0 in Hrw.
  destruct (rd_readi (FileReader := Hfr) fs (off + i) n HFS ltac:(lia) ltac:(unfold PGSIZE in *; lia)) as (fs1 & Hr & HFS1).
  destruct (read_at_bytes (off + i) n ltac:(lia) ltac:(lia)) as [Hbs Hbl]. destruct (read_at data (off + i) n) as [r bs] eqn:Era. cbn [snd] in Hbs, Hbl.
  destruct (loaded_write s fl d sz img (addr + i) bs L Hva Hal' ltac:(unfold PGSIZE in *; lia) Hbs) as (b & Hb & Hlb & Hsp & Hf1 & L').
  set (f := frame (pages s) d (addr + i)) in *. assert (get_page f s = Ok (b, s)) as Hget by (unfold get_page; by rewrite Hb).
  assert (∀ fuel, loaduvm_loop havedisk1 devread (S fuel) d addr ip off fsz i (mkxs fs s p) =
    (if bool_decide (r ≠ n) then mret (-1) else loaduvm_loop havedisk1 devread fuel d addr ip off fsz (i + PGSIZE)) (mkxs fs1 (set_page f (splice b 0 bs) s) p)) as Hrun.
  { intros fuel. cbn [loaduvm_loop]. rewrite bool_decide_eq_true_2 by lia. rewrite (u32_small (addr + i)) by lia.
    rewrite (bind_ok _ _ _ _ _ (on_mem_ok _ (mkxs fs s p) _ _ Hw)). cbv beta iota. cbn [xfs xmem xproc].
    rewrite (bind_ok _ _ _ _ _ (on_mem_ok _ (mkxs fs s p) _ _ Hrw)). cbn [xfs xmem xproc]. rewrite !(u32_small (fsz - i)) by (unfold KERNBASE in *; lia).
    fold (chunk i). fold n. rewrite (u32_small (off + i)) by lia. rewrite (u32_small (i + PGSIZE)) by (unfold KERNBASE, PGSIZE in *; lia). rewrite (bind_ok _ _ _ _ _ (on_fsys_ok _ (mkxs fs s p) _ _ Hr)). cbn [xfs xmem xproc]. cbv beta iota.
    change (P2V (PTE_ADDR (pte_at (pages s) d (addr + i)))) with f. rewrite (bind_ok _ _ _ _ _ (on_mem_ok _ (mkxs fs1 s p) _ _ Hget)). cbn [xfs xmem xproc].
    unfold lift at 1. rewrite store_bytes_ok by (unfold PGSIZE in *; lia).
    rewrite (bind_ok _ _ _ (splice b 0 bs) (mkxs fs1 s p)) by done. by rewrite (bind_ok _ _ _ _ _ (on_mem_ok _ (mkxs fs1 s p) _ _ (put_page_run s f _ b Hb))). }
  exists fs1, (set_page f (splice b 0 bs) s). split_and!; [done|apply L'| |].
  { split; [intros q; by rewrite Hsp|]. intros q _ Hq. cbn [pages set_page]. rewrite lookup_insert_ne; [done|]. by intros <-. }
  destruct (decide (r = n)) as [->|Hrn].
  2:{ left. split; [|intros fuel; rewrite Hrun; by rewrite bool_decide_eq_true_2]. eapply Z.lt_le_trans; [apply (read_at_short (off + i) n)|]; [lia|lia|by rewrite Era|lia]. }
  right.
  destruct (read_at_whole (off + i) n ltac:(lia) ltac:(unfold PGSIZE in *; lia)) as [Hend E]; [by rewrite Era|]. rewrite Era in E. injection E as ->.
  split_and!; [done| |intros fuel; rewrite Hrun; by rewrite bool_decide_eq_false_2 by tauto].
  eapply loaded_ext; [|exact L']. intros va _. cbv beta. clear L' Hrun. rewrite length_slice by lia. rewrite Z2Nat.id by lia. case_bool_decide as Hc; [|done].
  symmetry. apply list_lookup_total_correct. rewrite lookup_slice by lia. rewrite <- (list_lookup_lookup_total_lt data) by lia. f_equal. lia.
Qed.

Lemma loaduvm_loop_run fuel i img fs s : FS fs → loaded s fl d sz img → 0 ≤ i → i `mod` PGSIZE = 0 → (i = 0 ∨ fsz ≤ i ∨ off + i ≤ Z.of_nat (length data)) →
  (0 < fuel)%nat → fsz - i ≤ PGSIZE * (Z.of_nat fuel - 1) →
  ∃ r fs' s', loaduvm_loop havedisk1 devread fuel d addr ip off fsz i (mkxs fs s p) = Ok (r, mkxs fs' s' p) ∧ FS fs' ∧ space kend s' fl d ∧
    moved s fl d s' fl ∧ (r = 0 ∨ r = -1 ∧ i < fsz ∧ Z.of_nat (length data) < off + fsz) ∧ (r = 0 → (i < fsz → off + fsz ≤ Z.of_nat (length data)) ∧ loaded s' fl d sz (from_file i img)).
Proof using All.
  revert i img fs s. induction fuel as [|fuel IH]; intros i img fs s HFS L Hi Him Hread Hfu Hf; [lia|].
  destruct (decide (i < fsz)) as [Hlt|Hge].
  2:{ cbn [loaduvm_loop]. rewrite bool_decide_eq_false_2 by done. exists 0, fs, s. split_and!; [done|done|apply L|apply moved_refl|by left|]. intros _. split; [lia|].
      eapply loaded_ext; [|exact L]. intros va _. unfold from_file. by rewrite bool_decide_eq_false_2 by lia. }
  pose proof (rd_size (FileReader := Hfr)) as Hdl. destruct (chunk_range i Hlt) as (Hn & Hn1 & Hn2).
  destruct (loaduvm_turn i img fs s HFS L ltac:(lia) Him ltac:(lia)) as (fs1 & s1 & HFS1 & H1 & M1 & [(Hsh & Hrun)|(Hend & L1 & Hrun)]).
  - exists (-1), fs1, s1. split_and!; [apply Hrun|done|done|done|by right|done].
  - destruct (IH (i + PGSIZE) _ fs1 s1 HFS1 L1) as (r & fs2 & s2 & Hrun2 & HFS2 & H2 & M2 & Hr2 & Hfin).
    + unfold PGSIZE; lia.
    + clear -Him. unfold PGSIZE in *. dlia.
    + lia.
    + unfold PGSIZE in *; lia.
    + unfold PGSIZE in *; lia.
    + exists r, fs2, s2. rewrite Hrun. split_and!; [done|done|done|by eapply moved_trans|destruct Hr2 as [?|(? & ? & ?)]; [by left|by right]|]. intros Hr0. destruct (Hfin Hr0) as [F1 F2]. split; [lia|].
      eapply loaded_ext; [|exact F2]. intros va _. unfold from_file. repeat case_bool_decide; try done; lia.
Qed.
End loaduvm.

Lemma loaduvm_run fl d sz addr off fsz p img fs s : FS fs → loaded s fl d sz img → 0 ≤ addr → addr `mod` PGSIZE = 0 → 0 ≤ off < 2^32 → 0 ≤ fsz → addr + fsz ≤ sz →
  ∃ r fs' s', loaduvm havedisk1 devread d addr ip off fsz (mkxs fs s p) = Ok (r, mkxs fs' s' p) ∧ FS fs' ∧ space kend s' fl d ∧
    moved s fl d s' fl ∧ (r = 0 ∨ r = -1 ∧ 0 < fsz ∧ Z.of_nat (length data) < off + fsz) ∧ (r = 0 → (0 < fsz → off + fsz ≤ Z.of_nat (length data)) ∧ loaded s' fl d sz (from_file addr off fsz 0 img)).
Proof using All.
  intros HFS L Ha Hal Hoff Hfs Hin. unfold loaduvm. rewrite bool_decide_eq_false_2 by tauto.
  apply loaduvm_loop_run; try done; [by left|lia|]. rewrite !Nat2Z.inj_succ, Z2Nat.id by (unfold PGSIZE; dlia). unfold PGSIZE. dlia.
Qed.

Lemma load_ok_range n buf off : (0 ≤ off) → off + Z.of_nat n ≤ Z.of_nat (length buf) → Forall byte_ok buf →
  ∃ w, load n buf off = Ok w ∧ 0 ≤ w < 2 ^ (8 * Z.of_nat n).
Proof using.
  intros H1 H2 H3. unfold load. rewrite load_bytes_ok by done. eexists. split; [done|].
  pose proof (le_val_range (slice buf (Z.to_nat off) n) (slice_forall _ _ _ _ H3)) as Hr. by rewrite length_slice in Hr by lia.
Qed.
(** A header that was read is a header. *)
Lemma header_read off : (read_at data (u32 off) proghdr_size).1 = proghdr_size →
  ∃ ph, load_proghdr (read_at data (u32 off) proghdr_size).2 = Ok ph ∧ 0 ≤ ph_off ph < 2^32 ∧ 0 ≤ ph_vaddr ph < 2^32 ∧
    0 ≤ ph_filesz ph < 2^32 ∧ 0 ≤ ph_memsz ph < 2^32.
Proof using Hfr.
  intros E. destruct (read_at_whole (u32 off) proghdr_size ltac:(unfold u32; apply Z.mod_pos_bound; lia) ltac:(unfold proghdr_size; lia) E) as [Hend Er].
  pose proof (Z.mod_pos_bound off (2^32) ltac:(lia)) as Hm. fold (u32 off) in Hm.
  rewrite Er. cbn [snd]. set (b := slice data (Z.to_nat (u32 off)) (Z.to_nat proghdr_size)).
  assert (length b = 32%nat) as Hb by (apply length_slice; unfold proghdr_size in *; lia). assert (Forall byte_ok b) as Hok by (apply slice_forall, Hfr).
  unfold load_proghdr.
  assert (∀ o, 0 ≤ o → o + 4 ≤ 32 → ∃ w, load 4 b o = Ok w ∧ 0 ≤ w < 2^32) as Hw by (intros o H1 H2; apply (load_ok_range 4); [done|lia|done]).
  destruct (Hw 0 ltac:(lia) ltac:(lia)) as (w1 & -> & _). destruct (Hw 4 ltac:(lia) ltac:(lia)) as (w2 & -> & H2). destruct (Hw 8 ltac:(lia) ltac:(lia)) as (w3 & -> & H3).
  destruct (Hw 16 ltac:(lia) ltac:(lia)) as (w4 & -> & H4). destruct (Hw 20 ltac:(lia) ltac:(lia)) as (w5 & -> & H5).
  eexists. split; [reflexivity|]. done.
Qed.

Lemma elf_image_size n : ∀ off sz img sz' img', elf_image n data off sz img = Some (sz', img') → sz ≤ sz'.
Proof using.
  induction n as [|n IH]; intros off sz img sz' img'; cbn [elf_image]; [by intros [= -> _]|]. destruct (read_at data (u32 off) proghdr_size) as [r b].
  destruct (load_proghdr b) as [ph|]; [|done]. case_bool_decide; [done|]. case_bool_decide; [by apply IH|]. cbv zeta. case_bool_decide; [|done]. intros Hi%IH. lia.
Qed.

(** Too few pages for a program of [sz] bytes; the directory and the tables are
    counted at their most. *)
Definition short_of (s : kmem) (fl : list Z) (d sz : Z) : Prop :=
  ∀ L, NoDup L → (∀ q, q ∈ L → q ∈ fl ∨ space_page s d q) → Z.of_nat (length L) ≤ 2050 + up sz / PGSIZE.
Lemma short_moved s fl d s1 fl1 sz : moved s fl d s1 fl1 → short_of s1 fl1 d sz → short_of s fl d sz.
Proof using. intros [M _] H L Hn Hin. apply H; [done|]. intros q Hq. by apply M, Hin. Qed.

Lemma load_segment_run ph fs s fl d sz img p : FS fs → loaded s fl d sz img → 0 ≤ ph_off ph < 2^32 → 0 ≤ ph_vaddr ph < 2^32 →
  0 ≤ ph_filesz ph < 2^32 → 0 ≤ ph_memsz ph < 2^32 → let newsz := Z.max sz (ph_vaddr ph + ph_memsz ph) in
  ∃ res fs' s' fl', load_segment kend havedisk1 devread ph d ip sz (mkxs fs s p) = Ok (res, mkxs fs' s' p) ∧ FS fs' ∧ space kend s' fl' d ∧
    moved s fl d s' fl' ∧
    match res with
    | None => segment_ok data ph → newsz ≠ 0 → short_of s fl d newsz
    | Some sz' => sz' = newsz ∧ segment_ok data ph ∧ newsz ≠ 0 ∧ loaded s' fl' d newsz (put_segment data ph img)
    end.
Proof using All.
  intros HFS L Po Pv Pf Pm newsz. unfold load_segment.
  assert (¬ segment_ok data ph → ∃ res fs' s' fl', (mret None : M xstate (option Z)) (mkxs fs s p) = Ok (res, mkxs fs' s' p) ∧ FS fs' ∧ space kend s' fl' d ∧
    moved s fl d s' fl' ∧ match res with
      | None => segment_ok data ph → newsz ≠ 0 → short_of s fl d newsz
      | Some sz' => sz' = newsz ∧ segment_ok data ph ∧ newsz ≠ 0 ∧ loaded s' fl' d newsz (put_segment data ph img) end) as Hbad.
  { intros Hno. exists None, fs, s, fl. split_and!; [done|done|apply L|apply moved_refl|done]. }
  destruct (decide (ph_memsz ph < ph_filesz ph)) as [Hms|Hms]; [rewrite (bool_decide_eq_true_2 (_ < ph_filesz ph)) by done; apply Hbad; intros (? & _); lia|].
  rewrite (bool_decide_eq_false_2 (_ < ph_filesz ph)) by done.
  destruct (decide (u32 (ph_vaddr ph + ph_memsz ph) < ph_vaddr ph)) as [Hov|Hov].
  { rewrite (bool_decide_eq_true_2 (u32 _ < _)) by done. apply Hbad. intros (_ & Hk & _). rewrite u32_small in Hov by (unfold KERNBASE in *; lia). lia. }
  rewrite (bool_decide_eq_false_2 (u32 _ < _)) by done.
  assert (u32 (ph_vaddr ph + ph_memsz ph) = ph_vaddr ph + ph_memsz ph) as Eu by (unfold u32 in *; apply Z.mod_small; dlia). rewrite Eu in *.
  destruct (alloc_step s fl d sz img (ph_vaddr ph + ph_memsz ph) L ltac:(lia)) as (r & s1 & fl1 & Ha & M1 & H1 & HL1 & HF1).
  rewrite (bind_ok _ _ _ _ _ (on_mem_ok _ (mkxs fs s p) _ _ Ha)). cbn [xfs xmem xproc]. destruct (decide (r = 0)) as [->|Hr0].
  { rewrite (bool_decide_eq_true_2 (0 = 0)) by done. exists None, fs, s1, fl1. split_and!; [done|done|done|done|].
    intros (_ & Hk & _) Hz Lq Hnd Hin. destruct (HF1 eq_refl) as [?|[?|Hlen]]; [lia|done|].
    pose proof (loaded_count s fl d sz img Lq L Hnd Hin) as Hc. pose proof (up_le (ph_vaddr ph + ph_memsz ph) newsz ltac:(lia)). lia. }
  rewrite (bool_decide_eq_false_2 (r = 0)) by done. destruct (HL1 Hr0) as (Hk & -> & L1). destruct (decide (ph_vaddr ph `mod` PGSIZE = 0)) as [Hal|Hal].
  2:{ rewrite (bool_decide_eq_true_2 (_ `mod` _ ≠ 0)) by done. exists None, fs, s1, fl1. split_and!; [done|done|done|done|]. by intros (_ & _ & ? & _). }
  rewrite (bool_decide_eq_false_2 (_ `mod` _ ≠ 0)) by tauto.
  destruct (loaduvm_run fl1 d _ (ph_vaddr ph) (ph_off ph) (ph_filesz ph) p img fs s1 HFS L1 ltac:(lia) Hal Po ltac:(lia) ltac:(lia)) as (r2 & fs2 & s2 & Hlu & HFS2 & H2 & M2 & Hr2 & HL2).
  mstep Hlu. assert (moved s fl d s2 fl1) as M12 by (by eapply moved_trans). destruct Hr2 as [->|(-> & Hpos & Hshort)].
  2:{ rewrite (bool_decide_eq_true_2 (-1 < 0)) by lia. exists None, fs2, s2, fl1. split_and!; [done|done|done|done|]. intros (_ & _ & _ & Hx). lia. }
  rewrite (bool_decide_eq_false_2 (0 < 0)) by lia. destruct (HL2 eq_refl) as [Hend L2].
  exists (Some newsz), fs2, s2, fl1. split_and!; [done|done|done|done|done|split_and!; [lia|done|done|done]|done|].
  eapply loaded_ext; [|exact L2]. intros va _. unfold put_segment, from_file. by rewrite Z.add_0_r.
Qed.

(** [load_segments] loads the image the headers describe.  It fails if they
    describe none, or for want of memory. *)
Lemma load_segments_run n off fs s fl d sz img p : FS fs → loaded s fl d sz img →
  ∃ res fs' s' fl', load_segments kend havedisk1 devread n d ip off sz (mkxs fs s p) = Ok (res, mkxs fs' s' p) ∧ FS fs' ∧ space kend s' fl' d ∧
    moved s fl d s' fl' ∧
    match res with
    | None => ∀ sz' img', elf_image n data off sz img = Some (sz', img') → short_of s fl d sz'
    | Some sz' => ∃ img', elf_image n data off sz img = Some (sz', img') ∧ loaded s' fl' d sz' img'
    end.
Proof using All.
  revert off fs s fl sz img. induction n as [|n IH]; intros off fs s fl sz img HFS L; cbn [load_segments elf_image].
  { exists (Some sz), fs, s, fl. split_and!; [done|done|apply L|apply moved_refl|by exists img]. }
  destruct (rd_readi (FileReader := Hfr) fs (u32 off) proghdr_size HFS ltac:(unfold u32; apply Z.mod_pos_bound; lia) ltac:(unfold proghdr_size; lia)) as (fs1 & Hr & HFS1).
  rewrite (bind_ok _ _ _ _ _ (on_fsys_ok _ (mkxs fs s p) _ _ Hr)). cbn [xfs xmem xproc]. pose proof (header_read off) as Hph.
  destruct (read_at data (u32 off) proghdr_size) as [r b]. cbn [fst snd] in *. cbv beta iota zeta. clear Hr.
  destruct (decide (r = proghdr_size)) as [->|Hrn].
  2:{ rewrite !(bool_decide_eq_true_2 (r ≠ _)) by done. exists None, fs1, s, fl. split_and!; [done|done|apply L|apply moved_refl|]. intros sz' img'. by destruct (load_proghdr b). }
  rewrite !(bool_decide_eq_false_2 (proghdr_size ≠ _)) by tauto. destruct (Hph eq_refl) as (ph & Hl & Po & Pv & Pf & Pm). rewrite Hl.
  rewrite (bind_ok _ _ _ ph (mkxs fs1 s p)) by done. case_bool_decide as Hty; [by apply IH|].
  destruct (load_segment_run ph fs1 s fl d sz img p HFS1 L Po Pv Pf Pm) as (res & fs2 & s2 & fl2 & Hrun & HFS2 & H2 & M2 & Hres). mstep Hrun. destruct res as [newsz|].
  - destruct Hres as (-> & Hseg & Hz & L2). rewrite (bool_decide_eq_true_2 (segment_ok data ph ∧ _)) by done.
    destruct (IH (off + proghdr_size) fs2 s2 fl2 _ _ HFS2 L2) as (res & fs' & s' & fl' & Hrun' & HFS' & H' & M' & Hres).
    exists res, fs', s', fl'. split_and!; [done|done|done|by eapply moved_trans|]. destruct res as [sz'|]; [done|]. intros sz' img' Hi. eapply short_moved; [exact M2|]. by eapply Hres.
  - exists None, fs2, s2, fl2. split_and!; [done|done|done|done|]. intros sz' img'. case_bool_decide as Hseg; [|done]. intros Hsz%elf_image_size Lq Hnd Hin.
    pose proof (Hres (proj1 Hseg) (proj2 Hseg) Lq Hnd Hin). pose proof (up_le _ _ Hsz). lia.
Qed.
End reader.

(** ** The stack on top of the image *)
Lemma space_reflag s1 fl d a t b : space kend s1 fl d → 0 ≤ a < KERNBASE → reflagged kend s1 d a t b → pt_wf kend (set_page t b s1) fl d →
  space kend (set_page t b s1) fl d ∧ (∀ q, space_page (set_page t b s1) d q ↔ space_page s1 d q).
Proof.
  intros H Ha [Ho Htd (g & Hg & Hpa & Hpte)] W. destruct (guard_pte kend g Hg) as (_ & Hp3 & _). destruct (pde_for_val kend g Hg) as (Ev & _ & Hp7 & Hb7). rewrite Ev in Hp7, Hb7.
  assert (P2V (PTE_ADDR (V2P g + 3)) = g) as Hb3.
  { destruct (frame_val kend g Hg) as (k & Hk & Hkr & Hkb). rewrite Hk. rewrite PTE_ADDR_val by lia. replace ((4096 * k + 3) / 4096) with k by dlia. done. }
  assert (∀ va, 0 ≤ va < KERNBASE → present (pte_at (pages (set_page t b s1)) d va) = present (pte_at (pages s1) d va) ∧ frame (pages (set_page t b s1)) d va = frame (pages s1) d va) as Hsame.
  { intros va Hva. unfold frame. cbn [pages set_page]. rewrite Hpte by (unfold KERNBASE in *; lia). case_bool_decide as E; [|done].
    rewrite (pte_same_page _ _ va a) by (done || (unfold KERNBASE in *; lia)). rewrite Hpa, Hp3, Hp7, Hb3, Hb7. done. }
  assert (∀ va, user_at (pages (set_page t b s1)) d va ↔ user_at (pages s1) d va) as Hu.
  { intros va. unfold user_at. split; intros [Hr Hp]; (split; [done|]); by rewrite (proj1 (Hsame va Hr)) in *. }
  assert (∀ q, owns (pages (set_page t b s1)) d q ↔ owns (pages s1) d q) as Hown.
  { intros q. apply owns_ext. intros i _. by apply pde_at_ne. }
  split; [split|].
  - done.
  - apply H.
  - intros i Hi. cbn [pages set_page]. rewrite pde_at_ne, table_of_ne by done. by apply (as_tab _ _ _ _ H).
  - intros va Hv. rewrite (proj2 (Hsame va (proj1 Hv))). apply Hu in Hv. destruct (as_user _ _ _ _ H va Hv) as (U1 & (c & U2 & U2') & U3 & U4).
    split_and!; [done| |done|by rewrite Hown]. exists c. split; [|done]. cbn [pages set_page]. rewrite lookup_insert_ne; [done|]. intros E. apply U4. by rewrite <- E.
  - intros v v' Hv Hv'. rewrite (proj2 (Hsame v (proj1 Hv))), (proj2 (Hsame v' (proj1 Hv'))). apply Hu in Hv, Hv'. by apply (as_inj _ _ _ _ H).
  - intros q. unfold space_page. rewrite Hown. split; (intros [?|(va & Hv & ->)]; [by left|right; exists va; split; [by apply Hu|]]); [by apply Hsame, Hv|symmetry; by apply Hsame, Hv].
Qed.

Lemma up_up sz : up (up sz) = up sz.
Proof. unfold up, PGSIZE. dlia. Qed.

(** A program ready to run with the arguments [argv]: its image below [up sz], a
    page without access, the stack. *)
Record ready (s : kmem) (fl : list Z) (d sz : Z) (img : Z → Z) (argv : list (list Z)) (top sp : Z) : Prop := {
  re_space : space kend s fl d;
  re_top : top = up sz + 2 * PGSIZE ∧ top < KERNBASE ∧ 0 ≤ sz;
  re_sp : top - PGSIZE ≤ sp < top ∧ sp `mod` 4 = 0;
  re_img : ∀ va, 0 ≤ va < up sz → user_byte (pages s) d va = Some (img va);
  re_guard : ∀ va, up sz ≤ va < up sz + PGSIZE → user_frame (pages s) d va = None;
  re_stack : ∃ mem b, stack_page kend s fl d (top - PGSIZE) mem b ∧ ∀ s2 fl2, stack_page kend s2 fl2 d (top - PGSIZE) mem b →
    main_argv (pages s2) d sp = Some argv ∧ user_word (pages s2) d sp = Some 4294967295 }.

(** Writing the stack page changes nothing else of the program. *)
Lemma stack_written s1 fl d top img t b mem b0 b' : loaded s1 fl d top img → top `mod` PGSIZE = 0 → 2 * PGSIZE ≤ top → reflagged kend s1 d (top - 2 * PGSIZE) t b →
  stack_page kend (set_page t b s1) fl d (top - PGSIZE) mem b0 → page_good b' →
  let s3 := set_page mem b' (set_page t b s1) in
  space kend s3 fl d ∧ moved s1 fl d s3 fl ∧ ∀ va, 0 ≤ va < top - 2 * PGSIZE → user_byte (pages s3) d va = Some (img va).
Proof.
  intros L Htm Ht0 Hrf Hst Hg s3. pose proof (ld_sz _ _ _ _ _ L) as Hsz. pose proof (sp_free _ _ _ _ _ _ _ Hst) as Hmf. pose proof (sp_foreign _ _ _ _ _ _ _ Hst) as Hmo.
  destruct (space_reflag s1 fl d (top - 2 * PGSIZE) t b (ld_space _ _ _ _ _ L) ltac:(unfold PGSIZE in *; lia) Hrf (sp_wf _ _ _ _ _ _ _ Hst)) as [H2 Hsp2]. set (s2 := set_page t b s1) in *.
  destruct (pde_for_val kend mem (sp_ok _ _ _ _ _ _ _ Hst)) as (Ev & _ & Hp7 & Hb7). rewrite Ev in Hp7, Hb7.
  assert (user_at (pages s2) d (top - PGSIZE) ∧ frame (pages s2) d (top - PGSIZE) = mem) as [Hum Hfm].
  { unfold user_at, frame. rewrite (sp_pte _ _ _ _ _ _ _ Hst) by (unfold PGSIZE; lia). rewrite Hp7. split; [split; [unfold PGSIZE in *; lia|done]|done]. }
  destruct (space_set kend s2 fl d mem b' H2 Hg Hmf Hmo) as (H3 & Hpte3 & _). split_and!; [done|split|].
  - intros q. unfold s3. by rewrite (space_page_set kend s2 fl d mem b' H2 Hg Hmf Hmo), Hsp2.
  - intros q Hq Hs. cbn [s3 s2 pages set_page]. rewrite !lookup_insert_ne; [done| |].
    + intros <-. apply Hs. left. apply Hrf.
    + intros <-. apply Hs, Hsp2. right. by exists (top - PGSIZE).
  - intros va Hva. destruct (up_range top) as [Hup _]. pose proof (ld_img _ _ _ _ _ L va ltac:(unfold PGSIZE in *; lia)) as Hb. rewrite <- Hb.
    assert (0 ≤ va < KERNBASE ∧ va < 2^32) as [Hvk Hv32] by (unfold KERNBASE, PGSIZE in *; lia). destruct (user_byte_frame _ _ _ _ Hb) as (Hp & _).
    destruct (as_user _ _ _ _ (ld_space _ _ _ _ _ L) va (conj Hvk Hp)) as (_ & _ & _ & Hno).
    assert (pte_at (pages s2) d va = pte_at (pages s1) d va) as Epte.
    { destruct (rf_pte _ _ _ _ _ _ Hrf) as (g & _ & _ & Hpte). cbn [s2 pages set_page]. rewrite Hpte by lia. rewrite bool_decide_eq_false_2; [done|].
      clear -Hva Htm. unfold page_of, PGSIZE in *. dlia. }
    transitivity (user_byte (pages s2) d va); apply user_byte_ext.
    + apply Hpte3. lia.
    + cbn [s3 pages set_page]. rewrite lookup_insert_ne; [done|]. rewrite <- Hfm. intros E.
      assert (user_at (pages s2) d va) as Hu2 by (split; [done|by rewrite Epte]). pose proof (as_inj _ _ _ _ H2 _ _ Hum Hu2 E) as Ep.
      clear -Ep Hva Htm. unfold page_of, PGSIZE in *. dlia.
    + done.
    + cbn [s2 pages set_page]. rewrite lookup_insert_ne; [done|]. intros E. apply Hno. rewrite <- E. apply Hrf.
Qed.

(** Room for the arguments on the stack page of a program that ends at [top]. *)
Definition args_fit (top : Z) (argv : list (list Z)) : Prop :=
  (length argv ≤ EXEC_MAXARG)%nat ∧ top - PGSIZE ≤ args_sp top argv - 4 * (4 + Z.of_nat (length argv)).
#[export] Instance args_fit_dec top argv : Decision (args_fit top argv).
Proof. unfold args_fit. apply _. Defined.
Lemma build_stack_total s fl d sz img argv : loaded s fl d sz img → Forall (λ a, cstr_ok a ∧ Z.of_nat (length a) < PGSIZE) argv →
  ∃ res s' fl', build_stack kend argv d sz s = Ok (res, s') ∧ space kend s' fl' d ∧ moved s fl d s' fl' ∧
    match res with
    | None => up sz + 2 * PGSIZE < KERNBASE → args_fit (up sz + 2 * PGSIZE) argv → (length fl ≤ 1027)%nat
    | Some (top, sp) => ready s' fl' d sz img argv top sp
    end.
Proof using Hkend.
  intros L [Hok Hshort]%Forall_and. pose proof L as [H Hsz Himg Htp]. destruct (up_range sz) as [Hup Hum].
  destruct (top_range sz ltac:(lia)) as (Htop0 & Htopm & Eup & Etop & En & Ea). fold (up sz) in *. set (top := up sz + 2 * PGSIZE) in *.
  assert (top < 2^32) as Ht32 by (unfold top, KERNBASE, PGSIZE in *; dlia). unfold build_stack. cbv zeta. rewrite (Eup Ht32), (Etop Ht32).
  destruct (decide (KERNBASE ≤ top)) as [Hbig|Hsmall].
  { assert (allocuvm kend d (top - 2 * PGSIZE) top s = Ok (0, s)) as Hr by (unfold allocuvm; by rewrite bool_decide_eq_true_2).
    mstep Hr. exists None, s, fl. split_and!; [done|done|apply moved_refl|lia]. }
  assert (top - 2 * PGSIZE = up sz) as Et by (unfold top; lia).
  destruct (allocuvm_total kend Hkend s fl d (top - 2 * PGSIZE) top H ltac:(unfold PGSIZE in *; lia) ltac:(lia)) as [(s1 & fl1 & Hr1 & G)|(s1 & fl1 & Hr1 & U & Hlen)].
  { rewrite Ea, En. intros va Hva. apply Htp. unfold PGSIZE in *. lia. }
  2:{ mstep Hr1. exists None, s1, fl1. split_and!; [done|apply U|apply U|]. intros _ _. rewrite Ea, En in Hlen. lia. }
  assert (loaded s fl d (up sz) img) as Lu by (split; rewrite ?up_up; try done; unfold PGSIZE in *; lia).
  assert (loaded s1 fl1 d top img ∧ moved s fl d s1 fl1) as [L1 M1].
  { eapply loaded_grow; [exact Lu|unfold PGSIZE in *; lia|]. rewrite up_up. rewrite Et in *. fold (up (up sz)) in G. rewrite up_up in G. exact G. }
  rewrite Ea, En in G. destruct (stack_of_grown kend s fl d top s1 fl1 (fr_ok _ _ _ (pt_free _ _ _ _ (as_pt _ _ _ _ H))) Htopm ltac:(lia) G)
    as (t & b & mem & Hr2 & Hrf & Hst & Hgu & Hfr & Hm).
  mstep Hr1. rewrite bool_decide_eq_false_2 by (unfold PGSIZE in *; lia). mstep Hr2.
  pose proof (λ b', stack_written s1 fl1 d top img t b mem _ b' L1 Htopm Htop0 Hrf Hst) as Hw. set (s2 := set_page t b s1) in *.
  destruct (decide (args_fit top argv)) as [[Hmax Hfit]|Hno].
  - destruct (push_frame_fits kend s2 fl1 d top mem argv Hst Hgu ltac:(lia) Hok Hmax Hfit) as (b' & Hg' & Hr3 & Hsee).
    destruct (Hw b' Hg') as (H3 & M3 & Hi3). eexists (Some (_, _)), _, fl1. split; [exact Hr3|]. split; [done|]. split; [by eapply moved_trans|].
    cbv beta iota. split; [done|split_and!; [done|lia|lia]| | | |].
    + pose proof (args_sp_aligned top argv ltac:(clear -Htopm; unfold PGSIZE in *; dlia)) as H4. pose proof (args_sp_le top argv). split; [lia|]. clear -H4. dlia.
    + intros va Hva. apply Hi3. lia.
    + intros va Hva. destruct (guarded_set kend _ _ _ _ _ _ _ Hst Hg' Hgu) as [_ Hn]. apply Hn. lia.
    + exists mem, b'. split; [by apply (stack_set kend s2 fl1 d _ mem (replicate 4096 0))|done].
  - destruct (push_frame_overflow kend s2 fl1 d top mem argv Hst Hgu ltac:(lia) Hok Hshort Hno) as (b' & Hg' & Hr3).
    destruct (Hw b' Hg') as (H3 & M3 & _). eexists None, _, fl1. split; [exact Hr3|]. split_and!; [done|by eapply moved_trans|done].
Qed.
End load.
