(* ===== verification/ExecClaims.v ===== *)
(** * exec as a whole

    [exec] from the system call to the new program: the parts of [ExecStack] and
    [ExecLoad] put together, and the file system opened and closed around them. *)
From stdpp Require Import base numbers list gmap sets strings.
From S2P Require Import Prelude Bytes XString Kalloc Vm VmFacts VmClaims VmSpace VmSetup Bio Log Fs Proc Exec ExecStack ExecLoad.
#[local] Open Scope Z_scope.

(** ** The name of the process *)
Definition base_name (path : list Z) : list Z := take 15 (last_elem path path).
Lemma last_elem_ok s l : cstr_ok s → cstr_ok l → cstr_ok (last_elem s l).
Proof.
  revert l. induction s as [|c s IH]; intros l Hs Hl; [done|]. apply Forall_cons in Hs as [Hc Hs]. cbn [last_elem]. apply IH; [done|]. by case_bool_decide.
Qed.
Definition name_string (n : list Z) : string := String.string_of_list_ascii (map (λ c, Ascii.ascii_of_N (Z.to_N c)) n).
Lemma exec_name_ok path : cstr_ok path → exec_name path = Ok (name_string (base_name path)).
Proof.
  intros Hp. pose proof (last_elem_ok path path Hp Hp) as Hl. unfold exec_name, base_name. cbv zeta. set (l := last_elem path path) in *.
  destruct (string_copies (replicate 16 0 ++ l ++ [0]) 0 16 16 l Hl) as (_ & Hs & _).
  - split; [lia|]. intros i b Hi. rewrite lookup_app_r by (rewrite length_replicate; lia). rewrite length_replicate. rewrite <- Hi. f_equal. lia.
  - lia.
  - rewrite !length_app, length_replicate. simpl. lia.
  - right. lia.
  - rewrite Hs by lia. change (Z.to_nat 0) with 0%nat. change (Z.to_nat (16 - 1)) with 15%nat.
    assert (∃ rest, splice (replicate 16 0 ++ l ++ [0]) 0 (take 15 (l ++ [0]) ++ [0]) = take 15 l ++ 0 :: rest) as [rest ->].
    { unfold splice. rewrite take_0, app_nil_l. destruct (decide (15 ≤ length l)%nat).
      - rewrite take_app_le by done. rewrite <- app_assoc. by eexists.
      - rewrite (take_ge (l ++ [0])) by (rewrite length_app; simpl; lia). rewrite (take_ge l) by lia. rewrite <- !app_assoc. by eexists. }
    simpl mbind. rewrite cstring_app by (by apply Forall_take). done.
Qed.

Section file.
Context (kend kdata : Z) (Hkend : KERNBASE < kend) (Hdal : kdata `mod` PGSIZE = 0) (Hdr : KERNLINK < kdata < KERNBASE + PHYSTOP).
Context (havedisk1 : bool) (devread : Z → option (nat → Z → M fstate (Z * list Z))).

(** What a failed [exec] leaves: the pages that were free are free, in some
    order, and no other page has changed. *)
Definition mem_restored (s : kmem) (fl : list Z) (s' : kmem) : Prop :=
  ∃ fl', pool kend s' fl' ∧ fl' ≡ₚ fl ∧ ∀ q, q ∉ fl → pages s' !! q = pages s !! q.
(** A state in the middle: a new address space made of free pages. *)
Record making (s : kmem) (fl : list Z) (s1 : kmem) (fl1 : list Z) (d : Z) : Prop := {
  mk_space : space kend s1 fl1 d;
  mk_all : ∀ q, (q ∈ fl1 ∨ space_page s1 d q) ↔ q ∈ fl;
  mk_frame : ∀ q, q ∉ fl → pages s1 !! q = pages s !! q }.

Lemma making_moved s fl s1 fl1 d s2 fl2 : making s fl s1 fl1 d → moved s1 fl1 d s2 fl2 → space kend s2 fl2 d → making s fl s2 fl2 d.
Proof.
  intros [A1 A2 A3] [B1 B2] H. split; [done| |].
  - intros q. by rewrite B1, A2.
  - intros q Hq. pose proof (proj1 (A2 q)) as Hn. rewrite B2 by tauto. by apply A3.
Qed.
Lemma making_free s fl s1 fl1 d : pool kend s fl → making s fl s1 fl1 d → ∃ s2, freevm kend d s1 = Ok (tt, s2) ∧ mem_restored s fl s2.
Proof using All.
  intros [Hf _] [A1 A2 A3]. destruct (freevm_run kend Hkend s1 fl1 d A1) as (s2 & freed & Hr & Hf2 & Hm & Hfr & Hg). exists s2. split; [done|].
  assert (∀ q, q ∈ freed ++ fl1 ↔ q ∈ fl) as Hall by (intros q; rewrite elem_of_app, Hm, <- A2; tauto).
  exists (freed ++ fl1). split_and!; [by split| |].
  - apply NoDup_Permutation; [apply Hf2|apply Hf|done].
  - intros q Hq. rewrite Hfr; [by apply A3|]. intros Hin. apply Hq, Hall, elem_of_app. by left.
Qed.

(** A program that is ready stays ready when other pages change. *)
Lemma ready_keep s fl d sz img argv top sp s' fl' : ready kend s fl d sz img argv top sp → (∀ q, space_page s d q → pages s' !! q = pages s !! q) →
  pool kend s' fl' → (∀ q, space_page s d q → q ∉ fl') → ready kend s' fl' d sz img argv top sp ∧ ∀ q, space_page s' d q ↔ space_page s d q.
Proof.
  intros [R1 R2 R3 R4 R5 (mem & b & Hst & Hsee)] Hsame Hp Hn. destruct (space_keep kend s fl d s' fl' R1 Hsame Hp Hn) as (H' & Hpte & Hown & Hsp).
  split; [|done]. destruct R2 as (Et & Htk & Hs0). pose proof (up_range sz) as [Hup _]. split; [done|done|done| | |].
  - intros va Hva. pose proof (R4 va Hva) as Hb. rewrite <- Hb. apply user_byte_ext; [apply Hpte; lia|]. apply Hsame. right. exists va.
    destruct (user_byte_frame _ _ _ _ Hb) as (Hpr & _). split; [split; [unfold PGSIZE in *; lia|done]|done].
  - intros va Hva. unfold user_frame. rewrite Hpte by lia. by apply R5.
  - exists mem, b. split; [|done]. destruct Hst as [S1 S2 S3 S4 S5 S6 S7 S8].
    assert (space_page s d mem) as Hmem.
    { right. exists (top - PGSIZE). pose proof (S3 (top - PGSIZE) ltac:(unfold PGSIZE; lia)) as E. destruct (pde_for_val kend mem S4) as (Ev & _ & Hp7 & Hb7).
      unfold user_at, frame. rewrite E, <- Ev. split; [split; [unfold PGSIZE in *; lia|done]|done]. }
    split; try done; [apply H'| | | |].
    + intros va Hva. rewrite Hpte by lia. by apply S3.
    + by rewrite Hsame.
    + by apply Hn.
    + by rewrite Hown.
Qed.

(** The entry of the process after the commit. *)
Definition started (p : proc) (d top entry sp : Z) (path : list Z) : proc :=
  mkproc top d (kstack p) (state p) (pid p) (parent p) (<[17%nat := sp]> (<[14%nat := entry]> (tf p))) (chan p) (killed p) (ofile p) (cwd p)
    (name_string (base_name path)) (priority p).

Lemma exec_commit_run fs s fl p s2 fl2 d sz img argv top sp entry path : cstr_ok path → kstack p ≠ 0 → d ≠ 0 → space kend s fl (Proc.pgdir p) →
  making s fl s2 fl2 d → ready kend s2 fl2 d sz img argv top sp →
  ∃ s3 fl3, exec_commit kend path d top entry sp (mkxs fs s2 p) = Ok (0, mkxs fs s3 (started p d top entry sp path)) ∧
    ready kend s3 fl3 d sz img argv top sp ∧ ∀ q, (q ∈ fl3 ∨ space_page s3 d q) ↔ (q ∈ fl ∨ space_page s (Proc.pgdir p) q).
Proof using All.
  intros Hpath Hks Hd Hold [A1 A2 A3] R. set (old := Proc.pgdir p) in *.
  assert (∀ q, space_page s old q → q ∉ fl) as Hofl by (intros q Hq; by apply (space_page_frame kend s fl old q)).
  destruct (space_keep kend s fl old s2 fl2 Hold) as (Hold2 & _ & _ & Hosp); [intros q Hq; apply A3; by apply Hofl|by eapply space_pool| |].
  { intros q Hq Hin. apply (Hofl q Hq), A2. by left. }
  destruct (freevm_run kend Hkend s2 fl2 old Hold2) as (s3 & freed & Hr & Hf3 & Hm & Hfr3 & Hg).
  assert (∀ q, space_page s2 d q → q ∉ freed) as Hdis by (intros q Hq; rewrite Hm, Hosp; intros Ho; apply (Hofl q Ho), A2; by right).
  destruct (ready_keep s2 fl2 d sz img argv top sp s3 (freed ++ fl2) R) as [R3 Hsp3]; [intros q Hq; by apply Hfr3, Hdis|by split| |].
  { intros q Hq. rewrite not_elem_of_app. split; [by apply Hdis|]. by apply (space_page_frame kend s2 fl2 d q). }
  exists s3, (freed ++ fl2). split_and!; [|done|].
  - unfold exec_commit. rewrite (bind_ok _ _ _ (name_string (base_name path)) (mkxs fs s2 p)) by (unfold lift; by rewrite exec_name_ok).
    rewrite (bind_ok _ _ _ p (mkxs fs s2 p)) by done. cbv zeta. rewrite (bind_ok _ _ _ tt (mkxs fs s2 (started p d top entry sp path))) by done.
    rewrite (bind_ok _ _ _ (started p d top entry sp path) (mkxs fs s2 (started p d top entry sp path))) by done. cbn [kstack Proc.pgdir started].
    rewrite (bool_decide_eq_false_2 (kstack p = 0)), (bool_decide_eq_false_2 (d = 0)) by done. rewrite (bind_ok _ _ _ tt (mkxs fs s2 (started p d top entry sp path))) by done.
    by rewrite (bind_ok _ _ _ _ _ (on_mem_ok _ (mkxs fs s2 (started p d top entry sp path)) _ _ Hr)).
  - intros q. rewrite Hsp3, elem_of_app, Hm, Hosp. pose proof (A2 q). tauto.
Qed.

Section body.
Context (ip : nat) (data : list Z) (FS CL : fstate → Prop) {Hfr : FileReader havedisk1 devread ip data FS}.
Context (Hclose : ∀ fs, FS fs → ∃ fs1 fs2, iunlockput havedisk1 ip fs = Ok (tt, fs1) ∧ on_log (end_op havedisk1) fs1 = Ok (tt, fs2) ∧ CL fs2).

Lemma bad_null fs s p : FS fs → ∃ fs2, exec_bad kend havedisk1 0 (Some ip) (mkxs fs s p) = Ok (-1, mkxs fs2 s p) ∧ CL fs2.
Proof using All.
  intros HFS. destruct (Hclose fs HFS) as (fs1 & fs2 & H1 & H2 & HC). exists fs2. split; [|done]. unfold exec_bad. rewrite bool_decide_eq_false_2 by tauto.
  rewrite (bind_ok _ _ _ tt (mkxs fs s p)) by done. rewrite (bind_ok _ _ _ tt (mkxs fs2 s p)); [done|].
  rewrite (bind_ok _ _ _ _ _ (on_fsys_ok _ (mkxs fs s p) _ _ H1)). cbn [xfs xmem xproc]. apply (on_fsys_ok _ (mkxs fs1 s p) _ _ H2).
Qed.
Lemma bad_dir fs s p d s2 : d ≠ 0 → freevm kend d s = Ok (tt, s2) → FS fs → ∃ fs2, exec_bad kend havedisk1 d (Some ip) (mkxs fs s p) = Ok (-1, mkxs fs2 s2 p) ∧ CL fs2.
Proof using All.
  intros Hd Hr HFS. destruct (Hclose fs HFS) as (fs1 & fs2 & H1 & H2 & HC). exists fs2. split; [|done]. unfold exec_bad. rewrite bool_decide_eq_true_2 by done.
  rewrite (bind_ok _ _ _ _ _ (on_mem_ok _ (mkxs fs s p) _ _ Hr)). cbn [xfs xmem xproc]. rewrite (bind_ok _ _ _ tt (mkxs fs2 s2 p)); [done|].
  rewrite (bind_ok _ _ _ _ _ (on_fsys_ok _ (mkxs fs s2 p) _ _ H1)). cbn [xfs xmem xproc]. apply (on_fsys_ok _ (mkxs fs1 s2 p) _ _ H2).
Qed.
Lemma bad_closed fs s p d s2 : d ≠ 0 → freevm kend d s = Ok (tt, s2) → exec_bad kend havedisk1 d None (mkxs fs s p) = Ok (-1, mkxs fs s2 p).
Proof using.
  intros Hd Hr. unfold exec_bad. rewrite bool_decide_eq_true_2 by done. by rewrite (bind_ok _ _ _ _ _ (on_mem_ok _ (mkxs fs s p) _ _ Hr)).
Qed.

(** ** The two ways it ends *)

(** The file is a program: its headers describe the image [img] of [sz] bytes. *)
Definition program (elf : elfhdr) (sz : Z) (img : Z → Z) : Prop :=
  (52 ≤ length data)%nat ∧ load_elfhdr (take 52 data) = Ok elf ∧ magic elf = ELF_MAGIC ∧
  elf_image (Z.to_nat (phnum elf)) data (phoff elf) 0 (λ _, 0) = Some (sz, img).
(** Failure leaves the process as it was, and happens only if the file is no
    program, the arguments do not fit, or memory is short. *)
Definition exec_post (s : kmem) (fl : list Z) (p : proc) (path : list Z) (argv : list (list Z)) (r : Z) (s' : kmem) (p' : proc) : Prop :=
  (r = -1 ∧ p' = p ∧ mem_restored s fl s' ∧
     ∀ elf sz img, program elf sz img → up sz + 2 * PGSIZE < KERNBASE → args_fit (up sz + 2 * PGSIZE) argv → Z.of_nat (length fl) ≤ 2052 + up sz / PGSIZE) ∨
  (r = 0 ∧ ∃ elf d fl' sz img top sp, program elf sz img ∧ ready kend s' fl' d sz img argv top sp ∧
     p' = started p d top (entry elf) sp path ∧ ∀ q, (q ∈ fl' ∨ space_page s' d q) ↔ (q ∈ fl ∨ space_page s (Proc.pgdir p) q)).

Lemma program_size elf sz img : program elf sz img → 0 ≤ up sz / PGSIZE.
Proof using. intros (_ & _ & _ & Hi%elf_image_size). pose proof (up_le 0 sz Hi) as Hu. by change (up 0 / PGSIZE) with 0 in Hu. Qed.

Lemma elf_read : (read_at data 0 elfhdr_size).1 = elfhdr_size → read_at data 0 elfhdr_size = (elfhdr_size, take 52 data) ∧ (52 ≤ length data)%nat ∧ ∃ elf, load_elfhdr (take 52 data) = Ok elf.
Proof using All.
  intros E. destruct (read_at_whole havedisk1 devread ip data FS 0 elfhdr_size ltac:(lia) ltac:(unfold elfhdr_size; lia) E) as [Hend Er]. unfold elfhdr_size in *.
  split_and!; [exact Er|lia|]. assert (length (take 52 data) = 52%nat) as Hl by (rewrite length_take; lia).
  assert (∀ n o, (0 ≤ o) → o + Z.of_nat n ≤ 52 → ∃ w, load n (take 52 data) o = Ok w) as Hw.
  { intros n o H1 H2. destruct (load_ok_range n (take 52 data) o H1) as (w & Hw & _); [lia|apply Forall_take, (rd_bytes (FileReader := Hfr))|]. by exists w. }
  unfold load_elfhdr. destruct (Hw 4%nat 0) as [w1 ->]; [lia|lia|]. destruct (Hw 4%nat 24) as [w2 ->]; [lia|lia|]. destruct (Hw 4%nat 28) as [w3 ->]; [lia|lia|].
  destruct (Hw 2%nat 44) as [w4 ->]; [lia|lia|]. by eexists.
Qed.

Lemma exec_file_run fs s fl p path argv : FS fs → pool kend s fl → space kend s fl (Proc.pgdir p) → kstack p ≠ 0 → cstr_ok path →
  Forall (λ a, cstr_ok a ∧ Z.of_nat (length a) < PGSIZE) argv →
  ∃ r fs' s' p', exec_file kend kdata havedisk1 devread path argv ip (mkxs fs s p) = Ok (r, mkxs fs' s' p') ∧ CL fs' ∧ exec_post s fl p path argv r s' p'.
Proof using All.
  intros HFS Hpool Hold Hks Hpath Hargv. unfold exec_file.
  destruct (rd_readi (FileReader := Hfr) fs 0 elfhdr_size HFS ltac:(lia) ltac:(unfold elfhdr_size; lia)) as (fs1 & Hr & HFS1).
  rewrite (bind_ok _ _ _ _ _ (on_fsys_ok _ (mkxs fs s p) _ _ Hr)). cbn [xfs xmem xproc]. pose proof elf_read as Helf.
  assert (∀ fsx, FS fsx → (∀ elf sz img, ¬ program elf sz img) → ∃ r fs' s' p', exec_bad kend havedisk1 0 (Some ip) (mkxs fsx s p) = Ok (r, mkxs fs' s' p') ∧ CL fs' ∧ exec_post s fl p path argv r s' p') as Hbad0.
  { intros fsx Hx Hno. destruct (bad_null fsx s p Hx) as (fs2 & Hb & HC). exists (-1), fs2, s, p. split_and!; [done|done|left]. split_and!; [done|done|by exists fl|]. intros elf sz img Hp. by destruct (Hno elf sz img). }
  pose proof (read_at_short havedisk1 devread ip data FS 0 elfhdr_size ltac:(lia) ltac:(unfold elfhdr_size; lia)) as Hshort. destruct (read_at data 0 elfhdr_size) as [r b]. cbn [fst] in Helf, Hshort. cbv beta iota.
  destruct (decide (r = elfhdr_size)) as [->|Hrn].
  2:{ rewrite bool_decide_eq_true_2 by done. apply Hbad0; [done|]. intros elf sz img (Hl & _). specialize (Hshort Hrn). unfold elfhdr_size in Hshort. lia. } rewrite bool_decide_eq_false_2 by tauto.
  destruct (Helf eq_refl) as ([= ->] & H52 & elf & Hl). rewrite (bind_ok _ _ _ elf (mkxs fs1 s p)) by (unfold lift; by rewrite Hl).
  destruct (decide (magic elf = ELF_MAGIC)) as [Hmag|Hmag].
  2:{ rewrite bool_decide_eq_true_2 by done. apply Hbad0; [done|]. intros elf' sz img (_ & Hl' & Hm' & _). rewrite Hl in Hl'. injection Hl' as <-. done. } rewrite bool_decide_eq_false_2 by tauto.
  destruct (setupkvm_run kend Hkend kdata s fl Hdal Hdr Hpool) as (d & s1 & fl1 & Hk & Hfr1 & Hpool1 & Hres).
  rewrite (bind_ok _ _ _ _ _ (on_mem_ok _ (mkxs fs1 s p) _ _ Hk)). cbn [xfs xmem xproc].
  destruct Hres as [(-> & Hall & Hlen)|(Hd & H1 & Hnu & Hall)].
  { rewrite bool_decide_eq_true_2 by done. destruct (bad_null fs1 s1 p HFS1) as (fs2 & Hb & HC). exists (-1), fs2, s1, p. split_and!; [done|done|left].
    split_and!; [done|done| |].
    - exists fl1. split_and!; [done| |done]. apply NoDup_Permutation; [apply Hpool1|apply Hpool|done].
    - intros elf' sz img Hp%program_size _ _. lia. }
  rewrite bool_decide_eq_false_2 by done. assert (making s fl s1 fl1 d) as Mk1 by (by split).
  assert (loaded kend s1 fl1 d 0 (λ _, 0)) as L0.
  { split; [done|unfold KERNBASE; lia|change (up 0) with 0; lia|]. intros va Hva. split; [|done]. unfold mapped. destruct (present _) eqn:Hp; [|done].
    destruct (Hnu va). split; [|done]. change (up 0) with 0 in Hva. lia. }
  destruct (load_segments_run kend Hkend havedisk1 devread ip data FS (Z.to_nat (phnum elf)) (phoff elf) fs1 s1 fl1 d 0 (λ _, 0) p HFS1 L0)
    as (res & fs2 & s2 & fl2 & Hls & HFS2 & H2 & M2 & Hres). mstep Hls.
  pose proof (making_moved s fl s1 fl1 d s2 fl2 Mk1 M2 H2) as Mk2. destruct res as [sz|].
  2:{ destruct (making_free s fl s2 fl2 d Hpool Mk2) as (s3 & Hf & Hres'). destruct (bad_dir fs2 s2 p d s3 Hd Hf HFS2) as (fs3 & Hb & HC).
      exists (-1), fs3, s3, p. split_and!; [done|done|left]. split_and!; [done|done|done|]. intros elf' sz img (_ & Hl' & _ & Hi) _ _. rewrite Hl in Hl'. injection Hl' as <-.
      pose proof (Hres sz img Hi fl (fr_nodup _ _ _ (proj1 Hpool)) (λ q Hq, proj2 (Hall q) Hq)). lia. }
  destruct Hres as (img & Himg & L2). destruct (Hclose fs2 HFS2) as (fs3 & fs4 & Hc1 & Hc2 & HC).
  rewrite (bind_ok _ _ _ _ _ (on_fsys_ok _ (mkxs fs2 s2 p) _ _ Hc1)). cbn [xfs xmem xproc].
  unfold xend_op. rewrite (bind_ok _ _ _ _ _ (on_fsys_ok _ (mkxs fs3 s2 p) _ _ Hc2)). cbn [xfs xmem xproc].
  destruct (build_stack_total kend Hkend s2 fl2 d sz img argv L2 Hargv) as (res & s3 & fl3 & Hbs & H3 & M3 & Hst).
  rewrite (bind_ok _ _ _ _ _ (on_mem_ok _ (mkxs fs4 s2 p) _ _ Hbs)). cbn [xfs xmem xproc].
  pose proof (making_moved s fl s2 fl2 d s3 fl3 Mk2 M3 H3) as Mk3. destruct res as [[top sp]|].
  - destruct (exec_commit_run fs4 s fl p s3 fl3 d sz img argv top sp (entry elf) path Hpath Hks Hd Hold Mk3 Hst) as (s4 & fl4 & Hrun & R & Hall4).
    exists 0, fs4, s4, (started p d top (entry elf) sp path). split_and!; [done|done|right]. split; [done|].
    exists elf, d, fl4, sz, img, top, sp. split_and!; [|done|done|done]. by split_and!.
  - destruct (making_free s fl s3 fl3 d Hpool Mk3) as (s4 & Hf & Hres'). exists (-1), fs4, s4, p. split_and!; [by apply bad_closed|done|left]. split_and!; [done|done|done|].
    intros elf' sz' img' (_ & Hl' & _ & Hi) Htop Hfit. rewrite Hl in Hl'. injection Hl' as <-. rewrite Himg in Hi. injection Hi as <- <-.
    pose proof (Hst Htop Hfit). pose proof (loaded_count kend s2 fl2 d sz img fl L2 (fr_nodup _ _ _ (proj1 Hpool)) (λ q Hq, proj2 (mk_all _ _ _ _ _ Mk2 q) Hq)). lia.
Qed.
End body.
End file.
