(* ===== verification/ExecFs.v ===== *)
(** * exec over the file system

    The transaction around [exec]: the path is looked up, the inode locked, read
    and released, and the disk is at rest again. *)
From stdpp Require Import base numbers list gmap sets strings.
From S2P Require Import Prelude Bytes XString Bio Log LogFacts Fs FsFacts FsBlocks FsInode FsIO FsDinode FsUpdate FsDir FsNames FsCache FsNamex FsClaims FsNameClaims FsTxn File FileFacts FileClaims.
From S2P Require Import Kalloc Vm VmFacts VmClaims VmSpace VmSetup Proc Exec ExecStack ExecLoad ExecClaims.
#[local] Open Scope Z_scope.

(** ** The lookup keeps the number of open transactions *)
Section keep.
Context (devread : Z → option (nat → Z → M fstate (Z * list Z))).
(** The device drivers do not touch the log. *)
Context (Hdev : ∀ m f, devread m = Some f → ∀ ip n, keeps_conf (f ip n)).

Lemma set_sb_keeps b : keeps_conf (set_sb b).
Proof using. intros s a s' Hr. by injection Hr as _ <-. Qed.
#[local] Hint Resolve set_sb_keeps : keeps.
Lemma bfree_keeps dev b : keeps_conf (bfree true dev b).
Proof using. unfold bfree. cbv zeta. keeps. Qed.
#[local] Hint Resolve bfree_keeps : keeps.
Lemma free_direct_keeps n : ∀ ip i, keeps_conf (free_direct true n ip i).
Proof using. induction n as [|n IH]; intros ip i; cbn [free_direct]; keeps. Qed.
Lemma free_indirect_keeps n : ∀ dev d j, keeps_conf (free_indirect true n dev d j).
Proof using. induction n as [|n IH]; intros dev d j; cbn [free_indirect]; keeps. Qed.
#[local] Hint Resolve free_direct_keeps free_indirect_keeps : keeps.
Lemma itrunc_keeps ip : keeps_conf (itrunc true ip).
Proof using. unfold itrunc. keeps. Qed.
#[local] Hint Resolve itrunc_keeps : keeps.
Lemma iput_keeps ip : keeps_conf (iput true ip).
Proof using. unfold iput, lock_inode. keeps. Qed.
Lemma iunlock_keeps p : keeps_conf (iunlock p).
Proof using. unfold iunlock. keeps. Qed.
#[local] Hint Resolve iput_keeps iunlock_keeps : keeps.
Lemma iunlockput_keeps ip : keeps_conf (iunlockput true ip).
Proof using. unfold iunlockput. keeps. Qed.
Lemma ilock_keeps p : keeps_conf (ilock true p).
Proof using. unfold ilock, lock_inode. keeps. Qed.
#[local] Hint Resolve iunlockput_keeps ilock_keeps : keeps.
Lemma iget_keeps dev num : keeps_conf (iget dev num).
Proof using. unfold iget. keeps. Qed.
Lemma readi_loop_keeps fuel ip : ∀ off tot n acc, keeps_conf (readi_loop true fuel ip off tot n acc).
Proof using. induction fuel as [|fuel IH]; intros off tot n acc; cbn [readi_loop]; keeps. Qed.
#[local] Hint Resolve iget_keeps readi_loop_keeps : keeps.
Lemma readi_keeps ip off n : keeps_conf (readi true devread ip off n).
Proof using Hdev.
  unfold readi. apply kc_bind; [auto with keeps|]. intros x. case_bool_decide; [|keeps]. case_bool_decide; [keeps|].
  destruct (devread (imajor x)) eqn:E; [by eapply Hdev|keeps].
Qed.
#[local] Hint Resolve readi_keeps : keeps.
Lemma dirlookup_keeps dp name : keeps_conf (dirlookup true devread dp name).
Proof using Hdev.
  unfold dirlookup. apply kc_bind; [auto with keeps|]. intros x. case_bool_decide; [keeps|]. generalize (dir_fuel (isize x)) as fuel, 0 as off.
  induction fuel as [|fuel IH]; intros off; cbn [dirlookup_loop]; keeps.
Qed.
#[local] Hint Resolve dirlookup_keeps : keeps.
Lemma namex_keeps cwd path parent name : keeps_conf (namex true devread cwd path parent name).
Proof using Hdev.
  unfold namex, idup. apply kc_bind; [keeps|]. intros ip. generalize (S (length path)) as fuel. intros fuel. revert ip path name.
  induction fuel as [|fuel IH]; intros ip path name; cbn [namex_loop]; keeps.
Qed.
End keep.

(** ** The file while it is open *)
Section run.
Context (v : superblock) (Hv : sb_ok v) (Hlog : log_ok v) (V : gmap Z (list Z)) (HV : fs_ok v V).
Context (devread : Z → option (nat → Z → M fstate (Z * list Z))) (Hdev : ∀ m f, devread m = Some f → ∀ ip n, keeps_conf (f ip n)).
Context (live : Z → Prop) (Hlive : ∀ num, live num → node_ok v V live num).

Lemma content_bytes x : file_ok v x V → Forall byte_ok (content x V).
Proof using Hv HV.
  intros Hx. apply Forall_forall. intros b (o & -> & Ho%elem_of_seqZ)%list_elem_of_fmap. unfold byte_at. pose proof (fo_size _ _ _ Hx).
  assert (0 ≤ o / Z.of_nat BSIZE < MAXFILE ∧ o / Z.of_nat BSIZE * Z.of_nat BSIZE < isize x) as [Hk Hkx] by (unfold BSIZE in *; dlia).
  destruct (file_block v Hv x V HV Hx _ Hk) as (_ & _ & Hl & Hb); [apply (fo_alloc _ _ _ Hx); lia|]. rewrite Forall_forall in Hb. apply Hb.
  apply list_elem_of_lookup_total_2. rewrite Hl. unfold BSIZE. dlia.
Qed.

(** Between [ilock] and [iunlockput], inside the transaction. *)
Record reading (l : list inode) (ip : nat) (x : inode) (s : fstate) : Prop := {
  rg_txn : txn s V ∅ ∅;
  rg_conf : configured v (lg (fl s)) 1;
  rg_sb : sb s = v;
  rg_cache : icache s = <[ip := set_ilock true (on_disk v V x)]> l }.

(** ... the file system reads the file for [exec]. *)
Lemma reading_reader l ip x : l !! ip = Some x → live (inum x) → idev x = ROOTDEV → itype (dnode v V (inum x)) ≠ T_DEV →
  FileReader true devread ip (content (dnode v V (inum x)) V) (reading l ip x).
Proof using All.
  intros Hx Hlv Hd Hty. destruct (Hlive _ Hlv) as [_ Hf _ _ _]. set (y := set_ilock true (on_disk v V x)).
  assert (file_ok v y V) as Hfy by (by eapply file_ok_ext; [..|exact Hf]). pose proof (fo_size _ _ _ Hf) as Hsz. unfold MAXFILE, NINDIRECT, NDIRECT, BSIZE in Hsz.
  assert (content y V = content (dnode v V (inum x)) V) as Ec by (by apply content_ext). assert (isize y = isize (dnode v V (inum x))) as Es by done.
  split; [by apply content_bytes|rewrite length_content; lia|]. intros fs off n [T C S I] Ho Hn. rewrite <- Ec. unfold read_at. rewrite length_content, Es, Z2Nat.id by lia.
  assert (icache fs !! ip = Some y) as Hy by (rewrite I; apply list_lookup_insert_eq; by eapply lookup_lt_Some).
  destruct (decide (isize y < off ∨ u32 (off + n) < off)) as [Hbad|Hok]; cbv zeta.
  - rewrite bool_decide_eq_true_2 by done. exists fs. split; [|done]. unfold readi. rewrite (bind_ok _ _ _ y fs) by (unfold get_inode; by rewrite Hy).
    rewrite (bool_decide_eq_false_2 (itype y = T_DEV)) by exact Hty. by rewrite bool_decide_eq_true_2.
  - rewrite bool_decide_eq_false_2 by done. assert (off ≤ isize y) as Hoff by lia. rewrite Es in Hoff.
    destruct (readi_ok v Hv ip y V ∅ HV Hfy devread fs off n T Hy Hty ltac:(lia) ltac:(lia) ltac:(lia)) as (p & fs' & Hr & -> & T' & [S1 S2]).
    exists fs'. split; [exact Hr|]. split; [done| |by rewrite S1|by rewrite S2].
    unfold configured. rewrite (readi_keeps devread Hdev ip off n _ _ _ Hr). exact C.
Qed.
(** After [end_op]: the disk is at rest, with the same files, and the cache has
    the references it had. *)
Record at_rest (l : list inode) (s : fstate) : Prop := {
  ar_disk : ∃ V', idle v s V' ∧ vol V' ∧ agree v V V';
  ar_sb : sb s = v;
  ar_cache : cache_ok v V live (icache s);
  ar_unlocked : unlocked (icache s);
  ar_count : ∀ n, count (icache s) n = count l n }.

Lemma end_at_rest l s : (∃ h, V !! logstart v = Some h ∧ header h []) → txn s V ∅ ∅ → configured v (lg (fl s)) 1 → sb s = v → cache_ok v V live (icache s) →
  unlocked (icache s) → (∀ n, count (icache s) n = count l n) → ∃ s', on_log (end_op true) s = Ok (tt, s') ∧ at_rest l s'.
Proof using Hv Hlog HV.
  intros Hh T C S Hc Hu Hn.
  destruct (end_op_ok v Hv Hlog s V ∅ T C (fs_vol _ _ HV) Hh) as ([] & s' & Hr & V' & Hi & Hvol & Ha & E1 & E2); [by intros b Hb%not_elem_of_empty|].
  exists s'. split; [done|]. split; [by exists V'|by rewrite E1|by rewrite E2|by rewrite E2|]. intros n. by rewrite E2.
Qed.

(** Releasing the file ends the transaction. *)
Lemma reading_close l0 l ip x s : (∃ h, V !! logstart v = Some h ∧ header h []) → cache_ok v V live l → unlocked l → l !! ip = Some x → iref x > 0 →
  (∀ n, count l n = count l0 n + one n (inum x)) → reading l ip x s →
  ∃ s1 s2, iunlockput true ip s = Ok (tt, s1) ∧ on_log (end_op true) s1 = Ok (tt, s2) ∧ at_rest l0 s2.
Proof using All.
  intros Hh Hc Hu Hx Hp Hn [T C S I]. destruct (drop_locked v V ∅ live Hlive l ip x Hc Hu Hx Hp s I T S) as (s1 & Hr & T1 & S1 & C1 & U1 & N1).
  destruct (end_at_rest l0 s1 Hh T1) as (s2 & Hr2 & A2); try done.
  - unfold configured. rewrite (iunlockput_keeps ip _ _ _ Hr). exact C.
  - intros n. rewrite N1, Hn. lia.
  - by exists s1, s2.
Qed.

(** ** The whole system call *)
Context (kend kdata : Z) (Hkend : KERNBASE < kend) (Hdal : kdata `mod` PGSIZE = 0) (Hdr : KERNLINK < kdata < KERNBASE + PHYSTOP).

(** C11: what [exec] does, for any path, any file that is no device and arguments
    each shorter than a page, from a state in which the disk is at rest, no inode is
    locked, the inode cache has two entries without references (without one, iget
    panics), the inode of the current directory is referenced and the inodes that
    directories name are allocated.  It then always returns, with the disk at rest
    again, every inode unlocked and the inode cache with the references it had.  If the path leads nowhere the
    result is -1 and nothing else has changed.  Otherwise it is -1, with the
    process as it was and every page that was free free again, or 0, with the
    process in an address space that holds the image which the file's headers
    describe, a page without access and the arguments above it, and every page of
    the old space free or in the new one.  It is -1 only if the file is no
    program, its image or the arguments are too big, or there are no more than 2052
    free pages beside those of the image. *)
Theorem exec_runs_program fs s free p path argv junk xc :
  idle v fs V → sb fs = v → cache_ok v V live (icache fs) → unlocked (icache fs) → 2 ≤ nvacant (icache fs) → live ROOTINO →
  icache fs !! Z.to_nat (cwd p) = Some xc → iref xc > 0 → space kend s free (Proc.pgdir p) → kstack p ≠ 0 →
  cstr_ok path → length junk = DIRSIZ → Forall (λ a, cstr_ok a ∧ Z.of_nat (length a) < PGSIZE) argv →
  let target := resolve v V false (if bool_decide (head path = Some slash) then ROOTINO else inum xc) (elems path) in
  (∀ t, target = Some t → itype (dnode v V t) ≠ T_DEV) →
  ∃ r fs' s' p', exec kend kdata true devread path argv junk (mkxs fs s p) = Ok (r, mkxs fs' s' p') ∧ at_rest (icache fs) fs' ∧
    match target with
    | None => r = -1 ∧ s' = s ∧ p' = p
    | Some t => exec_post kend (content (dnode v V t) V) s free p path argv r s' p'
    end.
Proof using All.
  intros Hi Hsb Hc Hu Hfree Hroot Hcwd Hcp Hold Hks Hpath Hj Hargv target Hty. pose proof (idl_head _ _ _ Hi) as Hh. unfold exec.
  destruct (begin_op_ok v fs V ∅ Hi ltac:(rewrite size_empty; lia)) as (b & fs1 & Hr1 & -> & T1 & C1 & S1 & I1).
  unfold xbegin_op. rewrite (bind_ok _ _ _ tt (mkxs fs1 s p)) by (by rewrite (bind_ok _ _ _ _ _ (on_fsys_ok _ (mkxs fs s p) _ _ Hr1))).
  rewrite (bind_ok _ _ _ p (mkxs fs1 s p)) by done. rewrite Hsb in S1. rewrite <- I1 in Hc, Hu, Hfree, Hcwd.
  destruct (namex_start v Hv V live (Z.to_nat (cwd p)) xc path fs1 Hc Hfree Hroot Hcwd Hcp) as (i & l & Hst & Hg).
  destruct (got_start _ _ _ _ _ _ _ Hg Hu) as (z & Hz & Zn & Zp & Zf & Zu).
  destruct (namex_loop_ok v Hv V HV ∅ devread live Hlive false (S (length path)) (mkfs (fl fs1) (sb fs1) l) i z path junk)
    as (r & nm & fs2 & R & (T2 & S2 & C2 & U2 & Ht & N2) & _); try done; [by apply (txn_frame fs1)|apply Hg|simpl; lia|lia|].
  rewrite Zn in *. fold target in Ht, N2. cbn [icache] in N2.
  assert (namex true devread (Z.to_nat (cwd p)) path false junk fs1 = Ok ((r, nm), fs2)) as Hnx by (unfold namex; by rewrite (bind_ok _ _ _ _ _ Hst)).
  assert (namei true devread (Z.to_nat (cwd p)) path junk fs1 = Ok (r, fs2)) as Hn by (unfold namei; by rewrite (bind_ok _ _ _ _ _ Hnx)).
  assert (configured v (lg (fl fs2)) 1) as Cf2 by (unfold configured; rewrite (namex_keeps devread Hdev _ _ _ _ _ _ _ Hnx); exact C1).
  rewrite (bind_ok _ _ _ _ _ (on_fsys_ok _ (mkxs fs1 s p) _ _ Hn)). cbn [xfs xmem xproc].
  assert (∀ n, count (icache fs2) n = count (icache fs) n + match target with Some t => one n t | None => 0 end) as Hcount.
  { intros n. rewrite N2, (go_count _ _ _ _ _ _ _ Hg), I1. lia. }
  destruct target as [t|] eqn:Etg.
  - destruct Ht as (ip & y & -> & Hy & Ey & Hyp). destruct (ilock_ok v Hv V HV ∅ live Hlive fs2 ip y T2 S2 C2 Hy Hyp (U2 _ _ Hy)) as ([] & fs3 & Hr3 & T3 & S3 & I3).
    rewrite (bind_ok _ _ _ _ _ (on_fsys_ok _ (mkxs fs2 s p) _ _ Hr3)). cbn [xfs xmem xproc].
    assert (reading (icache fs2) ip y fs3) as O3 by (split; try done; unfold configured; rewrite (ilock_keeps (Some ip) _ _ _ Hr3); exact Cf2).
    destruct (ck_live _ _ _ _ C2 _ _ Hy Hyp) as (Hd & Hlv & _). rewrite <- Ey in Hcount. pose proof (reading_reader (icache fs2) ip y Hy Hlv Hd ltac:(rewrite Ey; by apply Hty)) as Hrd.
    destruct (exec_file_run kend kdata Hkend Hdal Hdr true devread ip _ _ (at_rest (icache fs)) (Hfr := Hrd)
      (λ x, reading_close (icache fs) (icache fs2) ip y x Hh C2 U2 Hy Hyp Hcount) fs3 s free p path argv) as (r & fs' & s' & p' & Hrun & Hcl & Hpost); try done.
    { by eapply space_pool. }
    rewrite Ey in Hpost. by exists r, fs', s', p'.
  - subst r. destruct (end_at_rest (icache fs) fs2 Hh T2 Cf2 S2 C2 U2) as (fs3 & Hr3 & A3); [intros n; rewrite Hcount; lia|].
    unfold xend_op. rewrite (bind_ok _ _ _ _ _ (on_fsys_ok _ (mkxs fs2 s p) _ _ Hr3)). cbn [xfs xmem xproc]. by exists (-1), fs3, s, p.
Qed.
End run.

(** ** A program *)
Module ExExec.
(** Eight bytes, four of them from the file. *)
Definition tiny : list Z :=
  words_bytes [ELF_MAGIC; 0; 0; 0; 0; 0; 0; 52; 0; 0; 0; 1; 0] ++ words_bytes [ELF_PROG_LOAD; 84; 0; 0; 4; 8; 5; 4096] ++ [235; 254; 144; 144].
Lemma tiny_program : ∃ img, program tiny (mkelf ELF_MAGIC 0 52 1) 8 img ∧ map img [0; 1; 2; 3; 4; 7] = [235; 254; 144; 144; 0; 0].
Proof.
  exists (put_segment tiny (mkph ELF_PROG_LOAD 84 0 4 8) (λ _, 0)). split; [|by vm_compute].
  split_and!; [apply (bool_decide_unpack _); by vm_compute|by vm_compute|done|by vm_compute].
Qed.

Definition p0 : proc := mkproc 0 ExVm.dir (KERNBASE + 65536) RUNNING 1 None (replicate 19 0) None false [] 0 "init" 2.
Lemma kdata0 : KERNLINK < KERNBASE + 1052672 < KERNBASE + PHYSTOP.
Proof. by vm_compute. Qed.
Lemma no_dev m f : VolEx.no_read m = Some f → ∀ ip n, keeps_conf (f ip n).
Proof. done. Qed.
End ExExec.
