(* ===== verification/ExecBoot.v ===== *)
(** * Running a program from a disk that mkfs made

    The image that [mkfs] makes of one small program, a machine at rest on that disk
    with enough free pages, and [exec] running the program there. *)
From stdpp Require Import base numbers list gmap sets strings.
From S2P Require Import Mkfs MkfsFacts MkfsClaims.
From S2P Require Import Prelude Bytes XString Bio Log LogFacts LogClaims Fs FsFacts FsBlocks FsInode FsIO FsDinode FsUpdate FsDir FsNames FsCache FsNamex FsClaims FsNameClaims FsTxn File FileFacts FileClaims.
From S2P Require Import Kalloc Vm VmFacts VmClaims VmSpace VmSetup Proc Exec ExecStack ExecLoad ExecClaims ExecFs.
#[local] Open Scope Z_scope.

(** ** Memory *)
Module Boot.
(** An empty page directory and [n] more free pages. *)
Definition extra (n : nat) : Z := KERNBASE + 4096 * (Z.of_nat n + 4).
Fixpoint free_pages (n : nat) : list Z := match n with O => ExVm.fl | S n => extra n :: free_pages n end.
Fixpoint memory (n : nat) : kmem := match n with O => ExVm.s0 | S n => ExStack.free_at (extra n) (memory n) end.

Lemma free_pages_length n : length (free_pages n) = (n + 2)%nat.
Proof. induction n as [|n IH]; [done|]. cbn [free_pages length]. lia. Qed.
Lemma free_pages_below n p : p ∈ free_pages n → p < extra n.
Proof.
  induction n as [|n IH]; cbn [free_pages]; unfold extra in *.
  - unfold ExVm.fl. intros [->|[->|[]%not_elem_of_nil]%elem_of_cons]%elem_of_cons; lia.
  - intros [->|Hp%IH]%elem_of_cons; lia.
Qed.
Lemma extra_not_dir n : extra n ≠ ExVm.dir.
Proof. unfold extra, ExVm.dir. lia. Qed.
Lemma memory_dir n : pages (memory n) !! ExVm.dir = Some (replicate 4096 0).
Proof.
  induction n as [|n IH]; cbn [memory]; [apply lookup_insert_eq|]. cbn [ExStack.free_at pages]. by rewrite lookup_insert_ne by apply extra_not_dir.
Qed.
Lemma memory_pde n i : 0 ≤ i < 1024 → pde_at (pages (memory n)) ExVm.dir i = 0.
Proof. intros Hi. unfold pde_at, page_at. rewrite memory_dir. by apply word_zero. Qed.
Lemma memory_wf n : (n ≤ 4000)%nat → pt_wf (KERNBASE + 1) (memory n) (free_pages n) ExVm.dir.
Proof.
  induction n as [|n IH]; intros Hn; [apply (as_pt _ _ _ _ ExSpace.blank_dir)|]. apply ExStack.free_at_wf; [apply IH; lia| | |].
  - unfold page_ok, extra, KERNBASE, PGSIZE, PHYSTOP. split; [|lia]. replace (_ + _) with ((524288 + (Z.of_nat n + 4)) * 4096) by lia. by apply Z.mod_mul.
  - intros Hp%free_pages_below. lia.
  - intros [?|(i & Hi & Hp & _)]; [by apply (extra_not_dir n)|]. by rewrite memory_pde in Hp.
Qed.
Lemma memory_space n : (n ≤ 4000)%nat → space (KERNBASE + 1) (memory n) (free_pages n) ExVm.dir.
Proof.
  intros Hn. assert (∀ va, ¬ user_at (pages (memory n)) ExVm.dir va) as Hno.
  { intros va [Hr Hp]. unfold pte_at in Hp. by rewrite (memory_pde n (PDX va)) in Hp by (apply PDX_range; lia). }
  split; [by apply memory_wf|by vm_compute|intros i Hi; by rewrite memory_pde|intros va Hva; by destruct (Hno va)|intros va va' Hva; by destruct (Hno va)].
Qed.

(** ** The disk *)
Definition init : list Z := [105; 110; 105; 116].
Definition files : list arg := [mkarg init (Some [ExExec.tiny])].
Lemma files_ok : Forall arg_ok files.
Proof.
  repeat constructor; cbn [a_name a_reads files].
  - set_solver by lia.
  - eexists. split; [done|]. split; [|vm_compute; discriminate]. apply (bool_decide_unpack _). by vm_compute.
Qed.

(** Nothing is cached but the root, whose inode is still to be read. *)
Definition cwd_inode : inode := mkinode ROOTDEV ROOTINO 1 false false 0 0 0 0 0 (replicate 13 0).
Definition at_boot (V : gmap Z (list Z)) : fstate :=
  mkfs (mkls (binit (replicate NBUF zero_buf) (LogEx.flat (λ b, V !!! b))) (mklog 2 30 0 false ROOTDEV 0 (replicate 30 0))) Mkfs.sb
    (cwd_inode :: replicate 49 (set_iref 0 cwd_inode)).
Lemma boot_entries V i x : icache (at_boot V) !! i = Some x → (i = 0%nat ∧ x = cwd_inode) ∨ x = set_iref 0 cwd_inode.
Proof.
  unfold at_boot. cbn [icache]. destruct i as [|i]; cbn [lookup list_lookup]; [intros [=<-]; by left|].
  intros H. apply lookup_replicate in H as [-> _]. by right.
Qed.
Definition image_of (r : res (gmap Z (list Z))) : gmap Z (list Z) := match r with Ok V => V | Fault _ => ∅ end.
Definition volume : gmap Z (list Z) := image_of (Mkfs.main files).
Lemma volume_range b d : volume !! b = Some d → 0 ≤ b < FSSIZE.
Proof.
  assert (map_Forall (λ b _, 0 ≤ b < FSSIZE) volume) as Hall by (apply (bool_decide_unpack _); vm_compute; exact I).
  apply Hall.
Qed.
Lemma boot_view : fs_ok Mkfs.sb volume → disk_view (LogEx.flat (λ b, volume !!! b)) = volume.
Proof.
  intros HV. apply map_eq. intros b. destruct (volume !! b) as [d|] eqn:Hb.
  - pose proof (volume_range _ _ Hb) as Hr. apply disk_view_Some. split; [done|]. rewrite LogEx.flat_lookup by done. rewrite (lookup_total_correct _ _ _ Hb). reflexivity.
  - apply eq_None_not_Some. intros [d [Hr _]%disk_view_Some]. destruct (fs_vol _ _ HV b Hr) as (e & He & _). congruence.
Qed.
Lemma boot_idle : fs_ok Mkfs.sb volume → (∃ h, volume !! logstart Mkfs.sb = Some h ∧ header h []) → idle Mkfs.sb (at_boot volume) volume.
Proof.
  intros HV Hh. split; [|reflexivity|split; [reflexivity|reflexivity|intros t b Ht; discriminate Ht]|exact Hh]. rewrite <- (boot_view HV) at 2. apply binit_inv.
Qed.
Lemma boot_cache : cache_ok Mkfs.sb volume (made files) (icache (at_boot volume)).
Proof.
  split.
  - intros i x [[_ ->]| ->]%boot_entries; simpl; lia.
  - intros i j x y [[-> ->]| ->]%boot_entries [[-> ->]| ->]%boot_entries Hx Hy; [done|simpl in *; lia..].
  - intros i x [[_ ->]| ->]%boot_entries Hx; [|simpl in Hx; lia]. split; [reflexivity|]. split; [split; vm_compute; discriminate|]. intros Hvalid. discriminate Hvalid.
Qed.
Lemma boot_unlocked : unlocked (icache (at_boot volume)).
Proof. intros i x [[_ ->]| ->]%boot_entries; done. Qed.
Lemma boot_vacant : nvacant (icache (at_boot volume)) = 49.
Proof. unfold at_boot. cbn [icache]. vm_compute. reflexivity. Qed.
Lemma init_path : cstr_ok (slash :: init).
Proof. repeat constructor; lia. Qed.

(** The facts about the image that [exec] relies on. *)
Record bootable (V : gmap Z (list Z)) : Prop := {
  bt_fs : fs_ok Mkfs.sb V;
  bt_log : ∃ h, V !! logstart Mkfs.sb = Some h ∧ header h [];
  bt_nodes : ∀ num, made files num → node_ok Mkfs.sb V (made files) num;
  bt_init : resolve Mkfs.sb V false ROOTINO [init] = Some 2;
  bt_type : itype (dnode Mkfs.sb V 2) = T_FILE;
  bt_data : content (dnode Mkfs.sb V 2) V = ExExec.tiny }.
Lemma volume_bootable : bootable volume.
Proof.
  destruct (mkfs_ok files files_ok) as (V & s & k & E & -> & Hi); [by vm_compute|by vm_compute|by vm_compute|].
  assert (volume = world s) as -> by (unfold volume, image_of; by rewrite E). pose proof (mi_good _ _ Hi) as Hg.
  pose proof (made_file files s k Hi 0 (mkarg init (Some [ExExec.tiny])) eq_refl) as Hnd. split.
  - apply Hg.
  - exists zeros. split; [rewrite world_other by done; apply (g_log _ Hg)|exact empty_header].
  - intros num. apply (made_node files s k ltac:(by vm_compute) Hi).
  - apply (made_lookup files s k ltac:(by vm_compute) Hi 0 _ eq_refl files_ok); [intros; lia|done|done].
  - apply (nd_type _ _ _ _ Hnd).
  - refine (eq_trans (nd_content _ _ _ _ Hnd) _). by vm_compute.
Qed.
Lemma boot_no_abc : resolve Mkfs.sb volume false ROOTINO [VolEx.abc] = None.
Proof. vm_compute. reflexivity. Qed.
End Boot.

Lemma exec_runs_program_witness : let run path pages := exec (KERNBASE + 1) (KERNBASE + 1052672) true VolEx.no_read path [Boot.init] (replicate 14 0) (mkxs (Boot.at_boot Boot.volume) (Boot.memory pages) ExExec.p0) in
  (∃ fs' s' p', run (slash :: Boot.init) 2100%nat = Ok (0, mkxs fs' s' p')) ∧
  (∃ fs', run (slash :: VolEx.abc) 0%nat = Ok (-1, mkxs fs' ExVm.s0 ExExec.p0)).
Proof.
  intros run. pose proof Boot.volume_bootable as [B1 B2 B3 B4 B5 B6].
  assert (2 ≤ nvacant (icache (Boot.at_boot Boot.volume))) as Hfree by (rewrite Boot.boot_vacant; lia).
  assert (Forall (λ a, cstr_ok a ∧ Z.of_nat (length a) < PGSIZE) [Boot.init]) as Hargv by (repeat constructor; simpl; lia).
  split.
  - destruct (exec_runs_program Mkfs.sb mk_sb_ok mk_log_ok Boot.volume B1 VolEx.no_read ExExec.no_dev (made Boot.files) B3 (KERNBASE + 1) (KERNBASE + 1052672)
      eq_refl eq_refl ExExec.kdata0 (Boot.at_boot Boot.volume) (Boot.memory 2100) (Boot.free_pages 2100) ExExec.p0 (slash :: Boot.init) [Boot.init] (replicate 14 0) Boot.cwd_inode
      (Boot.boot_idle B1 B2) eq_refl Boot.boot_cache Boot.boot_unlocked Hfree ltac:(vm_compute; split; discriminate) eq_refl ltac:(simpl; lia)
      (Boot.memory_space 2100 ltac:(lia)) ltac:(discriminate) Boot.init_path eq_refl Hargv) as (r & fs' & s' & p' & Hr & _ & Hres);
      change (resolve Mkfs.sb Boot.volume false (if bool_decide (head (slash :: Boot.init) = Some slash) then ROOTINO else inum Boot.cwd_inode) (elems (slash :: Boot.init)))
        with (resolve Mkfs.sb Boot.volume false ROOTINO [Boot.init]) in *; rewrite B4 in *.
    + intros t [= <-]. rewrite B5. discriminate.
    + rewrite B6 in Hres. destruct Hres as [(_ & _ & _ & Hshort)|(-> & _)]; [|by exists fs', s', p'].
      exfalso. destruct ExExec.tiny_program as (im & Hp & _). specialize (Hshort _ _ _ Hp). rewrite Boot.free_pages_length in Hshort.
      assert (Z.of_nat (2100 + 2) ≤ 2052 + up 8 / PGSIZE) as Hle by (apply Hshort; [by vm_compute|apply (bool_decide_unpack _); by vm_compute]).
      assert (up 8 / PGSIZE = 1) as Eup by (vm_compute; reflexivity). rewrite Eup in Hle. clear - Hle. lia.
  - destruct (exec_runs_program Mkfs.sb mk_sb_ok mk_log_ok Boot.volume B1 VolEx.no_read ExExec.no_dev (made Boot.files) B3 (KERNBASE + 1) (KERNBASE + 1052672)
      eq_refl eq_refl ExExec.kdata0 (Boot.at_boot Boot.volume) (Boot.memory 0) (Boot.free_pages 0) ExExec.p0 (slash :: VolEx.abc) [Boot.init] (replicate 14 0) Boot.cwd_inode
      (Boot.boot_idle B1 B2) eq_refl Boot.boot_cache Boot.boot_unlocked Hfree ltac:(vm_compute; split; discriminate) eq_refl ltac:(simpl; lia)
      (Boot.memory_space 0 ltac:(lia)) ltac:(discriminate) NameEx.abc_path eq_refl Hargv) as (r & fs' & s' & p' & Hr & _ & Hres);
      change (resolve Mkfs.sb Boot.volume false (if bool_decide (head (slash :: VolEx.abc) = Some slash) then ROOTINO else inum Boot.cwd_inode) (elems (slash :: VolEx.abc)))
        with (resolve Mkfs.sb Boot.volume false ROOTINO [VolEx.abc]) in *; rewrite Boot.boot_no_abc in *; [intros t Ht; discriminate Ht|].
    destruct Hres as (-> & -> & ->). exists fs'. exact Hr.
Defined.
