(* ===== verification/FileTable.v ===== *)
(** * The file table and the ends of pipes

    Which file table entries a pipe has, and that a pipe's page lives exactly as
    long as one of its ends is open. *)
From stdpp Require Import base numbers list gmap sets strings.
From S2P Require Import Prelude Bytes Bio Log Fs Pipe File.
#[local] Open Scope Z_scope.

(** Entry [i] is the end [w] of pipe [a]. *)
Definition is_end (l : list file) (i : nat) (a : Z) (w : bool) : Prop :=
  ∃ x, l !! i = Some x ∧ f_type x = FD_PIPE ∧ f_pipe x = a ∧ f_writable x = w.
Definition open_end (p : pipe) (w : bool) : bool := if w then writeopen p else readopen p.

Record files_ok (l : list file) (ps : gmap Z pipe) : Prop := {
  fk_ref : ∀ i x, l !! i = Some x → 0 ≤ f_ref x ∧ (f_ref x = 0 → f_type x = FD_NONE);
  fk_end : ∀ i a w, is_end l i a w → ∃ p, ps !! a = Some p ∧ open_end p w = true;
  fk_uniq : ∀ i j a w, is_end l i a w → is_end l j a w → i = j;
  fk_open : ∀ a p w, ps !! a = Some p → open_end p w = true → ∃ i, is_end l i a w;
  fk_live : ∀ a p, ps !! a = Some p → readopen p = true ∨ writeopen p = true }.

(** Changing an entry that is no end of a pipe, before and after. *)
Lemma is_end_other l i x y j a w : l !! i = Some x → f_type x ≠ FD_PIPE → f_type y ≠ FD_PIPE → is_end (<[i := y]> l) j a w ↔ is_end l j a w.
Proof.
  intros Hx Hxt Hyt. split; intros (z & Hz & Ht & Hp & Hw).
  - apply list_lookup_insert_Some in Hz as [(<- & <- & _)|[_ Hz]]; [done|]. by exists z.
  - exists z. split; [|done]. rewrite list_lookup_insert_ne; [done|]. intros <-. congruence.
Qed.
Lemma is_end_same l i x y j a w : l !! i = Some x → f_type y = f_type x → f_pipe y = f_pipe x → f_writable y = f_writable x →
  is_end (<[i := y]> l) j a w ↔ is_end l j a w.
Proof.
  intros Hx E1 E2 E3. split; intros (z & Hz & Ht & Hp & Hw).
  - apply list_lookup_insert_Some in Hz as [(<- & <- & _)|[_ Hz]]; [|by exists z]. exists x. by rewrite <- E1, <- E2, <- E3.
  - destruct (decide (i = j)) as [->|Hne].
    + exists y. split; [apply list_lookup_insert_eq; by eapply lookup_lt_Some|]. rewrite Hx in Hz. injection Hz as <-. naive_solver congruence.
    + exists z. by rewrite list_lookup_insert_ne.
Qed.
Lemma files_ext l l' ps : files_ok l ps → (∀ i x, l' !! i = Some x → 0 ≤ f_ref x ∧ (f_ref x = 0 → f_type x = FD_NONE)) →
  (∀ j a w, is_end l' j a w ↔ is_end l j a w) → files_ok l' ps.
Proof.
  intros [H1 H2 H3 H4 H5] Hr He. split; [done|..].
  - intros i a w Hi%He. by eapply H2.
  - intros i j a w Hi%He Hj%He. by eapply H3.
  - intros a p w Ha Hp. destruct (H4 a p w Ha Hp) as [i Hi]. exists i. by apply He.
  - done.
Qed.

(** ** The operations *)
Lemma set_ref_ok l ps i x n : files_ok l ps → l !! i = Some x → 0 ≤ n → (n = 0 → f_type x = FD_NONE) → files_ok (<[i := set_fref n x]> l) ps.
Proof.
  intros Hk Hx Hn H0. eapply files_ext; [exact Hk| |intros j a w; by apply (is_end_same l i x)].
  intros j y [(<- & <- & _)|[_ Hy]]%list_lookup_insert_Some; [done|by eapply fk_ref].
Qed.

Lemma filealloc_ok s : files_ok (ftable s) (pipes s) →
  (∃ f x, filealloc s = Ok (Some f, mkus (fsys s) (<[f := set_fref 1 x]> (ftable s)) (pipes s)) ∧
    ftable s !! f = Some x ∧ f_ref x = 0 ∧ f_type x = FD_NONE ∧ files_ok (<[f := set_fref 1 x]> (ftable s)) (pipes s)) ∨
  (filealloc s = Ok (None, s) ∧ ∀ i x, ftable s !! i = Some x → f_ref x ≠ 0).
Proof.
  intros Hk. unfold filealloc, free_file, mbind, M_bind, gets. destruct (list_find _ _) as [[i x]|] eqn:Hf.
  - left. apply list_find_Some in Hf as (Hi & H0 & _). exists i, x. unfold get_file. rewrite Hi. split; [done|]. split; [done|]. split; [done|].
    split; [by eapply (fk_ref _ _ Hk)|]. by apply set_ref_ok.
  - right. split; [done|]. apply list_find_None in Hf. rewrite Forall_lookup in Hf. done.
Qed.

Lemma filedup_ok s f x : files_ok (ftable s) (pipes s) → ftable s !! f = Some x → 1 ≤ f_ref x →
  filedup f s = Ok (f, mkus (fsys s) (<[f := set_fref (f_ref x + 1) x]> (ftable s)) (pipes s)) ∧
  files_ok (<[f := set_fref (f_ref x + 1) x]> (ftable s)) (pipes s).
Proof.
  intros Hk Hx Hr. split; [|apply set_ref_ok; (done || lia)].
  unfold filedup, mbind, M_bind, get_file. rewrite Hx, bool_decide_eq_false_2 by lia. done.
Qed.

Definition closed (x : file) : file := set_ftype FD_NONE (set_fref 0 x).
Lemma fileclose_shared s f x : ftable s !! f = Some x → 1 < f_ref x →
  fileclose true f s = Ok (tt, mkus (fsys s) (<[f := set_fref (f_ref x - 1) x]> (ftable s)) (pipes s)).
Proof.
  intros Hx Hr. unfold fileclose, mbind, M_bind, get_file. rewrite Hx, bool_decide_eq_false_2, bool_decide_eq_true_2 by lia. done.
Qed.
Lemma closed_ok l ps f x : files_ok l ps → l !! f = Some x → f_type x ≠ FD_PIPE → files_ok (<[f := closed x]> l) ps.
Proof.
  intros Hk Hx Ht. eapply files_ext; [exact Hk| |intros j a w; by apply (is_end_other _ _ x)].
  intros j y [(<- & <- & _)|[_ Hy]]%list_lookup_insert_Some; [done|by eapply fk_ref].
Qed.
Lemma fileclose_none s f x : files_ok (ftable s) (pipes s) → ftable s !! f = Some x → f_ref x = 1 → f_type x = FD_NONE →
  fileclose true f s = Ok (tt, mkus (fsys s) (<[f := closed x]> (ftable s)) (pipes s)) ∧ files_ok (<[f := closed x]> (ftable s)) (pipes s).
Proof.
  intros Hk Hx Hr Ht. split; [|by apply closed_ok; [..|rewrite Ht]].
  unfold fileclose, mbind, M_bind, get_file. rewrite Hx, bool_decide_eq_false_2, bool_decide_eq_false_2 by lia. unfold put_file, modify. by rewrite Ht.
Qed.
(** The last reference to an inode's file: [iput] in a transaction of its own. *)
Lemma fileclose_inode s f x t1 t2 t3 : ftable s !! f = Some x → f_ref x = 1 → f_type x = FD_INODE →
  on_log begin_op (fsys s) = Ok (true, t1) → iput true (f_ip x) t1 = Ok (tt, t2) → on_log (end_op true) t2 = Ok (tt, t3) →
  fileclose true f s = Ok (tt, mkus t3 (<[f := closed x]> (ftable s)) (pipes s)).
Proof.
  intros Hx Hr Ht H1 H2 H3. unfold fileclose, fbegin_op, fend_op, on_fs, mbind, M_bind, get_file. rewrite Hx, bool_decide_eq_false_2, bool_decide_eq_false_2 by lia.
  unfold put_file, modify. rewrite Ht. cbn [fsys ftable pipes]. rewrite H1. cbn [fsys]. unfold mret, M_ret. cbn [fsys]. rewrite H2. cbn [fsys]. by rewrite H3.
Qed.

(** Closing the last reference to an end: the pipe stays while the other end is open. *)
Definition shut (w : bool) (p : pipe) : pipe := (pipeclose p w).1.
Definition pipes_shut (a : Z) (w : bool) (p : pipe) (ps : gmap Z pipe) : gmap Z pipe :=
  if open_end p (negb w) then <[a := shut w p]> ps else delete a ps.

Section close.
Context (l : list file) (ps : gmap Z pipe) (Hk : files_ok l ps) (f : nat) (x : file) (Hx : l !! f = Some x) (Ht : f_type x = FD_PIPE).
#[local] Abbreviation a := (f_pipe x).
#[local] Abbreviation w := (f_writable x).
Context (p : pipe) (Hp : ps !! a = Some p).

Lemma closed_end j b u : is_end (<[f := closed x]> l) j b u ↔ is_end l j b u ∧ ¬ (b = a ∧ u = w).
Proof using Hk Hx Ht.
  split.
  - intros (z & Hz & Hzt & Hzp & Hzw). apply list_lookup_insert_Some in Hz as [(<- & <- & _)|[Hne Hz]]; [done|].
    assert (is_end l j b u) as Hj by (by exists z). split; [done|]. intros [-> ->]. apply Hne. eapply (fk_uniq _ _ Hk); [|exact Hj]. by exists x.
  - intros [(z & Hz & Hzt & Hzp & Hzw) Hne]. exists z. split; [|done]. rewrite list_lookup_insert_ne; [done|]. intros <-.
    rewrite Hx in Hz. injection Hz as <-. by apply Hne.
Qed.
Lemma shut_open u : open_end (shut w p) u = open_end p u && negb (bool_decide (u = w)).
Proof using.
  clear. unfold shut, pipeclose, open_end. destruct p as [? ? ? [] []], w, u; done.
Qed.
Lemma pipes_shut_ok : files_ok (<[f := closed x]> l) (pipes_shut a w p ps).
Proof using Hk Hx Ht Hp.
  assert (∀ q, pipes_shut a w p ps !! a = Some q → q = shut w p ∧ open_end p (negb w) = true) as Hat.
  { intros q. unfold pipes_shut. destruct (open_end p (negb w)); [|by rewrite lookup_delete_eq]. rewrite lookup_insert_eq. by intros [= <-]. }
  assert (∀ b, b ≠ a → pipes_shut a w p ps !! b = ps !! b) as Hne.
  { intros b Hb. unfold pipes_shut. destruct (open_end p (negb w)); [by apply lookup_insert_ne|by apply lookup_delete_ne]. }
  destruct Hk as [H1 H2 H3 H4 H5]. split.
  - intros i y [(<- & <- & _)|[_ Hy]]%list_lookup_insert_Some; [done|by eapply H1].
  - intros i b u [Hi Hn]%closed_end. destruct (H2 i b u Hi) as (q & Hq & Ho). destruct (decide (b = a)) as [->|Hb]; [|rewrite Hne by done; eauto].
    assert (u = negb w) as -> by (clear - Hn; destruct u, w; naive_solver). rewrite Hp in Hq. injection Hq as <-.
    exists (shut w p). unfold pipes_shut. rewrite Ho, lookup_insert_eq. split; [done|]. rewrite shut_open, Ho. by destruct w.
  - intros i j b u [Hi _]%closed_end [Hj _]%closed_end. by eapply H3.
  - intros b q u Hb Ho. destruct (decide (b = a)) as [->|Hba].
    + destruct (Hat q Hb) as [-> _]. rewrite shut_open in Ho. apply andb_prop in Ho as [Ho Hu]. apply negb_true_iff, bool_decide_eq_false in Hu.
      destruct (H4 a p u Hp Ho) as [i Hi]. exists i. apply closed_end. split; [done|]. naive_solver.
    + rewrite Hne in Hb by done. destruct (H4 b q u Hb Ho) as [i Hi]. exists i. apply closed_end. split; [done|]. naive_solver.
  - intros b q Hb. destruct (decide (b = a)) as [->|Hba]; [|rewrite Hne in Hb by done; by eapply H5].
    destruct (Hat q Hb) as [-> Ho]. pose proof (shut_open (negb w)) as E. rewrite Ho in E. unfold open_end in E. destruct w; simpl in E; auto.
Qed.

Lemma pipes_shut_spec : let ps' := pipes_shut a w p ps in (∀ b, b ≠ a → ps' !! b = ps !! b) ∧
  (∀ q, ps' !! a = Some q → open_end q w = false ∧ open_end q (negb w) = true) ∧ (ps' !! a = None ↔ ∀ i, ¬ is_end l i a (negb w)).
Proof using Hk Hp.
  unfold pipes_shut. cbv zeta. destruct (open_end p (negb w)) eqn:E.
  - split_and!; [intros b Hb; by apply lookup_insert_ne| |].
    + intros q. rewrite lookup_insert_eq. intros [= <-]. rewrite !shut_open, E. split; [|by destruct w]. rewrite bool_decide_eq_true_2 by done. apply andb_false_r.
    + rewrite lookup_insert_eq. split; [done|]. intros Hno. destruct (fk_open _ _ Hk _ _ _ Hp E) as [i Hi]. by destruct (Hno i).
  - split_and!; [intros b Hb; by apply lookup_delete_ne|intros q; by rewrite lookup_delete_eq|].
    rewrite lookup_delete_eq. split; [|done]. intros _ i Hi. destruct (fk_end _ _ Hk _ _ _ Hi) as (q & Hq & Hqo). congruence.
Qed.
End close.

Lemma fileclose_pipe s f x p : ftable s !! f = Some x → f_ref x = 1 → f_type x = FD_PIPE → pipes s !! f_pipe x = Some p →
  fileclose true f s = Ok (tt, mkus (fsys s) (<[f := closed x]> (ftable s)) (pipes_shut (f_pipe x) (f_writable x) p (pipes s))).
Proof.
  intros Hx Hr Ht Hp. unfold fileclose, mbind, M_bind, get_file. rewrite Hx, bool_decide_eq_false_2, bool_decide_eq_false_2 by lia.
  unfold put_file, modify. rewrite Ht. unfold get_pipe. cbn [pipes]. rewrite Hp. unfold pipes_shut, shut, pipeclose, open_end.
  destruct p as [? ? ? [] []], (f_writable x); done.
Qed.

(** ** pipealloc *)
Lemma insert_end l ps a p0 p1 x y q : files_ok l ps → l !! p0 = Some x → l !! p1 = Some y → p0 ≠ p1 → f_type x = FD_NONE → f_type y = FD_NONE →
  0 < f_ref x → 0 < f_ref y → ps !! a = None → readopen q = true → writeopen q = true →
  let l' := <[p1 := mkfile FD_PIPE (f_ref y) false true a (f_ip y) (f_off y)]> (<[p0 := mkfile FD_PIPE (f_ref x) true false a (f_ip x) (f_off x)]> l) in
  files_ok l' (<[a := q]> ps) ∧ is_end l' p0 a false ∧ is_end l' p1 a true.
Proof.
  intros Hk Hx Hy Hne Tx Ty Rx Ry Ha Qr Qw l'. pose proof (lookup_lt_Some _ _ _ Hx). pose proof (lookup_lt_Some _ _ _ Hy).
  assert (l' !! p0 = Some (mkfile FD_PIPE (f_ref x) true false a (f_ip x) (f_off x))) as L0
    by (unfold l'; rewrite list_lookup_insert_ne, list_lookup_insert_eq by done; done).
  assert (l' !! p1 = Some (mkfile FD_PIPE (f_ref y) false true a (f_ip y) (f_off y))) as L1
    by (unfold l'; rewrite list_lookup_insert_eq by (by rewrite length_insert); done).
  assert (∀ j, j ≠ p0 → j ≠ p1 → l' !! j = l !! j) as Lj by (intros j N0 N1; unfold l'; by rewrite !list_lookup_insert_ne).
  assert (is_end l' p0 a false) as E0 by (by eexists). assert (is_end l' p1 a true) as E1 by (by eexists).
  assert (∀ j b u, is_end l' j b u → (b = a ∧ j = if u then p1 else p0) ∨ (b ≠ a ∧ is_end l j b u)) as Hcase.
  { intros j b u (z & Hz & Zt & Zp & Zw). destruct (decide (j = p0)) as [->|N0]; [rewrite L0 in Hz; injection Hz as <-; simpl in *; subst; by left|].
    destruct (decide (j = p1)) as [->|N1]; [rewrite L1 in Hz; injection Hz as <-; simpl in *; subst; by left|]. right. rewrite Lj in Hz by done.
    assert (is_end l j b u) as Hj by (by exists z). split; [|done]. intros ->. destruct (fk_end _ _ Hk _ _ _ Hj) as (q' & Hq' & _). congruence. }
  assert (∀ j b u, is_end l j b u → is_end l' j b u) as Hold.
  { intros j b u (z & Hz & Zt & Zp & Zw). exists z. split; [|done]. rewrite Lj; [done|intros ->; congruence..]. }
  split; [|done]. destruct Hk as [H1 H2 H3 H4 H5]. split.
  - intros j z [(<- & <- & _)|[_ [(<- & <- & _)|[_ Hz]]%list_lookup_insert_Some]]%list_lookup_insert_Some; simpl; [lia|lia|by eapply H1].
  - intros j b u [[-> _]|[Hb Hj]]%Hcase; [exists q; rewrite lookup_insert_eq; split; [done|by destruct u]|]. rewrite lookup_insert_ne by done. by eapply H2.
  - intros i j b u [[-> ->]|[Hb Hi]]%Hcase [[Hb' ->]|[Hb' Hj]]%Hcase; [done|done|done|by eapply H3].
  - intros b p u Hb Ho. destruct (decide (b = a)) as [->|Hba]; [destruct u; eauto|]. rewrite lookup_insert_ne in Hb by done.
    destruct (H4 b p u Hb Ho) as [i Hi]. exists i. by apply Hold.
  - intros b p Hb. destruct (decide (b = a)) as [->|Hba]; [rewrite lookup_insert_eq in Hb; injection Hb as <-; by left|].
    rewrite lookup_insert_ne in Hb by done. by eapply H5.
Qed.

Definition refs_same (l l' : list file) : Prop := ∀ i x y, l !! i = Some x → l' !! i = Some y → f_ref y = f_ref x.
Lemma refs_back l i x y : l !! i = Some x → f_ref y = f_ref x → refs_same l (<[i := y]> l).
Proof.
  intros Hx E j u w Hu [(<- & <- & _)|[_ Hw]]%list_lookup_insert_Some; congruence.
Qed.

(** Entry [i] was unreferenced and has one reference now. *)
Definition taken (l l' : list file) (i : nat) : Prop := ∃ x y, l !! i = Some x ∧ f_ref x = 0 ∧ l' !! i = Some y ∧ f_ref y = 1.
Definition piped (page : option (Z * list Z)) (s : ustate) (r : option (nat * nat)) (s' : ustate) : Prop :=
  match r with
  | Some (a, b) => ∃ p junk, page = Some (p, junk) ∧ a ≠ b ∧ taken (ftable s) (ftable s') a ∧ taken (ftable s) (ftable s') b ∧
      (∀ i, i ≠ a → i ≠ b → ftable s' !! i = ftable s !! i) ∧ is_end (ftable s') a p false ∧ is_end (ftable s') b p true ∧
      pipes s' = <[p := pipe_init junk]> (pipes s)
  | None => pipes s' = pipes s ∧ refs_same (ftable s) (ftable s') ∧
      (page = None ∨ ∀ i j x y, ftable s !! i = Some x → ftable s !! j = Some y → f_ref x = 0 → f_ref y = 0 → i = j)
  end.

Lemma pipealloc_ok s page : files_ok (ftable s) (pipes s) → (∀ p junk, page = Some (p, junk) → pipes s !! p = None) →
  ∃ r s', pipealloc true page s = Ok (r, s') ∧ files_ok (ftable s') (pipes s') ∧ piped page s r s' ∧ fsys s' = fsys s.
Proof.
  intros Hk Hpage. unfold pipealloc. destruct (filealloc_ok s Hk) as [(a & x & Ha & Hx & Rx & Tx & K1)|[Ha Hn]]; rewrite (bind_ok _ _ _ _ _ Ha).
  2:{ exists None, s. split; [done|]. split; [done|]. split; [|done]. split; [done|]. split; [intros i u w Hu Hw; congruence|].
      right. intros i j u w Hu _ Ru. by destruct (Hn i u Hu). }
  set (s1 := mkus _ _ _) in *. assert (ftable s1 !! a = Some (set_fref 1 x)) as Hx1 by (apply list_lookup_insert_eq; by eapply lookup_lt_Some).
  destruct (filealloc_ok s1 K1) as [(b & y & Hb & Hy & Ry & Ty & K2)|[Hb Hn]]; rewrite (bind_ok _ _ _ _ _ Hb).
  2:{ destruct (fileclose_none s1 a _ K1 Hx1 eq_refl Tx) as [Hc K2]. unfold pipealloc_bad. rewrite (bind_ok _ _ _ _ _ Hc).
      eexists None, _. split; [done|]. split; [exact K2|]. split; [|done]. split; [done|]. cbn [ftable s1]. rewrite list_insert_insert_eq.
      split; [by apply (refs_back _ _ x)|]. right. intros i j u w Hu Hw Ru Rw.
      assert (∀ k z, ftable s !! k = Some z → f_ref z = 0 → k = a) as Hone; [|by rewrite (Hone i u Hu Ru), (Hone j w Hw Rw)].
      intros k z Hz Rz. destruct (decide (k = a)) as [|Hne]; [done|]. destruct (Hn k z); [|done]. cbn [ftable s1]. by rewrite list_lookup_insert_ne. }
  assert (a ≠ b) as Hab by (intros ->; rewrite Hx1 in Hy; injection Hy as <-; done). cbn [ftable s1] in Hy. rewrite list_lookup_insert_ne in Hy by done.
  set (s2 := mkus _ (<[b := _]> _) _) in *.
  assert (ftable s2 !! a = Some (set_fref 1 x)) as Hx2 by (cbn [ftable s2]; rewrite list_lookup_insert_ne by done; exact Hx1).
  assert (ftable s2 !! b = Some (set_fref 1 y)) as Hy2 by (apply list_lookup_insert_eq; cbn [ftable s1]; rewrite length_insert; by eapply lookup_lt_Some).
  destruct page as [[p junk]|].
  - specialize (Hpage p junk eq_refl). destruct (insert_end _ _ p a b _ _ (pipe_init junk) K2 Hx2 Hy2 Hab Tx Ty) as (K3 & E1 & E2); [done..|]. cbv zeta in K3, E1, E2.
    eexists (Some (a, b)), (mkus (fsys s) _ _). split; [|split; [exact K3|split; [|done]]].
    + unfold mbind, M_bind, put_pipe, get_file, put_file, modify. cbn [ftable fsys pipes]. rewrite Hx2. cbn [ftable fsys pipes].
      rewrite list_lookup_insert_ne by done. rewrite Hy2. done.
    + pose proof (lookup_lt_Some _ _ _ Hx). pose proof (lookup_lt_Some _ _ _ Hy).
      exists p, junk. split_and!; try done; cbn [ftable].
      * exists x. eexists. split; [done|]. split; [done|]. split; [rewrite list_lookup_insert_ne by done; apply list_lookup_insert_eq; unfold s2, s1; cbn [ftable]; by rewrite !length_insert|done].
      * exists y. eexists. split; [done|]. split; [done|]. split; [apply list_lookup_insert_eq; unfold s2, s1; cbn [ftable]; by rewrite !length_insert|done].
      * intros i Na Nb. unfold s2, s1. cbn [ftable]. by rewrite !list_lookup_insert_ne.
  - destruct (fileclose_none s2 a _ K2 Hx2 eq_refl Tx) as [Hc K3]. unfold pipealloc_bad. rewrite (bind_ok _ _ _ _ _ Hc). set (s3 := mkus (fsys s2) (<[a := closed (set_fref 1 x)]> (ftable s2)) (pipes s2)) in *.
    assert (ftable s3 !! b = Some (set_fref 1 y)) as Hy3 by (cbn [ftable s3]; rewrite list_lookup_insert_ne by done; exact Hy2).
    destruct (fileclose_none s3 b _ K3 Hy3 eq_refl Ty) as [Hd K4]. rewrite (bind_ok _ _ _ _ _ Hd).
    eexists None, _. split; [done|]. split; [exact K4|]. split; [|done]. split; [done|]. split; [|by left].
    intros i u w Hu Hw. cbn [ftable s3 s2 s1] in Hw. 
    apply list_lookup_insert_Some in Hw as [(<- & <- & _)|[Nb [(<- & <- & _)|[Na Hw]]%list_lookup_insert_Some]]; [simpl; congruence..|].
    rewrite !list_lookup_insert_ne in Hw by done. congruence.
Qed.

(** ** Claims *)

(** C30: open files and pipes stay consistent.  In a table in which unreferenced
    entries have no type and the ends of pipes are what the pipes say, [filealloc]
    gives an unreferenced entry its first reference or reports that there is none,
    [filedup] adds a reference, [pipealloc] makes two unreferenced entries the ends
    of a new pipe with one reference each or, without a page or two entries, leaves
    all counts as they were, and [fileclose] drops a reference.  The last one
    leaves an entry without references and type: for an end of a pipe, that end is
    closed, and the pipe freed exactly if the other end is closed too; for an inode,
    [iput] has run in a transaction of its own; an entry without a type needs nothing.
    None of them ever uses the page of a freed pipe, and the table stays consistent. *)
Theorem open_files_consistent s : files_ok (ftable s) (pipes s) →
  (∃ r s', filealloc s = Ok (r, s') ∧ files_ok (ftable s') (pipes s') ∧
    match r with
    | Some f => ∃ x, ftable s !! f = Some x ∧ f_ref x = 0 ∧ s' = mkus (fsys s) (<[f := set_fref 1 x]> (ftable s)) (pipes s)
    | None => s' = s ∧ ∀ i x, ftable s !! i = Some x → f_ref x ≠ 0
    end) ∧
  (∀ page, (∀ p junk, page = Some (p, junk) → pipes s !! p = None) →
    ∃ r s', pipealloc true page s = Ok (r, s') ∧ files_ok (ftable s') (pipes s') ∧ piped page s r s') ∧
  (∀ f x, ftable s !! f = Some x → 1 ≤ f_ref x →
    (∃ s', filedup f s = Ok (f, s') ∧ files_ok (ftable s') (pipes s') ∧ ftable s' !! f = Some (set_fref (f_ref x + 1) x)) ∧
    (1 < f_ref x → ∃ s', fileclose true f s = Ok (tt, s') ∧ files_ok (ftable s') (pipes s') ∧ ftable s' !! f = Some (set_fref (f_ref x - 1) x)) ∧
    (f_ref x = 1 → f_type x ≠ FD_PIPE → files_ok (<[f := closed x]> (ftable s)) (pipes s)) ∧
    (f_ref x = 1 → f_type x = FD_NONE → fileclose true f s = Ok (tt, mkus (fsys s) (<[f := closed x]> (ftable s)) (pipes s))) ∧
    (f_ref x = 1 → f_type x = FD_INODE → ∀ t1 t2 t3, on_log begin_op (fsys s) = Ok (true, t1) → iput true (f_ip x) t1 = Ok (tt, t2) →
      on_log (end_op true) t2 = Ok (tt, t3) → fileclose true f s = Ok (tt, mkus t3 (<[f := closed x]> (ftable s)) (pipes s))) ∧
    (f_ref x = 1 → f_type x = FD_PIPE → ∃ s', fileclose true f s = Ok (tt, s') ∧ files_ok (ftable s') (pipes s') ∧
      ftable s' = <[f := closed x]> (ftable s) ∧ fsys s' = fsys s ∧ (∀ a, a ≠ f_pipe x → pipes s' !! a = pipes s !! a) ∧
      (∀ q, pipes s' !! f_pipe x = Some q → open_end q (f_writable x) = false ∧ open_end q (negb (f_writable x)) = true) ∧
      (pipes s' !! f_pipe x = None ↔ ∀ i, ¬ is_end (ftable s) i (f_pipe x) (negb (f_writable x))))) ∧
  (∀ f x, ftable s !! f = Some x → f_ref x < 1 → filedup f s = Fault (Panic "filedup") ∧ fileclose true f s = Fault (Panic "fileclose")).
Proof.
  intros Hk. split; [|split; [|split]].
  - destruct (filealloc_ok s Hk) as [(a & x & Ha & Hx & R & _ & K)|[Ha Hn]]; [|by exists None, s].
    eexists (Some a), _. split; [exact Ha|]. split; [exact K|]. by exists x.
  - intros page Hp. destruct (pipealloc_ok s page Hk Hp) as (r & s' & A & B & C & _). by exists r, s'.
  - intros f x Hx Hr. pose proof (lookup_lt_Some _ _ _ Hx). split_and!.
    + destruct (filedup_ok s f x Hk Hx Hr) as [A B]. eexists. split; [exact A|]. split; [exact B|]. by apply list_lookup_insert_eq.
    + intros Hr1. eexists. split; [by apply fileclose_shared|]. split; [apply set_ref_ok; (done || lia)|]. by apply list_lookup_insert_eq.
    + intros _ Ht. by apply closed_ok.
    + intros. by apply fileclose_none.
    + intros Hr1 Ht t1 t2 t3 H1 H2 H3. by eapply fileclose_inode.
    + intros Hr1 Ht. destruct (fk_end _ _ Hk f (f_pipe x) (f_writable x)) as (p & Hp & Ho); [by exists x|].
      eexists. split; [by apply (fileclose_pipe s f x p)|]. split; [by apply pipes_shut_ok|]. cbn [pipes ftable fsys]. split; [done|]. split; [done|]. by apply pipes_shut_spec.
  - intros f x Hx Hr. unfold filedup, fileclose, mbind, M_bind, get_file. rewrite Hx, bool_decide_eq_true_2 by lia. done.
Qed.

Module TableEx.
Definition no_file : file := mkfile FD_NONE 0 false false 0 0 0.
Definition fs0 : fstate := mkfs (mkls (binit [] ∅) (mklog 2 30 0 false ROOTDEV 0 [])) (mksb 0 0 0 0 0 0 0) [].
Definition us0 : ustate := mkus fs0 (replicate NFILE no_file) ∅.
Lemma entries0 i x : ftable us0 !! i = Some x → x = no_file.
Proof. intros Hx. by apply lookup_replicate in Hx as [-> _]. Qed.
Lemma us0_ok : files_ok (ftable us0) (pipes us0).
Proof.
  assert (∀ i a w, ¬ is_end (ftable us0) i a w) as Hno by (intros i a w (x & ->%entries0 & ? & _); done). split.
  - intros i x ->%entries0. done.
  - intros i a w Hi. by destruct (Hno i a w).
  - intros i j a w Hi. by destruct (Hno i a w).
  - done.
  - done.
Qed.
End TableEx.
Lemma open_files_consistent_witness :
  (∃ f s', filealloc TableEx.us0 = Ok (Some f, s')) ∧
  ∃ a b s', pipealloc true (Some (4096, replicate 512 0)) TableEx.us0 = Ok (Some (a, b), s') ∧ files_ok (ftable s') (pipes s').
Proof.
  destruct (open_files_consistent TableEx.us0 TableEx.us0_ok) as (H1 & H2 & _). split.
  - destruct H1 as ([f|] & s' & Hr & _ & Hn); [by exists f, s'|]. by destruct (proj2 Hn 0%nat TableEx.no_file eq_refl).
  - destruct (H2 (Some (4096, replicate 512 0)) ltac:(done)) as ([[a b]|] & s' & Hr & Hk & Hp); [by exists a, b, s'|]. exfalso.
    destruct Hp as (_ & _ & [Hp|Hp]); [done|]. by specialize (Hp 0%nat 1%nat TableEx.no_file TableEx.no_file eq_refl eq_refl eq_refl eq_refl).
Defined.
