(* ===== verification/Grep.v ===== *)
(** * grep

    Models [src/lab3/xv6-public/grep.c] (the same file is in lab4): the pattern
    matcher and the loop over the input.  Strings are the bytes before the NUL. *)
From stdpp Require Import base numbers list sets.
From S2P Require Import Prelude.
#[local] Open Scope Z_scope.

Definition ch_star : Z := 42.
Definition ch_dot : Z := 46.
Definition ch_dollar : Z := 36.
Definition ch_caret : Z := 94.
Definition ch_nl : Z := 10.

(** ** The matcher

    [matchstar] is given [matchhere] of the rest of the pattern. *)
Fixpoint matchstar (here : list Z → bool) (c : Z) (text : list Z) : bool :=
  if here text then true
  else match text with
       | [] => false
       | d :: text' => if bool_decide (d = c) || bool_decide (c = ch_dot) then matchstar here c text' else false
       end.
Fixpoint matchhere (re text : list Z) : bool :=
  match re with
  | [] => true
  | c :: re1 =>
    let rest :=
      if bool_decide (c = ch_dollar) && bool_decide (re1 = []) then bool_decide (text = [])
      else match text with
           | [] => false
           | d :: text' => if bool_decide (c = ch_dot) || bool_decide (c = d) then matchhere re1 text' else false
           end in
    match re1 with
    | c1 :: re2 => if bool_decide (c1 = ch_star) then matchstar (matchhere re2) c text else rest
    | [] => rest
    end
  end.
(** The [do]-loop of [match]. *)
Fixpoint match_from (re text : list Z) : bool :=
  if matchhere re text then true
  else match text with [] => false | _ :: text' => match_from re text' end.
Definition match_ (re text : list Z) : bool :=
  match re with
  | c :: re' => if bool_decide (c = ch_caret) then matchhere re' text else match_from re text
  | [] => match_from re text
  end.

(** ** The input loop

    [buf] holds the [m] bytes kept from earlier reads.  [strchr] looks for a newline
    up to the first NUL; a line that does not match is passed over. *)
Definition BUFSZ : nat := 1024.
Fixpoint split_line (p : list Z) : option (list Z * list Z) :=
  match p with
  | [] => None
  | c :: p' =>
    if bool_decide (c = ch_nl) then Some ([], p')
    else if bool_decide (c = 0) then None
    else match split_line p' with Some (l, r) => Some (c :: l, r) | None => None end
  end.
(** What is left of the buffer from [p] on, and what was written. *)
Fixpoint grep_lines (fuel : nat) (pattern p : list Z) : list Z * list (list Z) :=
  match fuel with
  | O => (p, [])
  | S fuel =>
    match split_line p with
    | None => (p, [])
    | Some (l, r) =>
      let '(p', out) := grep_lines fuel pattern r in
      (p', if match_ pattern l then (l ++ [ch_nl]) :: out else out)
    end
  end.
(** One turn: [n] bytes have been read behind the [m] kept ones. *)
Definition grep_turn (pattern kept chunk : list Z) : list Z * list (list Z) :=
  let buf := kept ++ chunk in
  let '(p, out) := grep_lines (S (length buf)) pattern buf in
  (if bool_decide (length p = length buf) then [] else p, out).
(** [read] returns as much of the input as there is, as was asked for and as is
    offered in the turn; the loop ends when that is nothing. *)
Fixpoint grep_loop (pattern kept input : list Z) (offers : list nat) : list (list Z) :=
  match offers with
  | [] => []
  | n :: offers =>
    match take (n `min` (BUFSZ - length kept - 1)) input with
    | [] => []
    | chunk =>
      let '(kept', out) := grep_turn pattern kept chunk in
      out ++ grep_loop pattern kept' (drop (length chunk) input) offers
    end
  end.
Definition grep (pattern input : list Z) (offers : list nat) : list (list Z) := grep_loop pattern [] input offers.

(** ** Regular expressions

    The language of an expression, and the expression a pattern stands for. *)
Inductive regex := Eps | Sym (c : Z) | Any | Cat (r1 r2 : regex) | Many (r : regex).
Inductive lang : regex → list Z → Prop :=
| L_eps : lang Eps []
| L_sym c : lang (Sym c) [c]
| L_any c : lang Any [c]
| L_cat r1 r2 u w : lang r1 u → lang r2 w → lang (Cat r1 r2) (u ++ w)
| L_nil r : lang (Many r) []
| L_more r u w : lang r u → lang (Many r) w → lang (Many r) (u ++ w).

Definition sym (c : Z) : regex := if bool_decide (c = ch_dot) then Any else Sym c.
(** A final [$] is not part of the expression but says that the text ends there. *)
Fixpoint regex_of (re : list Z) : regex * bool :=
  match re with
  | [] => (Eps, false)
  | c :: re1 =>
    let rest :=
      if bool_decide (c = ch_dollar) && bool_decide (re1 = []) then (Eps, true)
      else let '(r, e) := regex_of re1 in (Cat (sym c) r, e) in
    match re1 with
    | c1 :: re2 => if bool_decide (c1 = ch_star) then let '(r, e) := regex_of re2 in (Cat (Many (sym c)) r, e) else rest
    | [] => rest
    end
  end.
Definition occurs (re text : list Z) : Prop :=
  ∃ u w, text = u ++ w ∧ lang (regex_of re).1 u ∧ ((regex_of re).2 = true → w = []).

Lemma lang_sym c u : lang (sym c) u ↔ ∃ d, u = [d] ∧ (c = ch_dot ∨ c = d).
Proof.
  unfold sym. case_bool_decide as Hc; split.
  - intros H. inversion H; subst. eauto.
  - intros (d & -> & _). constructor.
  - intros H. inversion H; subst. eauto.
  - intros (d & -> & [?| ->]); [done|constructor].
Qed.
Lemma lang_cat r1 r2 u : lang (Cat r1 r2) u ↔ ∃ a b, u = a ++ b ∧ lang r1 a ∧ lang r2 b.
Proof. split; [intros H; inversion H; subst; eauto|intros (a & b & -> & ? & ?); by constructor]. Qed.
(** A word of [Many (sym c)] is empty or starts with a symbol. *)
Lemma lang_many c u : lang (Many (sym c)) u ↔ u = [] ∨ ∃ d u', u = d :: u' ∧ (c = ch_dot ∨ c = d) ∧ lang (Many (sym c)) u'.
Proof.
  split.
  - intros H. inversion H as [| | | | |r a b Ha Hb]; subst; [by left|]. apply lang_sym in Ha as (d & -> & Hd). right. by exists d, b.
  - intros [->|(d & u' & -> & Hd & Hu)]; [constructor|]. apply (L_more _ [d] u'); [|done]. apply lang_sym. eauto.
Qed.

(** [matchstar] tries every number of repetitions. *)
Lemma matchstar_spec here c : ∀ text, matchstar here c text = true ↔
  ∃ a w, text = a ++ w ∧ lang (Many (sym c)) a ∧ here w = true.
Proof.
  induction text as [|d text IH]; cbn [matchstar].
  - destruct (here []) eqn:E; split; try done; [intros _; exists [], []; split; [done|split; [constructor|done]]|].
    intros (a & w & Haw & _ & Hw). symmetry in Haw. apply app_nil in Haw as [-> ->]. congruence.
  - destruct (here (d :: text)) eqn:E.
    { split; [intros _|done]. exists [], (d :: text). split; [done|]. split; [constructor|done]. }
    split.
    + destruct (bool_decide (d = c) || bool_decide (c = ch_dot)) eqn:Hd; [|done]. intros (a & w & -> & Ha & Hw)%IH.
      exists (d :: a), w. split; [done|]. split; [|done]. apply lang_many. right. exists d, a. split; [done|]. split; [|done].
      apply orb_prop in Hd as [->%bool_decide_eq_true| ->%bool_decide_eq_true]; auto.
    + intros (a & w & Haw & Ha & Hw). apply lang_many in Ha as [->|(d' & a' & -> & Hd & Ha')]; [simpl in Haw; subst w; congruence|].
      injection Haw as <- ->. assert (bool_decide (d = c) || bool_decide (c = ch_dot) = true) as ->.
      { apply orb_true_intro. destruct Hd as [->| ->]; [by right|left; by apply bool_decide_eq_true_2]. }
      apply IH. eauto.
Qed.
Lemma here_one c re1 text : (∀ t, matchhere re1 t = true ↔ occurs re1 t) →
  (if bool_decide (c = ch_dollar) && bool_decide (re1 = []) then bool_decide (text = [])
   else match text with
        | [] => false
        | d :: text' => if bool_decide (c = ch_dot) || bool_decide (c = d) then matchhere re1 text' else false
        end) = true ↔
  let x := if bool_decide (c = ch_dollar) && bool_decide (re1 = []) then (Eps, true)
           else let '(r, e) := regex_of re1 in (Cat (sym c) r, e) in
  ∃ u w, text = u ++ w ∧ lang x.1 u ∧ (x.2 = true → w = []).
Proof.
  intros IH. cbv zeta. destruct (bool_decide (c = ch_dollar) && bool_decide (re1 = [])).
  - rewrite bool_decide_eq_true. split.
    + intros ->. exists [], []. split; [done|]. split; [constructor|done].
    + intros (u & w & -> & Hu & Hw). simpl in *. inversion Hu; subst. by apply Hw.
  - unfold occurs in IH. destruct (regex_of re1) as [r e]. simpl in *. split.
    + destruct text as [|d text]; [done|]. destruct (bool_decide (c = ch_dot) || bool_decide (c = d)) eqn:Hd; [|done].
      intros (u & w & -> & Hu & Hw)%IH. exists (d :: u), w. split; [done|]. split; [|done]. apply (L_cat _ _ [d] u); [|done].
      apply lang_sym. exists d. split; [done|]. by apply orb_prop in Hd as [?%bool_decide_eq_true|?%bool_decide_eq_true]; auto.
    + intros (u & w & -> & (a & b & -> & (d & -> & Hd)%lang_sym & Hb)%lang_cat & Hw). simpl.
      assert (bool_decide (c = ch_dot) || bool_decide (c = d) = true) as ->
        by (apply orb_true_intro; rewrite !bool_decide_eq_true; done). apply IH. eauto.
Qed.
Lemma matchhere_spec re : ∀ text, matchhere re text = true ↔ occurs re text.
Proof.
  remember (length re) as n eqn:Hn. revert re Hn. induction n as [n IH] using lt_wf_ind. intros re Hn text.
  destruct re as [|c re1].
  { split; [|done]. intros _. exists [], text. split; [done|]. split; [constructor|done]. }
  assert (∀ t, matchhere re1 t = true ↔ occurs re1 t) as IH1 by (intros t; apply (IH (length re1)); [simpl in Hn; lia|done]).
  pose proof (here_one c re1 text IH1) as H1. unfold occurs. cbn [matchhere regex_of]. cbv zeta in *.
  destruct re1 as [|c1 re2]; [exact H1|]. destruct (bool_decide (c1 = ch_star)); [|exact H1]. rewrite matchstar_spec.
  assert (∀ t, matchhere re2 t = true ↔ occurs re2 t) as IH2 by (intros t; apply (IH (length re2)); [simpl in Hn; lia|done]).
  setoid_rewrite IH2. unfold occurs. destruct (regex_of re2) as [r e]. simpl. split.
  - intros (a & w & -> & Ha & u & w' & -> & Hu & Hw). exists (a ++ u), w'. rewrite app_assoc. split; [done|]. split; [by constructor|done].
  - intros (u & w & -> & (a & b & -> & Ha & Hb)%lang_cat & Hw). exists a, (b ++ w). rewrite app_assoc. split; [done|]. split; [done|]. eauto.
Qed.
Lemma match_from_spec re : ∀ text, match_from re text = true ↔ ∃ u w, text = u ++ w ∧ occurs re w.
Proof.
  induction text as [|d text IH]; cbn [match_from]; destruct (matchhere re _) eqn:E.
  - split; [|done]. intros _. exists [], []. split; [done|]. by apply matchhere_spec.
  - split; [done|]. intros (u & w & Hu & Hw). symmetry in Hu. apply app_nil in Hu as [-> ->]. apply matchhere_spec in Hw. congruence.
  - split; [|done]. intros _. exists [], (d :: text). split; [done|]. by apply matchhere_spec.
  - rewrite IH. split; [intros (u & w & -> & Hw); by exists (d :: u), w|]. intros ([|d' u] & w & Hu & Hw).
    + simpl in Hu. subst w. apply matchhere_spec in Hw. congruence.
    + injection Hu as <- ->. eauto.
Qed.

(** ** Lines *)
Definition line (l : list Z) : Prop := (ch_nl ∉ l) ∧ (0 ∉ l) ∧ (length l < BUFSZ - 1)%nat.
Definition joined (ls : list (list Z)) : list Z := concat (map (λ l, l ++ [ch_nl]) ls).

Lemma split_line_app l r : ch_nl ∉ l → 0 ∉ l → split_line (l ++ ch_nl :: r) = Some (l, r).
Proof.
  induction l as [|c l IH]; intros Hn H0; [done|]. apply not_elem_of_cons in Hn as [Nc Hn], H0 as [Zc H0]. cbn [app split_line].
  rewrite bool_decide_eq_false_2, bool_decide_eq_false_2 by done. by rewrite IH.
Qed.
Lemma split_line_none p : ch_nl ∉ p → split_line p = None.
Proof.
  induction p as [|c p IH]; intros Hn; [done|]. cbn [split_line]. apply not_elem_of_cons in Hn as [Hc Hn]. rewrite bool_decide_eq_false_2 by done.
  case_bool_decide; [done|]. by rewrite IH.
Qed.
Lemma joined_cons l ls : joined (l :: ls) = l ++ ch_nl :: joined ls.
Proof. unfold joined. cbn [map concat]. by rewrite <- app_assoc. Qed.

Definition printed (pattern : list Z) (ls : list (list Z)) : list (list Z) := map (λ l, l ++ [ch_nl]) (filter (λ l, match_ pattern l = true) ls).
Lemma grep_lines_run pattern rest : ch_nl ∉ rest → ∀ ls fuel, Forall line ls → (length ls < fuel)%nat →
  grep_lines fuel pattern (joined ls ++ rest) = (rest, printed pattern ls).
Proof.
  intros Hr. induction ls as [|l ls IH]; intros [|fuel] Hls Hf; [simpl in Hf; lia| |simpl in Hf; lia|].
  - simpl. by rewrite split_line_none.
  - apply Forall_cons in Hls as [(Hn & H0 & _) Hls]. rewrite joined_cons, <- app_assoc. cbn [app grep_lines]. rewrite split_line_app by done.
    rewrite IH by (done || (simpl in Hf; lia)). unfold printed. rewrite filter_cons. destruct (match_ pattern l); [by rewrite decide_True|by rewrite decide_False].
Qed.

(** The lines that are complete after [n] bytes. *)
Lemma joined_take n : ∀ ls, Forall line ls → ∃ ls1 ls2 rest, ls = ls1 ++ ls2 ∧ take n (joined ls) = joined ls1 ++ rest ∧
  rest ++ drop n (joined ls) = joined ls2 ∧ (ch_nl ∉ rest) ∧ ((BUFSZ - 1 ≤ n)%nat → ls ≠ [] → ls1 ≠ []).
Proof.
  intros ls Hls. revert n. induction Hls as [|l ls (Hn & H0 & Hl) Hls IH]; intros n.
  { exists [], [], []. change (joined []) with (@nil Z). rewrite take_nil, drop_nil. split; [done|]. split; [done|]. split; [done|]. split; [apply not_elem_of_nil|done]. }
  rewrite joined_cons. destruct (decide (n ≤ length l)%nat) as [Hle|Hgt].
  - exists [], (l :: ls), (take n l). rewrite take_app_le, drop_app_le, app_assoc, take_drop by done. split; [done|]. split; [done|].
    split; [by rewrite joined_cons|]. split; [intros Hin; apply Hn; by eapply elem_of_take in Hin as (i & Hi & _); eapply list_elem_of_lookup_2|lia].
  - destruct (IH (n - S (length l))%nat) as (ls1 & ls2 & rest & -> & Ht & Hd & Hr & _). exists (l :: ls1), ls2, rest.
    replace n with (length l + S (n - S (length l)))%nat at 1 2 by lia. rewrite take_app_add, drop_app_add. cbn [take drop]. rewrite Ht, Hd.
    split; [done|]. split; [by rewrite joined_cons, <- app_assoc|]. split; [done|]. split; [done|done].
Qed.
Lemma joined_length ls : (length ls ≤ length (joined ls))%nat.
Proof. induction ls as [|l ls IH]; [done|]. rewrite joined_cons, length_app. simpl. lia. Qed.

Lemma grep_loop_run pattern k : ∀ kept input ls, kept ++ input = joined ls → Forall line ls → ch_nl ∉ kept → (length kept ≤ BUFSZ - 1)%nat →
  (length input < k)%nat → grep_loop pattern kept input (replicate k BUFSZ) = printed pattern ls.
Proof.
  induction k as [|k IH]; intros kept input ls Hj Hls Hn Hm Hk; [lia|]. cbn [replicate grep_loop].
  rewrite Nat.min_r by lia. destruct (joined_take (BUFSZ - 1) ls Hls) as (ls1 & ls2 & rest & -> & Ht & Hd & Hr & Hne).
  apply Forall_app in Hls as [Hls1 Hls2].
  assert (kept ++ take (BUFSZ - length kept - 1) input = joined ls1 ++ rest) as Hbuf.
  { rewrite <- Ht, <- Hj, take_app_ge by lia. do 2 f_equal. lia. }
  destruct (take (BUFSZ - length kept - 1) input) as [|d chunk] eqn:Hch.
  - rewrite app_nil_r in Hbuf. destruct ls1 as [|l ls1].
    2:{ exfalso. apply Hn. rewrite Hbuf, joined_cons. set_solver. }
    destruct ls2 as [|l ls2]; [done|]. by destruct (Hne ltac:(lia)).
  - unfold grep_turn. rewrite Hbuf, grep_lines_run; [|done|done|rewrite length_app; pose proof (joined_length ls1); lia].
    assert (ls1 ≠ []) as Hl1 by (apply Hne; [lia|]; intros E; rewrite E in Hj; apply app_nil in Hj as [_ ->]; by rewrite take_nil in Hch).
    assert (0 < length (joined ls1))%nat as Hpos by (destruct ls1; [done|]; rewrite joined_cons, length_app; simpl; lia).
    rewrite bool_decide_eq_false_2 by (rewrite length_app; lia). unfold printed at 2. rewrite filter_app, map_app. fold (printed pattern ls1).
    f_equal. rewrite <- Hch, length_take. apply IH; [|done|done| |].
    + rewrite <- Hd, <- Hj, drop_app_ge by lia. f_equal. clear. destruct (decide (BUFSZ - length kept - 1 ≤ length input)%nat).
      * f_equal. lia.
      * rewrite !drop_ge by lia. done.
    + apply (f_equal length) in Ht. rewrite length_take, length_app in Ht. lia.
    + rewrite length_drop. apply (f_equal length) in Hch. rewrite length_take in Hch. simpl in Hch. lia.
Qed.

(** ** Claims *)

(** C33: [match] decides regular expressions.  It terminates on every pattern and
    text and returns true exactly if the text contains, at the beginning of the text
    for a pattern with a leading caret and at its end for one with a final dollar, a
    word of the regular expression that the pattern stands for. *)
Theorem match_is_regex re text :
  match_ re text = true ↔
  match re with
  | c :: re' => if bool_decide (c = ch_caret) then occurs re' text else ∃ u w, text = u ++ w ∧ occurs re w
  | [] => ∃ u w, text = u ++ w ∧ occurs re w
  end.
Proof.
  destruct re as [|c re']; unfold match_; [apply match_from_spec|]. case_bool_decide; [apply matchhere_spec|apply match_from_spec].
Qed.

(** C34: grep prints the matching lines.  On a file of lines without NUL bytes, each
    at most 1023 bytes long with its newline, that [read] returns as far as the
    buffer has room, [grep] writes exactly the lines on which [match] succeeds, in
    order, whichever way the lines fall across the buffer. *)
Theorem grep_prints_matching_lines pattern ls k : Forall line ls → (length (joined ls) < k)%nat →
  grep pattern (joined ls) (replicate k BUFSZ) = map (λ l, l ++ [ch_nl]) (filter (λ l, match_ pattern l = true) ls).
Proof. intros Hls Hk. apply (grep_loop_run pattern k [] (joined ls)); [done|done|apply not_elem_of_nil|simpl; lia|done]. Qed.
Lemma grep_prints_matching_lines_witness : grep [97; 46; 42; 36] (joined [[98; 97; 99]; [98]; [97]]) (replicate 20 BUFSZ) = [[98; 97; 99; 10]; [97; 10]].
Proof.
  rewrite (grep_prints_matching_lines [97; 46; 42; 36] [[98; 97; 99]; [98]; [97]] 20); [reflexivity| |simpl; lia].
  repeat constructor; try set_solver; simpl; unfold BUFSZ; lia.
Defined.

(** A read that ends inside the first line loses what it read. *)
Example grep_short_read : grep [97; 98] [97; 98; 10] [2%nat; 1%nat] = [] ∧ grep [97; 98] [97; 98; 10] [3%nat] = [[97; 98; 10]].
Proof. split; reflexivity. Qed.
