(* ===== verification/Sysfile.v ===== *)
(** * xv6 file-system system calls

    Models [src/lab3/xv6-public/sysfile.c] and the argument fetching of
    [syscall.c] (the same files are in lab4) over the file table, the file system
    and the pipes.  The calling process has its memory, of which the first [sz]
    bytes are mapped, its stack pointer, its open files and its current directory.
    [sys_exec] is followed up to the call of [exec], which is in [Exec]. *)
From stdpp Require Import base numbers list gmap sets strings.
From S2P Require Import Prelude Bytes XString Bio Log Fs Pipe File.
#[local] Open Scope Z_scope.

Definition NOFILE : nat := 16.
Definition MAXARG : nat := 32.
Definition O_RDONLY : Z := 0.
Definition O_WRONLY : Z := 1.
Definition O_RDWR : Z := 2.
Definition O_CREATE : Z := 512.

(** [umem] are the bytes of the addresses from 0 to [curproc->sz]. *)
Record sstate : Type := mkss { us : ustate; umem : list Z; esp : Z; ofile : list (option nat); ucwd : nat }.
Definition sz (s : sstate) : Z := Z.of_nat (length (umem s)).

Definition on_us {A} (m : M ustate A) : M sstate A := λ s,
  match m (us s) with
  | Ok (a, u) => Ok (a, mkss u (umem s) (esp s) (ofile s) (ucwd s))
  | Fault e => Fault e
  end.
Definition on_sys {A} (m : M fstate A) : M sstate A := on_us (on_fs m).
Definition set_umem (m : list Z) : M sstate unit := modify (λ s, mkss (us s) m (esp s) (ofile s) (ucwd s)).
Definition set_ofile (l : list (option nat)) : M sstate unit := modify (λ s, mkss (us s) (umem s) (esp s) l (ucwd s)).
Definition set_cwd (ip : nat) : M sstate unit := modify (λ s, mkss (us s) (umem s) (esp s) (ofile s) ip).

(** ** Arguments

    [None] is the result -1. *)
Definition fetchint (addr : Z) : M sstate (option Z) :=
  s ← gets (λ s, s);
  if bool_decide (sz s ≤ addr) || bool_decide (sz s < u32 (addr + 4)) then mret None
  else v ← lift (load_int (umem s) addr); mret (Some v).
(** The string up to its NUL, within the process. *)
Fixpoint find_nul (m : list Z) : option (list Z) :=
  match m with
  | [] => None
  | c :: m => if bool_decide (c = 0) then Some [] else (c ::.) <$> find_nul m
  end.
Definition fetchstr (addr : Z) : M sstate (option (list Z)) :=
  s ← gets (λ s, s);
  if bool_decide (sz s ≤ addr) then mret None
  else mret (find_nul (drop (Z.to_nat addr) (umem s))).
Definition argint (n : Z) : M sstate (option Z) := e ← gets esp; fetchint (u32 (u32 (e + 4) + 4 * n)).
(** The pointer. *)
Definition argptr (n size : Z) : M sstate (option Z) :=
  i ← argint n;
  match i with
  | None => mret None
  | Some i =>
    s ← gets (λ s, s);
    if bool_decide (size < 0) || bool_decide (sz s ≤ u32 i) || bool_decide (sz s < u32 (u32 i + size)) then mret None
    else mret (Some (u32 i))
  end.
Definition argstr (n : Z) : M sstate (option (list Z)) :=
  a ← argint n;
  match a with None => mret None | Some a => fetchstr (u32 a) end.

(** The descriptor and the file. *)
Definition argfd (n : Z) : M sstate (option (nat * nat)) :=
  a ← argint n;
  match a with
  | None => mret None
  | Some fd =>
    if bool_decide (fd < 0 ∨ Z.of_nat NOFILE ≤ fd) then mret None
    else
      l ← gets ofile;
      match l !! Z.to_nat fd with
      | None => fail Undefined
      | Some None => mret None
      | Some (Some f) => mret (Some (Z.to_nat fd, f))
      end
  end.

Definition free_fd (l : list (option nat)) : option nat :=
  match list_find (λ o, o = None) l with Some (i, _) => Some i | None => None end.
Definition fdalloc (f : nat) : M sstate (option nat) :=
  l ← gets ofile;
  match free_fd l with
  | Some fd => set_ofile (<[fd := Some f]> l);; mret (Some fd)
  | None => mret None
  end.

(** ** Calls on open files

    A call returns a value or, on a pipe, goes to sleep and starts again. *)
Inductive sysret := SRet (r : Z) | SSleep.
Definition sret {S} (r : Z) : M S sysret := mret (SRet r).

Section calls.
Context (havedisk1 : bool).
Context (devread : Z → option (nat → Z → M fstate (Z * list Z))).
Context (devwrite : Z → option (nat → list Z → Z → M fstate Z)).

Definition sys_dup : M sstate sysret :=
  a ← argfd 0;
  match a with
  | None => sret (-1)
  | Some (_, f) =>
    fd ← fdalloc f;
    match fd with
    | None => sret (-1)
    | Some fd => on_us (filedup f);; sret (Z.of_nat fd)
    end
  end.

Definition sys_read (killed : bool) : M sstate sysret :=
  a ← argfd 0;
  match a with
  | None => sret (-1)
  | Some (_, f) =>
    n ← argint 2;
    match n with
    | None => sret (-1)
    | Some n =>
      p ← argptr 1 n;
      match p with
      | None => sret (-1)
      | Some p =>
        r ← on_us (fileread havedisk1 devread f n killed);
        match r with
        | IOSleep => mret SSleep
        | IORet r bs => m ← gets umem; m ← lift (store_bytes m p bs); set_umem m;; sret r
        end
      end
    end
  end.

Definition sys_write (killed : bool) : M sstate sysret :=
  a ← argfd 0;
  match a with
  | None => sret (-1)
  | Some (_, f) =>
    n ← argint 2;
    match n with
    | None => sret (-1)
    | Some n =>
      p ← argptr 1 n;
      match p with
      | None => sret (-1)
      | Some p =>
        m ← gets umem;
        bs ← lift (load_bytes m p (Z.to_nat n));
        r ← on_us (filewrite havedisk1 devwrite f bs n killed);
        mret (match r with IOSleep => SSleep | IORet r _ => SRet r end)
      end
    end
  end.

Definition sys_close : M sstate sysret :=
  a ← argfd 0;
  match a with
  | None => sret (-1)
  | Some (fd, f) =>
    l ← gets ofile;
    set_ofile (<[fd := None]> l);;
    on_us (fileclose havedisk1 f);;
    sret 0
  end.

(** [stati] stores the fields one by one; [struct stat] is 20 bytes with padding. *)
Definition store_stat (m : list Z) (p : Z) (st : stat) : res (list Z) :=
  m ← store 4 m (p + 4) (st_dev st);
  m ← store 4 m (p + 8) (st_ino st);
  m ← store 2 m p (st_type st);
  m ← store 2 m (p + 12) (st_nlink st);
  store 4 m (p + 16) (st_size st).
Definition sys_fstat : M sstate sysret :=
  a ← argfd 0;
  match a with
  | None => sret (-1)
  | Some (_, f) =>
    p ← argptr 1 20;
    match p with
    | None => sret (-1)
    | Some p =>
      r ← on_us (filestat havedisk1 f);
      match r with
      | None => sret (-1)
      | Some st => m ← gets umem; m ← lift (store_stat m p st); set_umem m;; sret 0
      end
    end
  end.

(** ** Calls on paths

    [name0] and [de0] are the uninitialised local arrays [name] and [de]. *)
Context (name0 de0 : list Z).
Definition sbegin_op : M sstate unit := on_us fbegin_op.
Definition send_op : M sstate unit := on_us (fend_op havedisk1).
Definition snamei (path : list Z) : M sstate (option nat) :=
  cwd ← gets ucwd; on_sys (namei havedisk1 devread cwd path name0).
Definition snameiparent (path : list Z) : M sstate (option nat * list Z) :=
  cwd ← gets ucwd; on_sys (nameiparent havedisk1 devread cwd path name0).
Definition set_inlink (n : Z) (x : inode) : inode :=
  mkinode (idev x) (inum x) (iref x) (ilocked x) (ivalid x) (itype x) (imajor x) (iminor x) n (isize x) (iaddrs x).
Definition set_idevice (ma mi : Z) (x : inode) : inode :=
  mkinode (idev x) (inum x) (iref x) (ilocked x) (ivalid x) (itype x) ma mi (inlink x) (isize x) (iaddrs x).

Definition link_bad (ip : nat) : M sstate sysret :=
  on_sys (ilock havedisk1 (Some ip));;
  on_sys (upd_inode ip (λ x, set_inlink (s16 (inlink x - 1)) x));;
  on_sys (iupdate havedisk1 ip);;
  on_sys (iunlockput havedisk1 ip);;
  send_op;;
  sret (-1).
Definition sys_link : M sstate sysret :=
  old ← argstr 0;
  match old with
  | None => sret (-1)
  | Some old =>
    new ← argstr 1;
    match new with
    | None => sret (-1)
    | Some new =>
      sbegin_op;;
      r ← snamei old;
      match r with
      | None => send_op;; sret (-1)
      | Some ip =>
        on_sys (ilock havedisk1 (Some ip));;
        x ← on_sys (get_inode ip);
        if bool_decide (itype x = T_DIR) then on_sys (iunlockput havedisk1 ip);; send_op;; sret (-1)
        else
          on_sys (upd_inode ip (λ x, set_inlink (s16 (inlink x + 1)) x));;
          on_sys (iupdate havedisk1 ip);;
          on_sys (iunlock (Some ip));;
          '(r, name) ← snameiparent new;
          match r with
          | None => link_bad ip
          | Some dp =>
            on_sys (ilock havedisk1 (Some dp));;
            d ← on_sys (get_inode dp);
            x ← on_sys (get_inode ip);
            r ← (if bool_decide (idev d ≠ idev x) then mret (-1)
                 else on_sys (dirlink havedisk1 devread devwrite dp name (inum x) de0));
            if bool_decide (r < 0) then on_sys (iunlockput havedisk1 dp);; link_bad ip
            else
              on_sys (iunlockput havedisk1 dp);;
              on_sys (iput havedisk1 ip);;
              send_op;;
              sret 0
          end
      end
    end
  end.

(** [for(off = 2*sizeof(de); off < dp->size; off += sizeof(de))] *)
Fixpoint isdirempty_loop (fuel : nat) (dp : nat) (off : Z) : M fstate bool :=
  match fuel with
  | O => fail OutOfFuel
  | S fuel =>
    x ← get_inode dp;
    if bool_decide (off < isize x) then
      '(r, de) ← readi havedisk1 devread dp off DE;
      if bool_decide (r ≠ DE) then panic "isdirempty: readi"
      else
        num ← lift (load 2 de 0);
        if bool_decide (num ≠ 0) then mret false else isdirempty_loop fuel dp (off + DE)
    else mret true
  end.
Definition isdirempty (dp : nat) : M fstate bool :=
  x ← get_inode dp; isdirempty_loop (dir_fuel (isize x)) dp (2 * DE).

Definition dot : list Z := [46; 0].
Definition dotdot : list Z := [46; 46; 0].
Definition unlink_bad (dp : nat) : M sstate sysret :=
  on_sys (iunlockput havedisk1 dp);; send_op;; sret (-1).
Definition sys_unlink : M sstate sysret :=
  path ← argstr 0;
  match path with
  | None => sret (-1)
  | Some path =>
    sbegin_op;;
    '(r, name) ← snameiparent path;
    match r with
    | None => send_op;; sret (-1)
    | Some dp =>
      on_sys (ilock havedisk1 (Some dp));;
      c1 ← lift (namecmp name dot);
      dots ← (if bool_decide (c1 = 0) then mret true else c2 ← lift (namecmp name dotdot); mret (bool_decide (c2 = 0)));
      if (dots : bool) then unlink_bad dp
      else
        r ← on_sys (dirlookup havedisk1 devread dp name);
        match r with
        | None => unlink_bad dp
        | Some (ip, off) =>
          on_sys (ilock havedisk1 (Some ip));;
          x ← on_sys (get_inode ip);
          if bool_decide (inlink x < 1) then panic "unlink: nlink < 1"
          else
            full ← (if bool_decide (itype x = T_DIR) then e ← on_sys (isdirempty ip); mret (negb e) else mret false);
            if (full : bool) then on_sys (iunlockput havedisk1 ip);; unlink_bad dp
            else
              r ← on_sys (writei havedisk1 devwrite dp (replicate 16 0) off DE);
              if bool_decide (r ≠ DE) then panic "unlink: writei"
              else
                (if bool_decide (itype x = T_DIR) then
                   on_sys (upd_inode dp (λ d, set_inlink (s16 (inlink d - 1)) d));;
                   on_sys (iupdate havedisk1 dp)
                 else mret tt);;
                on_sys (iunlockput havedisk1 dp);;
                on_sys (upd_inode ip (λ x, set_inlink (s16 (inlink x - 1)) x));;
                on_sys (iupdate havedisk1 ip);;
                on_sys (iunlockput havedisk1 ip);;
                send_op;;
                sret 0
        end
    end
  end.

Definition create (path : list Z) (type major minor : Z) : M sstate (option nat) :=
  '(r, name) ← snameiparent path;
  match r with
  | None => mret None
  | Some dp =>
    on_sys (ilock havedisk1 (Some dp));;
    r ← on_sys (dirlookup havedisk1 devread dp name);
    match r with
    | Some (ip, _) =>
      on_sys (iunlockput havedisk1 dp);;
      on_sys (ilock havedisk1 (Some ip));;
      x ← on_sys (get_inode ip);
      if bool_decide (type = T_FILE) && bool_decide (itype x = T_FILE) then mret (Some ip)
      else on_sys (iunlockput havedisk1 ip);; mret None
    | None =>
      d ← on_sys (get_inode dp);
      ip ← on_sys (ialloc havedisk1 (idev d) type);
      on_sys (ilock havedisk1 (Some ip));;
      on_sys (upd_inode ip (λ x, set_inlink 1 (set_idevice major minor x)));;
      on_sys (iupdate havedisk1 ip);;
      (if bool_decide (type = T_DIR) then
         on_sys (upd_inode dp (λ d, set_inlink (s16 (inlink d + 1)) d));;
         on_sys (iupdate havedisk1 dp);;
         x ← on_sys (get_inode ip);
         r ← on_sys (dirlink havedisk1 devread devwrite ip dot (inum x) de0);
         if bool_decide (r < 0) then panic "create dots"
         else
           d ← on_sys (get_inode dp);
           r ← on_sys (dirlink havedisk1 devread devwrite ip dotdot (inum d) de0);
           if bool_decide (r < 0) then panic "create dots" else mret tt
       else mret tt);;
      x ← on_sys (get_inode ip);
      r ← on_sys (dirlink havedisk1 devread devwrite dp name (inum x) de0);
      if bool_decide (r < 0) then panic "create: dirlink"
      else on_sys (iunlockput havedisk1 dp);; mret (Some ip)
    end
  end.

(** The end of [sys_open]: [ip] is locked. *)
Definition open_file (ip : nat) (omode : Z) : M sstate sysret :=
  f ← on_us filealloc;
  match f with
  | None => on_sys (iunlockput havedisk1 ip);; send_op;; sret (-1)
  | Some f =>
    fd ← fdalloc f;
    match fd with
    | None => on_us (fileclose havedisk1 f);; on_sys (iunlockput havedisk1 ip);; send_op;; sret (-1)
    | Some fd =>
      on_sys (iunlock (Some ip));;
      send_op;;
      x ← on_us (get_file f);
      on_us (put_file f (mkfile FD_INODE (f_ref x) (bool_decide (Z.land omode O_WRONLY = 0))
        (bool_decide (Z.land omode O_WRONLY ≠ 0) || bool_decide (Z.land omode O_RDWR ≠ 0)) (f_pipe x) ip 0));;
      sret (Z.of_nat fd)
    end
  end.
Definition sys_open : M sstate sysret :=
  path ← argstr 0;
  match path with
  | None => sret (-1)
  | Some path =>
    omode ← argint 1;
    match omode with
    | None => sret (-1)
    | Some omode =>
      sbegin_op;;
      if bool_decide (Z.land omode O_CREATE ≠ 0) then
        r ← create path T_FILE 0 0;
        match r with None => send_op;; sret (-1) | Some ip => open_file ip omode end
      else
        r ← snamei path;
        match r with
        | None => send_op;; sret (-1)
        | Some ip =>
          on_sys (ilock havedisk1 (Some ip));;
          x ← on_sys (get_inode ip);
          if bool_decide (itype x = T_DIR) && bool_decide (omode ≠ O_RDONLY) then on_sys (iunlockput havedisk1 ip);; send_op;; sret (-1)
          else open_file ip omode
        end
    end
  end.

Definition sys_mkdir : M sstate sysret :=
  sbegin_op;;
  path ← argstr 0;
  r ← match path with None => mret None | Some path => create path T_DIR 0 0 end;
  match r with
  | None => send_op;; sret (-1)
  | Some ip => on_sys (iunlockput havedisk1 ip);; send_op;; sret 0
  end.

Definition sys_mknod : M sstate sysret :=
  sbegin_op;;
  path ← argstr 0;
  r ← match path with
      | None => mret None
      | Some path =>
        major ← argint 1;
        match major with
        | None => mret None
        | Some major =>
          minor ← argint 2;
          match minor with None => mret None | Some minor => create path T_DEV (s16 major) (s16 minor) end
        end
      end;
  match r with
  | None => send_op;; sret (-1)
  | Some ip => on_sys (iunlockput havedisk1 ip);; send_op;; sret 0
  end.

Definition sys_chdir : M sstate sysret :=
  sbegin_op;;
  path ← argstr 0;
  r ← match path with None => mret None | Some path => snamei path end;
  match r with
  | None => send_op;; sret (-1)
  | Some ip =>
    on_sys (ilock havedisk1 (Some ip));;
    x ← on_sys (get_inode ip);
    if bool_decide (itype x ≠ T_DIR) then on_sys (iunlockput havedisk1 ip);; send_op;; sret (-1)
    else
      on_sys (iunlock (Some ip));;
      cwd ← gets ucwd;
      on_sys (iput havedisk1 cwd);;
      send_op;;
      set_cwd ip;;
      sret 0
  end.

(** The arguments for [exec]: the path and [argv] up to its null pointer. *)
Fixpoint exec_args (fuel : nat) (uargv : Z) (i : nat) : M sstate (option (list (list Z))) :=
  match fuel with
  | O => fail OutOfFuel
  | S fuel =>
    if bool_decide (MAXARG ≤ i)%nat then mret None
    else
      uarg ← fetchint (u32 (uargv + 4 * Z.of_nat i));
      match uarg with
      | None => mret None
      | Some uarg =>
        if bool_decide (u32 uarg = 0) then mret (Some [])
        else
          a ← fetchstr (u32 uarg);
          match a with
          | None => mret None
          | Some a => r ← exec_args fuel uargv (S i); mret ((a ::.) <$> r)
          end
      end
  end.
Definition sys_exec : M sstate (option (list Z * list (list Z))) :=
  path ← argstr 0;
  match path with
  | None => mret None
  | Some path =>
    uargv ← argint 1;
    match uargv with
    | None => mret None
    | Some uargv => r ← exec_args (S MAXARG) (u32 uargv) 0; mret ((path,.) <$> r)
    end
  end.

(** [page] is what [kalloc] returns. *)
Definition sys_pipe (page : option (Z * list Z)) : M sstate sysret :=
  p ← argptr 0 8;
  match p with
  | None => sret (-1)
  | Some p =>
    r ← on_us (pipealloc havedisk1 page);
    match r with
    | None => sret (-1)
    | Some (rf, wf) =>
      fd0 ← fdalloc rf;
      match fd0 with
      | None => on_us (fileclose havedisk1 rf);; on_us (fileclose havedisk1 wf);; sret (-1)
      | Some fd0 =>
        fd1 ← fdalloc wf;
        match fd1 with
        | None =>
          l ← gets ofile;
          set_ofile (<[fd0 := None]> l);;
          on_us (fileclose havedisk1 rf);; on_us (fileclose havedisk1 wf);; sret (-1)
        | Some fd1 =>
          m ← gets umem;
          m ← lift (store 4 m p (Z.of_nat fd0));
          m ← lift (store 4 m (p + 4) (Z.of_nat fd1));
          set_umem m;;
          sret 0
        end
      end
    end
  end.
End calls.
