(* ===== verification/SysfileClaims.v ===== *)
(** * Properties of the file-system calls

    Argument checking, and the reference counts that open descriptors hold. *)
From stdpp Require Import base numbers list gmap sets strings relations.
From S2P Require Import Prelude Bytes XString Bio Log Fs Pipe File FileTable Sysfile.
#[local] Open Scope Z_scope.

(** ** Counting references *)
Definition refcounts (s : sstate) : list Z := map f_ref (ftable (us s)).
Definition holds_fd (f : nat) (o : option nat) : Z := if decide (o = Some f) then 1 else 0.
(** How many descriptors of the process refer to file [f]. *)
Definition nfds (l : list (option nat)) (f : nat) : Z := tally (holds_fd f) l.

(** [base f] is the number of references that others hold. *)
Record refs_ok (base : nat → Z) (s : sstate) : Prop := {
  ro_len : length (ofile s) = NOFILE;
  ro_base : ∀ f, 0 ≤ base f;
  ro_ref : ∀ f n, refcounts s !! f = Some n → n = base f + nfds (ofile s) f;
  ro_file : ∀ fd f, ofile s !! fd = Some (Some f) → (f < length (refcounts s))%nat }.

(** One reference more, or less, held elsewhere. *)
Definition plus (base : nat → Z) (f : nat) (k : Z) (g : nat) : Z := if decide (g = f) then base g + k else base g.

Lemma nfds_insert l fd o o' f : l !! fd = Some o → nfds (<[fd := o']> l) f = nfds l f - holds_fd f o + holds_fd f o'.
Proof. intros Ho. unfold nfds. rewrite (tally_insert _ _ _ _ _ Ho). lia. Qed.
Lemma nfds_nonneg l f : 0 ≤ nfds l f.
Proof. apply tally_nonneg. intros o _. unfold holds_fd. case_decide; lia. Qed.

Section moves.
Context (base : nat → Z) (s : sstate) (Hok : refs_ok base s).

Lemma refs_ext s' : refcounts s' = refcounts s → ofile s' = ofile s → refs_ok base s'.
Proof using Hok. intros E1 E2. destruct Hok as [H1 H2 H3 H4]. split; rewrite ?E1, ?E2; done. Qed.

(** The count of [f] changes by [k]. *)
Lemma refs_count s' f n k : refcounts s !! f = Some n → refcounts s' = <[f := n + k]> (refcounts s) → ofile s' = ofile s → 0 ≤ base f + k →
  refs_ok (plus base f k) s'.
Proof using Hok.
  intros Hn E1 E2 Hk. destruct Hok as [H1 H2 H3 H4]. split; rewrite ?E1, ?E2; [done| | |].
  - intros g. unfold plus. case_decide; [subst; lia|done].
  - intros g m Hm. unfold plus. apply list_lookup_insert_Some in Hm as [(<- & <- & _)|[Hne Hm]].
    + rewrite decide_True by done. rewrite (H3 _ _ Hn). lia.
    + rewrite decide_False by done. by apply H3.
  - intros fd g Hg. rewrite length_insert. by eapply H4.
Qed.
(** A descriptor takes the reference to [f] over. *)
Lemma refs_take s' fd f : ofile s !! fd = Some None → 1 ≤ base f → (f < length (refcounts s))%nat →
  refcounts s' = refcounts s → ofile s' = <[fd := Some f]> (ofile s) → refs_ok (plus base f (-1)) s'.
Proof using Hok.
  intros Hfd Hb Hf E1 E2. destruct Hok as [H1 H2 H3 H4]. split; rewrite ?E1, ?E2.
  - by rewrite length_insert.
  - intros g. unfold plus. case_decide; [subst; lia|done].
  - intros g m Hm. rewrite (nfds_insert _ _ _ _ _ Hfd). unfold plus, holds_fd. rewrite (H3 _ _ Hm).
    rewrite (decide_False (P := None = Some g)) by done. repeat case_decide; naive_solver lia.
  - intros fd' g [(_ & [= ->] & _)|[_ Hg]]%list_lookup_insert_Some; [done|by eapply H4].
Qed.
(** A descriptor gives its reference to [f] up. *)
Lemma refs_give s' fd f : ofile s !! fd = Some (Some f) → refcounts s' = refcounts s → ofile s' = <[fd := None]> (ofile s) → refs_ok (plus base f 1) s'.
Proof using Hok.
  intros Hfd E1 E2. destruct Hok as [H1 H2 H3 H4]. split; rewrite ?E1, ?E2.
  - by rewrite length_insert.
  - intros g. unfold plus. pose proof (H2 g). case_decide; lia.
  - intros g m Hm. rewrite (nfds_insert _ _ _ _ _ Hfd). unfold plus, holds_fd. rewrite (H3 _ _ Hm).
    rewrite (decide_False (P := None = Some g)) by done. repeat case_decide; naive_solver lia.
  - intros fd' g [(_ & ? & _)|[_ Hg]]%list_lookup_insert_Some; [done|by eapply H4].
Qed.
End moves.
Lemma refs_base base base' s : refs_ok base s → (∀ f, base' f = base f) → refs_ok base' s.
Proof. intros [H1 H2 H3 H4] E. split; [done| |intros f n Hn; rewrite E; by apply H3|done]. intros f. by rewrite E. Qed.
Lemma plus_back base f k g : plus (plus base f k) f (- k) g = base g.
Proof. unfold plus. case_decide; lia. Qed.

(** ** Operations that leave the counts alone

    [P] is what is known about the counts. *)
Definition ucounts (u : ustate) : list Z := map f_ref (ftable u).
Definition keeps_refs {A} (P : list Z → Prop) (m : M ustate A) : Prop :=
  ∀ u a u', P (ucounts u) → m u = Ok (a, u') → ucounts u' = ucounts u.

Section keeps.
Context (P : list Z → Prop).
Lemma kr_bind {A B} (m : M ustate A) (k : A → M ustate B) : keeps_refs P m → (∀ a, keeps_refs P (k a)) → keeps_refs P (m ≫= k).
Proof.
  intros Hm Hk u b u' HP Hr. apply bind_inv in Hr as (a & u1 & H1 & H2). pose proof (Hm _ _ _ HP H1) as E.
  rewrite <- E. eapply Hk; [|exact H2]. by rewrite E.
Qed.
Lemma kr_ret {A} (a : A) : keeps_refs P (mret a).
Proof. intros u b u' _ Hr. by injection Hr as _ <-. Qed.
Lemma kr_fail {A} e : keeps_refs P (@fail ustate A e).
Proof. by intros u b u' _ Hr. Qed.
Lemma kr_panic {A} e : keeps_refs P (@panic ustate A e).
Proof. by intros u b u' _ Hr. Qed.
Lemma kr_lift {A} (r : res A) : keeps_refs P (lift r).
Proof. intros u b u' _ Hr. unfold lift in Hr. destruct r; [|done]. by injection Hr as _ <-. Qed.
Lemma kr_fs {A} (m : M fstate A) : keeps_refs P (on_fs m).
Proof. intros u b u' _ Hr. unfold on_fs in Hr. destruct (m (fsys u)) as [[? ?]|]; [|done]. by injection Hr as _ <-. Qed.
Lemma kr_get_pipe p : keeps_refs P (get_pipe p).
Proof. intros u b u' _ Hr. unfold get_pipe in Hr. destruct (pipes u !! p); [|done]. by injection Hr as _ <-. Qed.
Lemma kr_put_pipe p x : keeps_refs P (put_pipe p x).
Proof. intros u b u' _ Hr. by injection Hr as _ <-. Qed.
Lemma kr_free_pipe p : keeps_refs P (free_pipe p).
Proof. intros u b u' _ Hr. by injection Hr as _ <-. Qed.
Lemma kr_put_file f y : (∀ R, P R → R !! f = Some (f_ref y)) → keeps_refs P (put_file f y).
Proof.
  intros HR u b u' HP Hr. injection Hr as _ <-. unfold ucounts. cbn [ftable]. rewrite list_fmap_insert. apply list_insert_id. by apply HR.
Qed.
End keeps.
Lemma kr_get_file {B} (P : list Z → Prop) f (k : file → M ustate B) :
  (∀ x, keeps_refs (λ R, P R ∧ R !! f = Some (f_ref x)) (k x)) → keeps_refs P (get_file f ≫= k).
Proof.
  intros Hk u b u' HP Hr. apply bind_inv in Hr as (x & u1 & H1 & H2). unfold get_file in H1. destruct (ftable u !! f) as [y|] eqn:Hy; [|done].
  injection H1 as -> ->. eapply Hk; [|exact H2]. split; [done|]. unfold ucounts. by rewrite list_lookup_fmap, Hy.
Qed.
Create HintDb kr.
#[export] Hint Resolve kr_ret kr_fail kr_panic kr_lift kr_fs kr_get_pipe kr_put_pipe kr_free_pipe : kr.
Ltac kr := repeat match goal with
  | |- keeps_refs _ (get_file _ ≫= _) => apply kr_get_file; intros ?
  | |- keeps_refs _ (_ ≫= _) => apply kr_bind; [|intros ?]
  | |- keeps_refs _ (put_file _ _) => apply kr_put_file; cbn [f_ref set_foff]; tauto
  | |- keeps_refs _ (if ?b then _ else _) => destruct b
  | |- keeps_refs _ (let '(_, _) := ?e in _) => destruct e
  | |- keeps_refs _ (match ?o with _ => _ end) => destruct o
  | |- _ => solve [auto with kr]
  end.

Section table.
Context (P : list Z → Prop).
Lemma fbegin_keeps : keeps_refs P fbegin_op.
Proof. unfold fbegin_op. kr. Qed.
Lemma fend_keeps : keeps_refs P (fend_op true).
Proof. apply kr_fs. Qed.
Lemma fileread_keeps devread f n killed : keeps_refs P (fileread true devread f n killed).
Proof. unfold fileread. kr. Qed.
Lemma filestat_keeps f : keeps_refs P (filestat true f).
Proof. unfold filestat. kr. Qed.
End table.
#[export] Hint Resolve fbegin_keeps fend_keeps fileread_keeps filestat_keeps : kr.
Lemma filewrite_keeps P devwrite f addr n killed : keeps_refs P (filewrite true devwrite f addr n killed).
Proof.
  assert (∀ fuel P i, keeps_refs P (filewrite_loop true devwrite fuel f addr i n)) as Hloop.
  { clear P. induction fuel as [|fuel IH]; intros P i; cbn [filewrite_loop]; [auto with kr|]. cbv zeta. kr. }
  unfold filewrite. kr.
Qed.
#[export] Hint Resolve filewrite_keeps : kr.

(** ** Operations that change one count *)
Lemma filealloc_counts u r u' : filealloc u = Ok (r, u') →
  match r with Some f => ucounts u !! f = Some 0 ∧ ucounts u' = <[f := 1]> (ucounts u) | None => u' = u end.
Proof.
  unfold filealloc, free_file, mbind, M_bind, gets. destruct (list_find _ _) as [[i x]|] eqn:Hf; [|by intros [= <- <-]].
  apply list_find_Some in Hf as (Hi & H0 & _). unfold get_file. rewrite Hi. intros [= <- <-]. unfold ucounts. cbn [ftable].
  rewrite list_fmap_insert, list_lookup_fmap, Hi. simpl. by rewrite H0.
Qed.
Lemma filedup_counts f u r u' : filedup f u = Ok (r, u') → ∃ n, ucounts u !! f = Some n ∧ ucounts u' = <[f := n + 1]> (ucounts u).
Proof.
  intros Hr. unfold filedup in Hr. apply bind_inv in Hr as (x & u1 & H1 & Hr). unfold get_file in H1. destruct (ftable u !! f) as [y|] eqn:Hy; [|done].
  injection H1 as -> ->. case_bool_decide; [done|]. injection Hr as _ <-. exists (f_ref x). unfold ucounts. cbn [ftable].
  by rewrite list_fmap_insert, list_lookup_fmap, Hy.
Qed.
Lemma fileclose_counts f u r u' : fileclose true f u = Ok (r, u') → ∃ n, ucounts u !! f = Some n ∧ 1 ≤ n ∧ ucounts u' = <[f := n - 1]> (ucounts u).
Proof.
  intros Hr. unfold fileclose in Hr. apply bind_inv in Hr as (x & u1 & H1 & Hr). unfold get_file in H1. destruct (ftable u !! f) as [y|] eqn:Hy; [|done].
  injection H1 as <- <-. case_bool_decide as Hlt; [done|]. exists (f_ref y).
  assert (ucounts u !! f = Some (f_ref y)) as Hu by (unfold ucounts; by rewrite list_lookup_fmap, Hy). split; [done|]. split; [lia|].
  case_bool_decide as Hpos; [injection Hr as _ <-; unfold ucounts; cbn [ftable]; by rewrite list_fmap_insert|].
  apply bind_inv in Hr as ([] & u1 & H1 & Hr). injection H1 as <-. set (u1 := mkus _ _ _) in Hr.
  assert (ucounts u1 = <[f := f_ref y - 1]> (ucounts u)) as <-.
  { unfold ucounts, u1. cbn [ftable]. rewrite list_fmap_insert. simpl. f_equal. lia. }
  match type of Hr with ?m u1 = _ => assert (keeps_refs (λ _, True) m) as Hk by kr end. by eapply Hk.
Qed.
Lemma close_fresh f u r u' R : fileclose true f u = Ok (r, u') → ucounts u = <[f := 1]> R → R !! f = Some 0 → ucounts u' = R.
Proof.
  intros (n & Hn & _ & E)%fileclose_counts Hu HR. rewrite Hu in Hn, E. rewrite list_lookup_insert_eq in Hn by (by eapply lookup_lt_Some).
  injection Hn as <-. rewrite E, list_insert_insert_eq. by apply list_insert_id.
Qed.
Lemma pipealloc_counts page u r u' : pipealloc true page u = Ok (r, u') →
  match r with
  | Some (a, b) => a ≠ b ∧ ucounts u !! a = Some 0 ∧ ucounts u !! b = Some 0 ∧ ucounts u' = <[b := 1]> (<[a := 1]> (ucounts u))
  | None => ucounts u' = ucounts u
  end.
Proof.
  intros Hr. unfold pipealloc in Hr. apply bind_inv in Hr as (f0 & u1 & H1%filealloc_counts & Hr). destruct f0 as [a|].
  2:{ subst u1. injection Hr as <- <-. done. }
  destruct H1 as [Ha E1]. apply bind_inv in Hr as (f1 & u2 & H2%filealloc_counts & Hr). destruct f1 as [b|].
  2:{ subst u2. unfold pipealloc_bad in Hr. apply bind_inv in Hr as ([] & u3 & H3 & Hr). injection Hr as <- <-. by eapply close_fresh. }
  destruct H2 as [Hb E2]. assert (a ≠ b) as Hab.
  { intros ->. rewrite E1, list_lookup_insert_eq in Hb by (by eapply lookup_lt_Some). done. }
  rewrite E1, list_lookup_insert_ne in Hb by done. destruct page as [[p junk]|].
  - assert (r = Some (a, b) ∧ ucounts u' = ucounts u2) as [-> ->]; [|by rewrite E2, E1].
    apply bind_inv in Hr as ([] & u3 & H3 & Hr). injection H3 as <-. apply bind_inv in Hr as (x & u4 & H4 & Hr).
    unfold get_file in H4. destruct (ftable _ !! a) as [x'|] eqn:Hx; [|done]. injection H4 as <- <-. apply bind_inv in Hr as ([] & u5 & H5 & Hr). injection H5 as <-.
    apply bind_inv in Hr as (y & u6 & H6 & Hr). unfold get_file in H6. destruct (ftable _ !! b) as [y'|] eqn:Hy; [|done]. injection H6 as <- <-.
    injection Hr as <- <-. split; [done|]. unfold ucounts. cbn [ftable fsys pipes] in *. rewrite !list_fmap_insert. simpl.
    rewrite list_lookup_insert_ne in Hy by done. rewrite (list_insert_id (map f_ref (ftable u2)) a) by (by rewrite list_lookup_fmap, Hx).
    apply list_insert_id. by rewrite list_lookup_fmap, Hy.
  - unfold pipealloc_bad in Hr. apply bind_inv in Hr as ([] & u3 & H3 & Hr). apply bind_inv in Hr as ([] & u4 & H4 & Hr). injection Hr as <- <-.
    eapply (close_fresh b u3 _ u4); [exact H4| |done]. eapply (close_fresh a u2 _ u3); [exact H3| |].
    + by rewrite E2, E1, list_insert_insert_ne.
    + by rewrite list_lookup_insert_ne.
Qed.

(** ** Calls *)

(** What a state says about descriptors and counts only. *)
Class About (P : sstate → Prop) : Prop := about s s' : refcounts s' = refcounts s → ofile s' = ofile s → P s → P s'.
#[export] Instance about_refs base : About (refs_ok base).
Proof. intros s s' E1 E2 Hs. by apply (refs_ext base s Hs). Qed.
(** The descriptors and counts of [s0]. *)
Definition like (s0 s : sstate) : Prop := ofile s = ofile s0 ∧ refcounts s = refcounts s0.
#[export] Instance about_like s0 : About (like s0).
Proof. intros s s' E1 E2 [H1 H2]. split; congruence. Qed.

Definition good {A} (P : sstate → Prop) (m : M sstate A) : Prop := ∀ s a s', P s → m s = Ok (a, s') → P s'.
(** ... when the call fails. *)
Definition fine (P : sstate → Prop) (m : M sstate sysret) : Prop := ∀ s s', P s → m s = Ok (SRet (-1), s') → P s'.

Lemma on_us_inv {A} (m : M ustate A) s a s' : on_us m s = Ok (a, s') →
  ∃ u, m (us s) = Ok (a, u) ∧ s' = mkss u (umem s) (esp s) (ofile s) (ucwd s).
Proof. unfold on_us. destruct (m (us s)) as [[b u]|]; [|done]. intros [= -> <-]. eauto. Qed.

Section good.
Context (P : sstate → Prop) `{About P}.
Lemma good_bind {A B} (m : M sstate A) (k : A → M sstate B) : good P m → (∀ a, good P (k a)) → good P (m ≫= k).
Proof. intros Hm Hk s b s' Hs Hr. apply bind_inv in Hr as (a & s1 & H1 & H2). by eapply Hk; [eapply Hm|]. Qed.
Lemma good_ret {A} (a : A) : good P (mret a).
Proof. intros s b s' Hs Hr. by injection Hr as _ <-. Qed.
Lemma good_sret r : good P (sret r).
Proof. apply good_ret. Qed.
Lemma good_fail {A} e : good P (@fail sstate A e).
Proof. by intros s b s' _ Hr. Qed.
Lemma good_panic {A} e : good P (@panic sstate A e).
Proof. by intros s b s' _ Hr. Qed.
Lemma good_lift {A} (r : res A) : good P (lift r).
Proof. intros s b s' Hs Hr. unfold lift in Hr. destruct r; [|done]. by injection Hr as _ <-. Qed.
Lemma good_gets {A} (f : sstate → A) : good P (gets f).
Proof. intros s b s' Hs Hr. by injection Hr as _ <-. Qed.
Lemma good_us {A} (m : M ustate A) : keeps_refs (λ _, True) m → good P (on_us m).
Proof. intros Hm s a s' Hs (u & Hu & ->)%on_us_inv. apply (about s); [|done..]. by apply (Hm _ _ _ I Hu). Qed.
Lemma good_sys {A} (m : M fstate A) : good P (on_sys m).
Proof. apply good_us, kr_fs. Qed.
Lemma good_umem m : good P (set_umem m).
Proof. intros s a s' Hs Hr. injection Hr as _ <-. by apply (about s). Qed.
Lemma good_cwd i : good P (set_cwd i).
Proof. intros s a s' Hs Hr. injection Hr as _ <-. by apply (about s). Qed.
End good.
Create HintDb good.
#[export] Hint Resolve about_refs about_like : good.
#[export] Hint Resolve good_ret good_sret good_fail good_panic good_lift good_gets good_sys good_umem good_cwd : good.
#[export] Hint Extern 1 (good _ (on_us _)) => apply good_us; auto with kr : good.
Ltac good := repeat match goal with
  | |- good _ (_ ≫= _) => apply good_bind; [|intros ?]
  | |- good _ (if ?b then _ else _) => destruct b
  | |- good _ (let '(_, _) := ?e in _) => destruct e
  | |- good _ (match ?o with _ => _ end) => destruct o
  | |- _ => solve [auto with good]
  end.

Section args.
Context (P : sstate → Prop) `{About P}.
Lemma fetchint_good a : good P (fetchint a).
Proof. unfold fetchint. good. Qed.
Lemma fetchstr_good a : good P (fetchstr a).
Proof. unfold fetchstr. good. Qed.
#[local] Hint Resolve fetchint_good fetchstr_good : good.
Lemma argint_good n : good P (argint n).
Proof. unfold argint. good. Qed.
#[local] Hint Resolve argint_good : good.
Lemma argptr_good n k : good P (argptr n k).
Proof. unfold argptr. good. Qed.
Lemma argstr_good n : good P (argstr n).
Proof. unfold argstr. good. Qed.
Lemma argfd_good n : good P (argfd n).
Proof. unfold argfd. good. Qed.
Lemma sbegin_good : good P sbegin_op.
Proof. unfold sbegin_op. good. Qed.
Lemma send_good : good P (send_op true).
Proof. unfold send_op. good. Qed.
End args.
#[export] Hint Resolve fetchint_good fetchstr_good argint_good argptr_good argstr_good argfd_good sbegin_good send_good : good.

Section calls.
Context (devread : Z → option (nat → Z → M fstate (Z * list Z))) (devwrite : Z → option (nat → list Z → Z → M fstate Z)).
Context (name0 de0 : list Z) (P : sstate → Prop) `{About P}.

Lemma sys_read_good killed : good P (sys_read true devread killed).
Proof. unfold sys_read. good. Qed.
Lemma sys_write_good killed : good P (sys_write true devwrite killed).
Proof. unfold sys_write. good. Qed.
Lemma sys_fstat_good : good P (sys_fstat true).
Proof. unfold sys_fstat. good. Qed.
Lemma snamei_good p : good P (snamei true devread name0 p).
Proof. unfold snamei. good. Qed.
Lemma snameiparent_good p : good P (snameiparent true devread name0 p).
Proof. unfold snameiparent. good. Qed.
#[local] Hint Resolve snamei_good snameiparent_good : good.
Lemma link_bad_good ip : good P (link_bad true ip).
Proof. unfold link_bad. good. Qed.
#[local] Hint Resolve link_bad_good : good.
Lemma sys_link_good : good P (sys_link true devread devwrite name0 de0).
Proof. unfold sys_link. good. Qed.
Lemma sys_unlink_good : good P (sys_unlink true devread devwrite name0).
Proof. unfold sys_unlink, unlink_bad. good. Qed.
Lemma create_good p t ma mi : good P (create true devread devwrite name0 de0 p t ma mi).
Proof. unfold create. good. Qed.
#[local] Hint Resolve create_good : good.
Lemma sys_mkdir_good : good P (sys_mkdir true devread devwrite name0 de0).
Proof. unfold sys_mkdir. good. Qed.
Lemma sys_mknod_good : good P (sys_mknod true devread devwrite name0 de0).
Proof. unfold sys_mknod. good. Qed.
Lemma sys_chdir_good : good P (sys_chdir true devread name0).
Proof. unfold sys_chdir. good. Qed.
End calls.

(** ** Calls that move references *)
Lemma fetchint_inv a s r s' : fetchint a s = Ok (r, s') → s' = s.
Proof.
  unfold fetchint, mbind, M_bind, gets. destruct (_ || _); [by intros [= _ <-]|]. unfold lift. destruct (load_int _ _); [|done]. by intros [= _ <-].
Qed.
Lemma argint_inv n s r s' : argint n s = Ok (r, s') → s' = s.
Proof. unfold argint. rewrite (bind_ok _ _ s (esp s) s) by done. apply fetchint_inv. Qed.
Lemma argptr_inv n k s r s' : argptr n k s = Ok (r, s') → s' = s ∧ ∀ p, r = Some p → 0 ≤ p ∧ 0 ≤ k ∧ sz s > p ∧ u32 (p + k) ≤ sz s.
Proof.
  intros Hr. unfold argptr in Hr. apply bind_inv in Hr as (i & s1 & ->%argint_inv & Hr). destruct i as [i|]; [|injection Hr as <- <-; done].
  rewrite (bind_ok _ _ s s s) in Hr by done. destruct (_ || _) eqn:E; [injection Hr as <- <-; done|]. injection Hr as <- <-.
  apply orb_false_iff in E as [[E1 E2]%orb_false_iff E3]. apply bool_decide_eq_false in E1, E2, E3.
  split; [done|]. intros p [= <-]. pose proof (u32_range i). lia.
Qed.
Lemma argfd_inv n s r s' : argfd n s = Ok (r, s') → s' = s ∧ ∀ fd f, r = Some (fd, f) → ofile s !! fd = Some (Some f).
Proof.
  intros Hr. unfold argfd in Hr. apply bind_inv in Hr as (i & s1 & ->%argint_inv & Hr). destruct i as [i|]; [|injection Hr as <- <-; done].
  case_bool_decide; [injection Hr as <- <-; done|]. rewrite (bind_ok _ _ s (ofile s) s) in Hr by done.
  destruct (ofile s !! Z.to_nat i) as [[f|]|] eqn:Hf; [| |done]; injection Hr as <- <-; [|done]. split; [done|]. by intros fd g [= <- <-].
Qed.
Lemma fdalloc_inv f s r s' : fdalloc f s = Ok (r, s') →
  match r with
  | Some fd => ofile s !! fd = Some None ∧ s' = mkss (us s) (umem s) (esp s) (<[fd := Some f]> (ofile s)) (ucwd s)
  | None => s' = s
  end.
Proof.
  unfold fdalloc, free_fd, mbind, M_bind, gets. destruct (list_find _ _) as [[fd o]|] eqn:Hf; [|by intros [= <- <-]].
  apply list_find_Some in Hf as (Hfd & -> & _). by intros [= <- <-].
Qed.

Section moving.
Context (base : nat → Z).

Lemma sys_dup_good : good (refs_ok base) sys_dup.
Proof.
  intros s a s' Hs Hr. unfold sys_dup in Hr. apply bind_inv in Hr as (o & s1 & [-> Ho]%argfd_inv & Hr). destruct o as [[fd0 f]|]; [|by injection Hr as <- <-].
  apply bind_inv in Hr as (o & s1 & H1%fdalloc_inv & Hr). destruct o as [fd|]; [|subst s1; by injection Hr as <- <-]. destruct H1 as [Hfd ->].
  apply bind_inv in Hr as (g & s2 & (u & Hu & ->)%on_us_inv & Hr). injection Hr as <- <-. apply filedup_counts in Hu as (n & Hn & E). simpl in Hn, E.
  assert (refs_ok (plus base f 1) (mkss u (umem s) (esp s) (ofile s) (ucwd s))) as H1.
  { eapply (refs_count base s Hs); [exact Hn|exact E|done|]. pose proof (ro_base _ _ Hs f). lia. }
  eapply refs_base; [eapply (refs_take _ _ H1 _ fd f); [done| | |done|done]|].
  - unfold plus. rewrite decide_True by done. pose proof (ro_base _ _ Hs f). lia.
  - unfold refcounts. cbn [us]. fold (ucounts u). rewrite E, length_insert. by eapply lookup_lt_Some.
  - intros g'. by rewrite (plus_back base f 1).
Qed.

Lemma close_good s s' f r : refs_ok (plus base f 1) s → (∀ g, 0 ≤ base g) → on_us (fileclose true f) s = Ok (r, s') → refs_ok base s'.
Proof.
  intros Hs Hb (u & (n & Hn & _ & E)%fileclose_counts & ->)%on_us_inv. eapply refs_base.
  - eapply (refs_count _ _ Hs _ f n (-1)); [exact Hn|exact E|done|]. unfold plus. rewrite decide_True by done. specialize (Hb f). lia.
  - intros g. by rewrite (plus_back base f 1).
Qed.
Lemma sys_close_good : good (refs_ok base) (sys_close true).
Proof.
  intros s a s' Hs Hr. unfold sys_close in Hr. apply bind_inv in Hr as (o & s1 & [-> Ho]%argfd_inv & Hr). destruct o as [[fd f]|]; [|by injection Hr as <- <-].
  rewrite (bind_ok _ _ s (ofile s) s) in Hr by done. apply bind_inv in Hr as ([] & s1 & H1 & Hr). injection H1 as <-.
  apply bind_inv in Hr as ([] & s2 & H2 & Hr). injection Hr as <- <-. eapply close_good; [|apply Hs|exact H2]. apply (refs_give base s Hs _ fd f); [by apply Ho|done|done].
Qed.

Lemma alloc_good s s' r : refs_ok base s → on_us filealloc s = Ok (r, s') →
  match r with Some f => refs_ok (plus base f 1) s' ∧ (f < length (refcounts s'))%nat | None => s' = s end.
Proof.
  intros Hs (u & Hu%filealloc_counts & ->)%on_us_inv. destruct r as [f|]; [|subst; by destruct s]. destruct Hu as [H0 E]. split.
  - eapply (refs_count base s Hs _ f 0 1); [exact H0|exact E|done|]. pose proof (ro_base _ _ Hs f). lia.
  - unfold refcounts. cbn [us]. fold (ucounts u). rewrite E, length_insert. by eapply lookup_lt_Some.
Qed.
Lemma take_good s s' f r : refs_ok (plus base f 1) s → (∀ g, 0 ≤ base g) → (f < length (refcounts s))%nat → fdalloc f s = Ok (r, s') →
  match r with Some fd => refs_ok base s' | None => s' = s end.
Proof.
  intros Hs Hb Hf Hr%fdalloc_inv. destruct r as [fd|]; [|done]. destruct Hr as [Hfd ->]. eapply refs_base; [eapply (refs_take _ _ Hs _ fd f); try done|].
  - unfold plus. rewrite decide_True by done. specialize (Hb f). lia.
  - intros g. by rewrite (plus_back base f 1).
Qed.
Lemma update_good {B} f (g : file → file) (k : M sstate B) : (∀ x, f_ref (g x) = f_ref x) → good (refs_ok base) k →
  good (refs_ok base) (x ← on_us (get_file f); on_us (put_file f (g x));; k).
Proof.
  intros Hg Hk s b s' Hs Hr. apply bind_inv in Hr as (x & s1 & (u & Hu & ->)%on_us_inv & Hr). unfold get_file in Hu.
  destruct (ftable (us s) !! f) as [y|] eqn:Hy; [|done]. injection Hu as -> <-. apply bind_inv in Hr as ([] & s2 & (u2 & H2 & ->)%on_us_inv & Hr).
  eapply Hk; [|exact Hr]. apply (refs_ext base s Hs); [|done]. injection H2 as <-. unfold refcounts. cbn [us ftable]. rewrite list_fmap_insert, Hg.
  apply list_insert_id. by rewrite list_lookup_fmap, Hy.
Qed.

Lemma open_file_good ip omode : good (refs_ok base) (open_file true ip omode).
Proof.
  intros s a s' Hs Hr. pose proof (ro_base _ _ Hs) as Hb. unfold open_file in Hr. apply bind_inv in Hr as (o & s1 & H1 & Hr). apply (alloc_good s s1 o Hs) in H1. destruct o as [f|].
  2:{ subst s1. match type of Hr with ?m s = _ => assert (good (refs_ok base) m) as Hk by good end. by eapply Hk. }
  destruct H1 as [H1 Hlen]. apply bind_inv in Hr as (o & s2 & H2 & Hr). apply (take_good _ _ _ _ H1 Hb Hlen) in H2. destruct o as [fd|].
  - match type of Hr with ?m s2 = _ => assert (good (refs_ok base) m) as Hk; [|by eapply Hk] end.
    do 2 (apply good_bind; [auto with good|intros []]). by apply update_good; [|auto with good].
  - subst s2. apply bind_inv in Hr as ([] & s3 & H3 & Hr). apply (close_good _ _ _ _ H1 Hb) in H3.
    match type of Hr with ?m s3 = _ => assert (good (refs_ok base) m) as Hk by good end. by eapply Hk.
Qed.

Lemma pair_good s s' page a b : refs_ok base s → on_us (pipealloc true page) s = Ok (Some (a, b), s') →
  refs_ok (plus (plus base b 1) a 1) s' ∧ (a < length (refcounts s'))%nat ∧ (b < length (refcounts s'))%nat.
Proof.
  intros Hs (u & (Hab & Ha & Hb & E)%pipealloc_counts & ->)%on_us_inv. pose proof (ro_base _ _ Hs) as Hbase.
  assert (∃ x, ftable (us s) !! b = Some x) as [x Hx].
  { unfold ucounts in Hb. rewrite list_lookup_fmap in Hb. destruct (ftable (us s) !! b); [eauto|done]. }
  set (s1 := mkss (mkus (fsys (us s)) (<[b := set_fref 1 x]> (ftable (us s))) (pipes (us s))) (umem s) (esp s) (ofile s) (ucwd s)).
  assert (refcounts s1 = <[b := 0 + 1]> (refcounts s)) as E1 by (unfold refcounts, s1; cbn [us ftable]; by rewrite list_fmap_insert).
  assert (refs_ok (plus base b 1) s1) as H1 by (eapply (refs_count base s Hs); [exact Hb|exact E1|done|specialize (Hbase b); lia]).
  split.
  - eapply (refs_count _ s1 H1 _ a 0 1); [rewrite E1, list_lookup_insert_ne by done; exact Ha| |done|].
    + rewrite E1. unfold refcounts. cbn [us]. fold (ucounts u). rewrite E. by apply list_insert_insert_ne.
    + unfold plus. rewrite decide_False by done. specialize (Hbase a). lia.
  - unfold refcounts. cbn [us]. fold (ucounts u). rewrite E, !length_insert. split; by eapply lookup_lt_Some.
Qed.
End moving.

Lemma plus_nonneg base f : (∀ g, 0 ≤ base g) → ∀ g, 0 ≤ plus base f 1 g.
Proof. intros Hb g. unfold plus. specialize (Hb g). case_decide; lia. Qed.
Lemma close_both base s s' a b r v : refs_ok (plus (plus base b 1) a 1) s → (∀ g, 0 ≤ base g) →
  (on_us (fileclose true a);; on_us (fileclose true b);; sret r) s = Ok (v, s') → refs_ok base s'.
Proof.
  intros Hs Hb Hr. apply bind_inv in Hr as ([] & s1 & H1 & Hr). apply bind_inv in Hr as ([] & s2 & H2 & Hr). injection Hr as <- <-.
  eapply (close_good base s1 s2 b); [|done|exact H2]. eapply (close_good _ s s1 a); [exact Hs|by apply plus_nonneg|exact H1].
Qed.
Lemma sys_pipe_good base page : good (refs_ok base) (sys_pipe true page).
Proof.
  intros s a s' Hs Hr. pose proof (ro_base _ _ Hs) as Hb. unfold sys_pipe in Hr. apply bind_inv in Hr as (o & s1 & [-> Hp]%argptr_inv & Hr).
  destruct o as [p|]; [|by injection Hr as <- <-]. apply bind_inv in Hr as (o & s1 & H1 & Hr). destruct o as [[rf wf]|].
  2:{ injection Hr as <- <-. apply on_us_inv in H1 as (u & Hu%pipealloc_counts & ->). by apply (refs_ext base s Hs). }
  destruct (pair_good base s s1 page rf wf Hs H1) as (K1 & L1 & L2).
  apply bind_inv in Hr as (o & s2 & H2 & Hr). pose proof H2 as Hfd0%fdalloc_inv. apply (take_good _ _ _ _ _ K1 (plus_nonneg base wf Hb) L1) in H2.
  destruct o as [fd0|]; [|subst s2; by eapply close_both]. destruct Hfd0 as [Hfd0 Es2].
  apply bind_inv in Hr as (o & s3 & H3 & Hr). apply (take_good base s2 s3 wf o H2 Hb) in H3; [|subst s2; exact L2]. destruct o as [fd1|].
  - match type of Hr with ?m s3 = _ => assert (good (refs_ok base) m) as Hk by good end. by eapply Hk.
  - subst s3. rewrite (bind_ok _ _ s2 (ofile s2) s2) in Hr by done. apply bind_inv in Hr as ([] & s4 & H4 & Hr). injection H4 as <-.
    eapply close_both; [|exact Hb|exact Hr]. eapply (refs_give _ s2 H2 _ fd0 rf); [|done|done].
    subst s2. cbn [ofile]. apply list_lookup_insert_eq. by eapply lookup_lt_Some.
Qed.

Lemma sys_open_good devread devwrite name0 de0 base : good (refs_ok base) (sys_open true devread devwrite name0 de0).
Proof.
  pose proof (open_file_good base) as Ho. pose proof (create_good devread devwrite name0 de0 (refs_ok base)) as Hc. pose proof (snamei_good devread name0 (refs_ok base)) as Hn.
  unfold sys_open. good.
Qed.

(** ** Calls that fail *)
Lemma fine_bind {A} P (m : M sstate A) (k : A → M sstate sysret) : good P m → (∀ a, fine P (k a)) → fine P (m ≫= k).
Proof. intros Hm Hk s s' Hs Hr. apply bind_inv in Hr as (a & s1 & H1 & H2). by eapply Hk; [eapply Hm|]. Qed.
Lemma good_fine P (m : M sstate sysret) : good P m → fine P m.
Proof. intros Hm s s' Hs Hr. by eapply Hm. Qed.
Lemma like_refl s : like s s.
Proof. done. Qed.
(** A call whose failures leave descriptors and counts alone. *)
Definition harmless (m : M sstate sysret) : Prop := ∀ s0, fine (like s0) m.

Lemma fresh_close s0 s s' f r : ofile s = ofile s0 → refcounts s = <[f := 1]> (refcounts s0) → refcounts s0 !! f = Some 0 →
  on_us (fileclose true f) s = Ok (r, s') → like s0 s'.
Proof. intros Ho Hc H0 (u & Hu & ->)%on_us_inv. split; [done|]. by eapply close_fresh. Qed.
Lemma alloc_fresh s0 s s' f : like s0 s → on_us filealloc s = Ok (Some f, s') →
  ofile s' = ofile s0 ∧ refcounts s' = <[f := 1]> (refcounts s0) ∧ refcounts s0 !! f = Some 0.
Proof. intros [Ho Hc] (u & [H0 E]%filealloc_counts & ->)%on_us_inv. rewrite <- Hc. split_and!; [done|exact E|exact H0]. Qed.

Lemma dup_harmless : harmless sys_dup.
Proof.
  intros s0 s s' Hs Hr. unfold sys_dup in Hr. apply bind_inv in Hr as (o & s1 & [-> _]%argfd_inv & Hr). destruct o as [[fd0 f]|]; [|by injection Hr as <-].
  apply bind_inv in Hr as (o & s1 & H1%fdalloc_inv & Hr). destruct o as [fd|]; [|subst s1; by injection Hr as <-].
  apply bind_inv in Hr as (g & s2 & _ & Hr). injection Hr as Hr _. lia.
Qed.
Lemma close_harmless : harmless (sys_close true).
Proof.
  intros s0 s s' Hs Hr. unfold sys_close in Hr. apply bind_inv in Hr as (o & s1 & [-> _]%argfd_inv & Hr). destruct o as [[fd0 f]|]; [|by injection Hr as <-].
  apply bind_inv in Hr as (l & s2 & _ & Hr). apply bind_inv in Hr as ([] & s3 & _ & Hr). by apply bind_inv in Hr as ([] & s4 & _ & Hr).
Qed.
Lemma open_file_harmless ip omode : harmless (open_file true ip omode).
Proof.
  intros s0 s s' Hs Hr. unfold open_file in Hr. apply bind_inv in Hr as (o & s1 & H1 & Hr). destruct o as [f|].
  2:{ apply on_us_inv in H1 as (u & ->%filealloc_counts & ->). match type of Hr with ?m ?t = _ => assert (good (like s0) m) as Hk by good; by eapply (Hk t) end. }
  destruct (alloc_fresh _ _ _ _ Hs H1) as (Ho & Hc & H0). apply bind_inv in Hr as (o & s2 & H2%fdalloc_inv & Hr). destruct o as [fd|].
  - do 4 (apply bind_inv in Hr as (? & ? & _ & Hr)). injection Hr as Hr _. lia.
  - subst s2. apply bind_inv in Hr as ([] & s3 & H3 & Hr). apply (fresh_close _ _ _ _ _ Ho Hc H0) in H3.
    match type of Hr with ?m s3 = _ => assert (good (like s0) m) as Hk by good; by eapply (Hk s3) end.
Qed.
Lemma open_harmless devread devwrite name0 de0 : harmless (sys_open true devread devwrite name0 de0).
Proof.
  intros s0. pose proof (λ ip om, open_file_harmless ip om s0) as Ho. pose proof (create_good devread devwrite name0 de0 (like s0)) as Hc.
  pose proof (snamei_good devread name0 (like s0)) as Hn. unfold sys_open.
  repeat match goal with
  | |- fine _ (open_file _ _ _) => apply Ho
  | |- fine _ (sret _) => apply good_fine, good_sret
  | |- fine _ (_ ≫= _) => apply fine_bind; [solve [good]|intros ?]
  | |- fine _ (if ?b then _ else _) => destruct b
  | |- fine _ (match ?o with _ => _ end) => destruct o
  end.
Qed.

Lemma both_closed s0 s s' a b r v : ofile s = ofile s0 → a ≠ b → refcounts s0 !! a = Some 0 → refcounts s0 !! b = Some 0 →
  refcounts s = <[b := 1]> (<[a := 1]> (refcounts s0)) → (on_us (fileclose true a);; on_us (fileclose true b);; sret r) s = Ok (v, s') → like s0 s'.
Proof.
  intros Ho Hab Ha Hb Hc Hr. apply bind_inv in Hr as ([] & s1 & (u & H1 & ->)%on_us_inv & Hr). apply bind_inv in Hr as ([] & s2 & H2 & Hr). injection Hr as _ <-.
  eapply fresh_close; [..|exact H2]; [exact Ho| |exact Hb]. eapply (close_fresh a); [exact H1| |].
  - unfold refcounts in Hc. fold (ucounts (us s)) in Hc. rewrite Hc. by apply list_insert_insert_ne.
  - by rewrite list_lookup_insert_ne.
Qed.
Lemma pipe_harmless page : harmless (sys_pipe true page).
Proof.
  intros s0 s s' [Ho Hc] Hr. unfold sys_pipe in Hr. apply bind_inv in Hr as (o & s1 & [-> _]%argptr_inv & Hr). destruct o as [p|]; [|by injection Hr as <-].
  apply bind_inv in Hr as (o & s1 & (u & Hu%pipealloc_counts & ->)%on_us_inv & Hr). fold (refcounts s) in Hu. destruct o as [[a b]|].
  2:{ injection Hr as <-. split; [done|]. rewrite <- Hc. exact Hu. }
  destruct Hu as (Hab & Ha & Hb & E). change (ucounts (us s)) with (refcounts s) in Ha, Hb, E. rewrite Hc in Ha, Hb, E.
  apply bind_inv in Hr as (o & s2 & H2%fdalloc_inv & Hr). destruct o as [fd0|]; [|subst s2; eapply both_closed; [..|exact Hr]; [exact Ho|exact Hab|exact Ha|exact Hb|exact E]].
  destruct H2 as [Hfd ->]. apply bind_inv in Hr as (o & s3 & H3%fdalloc_inv & Hr). destruct o as [fd1|].
  - do 4 (apply bind_inv in Hr as (? & ? & _ & Hr)). done.
  - subst s3. rewrite (bind_ok _ _ _ _ _ eq_refl) in Hr. apply bind_inv in Hr as ([] & s4 & H4 & Hr). injection H4 as <-.
    eapply both_closed; [..|exact Hr]; [|exact Hab|exact Ha|exact Hb|exact E]. cbn [ofile]. rewrite list_insert_insert_eq, <- Ho. apply list_insert_id. exact Hfd.
Qed.

(** ** The steps of a process *)
Section steps.
Context (devread : Z → option (nat → Z → M fstate (Z * list Z))) (devwrite : Z → option (nat → list Z → Z → M fstate Z)).

(** A system call with its result. *)
Inductive syscall : sstate → sysret → sstate → Prop :=
| st_dup s r s' : sys_dup s = Ok (r, s') → syscall s r s'
| st_read killed s r s' : sys_read true devread killed s = Ok (r, s') → syscall s r s'
| st_write killed s r s' : sys_write true devwrite killed s = Ok (r, s') → syscall s r s'
| st_close s r s' : sys_close true s = Ok (r, s') → syscall s r s'
| st_fstat s r s' : sys_fstat true s = Ok (r, s') → syscall s r s'
| st_link name0 de0 s r s' : sys_link true devread devwrite name0 de0 s = Ok (r, s') → syscall s r s'
| st_unlink name0 s r s' : sys_unlink true devread devwrite name0 s = Ok (r, s') → syscall s r s'
| st_open name0 de0 s r s' : sys_open true devread devwrite name0 de0 s = Ok (r, s') → syscall s r s'
| st_mkdir name0 de0 s r s' : sys_mkdir true devread devwrite name0 de0 s = Ok (r, s') → syscall s r s'
| st_mknod name0 de0 s r s' : sys_mknod true devread devwrite name0 de0 s = Ok (r, s') → syscall s r s'
| st_chdir name0 s r s' : sys_chdir true devread name0 s = Ok (r, s') → syscall s r s'
| st_pipe page s r s' : sys_pipe true page s = Ok (r, s') → syscall s r s'.
(** A system call, or user code changing its own memory and registers. *)
Inductive sysstep : sstate → sstate → Prop :=
| st_call s r s' : syscall s r s' → sysstep s s'
| st_user s m e : sysstep s (mkss (us s) m e (ofile s) (ucwd s)).

Lemma failed_like s s' : syscall s (SRet (-1)) s' → like s s'.
Proof using.
  intros Hst. inversion Hst as [? ? ? Hr|? ? ? ? Hr|? ? ? ? Hr|? ? ? Hr|? ? ? Hr|? ? ? ? ? Hr|? ? ? ? Hr|? ? ? ? ? Hr|? ? ? ? ? Hr|? ? ? ? ? Hr|? ? ? ? Hr|? ? ? ? Hr]; subst.
  - by eapply dup_harmless.
  - by eapply (sys_read_good devread (like s)).
  - by eapply (sys_write_good devwrite (like s)).
  - by eapply close_harmless.
  - by eapply (sys_fstat_good (like s)).
  - by eapply (sys_link_good devread devwrite _ _ (like s)).
  - by eapply (sys_unlink_good devread devwrite _ (like s)).
  - by eapply open_harmless.
  - by eapply (sys_mkdir_good devread devwrite _ _ (like s)).
  - by eapply (sys_mknod_good devread devwrite _ _ (like s)).
  - by eapply (sys_chdir_good devread _ (like s)).
  - by eapply pipe_harmless.
Qed.
Lemma sysstep_refs base s s' : sysstep s s' → refs_ok base s → refs_ok base s'.
Proof using.
  intros Hst Hs. destruct Hst as [s r s' Hst|s m e]; [|by apply (refs_ext base s Hs)]. destruct Hst as [? ? ? Hr|? ? ? ? Hr|? ? ? ? Hr|? ? ? Hr|? ? ? Hr|? ? ? ? ? Hr|? ? ? ? Hr|? ? ? ? ? Hr|? ? ? ? ? Hr|? ? ? ? ? Hr|? ? ? ? Hr|? ? ? ? Hr].
  - by eapply sys_dup_good.
  - by eapply sys_read_good; [apply about_refs|..].
  - by eapply sys_write_good; [apply about_refs|..].
  - by eapply sys_close_good.
  - by eapply sys_fstat_good; [apply about_refs|..].
  - by eapply sys_link_good; [apply about_refs|..].
  - by eapply sys_unlink_good; [apply about_refs|..].
  - by eapply sys_open_good.
  - by eapply sys_mkdir_good; [apply about_refs|..].
  - by eapply sys_mknod_good; [apply about_refs|..].
  - by eapply sys_chdir_good; [apply about_refs|..].
  - by eapply sys_pipe_good.
Qed.
End steps.

(** ** Claims *)

(** C31: open descriptors hold references.  Whatever sequence of file-system calls a
    process makes, with whatever results, the reference count of every entry of the
    file table is the number of the process's descriptors for it and the references
    that others hold; so a file with an open descriptor is never a free entry.  A
    call that then returns -1, at whatever point it fails, leaves the descriptors
    and all the counts as they were. *)
Theorem descriptors_hold_references devread devwrite base s s' : refs_ok base s → rtc (sysstep devread devwrite) s s' →
  (∀ f n, refcounts s' !! f = Some n → n = base f + nfds (ofile s') f) ∧
  (∀ fd f, ofile s' !! fd = Some (Some f) → ∃ n, refcounts s' !! f = Some n ∧ 1 ≤ n) ∧
  (∀ s'', syscall devread devwrite s' (SRet (-1)) s'' → ofile s'' = ofile s' ∧ refcounts s'' = refcounts s').
Proof.
  intros Hs Hst. assert (refs_ok base s') as Hs' by (induction Hst; [done|]; eauto using sysstep_refs). split; [apply Hs'|]. split; [|intros s''; apply failed_like].
  intros fd f Hf. pose proof (ro_file _ _ Hs' _ _ Hf) as [n Hn]%lookup_lt_is_Some_2. exists n. split; [done|].
  rewrite (ro_ref _ _ Hs' _ _ Hn). pose proof (ro_base _ _ Hs' f).
  assert (holds_fd f (Some f) ≤ nfds (ofile s') f) as Hle.
  { apply (tally_one _ _ fd); [|done]. intros o _. unfold holds_fd. case_decide; lia. }
  unfold holds_fd in Hle. rewrite decide_True in Hle by done. lia.
Qed.

Module SysEx.
(** A process that calls [pipe(100)]: the argument is above the stack pointer 0. *)
Definition mem0 : list Z := replicate 4 0 ++ [100; 0; 0; 0] ++ replicate 192 0.
Definition ss0 : sstate := mkss TableEx.us0 mem0 0 (replicate NOFILE None) 0.
Definition ss1 : sstate := match sys_pipe true (Some (4096, [])) ss0 with Ok (_, s) => s | _ => ss0 end.
Lemma pipe_run : sys_pipe true (Some (4096, [])) ss0 = Ok (SRet 0, ss1).
Proof. vm_compute. reflexivity. Qed.
Lemma ss0_ok : refs_ok (λ _, 0) ss0.
Proof.
  split; [done|done| |].
  - intros f n Hn. unfold refcounts in Hn. apply list_lookup_fmap_Some in Hn as (x & -> & ->%TableEx.entries0).
    change (0 = 0 + nfds (replicate NOFILE None) f). rewrite Z.add_0_l. symmetry. apply tally_zero. intros o [-> _]%elem_of_replicate. done.
  - intros fd f [? _]%lookup_replicate. done.
Qed.
End SysEx.
Lemma descriptors_hold_references_witness : ∃ n, refcounts SysEx.ss1 !! 1%nat = Some n ∧ 1 ≤ n.
Proof.
  refine (proj1 (proj2 (descriptors_hold_references (λ _, None) (λ _, None) (λ _, 0) SysEx.ss0 SysEx.ss1 SysEx.ss0_ok _)) 1%nat 1%nat _).
  - apply rtc_once. eapply st_call, st_pipe. exact SysEx.pipe_run.
  - vm_compute. reflexivity.
Defined.

Lemma find_nul_spec m : match find_nul m with Some str => (0 ∉ str) ∧ take (S (length str)) m = str ++ [0] | None => 0 ∉ m end.
Proof.
  induction m as [|c m IH]; [apply not_elem_of_nil|]. cbn [find_nul]. case_bool_decide as Hc.
  - subst c. split; [apply not_elem_of_nil|done].
  - destruct (find_nul m) as [t|]; cbn [fmap option_fmap option_map].
    + destruct IH as [H0 Ht]. split; [by apply not_elem_of_cons|]. simpl in *. by rewrite Ht.
    + by apply not_elem_of_cons.
Qed.

(** The word of argument [n], if it is in the process. *)
Definition arg_addr (s : sstate) (n : Z) : Z := u32 (esp s + 4 + 4 * n).
Definition arg_word (s : sstate) (n : Z) : option Z :=
  match load_int (umem s) (arg_addr s n) with Ok i => Some i | Fault _ => None end.
Lemma arg_word_none s n : arg_word s n = None ↔ sz s < arg_addr s n + 4.
Proof.
  pose proof (u32_range (esp s + 4 + 4 * n)) as Ha. unfold arg_word, load_int, sz. fold (arg_addr s n) in Ha. destruct (decide (Z.of_nat (length (umem s)) < arg_addr s n + 4)).
  - unfold load, load_bytes, in_bounds. by rewrite bool_decide_eq_false_2 by lia.
  - rewrite load_ok by lia. split; [done|]. lia.
Qed.
Lemma argint_word s n : sz s < 2^31 → argint n s = Ok (arg_word s n, s).
Proof.
  intros Hsz. pose proof (u32_range (esp s + 4 + 4 * n)) as Ha. unfold argint. rewrite (bind_ok _ _ s (esp s) s) by done.
  assert (u32 (u32 (esp s + 4) + 4 * n) = arg_addr s n) as -> by (unfold arg_addr, u32; by rewrite Zplus_mod_idemp_l). fold (arg_addr s n) in Ha.
  pose proof (arg_word_none s n) as Hn. unfold fetchint. rewrite (bind_ok _ _ s s s) by done. destruct (decide (sz s < arg_addr s n + 4)) as [Hlt|Hge].
  - rewrite (proj2 Hn Hlt). destruct (decide (sz s ≤ arg_addr s n)); [by rewrite bool_decide_eq_true_2 by done|].
    rewrite u32_small by (unfold sz in *; lia). rewrite (bool_decide_eq_true_2 (_ < _)) by lia. by rewrite orb_true_r.
  - rewrite u32_small, !bool_decide_eq_false_2 by (unfold sz in *; lia). cbn [orb]. unfold arg_word. unfold arg_word in Hn.
    destruct (load_int (umem s) (arg_addr s n)); [done|]. by destruct Hge; apply Hn.
Qed.

(** C32: arguments from user space are checked.  For a process of less than 2 GB,
    fetching an argument never faults and changes nothing.  An integer is the word
    above the stack pointer, exactly if its four bytes are in the process.  A pointer
    to [k] bytes is that word, accepted exactly if [k] is not negative, the word is an
    address in the process and so is the end of the [k] bytes; so they can be loaded
    and up to [k] bytes stored there.  A string is the bytes in the process from the
    word on up to a NUL, refused exactly if there is none; and a descriptor is the
    word, accepted exactly if that descriptor is open. *)
Theorem arguments_checked s n k : sz s < 2^31 → 0 ≤ esp s < 2^32 → length (ofile s) = NOFILE → 0 ≤ n < 8 → -2^31 ≤ k < 2^31 →
  (argint n s = Ok (arg_word s n, s) ∧ (arg_word s n = None ↔ sz s < arg_addr s n + 4)) ∧
  (∃ r, argptr n k s = Ok (r, s) ∧
    (∀ p, r = Some p ↔ ∃ i, arg_word s n = Some i ∧ p = u32 i ∧ 0 ≤ k ∧ 0 ≤ p < sz s ∧ p + k ≤ sz s) ∧
    (∀ p, r = Some p → load_bytes (umem s) p (Z.to_nat k) = Ok (slice (umem s) (Z.to_nat p) (Z.to_nat k)) ∧
       ∀ bs, Z.of_nat (length bs) ≤ k → store_bytes (umem s) p bs = Ok (splice (umem s) (Z.to_nat p) bs))) ∧
  (∃ r, argstr n s = Ok (r, s) ∧
    match arg_word s n, r with
    | None, r => r = None
    | Some i, Some str => (0 ∉ str) ∧ slice (umem s) (Z.to_nat (u32 i)) (S (length str)) = str ++ [0]
    | Some i, None => 0 ∉ drop (Z.to_nat (u32 i)) (umem s)
    end) ∧
  (∃ r, argfd n s = Ok (r, s) ∧ ∀ fd f, r = Some (fd, f) ↔ arg_word s n = Some (Z.of_nat fd) ∧ ofile s !! fd = Some (Some f)).
Proof.
  intros Hsz Hesp Hlen Hn Hk. pose proof (argint_word s n Hsz) as Hr. split; [split; [done|apply arg_word_none]|]. unfold argptr, argstr, argfd. rewrite !(bind_ok _ _ _ _ _ Hr).
  destruct (arg_word s n) as [i|]; cycle 1.
  { split_and!; exists None; [|done|]; (split; [done|]); [split; [|done]; intros p; split; [done|naive_solver]|]. intros fd f. split; [done|naive_solver]. }
  pose proof (u32_range i) as Hi. split_and!.
  - rewrite (bind_ok _ _ s s s) by done. destruct (decide (0 ≤ k ∧ u32 i < sz s ∧ u32 i + k ≤ sz s)) as [(K1 & K2 & K3)|Hno].
    + rewrite (u32_small (u32 i + k)), !bool_decide_eq_false_2 by lia. exists (Some (u32 i)). split; [done|]. split; [naive_solver lia|].
      intros p [= <-]. unfold sz in *. split; [apply load_bytes_ok; lia|]. intros bs Hbs. apply store_bytes_ok; lia.
    + exists None. split.
      * destruct (bool_decide (k < 0)) eqn:E1; [done|]. destruct (bool_decide (sz s ≤ u32 i)) eqn:E2; [done|]. apply bool_decide_eq_false in E1, E2.
        rewrite u32_small by lia. rewrite bool_decide_eq_true_2 by lia. done.
      * split; [|done]. intros p. split; [done|]. intros (j & [= <-] & -> & H). lia.
  - unfold fetchstr. rewrite (bind_ok _ _ s s s) by done. destruct (decide (sz s ≤ u32 i)) as [Hle|Hgt].
    + rewrite bool_decide_eq_true_2 by done. exists None. split; [done|]. rewrite drop_ge by (unfold sz in *; lia). apply not_elem_of_nil.
    + rewrite bool_decide_eq_false_2 by done. eexists. split; [done|]. pose proof (find_nul_spec (drop (Z.to_nat (u32 i)) (umem s))) as H. by destruct (find_nul _).
  - case_bool_decide as Hb.
    + exists None. split; [done|]. intros fd f. split; [done|]. intros [[= ->] Hf%lookup_lt_Some]. unfold NOFILE in *. lia.
    + rewrite (bind_ok _ _ s (ofile s) s) by done. destruct (lookup_lt_is_Some_2 (ofile s) (Z.to_nat i)) as [o Ho]; [rewrite Hlen; unfold NOFILE in *; lia|].
      rewrite Ho. destruct o as [f|]; eexists; (split; [done|]); intros fd g.
      * split; [intros [= <- <-]; split; [f_equal; lia|done]|]. intros [[= Ei] Hg]. subst i. rewrite Nat2Z.id in *. congruence.
      * split; [done|]. intros [[= Ei] Hg]. subst i. rewrite Nat2Z.id in *. congruence.
Qed.
Lemma arguments_checked_witness : argptr 0 8 SysEx.ss0 = Ok (Some 100, SysEx.ss0) ∧ 100 + 8 ≤ sz SysEx.ss0.
Proof.
  destruct (arguments_checked SysEx.ss0 0 8 ltac:(vm_compute; reflexivity) ltac:(simpl; lia) eq_refl ltac:(lia) ltac:(lia)) as (_ & (r & Hr & Hp & _) & _).
  assert (r = Some 100) as -> by (vm_compute in Hr; congruence). split; [exact Hr|]. by destruct (proj1 (Hp 100) eq_refl) as (i & _ & _ & _ & _ & H).
Defined.
