(* ===== verification/Umalloc.v ===== *)
(** * The user-level memory allocator

    Models [src/lab3/xv6-public/umalloc.c] (the same file is in lab4): Kernighan and
    Ritchie's allocator, a circular list of free blocks in order of address, whose
    headers are in the memory of the process itself.  The memory is the list of the
    bytes below the break; [sbrk] is seen from the process ([sys_sbrk] and
    [growproc]), and whether the kernel has the memory is a parameter. *)
From stdpp Require Import base numbers list gmap sets.
From S2P Require Import Prelude Bytes.
#[local] Open Scope Z_scope.

Record heap : Type := mkheap { umem : list Z; freep : Z }.
Definition brk (h : heap) : Z := Z.of_nat (length (umem h)).

(** ** Headers

    A header is the address of the next block and the size in units of eight bytes;
    [hdr] is arithmetic on pointers to headers. *)
Definition sizeof_Header : Z := 8.
Definition hdr (p n : Z) : Z := u32 (p + sizeof_Header * n).
Definition set_umem (m : list Z) : M heap unit := modify (λ h, mkheap m (freep h)).
Definition set_freep (p : Z) : M heap unit := modify (λ h, mkheap (umem h) p).
Definition word (x : Z) : M heap Z := m ← gets umem; lift (load 4 m x).
Definition set_word (x v : Z) : M heap unit := m ← gets umem; m' ← lift (store 4 m x v); set_umem m'.
Definition ptr (p : Z) : M heap Z := word p.
Definition size (p : Z) : M heap Z := word (p + 4).
Definition set_ptr (p v : Z) : M heap unit := set_word p v.
Definition set_size (p v : Z) : M heap unit := set_word (p + 4) v.

Section umalloc.
(** The address of the static header [base], and whether the kernel grants a process
    of [sz] bytes [n] more. *)
Variable base : Z.
Variable grant : Z → Z → bool.

(** A process that gives back all its memory does not come back. *)
Definition sbrk (n : Z) : M heap Z :=
  h ← gets (λ h, h);
  let sz := brk h in
  if bool_decide (n > 0) then
    if grant sz n then set_umem (umem h ++ replicate (Z.to_nat n) 0);; mret sz
    else mret (u32 (-1))
  else if bool_decide (n < 0) then
    let newsz := u32 (sz + n) in
    if bool_decide (newsz >= sz) then mret sz
    else if bool_decide (newsz = 0) then fail Undefined
    else set_umem (take (Z.to_nat newsz) (umem h));; mret sz
  else mret sz.

Fixpoint free_scan (fuel : nat) (bp p : Z) : M heap Z :=
  match fuel with
  | O => fail OutOfFuel
  | S fuel =>
    n ← ptr p;
    if bool_decide (bp > p ∧ bp < n) then mret p
    else if bool_decide (p >= n ∧ (bp > p ∨ bp < n)) then mret p
    else free_scan fuel bp n
  end.
(** Joining the block [bp] of [bs] units to the block [n] behind it, and the block [p]
    in front of it to [bp], where they touch. *)
Definition free_up (bp n bs : Z) : M heap unit :=
  if bool_decide (hdr bp bs = n) then
    ns ← size n;
    set_size bp (u32 (bs + ns));;
    nn ← ptr n;
    set_ptr bp nn
  else set_ptr bp n.
Definition free_down (bp p : Z) : M heap unit :=
  ps ← size p;
  if bool_decide (hdr p ps = bp) then
    bs ← size bp;
    set_size p (u32 (ps + bs));;
    bn ← ptr bp;
    set_ptr p bn
  else set_ptr p bp.
Definition free (ap : Z) : M heap unit :=
  let bp := u32 (ap - sizeof_Header) in
  h ← gets (λ h, h);
  p ← free_scan (S (length (umem h))) bp (freep h);
  n ← ptr p;
  bs ← size bp;
  free_up bp n bs;;
  free_down bp p;;
  set_freep p.

Definition morecore (nu : Z) : M heap Z :=
  let nu := if bool_decide (nu < 4096) then 4096 else nu in
  p ← sbrk (s32 (u32 (nu * sizeof_Header)));
  if bool_decide (p = u32 (-1)) then mret 0
  else
    set_size p nu;;
    free (hdr p 1);;
    gets freep.

(** The block [p] of [s] units is large enough. *)
Definition malloc_take (nunits prevp p s : Z) : M heap Z :=
  p' ← (if bool_decide (s = nunits) then
          n ← ptr p;
          set_ptr prevp n;;
          mret p
        else
          set_size p (u32 (s - nunits));;
          let p' := hdr p (u32 (s - nunits)) in
          set_size p' nunits;;
          mret p');
  set_freep prevp;;
  mret (hdr p' 1).
Fixpoint malloc_loop (fuel : nat) (nunits prevp p : Z) : M heap Z :=
  match fuel with
  | O => fail OutOfFuel
  | S fuel =>
    s ← size p;
    if bool_decide (s >= nunits) then malloc_take nunits prevp p s
    else
      fp ← gets freep;
      if bool_decide (p = fp) then
        q ← morecore nunits;
        if bool_decide (q = 0) then mret 0
        else n ← ptr q; malloc_loop fuel nunits q n
      else n ← ptr p; malloc_loop fuel nunits p n
  end.
Definition units (nbytes : Z) : Z := u32 (u32 (nbytes + sizeof_Header - 1) / sizeof_Header + 1).
Definition malloc (nbytes : Z) : M heap Z :=
  let nunits := units nbytes in
  fp ← gets freep;
  (if bool_decide (fp = 0) then
     set_ptr base base;;
     set_freep base;;
     set_size base 0
   else mret tt);;
  h ← gets (λ h, h);
  p ← ptr (freep h);
  malloc_loop (S (length (umem h))) nunits (freep h) p.
End umalloc.
