(* ===== verification/UmallocFacts.v ===== *)
(** * Facts on the user-level allocator

    The free list as a list of blocks in the memory of the process, and what the
    pieces of [free] and [malloc] do to it. *)
From stdpp Require Import base numbers list gmap sets.
From S2P Require Import Prelude Bytes Umalloc.
#[local] Open Scope Z_scope.

(** ** Words in memory *)
Definition put (m : list Z) (x v : Z) : list Z := splice m (Z.to_nat x) (le_bytes 4 v).
Definition inside (m : list Z) (x : Z) : Prop := 0 ≤ x ∧ x + 4 ≤ Z.of_nat (length m).
(** [m'] has what [m] has at the places [P]. *)
Record same (P : Z → Prop) (m m' : list Z) : Prop := {
  sm_len : (length m ≤ length m')%nat;
  sm_at : ∀ x, 0 ≤ x < Z.of_nat (length m) → P x → m' !! Z.to_nat x = m !! Z.to_nat x }.

Lemma same_refl P m : same P m m.
Proof. by split. Qed.
Lemma same_trans P m1 m2 m3 : same P m1 m2 → same P m2 m3 → same P m1 m3.
Proof.
  intros [L1 H1] [L2 H2]. split; [lia|]. intros x Hx Px. rewrite H2, H1 by (done || lia). done.
Qed.
Lemma same_mono (P Q : Z → Prop) m m' : (∀ x, Q x → P x) → same P m m' → same Q m m'.
Proof. intros HPQ [L H]. split; auto. Qed.
Lemma length_put m x v : inside m x → length (put m x v) = length m.
Proof. intros []. unfold put. apply length_splice. rewrite length_le_bytes. lia. Qed.
Lemma inside_put m x v y : inside m x → inside (put m x v) y ↔ inside m y.
Proof. intros H. unfold inside. by rewrite length_put. Qed.
Lemma put_same m x v : inside m x → same (λ y, y < x ∨ x + 4 ≤ y) m (put m x v).
Proof.
  intros H. split; [by rewrite length_put|]. intros y Hy Hd. destruct H. unfold put. apply lookup_splice_old; rewrite length_le_bytes; lia.
Qed.
Lemma load_inside m x v : load 4 m x = Ok v → inside m x.
Proof.
  unfold load, load_bytes. destruct (in_bounds m x 4) eqn:E; [|done]. intros _. apply in_bounds_spec in E. unfold inside. lia.
Qed.
Lemma load_put m x v : inside m x → 0 ≤ v < 2^32 → load 4 (put m x v) x = Ok v.
Proof.
  intros [? ?] Hv. rewrite (load_store_same 4 m x v); [|unfold put; apply store_ok; lia]. f_equal. apply Z.mod_small. done.
Qed.
Lemma load_put_other m x v y : inside m x → y + 4 ≤ x ∨ x + 4 ≤ y → load 4 (put m x v) y = load 4 m y.
Proof. intros [? ?] Hd. apply (load_store_other 4 m x v); [unfold put; apply store_ok; lia|lia]. Qed.
Lemma load_same P m m' x v : same P m m' → (∀ y, x ≤ y < x + 4 → P y) → load 4 m x = Ok v → load 4 m' x = Ok v.
Proof.
  intros [HL H] HP Hl. pose proof (load_inside _ _ _ Hl) as [? ?]. rewrite load_ok in Hl by lia. rewrite load_ok by lia.
  rewrite <- Hl. do 2 f_equal. apply list_eq. intros i. destruct (decide (i < 4)%nat) as [Hi|Hi].
  - rewrite !lookup_slice by done. replace (Z.to_nat x + i)%nat with (Z.to_nat (x + Z.of_nat i)) by lia. apply H; [lia|]. apply HP. lia.
  - rewrite !lookup_ge_None_2; [done| |]; rewrite length_slice; lia.
Qed.
Lemma run_word x v h : load 4 (umem h) x = Ok v → word x h = Ok (v, h).
Proof. intros H. unfold word. rewrite (bind_ok _ _ h (umem h) h) by done. by rewrite H. Qed.
Lemma run_set_word x v h : inside (umem h) x → set_word x v h = Ok (tt, mkheap (put (umem h) x v) (freep h)).
Proof.
  intros [? ?]. unfold set_word. rewrite (bind_ok _ _ h (umem h) h) by done. rewrite store_ok by lia. done.
Qed.

(** ** Blocks *)
Definition addr_of (L : list (Z * Z)) (z : Z) : Z := match L with [] => z | (a, _) :: _ => a end.
Definition within (a n x : Z) : Prop := a ≤ x < a + 8 * n.
Definition header_at (a x : Z) : Prop := a ≤ x < a + 8.
Definition in_headers (L : list (Z * Z)) (x : Z) : Prop := ∃ a n, (a, n) ∈ L ∧ header_at a x.
(** Each block's header has its size and points to the next one, the last to [z]. *)
Fixpoint linked (m : list Z) (L : list (Z * Z)) (z : Z) : Prop :=
  match L with
  | [] => True
  | (a, n) :: L => load 4 m a = Ok (addr_of L z) ∧ load 4 m (a + 4) = Ok n ∧ linked m L z
  end.
(** In order of address, with a gap between any two: no two free blocks touch. *)
Fixpoint apart (lo : Z) (L : list (Z * Z)) : Prop :=
  match L with
  | [] => True
  | (a, n) :: L => lo < a ∧ 0 ≤ n ∧ apart (a + 8 * Z.max 1 n) L
  end.
Fixpoint end_of (lo : Z) (L : list (Z * Z)) : Z :=
  match L with [] => lo | (a, n) :: L => end_of (a + 8 * Z.max 1 n) L end.
Definition free_at (L : list (Z * Z)) (x : Z) : Prop := ∃ a n, (a, n) ∈ L ∧ within a n x.
Definition used_at (A : gmap Z Z) (x : Z) : Prop := ∃ a n, A !! a = Some n ∧ within a n x.

Lemma addr_of_app L1 L2 z : addr_of (L1 ++ L2) z = addr_of L1 (addr_of L2 z).
Proof. by destruct L1 as [|[a n] L1]. Qed.
Lemma linked_app m L1 L2 z : linked m (L1 ++ L2) z ↔ linked m L1 (addr_of L2 z) ∧ linked m L2 z.
Proof. induction L1 as [|[a n] L1 IH]; simpl; [tauto|]. rewrite IH, addr_of_app. tauto. Qed.
Lemma linked_same P m m' L z : same P m m' → (∀ x, in_headers L x → P x) → linked m L z → linked m' L z.
Proof.
  intros Hs. induction L as [|[a n] L IH]; intros HP; [done|]. simpl. intros (H1 & H2 & H3). split_and!.
  - eapply load_same; [done| |done]. intros y Hy. apply HP. exists a, n. split; [left|]. unfold header_at. lia.
  - eapply load_same; [done| |done]. intros y Hy. apply HP. exists a, n. split; [left|]. unfold header_at. lia.
  - apply IH; [|done]. intros x (b & k & Hb & Hx). apply HP. exists b, k. split; [by right|done].
Qed.
Lemma apart_app lo L1 L2 : apart lo (L1 ++ L2) ↔ apart lo L1 ∧ apart (end_of lo L1) L2.
Proof. revert lo. induction L1 as [|[a n] L1 IH]; intros lo; simpl; [tauto|]. rewrite IH. tauto. Qed.
Lemma end_of_app lo L1 L2 : end_of lo (L1 ++ L2) = end_of (end_of lo L1) L2.
Proof. revert lo. induction L1 as [|[a n] L1 IH]; intros lo; simpl; auto. Qed.
Lemma end_of_ge lo L : apart lo L → lo + 8 * Z.of_nat (length L) ≤ end_of lo L.
Proof. revert lo. induction L as [|[a n] L IH]; intros lo; simpl; [lia|]. intros (? & ? & H%IH). lia. Qed.
Lemma apart_elem lo L a n : apart lo L → (a, n) ∈ L → lo < a ∧ 0 ≤ n ∧ a + 8 * Z.max 1 n ≤ end_of lo L.
Proof.
  revert lo. induction L as [|[b k] L IH]; intros lo; simpl; [intros _ []%not_elem_of_nil|].
  intros (? & ? & H) [[= -> ->]|Hin]%elem_of_cons; [pose proof (end_of_ge _ _ H); lia|]. specialize (IH _ H Hin). lia.
Qed.
Lemma apart_mono lo lo' L : lo' ≤ lo → apart lo L → apart lo' L.
Proof. destruct L as [|[a n] L]; [done|]. simpl. intros ? (? & ? & ?). split; [lia|done]. Qed.
Lemma end_of_mono lo lo' L : lo' ≤ lo → end_of lo' L ≤ end_of lo L.
Proof. destruct L as [|[a n] L]; simpl; lia. Qed.
(** Two blocks are the same or there is a gap between them. *)
Lemma apart_sep lo L a n b k : apart lo L → (a, n) ∈ L → (b, k) ∈ L →
  (a = b ∧ n = k) ∨ a + 8 * Z.max 1 n < b ∨ b + 8 * Z.max 1 k < a.
Proof.
  revert lo. induction L as [|[c j] L IH]; intros lo; simpl; [intros _ []%not_elem_of_nil|].
  intros (? & ? & H) [[= -> ->]|Ha]%elem_of_cons [[= -> ->]|Hb]%elem_of_cons.
  - auto.
  - right. left. apply (apart_elem _ _ _ _ H Hb).
  - right. right. apply (apart_elem _ _ _ _ H Ha).
  - by eapply IH.
Qed.
Lemma apart_around lo L1 p k L2 : apart lo (L1 ++ (p, k) :: L2) →
  (∀ a n, (a, n) ∈ L1 → a + 8 * Z.max 1 n < p) ∧ 0 ≤ k ∧ (∀ a n, (a, n) ∈ L2 → p + 8 * Z.max 1 k < a).
Proof.
  rewrite apart_app. intros (H1 & H2 & H3 & H4). split_and!.
  - intros a n Hin. pose proof (apart_elem _ _ _ _ H1 Hin). lia.
  - done.
  - intros a n Hin. pose proof (apart_elem _ _ _ _ H4 Hin). lia.
Qed.
Lemma free_at_nil x : free_at [] x ↔ False.
Proof. split; [|done]. by intros (a & n & []%not_elem_of_nil & _). Qed.
Lemma free_at_cons a n L x : free_at ((a, n) :: L) x ↔ within a n x ∨ free_at L x.
Proof.
  unfold free_at. setoid_rewrite elem_of_cons. split.
  - intros (b & k & [[= -> ->]|H] & Hx); eauto 6.
  - intros [H|(b & k & H & Hx)]; eauto 6.
Qed.
Lemma free_at_app L1 L2 x : free_at (L1 ++ L2) x ↔ free_at L1 x ∨ free_at L2 x.
Proof. induction L1 as [|[a n] L1 IH]; simpl; [rewrite free_at_nil; tauto|]. rewrite !free_at_cons, IH. tauto. Qed.
Lemma in_headers_app L1 L2 x : in_headers (L1 ++ L2) x ↔ in_headers L1 x ∨ in_headers L2 x.
Proof. unfold in_headers. setoid_rewrite elem_of_app. split; [intros (a & n & [H|H] & ?); eauto 6|intros [(a & n & H & ?)|(a & n & H & ?)]; eauto 6]. Qed.
Lemma in_headers_cons a n L x : in_headers ((a, n) :: L) x ↔ header_at a x ∨ in_headers L x.
Proof.
  unfold in_headers. setoid_rewrite elem_of_cons. split.
  - intros (b & k & [[= -> ->]|H] & Hx); eauto 6.
  - intros [H|(b & k & H & Hx)]; eauto 6.
Qed.
(** A circle can be entered anywhere. *)
Lemma linked_rotate m L1 L2 z : L2 ≠ [] → linked m (L1 ++ L2) (addr_of (L1 ++ L2) z) → linked m (L2 ++ L1) (addr_of (L2 ++ L1) z).
Proof.
  intros Hne. rewrite !linked_app, !addr_of_app. destruct L2 as [|[c k] L2]; [done|]. cbn [addr_of]. destruct L1 as [|[a n] L1]; cbn [addr_of]; tauto.
Qed.

(** ** Looking for the place of a block *)
Definition stops (bp p n : Z) : Prop := (bp > p ∧ bp < n) ∨ (p >= n ∧ (bp > p ∨ bp < n)).
Lemma linked_next m L1 p k L2 z : linked m (L1 ++ (p, k) :: L2) z → load 4 m p = Ok (addr_of L2 z) ∧ load 4 m (p + 4) = Ok k.
Proof. rewrite linked_app. simpl. tauto. Qed.
Lemma free_scan_run bp h z : ∀ R fuel, linked (umem h) R z → (length R ≤ fuel)%nat →
  (∃ R1 p k R2, R = R1 ++ (p, k) :: R2 ∧ stops bp p (addr_of R2 z)) →
  ∃ R1 p k R2, R = R1 ++ (p, k) :: R2 ∧ stops bp p (addr_of R2 z) ∧ free_scan fuel bp (addr_of R z) h = Ok (p, h).
Proof.
  induction R as [|[a n] R IH]; intros fuel Hl Hf (R1 & p & k & R2 & HR & Hp); [by destruct R1|].
  destruct fuel as [|fuel]; [simpl in Hf; lia|]. cbn [linked] in Hl. destruct Hl as (Ha & _ & Hl). cbn [addr_of free_scan].
  unfold ptr. rewrite (bind_ok _ _ _ _ _ (run_word _ _ _ Ha)). set (nx := addr_of R z) in *.
  destruct (decide (stops bp a nx)) as [Hs|Hs].
  - exists [], a, n, R. split; [done|]. split; [done|]. destruct Hs as [Hs|Hs].
    + by rewrite bool_decide_eq_true_2.
    + case_bool_decide; [done|]. by rewrite bool_decide_eq_true_2.
  - rewrite !bool_decide_eq_false_2 by (unfold stops in Hs; tauto). destruct R1 as [|? R1]; [by simplify_list_eq|].
    simplify_list_eq. destruct (IH fuel Hl ltac:(simpl in Hf; lia)) as (S1 & q & j & S2 & HS & Hq & Hrun); [eauto 6|].
    exists ((a, n) :: S1), q, j, S2. rewrite HS at 1. by split_and!.
Qed.
Lemma slot_exists bp : ∀ F a n, (∀ c k, (c, k) ∈ F → c ≠ bp) → a < bp →
  ∃ L1 p k L2, (a, n) :: F = L1 ++ (p, k) :: L2 ∧ p < bp ∧ (L2 = [] ∨ bp < addr_of L2 0).
Proof.
  induction F as [|[c k] F IH]; intros a n Hne Ha; [by exists [], a, n, []; auto|].
  destruct (decide (bp < c)) as [Hc|Hc]; [exists [], a, n, ((c, k) :: F); auto|].
  destruct (IH c k) as (L1 & p & j & L2 & HL & H); [set_solver|specialize (Hne c k ltac:(left)); lia|].
  exists ((a, n) :: L1), p, j, L2. by rewrite HL.
Qed.
Lemma addr_of_ne L z z' : L ≠ [] → addr_of L z = addr_of L z'.
Proof. by destruct L as [|[a n] L]. Qed.

Section invariant.
Context (base h0 : Z) (Hbase : 0 < base) (Hh0 : base + 8 < h0).

(** The process's memory from [h0] to the break is made of the free blocks [F], behind
    the header [base], and of the blocks [A] that are in use. *)
Record heap_ok (h : heap) (F : list (Z * Z)) (A : gmap Z Z) : Prop := {
  ho_brk : h0 ≤ brk h < 2^31;
  ho_head : addr_of F 0 = base;
  ho_kind : ∀ a n, (a, n) ∈ F → (a = base ∧ n = 0) ∨ (h0 ≤ a ∧ 1 ≤ n);
  ho_linked : linked (umem h) F base;
  ho_apart : apart 0 F;
  ho_end : end_of 0 F ≤ brk h;
  ho_freep : ∃ n, (freep h, n) ∈ F;
  ho_used : ∀ a n, A !! a = Some n → load 4 (umem h) (a + 4) = Ok n ∧ 1 ≤ n ∧ h0 ≤ a ∧ a + 8 * n ≤ brk h;
  ho_disj : ∀ x, free_at F x → used_at A x → False;
  ho_once : ∀ a n b k x, A !! a = Some n → A !! b = Some k → within a n x → within b k x → a = b;
  ho_cover : ∀ x, h0 ≤ x < brk h → free_at F x ∨ used_at A x }.

Section find.
Context (h : heap) (F : list (Z * Z)) (A : gmap Z Z) (H : heap_ok h F A).

Lemma ok_elem a n : (a, n) ∈ F → base ≤ a ∧ 0 ≤ n ∧ a + 8 * Z.max 1 n ≤ brk h.
Proof using H Hbase Hh0.
  intros Hin. pose proof (apart_elem _ _ _ _ (ho_apart _ _ _ H) Hin) as (_ & ? & ?). pose proof (ho_end _ _ _ H).
  destruct (ho_kind _ _ _ H _ _ Hin) as [[-> ->]|[? ?]]; lia.
Qed.
Lemma ok_length : 8 * Z.of_nat (length F) ≤ brk h.
Proof using H. pose proof (end_of_ge _ _ (ho_apart _ _ _ H)). pose proof (ho_end _ _ _ H). lia. Qed.
Lemma ok_not_free a n : A !! a = Some n → (∀ c k, (c, k) ∈ F → c ≠ a) ∧ base < a.
Proof using H Hbase Hh0.
  intros Ha. destruct (ho_used _ _ _ H _ _ Ha) as (_ & ? & ? & ?). split; [|lia]. intros c k Hin ->.
  destruct (ho_kind _ _ _ H _ _ Hin) as [[? _]|[_ ?]]; [lia|].
  apply (ho_disj _ _ _ H a); [exists a, k|exists a, n]; (split; [done|]); unfold within; lia.
Qed.
(** What is in use is not in the header of a free block. *)
Lemma ok_live a n y : (a, n) ∈ F → used_at A y → y < a ∨ a + 8 ≤ y.
Proof using H Hbase Hh0.
  intros Hin Hu. assert (¬ within a n y) as Hw by (intros Hw; apply (ho_disj _ _ _ H y); [by exists a, n|done]).
  destruct Hu as (b & k & Hb & Hy). destruct (ho_used _ _ _ H _ _ Hb) as (_ & _ & ? & _).
  destruct (ho_kind _ _ _ H _ _ Hin) as [[-> ->]|[? ?]]; unfold within in *; lia.
Qed.
(** The circle, entered at any block. *)
Lemma ok_rotate p k : (p, k) ∈ F → ∃ L1 L2, F = L1 ++ (p, k) :: L2 ∧ linked (umem h) ((p, k) :: L2 ++ L1) p.
Proof using H.
  intros (L1 & L2 & HF)%list_elem_of_split. exists L1, L2. split; [done|]. pose proof (ho_linked _ _ _ H) as Hl. pose proof (ho_head _ _ _ H) as Hh.
  rewrite HF in Hl, Hh. apply (linked_rotate _ L1 ((p, k) :: L2) 0); [done|]. by rewrite Hh.
Qed.
(** The memory determines the successor. *)
Lemma ok_next p k R1 R2 z : (p, k) ∈ F → linked (umem h) (R1 ++ (p, k) :: R2) z →
  ∃ L1 L2, F = L1 ++ (p, k) :: L2 ∧ addr_of L2 base = addr_of R2 z.
Proof using H.
  intros (L1 & L2 & HF)%list_elem_of_split Hl. exists L1, L2. split; [done|]. pose proof (ho_linked _ _ _ H) as HlF. rewrite HF in HlF.
  apply linked_next in Hl as [Hl _], HlF as [HlF _]. congruence.
Qed.
Lemma free_scan_ok bp bs : A !! bp = Some bs →
  ∃ L1 p k L2, F = L1 ++ (p, k) :: L2 ∧ p < bp ∧ (L2 = [] ∨ bp < addr_of L2 base) ∧
    free_scan (S (length (umem h))) bp (freep h) h = Ok (p, h).
Proof using H Hbase Hh0.
  intros Hbp. destruct (ok_not_free _ _ Hbp) as [Hne Hlt]. destruct (ho_freep _ _ _ H) as [fk Hfp].
  destruct (ok_rotate _ _ Hfp) as (X & Y & HF & Hrot). set (R := (freep h, fk) :: Y ++ X) in *.
  assert (∀ x, x ∈ R ↔ x ∈ F) as HRF by (intros x; subst R; rewrite HF, elem_of_cons, !elem_of_app, elem_of_cons; tauto).
  assert (∃ n0 F', F = (base, n0) :: F') as (n0 & F' & HF').
  { pose proof (ho_head _ _ _ H) as Hh. destruct F as [|[b0 n0] F'] eqn:EF; [by destruct X|]. simpl in Hh. subst b0. by exists n0, F'. }
  assert (∀ q j M1 M2, F = M1 ++ (q, j) :: M2 → stops bp q (addr_of M2 base) ↔ q < bp ∧ (M2 = [] ∨ bp < addr_of M2 base)) as Hst.
  { intros q j M1 M2 HM. assert (base ≤ q) as Hq by (apply (ok_elem q j); rewrite HM; set_solver).
    unfold stops. destruct M2 as [|[c i] M2]; cbn [addr_of].
    - split; [|intros [? _]; right; lia]. intros [?|[? [?|?]]]; (split; [lia|by left]).
    - assert (q < c) by (pose proof (ho_apart _ _ _ H) as Hap; rewrite HM, apart_app in Hap; simpl in Hap; lia).
      split; [intros [?|[? ?]]; [|lia]; split; [lia|right; lia]|]. intros [? [?|?]]; [done|]. left. lia. }
  destruct (slot_exists bp F' base n0) as (L1 & p & k & L2 & HL & Hp & Hp2); [intros c j Hc; apply (Hne c j); rewrite HF'; by right|done|].
  rewrite <- HF' in HL.
  destruct (free_scan_run bp h (freep h) R (S (length (umem h))) Hrot) as (R1 & q & j & R2 & HR & Hq & Hrun).
  { pose proof ok_length as Hlen. rewrite HF in Hlen. subst R. unfold brk in Hlen. simpl. rewrite length_app in *. simpl in *. lia. }
  { assert ((p, k) ∈ R) as Hin by (apply HRF; rewrite HL; set_solver). apply list_elem_of_split in Hin as (R1 & R2 & HR). exists R1, p, k, R2. split; [done|].
    rewrite HR in Hrot. pose proof (ho_linked _ _ _ H) as HlF. rewrite HL in HlF. apply linked_next in Hrot as [E1 _], HlF as [E2 _].
    assert (addr_of R2 (freep h) = addr_of L2 base) as -> by congruence. apply (Hst _ _ _ _ HL). split; [done|]. destruct Hp2; [by left|right].
    destruct L2; [simpl in *; lia|]. by rewrite (addr_of_ne _ _ 0). }
  assert ((q, j) ∈ F) as Hin by (apply HRF; rewrite HR; set_solver).
  rewrite HR in Hrot. destruct (ok_next q j R1 R2 (freep h) Hin Hrot) as (M1 & M2 & HM & Heq). rewrite <- Heq in Hq.
  apply (Hst _ _ _ _ HM) in Hq as [Hq1 Hq2]. exists M1, q, j, M2. split_and!; try done.
Qed.
End find.

(** ** Joining blocks *)
Definition elsewhere (a x : Z) : Prop := x < a ∨ a + 8 ≤ x.
Lemma put_header m p v w : inside m p → inside m (p + 4) → 0 ≤ v < 2^32 → 0 ≤ w < 2^32 →
  let m' := put (put m (p + 4) w) p v in
  load 4 m' p = Ok v ∧ load 4 m' (p + 4) = Ok w ∧ length m' = length m ∧ same (elsewhere p) m m'.
Proof.
  intros H1 H2 Hv Hw m'. assert (inside (put m (p + 4) w) p) as H3 by by apply inside_put. subst m'. split_and!.
  - by apply load_put.
  - rewrite load_put_other by (done || lia). by apply load_put.
  - by rewrite !length_put.
  - apply (same_trans _ _ (put m (p + 4) w)); eapply same_mono; try (by apply put_same); unfold elsewhere; lia.
Qed.
Lemma put_next m p v w : inside m p → 0 ≤ v < 2^32 → load 4 m (p + 4) = Ok w →
  let m' := put m p v in
  load 4 m' p = Ok v ∧ load 4 m' (p + 4) = Ok w ∧ length m' = length m ∧ same (elsewhere p) m m'.
Proof.
  intros H1 Hv Hw m'. subst m'. split_and!.
  - by apply load_put.
  - by rewrite load_put_other by (done || lia).
  - by apply length_put.
  - eapply same_mono; [|by apply put_same]. unfold elsewhere. lia.
Qed.
Lemma hdr_small p n : 0 ≤ p → 0 ≤ n → p + 8 * n < 2^32 → hdr p n = p + 8 * n.
Proof. intros. unfold hdr, sizeof_Header. apply u32_small. lia. Qed.

(** What joining to the block behind leaves. *)
Inductive joined_up (bp bs : Z) : list (Z * Z) → Z → list (Z * Z) → Prop :=
| ju_no L : addr_of L 0 ≠ bp + 8 * bs → joined_up bp bs L bs L
| ju_yes ns L : joined_up bp bs ((bp + 8 * bs, ns) :: L) (bs + ns) L.
Lemma free_up_run h bp bs L : brk h < 2^31 → 0 < bp → base < bp → 1 ≤ bs → bp + 8 * bs ≤ brk h →
  load 4 (umem h) (bp + 4) = Ok bs → linked (umem h) L base → (∀ x, in_headers L x → elsewhere bp x) →
  (∀ a n, (a, n) ∈ L → base ≤ a ∧ 0 ≤ n ∧ a + 8 * Z.max 1 n ≤ brk h) →
  ∃ m' bs' L', free_up bp (addr_of L base) bs h = Ok (tt, mkheap m' (freep h)) ∧ joined_up bp bs L bs' L' ∧
    linked m' ((bp, bs') :: L') base ∧ length m' = length (umem h) ∧ same (elsewhere bp) (umem h) m'.
Proof using Hbase.
  intros Hb Hbp Hbb Hbs Hend Hl HL Hd HF. unfold brk in *. unfold free_up. rewrite hdr_small by lia.
  assert (inside (umem h) bp) as I1 by (split; lia). assert (inside (umem h) (bp + 4)) as I2 by (split; lia).
  assert (0 ≤ addr_of L base < 2^32) as Hr.
  { destruct L as [|[a n] L]; simpl; [lia|]. destruct (HF a n ltac:(left)). lia. }
  case_bool_decide as Hj.
  - destruct L as [|[a n] L]; simpl in Hj; [lia|]. subst a. simpl in HL. destruct HL as (La & Ln & HL). destruct (HF _ _ ltac:(left)) as (? & ? & ?).
    assert (0 ≤ addr_of L base < 2^32) as Hr'.
    { destruct L as [|[a k] L]; simpl; [lia|]. destruct (HF a k ltac:(right; left)). lia. }
    cbn [addr_of]. unfold size, set_size, ptr. rewrite (bind_ok _ _ _ _ _ (run_word _ _ _ Ln)). rewrite u32_small by lia. rewrite (bind_ok _ _ _ _ _ (run_set_word _ _ _ I2)).
    set (m1 := put (umem h) (bp + 4) (bs + n)). rewrite (bind_ok _ _ _ (addr_of L base) (mkheap m1 (freep h))).
    2:{ apply run_word. unfold m1. simpl. rewrite load_put_other; [done|done|]. lia. }
    unfold set_ptr. rewrite run_set_word by by apply inside_put. destruct (put_header (umem h) bp (addr_of L base) (bs + n)) as (R1 & R2 & R3 & R4); [done..|lia|].
    eexists _, (bs + n), L. split; [done|]. split; [constructor|]. split; [|done]. simpl. split; [done|]. split; [done|].
    eapply linked_same; [done| |done]. intros x Hx. apply Hd. apply in_headers_cons. by right.
  - unfold set_ptr. rewrite run_set_word by done. destruct (put_next (umem h) bp (addr_of L base) bs) as (R1 & R2 & R3 & R4); [done..|].
    eexists _, bs, L. split; [done|]. split; [constructor; destruct L as [|[a n] L]; simpl in *; lia|]. split; [|done]. simpl. split; [done|]. split; [done|].
    eapply linked_same; done.
Qed.
Inductive joined_down (p ps bp bs : Z) : list (Z * Z) → Prop :=
| jd_no : p + 8 * ps ≠ bp → joined_down p ps bp bs [(p, ps); (bp, bs)]
| jd_yes : p + 8 * ps = bp → joined_down p ps bp bs [(p, ps + bs)].
Lemma free_down_run h p ps bp bs L : brk h < 2^31 → 0 < p → 0 ≤ ps → p + 8 * Z.max 1 ps ≤ bp → 0 ≤ bs → bp + 8 * Z.max 1 bs ≤ brk h →
  load 4 (umem h) (p + 4) = Ok ps → linked (umem h) ((bp, bs) :: L) base → 0 ≤ addr_of L base < 2^32 → (∀ x, in_headers L x → elsewhere p x) →
  ∃ m' K, free_down bp p h = Ok (tt, mkheap m' (freep h)) ∧ joined_down p ps bp bs K ∧
    linked m' (K ++ L) base ∧ length m' = length (umem h) ∧ same (elsewhere p) (umem h) m'.
Proof using.
  intros Hb Hp Hps Hpb Hbs Hend Hl HL Hr Hd. unfold brk in *. unfold free_down, size at 1. rewrite (bind_ok _ _ _ _ _ (run_word _ _ _ Hl)).
  rewrite hdr_small by lia. assert (inside (umem h) p) as I1 by (split; lia). assert (inside (umem h) (p + 4)) as I2 by (split; lia).
  simpl in HL. destruct HL as (La & Ln & HL). case_bool_decide as Hj.
  - unfold size. rewrite (bind_ok _ _ _ _ _ (run_word _ _ _ Ln)). rewrite u32_small by lia. unfold set_size. rewrite (bind_ok _ _ _ _ _ (run_set_word _ _ _ I2)).
    set (m1 := put (umem h) (p + 4) (ps + bs)). unfold ptr. rewrite (bind_ok _ _ _ (addr_of L base) (mkheap m1 (freep h))).
    2:{ apply run_word. unfold m1. simpl. rewrite load_put_other; [done|done|]. lia. }
    unfold set_ptr. rewrite run_set_word by by apply inside_put. destruct (put_header (umem h) p (addr_of L base) (ps + bs)) as (R1 & R2 & R3 & R4); [done..|lia|].
    eexists _, [(p, ps + bs)]. split; [done|]. split; [by constructor|]. split; [|done]. simpl. split; [done|]. split; [done|].
    eapply linked_same; done.
  - unfold set_ptr. rewrite run_set_word by done. destruct (put_next (umem h) p bp ps) as (R1 & R2 & R3 & R4); [done|lia|done|].
    eexists _, [(p, ps); (bp, bs)]. split; [done|]. split; [by constructor|]. split; [|done]. cbn [app linked addr_of]. split; [done|]. split; [done|].
    apply (linked_same _ _ _ ((bp, bs) :: L) base R4); [|done]. intros x [Hx|Hx]%in_headers_cons; [unfold header_at, elsewhere in *; lia|by apply Hd].
Qed.

Lemma join_shape lo E L1 p k L2 bp bs bs' L2' K :
  apart lo (L1 ++ (p, k) :: L2) → end_of lo (L1 ++ (p, k) :: L2) ≤ E → (∀ a n, (a, n) ∈ L2 → 1 ≤ n) →
  p + 8 * Z.max 1 k ≤ bp → (k = 0 → p + 8 < bp) → 1 ≤ bs → bp + 8 * bs ≤ E → (L2 ≠ [] → bp + 8 * bs ≤ addr_of L2 0) →
  joined_up bp bs L2 bs' L2' → joined_down p k bp bs' K →
  apart lo (L1 ++ K ++ L2') ∧ end_of lo (L1 ++ K ++ L2') ≤ E ∧
  (∀ x, free_at (L1 ++ K ++ L2') x ↔ free_at (L1 ++ (p, k) :: L2) x ∨ within bp bs x).
Proof using.
  intros Hap HE H1 Hp Hk Hbs Hend Hn Hu Hd. rewrite apart_app in *. rewrite !end_of_app in *. set (e := end_of lo L1) in *.
  destruct Hap as [Hap1 (Hp0 & Hk0 & Hap2)]. fold (apart (p + 8 * Z.max 1 k) L2) in Hap2. cbn [end_of] in HE.
  assert (apart (bp + 8 * bs') L2' ∧ end_of (bp + 8 * bs') L2' ≤ E ∧ 1 ≤ bs' ∧ (∀ x, within bp bs' x ∨ free_at L2' x ↔ free_at L2 x ∨ within bp bs x)) as (Ha & He & Hb & Hf).
  { destruct Hu as [L Hne|ns L].
    - split; [|split; [destruct L as [|[c j] L]; cbn [end_of] in *; lia|split; [done|tauto]]].
      destruct L as [|[c j] L]; [done|]. cbn [apart addr_of] in *. specialize (Hn ltac:(done)). destruct Hap2 as (? & ? & ?). split; [lia|]. by split.
    - cbn [apart end_of] in Hap2, HE. specialize (H1 _ _ ltac:(left)). rewrite (Z.max_r 1 ns) in Hap2, HE by lia. replace (bp + 8 * (bs + ns)) with (bp + 8 * bs + 8 * ns) by lia.
      split; [tauto|]. split; [done|]. split; [lia|]. intros x. rewrite free_at_cons. assert (within bp (bs + ns) x ↔ within bp bs x ∨ within (bp + 8 * bs) ns x) as -> by (unfold within; lia). tauto. }
  assert (∀ x, free_at (L1 ++ K ++ L2') x ↔ free_at L1 x ∨ free_at K x ∨ free_at L2' x) as Hfx by (intros x; rewrite !free_at_app; tauto).
  setoid_rewrite Hfx. setoid_rewrite free_at_app. setoid_rewrite free_at_cons. rewrite apart_app. destruct Hd as [Hne|He']; cbn [apart end_of].
  - rewrite (Z.max_r 1 bs') by lia. split; [split; [done|]; split_and!; done || lia|]. split; [done|].
    intros x. rewrite !free_at_cons, free_at_nil. specialize (Hf x). tauto.
  - rewrite (Z.max_r 1 (k + bs')) by lia. replace (p + 8 * (k + bs')) with (bp + 8 * bs') by lia. split; [split; [done|]; split_and!; done || lia|]. split; [done|].
    intros x. rewrite !free_at_cons, free_at_nil. specialize (Hf x). assert (within p (k + bs') x ↔ within p k x ∨ within bp bs' x) as -> by (unfold within; lia). tauto.
Qed.

(** ** [free] *)
Lemma joined_up_sub bp bs L2 bs' L2' : joined_up bp bs L2 bs' L2' → 1 ≤ bs → (∀ a n, (a, n) ∈ L2 → 1 ≤ n) →
  bs ≤ bs' ∧ (∀ a n, (a, n) ∈ L2' → (a, n) ∈ L2) ∧ (bs' = bs ∨ (bp + 8 * bs, bs' - bs) ∈ L2).
Proof using.
  intros [L Hne|ns L] Hbs H2; [split; [lia|]; split; [done|by left]|]. specialize (H2 _ _ ltac:(left)). split; [lia|]. split; [by right|].
  right. replace (bs + ns - bs) with ns by lia. left.
Qed.
Lemma joined_kind L1 p k L2 bp bs bs' L2' K : joined_up bp bs L2 bs' L2' → joined_down p k bp bs' K → 1 ≤ bs → h0 ≤ bp →
  p + 8 * Z.max 1 k ≤ bp →
  (∀ a n, (a, n) ∈ L1 ++ (p, k) :: L2 → (a = base ∧ n = 0) ∨ (h0 ≤ a ∧ 1 ≤ n)) → (∀ a n, (a, n) ∈ L2 → 1 ≤ n) →
  (∀ a n, (a, n) ∈ L1 ++ K ++ L2' → (a = base ∧ n = 0) ∨ (h0 ≤ a ∧ 1 ≤ n)) ∧ (∃ n, (p, n) ∈ L1 ++ K ++ L2') ∧ addr_of (L1 ++ K ++ L2') 0 = addr_of (L1 ++ (p, k) :: L2) 0.
Proof using.
  intros Hu Hd Hbs Hbp Hp HF H2. destruct (joined_up_sub _ _ _ _ _ Hu Hbs H2) as (Hb' & Hin & _).
  assert ((p = base ∧ k = 0) ∨ (h0 ≤ p ∧ 1 ≤ k)) as Hpk by (apply HF; apply elem_of_app; right; left).
  split; [|destruct Hd; (split; [eexists; apply elem_of_app; right; left|]); by rewrite !addr_of_app].
  intros a n Ha. apply elem_of_app in Ha as [Ha|[Ha|Ha]%elem_of_app]; [apply HF; apply elem_of_app; by left| |apply HF; apply Hin in Ha; apply elem_of_app; right; by right].
  clear -Ha Hd Hpk Hb' Hbs Hbp Hp.
  destruct Hd as [|Heq]; [apply elem_of_cons in Ha as [[= -> ->]|Ha]; [done|]|]; apply list_elem_of_singleton in Ha as [= -> ->]; right; lia.
Qed.
Lemma used_delete A bp x : used_at (delete bp A) x → used_at A x.
Proof using. intros (a & n & [_ Ha]%lookup_delete_Some & Hx). by exists a, n. Qed.
Section release.
Context (h : heap) (F : list (Z * Z)) (A : gmap Z Z) (bp bs : Z) (H : heap_ok h F A) (Hbp : A !! bp = Some bs).
Context (L1 : list (Z * Z)) (p k : Z) (L2 : list (Z * Z)) (HF : F = L1 ++ (p, k) :: L2) (Hlt : p < bp) (Hslot : L2 = [] ∨ bp < addr_of L2 base).

(** The block fits between its neighbours. *)
Lemma slot_room : (∀ a n, (a, n) ∈ L2 → 1 ≤ n) ∧ p + 8 * Z.max 1 k ≤ bp ∧ (k = 0 → p + 8 < bp) ∧ (L2 ≠ [] → bp + 8 * bs ≤ addr_of L2 0).
Proof using Type*.
  destruct (ho_used _ _ _ H _ _ Hbp) as (Hsz & Hbs & Hb0 & Hbe).
  pose proof (ho_apart _ _ _ H) as Hap. rewrite HF in Hap. destruct (apart_around _ _ _ _ _ Hap) as (Ap1 & Hk & Ap2).
  assert (∀ a n, (a, n) ∈ F → base ≤ a ∧ 0 ≤ n ∧ a + 8 * Z.max 1 n ≤ brk h) as Hel by (intros; by eapply ok_elem).
  assert (∀ x, within bp bs x → free_at F x → False) as Hdis by (intros x Hx Hf; apply (ho_disj _ _ _ H x Hf); by exists bp, bs).
  assert (∀ a n, (a, n) ∈ L2 → 1 ≤ n) as HL2.
  { intros a n Hin. destruct (ho_kind _ _ _ H a n) as [[-> ->]|[_ ?]]; [rewrite HF; set_solver| |done]. specialize (Ap2 _ _ Hin).
    pose proof (Hel p k ltac:(rewrite HF; set_solver)). lia. }
  assert (p + 8 * Z.max 1 k ≤ bp ∧ (k = 0 → p + 8 < bp)) as [Hpb Hk0].
  { destruct (ho_kind _ _ _ H p k) as [[-> ->]|[? ?]]; [rewrite HF; set_solver|lia|]. split; [|lia]. destruct (decide (p + 8 * k ≤ bp)); [lia|].
    exfalso. apply (Hdis bp); [unfold within; lia|]. exists p, k. split; [rewrite HF; set_solver|unfold within; lia]. }
  split; [done|]. split; [done|]. split; [done|].
  { intros Hne. destruct Hslot as [?|Hs]; [done|]. destruct L2 as [|[c j] L2']; [done|]. simpl in Hs |- *. destruct (decide (bp + 8 * bs ≤ c)); [done|].
    exfalso. apply (Hdis c); [unfold within; lia|]. exists c, j. split; [rewrite HF; set_solver|]. specialize (HL2 c j ltac:(left)). unfold within. lia. }
Qed.
Lemma free_run : free_scan (S (length (umem h))) bp (freep h) h = Ok (p, h) →
  ∃ m2 bs' L2' K, free (bp + 8) h = Ok (tt, mkheap m2 p) ∧ joined_up bp bs L2 bs' L2' ∧ joined_down p k bp bs' K ∧
    linked m2 (L1 ++ K ++ L2') base ∧ length m2 = length (umem h) ∧ same (λ x, elsewhere bp x ∧ elsewhere p x) (umem h) m2.
Proof using Type*.
  intros Hscan. destruct slot_room as (HL2 & Hpb & Hk0 & Hnx). destruct (ho_used _ _ _ H _ _ Hbp) as (Hsz & Hbs & Hb0 & Hbe). pose proof (ho_brk _ _ _ H) as Hbrk.
  pose proof (ho_linked _ _ _ H) as Hl. pose proof (ho_apart _ _ _ H) as Hap. rewrite HF in Hl, Hap. destruct (apart_around _ _ _ _ _ Hap) as (Ap1 & Hk & Ap2).
  assert (∀ a n, (a, n) ∈ F → base ≤ a ∧ 0 ≤ n ∧ a + 8 * Z.max 1 n ≤ brk h) as Hel by (intros; by eapply ok_elem).
  apply linked_app in Hl as [Hl1 (Hpn & Hps & Hl2)]. fold (linked (umem h) L2 base) in Hl2. simpl in Hl1.
  destruct (free_up_run h bp bs L2) as (m1 & bs' & L2' & Hup & Ju & Hm1 & Len1 & Sm1); [lia..|done|done| | |].
  { intros x (a & n & Hin & Hx). destruct L2 as [|[c j] L3]; [by apply not_elem_of_nil in Hin|]. specialize (Hnx ltac:(done)). simpl in Hnx.
    assert (c ≤ a); [|unfold header_at, elsewhere in *; lia]. apply elem_of_cons in Hin as [[= -> ->]|Hin]; [lia|].
    apply apart_app in Hap as [_ (_ & _ & _ & _ & Hap)]. pose proof (apart_elem _ _ _ _ Hap Hin). lia. }
  { intros a n Hin. apply Hel. rewrite HF. set_solver. }
  set (h1 := mkheap m1 (freep h)) in *. assert (brk h1 = brk h) as Eb by (unfold brk; simpl; by rewrite Len1).
  destruct (joined_up_sub _ _ _ _ _ Ju Hbs HL2) as (Hbb' & Hsub & Hext).
  assert (bp + 8 * bs' ≤ brk h) as Hbe' by (destruct Hext as [->|Hext]; [done|]; pose proof (Hel _ _ ltac:(rewrite HF; apply elem_of_app; right; right; exact Hext)); lia).
  assert (∀ x, in_headers L2' x → elsewhere p x) as Hp2.
  { intros x (a & n & Hin%Hsub & Hx). specialize (Ap2 _ _ Hin). unfold header_at, elsewhere in *. lia. }
  assert (0 < p) as Hp0 by (pose proof (Hel p k ltac:(rewrite HF; set_solver)); lia).
  destruct (free_down_run h1 p k bp bs' L2') as (m2 & K & Hdn & Jd & Hm2 & Len2 & Sm2); [lia..| |done| |done|].
  { eapply load_same; [exact Sm1| |exact Hps]. unfold elsewhere. lia. }
  { destruct L2' as [|[c j] L2']; simpl; [lia|]. pose proof (Hel c j ltac:(rewrite HF; apply elem_of_app; right; right; apply Hsub; left)). lia. }
  cbn [umem h1] in Len2.
  assert (same (λ x, elsewhere bp x ∧ elsewhere p x) (umem h) m2) as Sm.
  { apply (same_trans _ _ m1); [eapply same_mono; [|exact Sm1]|eapply same_mono; [|exact Sm2]]; tauto. }
  exists m2, bs', L2', K. split; [|split; [done|split; [done|split; [|split; [by rewrite Len2, Len1|done]]]]].
  - unfold free, sizeof_Header. replace (bp + 8 - 8) with bp by lia. rewrite u32_small by (unfold brk in *; lia).
    rewrite (bind_ok _ _ h h h) by done. rewrite (bind_ok _ _ _ _ _ Hscan). unfold ptr. rewrite (bind_ok _ _ _ _ _ (run_word _ _ _ Hpn)).
    unfold size. rewrite (bind_ok _ _ _ _ _ (run_word _ _ _ Hsz)). rewrite (bind_ok _ _ _ _ _ Hup). rewrite (bind_ok _ _ _ _ _ Hdn). done.
  - apply linked_app. split; [|done]. replace (addr_of (K ++ L2') base) with p by (by destruct Jd).
    eapply linked_same; [exact Sm| |exact Hl1]. intros x (a & n & Hin & Hx). specialize (Ap1 _ _ Hin). unfold header_at, elsewhere in *. lia.
Qed.
(** What is still in use is neither in the block nor in a header that changes. *)
Lemma release_live x : used_at (delete bp A) x → ¬ within bp bs x ∧ elsewhere bp x ∧ elsewhere p x.
Proof using Type*.
  intros Hx. destruct (ho_used _ _ _ H _ _ Hbp) as (_ & ? & _). assert (¬ within bp bs x) as Hnw.
  { destruct Hx as (a & n & [Hne Ha]%lookup_delete_Some & Hx). intros Hx'. apply Hne. by eapply (ho_once _ _ _ H). }
  split; [done|]. split; [unfold within, elsewhere in *; lia|]. apply used_delete in Hx. apply (ok_live h F A H p k); [rewrite HF; set_solver|done].
Qed.
End release.
Lemma free_ok h F A bp bs : heap_ok h F A → A !! bp = Some bs → ∃ h' F', free (bp + 8) h = Ok (tt, h') ∧ heap_ok h' F' (delete bp A) ∧
  (∀ x, free_at F' x ↔ free_at F x ∨ within bp bs x) ∧ same (used_at (delete bp A)) (umem h) (umem h') ∧ length (umem h') = length (umem h) ∧ (length F' ≤ S (length F))%nat.
Proof using Hbase Hh0.
  intros H Hbp. destruct (free_scan_ok _ _ _ H _ _ Hbp) as (L1 & p & k & L2 & HF & Hlt & Hslot & Hscan).
  destruct (ho_used _ _ _ H _ _ Hbp) as (Hsz & Hbs & Hb0 & Hbe). pose proof (ho_brk _ _ _ H) as Hbrk.
  destruct (slot_room h F A bp bs H Hbp L1 p k L2 HF Hlt Hslot) as (HL2 & Hpb & Hk0 & Hnx).
  destruct (free_run h F A bp bs H Hbp L1 p k L2 HF Hlt Hslot Hscan) as (m2 & bs' & L2' & K & Hrun & Ju & Jd & Hl & Len & Sm).
  destruct (join_shape 0 (brk h) L1 p k L2 bp bs bs' L2' K) as (Jap & Jend & Jfree); try done; [rewrite <- HF; apply H..|].
  destruct (joined_kind L1 p k L2 bp bs bs' L2' K) as (Jk & Jp & Jh); try done; [rewrite <- HF; apply H|].
  pose proof (release_live h F A bp bs H Hbp L1 p k L2 HF Hlt Hslot) as Hlive.
  exists (mkheap m2 p), (L1 ++ K ++ L2'). split; [done|split; [|split; [by rewrite HF|split; [|split; [done|]]]]].
  3:{ rewrite HF, !length_app. simpl. destruct Ju; destruct Jd; simpl; lia. }
  2:{ eapply same_mono; [|exact Sm]. intros x Hx. apply (Hlive x Hx). }
  assert (brk (mkheap m2 p) = brk h) as Eb by (unfold brk; simpl; by rewrite Len). split; rewrite ?Eb; try done.
  - rewrite Jh, <- HF. apply H.
  - intros a n [Hne Ha]%lookup_delete_Some. destruct (ho_used _ _ _ H _ _ Ha) as (Hla & ? & ? & ?). split; [|done].
    eapply load_same; [exact Sm| |exact Hla]. intros y Hy. apply Hlive. exists a, n. split; [by apply lookup_delete_Some|]. unfold within. lia.
  - intros x Hx Hu. apply Jfree in Hx as [Hx|Hx]; [|by eapply Hlive]. rewrite <- HF in Hx. apply (ho_disj _ _ _ H x Hx). by eapply used_delete.
  - intros a n b j x [_ Ha]%lookup_delete_Some [_ Hb]%lookup_delete_Some. by apply (ho_once _ _ _ H).
  - intros x Hx. rewrite Jfree, <- HF. destruct (ho_cover _ _ _ H x) as [Hf|(a & n & Ha & Hax)]; [done|auto|].
    destruct (decide (a = bp)) as [->|Hne]; [left; right; congruence|]. right. exists a, n. split; [by apply lookup_delete_Some|done].
Qed.
End invariant.
