(* ===== verification/UmallocClaims.v ===== *)
(** * The user-level allocator is correct

    [malloc] and [free] over the invariant of UmallocFacts, and what it means for
    every sequence of calls. *)
From stdpp Require Import base numbers list gmap sets relations.
From S2P Require Import Prelude Bytes Umalloc UmallocFacts.
#[local] Open Scope Z_scope.

Section malloc.
Context (base h0 : Z) (Hbase : 0 < base) (Hh0 : base + 8 < h0).
#[local] Abbreviation ok := (heap_ok base h0).

(** ** Taking a block from the free list *)
Lemma alloc_ok h F A m' F' x a n : ok h F A → length m' = length (umem h) → linked m' F' base → apart 0 F' → end_of 0 F' ≤ brk h →
  addr_of F' 0 = base → (∀ b k, (b, k) ∈ F' → (b = base ∧ k = 0) ∨ (h0 ≤ b ∧ 1 ≤ k)) → (∃ k, (x, k) ∈ F') →
  (∀ y, free_at F y ↔ free_at F' y ∨ within a n y) → (∀ y, free_at F' y → ¬ within a n y) →
  load 4 m' (a + 4) = Ok n → 1 ≤ n → h0 ≤ a → a + 8 * n ≤ brk h → same (used_at A) (umem h) m' →
  ok (mkheap m' x) F' (<[a := n]> A) ∧ A !! a = None.
Proof.
  intros H Len Hl Hap Hend Hh Hk Hx Hf Hd Hn Hn1 Ha0 Hae Sm. assert (brk (mkheap m' x) = brk h) as Eb by (unfold brk; simpl; by rewrite Len).
  assert (∀ y, within a n y → ¬ used_at A y) as Hnew by (intros y Hy Hu; apply (ho_disj _ _ _ _ _ H y); [apply Hf; by right|done]).
  assert (∀ y, used_at (<[a := n]> A) y → within a n y ∨ used_at A y) as Hins.
  { intros y (b & k & [[-> ->]|[_ Hb]]%lookup_insert_Some & Hy); [by left|right; by exists b, k]. }
  assert (A !! a = None) as HN.
  { destruct (A !! a) as [k|] eqn:E; [|done]. exfalso. apply (Hnew a); [unfold within; lia|]. exists a, k. split; [done|].
    pose proof (ho_used _ _ _ _ _ H _ _ E). unfold within. lia. }
  split; [|done]. split; rewrite ?Eb; try done; [apply H| | | |].
  - intros b k [[-> ->]|[_ Hb]]%lookup_insert_Some; [done|]. destruct (ho_used _ _ _ _ _ H _ _ Hb) as (Hlb & ? & ? & ?). split; [|done].
    eapply load_same; [exact Sm| |exact Hlb]. intros y Hy. exists b, k. split; [done|]. unfold within. lia.
  - intros y Hy [Hw|Hu]%Hins; [by eapply Hd|]. apply (ho_disj _ _ _ _ _ H y); [apply Hf; by left|done].
  - intros b k c j y [[-> ->]|[_ Hb]]%lookup_insert_Some [[-> ->]|[_ Hc]]%lookup_insert_Some Hy1 Hy2; [done| | |by eapply (ho_once _ _ _ _ _ H)].
    + exfalso. apply (Hnew y Hy1). by exists c, j.
    + exfalso. apply (Hnew y Hy2). by exists b, k.
  - intros y Hy. destruct (ho_cover _ _ _ _ _ H y Hy) as [[Hy1|Hy1]%Hf|(b & k & Hb & Hy1)]; [by left| |].
    + right. exists a, n. by rewrite lookup_insert_eq.
    + right. exists b, k. rewrite lookup_insert_ne; [done|]. intros ->. congruence.
Qed.
Section take.
Context (h : heap) (F : list (Z * Z)) (A : gmap Z Z) (H : ok h F A).

(** Taking part of a block keeps the places apart. *)
Lemma not_within L1 p s L2 y : F = L1 ++ (p, s) :: L2 → free_at L1 y ∨ free_at L2 y → ¬ within p s y.
Proof using H.
  intros HF Hy Hw. pose proof (ho_apart _ _ _ _ _ H) as Hap. rewrite HF in Hap. destruct (apart_around _ _ _ _ _ Hap) as (H1 & Hs & H2).
  unfold within in Hw. destruct Hy as [(b & k & Hb & Hy)|(b & k & Hb & Hy)]; unfold within in Hy.
  - specialize (H1 _ _ Hb). lia.
  - specialize (H2 _ _ Hb). lia.
Qed.
Lemma live_outside L1 p s L2 : F = L1 ++ (p, s) :: L2 → ∀ y, used_at A y → elsewhere p y ∧ ¬ within p s y.
Proof using H Hbase Hh0.
  intros HF y Hy. assert ((p, s) ∈ F) as Hin by (rewrite HF; apply elem_of_app; right; left). split.
  - by apply (ok_live base h0 Hbase Hh0 h F A H p s).
  - intros Hw. apply (ho_disj _ _ _ _ _ H y); [by exists p, s|done].
Qed.
Lemma headers_elsewhere L1 p s L2 : F = L1 ++ (p, s) :: L2 → ∀ y, in_headers L1 y ∨ in_headers L2 y → elsewhere p y ∧ ¬ within p s y.
Proof using H.
  intros HF y Hy. pose proof (ho_apart _ _ _ _ _ H) as Hap. rewrite HF in Hap. destruct (apart_around _ _ _ _ _ Hap) as (H1 & Hs & H2).
  unfold elsewhere, within. destruct Hy as [(b & k & Hb & Hy)|(b & k & Hb & Hy)]; unfold header_at in Hy.
  - specialize (H1 _ _ Hb). lia.
  - specialize (H2 _ _ Hb). lia.
Qed.

Lemma take_whole X1 x xn p s X3 : F = X1 ++ (x, xn) :: (p, s) :: X3 → 1 ≤ s →
  ∃ m', malloc_take s x p s h = Ok (p + 8, mkheap m' x) ∧ A !! p = None ∧ ok (mkheap m' x) (X1 ++ (x, xn) :: X3) (<[p := s]> A) ∧
    same (used_at A) (umem h) m'.
Proof using H Hbase Hh0.
  intros HF Hs. pose proof (ho_brk _ _ _ _ _ H) as Hb. pose proof (ho_apart _ _ _ _ _ H) as Hap. pose proof (ho_end _ _ _ _ _ H) as Hend.
  pose proof (ho_linked _ _ _ _ _ H) as Hl. pose proof (ho_head _ _ _ _ _ H) as Hh. pose proof (ho_kind _ _ _ _ _ H) as Hk.
  assert (F = (X1 ++ [(x, xn)]) ++ (p, s) :: X3) as HF2 by by rewrite <- app_assoc.
  destruct (ok_elem base h0 Hbase Hh0 h F A H p s) as (Hp1 & Hp2 & Hp3); [rewrite HF2; apply elem_of_app; right; left|].
  destruct (ok_elem base h0 Hbase Hh0 h F A H x xn) as (Hx1 & Hx2 & Hx3); [rewrite HF; apply elem_of_app; right; left|].
  assert (h0 ≤ p) as Hp0 by (destruct (Hk p s) as [[-> ->]|[? _]]; [rewrite HF2; apply elem_of_app; right; left|lia|done]).
  pose proof (live_outside _ _ _ _ HF) as Hlx. pose proof (headers_elsewhere _ _ _ _ HF) as Hhx. pose proof (live_outside _ _ _ _ HF2) as Hlp.
  assert (0 ≤ addr_of X3 base < 2^32) as Hr.
  { destruct X3 as [|[c j] X3]; simpl; [lia|]. destruct (ok_elem base h0 Hbase Hh0 h F A H c j) as (? & ? & ?); [rewrite HF2; set_solver|lia]. }
  rewrite HF in Hap, Hend, Hl, Hh. apply linked_app in Hl as [Hl1 (Hxp & Hxs & Hpp & Hps & Hl3)]. fold (linked (umem h) X3 base) in Hl3.
  destruct (put_next (umem h) x (addr_of X3 base) xn) as (R1 & R2 & R3 & R4); [unfold brk in *; split; lia|done|done|]. set (m' := put (umem h) x (addr_of X3 base)) in *.
  assert (same (used_at A) (umem h) m') as Sm by (eapply same_mono; [|exact R4]; apply Hlx).
  exists m'. assert (hdr p 1 = p + 8) as E1 by (rewrite hdr_small; unfold brk in *; lia).
  assert (malloc_take s x p s h = Ok (p + 8, mkheap m' x)) as ->.
  { rewrite <- E1. unfold malloc_take. rewrite bool_decide_eq_true_2 by done. unfold ptr, set_ptr.
    rewrite bind_assoc. rewrite (bind_ok _ _ _ _ _ (run_word _ _ _ Hpp)). rewrite bind_assoc.
    rewrite (bind_ok _ _ _ _ _ (run_set_word x _ h ltac:(unfold brk in *; split; lia))). done. }
  split; [done|]. apply and_assoc. split; [|done]. apply and_comm.
  apply apart_app in Hap as [Hap1 (Hx0 & _ & Hxp0 & _ & Hap3)]. fold (apart (p + 8 * Z.max 1 s) X3) in Hap3. rewrite end_of_app in Hend. cbn [end_of] in Hend.
  eapply alloc_ok; try done.
  - apply linked_app. split; [|split; [done|split; [done|]]].
    + eapply linked_same; [exact R4| |exact Hl1]. intros y Hy. apply Hhx. by left.
    + eapply linked_same; [exact R4| |exact Hl3]. intros y Hy. apply Hhx. right. apply in_headers_cons. by right.
  - apply apart_app. split; [done|]. split; [done|]. split; [done|]. eapply apart_mono; [|exact Hap3]. lia.
  - rewrite end_of_app. cbn [end_of]. etrans; [|exact Hend]. apply end_of_mono. lia.
  - rewrite addr_of_app in *. done.
  - intros b k Hbk. apply Hk. rewrite HF. set_solver.
  - exists xn. set_solver.
  - intros y. rewrite HF, !free_at_app, !free_at_cons. tauto.
  - intros y Hy. apply (not_within _ _ _ _ y HF2). rewrite free_at_app, !free_at_cons, free_at_nil in *. tauto.
  - eapply load_same; [exact R4| |exact Hps]. unfold elsewhere. lia.
  - lia.
Qed.
Lemma take_tail X1 x xn p s X3 nunits : F = X1 ++ (x, xn) :: (p, s) :: X3 → 1 ≤ nunits < s →
  ∃ m', let a := p + 8 * (s - nunits) in
    malloc_take nunits x p s h = Ok (a + 8, mkheap m' x) ∧ A !! a = None ∧
    ok (mkheap m' x) (X1 ++ (x, xn) :: (p, s - nunits) :: X3) (<[a := nunits]> A) ∧ same (used_at A) (umem h) m'.
Proof using H Hbase Hh0.
  intros HF' Hs. pose proof (ho_brk _ _ _ _ _ H) as Hb. pose proof (ho_apart _ _ _ _ _ H) as Hap. pose proof (ho_end _ _ _ _ _ H) as Hend.
  pose proof (ho_linked _ _ _ _ _ H) as Hl. pose proof (ho_head _ _ _ _ _ H) as Hh. pose proof (ho_kind _ _ _ _ _ H) as Hk.
  assert (F = (X1 ++ [(x, xn)]) ++ (p, s) :: X3) as HF by by rewrite <- app_assoc.
  replace (X1 ++ (x, xn) :: (p, s - nunits) :: X3) with ((X1 ++ [(x, xn)]) ++ (p, s - nunits) :: X3) by by rewrite <- app_assoc.
  assert ((x, xn) ∈ X1 ++ [(x, xn)]) as Hx by set_solver. assert (addr_of (X1 ++ [(x, xn)]) 0 = base) as Hh'.
  { rewrite HF', addr_of_app in Hh. by rewrite addr_of_app. }
  clear HF'. set (X := X1 ++ [(x, xn)]) in *. clearbody X.
  destruct (ok_elem base h0 Hbase Hh0 h F A H p s) as (Hp1 & Hp2 & Hp3); [rewrite HF; apply elem_of_app; right; left|].
  assert (h0 ≤ p) as Hp0 by (destruct (Hk p s) as [[-> ->]|[? _]]; [rewrite HF; apply elem_of_app; right; left|lia|done]).
  pose proof (live_outside _ _ _ _ HF) as Hlp. pose proof (headers_elsewhere _ _ _ _ HF) as Hhp. set (a := p + 8 * (s - nunits)).
  rewrite HF in Hap, Hend, Hl. apply linked_app in Hl as [Hl1 (Hpp & Hps & Hl3)]. fold (linked (umem h) X3 base) in Hl3. unfold brk in *.
  assert (inside (umem h) (p + 4)) as I1 by (split; lia). assert (inside (umem h) (a + 4)) as I2 by (split; lia).
  set (m1 := put (umem h) (p + 4) (s - nunits)). set (m2 := put m1 (a + 4) nunits). assert (inside m1 (a + 4)) as I3 by by apply inside_put.
  assert (same (λ y, elsewhere p y ∧ ¬ within p s y) (umem h) m2) as Sm2.
  { apply (same_trans _ _ m1); eapply same_mono; try (by apply put_same); unfold elsewhere, within; lia. }
  assert (same (used_at A) (umem h) m2) as Sm by (eapply same_mono; [|exact Sm2]; apply Hlp).
  exists m2. assert (hdr a 1 = a + 8) as E1 by (rewrite hdr_small; lia). assert (hdr p (s - nunits) = a) as E2 by (rewrite hdr_small; lia).
  assert (malloc_take nunits x p s h = Ok (a + 8, mkheap m2 x)) as ->.
  { rewrite <- E1. unfold malloc_take. rewrite bool_decide_eq_false_2 by lia. rewrite u32_small, E2 by lia. unfold set_size.
    rewrite bind_assoc. rewrite (bind_ok _ _ _ _ _ (run_set_word _ _ h I1)). cbv beta zeta. rewrite bind_assoc.
    rewrite (bind_ok _ _ _ _ _ (run_set_word _ _ (mkheap m1 (freep h)) I3)). done. }
  split; [done|]. apply and_assoc. split; [|done]. apply and_comm.
  apply apart_app in Hap as [Hap1 (Hx0 & _ & Hap3)]. fold (apart (p + 8 * Z.max 1 s) X3) in Hap3. rewrite end_of_app in Hend. cbn [end_of] in Hend.
  eapply alloc_ok; try done.
  - unfold m2, m1. by rewrite !length_put.
  - apply linked_app. split; [|split; [|split]].
    + eapply linked_same; [exact Sm2| |exact Hl1]. intros y Hy. apply Hhp. by left.
    + unfold m2, m1. rewrite !load_put_other by (done || lia). done.
    + unfold m2, m1. rewrite load_put_other by (done || lia). apply load_put; [done|lia].
    + eapply linked_same; [exact Sm2| |exact Hl3]. intros y Hy. apply Hhp. by right.
  - apply apart_app. split; [done|]. split; [done|]. split; [lia|]. eapply apart_mono; [|exact Hap3]. lia.
  - unfold brk. rewrite end_of_app. cbn [end_of]. etrans; [|exact Hend]. apply end_of_mono. lia.
  - rewrite addr_of_app. destruct X as [|[c j] X]; [by apply not_elem_of_nil in Hx|done].
  - intros b k [Hbk|[[= -> ->]|Hbk]%elem_of_cons]%elem_of_app; [apply Hk; rewrite HF; set_solver|right; lia|apply Hk; rewrite HF; set_solver].
  - exists xn. set_solver.
  - intros y. rewrite HF, !free_at_app, !free_at_cons. assert (within p s y ↔ within p (s - nunits) y ∨ within a nunits y) as -> by (unfold within, a; lia). tauto.
  - intros y Hy Hw. rewrite free_at_app, !free_at_cons in Hy. assert (within p s y) by (unfold within, a in *; lia).
    destruct Hy as [Hy|[Hy|Hy]]; [|unfold within, a in *; lia|]; eapply (not_within _ _ _ _ y HF); eauto.
  - unfold m2. apply load_put; [done|lia].
  - lia.
  - unfold a. lia.
  - unfold a, brk. lia.
Qed.
End take.

Context (grant : Z → Z → bool) (Hgrant : ∀ s n, grant s n = true → s + n < 2^31).
(** ** Going round the list *)
Fixpoint last_addr (d : Z) (L : list (Z * Z)) : Z := match L with [] => d | (a, _) :: L => last_addr a L end.
Lemma malloc_scan h nunits fk z : ∀ R prevp fuel, let C := R ++ [(freep h, fk)] in
  linked (umem h) C z → (∀ a n, (a, n) ∈ R → a ≠ freep h) → (length R < fuel)%nat →
  (∃ R1 p s R2, C = R1 ++ (p, s) :: R2 ∧ nunits ≤ s ∧
     malloc_loop grant fuel nunits prevp (addr_of C z) h = malloc_take nunits (last_addr prevp R1) p s h) ∨
  ((∀ a s, (a, s) ∈ C → s < nunits) ∧
   malloc_loop grant fuel nunits prevp (addr_of C z) h =
     (q ← morecore grant nunits;
      if bool_decide (q = 0) then mret 0 else n ← ptr q; malloc_loop grant (fuel - S (length R)) nunits q n) h).
Proof using.
  induction R as [|[a n] R IH]; intros prevp [|fuel] C Hl Hne Hf; [simpl in Hf; lia| |simpl in Hf; lia|]; subst C; cbn [app linked addr_of malloc_loop] in *.
  - destruct Hl as (Hp & Hs & _). unfold size. rewrite (bind_ok _ _ _ _ _ (run_word _ _ _ Hs)). case_bool_decide as Hc.
    + left. exists [], (freep h), fk, []. split; [done|]. split; [lia|done].
    + right. split; [intros b s [= -> ->]%list_elem_of_singleton; lia|]. rewrite (bind_ok _ _ h (freep h) h) by done. rewrite bool_decide_eq_true_2 by done.
      simpl. by rewrite Nat.sub_0_r.
  - destruct Hl as (Hp & Hs & Hl). unfold size. rewrite (bind_ok _ _ _ _ _ (run_word _ _ _ Hs)). case_bool_decide as Hc.
    + left. exists [], a, n, (R ++ [(freep h, fk)]). split; [done|]. split; [lia|done].
    + rewrite (bind_ok _ _ h (freep h) h) by done. rewrite bool_decide_eq_false_2 by (apply (Hne a n); left).
      assert (ptr a h = Ok (addr_of (R ++ [(freep h, fk)]) z, h)) as Hpa by by apply run_word.
      rewrite (bind_ok _ _ _ _ _ Hpa).
      destruct (IH a fuel Hl) as [(R1 & p & s & R2 & HR & Hle & Hrun)|[Hall Hrun]]; [intros b k Hb; apply (Hne b k); by right|simpl in Hf; lia| |].
      * left. exists ((a, n) :: R1), p, s, R2. split; [by rewrite HR|]. by split.
      * right. split; [|exact Hrun]. intros b s [[= -> ->]|Hb]%elem_of_cons; [lia|by eapply Hall].
Qed.
Lemma last_addr_linked m R1 p s R2 x xn z : linked m ((x, xn) :: R1 ++ (p, s) :: R2) z →
  load 4 m (last_addr x R1) = Ok p ∧ ∃ n, (last_addr x R1, n) ∈ (x, xn) :: R1.
Proof using.
  revert x xn. induction R1 as [|[a n] R1 IH]; intros x xn.
  - simpl. intros (Hx & _). split; [done|]. exists xn. left.
  - intros (_ & _ & Hl). fold (linked m ((a, n) :: R1 ++ (p, s) :: R2) z) in Hl. destruct (IH _ _ Hl) as [H1 [k Hk]]. split; [done|]. exists k. by right.
Qed.
(** A lap takes a block that is large enough, or finds that there is none. *)
Lemma lap h F A nunits fuel : ok h F A → 1 ≤ nunits → (length F ≤ fuel)%nat → ∃ p0, ptr (freep h) h = Ok (p0, h) ∧
  ((∃ m' F' x a, malloc_loop grant fuel nunits (freep h) p0 h = Ok (a + 8, mkheap m' x) ∧ A !! a = None ∧
      ok (mkheap m' x) F' (<[a := nunits]> A) ∧ same (used_at A) (umem h) m') ∨
   ((∀ a s, (a, s) ∈ F → s < nunits) ∧
    malloc_loop grant fuel nunits (freep h) p0 h =
     (q ← morecore grant nunits;
      if bool_decide (q = 0) then mret 0 else n ← ptr q; malloc_loop grant (fuel - length F) nunits q n) h)).
Proof using Hbase Hh0.
  intros H Hn Hf. destruct (ho_freep _ _ _ _ _ H) as [fk Hfp]. destruct (ok_rotate base h0 h F A H _ _ Hfp) as (X & Y & HF & Hrot).
  set (R := Y ++ X) in *. assert (∀ e, e ∈ R ++ [(freep h, fk)] ↔ e ∈ F) as HRF.
  { intros e. subst R. rewrite HF, !elem_of_app, !elem_of_cons, elem_of_nil. tauto. }
  set (p0 := addr_of R (freep h)). assert (linked (umem h) (R ++ [(freep h, fk)]) p0 ∧ addr_of (R ++ [(freep h, fk)]) p0 = p0) as [Hl Ha].
  { cbn [linked] in Hrot. rewrite linked_app, addr_of_app. simpl. tauto. }
  exists p0. destruct Hrot as (Hpp & Hps & HR). split; [by apply run_word|].
  destruct (malloc_scan h nunits fk p0 R (freep h) fuel Hl) as [(R1 & p & s & R2 & HC & Hs & Hrun)|[Hall Hrun]].
  - intros a n Hin Ea. pose proof (ho_apart _ _ _ _ _ H) as Hap. rewrite HF in Hap. destruct (apart_around _ _ _ _ _ Hap) as (H1 & Hk & H2).
    subst R. apply elem_of_app in Hin as [Hin|Hin]; [specialize (H2 _ _ Hin)|specialize (H1 _ _ Hin)]; lia.
  - rewrite HF, length_app in Hf. subst R. rewrite length_app. simpl in Hf. lia.
  - left. rewrite Ha in Hrun. rewrite Hrun. assert ((p, s) ∈ F) as Hin by (apply HRF; rewrite HC; apply elem_of_app; right; left).
    assert (linked (umem h) ((freep h, fk) :: R1 ++ (p, s) :: R2) p0) as Hl2.
    { rewrite <- HC. split; [|done]. by rewrite Ha. }
    destruct (last_addr_linked _ _ _ _ _ _ _ _ Hl2) as [Hlx [xn Hx]]. set (x := last_addr (freep h) R1) in *.
    assert ((x, xn) ∈ F) as HxF.
    { apply elem_of_cons in Hx as [[= Ex ->]|Hx]; [by rewrite Ex|]. apply HRF. rewrite HC. apply elem_of_app. by left. }
    apply list_elem_of_split in HxF as (X1 & X2 & HF2). pose proof (ho_linked _ _ _ _ _ H) as HlF. rewrite HF2 in HlF. apply linked_next in HlF as [Hnx _].
    assert (addr_of X2 base = p) as Hp by congruence. assert (h0 ≤ p) as Hp0 by (destruct (ho_kind _ _ _ _ _ H p s Hin) as [[_ ->]|[? _]]; [lia|done]).
    destruct X2 as [|[p' s'] X3]; simpl in Hp; [lia|]. subst p'. assert (s' = s) as ->.
    { destruct (apart_sep 0 F p s' p s) as [[_ ?]|[?|?]]; [apply H|rewrite HF2; apply elem_of_app; right; right; left|done|done|lia|lia]. }
    destruct (decide (s = nunits)) as [->|Hne].
    + destruct (take_whole h F A H X1 x xn p nunits X3 HF2 Hn) as (m' & Ht & HA & Hok & Sm). eauto 10.
    + destruct (take_tail h F A H X1 x xn p s X3 nunits HF2) as (m' & Ht & HA & Hok & Sm); [lia|]. eauto 10.
  - right. split; [intros a s Hin; apply (Hall a s); by apply HRF|]. rewrite Ha in Hrun. rewrite Hrun. replace (S (length R)) with (length F); [done|].
    rewrite HF. subst R. rewrite !length_app. simpl. lia.
Qed.

(** ** More memory *)
Lemma grow_ok h F A nu : ok h F A → 1 ≤ nu → brk h + 8 * nu < 2^31 →
  let m := umem h ++ replicate (Z.to_nat (8 * nu)) 0 in
  let h' := mkheap (put m (brk h + 4) nu) (freep h) in
  inside m (brk h + 4) ∧ A !! brk h = None ∧ ok h' F (<[brk h := nu]> A) ∧ brk h' = brk h + 8 * nu ∧
  same (λ y, y < brk h) (umem h) (umem h').
Proof using Hbase Hh0.
  intros H Hnu Hlim m h'. pose proof (ho_brk _ _ _ _ _ H) as Hb.
  assert (Z.of_nat (length m) = brk h + 8 * nu) as Hlen by (unfold m, brk; rewrite length_app, length_replicate; lia).
  assert (inside m (brk h + 4)) as I by (split; lia). assert (brk h' = brk h + 8 * nu) as Hb' by (unfold brk at 1, h'; simpl; by rewrite length_put).
  assert (same (λ y, y < brk h) (umem h) (umem h')) as Sm.
  { apply (same_trans _ _ m); [|eapply same_mono; [|by apply put_same]; simpl; lia]. split; [unfold m; rewrite length_app; lia|].
    intros y Hy _. unfold m. apply lookup_app_l. lia. }
  assert (∀ a n, A !! a = Some n → a + 8 * n ≤ brk h ∧ 1 ≤ n) as HA by (intros a n Ha; pose proof (ho_used _ _ _ _ _ H _ _ Ha); tauto).
  assert (∀ y, free_at F y → y < brk h) as Hfb.
  { intros y (a & n & Hin & Hy). pose proof (ok_elem base h0 Hbase Hh0 h F A H a n Hin). unfold within in Hy. lia. }
  split; [done|]. assert (A !! brk h = None) as HN by (destruct (A !! brk h) eqn:E; [pose proof (HA _ _ E); lia|done]).
  split; [done|]. split; [|done]. split; rewrite ?Hb'; try apply H; [lia| |pose proof (ho_end _ _ _ _ _ H); lia| | | |].
  - eapply linked_same; [exact Sm| |apply H]. intros y (a & n & Hin & Hy). pose proof (ok_elem base h0 Hbase Hh0 h F A H a n Hin). unfold header_at in Hy. simpl. lia.
  - intros a n [[<- <-]|[_ Ha]]%lookup_insert_Some.
    + split; [apply load_put; [done|lia]|lia].
    + destruct (ho_used _ _ _ _ _ H _ _ Ha) as (Hl & ? & ? & ?). split; [|lia]. eapply load_same; [exact Sm| |exact Hl]. simpl. lia.
  - intros y Hf (a & n & [[<- <-]|[_ Ha]]%lookup_insert_Some & Hy); [specialize (Hfb y Hf); unfold within in Hy; lia|].
    apply (ho_disj _ _ _ _ _ H y Hf). by exists a, n.
  - intros a n b k y [[<- <-]|[_ Ha]]%lookup_insert_Some [[<- <-]|[_ Hb1]]%lookup_insert_Some Hy1 Hy2; [done| | |by eapply (ho_once _ _ _ _ _ H)].
    + specialize (HA _ _ Hb1). unfold within in *. lia.
    + specialize (HA _ _ Ha). unfold within in *. lia.
  - intros y Hy. destruct (decide (y < brk h)) as [Hlt|Hge].
    + destruct (ho_cover _ _ _ _ _ H y) as [?|(a & n & Ha & Hy1)]; [lia|by left|]. right. exists a, n. rewrite lookup_insert_ne by congruence. done.
    + right. exists (brk h), nu. rewrite lookup_insert_eq. split; [done|]. unfold within. lia.
Qed.
Definition more (nunits : Z) : Z := if bool_decide (nunits < 4096) then 4096 else nunits.
Lemma morecore_ok h F A nunits : ok h F A → 1 ≤ nunits < 2^28 →
  (grant (brk h) (8 * more nunits) = false ∧ morecore grant nunits h = Ok (0, h)) ∨
  (∃ h' F', morecore grant nunits h = Ok (freep h', h') ∧ ok h' F' A ∧ (∀ y, free_at F' y ↔ free_at F y ∨ within (brk h) (more nunits) y) ∧
     same (used_at A) (umem h) (umem h') ∧ (length F' ≤ S (length F))%nat).
Proof using Hbase Hh0 Hgrant.
  intros H Hn. set (nu := more nunits). assert (1 ≤ nu < 2^28) as Hnu by (unfold nu, more; case_bool_decide; lia).
  unfold morecore, sizeof_Header. fold (more nunits). fold nu. pose proof (ho_brk _ _ _ _ _ H) as Hb.
  rewrite (u32_small (nu * 8)), (s32_small (nu * 8)) by lia. replace (nu * 8) with (8 * nu) by lia. destruct (grant (brk h) (8 * nu)) eqn:Hg.
  - right. pose proof (Hgrant _ _ Hg) as Hlim. destruct (grow_ok h F A nu H ltac:(lia) Hlim) as (I & HN & Hok & Hb' & Sm).
    set (m := umem h ++ replicate (Z.to_nat (8 * nu)) 0) in *. set (h1 := mkheap (put m (brk h + 4) nu) (freep h)) in *.
    assert (sbrk grant (8 * nu) h = Ok (brk h, mkheap m (freep h))) as Hs.
    { unfold sbrk. rewrite (bind_ok _ _ h h h) by done. cbv zeta. rewrite bool_decide_eq_true_2 by lia. by rewrite Hg. }
    rewrite (bind_ok _ _ _ _ _ Hs). rewrite bool_decide_eq_false_2 by (change (u32 (-1)) with (2^32 - 1); lia).
    unfold set_size. rewrite (bind_ok _ _ _ _ _ (run_set_word _ _ (mkheap m (freep h)) I)). cbn [umem freep]. fold h1.
    rewrite hdr_small by lia. destruct (free_ok base h0 Hbase Hh0 h1 F _ (brk h) nu Hok (lookup_insert_eq _ _ _)) as (h2 & F2 & Hf & Hok2 & Hfree & Sm2 & _ & Hlen).
    rewrite Z.mul_1_r. rewrite (bind_ok _ _ _ _ _ Hf). rewrite delete_insert_id in Hok2, Sm2 by done. exists h2, F2. split; [done|]. split; [done|]. split; [done|]. split; [|done].
    apply (same_trans _ _ (umem h1)); [|done]. eapply same_mono; [|exact Sm]. intros y (a & n & Ha & Hy). pose proof (ho_used _ _ _ _ _ H _ _ Ha). unfold within in Hy. lia.
  - left. split; [done|]. assert (sbrk grant (8 * nu) h = Ok (u32 (-1), h)) as Hs.
    { unfold sbrk. rewrite (bind_ok _ _ h h h) by done. cbv zeta. rewrite bool_decide_eq_true_2 by lia. by rewrite Hg. }
    rewrite (bind_ok _ _ _ _ _ Hs). by rewrite bool_decide_eq_true_2.
Qed.

(** ** [malloc] *)
(** Free bytes in a row are in one block. *)
Lemma contiguous h F A b n : ok h F A → 1 ≤ n → (∀ y, within b n y → free_at F y) → ∃ a s, (a, s) ∈ F ∧ a ≤ b ∧ b + 8 * n ≤ a + 8 * s.
Proof using.
  intros H Hn Hall. destruct (Hall b) as (a & s & Hin & Hb); [unfold within; lia|]. exists a, s. split; [done|]. unfold within in Hb. split; [lia|].
  destruct (decide (b + 8 * n ≤ a + 8 * s)) as [?|Hgt]; [done|]. exfalso. destruct (Hall (a + 8 * s)) as (c & k & Hc & Hy); [unfold within; lia|].
  unfold within in Hy. destruct (apart_sep 0 F a s c k (ho_apart _ _ _ _ _ H) Hin Hc) as [[-> ->]|[?|?]]; lia.
Qed.
Lemma malloc_loop_ok h F A nunits fuel : ok h F A → 1 ≤ nunits < 2^28 → (2 * length F < fuel)%nat →
  ∃ p0, ptr (freep h) h = Ok (p0, h) ∧
  ((malloc_loop grant fuel nunits (freep h) p0 h = Ok (0, h) ∧ (∀ a s, (a, s) ∈ F → s < nunits) ∧ grant (brk h) (8 * more nunits) = false) ∨
   (∃ h' F' a, malloc_loop grant fuel nunits (freep h) p0 h = Ok (a + 8, h') ∧ A !! a = None ∧ ok h' F' (<[a := nunits]> A) ∧ same (used_at A) (umem h) (umem h'))).
Proof using Hbase Hh0 Hgrant.
  intros H Hn Hf. destruct (lap h F A nunits fuel H) as (p0 & Hp0 & Hlap); [lia|lia|]. exists p0. split; [done|].
  destruct Hlap as [(m' & F' & x & a & Hrun & HA & Hok & Sm)|[Hall Hrun]]; [right; eauto 10|]. rewrite Hrun.
  destruct (morecore_ok h F A nunits H Hn) as [[Hg Hm]|(h2 & F2 & Hm & Hok2 & Hfree & Sm2 & Hlen)]; rewrite (bind_ok _ _ _ _ _ Hm).
  - left. by rewrite bool_decide_eq_true_2.
  - right. destruct (ho_freep _ _ _ _ _ Hok2) as [k Hk]. pose proof (ok_elem base h0 Hbase Hh0 _ _ _ Hok2 _ _ Hk) as (? & _).
    rewrite bool_decide_eq_false_2 by lia. destruct (lap h2 F2 A nunits (fuel - length F) Hok2) as (p2 & Hp2 & Hlap2); [lia|lia|].
    rewrite (bind_ok _ _ _ _ _ Hp2). destruct Hlap2 as [(m' & F' & x & a & Hrun2 & HA & Hok & Sm)|[Hall2 _]].
    + rewrite Hrun2. exists (mkheap m' x), F', a. split; [done|]. split; [done|]. split; [done|]. by apply (same_trans _ _ (umem h2)).
    + exfalso. destruct (contiguous h2 F2 A (brk h) (more nunits) Hok2) as (a & s & Hin & ? & ?); [unfold more; case_bool_decide; lia|intros y Hy; apply Hfree; by right|].
      specialize (Hall2 _ _ Hin). unfold more in *. case_bool_decide; lia.
Qed.

(** Before the first call there is no list: [malloc] makes one of the header [base]. *)
Definition heap_inv (h : heap) (F : list (Z * Z)) (A : gmap Z Z) : Prop :=
  ok h F A ∨ (freep h = 0 ∧ brk h = h0 ∧ h0 < 2^31 ∧ F = [(base, 0)] ∧ A = ∅).
Lemma init_ok h : brk h = h0 → h0 < 2^31 →
  let h1 := mkheap (put (umem h) base base) base in
  let h2 := mkheap (put (umem h1) (base + 4) 0) base in
  (inside (umem h) base ∧ inside (umem h1) (base + 4)) ∧ ok h2 [(base, 0)] ∅ ∧ length (umem h2) = length (umem h).
Proof using Hbase Hh0.
  intros Hb Hlim h1 h2. assert (inside (umem h) base) as I1 by (unfold brk in Hb; split; lia). assert (inside (umem h1) (base + 4)) as I2.
  { unfold h1. simpl. apply inside_put; [done|]. unfold brk in Hb. split; lia. }
  assert (length (umem h2) = length (umem h)) as Hl by (unfold h2, h1 in *; simpl in *; by rewrite !length_put).
  assert (brk h2 = brk h) as Eb by (unfold brk; by rewrite Hl).
  split; [done|]. split; [|done]. split; rewrite ?Eb; try done; try (cbn [end_of apart]; lia).
  - intros a n [= -> ->]%list_elem_of_singleton. by left.
  - cbn [linked addr_of]. unfold h2, h1 in *. simpl in *. split_and!; [rewrite load_put_other by (done || lia); apply load_put; [done|lia]|apply load_put; [done|lia]|done].
  - exists 0. apply list_elem_of_here.
  - intros y Hy (a & n & Ha & _). done.
Qed.
Lemma units_small nbytes : 0 ≤ nbytes < 2^31 - 16 → 1 ≤ units nbytes < 2^28 ∧ nbytes + 8 ≤ 8 * units nbytes < nbytes + 16.
Proof using.
  intros Hn. unfold units, sizeof_Header. rewrite (u32_small (nbytes + 8 - 1)) by lia. rewrite u32_small by dlia. dlia.
Qed.
Lemma malloc_inv h F A nbytes : heap_inv h F A → 0 ≤ nbytes < 2^31 - 16 → ∃ r h' F', malloc base grant nbytes h = Ok (r, h') ∧
  ((r = 0 ∧ ok h' F A ∧ brk h' = brk h ∧ (∀ a n, (a, n) ∈ F → n < units nbytes) ∧ grant (brk h) (8 * more (units nbytes)) = false) ∨
   (h0 + 8 ≤ r ∧ A !! (r - 8) = None ∧ ok h' F' (<[r - 8 := units nbytes]> A))) ∧ same (used_at A) (umem h) (umem h').
Proof using Hbase Hh0 Hgrant.
  intros Hi Hn. destruct (units_small _ Hn) as [Hu _].
  assert (∃ h1, ok h1 F A ∧ length (umem h1) = length (umem h) ∧ same (used_at A) (umem h) (umem h1) ∧
    malloc base grant nbytes h = (p ← ptr (freep h1); malloc_loop grant (S (length (umem h1))) (units nbytes) (freep h1) p) h1) as (h1 & Hok & Hlen & Sm & ->).
  { unfold malloc. rewrite (bind_ok _ _ h (freep h) h) by done. destruct Hi as [H|(Hfp & Hb & Hlim & -> & ->)].
    - destruct (ho_freep _ _ _ _ _ H) as [k Hk]. pose proof (ok_elem base h0 Hbase Hh0 _ _ _ H _ _ Hk) as (? & _). exists h.
      split; [done|]. split; [done|]. split; [apply same_refl|]. by rewrite bool_decide_eq_false_2 by lia.
    - destruct (init_ok h Hb Hlim) as ((I1 & I2) & Hok & Hl). rewrite bool_decide_eq_true_2 by done.
      eexists. split; [exact Hok|]. split; [exact Hl|]. split; [split; [by rewrite Hl|]; by intros y _ (a & n & Ha & _)|].
      unfold set_ptr, set_size. rewrite bind_assoc, (bind_ok _ _ _ _ _ (run_set_word _ _ _ I1)).
      rewrite bind_assoc, (bind_ok _ _ (mkheap _ _) tt (mkheap (put (umem h) base base) base)) by done.
      rewrite (bind_ok _ _ _ _ _ (run_set_word _ _ (mkheap (put (umem h) base base) base) I2)). done. }
  destruct (malloc_loop_ok h1 F A (units nbytes) (S (length (umem h1))) Hok Hu) as (p0 & Hp0 & Hcase).
  { pose proof (ok_length base h0 h1 F A Hok) as Hl. unfold brk in Hl. lia. }
  rewrite (bind_ok _ _ _ _ _ Hp0). assert (brk h1 = brk h) as Eb by (unfold brk; by rewrite Hlen).
  destruct Hcase as [(Hr & Hall & Hg)|(h' & F' & a & Hr & HA & Hok' & Sm')]; rewrite Hr.
  - exists 0, h1, F. split; [done|]. split; [|done]. left. rewrite Eb in Hg. done.
  - exists (a + 8), h', F'. replace (a + 8 - 8) with a by lia. split; [done|]. split; [|by apply (same_trans _ _ (umem h1))].
    right. split; [|done]. pose proof (ho_used _ _ _ _ _ Hok' a (units nbytes) (lookup_insert_eq _ _ _)). lia.
Qed.

(** ** Histories

    What a program does with its heap: it calls [malloc] and [free], and writes into
    the blocks it has. *)
Inductive hstep : heap * gmap Z Z → heap * gmap Z Z → Prop :=
| hs_malloc n h A r h' : 0 ≤ n < 2^31 - 16 → malloc base grant n h = Ok (r, h') →
    hstep (h, A) (h', if bool_decide (r = 0) then A else <[r - 8 := units n]> A)
| hs_free h A a n h' : A !! a = Some n → free (a + 8) h = Ok (tt, h') → hstep (h, A) (h', delete a A)
| hs_write h A a n x v : A !! a = Some n → a + 8 ≤ x < a + 8 * n →
    hstep (h, A) (mkheap (<[Z.to_nat x := v]> (umem h)) (freep h), A).

Lemma write_ok h F A a n x v : ok h F A → A !! a = Some n → a + 8 ≤ x < a + 8 * n → ok (mkheap (<[Z.to_nat x := v]> (umem h)) (freep h)) F A.
Proof using Hbase Hh0.
  intros H Ha Hx. destruct (ho_used _ _ _ _ _ H _ _ Ha) as (_ & _ & ? & ?). assert (used_at A x) as Hu by (exists a, n; split; [done|unfold within; lia]).
  set (m' := <[Z.to_nat x := v]> (umem h)). assert (same (λ y, y ≠ x) (umem h) m') as Sm.
  { split; [by unfold m'; rewrite length_insert|]. intros y Hy Hne. unfold m'. apply list_lookup_insert_ne. lia. }
  assert (brk (mkheap m' (freep h)) = brk h) as Eb by (unfold brk, m'; simpl; by rewrite length_insert).
  split; rewrite ?Eb; try apply H.
  - eapply linked_same; [exact Sm| |apply H]. intros y (b & k & Hin & Hy) ->. pose proof (ok_live base h0 Hbase Hh0 h F A H b k x Hin Hu). unfold header_at in Hy. lia.
  - intros b k Hb. destruct (ho_used _ _ _ _ _ H _ _ Hb) as (Hl & ? & ?). split; [|done]. eapply load_same; [exact Sm| |exact Hl].
    intros y Hy ->. assert (b = a) as -> by (apply (ho_once _ _ _ _ _ H b k a n x Hb Ha); unfold within; lia). lia.
Qed.
Lemma free_inv h F A a n : heap_inv h F A → A !! a = Some n → ∃ h' F', free (a + 8) h = Ok (tt, h') ∧ ok h' F' (delete a A) ∧
  (∀ x, free_at F' x ↔ free_at F x ∨ within a n x) ∧ same (used_at (delete a A)) (umem h) (umem h') ∧ brk h' = brk h.
Proof using Hbase Hh0.
  intros [H|(_ & _ & _ & _ & ->)] Ha; [|done]. destruct (free_ok base h0 Hbase Hh0 h F A a n H Ha) as (h' & F' & ? & ? & ? & ? & Hl & _).
  exists h', F'. split_and!; try done. unfold brk. by rewrite Hl.
Qed.
Lemma hstep_inv s s' F : heap_inv s.1 F s.2 → hstep s s' → ∃ F', heap_inv s'.1 F' s'.2.
Proof using Hbase Hh0 Hgrant.
  intros Hi Hs. destruct Hs as [n h A r h' Hn Hm|h A a n h' Ha Hf|h A a n x v Ha Hx]; cbn [fst snd] in *.
  - destruct (malloc_inv h F A n Hi Hn) as (r' & h2 & F' & Hm' & Hc & _). rewrite Hm in Hm'. injection Hm' as <- <-.
    destruct Hc as [(-> & Hok & _)|(Hr & _ & Hok)]; [rewrite bool_decide_eq_true_2 by done; exists F; by left|].
    rewrite bool_decide_eq_false_2 by lia. exists F'. by left.
  - destruct (free_inv h F A a n Hi Ha) as (h2 & F' & Hf' & Hok & _). rewrite Hf in Hf'. injection Hf' as <-. exists F'. by left.
  - destruct Hi as [H|(_ & _ & _ & _ & ->)]; [|done]. exists F. left. by eapply write_ok.
Qed.
(** With nothing in use, the heap is one block. *)
Lemma all_free h F : ok h F ∅ → h0 < brk h → ∃ n, F = [(base, 0); (h0, n)] ∧ h0 + 8 * n = brk h.
Proof using Hbase Hh0.
  intros H Hb. assert (∀ y, h0 ≤ y < brk h → free_at F y) as Hall by (intros y Hy; by destruct (ho_cover _ _ _ _ _ H y Hy) as [?|(a & n & Ha & _)]).
  destruct (Hall h0 ltac:(lia)) as (a & s & Hin & Hw). unfold within in Hw. pose proof (ok_elem base h0 Hbase Hh0 h F ∅ H a s Hin) as (_ & _ & He).
  destruct (ho_kind _ _ _ _ _ H _ _ Hin) as [[-> ->]|[Ha Hs]]; [lia|]. assert (a = h0) as -> by lia.
  assert (∀ b k, (b, k) ∈ F → b = base ∧ k = 0 ∨ b = h0 ∧ k = s) as Honly.
  { intros b k Hbk. destruct (ho_kind _ _ _ _ _ H _ _ Hbk) as [?|[? ?]]; [by left|right].
    destruct (apart_sep 0 F h0 s b k (ho_apart _ _ _ _ _ H) Hin Hbk) as [[-> ->]|[?|?]]; [done| |lia]. exfalso.
    pose proof (ok_elem base h0 Hbase Hh0 h F ∅ H b k Hbk). destruct (Hall (h0 + 8 * s) ltac:(lia)) as (c & j & Hc & Hy). unfold within in Hy.
    destruct (apart_sep 0 F h0 s c j (ho_apart _ _ _ _ _ H) Hin Hc) as [[-> ->]|[?|?]]; lia. }
  assert (h0 + 8 * s = brk h) as Hend.
  { destruct (decide (h0 + 8 * s = brk h)) as [?|Hne]; [done|]. destruct (Hall (h0 + 8 * s) ltac:(lia)) as (c & j & Hc & Hy). unfold within in Hy.
    destruct (Honly _ _ Hc) as [[-> ->]|[-> ->]]; lia. }
  exists s. split; [|done]. pose proof (ho_apart _ _ _ _ _ H) as Hap. pose proof (ho_head _ _ _ _ _ H) as Hh. clear -Honly Hap Hh Hin Hbase Hh0 Hs.
  destruct F as [|[b0 n0] L]; [by apply not_elem_of_nil in Hin|]. simpl in Hh. subst b0. destruct (Honly base n0 ltac:(left)) as [[_ ->]|[? _]]; [|lia].
  destruct L as [|[b1 n1] L]; [apply list_elem_of_singleton in Hin as [= ? ?]; lia|]. destruct Hap as (_ & _ & Hb & _ & Hap).
  destruct (Honly b1 n1 ltac:(right; left)) as [[-> ->]|[-> ->]]; [lia|]. destruct L as [|[b2 n2] L]; [done|]. destruct Hap as (Hb2 & _ & _).
  destruct (Honly b2 n2 ltac:(right; right; left)) as [[-> ->]|[-> ->]]; lia.
Qed.
End malloc.

(** ** Claims *)

(** C35: [malloc] allocates.  From any heap that the invariant describes, a request
    of less than 2^31 - 16 bytes is answered.  Either the result is 0, which happens only if no
    free block is large enough and the kernel refuses more memory, and the heap is as
    before; or it is a block of its own: at least the bytes asked for, inside the
    memory of the process and apart from every block in use, whose contents the call
    does not touch.  The loop over the free list always ends. *)
Theorem malloc_allocates base h0 grant h F A nbytes : 0 < base → base + 8 < h0 → (∀ s n, grant s n = true → s + n < 2^31) →
  heap_inv base h0 h F A → 0 ≤ nbytes < 2^31 - 16 →
  ∃ r h', malloc base grant nbytes h = Ok (r, h') ∧ same (used_at A) (umem h) (umem h') ∧
    ((r = 0 ∧ heap_ok base h0 h' F A ∧ brk h' = brk h ∧ (∀ a n, (a, n) ∈ F → n < units nbytes) ∧ grant (brk h) (8 * more (units nbytes)) = false) ∨
     (∃ F', heap_ok base h0 h' F' (<[r - 8 := units nbytes]> A) ∧ A !! (r - 8) = None ∧ h0 + 8 ≤ r ∧ r + nbytes ≤ brk h' ∧
        ∀ y, r ≤ y < r + nbytes → ¬ used_at A y)).
Proof.
  intros Hb Hh Hg Hi Hn. destruct (malloc_inv base h0 Hb Hh grant Hg h F A nbytes Hi Hn) as (r & h' & F' & Hm & Hc & Sm). exists r, h'.
  split; [done|]. split; [done|]. destruct Hc as [Hc|(Hr & HN & Hok)]; [by left|right]. exists F'. destruct (units_small _ Hn) as [_ Hu].
  destruct (ho_used _ _ _ _ _ Hok (r - 8) (units nbytes) (lookup_insert_eq _ _ _)) as (_ & _ & _ & He). split; [done|]. split; [done|]. split; [done|]. split; [lia|].
  intros y Hy (a & n & Ha & Hw). assert (a = r - 8) as ->; [|congruence].
  apply (ho_once _ _ _ _ _ Hok a n (r - 8) (units nbytes) y); [|apply lookup_insert_eq|done|unfold within; lia].
  rewrite lookup_insert_ne; [done|]. congruence.
Qed.

Module HeapEx.
Definition h1 : heap := mkheap (replicate 64 0) 0.
Definition grants (s n : Z) : bool := bool_decide (s + n < 2^20).
Lemma grants_ok s n : grants s n = true → s + n < 2^31.
Proof. intros H%bool_decide_eq_true. lia. Qed.
Lemma start : heap_inv 8 64 h1 [(8, 0)] ∅.
Proof. right. split_and!; reflexivity. Qed.
End HeapEx.
Lemma malloc_allocates_witness : ∃ r h', malloc 8 HeapEx.grants 100 HeapEx.h1 = Ok (r, h') ∧ 72 ≤ r ∧ r + 100 ≤ brk h'.
Proof.
  destruct (malloc_allocates 8 64 HeapEx.grants HeapEx.h1 [(8, 0)] ∅ 100) as (r & h' & Hm & _ & Hc); [lia|lia|exact HeapEx.grants_ok|exact HeapEx.start|lia|].
  exists r, h'. split; [exact Hm|]. destruct Hc as [(_ & _ & _ & _ & Hg)|(F' & _ & _ & Hr & He & _)]; [vm_compute in Hg; discriminate|]. split; [lia|exact He].
Defined.

(** [free] releases.  Freeing a block that is in use returns; what was free and
    the block, and nothing else, is free afterwards, no two free blocks touch, and
    the blocks still in use keep their contents. *)
Theorem free_releases base h0 h F A a n : 0 < base → base + 8 < h0 → heap_inv base h0 h F A → A !! a = Some n →
  ∃ h' F', free (a + 8) h = Ok (tt, h') ∧ heap_ok base h0 h' F' (delete a A) ∧ brk h' = brk h ∧
    (∀ x, free_at F' x ↔ free_at F x ∨ within a n x) ∧ apart 0 F' ∧ same (used_at (delete a A)) (umem h) (umem h').
Proof.
  intros Hb Hh Hi Ha. destruct (free_inv base h0 Hb Hh h F A a n Hi Ha) as (h' & F' & Hf & Hok & Hx & Sm & Hk). exists h', F'.
  split; [done|]. split; [done|]. split; [done|]. split; [done|]. split; [apply Hok|done].
Qed.
Lemma free_releases_witness : ∃ r h h', malloc 8 HeapEx.grants 100 HeapEx.h1 = Ok (r, h) ∧ free (r - 8 + 8) h = Ok (tt, h').
Proof.
  destruct (malloc_inv 8 64 ltac:(lia) ltac:(lia) HeapEx.grants HeapEx.grants_ok HeapEx.h1 [(8, 0)] ∅ 100 HeapEx.start ltac:(lia)) as (r & h & F' & Hm & Hc & _).
  destruct Hc as [(_ & _ & _ & _ & Hg)|(_ & _ & Hok)]; [vm_compute in Hg; discriminate|].
  destruct (free_releases 8 64 h F' _ (r - 8) (units 100) ltac:(lia) ltac:(lia) (or_introl Hok) (lookup_insert_eq _ _ _)) as (h' & _ & Hf & _).
  exists r, h, h'. split; [exact Hm|exact Hf].
Defined.

(** C36: the heap never corrupts and never leaks.  Let a program, from a heap not yet
    used, make any sequence of calls of [malloc] with sizes below 2^31 - 16 (a size of
    2^31 makes [malloc] fault, see [malloc_huge_faults]), of calls of [free] for blocks
    that [malloc] returned and that it has not freed since, and of writes into its
    blocks, with a kernel that grants no process 2 GB: then the blocks in use do not
    overlap and are inside the process's memory, every further [malloc] of a size
    below that bound and every further [free] of a block in use returns, and once all
    blocks have been freed the heap is one free block from its start to the break. *)
Theorem heap_sound base h0 grant h h' A : 0 < base → base + 8 < h0 → (∀ s n, grant s n = true → s + n < 2^31) →
  freep h = 0 → brk h = h0 → h0 < 2^31 → rtc (hstep base grant) (h, ∅) (h', A) →
  (∀ a n b k x, A !! a = Some n → A !! b = Some k → within a n x → within b k x → a = b) ∧
  (∀ a n, A !! a = Some n → h0 ≤ a ∧ 1 ≤ n ∧ a + 8 * n ≤ brk h') ∧
  (∀ nbytes, 0 ≤ nbytes < 2^31 - 16 → ∃ r h'', malloc base grant nbytes h' = Ok (r, h'')) ∧
  (∀ a n, A !! a = Some n → ∃ h'', free (a + 8) h' = Ok (tt, h'')) ∧
  (A = ∅ → h0 < brk h' → ∃ n, h0 + 8 * n = brk h' ∧ linked (umem h') [(base, 0); (h0, n)] base).
Proof.
  intros Hb Hh Hg Hf Hk Hlim Hst. assert (∃ F, heap_inv base h0 h' F A) as [F Hi].
  { assert (∃ F, heap_inv base h0 (h, ∅ : gmap Z Z).1 F (h, ∅ : gmap Z Z).2) as Hs by (exists [(base, 0)]; right; done).
    change (∃ F, heap_inv base h0 (h', A).1 F (h', A).2). induction Hst as [s|s1 s2 s3 H12 _ IH]; [done|]. apply IH. destruct Hs as [F Hs]. by eapply hstep_inv. }
  split; [|split; [|split; [|split]]].
  - destruct Hi as [H|(_ & _ & _ & _ & ->)]; [apply H|done].
  - intros a n Ha. destruct Hi as [H|(_ & _ & _ & _ & ->)]; [|done]. pose proof (ho_used _ _ _ _ _ H _ _ Ha). tauto.
  - intros nbytes Hn. destruct (malloc_inv base h0 Hb Hh grant Hg h' F A nbytes Hi Hn) as (r & h2 & _ & Hm & _). eauto.
  - intros a n Ha. destruct (free_inv base h0 Hb Hh h' F A a n Hi Ha) as (h2 & _ & Hm & _). eauto.
  - intros -> Hlt. destruct Hi as [H|(_ & ? & _)]; [|lia]. destruct (all_free base h0 Hb Hh h' F H Hlt) as (n & -> & Hn). exists n. split; [done|]. apply H.
Qed.
Lemma heap_sound_witness : ∃ r h1 h2 n, malloc 8 HeapEx.grants 100 HeapEx.h1 = Ok (r, h1) ∧ free (r - 8 + 8) h1 = Ok (tt, h2) ∧
  linked (umem h2) [(8, 0); (64, n)] 8.
Proof.
  destruct (malloc_inv 8 64 ltac:(lia) ltac:(lia) HeapEx.grants HeapEx.grants_ok HeapEx.h1 [(8, 0)] ∅ 100 HeapEx.start ltac:(lia)) as (r & h & F' & Hm & Hc & _).
  destruct Hc as [(_ & _ & _ & _ & Hg)|(Hr & _ & Hok)]; [vm_compute in Hg; discriminate|].
  pose proof (lookup_insert_eq (∅ : gmap Z Z) (r - 8) (units 100)) as Hl.
  destruct (free_inv 8 64 ltac:(lia) ltac:(lia) h F' _ (r - 8) (units 100) (or_introl Hok) Hl) as (h2 & F2 & Hf & Hok2 & _ & _ & Hb2).
  exists r, h, h2. rewrite delete_insert_id in Hok2 by done.
  destruct (heap_sound 8 64 HeapEx.grants HeapEx.h1 h2 ∅ ltac:(lia) ltac:(lia) HeapEx.grants_ok eq_refl eq_refl ltac:(lia)) as (_ & _ & _ & _ & Hone).
  - eapply rtc_l; [apply (hs_malloc 8 HeapEx.grants 100 _ ∅ _ _ ltac:(lia) Hm)|]. rewrite bool_decide_eq_false_2 by lia.
    eapply rtc_l; [apply (hs_free 8 HeapEx.grants _ _ _ _ _ Hl Hf)|]. rewrite delete_insert_id by done. apply rtc_refl.
  - destruct (Hone eq_refl) as (n & _ & Hn); [|exists n; split; [exact Hm|]; split; [exact Hf|exact Hn]].
    rewrite Hb2. pose proof (ho_used _ _ _ _ _ Hok (r - 8) (units 100) Hl) as (_ & ? & ? & ?). lia.
Defined.

(** A request of 2 GB makes [morecore] ask for a negative amount, take the break for
    a block and write behind it; one just below 4 GB gets a block of no bytes. *)
Example malloc_huge_faults : malloc 8 HeapEx.grants (2^31) HeapEx.h1 = Fault Undefined.
Proof. vm_compute. reflexivity. Qed.
Example malloc_wraps : units (2^32 - 1) = 1.
Proof. reflexivity. Qed.
