(* ===== verification/Sh.v ===== *)
(** * The shell's parser

    Models the parser of [src/lab3/xv6-public/sh.c] (the same file is in lab4):
    [gettoken] to [nulterminate].  A pointer into the line is the offset of what it
    points to; the byte at the end of the line is its NUL.  The parse functions have
    the pointer [*ps] as their state.  The constructors' [malloc] is taken to succeed.
    A call of [panic] ends the shell's child. *)
From stdpp Require Import base numbers list strings.
From S2P Require Import Prelude Bytes Sysfile.
#[local] Open Scope Z_scope.

Definition MAXARGS : nat := 10.
(** [argv] and [eargv] as one list, up to the null pointer. *)
Inductive cmd : Type :=
| EXEC (argv : list (nat * nat))
| REDIR (c : cmd) (file : nat * nat) (mode fd : Z)
| PIPE (left right : cmd)
| LIST (left right : cmd)
| BACK (c : cmd).

Definition whitespace : list Z := [32; 9; 13; 10; 11].
(** < | > & ; ( ) *)
Definition symbols : list Z := [60; 124; 62; 38; 59; 40; 41].
Definition strchr (s : list Z) (c : Z) : bool := bool_decide (c ∈ s).
Fixpoint span_len (f : Z → bool) (l : list Z) : nat :=
  match l with c :: l => if f c then S (span_len f l) else O | [] => O end.

Section parse.
(** The line, without its NUL; [es] is its length. *)
Variable buf : list Z.

(** [*s]: the bytes of the line and its NUL can be read, nothing behind it. *)
Definition ch (s : nat) : res Z := of_option ((buf ++ [0]) !! s).
Definition skip_ws (s : nat) : nat := (s + span_len (strchr whitespace) (drop s buf))%nat.
Definition skip_word (s : nat) : nat :=
  (s + span_len (λ c, negb (strchr whitespace c) && negb (strchr symbols c)) (drop s buf))%nat.

(** The token, and where it starts and ends. *)
Definition gettoken : M nat (Z * (nat * nat)) :=
  s ← gets skip_ws;
  let q := s in
  c ← lift (ch s);
  r ← (if bool_decide (c = 0) then mret (c, s)
       else if bool_decide (c ∈ [124; 40; 41; 59; 38; 60]) then mret (c, S s)
       else if bool_decide (c = 62) then
         d ← lift (ch (S s));
         mret (if bool_decide (d = 62) then (43, S (S s)) else (c, S s))
       else mret (97, skip_word s));
  let '(ret, s) := r in
  let eq := s in
  modify (λ _, skip_ws s);;
  mret (ret, (q, eq)).
Definition peek (toks : list Z) : M nat bool :=
  modify skip_ws;;
  s ← gets (λ s, s);
  c ← lift (ch s);
  mret (bool_decide (c ≠ 0) && strchr toks c).

Fixpoint parseredirs_loop (fuel : nat) (c : cmd) : M nat cmd :=
  match fuel with
  | O => fail OutOfFuel
  | S fuel =>
    b ← peek [60; 62];
    if b : bool then
      t ← gettoken;
      a ← gettoken;
      if bool_decide (a.1 ≠ 97) then panic "missing file for redirection"
      else
        parseredirs_loop fuel
          (if bool_decide (t.1 = 60) then REDIR c a.2 O_RDONLY 0
           else if bool_decide (t.1 = 62) then REDIR c a.2 (Z.lor O_WRONLY O_CREATE) 1
           else if bool_decide (t.1 = 43) then REDIR c a.2 (Z.lor O_WRONLY O_CREATE) 1
           else c)
    else mret c
  end.
Definition parseredirs (c : cmd) : M nat cmd := parseredirs_loop (S (length buf)) c.

(** [cmd->argv] is set through the pointer to the [execcmd], which the redirections
    collected in [ret] enclose. *)
Fixpoint set_argv (argv : list (nat * nat)) (ret : cmd) : cmd :=
  match ret with
  | EXEC _ => EXEC argv
  | REDIR c file mode fd => REDIR (set_argv argv c) file mode fd
  | c => c
  end.
Fixpoint exec_loop (fuel : nat) (argv : list (nat * nat)) (ret : cmd) : M nat cmd :=
  match fuel with
  | O => fail OutOfFuel
  | S fuel =>
    b ← peek [124; 41; 38; 59];
    if b : bool then mret (set_argv argv ret)
    else
      t ← gettoken;
      if bool_decide (t.1 = 0) then mret (set_argv argv ret)
      else if bool_decide (t.1 ≠ 97) then panic "syntax"
      else
        let argv := argv ++ [t.2] in
        if bool_decide (MAXARGS ≤ length argv)%nat then panic "too many args"
        else ret ← parseredirs ret; exec_loop fuel argv ret
  end.
Fixpoint back_loop (fuel : nat) (c : cmd) : M nat cmd :=
  match fuel with
  | O => fail OutOfFuel
  | S fuel =>
    b ← peek [38];
    if b : bool then _ ← gettoken; back_loop fuel (BACK c) else mret c
  end.

Fixpoint parseline (fuel : nat) : M nat cmd :=
  match fuel with
  | O => fail OutOfFuel
  | S fuel =>
    c ← parsepipe fuel;
    c ← back_loop (S (length buf)) c;
    b ← peek [59];
    if b : bool then _ ← gettoken; r ← parseline fuel; mret (LIST c r) else mret c
  end
with parsepipe (fuel : nat) : M nat cmd :=
  match fuel with
  | O => fail OutOfFuel
  | S fuel =>
    c ← parseexec fuel;
    b ← peek [124];
    if b : bool then _ ← gettoken; r ← parsepipe fuel; mret (PIPE c r) else mret c
  end
with parseexec (fuel : nat) : M nat cmd :=
  match fuel with
  | O => fail OutOfFuel
  | S fuel =>
    b ← peek [40];
    if b : bool then parseblock fuel
    else ret ← parseredirs (EXEC []); exec_loop (S (length buf)) [] ret
  end
with parseblock (fuel : nat) : M nat cmd :=
  match fuel with
  | O => fail OutOfFuel
  | S fuel =>
    b ← peek [40];
    if negb b then panic "parseblock"
    else
      _ ← gettoken;
      c ← parseline fuel;
      b ← peek [41];
      if negb b then panic "syntax - missing )"
      else _ ← gettoken; parseredirs c
  end.
End parse.

(** The NULs go into the line itself. *)
Definition put_nul (e : nat) (m : list Z) : res (list Z) := store_bytes m (Z.of_nat e) [0].
Definition nul_arg (r : res (list Z)) (a : nat * nat) : res (list Z) := m ← r; put_nul (snd a) m.
Fixpoint nulterminate (c : cmd) (m : list Z) : res (list Z) :=
  match c with
  | EXEC argv => foldl nul_arg (Ok m) argv
  | REDIR c file _ _ => m ← nulterminate c m; put_nul (snd file) m
  | PIPE l r => m ← nulterminate l m; nulterminate r m
  | LIST l r => m ← nulterminate l m; nulterminate r m
  | BACK c => nulterminate c m
  end.
(** The command and the line afterwards. *)
Definition parsecmd (buf : list Z) : res (cmd * list Z) :=
  r ← parseline buf (4 * S (length buf)) 0%nat;
  let '(c, s) := r in
  r ← peek buf [] s;
  if bool_decide (r.2 ≠ length buf) then Fault (Panic "syntax")
  else m ← nulterminate c (buf ++ [0]); mret (c, m).
