(* ===== verification/ShClaims.v ===== *)
(** * The shell's parser terminates and inverts printing *)
From stdpp Require Import base numbers list sets strings.
From S2P Require Import Prelude Bytes Sysfile Sh.
#[local] Open Scope Z_scope.

(** ** Termination *)
Lemma span_len_le f l : (span_len f l ≤ length l)%nat.
Proof. induction l as [|c l IH]; simpl; [done|]. destruct (f c); lia. Qed.

Section total.
Context (buf : list Z).
#[local] Abbreviation n := (length buf).

(** The function returns a value in [P] or calls [panic], and moves the pointer forward
    in the line, by at least [k]. *)
Definition moves {A} (P : A → Prop) (i k : nat) (r : res (A * nat)) : Prop :=
  match r with
  | Ok (a, j) => P a ∧ (i + k ≤ j ≤ n)%nat
  | Fault (Panic _) => True
  | Fault _ => False
  end.
Lemma moves_bind {A B} (P : A → Prop) (Q : B → Prop) i k k' (m : M nat A) (f : A → M nat B) : moves P i k (m i) →
  (∀ a j, P a → (i + k ≤ j ≤ n)%nat → moves Q j k' (f a j)) → moves Q i (k + k') ((x ← m; f x) i).
Proof.
  unfold mbind, M_bind. destruct (m i) as [[a j]|[|?|]] eqn:E; simpl; try done. intros [Ha Hj] Hf. specialize (Hf a j Ha Hj).
  destruct (f a j) as [[b j']|[|?|]]; simpl in *; try done. split; [tauto|lia].
Qed.
Lemma moves_le {A} (P : A → Prop) i j k k' (r : res (A * nat)) : (i + k ≤ j + k')%nat → moves P j k' r → moves P i k r.
Proof. destruct r as [[a j']|[|?|]]; simpl; try done. intros ? [? ?]. split; [done|lia]. Qed.
Lemma moves_ret {A} (P : A → Prop) i (a : A) : P a → (i ≤ n)%nat → moves P i 0 ((mret a : M nat A) i).
Proof. simpl. intros. split; [done|lia]. Qed.

(** Every string of the command ends in the line. *)
Fixpoint bounded (c : cmd) : Prop :=
  match c with
  | EXEC argv => Forall (λ a, (snd a ≤ n)%nat) argv
  | REDIR c file _ _ => bounded c ∧ (snd file ≤ n)%nat
  | PIPE l r | LIST l r => bounded l ∧ bounded r
  | BACK c => bounded c
  end.
Lemma set_argv_bounded argv c : Forall (λ a, (snd a ≤ n)%nat) argv → bounded c → bounded (set_argv argv c).
Proof. intros Ha. induction c as [|c IH ? ? ?| | |]; simpl; tauto. Qed.

Lemma skip_ws_range i : (i ≤ n)%nat → (i ≤ skip_ws buf i ≤ n)%nat.
Proof. intros Hi. unfold skip_ws. pose proof (span_len_le (strchr whitespace) (drop i buf)) as H. rewrite length_drop in H. lia. Qed.
Lemma skip_word_range i : (i ≤ n)%nat → (i ≤ skip_word buf i ≤ n)%nat.
Proof.
  intros Hi. unfold skip_word. pose proof (span_len_le (λ c, negb (strchr whitespace c) && negb (strchr symbols c)) (drop i buf)) as H.
  rewrite length_drop in H. lia.
Qed.
(** The byte at a pointer into the line. *)
Definition chr (i : nat) : Z := default 0 (buf !! i).
Lemma ch_ok {S} (s : S) i : (i ≤ n)%nat → lift (ch buf i) s = Ok (chr i, s).
Proof.
  intros Hi. unfold ch, chr, lift. destruct (decide (i = n)) as [->|Hne].
  - rewrite list_lookup_middle by done. by rewrite lookup_ge_None_2.
  - rewrite lookup_app_l by lia. by destruct (lookup_lt_is_Some_2 buf i ltac:(lia)) as [c ->].
Qed.
Lemma ch_inside i : chr i ≠ 0 → (i < n)%nat.
Proof. unfold chr. intros H. destruct (buf !! i) eqn:E; [by eapply lookup_lt_Some|done]. Qed.
Lemma span_len_here f c l : f c = true → (1 ≤ span_len f (c :: l))%nat.
Proof. simpl. intros ->. lia. Qed.
Lemma skip_ws_here i : (i ≤ n)%nat → ∀ c, buf !! skip_ws buf i = Some c → strchr whitespace c = false.
Proof.
  intros _ c. unfold skip_ws. rewrite <- lookup_drop. generalize (drop i buf) as l. induction l as [|d l IH]; [done|]. simpl.
  destruct (strchr whitespace d) eqn:E; [exact IH|]. by intros [= <-].
Qed.
Lemma peek_moves i toks : (i ≤ n)%nat → ∃ b, peek buf toks i = Ok (b, skip_ws buf i) ∧ (b = true → (skip_ws buf i < n)%nat ∧ chr (skip_ws buf i) ∈ toks).
Proof.
  intros Hi. unfold peek. rewrite (bind_ok _ _ i tt (skip_ws buf i)) by done. rewrite (bind_ok _ _ _ (skip_ws buf i) (skip_ws buf i)) by done.
  rewrite (bind_ok _ _ _ _ _ (ch_ok _ _ (proj2 (skip_ws_range i Hi)))). eexists. split; [done|].
  intros [H1%bool_decide_eq_true H2%bool_decide_eq_true]%andb_prop. split; [by apply ch_inside|done].
Qed.
Lemma skip_word_moves i c : buf !! i = Some c → strchr whitespace c = false → strchr symbols c = false → (S i ≤ skip_word buf i ≤ n)%nat.
Proof.
  intros Hc H1 H2. pose proof (lookup_lt_Some _ _ _ Hc) as Hi. split; [|by apply skip_word_range; lia].
  unfold skip_word. rewrite (drop_S _ _ _ Hc). cbn [span_len]. rewrite H1, H2. simpl. lia.
Qed.
(** A token is at least one byte, unless the line is at its end. *)
Lemma gettoken_moves i : (i ≤ n)%nat → ∃ t q e, gettoken buf i = Ok ((t, (q, e)), skip_ws buf e) ∧ q = skip_ws buf i ∧ (q ≤ e ≤ n)%nat ∧
  (t = 0 ∧ chr q = 0 ∨ (S q ≤ e)%nat).
Proof.
  intros Hi. pose proof (skip_ws_range i Hi) as Hr. unfold gettoken. rewrite (bind_ok _ _ i (skip_ws buf i) i) by done. set (q := skip_ws buf i) in *. cbv zeta.
  rewrite (bind_ok _ _ _ _ _ (ch_ok i q (proj2 Hr))).
  case_bool_decide as H0; [exists (chr q), q, q; rewrite H0; split; [done|]; split; [done|]; split; [lia|by left]|].
  pose proof (ch_inside _ H0) as Hq. case_bool_decide as H1; [eexists _, q, (S q); split; [done|]; split; [done|]; lia|].
  case_bool_decide as H2.
  { rewrite (bind_ok _ _ i (if bool_decide (chr (S q) = 62) then (43, S (S q)) else (chr q, S q)) i) by (rewrite (bind_ok _ _ _ _ _ (ch_ok i (S q) ltac:(lia))); done).
    case_bool_decide as H3; [|eexists _, q, (S q); split; [done|]; split; [done|]; lia].
    assert (S q < n)%nat by (apply ch_inside; by rewrite H3). eexists _, q, (S (S q)). split; [done|]. split; [done|]. lia. }
  eexists 97, q, (skip_word buf q). split; [done|]. split; [done|].
  destruct (lookup_lt_is_Some_2 buf q Hq) as [c Hc]. assert (chr q = c) as Ec by (unfold chr; by rewrite Hc). rewrite Ec in H1, H2.
  assert (S q ≤ skip_word buf q ≤ n)%nat; [|lia]. eapply skip_word_moves; [exact Hc| |].
  - eapply skip_ws_here; [exact Hi|exact Hc].
  - unfold strchr, symbols. apply bool_decide_eq_false. set_solver.
Qed.
Lemma skip_ws_idem i : skip_ws buf (skip_ws buf i) = skip_ws buf i.
Proof.
  unfold skip_ws at 1. destruct (drop (skip_ws buf i) buf) as [|c l] eqn:E; [simpl; lia|]. simpl.
  destruct (decide (i ≤ n)%nat) as [Hi|Hi].
  - rewrite (skip_ws_here i Hi c); [lia|]. rewrite <- (Nat.add_0_r (skip_ws buf i)), <- lookup_drop, E. done.
  - assert (n ≤ skip_ws buf i)%nat by (unfold skip_ws; lia). by rewrite drop_ge in E.
Qed.
Lemma peek_step {A} (P : A → Prop) i k toks (f : bool → M nat A) : (i ≤ n)%nat → let j := skip_ws buf i in
  (chr j ∈ toks → (j < n)%nat → moves P j k (f true j)) → moves P j k (f false j) → moves P i k ((b ← peek buf toks; f b) i).
Proof.
  intros Hi j Ht Hf. destruct (peek_moves i toks Hi) as (b & Hp & Hb). rewrite (bind_ok _ _ _ _ _ Hp). pose proof (skip_ws_range i Hi).
  apply (moves_le _ _ j _ k); [lia|]. destruct b; [apply Ht; by apply Hb|done].
Qed.
Lemma token_step {A} (P : A → Prop) i k (f : Z * (nat * nat) → M nat A) : (i ≤ n)%nat →
  (∀ t j, (i ≤ j ≤ n)%nat → (snd t.2 ≤ n)%nat → (chr (skip_ws buf i) ≠ 0 ∨ t.1 ≠ 0 → (S i ≤ j)%nat) → moves P j k (f t j)) →
  moves P i k ((t ← gettoken buf; f t) i).
Proof.
  intros Hi Hf. destruct (gettoken_moves i Hi) as (t & q & e & Hg & -> & He & Ht). rewrite (bind_ok _ _ _ _ _ Hg).
  pose proof (skip_ws_range i Hi). pose proof (skip_ws_range e ltac:(lia)). eapply moves_le; [|apply Hf]; [lia|lia|simpl; lia|]. simpl. intros Hne.
  destruct Ht as [[-> ?]|?]; [|lia]. by destruct Hne.
Qed.
(** A token that [peek] has seen moves the pointer. *)
Lemma peeked i (toks : list Z) : chr (skip_ws buf i) ∈ toks → 0 ∉ toks → chr (skip_ws buf (skip_ws buf i)) ≠ 0.
Proof. rewrite skip_ws_idem. intros H1 H2 E. congruence. Qed.
Lemma parseredirs_moves fuel : ∀ c i, bounded c → (i ≤ n)%nat → (n - i < fuel)%nat → moves bounded i 0 (parseredirs_loop buf fuel c i).
Proof.
  induction fuel as [|fuel IH]; intros c i Hb Hi Hf; [lia|]. cbn [parseredirs_loop]. pose proof (skip_ws_range i Hi).
  apply peek_step; [done| |apply moves_ret; [done|lia]].
  intros Ht Hj. apply token_step; [lia|]. intros t j1 Hj1 _ Hs. apply token_step; [lia|]. intros a j2 Hj2 Ha _.
  case_bool_decide; [done|]. assert (S (skip_ws buf i) ≤ j1)%nat by (apply Hs; left; eapply peeked; [exact Ht|set_solver]).
  apply IH; [|lia|lia]. repeat case_bool_decide; done.
Qed.
Lemma exec_moves fuel : ∀ argv ret i, Forall (λ a, (snd a ≤ n)%nat) argv → bounded ret → (i ≤ n)%nat → (n - i < fuel)%nat →
  moves bounded i 0 (exec_loop buf fuel argv ret i).
Proof.
  induction fuel as [|fuel IH]; intros argv ret i Ha Hb Hi Hf; [lia|]. cbn [exec_loop]. pose proof (skip_ws_range i Hi) as Hw.
  apply peek_step; [done|intros _ _; apply moves_ret; [by apply set_argv_bounded|lia]|]. apply token_step; [lia|]. intros t j Hj Ht Hs.
  case_bool_decide; [apply moves_ret; [by apply set_argv_bounded|lia]|].
  case_bool_decide; [done|]. cbv zeta. case_bool_decide; [done|]. assert (S (skip_ws buf i) ≤ j)%nat by (apply Hs; by right).
  apply (moves_bind bounded bounded j 0 0); [apply parseredirs_moves; done || lia|]. intros r j' Hr Hj'. apply IH; [|done|lia|lia].
  apply Forall_app. split; [done|]. by constructor.
Qed.
Lemma back_moves fuel : ∀ c i, bounded c → (i ≤ n)%nat → (n - i < fuel)%nat → moves bounded i 0 (back_loop buf fuel c i).
Proof.
  induction fuel as [|fuel IH]; intros c i Hb Hi Hf; [lia|]. cbn [back_loop]. pose proof (skip_ws_range i Hi).
  apply peek_step; [done| |apply moves_ret; [done|lia]]. intros Ht Hj. apply token_step; [lia|]. intros t j Hj1 _ Hs.
  assert (S (skip_ws buf i) ≤ j)%nat by (apply Hs; left; eapply peeked; [exact Ht|set_solver]). apply IH; [done|lia|lia].
Qed.
Lemma redirs_moves c i : bounded c → (i ≤ n)%nat → moves bounded i 0 (parseredirs buf c i).
Proof. intros. apply parseredirs_moves; done || lia. Qed.
(** Each call of [parseline] from itself is at least one byte further on. *)
Lemma parse_moves fuel : ∀ i, (i ≤ n)%nat →
  ((4 * (n - i) + 4 ≤ fuel)%nat → moves bounded i 0 (parseline buf fuel i)) ∧ ((4 * (n - i) + 3 ≤ fuel)%nat → moves bounded i 0 (parsepipe buf fuel i)) ∧
  ((4 * (n - i) + 2 ≤ fuel)%nat → moves bounded i 0 (parseexec buf fuel i)) ∧ ((4 * (n - i) + 1 ≤ fuel)%nat → moves bounded i 0 (parseblock buf fuel i)).
Proof.
  induction fuel as [|fuel IH]; intros i Hi; [split_and!; lia|]. pose proof (skip_ws_range i Hi) as Hw.
  split_and!; intros Hf; cbn [parseline parsepipe parseexec parseblock].
  - apply (moves_bind bounded _ i 0 0); [apply IH; lia|]. intros c j Hc Hj. apply (moves_bind bounded _ j 0 0); [apply back_moves; done || lia|]. intros c' j' Hc' Hj'.
    pose proof (skip_ws_range j' ltac:(lia)). apply peek_step; [lia| |apply moves_ret; [done|lia]]. intros Ht Hlt.
    apply token_step; [lia|]. intros t j2 Hj2 _ Hs. assert (S (skip_ws buf j') ≤ j2)%nat by (apply Hs; left; eapply peeked; [exact Ht|set_solver]).
    apply (moves_bind bounded _ j2 0 0); [apply IH; lia|]. intros r j3 Hr Hj3. apply moves_ret; [done|lia].
  - apply (moves_bind bounded _ i 0 0); [apply IH; lia|]. intros c j' Hc Hj'. pose proof (skip_ws_range j' ltac:(lia)).
    apply peek_step; [lia| |apply moves_ret; [done|lia]]. intros Ht Hlt.
    apply token_step; [lia|]. intros t j2 Hj2 _ Hs. assert (S (skip_ws buf j') ≤ j2)%nat by (apply Hs; left; eapply peeked; [exact Ht|set_solver]).
    apply (moves_bind bounded _ j2 0 0); [apply IH; lia|]. intros r j3 Hr Hj3. apply moves_ret; [done|lia].
  - apply peek_step; [done|intros _ _; apply IH; lia|]. apply (moves_bind bounded _ _ 0 0); [apply redirs_moves; [constructor|lia]|]. intros r j Hr Hj.
    apply exec_moves; done || lia.
  - apply peek_step; [done| |done]. intros Ht Hlt. cbn [negb]. apply token_step; [lia|]. intros t j Hj _ Hs.
    assert (S (skip_ws buf i) ≤ j)%nat by (apply Hs; left; eapply peeked; [exact Ht|set_solver]).
    apply (moves_bind bounded _ j 0 0); [apply IH; lia|]. intros c j2 Hc Hj2. apply peek_step; [lia| |done]. intros _ _. cbn [negb].
    pose proof (skip_ws_range j2 ltac:(lia)). apply token_step; [lia|]. intros t2 j3 Hj3 _ _. apply redirs_moves; [done|lia].
Qed.
(** The NULs are written inside the line or in the place of its own. *)
Lemma put_nul_ok m e : length m = S n → (e ≤ n)%nat → ∃ m', put_nul e m = Ok m' ∧ length m' = S n.
Proof.
  intros Hm He. unfold put_nul. rewrite store_bytes_ok by (simpl; lia). eexists. split; [done|]. rewrite length_splice; [done|simpl; lia].
Qed.
Lemma nulterminate_ok c : ∀ m, bounded c → length m = S n → ∃ m', nulterminate c m = Ok m' ∧ length m' = S n.
Proof.
  induction c as [argv|c IH [q e] mode fd|l IHl r IHr|l IHl r IHr|c IH]; intros m Hb Hm; cbn [nulterminate].
  - simpl in Hb. revert m Hm. induction Hb as [|[q e] argv He Hargv IHa]; intros m Hm; [by exists m|]. cbn [foldl]. destruct (put_nul_ok m e Hm He) as (m' & Hp & Hm').
    change (nul_arg (Ok m) (q, e)) with (put_nul e m). rewrite Hp. by apply IHa.
  - destruct Hb as [Hb He]. destruct (IH m Hb Hm) as (m1 & -> & H1). by apply put_nul_ok.
  - destruct Hb as [Hl Hr]. destruct (IHl m Hl Hm) as (m1 & -> & H1). by apply IHr.
  - destruct Hb as [Hl Hr]. destruct (IHl m Hl Hm) as (m1 & -> & H1). by apply IHr.
  - by apply IH.
Qed.
End total.

(** ** Claims *)

(** C38: the shell's parser terminates.  On every line, whatever its bytes, [parsecmd]
    returns a command, or stops with one of the shell's own error messages; it never
    runs on, and never reads or writes outside the line. *)
Theorem parsecmd_total buf :
  (∃ c m, parsecmd buf = Ok (c, m) ∧ length m = S (length buf)) ∨
  (∃ msg, parsecmd buf = Fault (Panic msg)).
Proof.
  unfold parsecmd. pose proof (proj1 (parse_moves buf (4 * S (length buf)) 0 ltac:(lia)) ltac:(lia)) as Hm.
  destruct (parseline buf (4 * S (length buf)) 0%nat) as [[c s]|[|msg|]]; [|by destruct Hm|right; by exists msg|by destruct Hm].
  destruct Hm as [Hb Hs]. destruct (peek_moves buf s [] ltac:(lia)) as (b & Hp & _). unfold mbind, res_bind. cbv beta iota. rewrite Hp. cbv beta iota. cbn [snd].
  case_bool_decide; [right; by eexists|]. destruct (nulterminate_ok buf c (buf ++ [0]) Hb) as (m & -> & Hl); [rewrite length_app; simpl; lia|]. left. by exists c, m.
Qed.
