(* ===== verification/ShPrint.v ===== *)
(** * Command lines and what the shell parses them to

    An abstract syntax of the shell's command lines, how they are written, and the
    command each stands for; the parser gives back that command. *)
From stdpp Require Import base numbers list sets strings.
From S2P Require Import Prelude Bytes Sysfile Sh ShClaims.
#[local] Open Scope Z_scope.

(** ** Syntax *)
Inductive rop := RIn | ROut | RApp.
Inductive sline := Line1 (p : spipe) (bg : nat) | LineSeq (p : spipe) (bg : nat) (l : sline)
with spipe := Pip1 (e : sexec) | PipSeq (e : sexec) (p : spipe)
with sexec := Simple (rs : list (rop * list Z)) (args : list (list Z * list (rop * list Z))) | Block (l : sline) (rs : list (rop * list Z)).

Inductive tok := Sym (c : Z) | Append | Word (w : list Z).
Definition text (t : tok) : list Z := match t with Sym c => [c] | Append => [62; 62] | Word w => w end.
Definition code (t : tok) : Z := match t with Sym c => c | Append => 43 | Word _ => 97 end.
Definition letter (c : Z) : Prop := c ≠ 0 ∧ (c ∉ whitespace) ∧ (c ∉ symbols).
Definition tok_ok (t : tok) : Prop :=
  match t with Sym c => c ∈ symbols | Append => True | Word w => w ≠ [] ∧ Forall letter w end.
(** Tokens are written with a blank behind each. *)
Definition print (ts : list tok) : list Z := concat (map (λ t, text t ++ [32]) ts).

Definition rtok (r : rop) : tok := match r with RIn => Sym 60 | ROut => Sym 62 | RApp => Append end.
Definition redir_toks (rs : list (rop * list Z)) : list tok := concat (map (λ r, [rtok r.1; Word r.2]) rs).
Definition arg_toks (args : list (list Z * list (rop * list Z))) : list tok := concat (map (λ a, Word a.1 :: redir_toks a.2) args).
Fixpoint line_toks (l : sline) : list tok :=
  match l with
  | Line1 p bg => pipe_toks p ++ replicate bg (Sym 38)
  | LineSeq p bg l => pipe_toks p ++ replicate bg (Sym 38) ++ Sym 59 :: line_toks l
  end
with pipe_toks (p : spipe) : list tok :=
  match p with
  | Pip1 e => exec_toks e
  | PipSeq e p => exec_toks e ++ Sym 124 :: pipe_toks p
  end
with exec_toks (e : sexec) : list tok :=
  match e with
  | Simple rs args => redir_toks rs ++ arg_toks args
  | Block l rs => Sym 40 :: line_toks l ++ Sym 41 :: redir_toks rs
  end.
(** The parser's limit. *)
Fixpoint few_args (l : sline) : Prop :=
  match l with Line1 p _ => pipe_few p | LineSeq p _ l => pipe_few p ∧ few_args l end
with pipe_few (p : spipe) : Prop := match p with Pip1 e => exec_few e | PipSeq e p => exec_few e ∧ pipe_few p end
with exec_few (e : sexec) : Prop := match e with Simple _ args => (length args < MAXARGS)%nat | Block l _ => few_args l end.

(** ** Commands over strings *)
Inductive tree : Type :=
| TExec (argv : list (list Z))
| TRedir (t : tree) (file : list Z) (mode fd : Z)
| TPipe (left right : tree)
| TList (left right : tree)
| TBack (t : tree).
Definition rmode (r : rop) : Z := match r with RIn => O_RDONLY | _ => Z.lor O_WRONLY O_CREATE end.
Definition rfd (r : rop) : Z := match r with RIn => 0 | _ => 1 end.
(** Later redirections enclose earlier ones. *)
Definition with_redirs (t : tree) (rs : list (rop * list Z)) : tree := foldl (λ t r, TRedir t r.2 (rmode r.1) (rfd r.1)) t rs.
Fixpoint backs (k : nat) (t : tree) : tree := match k with O => t | S k => backs k (TBack t) end.
Fixpoint line_tree (l : sline) : tree :=
  match l with
  | Line1 p bg => backs bg (pipe_tree p)
  | LineSeq p bg l => TList (backs bg (pipe_tree p)) (line_tree l)
  end
with pipe_tree (p : spipe) : tree :=
  match p with
  | Pip1 e => exec_tree e
  | PipSeq e p => TPipe (exec_tree e) (pipe_tree p)
  end
with exec_tree (e : sexec) : tree :=
  match e with
  | Simple rs args => with_redirs (TExec (map fst args)) (rs ++ concat (map snd args))
  | Block l rs => with_redirs (line_tree l) rs
  end.

(** The strings of a command, read from the line. *)
Definition string_at (m : list Z) (a : nat * nat) : res (list Z) := cstring (drop (fst a) m).
Fixpoint strings_at (m : list Z) (l : list (nat * nat)) : res (list (list Z)) :=
  match l with [] => Ok [] | a :: l => s ← string_at m a; r ← strings_at m l; mret (s :: r) end.
Fixpoint read_cmd (m : list Z) (c : cmd) : res tree :=
  match c with
  | EXEC argv => ws ← strings_at m argv; mret (TExec ws)
  | REDIR c file mode fd => t ← read_cmd m c; w ← string_at m file; mret (TRedir t w mode fd)
  | PIPE l r => t ← read_cmd m l; u ← read_cmd m r; mret (TPipe t u)
  | LIST l r => t ← read_cmd m l; u ← read_cmd m r; mret (TList t u)
  | BACK c => t ← read_cmd m c; mret (TBack t)
  end.

(** ** Tokens *)
Lemma print_cons t ts : print (t :: ts) = text t ++ 32 :: print ts.
Proof. unfold print. cbn [map concat]. by rewrite <- app_assoc. Qed.
Lemma print_app ts us : print (ts ++ us) = print ts ++ print us.
Proof. unfold print. by rewrite map_app, concat_app. Qed.
Lemma text_head t : tok_ok t → ∃ c w, text t = c :: w ∧ strchr whitespace c = false ∧ c ≠ 0.
Proof.
  destruct t as [c| |w]; cbn [tok_ok text].
  - intros Hc. exists c, []. split; [done|]. unfold strchr, whitespace, symbols in *. split; [apply bool_decide_eq_false; set_solver|set_solver].
  - intros _. exists 62, [62]. done.
  - intros [Hne Hw]. destruct w as [|c w]; [done|]. exists c, w. apply Forall_cons in Hw as [(H0 & Hws & _) _]. split; [done|]. split; [by apply bool_decide_eq_false|done].
Qed.
(** The first token starts with one of [cs]. *)
Definition starts (cs : list Z) (ts : list tok) : bool :=
  match ts with t :: _ => match text t with c :: _ => strchr cs c | [] => false end | [] => false end.
Definition follow (cs : list Z) (ts : list tok) : Prop := ts = [] ∨ ∃ c us, ts = Sym c :: us ∧ c ∈ cs.
Lemma starts_follow cs ds ts : follow cs ts → (∀ c, c ∈ cs → c ∉ ds) → starts ds ts = false.
Proof. intros [->|(c & us & -> & Hc)] Hd; [done|]. simpl. apply bool_decide_eq_false. auto. Qed.
Lemma starts_word cs w ts : tok_ok (Word w) → (∀ c, c ∈ cs → c ∈ symbols) → starts cs (Word w :: ts) = false.
Proof.
  intros [Hne Hw] Hcs. destruct w as [|c w]; [done|]. simpl. apply Forall_inv in Hw as (_ & _ & Hc). apply bool_decide_eq_false. auto.
Qed.

Section lex.
Context (buf : list Z).
#[local] Abbreviation n := (length buf).
(** The pointer is before the tokens [ts]. *)
Record at_toks (i : nat) (ts : list tok) : Prop := {
  at_text : drop i buf = print ts;
  at_ok : Forall tok_ok ts;
  at_in : (i ≤ n)%nat }.

Lemma at_here i ts : at_toks i ts → skip_ws buf i = i.
Proof.
  intros [Ht Hok _]. unfold skip_ws. rewrite Ht. destruct ts as [|t ts]; [simpl; lia|]. apply Forall_cons in Hok as [Hok _].
  destruct (text_head t Hok) as (c & w & Hc & Hw & _). rewrite print_cons, Hc. simpl. rewrite Hw. lia.
Qed.
Lemma at_char i t ts c w : at_toks i (t :: ts) → text t = c :: w → buf !! i = Some c.
Proof. intros [Ht _ _] Hc. rewrite <- (Nat.add_0_r i), <- lookup_drop, Ht, print_cons, Hc. done. Qed.
Lemma at_end i : at_toks i [] → i = n ∧ chr buf i = 0.
Proof.
  intros [Ht _ Hi]. apply (f_equal length) in Ht. rewrite length_drop in Ht. simpl in Ht. assert (i = n) as -> by lia. split; [done|].
  unfold chr. by rewrite lookup_ge_None_2.
Qed.
Lemma at_next i t ts : at_toks i (t :: ts) → at_toks (S (i + length (text t))) ts ∧ buf !! (i + length (text t))%nat = Some 32 ∧
  slice buf i (length (text t)) = text t ∧ skip_ws buf (i + length (text t)) = S (i + length (text t)).
Proof.
  intros [Ht Hok Hi]. rewrite print_cons in Ht. apply Forall_cons in Hok as [Hk Hok].
  assert (drop (S (i + length (text t))) buf = print ts) as Hd.
  { replace (S (i + length (text t))) with (i + (length (text t) + 1))%nat by lia. rewrite <- drop_drop, Ht, drop_app_add. done. }
  assert (buf !! (i + length (text t))%nat = Some 32) as Hs by (rewrite <- lookup_drop, Ht; by rewrite list_lookup_middle).
  pose proof (lookup_lt_Some _ _ _ Hs). assert (at_toks (S (i + length (text t))) ts) as Hat by (split; [done|done|lia]). split; [done|]. split; [done|].
  split; [unfold slice; rewrite Ht; by rewrite take_app_length|]. unfold skip_ws. rewrite (drop_S _ _ _ Hs). cbn [span_len]. change (strchr whitespace 32) with true. cbv iota.
  pose proof (at_here _ _ Hat) as Hh. unfold skip_ws in Hh. lia.
Qed.
Lemma peek_at i ts toks : at_toks i ts → peek buf toks i = Ok (starts toks ts, i).
Proof.
  intros Hat. unfold peek. rewrite (bind_ok _ _ i tt (skip_ws buf i)) by done. rewrite (at_here _ _ Hat). rewrite (bind_ok _ _ i i i) by done. rewrite (bind_ok _ _ _ _ _ (ch_ok buf _ _ (at_in _ _ Hat))).
  destruct ts as [|t ts]; [destruct (at_end _ Hat) as [_ ->]; done|]. destruct (text_head t) as (c & w & Hc & _ & H0); [by apply at_ok in Hat; inversion Hat|].
  assert (chr buf i = c) as -> by (unfold chr; by rewrite (at_char _ _ _ _ _ Hat Hc)). rewrite bool_decide_eq_true_2 by done. unfold starts. by rewrite Hc.
Qed.
Lemma span_word w rest : Forall letter w → span_len (λ c, negb (strchr whitespace c) && negb (strchr symbols c)) (w ++ 32 :: rest) = length w.
Proof.
  induction 1 as [|c w (H0 & Hw & Hs) _ IH]; [done|]. cbn [app span_len length]. unfold strchr at 1 2. rewrite !bool_decide_eq_false_2 by done. simpl. by rewrite IH.
Qed.
Lemma gettoken_at i t ts : at_toks i (t :: ts) →
  gettoken buf i = Ok ((code t, (i, i + length (text t))%nat), S (i + length (text t))) ∧ at_toks (S (i + length (text t))) ts.
Proof.
  intros Hat. destruct (at_next _ _ _ Hat) as (Hnx & _ & _ & Hsk). split; [|done]. unfold gettoken.
  rewrite (bind_ok _ _ i i i) by (unfold gets; by rewrite (at_here _ _ Hat)). cbv zeta. rewrite (bind_ok _ _ _ _ _ (ch_ok buf _ _ (at_in _ _ Hat))).
  assert (tok_ok t) as Ht by (apply at_ok in Hat; by inversion Hat). destruct (text_head t Ht) as (c & w & Hc & Hw & H0).
  rewrite (bind_ok _ _ i (code t, (i + length (text t))%nat) i); [by rewrite (bind_ok _ _ i tt (S (i + length (text t)))) by (unfold modify; by rewrite Hsk)|].
  assert (chr buf i = c) as -> by (unfold chr; by rewrite (at_char _ _ _ _ _ Hat Hc)). rewrite bool_decide_eq_false_2 by done.
  pose proof (at_text _ _ Hat) as Htx. rewrite print_cons in Htx. pose proof (lookup_lt_Some _ _ _ (at_char _ _ _ _ _ Hat Hc)) as Hlt.
  assert (buf !! S i = drop i buf !! 1%nat) as Hnext by (rewrite lookup_drop; f_equal; lia). rewrite Htx in Hnext.
  destruct t as [d| |v]; simpl in Hc, Ht.
  - injection Hc as -> <-. simpl in *. rewrite Nat.add_1_r in *. case_bool_decide as H1; [done|].
    assert (c = 62) as -> by (unfold symbols in Ht; set_solver). rewrite bool_decide_eq_true_2 by done.
    rewrite (bind_ok _ _ _ _ _ (ch_ok buf i (S i) Hlt)). unfold chr. by rewrite Hnext.
  - injection Hc as <- <-. simpl in *. rewrite (bind_ok _ _ _ _ _ (ch_ok buf i (S i) Hlt)). unfold chr. rewrite Hnext. simpl. by rewrite Nat.add_comm.
  - subst v. cbn [text code] in *. destruct Ht as [_ Hl]. pose proof (Forall_inv Hl) as (_ & _ & Hsy). unfold symbols in Hsy.
    rewrite (bool_decide_eq_false_2 (c ∈ _)) by set_solver. rewrite bool_decide_eq_false_2 by set_solver.
    assert (skip_word buf i = (i + length (c :: w))%nat) as -> by (unfold skip_word; rewrite Htx; by rewrite span_word). done.
Qed.
Lemma gettoken_end i : at_toks i [] → gettoken buf i = Ok ((0, (i, i)), i).
Proof.
  intros Hat. unfold gettoken. rewrite (bind_ok _ _ i i i) by (unfold gets; by rewrite (at_here _ _ Hat)). cbv zeta. rewrite (bind_ok _ _ _ _ _ (ch_ok buf _ _ (at_in _ _ Hat))). destruct (at_end _ Hat) as [_ ->].
  rewrite bool_decide_eq_true_2 by done. rewrite (bind_ok _ _ i (0, i) i) by done. by rewrite (bind_ok _ _ i tt i) by (unfold modify; by rewrite (at_here _ _ Hat)).
Qed.
Lemma at_length i ts : at_toks i ts → (length ts + i ≤ n)%nat.
Proof.
  intros [Ht _ Hi]. apply (f_equal length) in Ht. rewrite length_drop in Ht. assert (length ts ≤ length (print ts))%nat; [|lia].
  clear. induction ts as [|t ts IH]; [done|]. rewrite print_cons, length_app. simpl. lia.
Qed.

(** ** Parsing *)
Record span (a : nat * nat) (w : list Z) : Prop := {
  sp_text : slice buf (fst a) (length w) = w;
  sp_end : snd a = (fst a + length w)%nat;
  sp_blank : buf !! snd a = Some 32;
  sp_word : Forall letter w }.
Inductive rep : cmd → tree → Prop :=
| rep_exec argv ws : Forall2 span argv ws → rep (EXEC argv) (TExec ws)
| rep_redir c a mode fd t w : rep c t → span a w → rep (REDIR c a mode fd) (TRedir t w mode fd)
| rep_pipe l r t u : rep l t → rep r u → rep (PIPE l r) (TPipe t u)
| rep_list l r t u : rep l t → rep r u → rep (LIST l r) (TList t u)
| rep_back c t : rep c t → rep (BACK c) (TBack t).
Definition rspan (r : rop * (nat * nat)) (s : rop * list Z) : Prop := r.1 = s.1 ∧ span r.2 s.2.
Definition add_redirs (c : cmd) (rs : list (rop * (nat * nat))) : cmd := foldl (λ c r, REDIR c r.2 (rmode r.1) (rfd r.1)) c rs.

Lemma rep_redirs rsp rs : Forall2 rspan rsp rs → ∀ c t, rep c t → rep (add_redirs c rsp) (with_redirs t rs).
Proof.
  induction 1 as [|[op a] [op' w] rsp rs [Hop Ha] _ IH]; intros c t Hc; [done|]. simpl in Hop, Ha. subst op'. unfold add_redirs, with_redirs. cbn [foldl].
  apply IH. by constructor.
Qed.
Lemma set_argv_redirs argv rsp : ∀ c, set_argv argv (add_redirs c rsp) = add_redirs (set_argv argv c) rsp.
Proof. induction rsp as [|r rsp IH]; intros c; [done|]. unfold add_redirs. cbn [foldl]. apply (IH (REDIR c r.2 (rmode r.1) (rfd r.1))). Qed.
Lemma word_span i w ts : at_toks i (Word w :: ts) → span (i, (i + length w)%nat) w.
Proof.
  intros Hat. destruct (at_next _ _ _ Hat) as (_ & Hs & Ht & _). cbn [text] in *. split; simpl; try done.
  apply at_ok in Hat. apply Forall_inv in Hat. apply Hat.
Qed.
Lemma rtok_code r : code (rtok r) = match r with RIn => 60 | ROut => 62 | RApp => 43 end.
Proof. by destruct r. Qed.
Lemma parseredirs_at rs : ∀ ks fuel c i, at_toks i (redir_toks rs ++ ks) → starts [60; 62] ks = false → (length rs < fuel)%nat →
  ∃ rsp j, parseredirs_loop buf fuel c i = Ok (add_redirs c rsp, j) ∧ at_toks j ks ∧ (i ≤ j)%nat ∧ Forall2 rspan rsp rs.
Proof.
  induction rs as [|[op w] rs IH]; intros ks [|fuel] c i Hat Hks Hf; [simpl in Hf; lia| |simpl in Hf; lia|]; cbn [parseredirs_loop];
    rewrite (bind_ok _ _ _ _ _ (peek_at _ _ _ Hat)).
  - simpl. rewrite Hks. exists [], i. split; [done|]. split; [done|]. split; [lia|constructor].
  - change (redir_toks ((op, w) :: rs) ++ ks) with (rtok op :: Word w :: redir_toks rs ++ ks) in *.
    replace (starts [60; 62] (rtok op :: Word w :: redir_toks rs ++ ks)) with true by (by destruct op).
    destruct (gettoken_at _ _ _ Hat) as [Hg1 Hat1]. rewrite (bind_ok _ _ _ _ _ Hg1). pose proof (word_span _ _ _ Hat1) as Hsp.
    destruct (gettoken_at _ _ _ Hat1) as [Hg2 Hat2]. rewrite (bind_ok _ _ _ _ _ Hg2). cbn [fst snd code text] in *. rewrite bool_decide_eq_false_2 by auto.
    set (k := S (i + length (text (rtok op)))) in *. set (a := (k, (k + length w)%nat)) in *.
    match goal with |- context [parseredirs_loop buf fuel ?x] => replace x with (REDIR c a (rmode op) (rfd op)) by (by destruct op) end.
    destruct (IH ks fuel (REDIR c a (rmode op) (rfd op)) _ Hat2 Hks ltac:(simpl in Hf; lia)) as (rsp & j & Hrun & Hj & Hij & Hrs).
    exists ((op, a) :: rsp), j. split; [exact Hrun|]. split; [done|]. split; [subst k; lia|]. constructor; [by split|done].
Qed.
Lemma redir_len rs : (length rs ≤ length (redir_toks rs))%nat.
Proof. induction rs as [|r rs IH]; [done|]. unfold redir_toks in *. simpl. lia. Qed.
Lemma redirs_at rs ks c i : at_toks i (redir_toks rs ++ ks) → starts [60; 62] ks = false →
  ∃ rsp j, parseredirs buf c i = Ok (add_redirs c rsp, j) ∧ at_toks j ks ∧ (i ≤ j)%nat ∧ Forall2 rspan rsp rs.
Proof.
  intros Hat Hks. apply parseredirs_at; [done|done|]. pose proof (at_length _ _ Hat) as Hl. rewrite length_app in Hl. pose proof (redir_len rs). lia.
Qed.
Definition ends : list Z := [124; 41; 38; 59].
Lemma follow_redir ks : follow ends ks → starts [60; 62] ks = false.
Proof. intros H. eapply starts_follow; [exact H|]. unfold ends. set_solver. Qed.
Lemma exec_at args : ∀ ks fuel argv ret i, at_toks i (arg_toks args ++ ks) → follow ends ks → (length args < fuel)%nat → (length argv + length args < MAXARGS)%nat →
  ∃ spans rsp j, exec_loop buf fuel argv ret i = Ok (set_argv (argv ++ spans) (add_redirs ret rsp), j) ∧ at_toks j ks ∧ (i ≤ j)%nat ∧
    Forall2 span spans (map fst args) ∧ Forall2 rspan rsp (concat (map snd args)).
Proof.
  induction args as [|[w rs] args IH]; intros ks [|fuel] argv ret i Hat Hks Hf Hn; [simpl in Hf; lia| |simpl in Hf; lia|]; cbn [exec_loop];
    rewrite (bind_ok _ _ _ _ _ (peek_at _ _ _ Hat)).
  - exists [], [], i. rewrite app_nil_r. simpl in Hat |- *. destruct Hks as [->|(c & us & -> & Hc)].
    + simpl. rewrite (bind_ok _ _ _ _ _ (gettoken_end _ Hat)). split_and!; done || constructor.
    + simpl. replace (strchr [124; 41; 38; 59] c) with true by (symmetry; by apply bool_decide_eq_true). split_and!; done || constructor.
  - change (arg_toks ((w, rs) :: args) ++ ks) with (Word w :: (redir_toks rs ++ arg_toks args) ++ ks) in *. rewrite <- app_assoc in *.
    pose proof (word_span _ _ _ Hat) as Hsp. assert (tok_ok (Word w)) as Hw by (apply at_ok in Hat; by apply Forall_inv in Hat).
    rewrite starts_word by (done || (unfold symbols; set_solver)). destruct (gettoken_at _ _ _ Hat) as [Hg Hat1]. rewrite (bind_ok _ _ _ _ _ Hg). cbn [fst snd code text] in *.
    rewrite (bool_decide_eq_false_2 (97 = 0)) by done. rewrite (bool_decide_eq_false_2 (97 ≠ 97)) by auto. set (a := (i, (i + length w)%nat)) in *.
    rewrite bool_decide_eq_false_2 by (rewrite length_app; simpl in *; lia).
    destruct (redirs_at rs (arg_toks args ++ ks) ret _ Hat1) as (rsp1 & j1 & Hr1 & Hj1 & Hij1 & Hrs1).
    { destruct args as [|[w2 rs2] args]; [by apply follow_redir|]. apply (starts_word [60; 62] w2 ((redir_toks rs2 ++ arg_toks args) ++ ks)); [|unfold symbols; set_solver].
      apply at_ok in Hat1. rewrite Forall_app in Hat1. destruct Hat1 as [_ H2]. by apply Forall_inv in H2. }
    rewrite (bind_ok _ _ _ _ _ Hr1). destruct (IH ks fuel (argv ++ [a]) (add_redirs ret rsp1) j1 Hj1 Hks) as (spans & rsp & j & Hrun & Hj & Hij & Hs & Hrs);
      [simpl in Hf; lia|rewrite length_app; simpl in *; lia|].
    exists (a :: spans), (rsp1 ++ rsp), j. rewrite <- app_assoc in Hrun. split; [rewrite Hrun; unfold add_redirs; by rewrite foldl_app|]. split; [done|]. split; [lia|].
    split; [by constructor|]. by apply Forall2_app.
Qed.
Lemma back_at k : ∀ ks fuel c i, at_toks i (replicate k (Sym 38) ++ ks) → starts [38] ks = false → (k < fuel)%nat →
  ∃ c' j, back_loop buf fuel c i = Ok (c', j) ∧ at_toks j ks ∧ (i ≤ j)%nat ∧ ∀ t, rep c t → rep c' (backs k t).
Proof.
  induction k as [|k IH]; intros ks [|fuel] c i Hat Hks Hf; try lia; cbn [back_loop]; rewrite (bind_ok _ _ _ _ _ (peek_at _ _ _ Hat)).
  - simpl in Hat |- *. rewrite Hks. by exists c, i.
  - cbn [replicate app] in *. change (starts [38] (Sym 38 :: replicate k (Sym 38) ++ ks)) with true. cbv iota.
    destruct (gettoken_at _ _ _ Hat) as [Hg Hat1]. rewrite (bind_ok _ _ _ _ _ Hg). destruct (IH ks fuel (BACK c) _ Hat1 Hks ltac:(lia)) as (c' & j & Hrun & Hj & Hij & Hrep).
    exists c', j. split; [done|]. split; [done|]. split; [lia|]. intros t Ht. apply Hrep. by constructor.
Qed.
Lemma follow_mono cs ds ts : follow cs ts → (∀ c, c ∈ cs → c ∈ ds) → follow ds ts.
Proof. intros [->|(c & us & -> & Hc)] H; [by left|right; eauto]. Qed.
Lemma back_follow bg ks : follow [41; 59] ks → follow [41; 38; 59] (replicate bg (Sym 38) ++ ks).
Proof. intros Hk. destruct bg as [|bg]; [|right; eexists _, _; split; [done|set_solver]]. eapply follow_mono; [exact Hk|set_solver]. Qed.
(** A pipeline and the ampersands behind it. *)
Lemma backs_at bg ks c i t : at_toks i (replicate bg (Sym 38) ++ ks) → follow [41; 59] ks → rep c t →
  ∃ c' j, back_loop buf (S n) c i = Ok (c', j) ∧ at_toks j ks ∧ (i ≤ j)%nat ∧ rep c' (backs bg t).
Proof.
  intros Hat Hks Hc. destruct (back_at bg ks (S n) c i Hat) as (c' & j & Hrun & Hj & Hij & Hrep).
  - eapply starts_follow; [exact Hks|set_solver].
  - pose proof (at_length _ _ Hat) as Hl. rewrite length_app, length_replicate in Hl. lia.
  - exists c', j. auto.
Qed.
(** What each function does with the tokens of its own part of the syntax. *)
Definition line_good (fuel : nat) : Prop := ∀ i ks l, few_args l → at_toks i (line_toks l ++ ks) → follow [41] ks → (4 * (n - i) + 4 ≤ fuel)%nat →
  ∃ c j, parseline buf fuel i = Ok (c, j) ∧ at_toks j ks ∧ (i ≤ j)%nat ∧ rep c (line_tree l).
Definition pipe_good (fuel : nat) : Prop := ∀ i ks p, pipe_few p → at_toks i (pipe_toks p ++ ks) → follow [41; 38; 59] ks → (4 * (n - i) + 3 ≤ fuel)%nat →
  ∃ c j, parsepipe buf fuel i = Ok (c, j) ∧ at_toks j ks ∧ (i ≤ j)%nat ∧ rep c (pipe_tree p).
Definition exec_good (fuel : nat) : Prop := ∀ i ks e, exec_few e → at_toks i (exec_toks e ++ ks) → follow ends ks → (4 * (n - i) + 2 ≤ fuel)%nat →
  ∃ c j, parseexec buf fuel i = Ok (c, j) ∧ at_toks j ks ∧ (i ≤ j)%nat ∧ rep c (exec_tree e).
Definition block_good (fuel : nat) : Prop := ∀ i ks l rs, few_args l → at_toks i (exec_toks (Block l rs) ++ ks) → follow ends ks → (4 * (n - i) + 1 ≤ fuel)%nat →
  ∃ c j, parseblock buf fuel i = Ok (c, j) ∧ at_toks j ks ∧ (i ≤ j)%nat ∧ rep c (exec_tree (Block l rs)).

Lemma line_step fuel : pipe_good fuel → line_good fuel → line_good (S fuel).
Proof.
  intros Hpipe Hline i ks [p bg|p bg l] Hfew Hat Hks Hf; cbn [parseline line_toks line_tree] in *; rewrite <- ?app_assoc in Hat; cbn [app] in Hat.
  - assert (follow [41; 59] ks) as Hks2 by (eapply follow_mono; [exact Hks|set_solver]).
    destruct (Hpipe i _ p Hfew Hat (back_follow _ _ Hks2)) as (c & j & Hp & Hj & Hij & Hc); [lia|].
    rewrite (bind_ok _ _ _ _ _ Hp). destruct (backs_at bg ks c j _ Hj Hks2 Hc) as (c2 & j2 & Hb & Hj2 & Hij2 & Hc2). rewrite (bind_ok _ _ _ _ _ Hb).
    rewrite (bind_ok _ _ _ _ _ (peek_at _ _ _ Hj2)). rewrite (starts_follow _ _ _ Hks) by set_solver. exists c2, j2. split_and!; try done. lia.
  - destruct Hfew as [Hfew Hfl]. assert (follow [41; 59] (Sym 59 :: line_toks l ++ ks)) as Hks2 by (right; eexists _, _; split; [done|set_solver]).
    destruct (Hpipe i _ p Hfew Hat (back_follow _ _ Hks2)) as (c & j & Hp & Hj & Hij & Hc); [lia|].
    rewrite (bind_ok _ _ _ _ _ Hp). destruct (backs_at bg _ c j _ Hj Hks2 Hc) as (c2 & j2 & Hb & Hj2 & Hij2 & Hc2). rewrite (bind_ok _ _ _ _ _ Hb).
    rewrite (bind_ok _ _ _ _ _ (peek_at _ _ _ Hj2)). change (starts [59] (Sym 59 :: line_toks l ++ ks)) with true. cbv iota.
    destruct (gettoken_at _ _ _ Hj2) as [Hg Hj3]. rewrite (bind_ok _ _ _ _ _ Hg). cbn [text length] in *. pose proof (at_in _ _ Hj3).
    destruct (Hline _ ks l Hfl Hj3 Hks) as (r & j4 & Hl & Hj4 & Hij4 & Hr); [lia|]. rewrite (bind_ok _ _ _ _ _ Hl).
    exists (LIST c2 r), j4. split_and!; try done; [lia|by constructor].
Qed.
Lemma pipe_step fuel : exec_good fuel → pipe_good fuel → pipe_good (S fuel).
Proof.
  intros Hexec Hpipe i ks [e|e p] Hfew Hat Hks Hf; cbn [parsepipe pipe_toks pipe_tree] in *; rewrite <- ?app_assoc in Hat; cbn [app] in Hat.
  - destruct (Hexec i ks e Hfew Hat) as (c & j & He & Hj & Hij & Hc); [eapply follow_mono; [exact Hks|unfold ends; set_solver]|lia|].
    rewrite (bind_ok _ _ _ _ _ He). rewrite (bind_ok _ _ _ _ _ (peek_at _ _ _ Hj)). rewrite (starts_follow _ _ _ Hks) by set_solver. by exists c, j.
  - destruct Hfew as [Hfew Hfp].
    destruct (Hexec i _ e Hfew Hat) as (c & j & He & Hj & Hij & Hc); [right; eexists _, _; split; [done|unfold ends; set_solver]|lia|].
    rewrite (bind_ok _ _ _ _ _ He). rewrite (bind_ok _ _ _ _ _ (peek_at _ _ _ Hj)). change (starts [124] (Sym 124 :: pipe_toks p ++ ks)) with true. cbv iota.
    destruct (gettoken_at _ _ _ Hj) as [Hg Hj3]. rewrite (bind_ok _ _ _ _ _ Hg). cbn [text length] in *. pose proof (at_in _ _ Hj3).
    destruct (Hpipe _ ks p Hfp Hj3 Hks) as (r & j4 & Hl & Hj4 & Hij4 & Hr); [lia|]. rewrite (bind_ok _ _ _ _ _ Hl).
    exists (PIPE c r), j4. split_and!; try done; [lia|by constructor].
Qed.
Lemma args_start args ks cs : Forall tok_ok (arg_toks args ++ ks) → follow ends ks → (∀ c, c ∈ cs → (c ∈ symbols) ∧ (c ∉ ends)) → starts cs (arg_toks args ++ ks) = false.
Proof.
  intros Hok Hks Hcs. destruct args as [|[w rs] args].
  - eapply starts_follow; [exact Hks|]. intros c Hc Hc'. by apply (Hcs c).
  - apply (starts_word cs w ((redir_toks rs ++ arg_toks args) ++ ks)); [by apply Forall_inv in Hok|]. intros c Hc. by apply Hcs.
Qed.
Lemma arg_len args : (length args ≤ length (arg_toks args))%nat.
Proof. induction args as [|r args IH]; [done|]. unfold arg_toks in *. simpl. rewrite length_app. lia. Qed.
Lemma exec_step fuel : block_good fuel → exec_good (S fuel).
Proof.
  intros Hblock i ks [rs args|l rs] Hfew Hat Hks Hf; cbn [parseexec] in *; rewrite (bind_ok _ _ _ _ _ (peek_at _ _ _ Hat)).
  - cbn [exec_toks exec_tree exec_few] in *. rewrite <- app_assoc in *. pose proof (at_ok _ _ Hat) as Hok. rewrite Forall_app in Hok. destruct Hok as [_ Hok].
    replace (starts [40] (redir_toks rs ++ arg_toks args ++ ks)) with false.
    2:{ destruct rs as [|[op w] rs]; [|by destruct op]. symmetry. apply args_start; [done|done|]. unfold symbols, ends. set_solver. }
    destruct (redirs_at rs _ (EXEC []) i Hat) as (rsp & j & Hr & Hj & Hij & Hrs); [apply args_start; [done|done|]; unfold symbols, ends; set_solver|].
    rewrite (bind_ok _ _ _ _ _ Hr). destruct (exec_at args ks (S n) [] (add_redirs (EXEC []) rsp) j Hj Hks) as (spans & rsp2 & j2 & Hrun & Hj2 & Hij2 & Hs & Hrs2).
    { pose proof (at_length _ _ Hj) as Hl. rewrite length_app in Hl. pose proof (arg_len args). lia. }
    { simpl. done. }
    rewrite Hrun. eexists _, j2. split; [done|]. split; [done|]. split; [lia|]. rewrite !set_argv_redirs. cbn [set_argv app].
    replace (add_redirs (add_redirs (EXEC spans) rsp) rsp2) with (add_redirs (EXEC spans) (rsp ++ rsp2)) by (unfold add_redirs; by rewrite foldl_app).
    apply rep_redirs; [by apply Forall2_app|by constructor].
  - change (starts [40] (exec_toks (Block l rs) ++ ks)) with true. cbv iota. apply Hblock; [done|done|done|lia].
Qed.
Lemma block_step fuel : line_good fuel → block_good (S fuel).
Proof.
  intros Hline i ks l rs Hfew Hat Hks Hf. cbn [parseblock]. rewrite (bind_ok _ _ _ _ _ (peek_at _ _ _ Hat)). change (starts [40] (exec_toks (Block l rs) ++ ks)) with true.
  cbn [negb exec_toks exec_tree] in *. cbn [app] in Hat. rewrite <- app_assoc in Hat. cbn [app] in Hat.
  destruct (gettoken_at _ _ _ Hat) as [Hg Hat1]. rewrite (bind_ok _ _ _ _ _ Hg). cbn [text length] in *. pose proof (at_in _ _ Hat1).
  destruct (Hline _ _ l Hfew Hat1) as (c & j & Hl & Hj & Hij & Hc); [right; eexists _, _; split; [done|set_solver]|lia|].
  rewrite (bind_ok _ _ _ _ _ Hl). rewrite (bind_ok _ _ _ _ _ (peek_at _ _ _ Hj)). change (starts [41] (Sym 41 :: redir_toks rs ++ ks)) with true. cbn [negb].
  destruct (gettoken_at _ _ _ Hj) as [Hg2 Hj2]. rewrite (bind_ok _ _ _ _ _ Hg2). cbn [text length] in *.
  destruct (redirs_at rs ks c _ Hj2 (follow_redir _ Hks)) as (rsp & j3 & Hr & Hj3 & Hij3 & Hrs). rewrite Hr. eexists _, j3. split; [done|]. split; [done|]. split; [lia|].
  by apply rep_redirs.
Qed.
Lemma parse_good fuel : line_good fuel ∧ pipe_good fuel ∧ exec_good fuel ∧ block_good fuel.
Proof.
  induction fuel as [|fuel (H1 & H2 & H3 & H4)]; [split_and!; intros ?; intros; lia|].
  auto using line_step, pipe_step, exec_step, block_step.
Qed.

(** ** Reading the strings back *)
(** The line, with NULs in the place of some blanks. *)
Record zeroed (m : list Z) : Prop := {
  ze_len : length m = S n;
  ze_at : ∀ x c, buf !! x = Some c → m !! x = Some c ∨ (c = 32 ∧ m !! x = Some 0) }.
Fixpoint ended (m : list Z) (c : cmd) : Prop :=
  match c with
  | EXEC argv => Forall (λ a, m !! snd a = Some 0) argv
  | REDIR c a _ _ => ended m c ∧ m !! snd a = Some 0
  | PIPE l r | LIST l r => ended m l ∧ ended m r
  | BACK c => ended m c
  end.
Definition keeps_nuls (m m' : list Z) : Prop := ∀ x, m !! x = Some 0 → m' !! x = Some 0.
Lemma ended_mono m m' c : keeps_nuls m m' → ended m c → ended m' c.
Proof.
  intros Hk. induction c as [argv|c IH [q e] mode fd|l IHl r IHr|l IHl r IHr|c IH]; simpl; try tauto.
  - intros Ha. eapply Forall_impl; [exact Ha|]. simpl. auto.
  - intros [? ?]. auto.
Qed.
Lemma put_nul_at m a w : zeroed m → span a w → ∃ m', put_nul (snd a) m = Ok m' ∧ zeroed m' ∧ keeps_nuls m m' ∧ m' !! snd a = Some 0.
Proof.
  intros [Hl Hz] [_ _ Hb _]. pose proof (lookup_lt_Some _ _ _ Hb) as He. unfold put_nul. rewrite store_bytes_ok by (simpl; lia). rewrite Nat2Z.id.
  assert (∀ x, x ≠ snd a → splice m (snd a) [0] !! x = m !! x) as Ho by (intros x Hx; apply lookup_splice_old; simpl; lia).
  assert (splice m (snd a) [0] !! snd a = Some 0) as Hh by (rewrite lookup_splice_new by (simpl; lia); by rewrite Nat.sub_diag).
  eexists. split; [done|]. split; [|split; [|done]].
  - split; [rewrite length_splice; simpl; lia|]. intros x c Hx. destruct (decide (x = snd a)) as [->|Hne]; [right; split; [congruence|done]|]. rewrite Ho by done. by apply Hz.
  - intros x Hx. destruct (decide (x = snd a)) as [->|Hne]; [done|]. by rewrite Ho.
Qed.
Lemma nul_args argv ws : Forall2 span argv ws → ∀ m, zeroed m → ∃ m', foldl nul_arg (Ok m) argv = Ok m' ∧ zeroed m' ∧ keeps_nuls m m' ∧ Forall (λ a, m' !! snd a = Some 0) argv.
Proof.
  induction 1 as [|a w argv ws Ha _ IH]; intros m Hm; [exists m; split; [done|]; split; [done|]; split; [by intros x|constructor]|]. cbn [foldl].
  destruct (put_nul_at m a w Hm Ha) as (m1 & Hp & Hm1 & Hk1 & H0). change (nul_arg (Ok m) a) with (put_nul (snd a) m). rewrite Hp.
  destruct (IH m1 Hm1) as (m2 & Hr & Hm2 & Hk2 & Hall). exists m2. split; [done|]. split; [done|]. split; [intros x Hx; auto|]. constructor; auto.
Qed.
Lemma nulterminate_at c t : rep c t → ∀ m, zeroed m → ∃ m', nulterminate c m = Ok m' ∧ zeroed m' ∧ keeps_nuls m m' ∧ ended m' c.
Proof.
  induction 1 as [argv ws Hs|c a mode fd t w _ IH Ha|l r t u _ IHl _ IHr|l r t u _ IHl _ IHr|c t _ IH]; intros m Hm; cbn [nulterminate ended].
  - by eapply nul_args.
  - destruct (IH m Hm) as (m1 & -> & Hm1 & Hk1 & He1). destruct (put_nul_at m1 a w Hm1 Ha) as (m2 & Hp & Hm2 & Hk2 & H0). exists m2.
    split; [done|]. split; [done|]. split; [intros x Hx; auto|]. split; [by eapply ended_mono|done].
  - destruct (IHl m Hm) as (m1 & -> & Hm1 & Hk1 & He1). destruct (IHr m1 Hm1) as (m2 & Hp & Hm2 & Hk2 & He2). exists m2.
    split; [done|]. split; [done|]. split; [intros x Hx; auto|]. split; [by eapply ended_mono|done].
  - destruct (IHl m Hm) as (m1 & -> & Hm1 & Hk1 & He1). destruct (IHr m1 Hm1) as (m2 & Hp & Hm2 & Hk2 & He2). exists m2.
    split; [done|]. split; [done|]. split; [intros x Hx; auto|]. split; [by eapply ended_mono|done].
  - by apply IH.
Qed.
Lemma cstring_word w rest : Forall letter w → cstring (w ++ 0 :: rest) = Ok w.
Proof. induction 1 as [|c w (H0 & _) _ IH]; [done|]. cbn [app cstring]. rewrite bool_decide_eq_false_2 by done. by rewrite IH. Qed.
Lemma string_span m a w : zeroed m → span a w → m !! snd a = Some 0 → string_at m a = Ok w.
Proof.
  intros [Hl Hz] [Ht He Hb Hw] H0. pose proof (lookup_lt_Some _ _ _ Hb) as Hlt. unfold string_at.
  assert (drop (fst a) m = w ++ 0 :: drop (S (snd a)) m) as ->; [|by apply cstring_word].
  rewrite <- (take_drop (length w) (drop (fst a) m)), drop_drop, <- He, (drop_S _ _ _ H0). f_equal.
  change (slice m (fst a) (length w) = w). apply list_eq. intros i. destruct (decide (i < length w)%nat) as [Hi|Hi].
  - rewrite lookup_slice by done. destruct (lookup_lt_is_Some_2 w i Hi) as [c Hc]. rewrite Hc. assert (buf !! (fst a + i)%nat = Some c) as Hbc.
    { rewrite <- Ht in Hc. by rewrite lookup_slice in Hc. }
    destruct (Hz _ _ Hbc) as [?|[-> _]]; [done|]. apply (Forall_lookup_1 _ _ _ _ Hw) in Hc as (_ & Hws & _). unfold whitespace in Hws. set_solver.
  - rewrite !lookup_ge_None_2; [done|lia|rewrite length_slice; lia].
Qed.
Lemma read_rep m c t : zeroed m → rep c t → ended m c → read_cmd m c = Ok t.
Proof.
  intros Hm. induction 1 as [argv ws Hs|c a mode fd t w _ IH Ha|l r t u _ IHl _ IHr|l r t u _ IHl _ IHr|c t _ IH]; cbn [read_cmd ended].
  - intros He. assert (strings_at m argv = Ok ws) as ->; [|done]. induction Hs as [|a w argv ws Ha _ IHs]; [done|]. apply Forall_cons in He as [H0 He]. simpl.
    rewrite (string_span m a w Hm Ha H0). simpl. by rewrite IHs.
  - intros [He H0]. rewrite IH by done. simpl. by rewrite (string_span m a w Hm Ha H0).
  - intros [H1 H2]. rewrite IHl by done. simpl. by rewrite IHr.
  - intros [H1 H2]. rewrite IHl by done. simpl. by rewrite IHr.
  - intros He. by rewrite IH.
Qed.
End lex.

(** ** Claims *)

(** C37: parsing inverts printing.  For every command line in the shell's grammar,
    with lists, pipes, background commands, blocks, redirections and fewer than ten
    arguments per command, written out with a blank behind each token: [parsecmd]
    accepts it, and the command it returns, its strings read from the line after the
    NULs have been put in, is the command that the line stands for. *)
Theorem parse_print l : Forall tok_ok (line_toks l) → few_args l →
  ∃ c m, parsecmd (print (line_toks l)) = Ok (c, m) ∧ read_cmd m c = Ok (line_tree l).
Proof.
  intros Hok Hfew. set (buf := print (line_toks l)). assert (at_toks buf 0 (line_toks l ++ [])) as Hat by (rewrite app_nil_r; split; [done|done|lia]).
  destruct (proj1 (parse_good buf (4 * S (length buf))) 0%nat [] l Hfew Hat (or_introl eq_refl) ltac:(lia)) as (c & j & Hrun & Hj & _ & Hc).
  destruct (nulterminate_at buf c _ Hc (buf ++ [0])) as (m & Hm & Hz & _ & He).
  { split; [rewrite length_app; simpl; lia|]. intros x d Hx. left. apply lookup_app_l_Some. done. }
  exists c, m. split; [|by eapply read_rep]. unfold parsecmd. rewrite Hrun. unfold mbind, res_bind. cbv beta iota. rewrite (peek_at _ _ _ _ Hj). cbn [snd].
  rewrite bool_decide_eq_false_2 by (destruct (at_end _ _ Hj); auto). by rewrite Hm.
Qed.
(** [( ls < a | wc & ) >> b ; x] *)
Definition sample : sline :=
  LineSeq (Pip1 (Block (Line1 (PipSeq (Simple [] [([108; 115], [(RIn, [97])])]) (Pip1 (Simple [] [([119; 99], [])]))) 1) [(RApp, [98])])) 0
    (Line1 (Pip1 (Simple [] [([120], [])])) 0).
Lemma parse_print_witness : ∃ c m, parsecmd (print (line_toks sample)) = Ok (c, m) ∧
  read_cmd m c = Ok (TList (TRedir (TBack (TPipe (TRedir (TExec [[108; 115]]) [97] 0 0) (TExec [[119; 99]]))) [98] 513 1) (TExec [[120]])).
Proof.
  destruct (parse_print sample) as (c & m & Hp & Hr).
  - unfold sample, tok_ok, letter, whitespace, symbols. simpl. repeat constructor; set_solver.
  - simpl. unfold MAXARGS. lia.
  - exists c, m. split; [exact Hp|exact Hr].
Defined.
