(* ===== verification/ShRun.v ===== *)
(** * xv6 shell: running commands

    Models [runcmd], [fork1], [getcmd]'s caller [main] of
    [src/lab3/xv6-public/sh.c] (the same file is in lab4).  What a command does is
    a tree of processes: the programs that are executed and the shells that wait,
    each with its table of file descriptors.  The system calls on descriptors are
    the kernel's: the lowest free descriptor is taken.  Whether the kernel has a
    process or a pipe left, and whether a file can be opened, are parameters. *)
From stdpp Require Import base numbers list sets.
From S2P Require Import Prelude Bytes Sh.
#[local] Open Scope Z_scope.

Definition NOFILE : nat := 16.

(** What a descriptor refers to: something the shell was given, a file it opened,
    or the reading ([false]) or writing end of a pipe. *)
Inductive obj : Type :=
| Given (n : nat)
| Opened (file : nat * nat) (mode : Z)
| PipeEnd (id : nat) (writing : bool).
Definition fdtab : Type := list (option obj).

(** A process of the shell from here on. *)
Inductive proc : Type :=
| Exit
| Exec (argv : list (nat * nat)) (t : fdtab)   (** runs a program, and exits if that fails *)
| Fork (child rest : proc)
| Wait (t : fdtab) (rest : proc).              (** waits for a child with these descriptors *)

(** ** System calls on descriptors *)
Fixpoint lowest (t : fdtab) : option nat :=
  match t with
  | [] => None
  | None :: _ => Some O
  | Some _ :: t => S <$> lowest t
  end.
Definition close (fd : nat) (t : fdtab) : fdtab := <[fd := None]> t.
Definition install (o : obj) (t : fdtab) : option (nat * fdtab) :=
  fd ← lowest t; Some (fd, <[fd := Some o]> t).
(** A failing [dup] changes nothing, and its result is not looked at. *)
Definition dup (fd : nat) (t : fdtab) : fdtab :=
  match t !! fd with
  | Some (Some o) => match install o t with Some (_, t') => t' | None => t end
  | _ => t
  end.

(** The numbers of processes and pipes made so far. *)
Record world : Type := mkworld { forks : nat; pipes : nat }.

Section run.
Context (can_fork can_pipe : nat → bool) (can_open : nat * nat → Z → bool).

Definition fork1 (child rest : M world proc) : M world proc :=
  n ← gets forks;
  if can_fork n then
    modify (λ w, mkworld (S (forks w)) (pipes w));;
    c ← child;
    p ← rest;
    mret (Fork c p)
  else mret Exit.

Fixpoint runcmd (c : cmd) (t : fdtab) : M world proc :=
  match c with
  | EXEC argv => match argv with [] => mret Exit | _ => mret (Exec argv t) end
  | REDIR c file mode fd =>
    let t := close (Z.to_nat fd) t in
    match (if can_open file mode then install (Opened file mode) t else None) with
    | Some (_, t) => runcmd c t
    | None => mret Exit
    end
  | LIST l r => fork1 (runcmd l t) (p ← runcmd r t; mret (Wait t p))
  | PIPE l r =>
    id ← gets pipes;
    match (if can_pipe id then
             '(p0, t) ← install (PipeEnd id false) t;
             '(p1, t) ← install (PipeEnd id true) t;
             Some (p0, p1, t)
           else None) with
    | None => mret Exit
    | Some (p0, p1, t) =>
      modify (λ w, mkworld (forks w) (S (pipes w)));;
      fork1 (runcmd l (close p1 (close p0 (dup p1 (close 1 t)))))
        (fork1 (runcmd r (close p1 (close p0 (dup p0 (close 0 t)))))
           (let t := close p1 (close p0 t) in mret (Wait t (Wait t Exit))))
    end
  | BACK c => fork1 (runcmd c t) (mret Exit)
  end.

(** [while((fd = open("console", O_RDWR)) >= 0) if(fd >= 3) ...] *)
Fixpoint open_three (fuel : nat) (t : fdtab) : res fdtab :=
  match fuel with
  | O => Fault OutOfFuel
  | S n =>
    match install (Given 0) t with
    | None => Ok t
    | Some (fd, t) => if bool_decide (3 ≤ fd)%nat then Ok (close fd t) else open_three n t
    end
  end.

(** One turn of [main]'s loop on the line [buf] (with its newline), which is not
    empty: the directory to change to, or the process for the command. *)
Inductive turn : Type := Cd (path : list Z) | Ran (p : proc).
Definition shell_turn (buf : list Z) (t : fdtab) : M world turn :=
  match buf with
  | 99 :: 100 :: 32 :: _ => mret (Cd (drop 3 (removelast buf)))
  | _ =>
    p ← fork1 (match parsecmd buf with Ok (c, _) => runcmd c t | Fault _ => mret Exit end) (mret (Wait t Exit));
    mret (Ran p)
  end.
(** [main] on the lines that [getcmd] reads, up to the end of the input (an empty
    one).  A shell that cannot fork stops. *)
Fixpoint shell_loop (lines : list (list Z)) (t : fdtab) : M world (list turn) :=
  match lines with
  | [] => mret []
  | buf :: lines =>
    if bool_decide (buf = []) then mret []
    else
      r ← shell_turn buf t;
      match r with
      | Ran Exit => mret [r]
      | _ => rest ← shell_loop lines t; mret (r :: rest)
      end
  end.
Definition shell_main (lines : list (list Z)) (t : fdtab) : M world (list turn) :=
  t ← lift (open_three (S (length t)) t);
  shell_loop lines t.

(** ** What commands mean

    With standard input, output and error [i], [o], [e] and nothing else open. *)
Definition std (i o e : obj) : fdtab := [Some i; Some o; Some e] ++ replicate (NOFILE - 3) None.

Fixpoint wire (c : cmd) (i o e : obj) : M world proc :=
  match c with
  | EXEC argv => match argv with [] => mret Exit | _ => mret (Exec argv (std i o e)) end
  | REDIR c file mode fd =>
    if can_open file mode
    then if bool_decide (fd = 0) then wire c (Opened file mode) o e else wire c i (Opened file mode) e
    else mret Exit
  | LIST l r => fork1 (wire l i o e) (p ← wire r i o e; mret (Wait (std i o e) p))
  | PIPE l r =>
    id ← gets pipes;
    if can_pipe id then
      modify (λ w, mkworld (forks w) (S (pipes w)));;
      fork1 (wire l i (PipeEnd id true) e)
        (fork1 (wire r (PipeEnd id false) o e) (mret (Wait (std i o e) (Wait (std i o e) Exit))))
    else mret Exit
  | BACK c => fork1 (wire c i o e) (mret Exit)
  end.

(** Redirections are of standard input or output. *)
Fixpoint redirs_ok (c : cmd) : Prop :=
  match c with
  | EXEC _ => True
  | REDIR c _ _ fd => redirs_ok c ∧ (fd = 0 ∨ fd = 1)
  | PIPE l r | LIST l r => redirs_ok l ∧ redirs_ok r
  | BACK c => redirs_ok c
  end.

Lemma fork1_ext a b a' b' w : (∀ w, a w = a' w) → (∀ w, b w = b' w) → fork1 a b w = fork1 a' b' w.
Proof.
  intros Ha Hb. unfold fork1, mbind, M_bind, gets. destruct (can_fork (forks w)); [|done]. unfold modify. rewrite Ha. destruct (a' _) as [[p w']|]; [|done]. by rewrite Hb.
Qed.

(** A command is run as it means: no process of it has a descriptor but the three,
    and these are wired as the command says. *)
Lemma runcmd_wire c : ∀ i o e w, redirs_ok c → runcmd c (std i o e) w = wire c i o e w.
Proof.
  induction c as [argv|c IH file mode fd|l IHl r IHr|l IHl r IHr|c IH]; intros i o e w Hc; cbn [runcmd wire].
  - by destruct argv.
  - destruct Hc as [Hc [-> | ->]]; destruct (can_open file mode); try done; apply (IH _ _ _ w Hc).
  - destruct Hc as [Hl Hr]. rewrite !(bind_ok (gets pipes) _ w (pipes w) w) by done. destruct (can_pipe (pipes w)); [|done].
    change (install (PipeEnd (pipes w) false) (std i o e)) with (Some (3%nat, [Some i; Some o; Some e; Some (PipeEnd (pipes w) false)] ++ replicate 12 (@None obj))).
    cbn [mbind option_bind]. unfold mbind, M_bind, modify.
    apply fork1_ext; [intros w'; apply (IHl i (PipeEnd (pipes w) true) e w' Hl)|]. intros w'.
    apply fork1_ext; [intros w''; apply (IHr (PipeEnd (pipes w) false) o e w'' Hr)|]. done.
  - destruct Hc as [Hl Hr]. apply fork1_ext; [intros w'; by apply IHl|]. intros w'. unfold mbind, M_bind. by rewrite IHr.
  - apply fork1_ext; [intros w'; by apply IH|done].
Qed.
End run.

(** ** What the parser returns *)
Definition yields {A} (P : A → Prop) (m : M nat A) : Prop := ∀ s a s', m s = Ok (a, s') → P a.
Lemma yields_ret {A} (P : A → Prop) (a : A) : P a → yields P (mret a).
Proof. by intros Ha s b s' [= <- _]. Qed.
Lemma yields_fail {A} (P : A → Prop) f : yields P (fail f).
Proof. done. Qed.
Lemma yields_bind {A B} (Q : A → Prop) (P : B → Prop) (m : M nat A) (k : A → M nat B) :
  yields Q m → (∀ a, Q a → yields P (k a)) → yields P (m ≫= k).
Proof. intros Hm Hk s b s' Hr. apply bind_inv in Hr as (a & s1 & H1 & H2). eapply Hk; [by eapply Hm|exact H2]. Qed.
Lemma yields_any {A B} (P : B → Prop) (m : M nat A) (k : A → M nat B) : (∀ a, yields P (k a)) → yields P (m ≫= k).
Proof. intros Hk. apply (yields_bind (λ _, True)); [by intros s a s'|auto]. Qed.
Create HintDb yields.
#[export] Hint Resolve yields_ret yields_fail : yields.

Lemma argv_redirs_ok argv c : redirs_ok c → redirs_ok (set_argv argv c).
Proof. induction c as [|c IH ? ? ?| | |]; simpl; tauto. Qed.
#[export] Hint Resolve argv_redirs_ok : yields.

Section parsed.
Context (buf : list Z).
Lemma redirs_loop_yields fuel : ∀ c, redirs_ok c → yields redirs_ok (parseredirs_loop buf fuel c).
Proof.
  induction fuel as [|fuel IH]; intros c Hc; [done|]. apply yields_any. intros []; [|auto with yields]. do 2 (apply yields_any; intros ?).
  case_bool_decide; [done|]. apply IH. repeat case_bool_decide; simpl; auto.
Qed.
Lemma exec_loop_yields fuel : ∀ argv c, redirs_ok c → yields redirs_ok (exec_loop buf fuel argv c).
Proof.
  induction fuel as [|fuel IH]; intros argv c Hc; [done|]. apply yields_any. intros []; [auto with yields|]. apply yields_any. intros t.
  case_bool_decide; [auto with yields|]. case_bool_decide; [done|]. cbv zeta. case_bool_decide; [done|].
  eapply yields_bind; [by apply redirs_loop_yields|]. intros c'. apply IH.
Qed.
Lemma back_loop_yields fuel : ∀ c, redirs_ok c → yields redirs_ok (back_loop buf fuel c).
Proof. induction fuel as [|fuel IH]; intros c Hc; [done|]. apply yields_any. intros []; [|auto with yields]. apply yields_any. intros _. by apply IH. Qed.

Lemma parse_yields fuel : yields redirs_ok (parseline buf fuel) ∧ yields redirs_ok (parsepipe buf fuel) ∧
  yields redirs_ok (parseexec buf fuel) ∧ yields redirs_ok (parseblock buf fuel).
Proof.
  induction fuel as [|fuel (IHl & IHp & IHe & IHb)]; [done|]. split_and!; cbn [parseline parsepipe parseexec parseblock].
  - eapply yields_bind; [exact IHp|]. intros c Hc. eapply yields_bind; [by apply back_loop_yields|]. intros c' Hc'. apply yields_any. intros []; [|auto with yields].
    apply yields_any. intros _. eapply yields_bind; [exact IHl|]. intros r Hr. by apply yields_ret.
  - eapply yields_bind; [exact IHe|]. intros c Hc. apply yields_any. intros []; [|auto with yields]. apply yields_any. intros _.
    eapply yields_bind; [exact IHp|]. intros r Hr. by apply yields_ret.
  - apply yields_any. intros []; [done|]. eapply yields_bind; [by apply redirs_loop_yields|]. intros c Hc. by apply exec_loop_yields.
  - apply yields_any. intros []; cbn [negb]; [|done]. apply yields_any. intros _. eapply yields_bind; [exact IHl|]. intros c Hc. apply yields_any. intros []; cbn [negb]; [|done].
    apply yields_any. intros _. by apply redirs_loop_yields.
Qed.
Lemma parsecmd_redirs c m : parsecmd buf = Ok (c, m) → redirs_ok c.
Proof.
  unfold parsecmd. destruct (parseline buf _ _) as [[c' s]|] eqn:E; [|done]. unfold mbind, res_bind. cbv beta iota. destruct (peek buf [] s) as [r|]; [|done].
  case_bool_decide; [done|]. destruct (nulterminate _ _); [|done]. intros [= -> _]. by eapply (proj1 (parse_yields _)).
Qed.
End parsed.

(** ** Pipelines *)
Fixpoint pipeline (c : cmd) (cs : list cmd) : cmd := match cs with [] => c | d :: cs => PIPE c (pipeline d cs) end.
(** The programs that are run, and their descriptors. *)
Fixpoint programs (p : proc) : list (list (nat * nat) * fdtab) :=
  match p with
  | Exit => []
  | Exec argv t => [(argv, t)]
  | Fork c r => programs c ++ programs r
  | Wait _ r => programs r
  end.
(** The shells that wait, with theirs. *)
Fixpoint waiting (p : proc) : list fdtab :=
  match p with
  | Exit => []
  | Exec _ _ => []
  | Fork c r => waiting c ++ waiting r
  | Wait t r => t :: waiting r
  end.
(** Each program reads from the pipe its neighbour on the left writes to. *)
Fixpoint connected (n : nat) (i o e : obj) (argv : list (nat * nat)) (rest : list (list (nat * nat))) : list (list (nat * nat) * fdtab) :=
  match rest with
  | [] => [(argv, std i o e)]
  | b :: rest => (argv, std i (PipeEnd n true) e) :: connected (S n) (PipeEnd n false) o e b rest
  end.

Section pipelines.
Context (can_fork can_pipe : nat → bool) (can_open : nat * nat → Z → bool).
Context (Hfork : ∀ n, can_fork n = true) (Hpipe : ∀ n, can_pipe n = true).

Lemma fork1_ok child rest c p w w1 w2 : child (mkworld (S (forks w)) (pipes w)) = Ok (c, w1) → rest w1 = Ok (p, w2) →
  fork1 can_fork child rest w = Ok (Fork c p, w2).
Proof using Hfork. intros Hc Hr. unfold fork1, mbind, M_bind, gets, modify. by rewrite Hfork, Hc, Hr. Qed.

Lemma wire_pipeline o e rest : ∀ argv i w, argv ≠ [] → Forall (λ b, b ≠ []) rest →
  ∃ p w', wire can_fork can_pipe can_open (pipeline (EXEC argv) (EXEC <$> rest)) i o e w = Ok (p, w') ∧
    programs p = connected (pipes w) i o e argv rest ∧
    (∀ t, t ∈ waiting p → ∃ i', t = std i' o e).
Proof using Hfork Hpipe.
  induction rest as [|b rest IH]; intros argv i w Ha Hr.
  { exists (Exec argv (std i o e)), w. split; [by destruct argv|]. split; [done|]. intros t Ht. by apply not_elem_of_nil in Ht. }
  apply Forall_cons in Hr as [Hb Hr]. set (w1 := mkworld (S (forks w)) (S (pipes w))). set (w2 := mkworld (S (forks w1)) (pipes w1)).
  destruct (IH b (PipeEnd (pipes w) false) w2 Hb Hr) as (p & w' & E & Hp & Hw).
  exists (Fork (Exec argv (std i (PipeEnd (pipes w) true) e)) (Fork p (Wait (std i o e) (Wait (std i o e) Exit)))), w'. split_and!.
  - cbn [pipeline fmap list_fmap wire]. rewrite (bind_ok (gets pipes) _ w (pipes w) w), Hpipe by done. rewrite (bind_ok _ _ _ tt (mkworld (forks w) (S (pipes w)))) by done.
    apply (fork1_ok _ _ _ _ _ w1); [by destruct argv|]. apply (fork1_ok _ _ _ _ _ w'); [exact E|done].
  - cbn [programs connected app]. by rewrite Hp, app_nil_r.
  - intros t. cbn [waiting app]. rewrite elem_of_app. intros [Ht|Ht]; [by apply Hw|]. exists i. set_solver.
Qed.
End pipelines.

(** C39: The shell connects what it runs.  Every command that the parser returns is
    run as it means: each program gets the standard input, output and error that
    the redirections and pipes around it say and no other descriptor, and so does
    a shell that waits.  So in a pipeline of any length, when nothing fails, the
    programs are those of the line in order, each reads from the pipe the one
    before it writes to, and no other process, running or waiting, has the writing
    end of that pipe open: its reader will see the end of the data. *)
Theorem shell_connects_commands can_fork can_pipe can_open :
  (∀ buf c m i o e w, parsecmd buf = Ok (c, m) →
     runcmd can_fork can_pipe can_open c (std i o e) w = wire can_fork can_pipe can_open c i o e w) ∧
  ((∀ n, can_fork n = true) → (∀ n, can_pipe n = true) → ∀ argv rest i o e w, argv ≠ [] → Forall (λ b, b ≠ []) rest →
     ∃ p w', runcmd can_fork can_pipe can_open (pipeline (EXEC argv) (EXEC <$> rest)) (std i o e) w = Ok (p, w') ∧
       programs p = connected (pipes w) i o e argv rest ∧ (∀ t, t ∈ waiting p → ∃ i', t = std i' o e)).
Proof.
  split.
  - intros buf c m i o e w Hp. apply runcmd_wire. by eapply parsecmd_redirs.
  - intros Hf Hp argv rest i o e w Ha Hr. rewrite runcmd_wire; [by apply wire_pipeline|]. clear. revert argv. induction rest as [|b rest IH]; intros argv; simpl; auto.
Qed.

(** [a | b | c] *)
Lemma shell_connects_commands_witness : ∃ c m, parsecmd [97; 32; 124; 32; 98; 32; 124; 32; 99; 10] = Ok (c, m) ∧
  ∃ p w', runcmd (λ _, true) (λ _, true) (λ _ _, true) c (std (Given 0) (Given 1) (Given 2)) (mkworld 0 0) = Ok (p, w') ∧
    programs p = [([(0, 1)%nat], std (Given 0) (PipeEnd 0 true) (Given 2)); ([(4, 5)%nat], std (PipeEnd 0 false) (PipeEnd 1 true) (Given 2));
      ([(8, 9)%nat], std (PipeEnd 1 false) (Given 1) (Given 2))].
Proof.
  eexists _, _. split; [vm_compute; reflexivity|].
  destruct (proj2 (shell_connects_commands (λ _, true) (λ _, true) (λ _ _, true)) (λ _, eq_refl) (λ _, eq_refl) [(0, 1)%nat] [[(4, 5)%nat]; [(8, 9)%nat]]
    (Given 0) (Given 1) (Given 2) (mkworld 0 0)) as (p & w' & E & Hp & _); [discriminate|repeat constructor; discriminate|].
  exists p, w'. split; [exact E|exact Hp].
Defined.

(** *** The start of the shell *)

(** However many of its first descriptors are open, three are open afterwards, and
    no more. *)
Lemma open_three_ok t : (length t ≤ 3)%nat → Forall is_Some t →
  ∃ a b c, open_three (S NOFILE) (t ++ replicate (NOFILE - length t) None) = Ok ([Some a; Some b; Some c] ++ replicate (NOFILE - 3) None) ∧
    ∀ k o, t !! k = Some o → [Some a; Some b; Some c] !! k = Some o.
Proof.
  intros Hl Ht. destruct t as [|[x|] [|[y|] [|[z|] [|? ?]]]]; simpl in Hl; try lia;
    repeat match goal with H : Forall _ (_ :: _) |- _ => apply Forall_cons in H as [? H] end;
    try match goal with H : is_Some None |- _ => by apply is_Some_None in H end.
  - exists (Given 0), (Given 0), (Given 0). split; [done|]. by intros k o Hk.
  - exists x, (Given 0), (Given 0). split; [done|]. by intros [|k] o Hk.
  - exists x, y, (Given 0). split; [done|]. by intros [|[|k]] o Hk.
  - exists x, y, z. split; [done|]. by intros [|[|[|k]]] o Hk.
Qed.
