(* ===== verification/Console.v ===== *)
(** * The console

    Models the input side of [src/lab3/xv6-public/console.c] (the same file is in
    lab4): the ring buffer in which the keyboard interrupt edits a line and from
    which [consoleread] takes the finished ones, and the screen of [cgaputc].  What
    is echoed is the list of the arguments of [consputc].  A reader that finds
    nothing sleeps and later goes on with what it still wants. *)
From stdpp Require Import base numbers list sets strings.
From S2P Require Import Prelude.
#[local] Open Scope Z_scope.

Definition INPUT_BUF : Z := 128.
Definition BACKSPACE : Z := 256.
(** [C(x)] for P, U, H and D, and DEL. *)
Definition C_P : Z := 16.
Definition C_U : Z := 21.
Definition C_H : Z := 8.
Definition C_D : Z := 4.
Definition DEL : Z := 127.
Definition NL : Z := 10.
Definition CR : Z := 13.

Record input : Type := mkinput { ibuf : list Z; ir : Z; iw : Z; ie : Z }.
Record cstate : Type := mkc { inp : input; echo : list Z }.
Definition set_inp (i : input) : M cstate unit := modify (λ s, mkc i (echo s)).
Definition consputc (c : Z) : M cstate unit := modify (λ s, mkc (inp s) (echo s ++ [c])).
Definition get_char (x : Z) : M cstate Z := i ← gets inp; lift (of_option (ibuf i !! Z.to_nat (x `mod` INPUT_BUF))).

(** ** The interrupt *)
Fixpoint kill_line (fuel : nat) : M cstate unit :=
  match fuel with
  | O => fail OutOfFuel
  | S fuel =>
    i ← gets inp;
    if bool_decide (ie i = iw i) then mret tt
    else
      c ← get_char (u32 (ie i - 1));
      if bool_decide (c = NL) then mret tt
      else
        set_inp (mkinput (ibuf i) (ir i) (iw i) (u32 (ie i - 1)));;
        consputc BACKSPACE;;
        kill_line fuel
  end.
(** One character; the result says that the processes are to be listed. *)
Definition key (c : Z) : M cstate bool :=
  i ← gets inp;
  if bool_decide (c = C_P) then mret true
  else if bool_decide (c = C_U) then kill_line (S (Z.to_nat INPUT_BUF));; mret false
  else if bool_decide (c = C_H ∨ c = DEL) then
    if bool_decide (ie i ≠ iw i) then
      set_inp (mkinput (ibuf i) (ir i) (iw i) (u32 (ie i - 1)));;
      consputc BACKSPACE;;
      mret false
    else mret false
  else if bool_decide (c ≠ 0) && bool_decide (u32 (ie i - ir i) < INPUT_BUF) then
    let c := if bool_decide (c = CR) then NL else c in
    let e' := u32 (ie i + 1) in
    let b' := <[Z.to_nat (ie i `mod` INPUT_BUF) := c]> (ibuf i) in
    set_inp (mkinput b' (ir i) (iw i) e');;
    consputc c;;
    (if bool_decide (c = NL) || bool_decide (c = C_D) || bool_decide (e' = u32 (ir i + INPUT_BUF)) then
       set_inp (mkinput b' (ir i) e' e')
     else mret tt);;
    mret false
  else mret false.
(** The characters that [getc] has. *)
Fixpoint consoleintr_loop (cs : list Z) (doprocdump : bool) : M cstate bool :=
  match cs with
  | [] => mret doprocdump
  | c :: cs => b ← key c; consoleintr_loop cs (doprocdump || b)
  end.
Definition consoleintr (cs : list Z) : M cstate bool := consoleintr_loop cs false.

(** ** The reader

    [n] is what is still wanted of [target], [got] what has been copied. *)
Inductive rresult := RDone (got : list Z) | RSleep (n : nat) (got : list Z) | RKilled.
Fixpoint read_loop (killed : bool) (target n : nat) (got : list Z) : M cstate rresult :=
  match n with
  | O => mret (RDone got)
  | S n' =>
    i ← gets inp;
    if bool_decide (ir i = iw i) then mret (if killed then RKilled else RSleep n got)
    else
      c ← get_char (ir i);
      let r' := u32 (ir i + 1) in
      set_inp (mkinput (ibuf i) r' (iw i) (ie i));;
      if bool_decide (c = C_D) then
        (if bool_decide (n < target)%nat then set_inp (mkinput (ibuf i) (u32 (r' - 1)) (iw i) (ie i)) else mret tt);;
        mret (RDone got)
      else if bool_decide (c = NL) then mret (RDone (got ++ [c]))
      else read_loop killed target n' (got ++ [c])
  end.
Definition consoleread (killed : bool) (n : Z) : M cstate rresult := read_loop killed (Z.to_nat n) (Z.to_nat n) [].

(** ** The screen

    The characters of the CGA memory, and the cursor, which the controller keeps. *)
Record cga : Type := mkcga { crt : list Z; pos : Z }.
Definition crt_set (p v : Z) (l : list Z) : res (list Z) :=
  if bool_decide (0 ≤ p < Z.of_nat (length l)) then Ok (<[Z.to_nat p := v]> l) else Fault Undefined.
Definition cgaputc (c : Z) (s : cga) : res cga :=
  r ← (if bool_decide (c = NL) then Ok (mkcga (crt s) (pos s + (80 - Z.rem (pos s) 80)))
       else if bool_decide (c = BACKSPACE) then Ok (mkcga (crt s) (if bool_decide (pos s > 0) then pos s - 1 else pos s))
       else l ← crt_set (pos s) (Z.lor (Z.land c 255) 1792) (crt s); mret (mkcga l (pos s + 1)));
  if bool_decide (pos r < 0 ∨ pos r > 25 * 80) then Fault (Panic "pos under/overflow")
  else
    r ← (if bool_decide (Z.quot (pos r) 80 >= 24) then
           if bool_decide (24 * 80 ≤ length (crt r))%nat then
             let moved := take (23 * 80) (drop 80 (crt r)) ++ drop (23 * 80) (crt r) in
             let p := pos r - 80 in
             if bool_decide (0 ≤ p ≤ 24 * 80) then
               mret (mkcga (take (Z.to_nat p) moved ++ replicate (24 * 80 - Z.to_nat p) 0 ++ drop (24 * 80) moved) p)
             else Fault Undefined
           else Fault Undefined
         else mret r);
    l ← crt_set (pos r) (Z.lor 32 1792) (crt r);
    mret (mkcga l (pos r)).

(** ** The line discipline

    The characters of finished lines, and those of the line being typed. *)
Definition akey (c : Z) (s : list Z * list Z) : list Z * list Z :=
  let '(ready, edit) := s in
  if bool_decide (c = C_P) then s
  else if bool_decide (c = C_U) then (ready, [])
  else if bool_decide (c = C_H ∨ c = DEL) then (ready, take (length edit - 1) edit)
  else if bool_decide (c ≠ 0 ∧ (length ready + length edit < 128)%nat) then
    let c := if bool_decide (c = CR) then NL else c in
    if bool_decide (c = NL ∨ c = C_D ∨ (length ready + length edit = 127)%nat) then (ready ++ edit ++ [c], [])
    else (ready, edit ++ [c])
  else s.
(** A read takes up to the end of a line, of a file or of what it wants. *)
Fixpoint aread (target n : nat) (ready got : list Z) : option (list Z) * nat * list Z * list Z :=
  match n, ready with
  | O, _ => (Some got, O, got, ready)
  | _, [] => (None, n, got, [])
  | S n', c :: ready' =>
    if bool_decide (c = C_D) then (Some got, n, got, if bool_decide (n < target)%nat then ready else ready')
    else if bool_decide (c = NL) then (Some (got ++ [c]), n', got ++ [c], ready')
    else aread target n' ready' (got ++ [c])
  end.

Record cons_ok (i : input) (s : list Z * list Z) : Prop := {
  ck_len : length (ibuf i) = 128%nat;
  ck_r : 0 ≤ ir i < 2^32;
  ck_w : iw i = u32 (ir i + Z.of_nat (length s.1));
  ck_e : ie i = u32 (ir i + Z.of_nat (length (s.1 ++ s.2)));
  ck_max : (length (s.1 ++ s.2) ≤ 128)%nat;
  ck_at : ∀ k c, (s.1 ++ s.2) !! k = Some c → ibuf i !! Z.to_nat ((ir i + Z.of_nat k) `mod` INPUT_BUF) = Some c;
  ck_edit : NL ∉ s.2 }.

Lemma input_mod x : (u32 x) `mod` INPUT_BUF = x `mod` INPUT_BUF.
Proof. unfold u32, INPUT_BUF. change (2^32) with 4294967296. dlia. Qed.
(** Counters that are less than the buffer apart are equal only as numbers. *)
Lemma u32_inj r a b : 0 ≤ a ≤ 128 → 0 ≤ b ≤ 128 → u32 (r + a) = u32 (r + b) ↔ a = b.
Proof. intros Ha Hb. split; [|by intros ->]. unfold u32. change (2^32) with 4294967296. dlia. Qed.
Lemma u32_back r a : 1 ≤ a → u32 (u32 (r + a) - 1) = u32 (r + (a - 1)).
Proof. intros Ha. unfold u32. rewrite Zminus_mod_idemp_l. f_equal. lia. Qed.
Lemma u32_fwd r a : u32 (u32 (r + a) + 1) = u32 (r + (a + 1)).
Proof. unfold u32. rewrite Zplus_mod_idemp_l. f_equal. lia. Qed.
Lemma u32_diff r a : 0 ≤ r < 2^32 → 0 ≤ a ≤ 128 → u32 (u32 (r + a) - r) = a.
Proof. intros. unfold u32. rewrite Zminus_mod_idemp_l. replace (r + a - r) with a by lia. apply Z.mod_small. lia. Qed.
Lemma ok_char i s k c e : cons_ok i s → (s.1 ++ s.2) !! k = Some c →
  get_char (u32 (ir i + Z.of_nat k)) (mkc i e) = Ok (c, mkc i e).
Proof. intros H Hk. unfold get_char. rewrite (bind_ok _ _ _ i (mkc i e)) by done. by rewrite input_mod, (ck_at _ _ H _ _ Hk). Qed.
Lemma edit_empty i r ed : cons_ok i (r, ed) → bool_decide (ie i = iw i) = bool_decide (ed = []).
Proof.
  intros [_ _ Hw He Hm _ _]. simpl in *. apply bool_decide_ext. rewrite He, Hw, length_app in *. rewrite u32_inj by lia. split; [|intros ->; simpl; lia].
  intros E. apply nil_length_inv. lia.
Qed.
Lemma ready_empty i r ed : cons_ok i (r, ed) → bool_decide (ir i = iw i) = bool_decide (r = []).
Proof.
  intros [_ Hr Hw _ Hm _ _]. simpl in *. rewrite length_app in Hm. apply bool_decide_ext. rewrite Hw. rewrite <- (u32_small (ir i)) at 1 by lia.
  rewrite <- (Z.add_0_r (ir i)) at 1. rewrite u32_inj by lia. split; [|intros ->; done]. intros E. apply nil_length_inv. lia.
Qed.
Lemma back_ok i r ed c : cons_ok i (r, ed ++ [c]) → cons_ok (mkinput (ibuf i) (ir i) (iw i) (u32 (ie i - 1))) (r, ed) ∧
  (r ++ ed ++ [c]) !! (length (r ++ ed)) = Some c ∧ u32 (ie i - 1) = u32 (ir i + Z.of_nat (length (r ++ ed))).
Proof.
  intros [Hl Hr Hw He Hm Ha Hn]. simpl in *. assert (u32 (ie i - 1) = u32 (ir i + Z.of_nat (length (r ++ ed)))) as E.
  { rewrite He, u32_back by (rewrite !length_app; simpl; lia). do 2 f_equal. rewrite !length_app. simpl. lia. }
  assert ((r ++ ed ++ [c]) !! length (r ++ ed) = Some c) as Hc by (rewrite app_assoc; by apply list_lookup_middle).
  split; [|done]. split; simpl; try done; [rewrite !length_app in *; simpl in *; lia| |set_solver].
  intros k d Hk. apply Ha. rewrite app_assoc. by apply lookup_app_l_Some.
Qed.
Lemma kill_ok r : ∀ ed i e fuel, cons_ok i (r, ed) → (length ed < fuel)%nat →
  ∃ i' e', kill_line fuel (mkc i e) = Ok (tt, mkc i' e') ∧ cons_ok i' (r, []).
Proof.
  intros ed. induction ed as [|c ed IH] using rev_ind; intros i e [|fuel] H Hf; try (simpl in Hf; lia); cbn [kill_line].
  - rewrite (bind_ok _ _ _ i (mkc i e)) by done. rewrite (edit_empty _ _ _ H). by exists i, e.
  - rewrite (bind_ok _ _ _ i (mkc i e)) by done. rewrite (edit_empty _ _ _ H). rewrite bool_decide_eq_false_2 by (by destruct ed).
    destruct (back_ok _ _ _ _ H) as (Hb & Hc & E). rewrite E. rewrite (bind_ok _ _ _ _ _ (ok_char i _ _ _ e H Hc)).
    rewrite bool_decide_eq_false_2 by (intros ->; apply (ck_edit _ _ H); simpl; set_solver). rewrite <- E.
    rewrite (bind_ok _ _ _ tt (mkc (mkinput (ibuf i) (ir i) (iw i) (u32 (ie i - 1))) e)) by done.
    rewrite (bind_ok _ _ _ tt (mkc (mkinput (ibuf i) (ir i) (iw i) (u32 (ie i - 1))) (e ++ [BACKSPACE]))) by done.
    apply IH; [done|]. rewrite length_app in Hf. simpl in Hf. lia.
Qed.
Lemma push_ok i r ed c : cons_ok i (r, ed) → (length (r ++ ed) < 128)%nat →
  let b' := <[Z.to_nat (ie i `mod` INPUT_BUF) := c]> (ibuf i) in
  cons_ok (mkinput b' (ir i) (u32 (ie i + 1)) (u32 (ie i + 1))) (r ++ ed ++ [c], []) ∧
  (c ≠ NL → cons_ok (mkinput b' (ir i) (iw i) (u32 (ie i + 1))) (r, ed ++ [c])).
Proof.
  intros [Hl Hr Hw He Hm Ha Hn] Hlt b'. simpl in *. assert (u32 (ie i + 1) = u32 (ir i + Z.of_nat (length (r ++ ed ++ [c])))) as E.
  { rewrite He, u32_fwd. do 2 f_equal. rewrite !length_app. simpl. lia. }
  assert (∀ k d, (r ++ ed ++ [c]) !! k = Some d → b' !! Z.to_nat ((ir i + Z.of_nat k) `mod` INPUT_BUF) = Some d) as Hat.
  { intros k d. unfold b'. rewrite He, input_mod, app_assoc. intros [Hk|[Hk Hd]]%lookup_app_Some.
    - pose proof (lookup_lt_Some _ _ _ Hk). rewrite list_lookup_insert_ne; [by apply Ha|]. unfold INPUT_BUF. dlia.
    - apply list_lookup_singleton_Some in Hd as [Hd <-]. replace k with (length (r ++ ed)) by lia. apply list_lookup_insert_eq. rewrite Hl. unfold INPUT_BUF. dlia. }
  assert (length b' = 128%nat) as Hl' by (unfold b'; by rewrite length_insert). assert (length (r ++ ed ++ [c]) ≤ 128)%nat as Hm' by (rewrite !length_app in *; simpl; lia).
  split; [|intros Hc]; split; simpl; rewrite ?app_nil_r; try done; set_solver.
Qed.
Lemma key_ok c s a : cons_ok (inp s) a → ∃ s', key c s = Ok (bool_decide (c = C_P), s') ∧ cons_ok (inp s') (akey c a).
Proof.
  destruct s as [i e], a as [r ed]. cbn [inp]. intros H. unfold key, akey. rewrite (bind_ok _ _ _ i (mkc i e)) by done.
  case_bool_decide as H1; [by exists (mkc i e)|]. case_bool_decide as H2.
  { destruct (kill_ok r ed i e (S (Z.to_nat INPUT_BUF)) H) as (i' & e' & Hk & Hok).
    - pose proof (ck_max _ _ H) as Hm. simpl in Hm. rewrite length_app in Hm. unfold INPUT_BUF. lia.
    - rewrite (bind_ok _ _ _ _ _ Hk). by exists (mkc i' e'). }
  case_bool_decide as H3.
  { replace (bool_decide (ie i ≠ iw i)) with (negb (bool_decide (ie i = iw i))) by (by repeat case_bool_decide). rewrite (edit_empty _ _ _ H).
    destruct ed as [|d ed _] using rev_ind; [by exists (mkc i e)|]. rewrite bool_decide_eq_false_2 by (by destruct ed). cbn [negb].
    destruct (back_ok _ _ _ _ H) as (Hb & _). replace (take _ (ed ++ [d])) with ed by (rewrite length_app, Nat.add_sub; by rewrite take_app_length).
    eexists. split; [reflexivity|exact Hb]. }
  pose proof (ck_max _ _ H) as Hm. pose proof (ck_e _ _ H) as He. cbn [fst snd] in *. assert (u32 (ie i - ir i) = Z.of_nat (length (r ++ ed))) as Hd.
  { rewrite He. apply u32_diff; [apply H|lia]. }
  rewrite Hd. replace (bool_decide (c ≠ 0) && bool_decide (Z.of_nat (length (r ++ ed)) < INPUT_BUF)) with (bool_decide (c ≠ 0 ∧ (length r + length ed < 128)%nat)).
  2:{ rewrite length_app. unfold INPUT_BUF. repeat case_bool_decide; done || lia. }
  case_bool_decide as H4; [|by exists (mkc i e)]. destruct H4 as [_ Hlt]. cbv zeta. set (c' := if bool_decide (c = CR) then NL else c).
  destruct (push_ok i r ed c' H) as [Hp1 Hp2]; [rewrite length_app; lia|]. set (b' := <[Z.to_nat (ie i `mod` INPUT_BUF) := c']> (ibuf i)) in *.
  replace (bool_decide (c' = NL) || bool_decide (c' = C_D) || bool_decide (u32 (ie i + 1) = u32 (ir i + INPUT_BUF))) with (bool_decide (c' = NL ∨ c' = C_D ∨ (length r + length ed = 127)%nat)).
  2:{ rewrite He, u32_fwd, (bool_decide_ext (u32 (ir i + (Z.of_nat (length (r ++ ed)) + 1)) = u32 (ir i + INPUT_BUF)) (Z.of_nat (length (r ++ ed)) + 1 = INPUT_BUF));
        [|apply u32_inj; rewrite ?length_app; unfold INPUT_BUF; lia]. rewrite length_app. unfold INPUT_BUF. repeat case_bool_decide; done || lia. }
  case_bool_decide as H5; eexists; (split; [reflexivity|]); [exact Hp1|]. apply Hp2. tauto.
Qed.
Lemma keys_ok cs : ∀ s a d, cons_ok (inp s) a →
  ∃ s', consoleintr_loop cs d s = Ok (d || existsb (λ c, bool_decide (c = C_P)) cs, s') ∧ cons_ok (inp s') (foldl (λ a c, akey c a) a cs).
Proof.
  induction cs as [|c cs IH]; intros s a d H; [exists s; by rewrite orb_false_r|]. destruct (key_ok c s a H) as (s1 & Hk & H1).
  cbn [consoleintr_loop]. rewrite (bind_ok _ _ _ _ _ Hk). destruct (IH s1 _ (d || bool_decide (c = C_P)) H1) as (s2 & Hr & H2). exists s2.
  split; [|done]. rewrite Hr. simpl. by rewrite orb_assoc.
Qed.
Lemma pop_ok i r ed c : cons_ok i (c :: r, ed) → cons_ok (mkinput (ibuf i) (u32 (ir i + 1)) (iw i) (ie i)) (r, ed) ∧
  ∀ e, get_char (ir i) (mkc i e) = Ok (c, mkc i e).
Proof.
  intros H. split; [|intros e; pose proof (ok_char i _ 0 c e H eq_refl) as Hc; rewrite Z.add_0_r in Hc; rewrite u32_small in Hc; [done|apply H]].
  destruct H as [Hl Hr Hw He Hm Ha Hn]. simpl in *. split; simpl; try done.
  - apply u32_range.
  - rewrite Hw. unfold u32. rewrite Zplus_mod_idemp_l. f_equal. lia.
  - rewrite He. unfold u32. rewrite Zplus_mod_idemp_l. f_equal. lia.
  - lia.
  - intros k d Hk. rewrite <- (Ha (S k) d Hk). do 2 f_equal. unfold u32, INPUT_BUF. change (2^32) with 4294967296. dlia.
Qed.
Lemma read_ok killed target n : ∀ got s r ed, cons_ok (inp s) (r, ed) →
  let '(o, n', got', r') := aread target n r got in
  ∃ s', read_loop killed target n got s = Ok (match o with Some g => RDone g | None => if killed then RKilled else RSleep n' got' end, s') ∧
    cons_ok (inp s') (r', ed).
Proof.
  induction n as [|n IH]; intros got [i e] r ed H; [by exists (mkc i e)|]. cbn [inp] in H. cbn [aread read_loop]. rewrite (bind_ok _ _ _ i (mkc i e)) by done.
  rewrite (ready_empty _ _ _ H). destruct r as [|c r]; [exists (mkc i e); by destruct killed|]. rewrite (bool_decide_eq_false_2 (c :: r = [])) by done.
  destruct (pop_ok _ _ _ _ H) as [Hp Hc]. rewrite (bind_ok _ _ _ _ _ (Hc e)). cbv zeta.
  rewrite (bind_ok _ _ _ tt (mkc (mkinput (ibuf i) (u32 (ir i + 1)) (iw i) (ie i)) e)) by done. case_bool_decide as H1.
  { case_bool_decide as H2; [|eexists; by split]. eexists. split; [reflexivity|]. cbn [inp].
    replace (u32 (u32 (ir i + 1) - 1)) with (ir i); [by destruct i|]. rewrite u32_back by lia. rewrite u32_small; [lia|]. pose proof (ck_r _ _ H). lia. }
  case_bool_decide as H2; [eexists; by split|]. apply (IH (got ++ [c]) (mkc _ e) r ed Hp).
Qed.

(** ** Claims *)

(** C40: the console is a line discipline.  The ring buffer with its three counters,
    which wrap around, stands for the finished input and the line being typed: a
    keyboard interrupt does with them what the editing keys mean, whatever keys it
    brings, and finishes a line at its end, at the end-of-file key or when the buffer
    is full; a read returns what is left of the first finished line, as far as it was
    asked for, or nothing at the end-of-file key, and otherwise sleeps.  None of the
    loops runs past the buffer. *)
Theorem console_line_discipline s ready edit : cons_ok (inp s) (ready, edit) →
  (∀ cs, ∃ s', consoleintr cs s = Ok (existsb (λ c, bool_decide (c = C_P)) cs, s') ∧
     cons_ok (inp s') (foldl (λ a c, akey c a) (ready, edit) cs)) ∧
  (∀ killed n, let '(o, n', got, ready') := aread (Z.to_nat n) (Z.to_nat n) ready [] in
     ∃ s', consoleread killed n s = Ok (match o with Some g => RDone g | None => if killed then RKilled else RSleep n' got end, s') ∧
       cons_ok (inp s') (ready', edit)).
Proof.
  intros H. split.
  - intros cs. by apply keys_ok.
  - intros killed n. by apply read_ok.
Qed.
Definition cons0 : cstate := mkc (mkinput (replicate 128 0) 4294967295 4294967295 4294967295) [].
Lemma cons0_ok : cons_ok (inp cons0) ([], []).
Proof. split; [reflexivity|simpl; lia|reflexivity|reflexivity|simpl; lia|done|apply not_elem_of_nil]. Qed.
(** [a], [x], backspace, [b], return. *)
Lemma console_line_discipline_witness : ∃ s', consoleintr [97; 120; 8; 98; 13] cons0 = Ok (false, s') ∧ cons_ok (inp s') ([97; 98; 10], []).
Proof. exact (proj1 (console_line_discipline cons0 [] [] cons0_ok) [97; 120; 8; 98; 13]). Defined.

Lemma crt_set_ok p v l : 0 ≤ p < Z.of_nat (length l) → crt_set p v l = Ok (<[Z.to_nat p := v]> l).
Proof. intros H. unfold crt_set. by rewrite bool_decide_eq_true_2. Qed.
(** Output stays on the screen.  Whatever characters are printed, the cursor stays
    in the first 24 rows, every access is inside the 25 rows of the CGA memory, and the
    cursor's panic is never reached; a line feed in the last row moves the rows up. *)
Theorem cgaputc_on_screen c s : length (crt s) = 2000%nat → 0 ≤ pos s < 24 * 80 →
  ∃ s', cgaputc c s = Ok s' ∧ length (crt s') = 2000%nat ∧ 0 ≤ pos s' < 24 * 80 ∧
    (c = NL → 23 * 80 ≤ pos s → pos s' = 23 * 80 ∧ take (23 * 80) (crt s') = take (23 * 80) (drop 80 (crt s))).
Proof.
  intros Hl Hp. unfold cgaputc.
  assert (∃ l p, (if bool_decide (c = NL) then Ok (mkcga (crt s) (pos s + (80 - Z.rem (pos s) 80)))
       else if bool_decide (c = BACKSPACE) then Ok (mkcga (crt s) (if bool_decide (pos s > 0) then pos s - 1 else pos s))
       else l ← crt_set (pos s) (Z.lor (Z.land c 255) 1792) (crt s); mret (mkcga l (pos s + 1))) = Ok (mkcga l p) ∧ length l = 2000%nat ∧ 0 ≤ p ≤ 24 * 80 ∧
       (c = NL → l = crt s ∧ (23 * 80 ≤ pos s → p = 24 * 80))) as (l & p & -> & Hl2 & Hp2 & Hnl).
  { rewrite Z.rem_mod_nonneg by lia. case_bool_decide as H1; [eexists _, _; split; [reflexivity|]; split; [done|]; split; [dlia|]; intros _; split; [done|dlia]|].
    case_bool_decide as H2; [eexists _, _; split; [reflexivity|]; split; [done|]; split; [case_bool_decide; lia|done]|].
    rewrite crt_set_ok by lia. eexists _, _. split; [reflexivity|]. split; [by rewrite length_insert|]. split; [lia|done]. }
  cbn [mbind res_bind mret res_ret crt pos]. rewrite bool_decide_eq_false_2 by lia. rewrite Z.quot_div_nonneg by lia. case_bool_decide as Hs.
  - assert (p = 24 * 80) as -> by dlia. rewrite bool_decide_eq_true_2 by lia. rewrite bool_decide_eq_true_2 by lia. cbn [mbind res_bind mret res_ret crt pos].
    rewrite crt_set_ok; [|rewrite !length_app, !length_take, !length_app, length_replicate, !length_drop, !length_app, !length_take, !length_drop; lia].
    eexists. split; [reflexivity|]. cbn [crt pos]. split; [rewrite length_insert, !length_app, !length_take, !length_app, length_replicate, !length_drop, !length_app, !length_take, !length_drop; lia|].
    split; [lia|]. intros Hc Hge. destruct (Hnl Hc) as [-> _]. split; [done|]. rewrite take_insert by lia. rewrite take_app_le by (rewrite length_take, !length_app, length_take, !length_drop; lia).
    rewrite take_take, Nat.min_l by lia. rewrite take_app_le by (rewrite length_take, length_drop; lia). rewrite take_take. f_equal.
  - cbn [mbind res_bind mret res_ret crt pos]. assert (p < 24 * 80) by dlia. rewrite crt_set_ok by (cbn [crt pos]; lia). eexists. split; [reflexivity|]. cbn [crt pos].
    split; [by rewrite length_insert|]. split; [lia|]. intros Hc Hge. destruct (Hnl Hc) as [_ Hx]. specialize (Hx Hge). lia.
Qed.
Lemma cgaputc_on_screen_witness : ∃ s', cgaputc NL (mkcga (replicate 2000 0) 1900) = Ok s' ∧ pos s' = 1840.
Proof.
  destruct (cgaputc_on_screen NL (mkcga (replicate 2000 0) 1900)) as (s' & Hr & _ & _ & Hn); [reflexivity|cbn [pos]; lia|].
  exists s'. split; [exact Hr|]. destruct (Hn eq_refl) as [Hp _]; [cbn [pos]; lia|exact Hp].
Defined.
