(* ===== verification/Ulib.v ===== *)
(** * Numbers in the user library

    Models [printint] and [printf] of [src/lab3/xv6-public/printf.c] and [atoi] of
    [ulib.c] (the same files are in lab4).  What is printed is the list of the bytes
    given to [putc]; signed overflow is undefined. *)
From stdpp Require Import base numbers list sets.
From S2P Require Import Prelude Bytes.
#[local] Open Scope Z_scope.

Definition digits : list Z := [48; 49; 50; 51; 52; 53; 54; 55; 56; 57; 65; 66; 67; 68; 69; 70].
(** The [do]-loop: [buf] holds the digits so far, the lowest first; it has 16 bytes. *)
Fixpoint digits_loop (fuel : nat) (base x : Z) (buf : list Z) : res (list Z) :=
  match fuel with
  | O => Fault OutOfFuel
  | S fuel =>
    if bool_decide (16 ≤ length buf)%nat then Fault Undefined
    else
      d ← of_option (digits !! Z.to_nat (x `mod` base));
      let x := x / base in
      if bool_decide (x ≠ 0) then digits_loop fuel base x (buf ++ [d]) else Ok (buf ++ [d])
  end.
Definition printint (xx base : Z) (sgn : bool) : res (list Z) :=
  let neg := sgn && bool_decide (xx < 0) in
  x ← (if neg then if bool_decide (xx = -2^31) then Fault Undefined else Ok (- xx) else Ok (u32 xx));
  buf ← digits_loop 17 base x [];
  buf ← (if neg then if bool_decide (16 ≤ length buf)%nat then Fault Undefined else Ok (buf ++ [45]) else Ok buf);
  mret (reverse buf).

(** [ap] are the words behind the format; [mem] the memory that strings are in. *)
Definition null_string : list Z := [40; 110; 117; 108; 108; 41].
Fixpoint printf_loop (mem fmt : list Z) (percent : bool) (ap : list Z) : res (list Z) :=
  match fmt with
  | [] => mret []
  | c :: fmt =>
    if percent then
      if bool_decide (c ∈ [100; 120; 112; 115; 99]) then
        match ap with
        | [] => Fault Undefined
        | a :: ap =>
          out ← (if bool_decide (c = 100) then printint (s32 a) 10 true
                 else if bool_decide (c = 120 ∨ c = 112) then printint (s32 a) 16 false
                 else if bool_decide (c = 115) then
                   if bool_decide (a = 0) then Ok null_string else cstring (drop (Z.to_nat a) mem)
                 else Ok [u8 a]);
          rest ← printf_loop mem fmt false ap;
          mret (out ++ rest)
        end
      else
        rest ← printf_loop mem fmt false ap;
        mret ((if bool_decide (c = 37) then [c] else [37; c]) ++ rest)
    else if bool_decide (c = 37) then printf_loop mem fmt true ap
    else rest ← printf_loop mem fmt false ap; mret (c :: rest)
  end.
Definition printf (mem fmt ap : list Z) : res (list Z) := printf_loop mem fmt false ap.

Fixpoint atoi_loop (s : list Z) (n : Z) : res Z :=
  match s with
  | c :: s =>
    if bool_decide (48 ≤ c ≤ 57) then
      let n' := n * 10 + c - 48 in
      if bool_decide (n * 10 + c < 2^31) then atoi_loop s n' else Fault Undefined
    else Ok n
  | [] => Ok n
  end.
Definition atoi (s : list Z) : res Z := atoi_loop s 0.

(** ** Digits *)
Definition dval (d : Z) : Z := if bool_decide (d ≤ 57) then d - 48 else d - 55.
(** [l], highest first, is [x] in the base. *)
Definition value (base : Z) (l : list Z) : Z := foldl (λ n d, n * base + dval d) 0 l.
Definition is_digit (base d : Z) : Prop := ∃ k, 0 ≤ k < base ∧ digits !! Z.to_nat k = Some d.
Lemma digit_val base k d : 2 ≤ base ≤ 16 → 0 ≤ k < base → digits !! Z.to_nat k = Some d →
  dval d = k ∧ (base ≤ 10 → 48 ≤ d ≤ 57).
Proof.
  intros Hb Hk Hd. assert (k = Z.of_nat (Z.to_nat k)) as Ek by lia. set (n := Z.to_nat k) in *. clearbody n. subst k.
  do 16 (destruct n as [|n]; [injection Hd as <-; (split; [reflexivity|lia])|]). done.
Qed.
Lemma value_app base l d : value base (l ++ [d]) = value base l * base + dval d.
Proof. unfold value. by rewrite foldl_app. Qed.
(** The loop writes the digits of [x], at most as many as its bits. *)
Lemma digits_loop_ok base : 2 ≤ base ≤ 16 → ∀ k fuel x buf, 0 ≤ x < base ^ Z.of_nat (S k) → (length buf + k < 16)%nat → (k < fuel)%nat →
  ∃ l, digits_loop fuel base x buf = Ok (buf ++ l) ∧ l ≠ [] ∧ (length l ≤ S k)%nat ∧ Forall (is_digit base) l ∧ value base (reverse l) = x.
Proof.
  intros Hb. induction k as [|k IH]; intros [|fuel] x buf Hx Hl Hf; try lia; cbn [digits_loop]; rewrite bool_decide_eq_false_2 by lia.
  - pose proof (Z.mod_pos_bound x base). destruct (lookup_lt_is_Some_2 digits (Z.to_nat (x `mod` base))) as [d Hd]; [simpl; lia|]. rewrite Hd. cbn [of_option mbind res_bind].
    rewrite Z.pow_1_r in Hx. rewrite Z.div_small by lia. rewrite bool_decide_eq_false_2 by auto. exists [d]. rewrite Z.mod_small in Hd by lia.
    destruct (digit_val base x d Hb Hx Hd) as [Hv _]. split_and!; [done|done|simpl; lia| |].
    + constructor; [|constructor]. by exists x.
    + change (value base ([] ++ [d]) = x). rewrite value_app, Hv. change (value base []) with 0. lia.
  - pose proof (Z.mod_pos_bound x base). destruct (lookup_lt_is_Some_2 digits (Z.to_nat (x `mod` base))) as [d Hd]; [simpl; lia|]. rewrite Hd. cbn [of_option mbind res_bind].
    destruct (digit_val base (x `mod` base) d Hb ltac:(lia) Hd) as [Hv _]. assert (is_digit base d) as Hdig by (exists (x `mod` base); split; [lia|done]).
    case_bool_decide as Hz.
    + destruct (IH fuel (x / base) (buf ++ [d])) as (l & Hr & Hne & Hll & Hall & Hval).
      * split; [apply Z.div_pos; lia|]. apply Z.div_lt_upper_bound; [lia|]. rewrite <- Z.pow_succ_r by lia. replace (Z.succ (Z.of_nat (S k))) with (Z.of_nat (S (S k))) by lia. lia.
      * rewrite length_app. simpl. lia.
      * lia.
      * exists (d :: l). split; [rewrite Hr; by rewrite <- app_assoc|]. split; [done|]. split; [simpl; lia|]. split; [by constructor|]. rewrite reverse_cons, value_app, Hval, Hv.
        pose proof (Z.div_mod x base ltac:(lia)). lia.
    + exists [d]. split; [done|]. split; [done|]. split; [simpl; lia|]. split; [by repeat constructor|]. change (value base ([] ++ [d]) = x). rewrite value_app, Hv. change (value base []) with 0. pose proof (Z.div_mod x base ltac:(lia)).
      destruct (decide (x / base = 0)); [lia|done].
Qed.
Lemma digit_char d : is_digit 10 d → 48 ≤ d ≤ 57.
Proof. intros (k & Hk & Hd). apply (digit_val 10 k d ltac:(lia) Hk Hd). lia. Qed.
Lemma value_from l : Forall (λ d, 48 ≤ d ≤ 57) l → ∀ n, 0 ≤ n → n ≤ foldl (λ n d, n * 10 + dval d) n l.
Proof.
  induction 1 as [|d l Hd _ IH]; intros n Hn; [done|]. cbn [foldl]. unfold dval at 2. rewrite bool_decide_eq_true_2 by lia. etrans; [|apply IH]; lia.
Qed.
Lemma atoi_loop_ok rest : (match rest with c :: _ => ¬ (48 ≤ c ≤ 57) | [] => True end) → ∀ l n, Forall (λ d, 48 ≤ d ≤ 57) l → 0 ≤ n →
  foldl (λ n d, n * 10 + dval d) n l < 2^31 - 48 → atoi_loop (l ++ rest) n = Ok (foldl (λ n d, n * 10 + dval d) n l).
Proof.
  intros Hr l. induction l as [|d l IH]; intros n Hl Hn Hlt; cbn [app foldl] in *.
  - destruct rest as [|c rest]; [done|]. cbn [atoi_loop]. by rewrite bool_decide_eq_false_2.
  - apply Forall_cons in Hl as [Hd Hl]. cbn [atoi_loop]. rewrite bool_decide_eq_true_2 by done.
    assert (dval d = d - 48) as Ed by (unfold dval; by rewrite bool_decide_eq_true_2 by lia). rewrite Ed in *.
    pose proof (value_from l Hl (n * 10 + (d - 48)) ltac:(lia)). cbv zeta. rewrite bool_decide_eq_true_2 by lia.
    replace (n * 10 + d - 48) with (n * 10 + (d - 48)) by lia. apply IH; [done|lia|done].
Qed.

(** [printint] writes the digits of the number in the base, a minus sign in front of a
    negative one, and never overruns its buffer. *)
Theorem printint_digits xx base sgn : 10 ≤ base ≤ 16 → - 2^31 < xx < 2^31 →
  ∃ l, printint xx base sgn = Ok ((if sgn && bool_decide (xx < 0) then [45] else []) ++ l) ∧ l ≠ [] ∧ Forall (is_digit base) l ∧
    value base l = if sgn && bool_decide (xx < 0) then - xx else u32 xx.
Proof.
  intros Hb Hx. unfold printint. set (neg := sgn && bool_decide (xx < 0)). set (x := if neg then - xx else u32 xx).
  assert (neg = true → xx < 0) as Hneg by (unfold neg; intros [_ H%bool_decide_eq_true]%andb_prop; done).
  assert (0 ≤ x < 2^32) as Hxr by (unfold x; destruct neg; [specialize (Hneg eq_refl); lia|apply u32_range]).
  assert ((if neg then if bool_decide (xx = -2^31) then Fault Undefined else Ok (- xx) else Ok (u32 xx)) = Ok x) as ->.
  { unfold x. destruct neg; [|done]. by rewrite bool_decide_eq_false_2 by lia. }
  assert (10 ^ 10 ≤ base ^ 10) as Hp by (apply Z.pow_le_mono_l; lia).
  destruct (digits_loop_ok base ltac:(lia) 9 17 x []) as (l & Hr & Hne & Hl & Hall & Hv); [change (Z.of_nat 10) with 10; lia|simpl; lia|lia|].
  cbn [mbind res_bind]. rewrite Hr. cbn [app mbind res_bind]. exists (reverse l). assert (reverse l ≠ []) as Hne' by (intros E; apply Hne; rewrite <- (reverse_involutive l), E; done).
  split; [|split; [done|split; [by apply Forall_reverse|done]]]. destruct neg; [|done]. cbv beta iota. rewrite bool_decide_eq_false_2 by lia. cbn [mbind res_bind mret res_ret].
  by rewrite reverse_app.
Qed.
Lemma printint_digits_witness : ∃ l, printint (-255) 16 false = Ok l ∧ value 16 l = 4294967041.
Proof. destruct (printint_digits (-255) 16 false ltac:(lia) ltac:(lia)) as (l & Hp & _ & _ & Hv). exists l. split; [exact Hp|exact Hv]. Defined.

(** Reading a printed number back: [atoi] of what [printf] writes for [%d], before
    anything that is not a digit, is the number.  [atoi] adds the character before it
    subtracts '0', so the last 48 numbers overflow. *)
Theorem printf_atoi_roundtrip mem n rest : 0 ≤ n < 2^31 - 48 → (match rest with c :: _ => ¬ (48 ≤ c ≤ 57) | [] => True end) →
  ∃ s, printf mem [37; 100] [n] = Ok s ∧ atoi (s ++ rest) = Ok n.
Proof.
  intros Hn Hrest. destruct (printint_digits n 10 true ltac:(lia) ltac:(lia)) as (l & Hp & _ & Hall & Hv).
  rewrite bool_decide_eq_false_2 in Hp, Hv by lia. cbn [andb app] in *. rewrite u32_small in Hv by lia. exists l. split.
  - unfold printf. cbn [printf_loop]. rewrite bool_decide_eq_true_2 by done. rewrite bool_decide_eq_true_2 by set_solver. rewrite bool_decide_eq_true_2 by done.
    rewrite s32_small by lia. rewrite Hp. cbn [mbind res_bind mret res_ret]. by rewrite app_nil_r.
  - unfold atoi. rewrite (atoi_loop_ok rest Hrest l 0).
    + f_equal. exact Hv.
    + eapply Forall_impl; [exact Hall|]. apply digit_char.
    + lia.
    + change (value 10 l < 2^31 - 48). rewrite Hv. lia.
Qed.
Lemma printf_atoi_roundtrip_witness : ∃ s, printf [] [37; 100] [1550] = Ok s ∧ atoi (s ++ [10]) = Ok 1550.
Proof. apply (printf_atoi_roundtrip [] 1550 [10]); lia. Defined.
